(* ===== verification/_CoqProject ===== *)
-Q . S2P
Prelude.v
Hal.v
Pipe.v
Keyboard.v
Task.v
Sched.v
X86.v
Ipc.v
Vfs.v
RamFs.v
Fd.v
Memory.v
Loader.v
Process.v
Virtqueue.v
BlockDev.v
Ext2.v
Ext2Disk.v
Ext2Alloc.v
Ext2Dir.v
Ext2Sample.v
Executor.v
Coop.v
Capability.v
Fat32.v
Fat32Table.v
Fat32File.v
Fat32Dir.v
Fat32Sample.v
Console.v
Serial.v
Syscall.v
Devices.v
KernelFiles.v
KernelSample.v
Pci.v
Virtio.v
VirtioDisk.v
VirtioSample.v
KShell.v
Ulib.v
UlibSample.v
Boot.v
Intr.v
Preempt.v
UserMode.v
Start.v
Main.v
Fault.v
Init.v
