(* ===== verification/Prelude.v ===== *)
(** * Serix: a shallow embedding of the kernel, and the theorems that make it correct

    Serix is a kernel for x86_64 written in Rust.  User programs enter it by
    system calls (kernel/src/syscall.rs); a preemptive round-robin scheduler
    (task/) runs their tasks; descriptors (kernel/src/fd.rs) lead to the nodes
    of a virtual file system (vfs/) that is made of an in-memory file system,
    devices, pipes (kernel/src/pipe.rs) and the disk file systems ext2 and
    FAT32 (fs/), which run on a virtio block device (drivers/).  Programs are
    linked with a small library (ulib/); they are ELF files (loader/) that
    kernel/src/process.rs loads into address spaces built from the frames and
    page tables of memory/.  Output goes to a serial port (hal/src/serial.rs)
    and a framebuffer terminal (graphics/), input comes from a keyboard
    (keyboard/).  kernel/src/main.rs brings all of it up and starts a shell inside the kernel (kernel/src/kshell.rs).

    ** How the code is modelled

    Every function of the source is a Rocq function with the source's name
    (methods as [Type_method], a prefix where two crates use one name), on the
    state it reads and writes:
    - machine integers are [Z]; the release build wraps, so the arithmetic that
      can leave its type is written with [wrap], or [⊞ ⊟ ⊠] at 64 bits;
    - whatever panics in Rust (index, slice and division errors, [unwrap],
      [assert!]) or is undefined behaviour of a raw pointer is [Panic] of the
      monad [outcome], so that its absence is a theorem;
    - [Option], [Result] and error numbers are values;
    - objects shared by [Arc] live on heaps ([gmap] from locations), statics are
      fields of a state record; a [Mutex] is its contents: the kernel
      runs on one CPU, and a lock is released by the operation that takes it.
      The exception is a read that blocks, which keeps the lock of its file's
      offset; no other task has that file ([read_turn] in Syscall);
    - [while] and [loop] are [loop_end]: a positive number of turns that bounds
      the states the loop can visit; a loop still running after them never ends
      and counts as a panic.  Each use states its bound, and the theorems show
      that the result is reached within it;
    - traits are type classes ([INode], [BlockDev], [KernelNodes]), their
      documented behaviour further classes ([ReadLaw], [Disk]); the theorems of
      a client are proved against the class and the instances discharge it;
    - hardware and the crates outside of the repository (page tables of the
      x86_64 crate, the UART, the PCI bus, the virtio device, the interrupt
      controllers, futures) are types with a class that
      states what their documentation promises ([Mapper] and [MapperBudget],
      [Uart16550], [VirtioDisk] and the like); concrete instances show that
      the classes can be satisfied, and the theorems are applied to them.

    ** Files

    Scheduling and processes.
    - Task: task/src/lib.rs and scheduler.rs, and the parts of SYS_EXIT and
      SYS_WAIT that act on tasks; Sched: its theorems.  Every state reachable
      from boot keeps the run queue sound; preemption is round robin; a task
      resumes with the registers it had; ids are unique; a parent blocked in
      SYS_WAIT is never woken.
    - X86: the naked assembly functions, run on a small machine: the context
      switch implements the model of Task, a system call preserves what the ABI
      says, unless it blocks and another task enters the kernel.
    - Executor: task/src/executor.rs, async_task.rs, yield_now.rs and the
      executor and cooperative scheduler of lib.rs; the two executors agree.
      Coop: the task builder and the start of the cooperative scheduler.
    - Process: kernel/src/process.rs and the loading part of main.rs: the memory
      of a spawned process is the image of its file, and spawning fails only for
      want of frames or of kernel stacks.  Loader: loader/src.
    - Memory: memory/src: frames, kernel stacks, SLUB; no two live blocks,
      stacks or frames overlap.
    - Boot: the steps of _start (kernel/src/main.rs) that build kernel state:
      the frame allocator, device mappings, the file system, the first tasks;
      Start: the memory part of it and the start of the disk driver, which
      succeed on a machine with enough frames.  Main: [_start], all of the steps
      in the order of the source.
    - Intr: segments (kernel/src/gdt.rs), the interrupt table (idt/), the
      interrupt controllers and the timer (apic/), the keyboard controller, the
      registers of the system call, and the order in which boot sets them up.
      Preempt: executions of tasks and interrupts together, with the interrupts
      the local APIC has in service.  Fault: the exception handlers and the panic
      handler (idt/src/lib.rs, util/src/panic.rs, main.rs).  UserMode: the boot
      code's own copies of the steps that enter a program (main.rs).  Hal:
      control registers and the core's type (hal/src/cpu.rs, topology.rs).

    Files, descriptors and communication.
    - Vfs: the mount table and path resolution of vfs/src/lib.rs; RamFs: the
      in-memory files and directories; Fd: kernel/src/fd.rs; Pipe:
      kernel/src/pipe.rs; Ipc: ipc/src/lib.rs; Capability: capability/src.
    - Syscall: kernel/src/syscall.rs, all calls over the whole kernel state;
      Devices: the nodes of the standard streams and of pipes (stdio.rs,
      drivers/src/console.rs); KernelFiles: what programs see of files, pipes
      and the terminal through system calls; KernelSample: a concrete kernel.
    - Ulib: ulib/src and print_u64 of its example program: the system-call stubs
      over any world with a system-call instruction and over the kernel of
      Syscall, printing, read_line, the heap; UlibSample: its theorems on a concrete
      kernel; Init: the example program (ulib/examples/init.rs) on the kernel.
    - KShell: kernel/src/kshell.rs: the line editor, redirection, every command.

    Devices and disks.
    - Keyboard: keyboard/src/lib.rs; Console: graphics/src; Serial:
      hal/src/serial.rs; Pci: drivers/src/pci.rs.
    - Virtio: drivers/src/virtio.rs (discovery, negotiation, queues, transfers)
      and the law of the device; VirtioDisk: a driver that finds such a device is
      a disk in the sense of BlockDev; VirtioSample: a concrete device.
    - Virtqueue: drivers/src/virtqueue.rs; BlockDev: fs/src/lib.rs and
      drivers/src/block.rs, and the law of a working disk.
    - Ext2: fs/src/ext2, with Ext2Disk (blocks), Ext2Alloc (bitmaps), Ext2Dir
      (directory blocks) and Ext2Sample (a volume).
    - Fat32: fs/src/fat32/mod.rs, with Fat32Table (allocation table), Fat32File
      (contents), Fat32Dir (directories) and Fat32Sample (a volume).

    Prelude (this file): integers, outcomes, loops, slices indexed by [Z],
    little-endian fields, the tactics and hint databases.

    ** What the theorems show

    - Invariants and safety over all executions: the run queue, live memory,
      task ids, the descriptor table of a virtqueue, ext2 bitmaps and counts,
      user memory under every system call, isolation of descriptors.
    - Refinement of a specification: pipes, ports and the keyboard are bounded
      queues, the terminal is a grid of characters, directories (in memory, in
      ext2 blocks, in FAT32 chains) are finite maps, the virtio driver is a disk, the
      assembly is the model's context switch.
    - Round trips: written bytes are read back (RAM files, FAT32 files, through
      system calls), ELF files load as the image they encode, directory listings
      decode to the entries; what the shell redirects to a file, cat prints.
    - Composition: a stub of the user library does what the kernel's call does;
      a typed line arrives in a program's buffer; the first program prints what
      the kernel knows of it and exits; [_start], given the answers of the boot
      loader, ends with the banner on the screen, a working disk, the files of the
      first task and the shell on its own stack; the numbers used as
      selectors are those of the segment table; each device's interrupt is routed
      to its handler.
    - Errors: what the system calls refuse and with which number; where the
      code goes wrong (a parent never woken, a program that stops the kernel by
      printing a tab, preemption that stops with the first switch, since the
      timer's interrupt is not acknowledged; a disk whose queue is larger than
      the page of its descriptors; a descriptor chain of 2^16 buffers; block
      numbers that are off by the first data block); what an exception prints before it
      halts the machine.

    ** Bounds

    Fuel appears in three forms: [loop_end] with the bound given at its use (the
    number of clusters of a table, of bytes of configuration space, of polls a
    device may need), structural recursion on [nat] derived from the data
    (descriptors of a queue, bytes of a block), and [turns], the unbounded
    iteration the bounds are compared with.  In each case a theorem gives the
    result under the hypothesis that the data is well formed, never only if the
    loop returns.

    ** Not modelled

    - hal/src/io.rs: single instructions, the interfaces the drivers are proved
      against; hlt and endless loops are where a model ends ([Halted] in Fault).
    - kernel/src/main.rs: the requests to the boot loader, whose answers are
      arguments of [_start]; what it logs on the serial port; interrupts that
      arrive while it runs.
    - One user memory per task: the kernel of Syscall has the memory that the
      running task sees, and theorems about several tasks let it be arbitrary
      when another one runs.
    - The GS base together with the scheduler: a system call that blocks
      switches tasks without the [swapgs] of its return.  The step relation
      of the scheduler has no GS base; X86 shows on the machine what the next
      entry from user mode then does.
    - The formatting of the core library: printing takes the formatted pieces.
    - task/src/lib.rs: task_trampoline, which nothing refers to;
      task/src/waker.rs: a waker that does nothing.
    - util/src/lib.rs: the handler of failed allocations, an endless loop.
    - Several CPUs: the code starts one. *)

From stdpp Require Export base tactics decidable option list list_numbers numbers.
From stdpp Require Export gmap fin_maps strings relations.

#[global] Set Default Goal Selector "1".

Open Scope Z_scope.

(* ------------------------------------------------------------------ *)
(** ** Machine integers *)

(** Unsigned machine integers are [Z]; the release profile of the kernel
    compiles [+], [-], [*] without overflow checks, so every arithmetic
    operation that can leave its range is written with [wrap]. *)
Definition wrap (w z : Z) : Z := z `mod` 2 ^ w.

Definition U64_MAX : Z := 2 ^ 64 - 1.

Definition saturating_add64 (a b : Z) : Z := Z.min (a + b) U64_MAX.
Definition saturating_sub (a b : Z) : Z := Z.max 0 (a - b).

Declare Scope serix_scope.
Delimit Scope serix_scope with serix.
Notation "a ⊞ b" := (wrap 64 (a + b)) (at level 50, left associativity) : serix_scope.
Notation "a ⊟ b" := (wrap 64 (a - b)) (at level 50, left associativity) : serix_scope.
Notation "a ⊠ b" := (wrap 64 (a * b)) (at level 40, left associativity) : serix_scope.
Open Scope serix_scope.

(** [is_uint w z]: [z] is a value of the [w]-bit unsigned type. *)
Definition is_uint (w z : Z) : Prop := 0 ≤ z < 2 ^ w.

#[global] Instance is_uint_dec w z : Decision (is_uint w z).
Proof. unfold is_uint. apply _. Defined.

(** Rounding up to a multiple of [2 ^ k], as the code's
    [(n + (2^k - 1)) & !(2^k - 1)] does. *)
Definition align_up (k n : Z) : Z := ((n + (2 ^ k - 1)) ≫ k) ≪ k.

(** Heap objects behind an [Arc]: pointer identity is equality of locations. *)
Abbreviation loc := nat (only parsing).

(* ------------------------------------------------------------------ *)
(** ** Outcomes: a Rust computation returns or panics *)

(** A panic (a slice index out of range, a division by zero, an [unwrap] of
    [None]) aborts the kernel; it is a value here so that its absence can be
    proved. *)
Inductive outcome (A : Type) : Type :=
  | Done (a : A)
  | Panic.
Arguments Done {A} a.
Arguments Panic {A}.

#[global] Instance outcome_ret : MRet outcome := λ A a, Done a.
#[global] Instance outcome_bind : MBind outcome := λ A B f o,
  match o with Done a => f a | Panic => Panic end.
#[global] Instance outcome_fmap : FMap outcome := λ A B f o,
  match o with Done a => Done (f a) | Panic => Panic end.

Definition unwrap {A} (o : option A) : outcome A :=
  match o with Some a => Done a | None => Panic end.

Definition assert_or_panic (b : bool) : outcome unit :=
  if b then Done tt else Panic.

(** [Result<T, &'static str>]. *)
Inductive result (A : Type) : Type :=
  | Ok (a : A)
  | Err (e : string).
Arguments Ok {A} a.
Arguments Err {A} e.

#[global] Instance result_eq_dec `{EqDecision A} : EqDecision (result A).
Proof. solve_decision. Defined.

#[global] Instance outcome_eq_dec `{EqDecision A} : EqDecision (outcome A).
Proof. solve_decision. Defined.

(* ------------------------------------------------------------------ *)
(** ** Slices: lists indexed by [usize] values *)

Definition zlen {A} (l : list A) : Z := Z.of_nat (length l).

Definition zget {A} (l : list A) (i : Z) : option A :=
  if 0 <=? i then l !! Z.to_nat i else None.

Definition zset {A} (l : list A) (i : Z) (x : A) : list A :=
  if 0 <=? i then <[Z.to_nat i := x]> l else l.

Definition ztake {A} (n : Z) (l : list A) : list A := take (Z.to_nat n) l.
Definition zdrop {A} (n : Z) (l : list A) : list A := drop (Z.to_nat n) l.
Definition zrep {A} (n : Z) (x : A) : list A := replicate (Z.to_nat n) x.
#[global] Arguments zrep : simpl never.

(** [zslice l a b] is the list [l[a..b]] when [a <= b <= len]. *)
Definition zslice {A} (l : list A) (a b : Z) : list A := ztake (b - a) (zdrop a l).

(** [zsplice l a src] overwrites [l] from index [a] on with [src]. *)
Definition zsplice {A} (l : list A) (a : Z) (src : list A) : list A :=
  ztake a l ++ src ++ zdrop (a + zlen src) l.

(** The checked operations of the language: indexing and slicing panic out of
    range, [copy_from_slice] panics when the lengths differ. *)
Definition idx {A} (l : list A) (i : Z) : outcome A := unwrap (zget l i).

Definition upd {A} (l : list A) (i : Z) (x : A) : outcome (list A) :=
  if (0 <=? i) && (i <? zlen l) then Done (zset l i x) else Panic.

Definition slice {A} (l : list A) (a b : Z) : outcome (list A) :=
  if (0 <=? a) && (a <=? b) && (b <=? zlen l) then Done (zslice l a b) else Panic.

Definition copy_into {A} (l : list A) (a b : Z) (src : list A) : outcome (list A) :=
  if (0 <=? a) && (a <=? b) && (b <=? zlen l) && (zlen src =? b - a)
  then Done (zsplice l a src) else Panic.

(** [l.iter().enumerate()]. *)
Definition zenum {A} (l : list A) : list (Z * A) := zip (seqZ 0 (zlen l)) l.

(** [iter().take_while(f)]. *)
Fixpoint take_while {A} (f : A → bool) (l : list A) : list A :=
  match l with
  | [] => []
  | x :: l => if f x then x :: take_while f l else []
  end.

(** [for x in l { body }] over an accumulator, stopping at a panic. *)
Fixpoint for_each {A S} (l : list A) (body : A → S → outcome S) (s : S) : outcome S :=
  match l with
  | [] => Done s
  | x :: l => s' ← body x s; for_each l body s'
  end.

(** The same with early exit: [inl] goes on, [inr] is a [break] or a [return]. *)
Fixpoint for_until {A S R} (l : list A) (body : A → S → outcome (S + R)) (s : S) : outcome (S + R) :=
  match l with
  | [] => Done (inl s)
  | x :: l =>
      r ← body x s;
      match r with inl s => for_until l body s | inr r => Done (inr r) end
  end.

(** [loop { body }] for at most [p] turns; the count is binary, so a bound that
    no terminating run reaches costs nothing to compute with. *)
Fixpoint loop_upto {S R} (p : positive) (body : S → outcome (S + R)) (s : S) : outcome (S + R) :=
  match p with
  | xH => body s
  | xO p =>
      r ← loop_upto p body s;
      match r with inl s => loop_upto p body s | inr r => Done (inr r) end
  | xI p =>
      r ← body s;
      match r with
      | inl s =>
          r ← loop_upto p body s;
          match r with inl s => loop_upto p body s | inr r => Done (inr r) end
      | inr r => Done (inr r)
      end
  end.

(** The loop's result; a loop still running after [p] turns never ends when
    [p] bounds its states: the kernel is stuck, counted as a panic. *)
Definition loop_end {S R} (p : positive) (body : S → outcome (S + R)) (s : S) : outcome R :=
  r ← loop_upto p body s;
  match r with inl _ => Panic | inr r => Done r end.

(** More turns than a driver that polls its device can make. *)
Definition SPIN_TURNS : positive := (2 ^ 64)%positive.

(* ------------------------------------------------------------------ *)
(** ** Little-endian encodings and bytes *)

Definition byte_ok (b : Z) : Prop := 0 ≤ b < 2 ^ 8.
Definition bytes_ok (l : list Z) : Prop := Forall byte_ok l.

Definition to_le (n : Z) (v : Z) : list Z := Z_to_little_endian n 8 v.
Definition from_le (bs : list Z) : Z := little_endian_to_Z 8 bs.

(** [u16::from_le_bytes] / [u32] / [u64] of the bytes at an offset of a slice. *)
Definition le_at (n : Z) (l : list Z) (off : Z) : outcome Z :=
  bs ← slice l off (off + n); Done (from_le bs).

Definition put_le (n : Z) (l : list Z) (off v : Z) : outcome (list Z) :=
  copy_into l off (off + n) (to_le n v).

(* ------------------------------------------------------------------ *)
(** ** Tactics and hint databases *)

Create HintDb serix.
Create Rewrite HintDb zl.

(** Reduce every boolean comparison of the context and the goal to [Z] facts. *)
Ltac zbool :=
  repeat match goal with
  | H : context [Z.leb ?a ?b] |- _ => destruct (Z.leb_spec a b); simplify_eq/=
  | H : context [Z.ltb ?a ?b] |- _ => destruct (Z.ltb_spec a b); simplify_eq/=
  | H : context [Z.eqb ?a ?b] |- _ => destruct (Z.eqb_spec a b); simplify_eq/=
  | |- context [Z.leb ?a ?b] => destruct (Z.leb_spec a b); simplify_eq/=
  | |- context [Z.ltb ?a ?b] => destruct (Z.ltb_spec a b); simplify_eq/=
  | |- context [Z.eqb ?a ?b] => destruct (Z.eqb_spec a b); simplify_eq/=
  end.

(** Step through the binds of a hypothesis [m = Done r]. *)
Ltac run_in H :=
  repeat match type of H with
  | mbind _ ?m = Done _ =>
      let a := fresh "r" in let E := fresh "E" in
      destruct m as [a|] eqn:E; [simpl in H|discriminate H]
  | (if ?b then _ else _) = Done _ =>
      let E := fresh "E" in destruct b eqn:E; simpl in H; try discriminate H
  | match ?o with Some _ => _ | None => _ end = Done _ =>
      let E := fresh "E" in destruct o eqn:E; simpl in H; try discriminate H
  end.

(** Destruct the next [if] or [match] of the goal, keeping its equation. *)
Ltac cases :=
  match goal with
  | |- context [if ?b then _ else _] =>
      let E := fresh "E" in destruct b eqn:E
  | |- context [match ?o with Some _ => _ | None => _ end] =>
      let E := fresh "E" in destruct o eqn:E
  end.

(* ------------------------------------------------------------------ *)
(** ** Integers *)

Section ints.
Lemma wrap_small w z : is_uint w z → wrap w z = z.
Proof. intros ?. by apply Z.mod_small. Qed.

Lemma wrap_range w z : 0 ≤ w → is_uint w (wrap w z).
Proof. intros. apply Z.mod_pos_bound. by apply Z.pow_pos_nonneg. Qed.

Lemma wrap_wrap w z : 0 ≤ w → wrap w (wrap w z) = wrap w z.
Proof. intros. by apply wrap_small, wrap_range. Qed.

Lemma wrap_sub_borrow w z : 0 ≤ w → - 2 ^ w ≤ z < 0 → wrap w z = z + 2 ^ w.
Proof.
  intros. unfold wrap. rewrite <-(Z.mod_add z 1) by lia.
  rewrite Z.mul_1_l. apply Z.mod_small. lia.
Qed.

Lemma wrap_add_carry w z : 0 ≤ w → 2 ^ w ≤ z < 2 * 2 ^ w → wrap w z = z - 2 ^ w.
Proof.
  intros. unfold wrap. rewrite <-(Z.mod_add z (-1)) by lia.
  replace (z + -1 * 2 ^ w) with (z - 2 ^ w) by lia. apply Z.mod_small. lia.
Qed.

Lemma align_up_mul k n : 0 ≤ k → align_up k n = 2 ^ k * ((n + (2 ^ k - 1)) `div` 2 ^ k).
Proof.
  intros. unfold align_up.
  rewrite Z.shiftl_mul_pow2, Z.shiftr_div_pow2 by done. lia.
Qed.

Lemma align_up_spec k n :
  0 ≤ k → n ≤ align_up k n < n + 2 ^ k ∧ align_up k n `mod` 2 ^ k = 0.
Proof.
  intros Hk. pose proof (Z.pow_pos_nonneg 2 k ltac:(lia) Hk).
  rewrite align_up_mul by done. split.
  - pose proof (Z.div_mod (n + (2 ^ k - 1)) (2 ^ k) ltac:(lia)).
    pose proof (Z.mod_pos_bound (n + (2 ^ k - 1)) (2 ^ k) ltac:(lia)). lia.
  - rewrite Z.mul_comm. apply Z.mod_mul. lia.
Qed.

(** Two different offsets below [m] from the same start never wrap to the
    same slot of a ring of [m] slots. *)
Lemma mod_add_inj m a i j :
  0 < m → 0 ≤ i < m → 0 ≤ j < m → (a + i) `mod` m = (a + j) `mod` m → i = j.
Proof.
  intros Hm Hi Hj E.
  assert ((i - j) `mod` m = 0) as Hz.
  { replace (i - j) with ((a + i) - (a + j)) by lia.
    rewrite Zminus_mod, E, Z.sub_diag. apply Z.mod_0_l. lia. }
  apply Z.mod_divide in Hz as [k Hk]; [|lia].
  assert (k = 0) by nia. lia.
Qed.
End ints.

(* ------------------------------------------------------------------ *)
(** ** Outcomes *)

Section outcomes.
Lemma bind_Done {A B} (m : outcome A) (f : A → outcome B) b :
  m ≫= f = Done b ↔ ∃ a, m = Done a ∧ f a = Done b.
Proof. destruct m; naive_solver. Qed.

Lemma for_each_app {A S} (l1 l2 : list A) (body : A → S → outcome S) s :
  for_each (l1 ++ l2) body s = for_each l1 body s ≫= for_each l2 body.
Proof.
  revert s. induction l1 as [|x l1 IH]; intros s; simpl; [done|].
  destruct (body x s); simpl; [apply IH|done].
Qed.

(** A loop invariant: what the body preserves, the loop preserves. *)
Lemma for_each_inv {A S} (P : S → Prop) (l : list A) (body : A → S → outcome S) s s' :
  (∀ x s1 s2, x ∈ l → P s1 → body x s1 = Done s2 → P s2) →
  P s → for_each l body s = Done s' → P s'.
Proof.
  revert s. induction l as [|x l IH]; intros s Hstep Hs H; simpl in H; [by simplify_eq|].
  apply bind_Done in H as (s1 & Hb & H).
  eapply IH; [|eapply Hstep; eauto; left|done].
  intros. eapply Hstep; eauto. by right.
Qed.

Lemma for_each_ext {A S} (l : list A) (f g : A → S → outcome S) s :
  (∀ x s, x ∈ l → f x s = g x s) → for_each l f s = for_each l g s.
Proof.
  revert s. induction l as [|x l IH]; intros s Hfg; simpl; [done|].
  rewrite Hfg by left. destruct (g x s); simpl; [|done]. apply IH. intros. apply Hfg. by right.
Qed.

(** A total body makes a total loop. *)
Lemma for_each_total {A S} (P : S → Prop) (l : list A) (body : A → S → outcome S) s :
  (∀ x s1, x ∈ l → P s1 → ∃ s2, body x s1 = Done s2 ∧ P s2) →
  P s → ∃ s', for_each l body s = Done s' ∧ P s'.
Proof.
  revert s. induction l as [|x l IH]; intros s Hstep Hs; simpl; [by eauto|].
  destruct (Hstep x s) as (s1 & -> & Hs1); [by left|done|]. simpl.
  apply IH; [|done]. intros. apply Hstep; [by right|done].
Qed.

Fixpoint turns {S R} (n : nat) (body : S → outcome (S + R)) (s : S) : outcome (S + R) :=
  match n with
  | O => Done (inl s)
  | S n =>
      r ← body s;
      match r with inl s => turns n body s | inr r => Done (inr r) end
  end.

Lemma turns_add {S R} n m (body : S → outcome (S + R)) s :
  turns (n + m) body s =
  (r ← turns n body s; match r with inl s => turns m body s | inr r => Done (inr r) end).
Proof.
  revert s. induction n as [|n IH]; intros s; simpl; [done|].
  destruct (body s) as [[s'|r]|]; simpl; [apply IH|done..].
Qed.

Lemma loop_upto_turns {S R} p (body : S → outcome (S + R)) s :
  loop_upto p body s = turns (Pos.to_nat p) body s.
Proof.
  assert (∀ p s, loop_upto p body s = turns (Pos.to_nat p) body s) as Hp; [|done].
  clear p s. intros p. induction p as [p IH|p IH|]; intros s; simpl loop_upto.
  - replace (Pos.to_nat p~1) with (1 + (Pos.to_nat p + Pos.to_nat p))%nat by lia. simpl.
    destruct (body s) as [[s'|r]|]; simpl; [|done..].
    rewrite turns_add, IH. destruct (turns _ body s') as [[]|]; simpl; [apply IH|done..].
  - replace (Pos.to_nat p~0) with (Pos.to_nat p + Pos.to_nat p)%nat by lia.
    rewrite turns_add, IH. destruct (turns _ body s) as [[]|]; simpl; [apply IH|done..].
  - change (Pos.to_nat 1) with 1%nat. simpl. by destruct (body s) as [[]|].
Qed.

(** A loop that leaves after [n] turns leaves under every larger bound. *)
Lemma loop_end_turns {S R} p n (body : S → outcome (S + R)) s r :
  turns n body s = Done (inr r) → (n ≤ Pos.to_nat p)%nat → loop_end p body s = Done r.
Proof.
  intros Hr Hn. unfold loop_end. rewrite loop_upto_turns.
  replace (Pos.to_nat p) with (n + (Pos.to_nat p - n))%nat by lia.
  by rewrite turns_add, Hr.
Qed.

(** An invariant of a loop, and what holds when it leaves. *)
Lemma loop_end_inv {S R} (P : S → Prop) (Q : R → Prop) p (body : S → outcome (S + R)) s r :
  (∀ s s', P s → body s = Done (inl s') → P s') → (∀ s r, P s → body s = Done (inr r) → Q r) →
  P s → loop_end p body s = Done r → Q r.
Proof.
  intros Hin Hout Hs. unfold loop_end. rewrite loop_upto_turns. generalize (Pos.to_nat p) as n. intros n.
  revert s Hs. induction n as [|n IH]; intros s Hs E; [done|]. simpl in E.
  destruct (body s) as [[s'|r']|] eqn:Eb; simpl in E; [|by simplify_eq; eauto|done].
  apply (IH s'); [by eapply Hin|done].
Qed.
End outcomes.

(* ------------------------------------------------------------------ *)
(** ** Slices *)

Section zlists.
Context {A : Type}.
Implicit Types (l src : list A) (x : A) (i j a b n : Z).

Lemma zlen_nonneg l : 0 ≤ zlen l.
Proof. unfold zlen. lia. Qed.

Lemma zlen_nil : zlen (@nil A) = 0.
Proof. done. Qed.
Lemma zlen_cons x l : zlen (x :: l) = zlen l + 1.
Proof. unfold zlen. simpl. lia. Qed.
Lemma zlen_app l1 l2 : zlen (l1 ++ l2) = zlen l1 + zlen l2.
Proof. unfold zlen. rewrite length_app. lia. Qed.
Lemma zlen_zset l i x : zlen (zset l i x) = zlen l.
Proof. unfold zlen, zset. cases; [|done]. by rewrite length_insert. Qed.
Lemma zlen_zrep n x : 0 ≤ n → zlen (zrep n x) = n.
Proof. unfold zlen, zrep. rewrite length_replicate. lia. Qed.
Lemma zlen_ztake n l : 0 ≤ n ≤ zlen l → zlen (ztake n l) = n.
Proof. unfold zlen, ztake. rewrite length_take. lia. Qed.
Lemma zlen_zdrop n l : 0 ≤ n ≤ zlen l → zlen (zdrop n l) = zlen l - n.
Proof. unfold zlen, zdrop. rewrite length_drop. lia. Qed.
Lemma zlen_zslice l a b : 0 ≤ a ≤ b → b ≤ zlen l → zlen (zslice l a b) = b - a.
Proof. intros. unfold zslice. rewrite zlen_ztake; [done|]. rewrite zlen_zdrop; lia. Qed.
Lemma zlen_zsplice l a src :
  0 ≤ a → a + zlen src ≤ zlen l → zlen (zsplice l a src) = zlen l.
Proof.
  intros. pose proof (zlen_nonneg src). unfold zsplice.
  rewrite !zlen_app, zlen_ztake, zlen_zdrop by lia. lia.
Qed.

Lemma zget_Some_range l i x : zget l i = Some x → 0 ≤ i < zlen l.
Proof.
  unfold zget, zlen. destruct (Z.leb_spec 0 i); [|done].
  intros ?%lookup_lt_Some. lia.
Qed.
Lemma zget_is_Some l i : 0 ≤ i < zlen l → is_Some (zget l i).
Proof.
  unfold zget, zlen. intros. destruct (Z.leb_spec 0 i); [|lia].
  apply lookup_lt_is_Some. lia.
Qed.
Lemma zget_None l i : ¬ (0 ≤ i < zlen l) → zget l i = None.
Proof.
  unfold zget, zlen. intros. destruct (Z.leb_spec 0 i); [|done].
  apply lookup_ge_None. lia.
Qed.
Lemma zget_nat l (k : nat) : zget l (Z.of_nat k) = l !! k.
Proof. unfold zget. destruct (Z.leb_spec 0 (Z.of_nat k)); [|lia]. by rewrite Nat2Z.id. Qed.

Lemma zlist_eq l1 l2 : (∀ i, 0 ≤ i → zget l1 i = zget l2 i) → l1 = l2.
Proof. intros H. apply list_eq. intros k. rewrite <-!zget_nat. apply H. lia. Qed.

Lemma zget_zset_eq l i x : 0 ≤ i < zlen l → zget (zset l i x) i = Some x.
Proof.
  unfold zget, zset, zlen. intros. destruct (Z.leb_spec 0 i); [|lia].
  apply list_lookup_insert_eq. lia.
Qed.
Lemma zget_zset_ne l i j x : i ≠ j → zget (zset l i x) j = zget l j.
Proof.
  unfold zget, zset. intros. destruct (Z.leb_spec 0 j); [|done].
  destruct (Z.leb_spec 0 i); [|done]. apply list_lookup_insert_ne. lia.
Qed.
Lemma zget_ztake n l i : i < n → zget (ztake n l) i = zget l i.
Proof.
  unfold zget, ztake. intros. destruct (Z.leb_spec 0 i); [|done].
  apply lookup_take_lt. lia.
Qed.
Lemma zget_ztake_ge n l i : n ≤ i → zget (ztake n l) i = None.
Proof.
  unfold zget, ztake. intros. destruct (Z.leb_spec 0 i); [|done].
  apply lookup_take_ge. lia.
Qed.
Lemma zget_zdrop n l i : 0 ≤ n → 0 ≤ i → zget (zdrop n l) i = zget l (n + i).
Proof.
  unfold zget, zdrop. intros. rewrite !(proj2 (Z.leb_le _ _)) by lia.
  rewrite lookup_drop. f_equal. lia.
Qed.
Lemma zget_zrep n x i : 0 ≤ i < n → zget (zrep n x) i = Some x.
Proof.
  unfold zget, zrep. intros. rewrite (proj2 (Z.leb_le _ _)) by lia.
  apply lookup_replicate. split; [done|lia].
Qed.
Lemma zget_app_l l1 l2 i : i < zlen l1 → zget (l1 ++ l2) i = zget l1 i.
Proof.
  unfold zget, zlen. intros. destruct (Z.leb_spec 0 i); [|done].
  apply lookup_app_l. lia.
Qed.
Lemma zget_app_r l1 l2 i : zlen l1 ≤ i → zget (l1 ++ l2) i = zget l2 (i - zlen l1).
Proof.
  unfold zget, zlen. intros. rewrite !(proj2 (Z.leb_le _ _)) by lia.
  rewrite lookup_app_r by lia. f_equal. lia.
Qed.
Lemma zget_cons_succ x l i : 0 ≤ i → zget (x :: l) (i + 1) = zget l i.
Proof.
  intros. change (x :: l) with ([x] ++ l).
  rewrite zget_app_r; unfold zlen; simpl; [f_equal|]; lia.
Qed.
Lemma zget_zslice l a b i : 0 ≤ a → 0 ≤ i < b - a → zget (zslice l a b) i = zget l (a + i).
Proof. intros. unfold zslice. rewrite zget_ztake, zget_zdrop by lia. done. Qed.
Lemma zget_zsplice_in l a src i :
  0 ≤ a ≤ zlen l → a ≤ i < a + zlen src → zget (zsplice l a src) i = zget src (i - a).
Proof.
  intros. unfold zsplice. rewrite zget_app_r by (rewrite zlen_ztake; lia).
  rewrite zlen_ztake, zget_app_l by lia. done.
Qed.
Lemma zget_zsplice_out l a src i :
  0 ≤ a → a + zlen src ≤ zlen l → ¬ (a ≤ i < a + zlen src) →
  zget (zsplice l a src) i = zget l i.
Proof.
  intros. pose proof (zlen_nonneg src). unfold zsplice. destruct (decide (i < a)).
  - rewrite zget_app_l, zget_ztake by (rewrite ?zlen_ztake; lia). done.
  - rewrite zget_app_r by (rewrite zlen_ztake; lia).
    rewrite zlen_ztake, zget_app_r, zget_zdrop by lia. f_equal. lia.
Qed.

Lemma zset_zset_comm l i j x y : i ≠ j → zset (zset l i x) j y = zset (zset l j y) i x.
Proof.
  unfold zset. intros. destruct (Z.leb_spec 0 i), (Z.leb_spec 0 j); try done.
  symmetry. apply list_insert_insert_ne. lia.
Qed.

Lemma zslice_zsplice_same l a src b :
  0 ≤ a → a + zlen src ≤ zlen l → b = a + zlen src → zslice (zsplice l a src) a b = src.
Proof.
  intros ?? ->. pose proof (zlen_nonneg src). apply zlist_eq. intros i Hi.
  destruct (decide (i < zlen src)).
  - rewrite zget_zslice, zget_zsplice_in by lia. f_equal. lia.
  - unfold zslice. rewrite zget_ztake_ge, zget_None by lia. done.
Qed.

Lemma zslice_zsplice_disjoint l a src c d :
  0 ≤ a → a + zlen src ≤ zlen l → 0 ≤ c → d ≤ a ∨ a + zlen src ≤ c →
  zslice (zsplice l a src) c d = zslice l c d.
Proof.
  intros. apply zlist_eq. intros i Hi. destruct (decide (i < d - c)).
  - rewrite !zget_zslice, zget_zsplice_out by lia. done.
  - unfold zslice. by rewrite !zget_ztake_ge by lia.
Qed.

(** Two adjacent writes are one. *)
Lemma zsplice_app l a s1 s2 :
  0 ≤ a → a + zlen s1 + zlen s2 ≤ zlen l →
  zsplice (zsplice l a s1) (a + zlen s1) s2 = zsplice l a (s1 ++ s2).
Proof.
  intros. pose proof (zlen_nonneg s1). pose proof (zlen_nonneg s2).
  assert (zlen (zsplice l a s1) = zlen l) by (apply zlen_zsplice; lia).
  apply zlist_eq. intros i Hi.
  destruct (decide (a + zlen s1 ≤ i < a + zlen s1 + zlen s2)).
  - rewrite zget_zsplice_in, zget_zsplice_in by (rewrite ?zlen_app; lia).
    rewrite zget_app_r by lia. f_equal. lia.
  - rewrite zget_zsplice_out by lia. destruct (decide (a ≤ i < a + zlen s1)).
    + rewrite !zget_zsplice_in, zget_app_l by (rewrite ?zlen_app; lia). done.
    + rewrite !zget_zsplice_out by (rewrite ?zlen_app; lia). done.
Qed.

Lemma zsplice_next l s1 s2 a b :
  0 ≤ a → b = a + zlen s1 → a + zlen s1 + zlen s2 ≤ zlen l →
  zsplice (zsplice l a s1) b s2 = zsplice l a (s1 ++ s2).
Proof. intros ? -> ?. by apply zsplice_app. Qed.

(** Read, change a part, write back: only the part changes. *)
Lemma zsplice_zslice_part l a b o src :
  0 ≤ a ≤ b → b ≤ zlen l → 0 ≤ o → a + o + zlen src ≤ b →
  zsplice l a (zsplice (zslice l a b) o src) = zsplice l (a + o) src.
Proof.
  intros. pose proof (zlen_nonneg src).
  assert (zlen (zslice l a b) = b - a) as Hs by (apply zlen_zslice; lia).
  assert (zlen (zsplice (zslice l a b) o src) = b - a) as Hz by (rewrite zlen_zsplice; lia).
  apply zlist_eq. intros i Hi. destruct (decide (a ≤ i < b)).
  - rewrite zget_zsplice_in by lia. destruct (decide (a + o ≤ i < a + o + zlen src)).
    + rewrite !zget_zsplice_in by lia. f_equal. lia.
    + rewrite !zget_zsplice_out, zget_zslice by lia. f_equal. lia.
  - by rewrite !zget_zsplice_out by lia.
Qed.

Lemma zsplice_nil l a : zsplice l a [] = l.
Proof. unfold zsplice, ztake, zdrop, zlen. simpl. rewrite Z.add_0_r. apply take_drop. Qed.

Lemma zslice_nil l a b : b ≤ a → zslice l a b = [].
Proof. intros. unfold zslice, ztake. by replace (Z.to_nat (b - a)) with 0%nat by lia. Qed.

Lemma zsplice_full l src : zlen l = zlen src → zsplice l 0 src = src.
Proof.
  intros. apply zlist_eq. intros i Hi. destruct (decide (i < zlen src)).
  - rewrite zget_zsplice_in by lia. f_equal. lia.
  - pose proof (zlen_nonneg src). rewrite !zget_None; [done|lia|]. rewrite zlen_zsplice; lia.
Qed.

Lemma zslice_zslice l a b c d :
  0 ≤ a ≤ b → b ≤ zlen l → 0 ≤ c → d ≤ b - a → zslice (zslice l a b) c d = zslice l (a + c) (a + d).
Proof.
  intros. apply zlist_eq. intros i Hi. destruct (decide (i < d - c)).
  - rewrite !zget_zslice by lia. f_equal. lia.
  - unfold zslice. rewrite !zget_ztake_ge by lia. done.
Qed.

Lemma zslice_full l : zslice l 0 (zlen l) = l.
Proof.
  unfold zslice, ztake, zdrop, zlen. rewrite drop_0, Z.sub_0_r, Nat2Z.id. apply take_ge. done.
Qed.

Lemma zslice_app l a b c : 0 ≤ a ≤ b → b ≤ c → zslice l a b ++ zslice l b c = zslice l a c.
Proof.
  intros. unfold zslice, ztake, zdrop.
  replace (drop (Z.to_nat b) l) with (drop (Z.to_nat (b - a)) (drop (Z.to_nat a) l))
    by (rewrite drop_drop; f_equal; lia).
  replace (Z.to_nat (c - a)) with (Z.to_nat (b - a) + Z.to_nat (c - b))%nat by lia.
  apply take_take_drop.
Qed.
End zlists.

Lemma seqZ_snoc m n : 0 ≤ n → seqZ m (n + 1) = seqZ m n ++ [m + n].
Proof.
  intros. replace n with (Z.of_nat (Z.to_nat n)) by lia.
  replace (Z.of_nat (Z.to_nat n) + 1) with (Z.of_nat (S (Z.to_nat n))) by lia. apply seqZ_S.
Qed.

(** A counted loop: [P i] holds before turn [i], [P n] after the last one. *)
Lemma for_range {S} (P : Z → S → Prop) n (body : Z → S → outcome S) s :
  0 ≤ n → P 0 s →
  (∀ i s, 0 ≤ i < n → P i s → ∃ s', body i s = Done s' ∧ P (i + 1) s') →
  ∃ s', for_each (seqZ 0 n) body s = Done s' ∧ P n s'.
Proof.
  intros Hn H0 Hstep. revert Hstep. pattern n. apply natlike_ind; [|clear n Hn|done].
  - intros _. by exists s.
  - intros n Hn IH Hstep. unfold Z.succ. destruct IH as (s1 & E1 & P1); [intros; apply Hstep; [lia|done]|].
    destruct (Hstep n s1) as (s2 & E2 & P2); [lia|done|].
    exists s2. rewrite seqZ_snoc, for_each_app, E1 by done. cbn [mbind outcome_bind for_each].
    by rewrite Z.add_0_l, E2.
Qed.

#[global] Hint Rewrite @zlen_nil @zlen_cons @zlen_app @zlen_zset : zl.
#[global] Hint Rewrite @zlen_zrep @zlen_ztake @zlen_zdrop @zlen_zslice @zlen_zsplice
  using (autorewrite with zl; lia) : zl.

(** Length goals: push [zlen] through the list operations and call [lia]. *)
Ltac zlen_solve :=
  repeat match goal with
  | l : list _ |- _ =>
      lazymatch goal with
      | _ : 0 ≤ zlen l |- _ => fail
      | _ => pose proof (zlen_nonneg l)
      end
  end;
  autorewrite with zl in *; try lia.

Section checked.
Context {A : Type}.
Implicit Types (l src : list A).

Lemma idx_Done l i x : idx l i = Done x ↔ zget l i = Some x.
Proof. unfold idx, unwrap. destruct (zget l i); naive_solver. Qed.

Lemma upd_Done l i x : 0 ≤ i < zlen l → upd l i x = Done (zset l i x).
Proof. intros. unfold upd. zbool; lia || done. Qed.

Lemma upd_inv l i x l' : upd l i x = Done l' → 0 ≤ i < zlen l ∧ l' = zset l i x.
Proof. unfold upd. intros H. zbool; naive_solver lia. Qed.

Lemma slice_Done l a b : 0 ≤ a ≤ b → b ≤ zlen l → slice l a b = Done (zslice l a b).
Proof. intros. unfold slice. zbool; lia || done. Qed.

Lemma slice_inv l a b s :
  slice l a b = Done s → 0 ≤ a ≤ b ∧ b ≤ zlen l ∧ s = zslice l a b.
Proof. unfold slice. intros H. zbool; naive_solver lia. Qed.

Lemma slice_len l a b s : slice l a b = Done s → zlen s = b - a.
Proof. intros (? & ? & ->)%slice_inv. zlen_solve. Qed.

Lemma copy_into_Done l a b src :
  0 ≤ a → b ≤ zlen l → zlen src = b - a → copy_into l a b src = Done (zsplice l a src).
Proof.
  intros. pose proof (zlen_nonneg src). unfold copy_into. zbool; lia || done.
Qed.

Lemma copy_into_inv l a b src l' :
  copy_into l a b src = Done l' →
  0 ≤ a ≤ b ∧ b ≤ zlen l ∧ zlen src = b - a ∧ l' = zsplice l a src.
Proof. unfold copy_into. intros H. zbool; naive_solver lia. Qed.

Lemma copy_into_len l a b src l' : copy_into l a b src = Done l' → zlen l' = zlen l.
Proof. intros (? & ? & ? & ->)%copy_into_inv. zlen_solve. Qed.
End checked.

(* ------------------------------------------------------------------ *)
(** ** Bytes *)

Section bytes.
Lemma zlen_to_le n v : 0 ≤ n → zlen (to_le n v) = n.
Proof. intros. unfold zlen, to_le. by apply length_Z_to_little_endian. Qed.

Lemma bytes_ok_to_le n v : 0 ≤ n → bytes_ok (to_le n v).
Proof. intros. apply Z_to_little_endian_bound; lia. Qed.

Lemma from_le_to_le n v : 0 ≤ n → is_uint (n * 8) v → from_le (to_le n v) = v.
Proof.
  intros. unfold from_le, to_le. rewrite little_endian_to_Z_to_little_endian by lia.
  by apply Z.mod_small.
Qed.

Lemma to_le_from_le n bs : n = zlen bs → bytes_ok bs → to_le n (from_le bs) = bs.
Proof. intros. by apply Z_to_little_endian_to_Z. Qed.

Lemma from_le_range bs : bytes_ok bs → is_uint (zlen bs * 8) (from_le bs).
Proof. intros. by apply little_endian_to_Z_bound. Qed.

Lemma bytes_ok_zget l i b : bytes_ok l → zget l i = Some b → byte_ok b.
Proof.
  unfold zget. intros H. destruct (0 <=? i); [|done]. intros Hi.
  by eapply Forall_lookup_1 in H.
Qed.
Lemma bytes_ok_zset l i b : bytes_ok l → byte_ok b → bytes_ok (zset l i b).
Proof. unfold bytes_ok, zset. intros. cases; [|done]. by apply Forall_insert. Qed.
Lemma bytes_ok_ztake n l : bytes_ok l → bytes_ok (ztake n l).
Proof. apply Forall_take. Qed.
Lemma bytes_ok_zdrop n l : bytes_ok l → bytes_ok (zdrop n l).
Proof. apply Forall_drop. Qed.
Lemma bytes_ok_app l1 l2 : bytes_ok l1 → bytes_ok l2 → bytes_ok (l1 ++ l2).
Proof. intros. by apply Forall_app. Qed.
Lemma bytes_ok_zslice l a b : bytes_ok l → bytes_ok (zslice l a b).
Proof. intros. by apply bytes_ok_ztake, bytes_ok_zdrop. Qed.
Lemma bytes_ok_zsplice l a src : bytes_ok l → bytes_ok src → bytes_ok (zsplice l a src).
Proof.
  intros. repeat apply bytes_ok_app; auto using bytes_ok_ztake, bytes_ok_zdrop.
Qed.
Lemma bytes_ok_zrep n b : byte_ok b → bytes_ok (zrep n b).
Proof. intros. by apply Forall_replicate. Qed.

Lemma le_at_Done n l off :
  0 ≤ n → 0 ≤ off → off + n ≤ zlen l → le_at n l off = Done (from_le (zslice l off (off + n))).
Proof. intros. unfold le_at. by rewrite slice_Done by lia. Qed.

Lemma put_le_Done n l off v :
  0 ≤ n → 0 ≤ off → off + n ≤ zlen l → put_le n l off v = Done (zsplice l off (to_le n v)).
Proof. intros. unfold put_le. rewrite copy_into_Done; rewrite ?zlen_to_le; lia || done. Qed.

(** Reading back a field just written. *)
Lemma le_at_put_le n l off v l' :
  0 ≤ n → is_uint (n * 8) v → put_le n l off v = Done l' → le_at n l' off = Done v.
Proof.
  intros ?? (? & ? & Hl & ->)%copy_into_inv.
  rewrite le_at_Done by (zlen_solve).
  rewrite zslice_zsplice_same by lia. by rewrite from_le_to_le.
Qed.

(** A field is untouched by a write to a disjoint one. *)
Lemma le_at_put_le_ne n m l off off' v l' :
  0 ≤ n → 0 ≤ m → off' + m ≤ off ∨ off + n ≤ off' →
  put_le n l off v = Done l' → le_at m l' off' = le_at m l off'.
Proof.
  intros ??? (? & ? & Hl & ->)%copy_into_inv. unfold le_at, slice.
  rewrite zlen_zsplice by lia. cases; [|done]. simpl.
  by rewrite zslice_zsplice_disjoint by (zbool; lia).
Qed.
End bytes.

#[export] Hint Resolve bytes_ok_to_le bytes_ok_zset bytes_ok_ztake bytes_ok_zdrop bytes_ok_app
  bytes_ok_zslice bytes_ok_zsplice bytes_ok_zrep : serix.
#[global] Hint Rewrite @zlen_to_le using lia : zl.

(* ------------------------------------------------------------------ *)
(** ** Records in byte slices *)

(** [data] holds [bytes] at offset [o]. *)
Definition holds (data : list Z) (o : Z) (bytes : list Z) : Prop :=
  0 ≤ o ∧ o + zlen bytes ≤ zlen data ∧ zslice data o (o + zlen bytes) = bytes.

Section holds.
Lemma holds_app_l data o a b : holds data o (a ++ b) → holds data o a.
Proof.
  intros (H1 & H2 & H3). rewrite zlen_app in *. pose proof (zlen_nonneg a). pose proof (zlen_nonneg b).
  split_and!; [done|lia|].
  rewrite <-(zslice_app data o (o + zlen a)) in H3 by lia.
  apply app_inj_1 in H3 as [? _]; [done|].
  apply Nat2Z.inj. fold (zlen (zslice data o (o + zlen a))) (zlen a). rewrite zlen_zslice by lia. lia.
Qed.

Lemma holds_app_r data o a b : holds data o (a ++ b) → holds data (o + zlen a) b.
Proof.
  intros (H1 & H2 & H3). rewrite zlen_app in *. pose proof (zlen_nonneg a). pose proof (zlen_nonneg b).
  split_and!; [lia|lia|].
  rewrite <-(zslice_app data o (o + zlen a)) in H3 by lia.
  apply app_inj_1 in H3 as [_ H3].
  - by replace (o + zlen a + zlen b) with (o + (zlen a + zlen b)) by lia.
  - apply Nat2Z.inj. fold (zlen (zslice data o (o + zlen a))) (zlen a). rewrite zlen_zslice by lia. lia.
Qed.

Lemma holds_slice data o bytes e :
  holds data o bytes → e = o + zlen bytes → slice data o e = Done bytes.
Proof. intros (? & ? & Hs) ->. pose proof (zlen_nonneg bytes). rewrite slice_Done by lia. by rewrite Hs. Qed.

Lemma holds_le data o n v :
  0 ≤ n → is_uint (n * 8) v → holds data o (to_le n v) → le_at n data o = Done v.
Proof.
  intros ?? Hh. unfold le_at. rewrite (holds_slice _ _ _ _ Hh) by (rewrite zlen_to_le; lia).
  simpl. by rewrite from_le_to_le.
Qed.

Lemma holds_field data o n v rest :
  0 ≤ n → is_uint (n * 8) v → holds data o (to_le n v ++ rest) →
  le_at n data o = Done v ∧ holds data (o + n) rest.
Proof.
  intros Hn Hv Hh. split; [by eapply holds_le, holds_app_l|].
  apply holds_app_r in Hh. by rewrite zlen_to_le in Hh.
Qed.

Lemma holds_app data o a b : holds data o (a ++ b) ↔ holds data o a ∧ holds data (o + zlen a) b.
Proof.
  split; [eauto using holds_app_l, holds_app_r|].
  intros [(H1 & H2 & H3) (H4 & H5 & H6)]. pose proof (zlen_nonneg a). pose proof (zlen_nonneg b).
  unfold holds. rewrite zlen_app. split_and!; [done|lia|].
  rewrite <-(zslice_app data o (o + zlen a)) by lia. rewrite H3. f_equal.
  by replace (o + (zlen a + zlen b)) with (o + zlen a + zlen b) by lia.
Qed.

Lemma holds_prefix a b : holds (a ++ b) 0 a.
Proof.
  pose proof (zlen_nonneg b). split_and!; [lia|rewrite zlen_app; lia|].
  unfold zslice, ztake, zdrop, zlen. rewrite Z.add_0_l, Z.sub_0_r, Nat2Z.id. apply take_app_length.
Qed.

Lemma ztake_zset_snoc {A} (l : list A) i x : 0 ≤ i < zlen l → ztake (i + 1) (zset l i x) = ztake i l ++ [x].
Proof.
  intros Hi. apply zlist_eq. intros j Hj. pose proof (zlen_nonneg l).
  assert (zlen (ztake i l) = i) as Hl by (rewrite zlen_ztake; lia).
  destruct (Z.lt_trichotomy j i) as [?|[->|?]].
  - rewrite zget_ztake, zget_zset_ne, zget_app_l, zget_ztake by lia. done.
  - rewrite zget_ztake, zget_zset_eq, zget_app_r by lia. by rewrite Hl, Z.sub_diag.
  - rewrite zget_ztake_ge, zget_None; [done|zlen_solve|lia].
Qed.

Lemma filter_none {A} (P : A → Prop) `{∀ x, Decision (P x)} (l : list A) : (∀ x, x ∈ l → ¬ P x) → filter P l = [].
Proof.
  induction l as [|x l IH]; intros Hn; [done|]. rewrite filter_cons, decide_False by (apply Hn; by left).
  apply IH. intros y Hy. apply Hn. by right.
Qed.

Lemma zdrop_app {A} (a b : list A) : zdrop (zlen a) (a ++ b) = b.
Proof. unfold zdrop, zlen. rewrite Nat2Z.id. apply drop_app_length. Qed.

Lemma holds_splice_other data o bytes a src :
  holds data o bytes → 0 ≤ a → a + zlen src ≤ zlen data →
  a + zlen src ≤ o ∨ o + zlen bytes ≤ a → holds (zsplice data a src) o bytes.
Proof.
  intros (H1 & H2 & H3) Ha Hl Hd. pose proof (zlen_nonneg src).
  split_and!; [done|by rewrite zlen_zsplice by lia|].
  rewrite zslice_zsplice_disjoint by lia. done.
Qed.

Lemma holds_splice_same data a src :
  0 ≤ a → a + zlen src ≤ zlen data → holds (zsplice data a src) a src.
Proof.
  intros. pose proof (zlen_nonneg src). split_and!; [done|by rewrite zlen_zsplice by lia|].
  by rewrite zslice_zsplice_same by lia.
Qed.

Lemma zset_splice {A} (l : list A) i x : 0 ≤ i < zlen l → zset l i x = zsplice l i [x].
Proof.
  intros Hi. apply zlist_eq. intros j Hj. destruct (decide (i = j)) as [->|Hne].
  - rewrite zget_zset_eq by done. rewrite zget_zsplice_in; rewrite ?zlen_cons, ?zlen_nil; [|lia..].
    by rewrite Z.sub_diag.
  - rewrite zget_zset_ne by done.
    rewrite zget_zsplice_out; rewrite ?zlen_cons, ?zlen_nil; [done|lia..].
Qed.

Lemma holds_byte data o b rest :
  holds data o (b :: rest) → idx data o = Done b ∧ holds data (o + 1) rest.
Proof.
  intros Hh. change (b :: rest) with ([b] ++ rest) in Hh. apply holds_app in Hh as [(H1 & H2 & H3) Hr].
  split; [|done]. apply idx_Done. rewrite zlen_cons, zlen_nil, Z.add_0_l in *.
  rewrite <-(Z.add_0_r o), <-(zget_zslice data o (o + 1)), H3 by lia. done.
Qed.
End holds.

(** Consume the next field of the encoding in [H] by the next read of the
    goal. *)
Ltac next_field H :=
  let E := fresh "E" in
  apply holds_field in H as [E H]; [|lia|assumption];
  rewrite <-?Z.add_assoc in H;
  try match type of H with
  | holds _ (_ + (?a + ?b)) _ => let c := eval vm_compute in (a + b) in change (a + b) with c in H
  end;
  rewrite E; clear E; cbn [mbind outcome_bind].
