(* ===== verification/Hal.v ===== *)
(** * The processor (hal/src/{cpu,topology}.rs, util/src/lib.rs)

    The control registers and the interrupt flag, the type of the core as CPUID reports
    it, and the allocator that stands in before there is a heap.  Reading and writing
    a control register through the x86_64 crate keeps the bits it has no name for, so
    that an update is one of the whole register. *)

From S2P Require Import Prelude.

#[local] Arguments Z.testbit : simpl never.

Record control := mkControl { cr0 : Z; cr4 : Z; if_flag : bool }.

Definition enable_interrupts (c : control) : control := mkControl (cr0 c) (cr4 c) true.
Definition disable_interrupts (c : control) : control := mkControl (cr0 c) (cr4 c) false.

Definition MONITOR_COPROCESSOR : Z := Z.shiftl 1 1.
Definition EMULATE_COPROCESSOR : Z := Z.shiftl 1 2.
Definition OSFXSR : Z := Z.shiftl 1 9.
Definition OSXMMEXCPT_ENABLE : Z := Z.shiftl 1 10.

Definition enable_sse (c : control) : control :=
  let r0 := Z.ldiff (cr0 c) EMULATE_COPROCESSOR in
  let r0 := Z.lor r0 MONITOR_COPROCESSOR in
  let r4 := Z.lor (cr4 c) (Z.lor OSFXSR OSXMMEXCPT_ENABLE) in
  mkControl r0 r4 (if_flag c).

Inductive CoreType := Performance | Efficiency | Unknown.

(** [cpuid] gives EAX for a leaf. *)
Definition get_core_type (cpuid : Z → Z) : CoreType :=
  let eax := cpuid 0x1A in
  let ty := Z.land (Z.shiftr eax 24) 0xFF in
  if ty =? 0x20 then Efficiency else if ty =? 0x40 then Performance else Unknown.

(** The stand-in allocator: no allocation succeeds. *)
Definition Dummy_alloc (size align : Z) : Z := 0.

(* ------------------------------------------------------------------ *)

(** SSE is on: exactly these bits of the two registers have changed. *)
Lemma enable_sse_bits c i :
  0 ≤ i →
  Z.testbit (cr0 (enable_sse c)) i = (if i =? 1 then true else if i =? 2 then false else Z.testbit (cr0 c) i) ∧
  Z.testbit (cr4 (enable_sse c)) i = (if i =? 9 then true else if i =? 10 then true else Z.testbit (cr4 c) i) ∧
  if_flag (enable_sse c) = if_flag c.
Proof.
  intros Hi. assert (∀ k, 0 ≤ k → Z.testbit (Z.shiftl 1 k) i = (i =? k)) as Hb.
  { intros k Hk. rewrite Z.shiftl_1_l, Z.pow2_bits_eqb by done. apply Z.eqb_sym. }
  unfold enable_sse, EMULATE_COPROCESSOR, MONITOR_COPROCESSOR, OSFXSR, OSXMMEXCPT_ENABLE. cbn [cr0 cr4 if_flag].
  rewrite !Z.lor_spec, Z.ldiff_spec, !Hb by lia. split_and!; [| |done].
  - destruct (Z.eqb_spec i 1), (Z.eqb_spec i 2); subst; rewrite ?orb_true_r, ?orb_false_r, ?andb_false_r, ?andb_true_r; done.
  - destruct (Z.eqb_spec i 9), (Z.eqb_spec i 10); subst; rewrite ?orb_true_r, ?orb_false_r; done.
Qed.

(** The type of the core is the top byte of the 32-bit answer, for the two that are known. *)
Lemma core_type_top_byte cpuid :
  is_uint 32 (cpuid 0x1A) →
  (get_core_type cpuid = Efficiency ↔ cpuid 0x1A / 2 ^ 24 = 0x20) ∧
  (get_core_type cpuid = Performance ↔ cpuid 0x1A / 2 ^ 24 = 0x40).
Proof.
  intros Hu. unfold get_core_type. change 0xFF with (Z.ones 8).
  rewrite Z.land_ones, Z.shiftr_div_pow2 by done. unfold is_uint in Hu.
  rewrite (Z.mod_small (_ / _)) by (Z.to_euclidean_division_equations; lia).
  destruct (Z.eqb_spec (cpuid 26 / 2 ^ 24) 32) as [->|Hn]; [done|].
  destruct (Z.eqb_spec (cpuid 26 / 2 ^ 24) 64) as [->|Hn']; done.
Qed.
