(* ===== verification/Pipe.v ===== *)
(** * Kernel pipes (kernel/src/pipe.rs)

    The ring buffer [PipeInner], the two ends of a pipe as INodes, and the
    operations that close them.  Blocked reader tasks are the locations of
    their control blocks ([loc]); waking them is the scheduler's job, so the
    operations return the tasks they wake.

    A pipe is shown to be a bounded FIFO byte stream: whatever sequence of
    writes, reads and closes is run on a new pipe, no operation panics, and
    the bytes read so far followed by the bytes still buffered are exactly the
    bytes accepted by the writes, in order.  Sleeping readers exist only while
    the pipe is empty and its write end is open. *)

From S2P Require Import Prelude.

(* ------------------------------------------------------------------ *)
(** ** The ring buffer *)

Definition PIPE_BUFSZ : Z := 4096.

Record PipeInner := mkPipeInner {
  pi_buf : list Z;
  pi_read_pos : Z;
  pi_count : Z;
  pi_write_closed : bool;
  pi_read_closed : bool;
  pi_waiters : list loc;
}.

Definition PipeInner_new : PipeInner :=
  mkPipeInner (zrep PIPE_BUFSZ 0) 0 0 false false [].

Definition PipeInner_write_pos (p : PipeInner) : Z :=
  (pi_read_pos p + pi_count p) `mod` PIPE_BUFSZ.

Definition PipeInner_space (p : PipeInner) : Z := PIPE_BUFSZ - pi_count p.

(** One iteration of the copy loop of [push]: the ring slot of byte [i] gets [b]. *)
Definition push_byte (p : PipeInner) (ib : Z * Z) (buf : list Z) : outcome (list Z) :=
  upd buf ((PipeInner_write_pos p + ib.1) `mod` PIPE_BUFSZ) ib.2.

Definition PipeInner_push (p : PipeInner) (src : list Z) : outcome (PipeInner * Z) :=
  let n := Z.min (zlen src) (PipeInner_space p) in
  head ← slice src 0 n;
  buf ← for_each (zenum head) (push_byte p) (pi_buf p);
  Done (mkPipeInner buf (pi_read_pos p) (pi_count p + n)
          (pi_write_closed p) (pi_read_closed p) (pi_waiters p), n).

(** One iteration of the copy loop of [pop]: byte [i] of the destination. *)
Definition pop_byte (p : PipeInner) (i : Z) (dst : list Z) : outcome (list Z) :=
  b ← idx (pi_buf p) ((pi_read_pos p + i) `mod` PIPE_BUFSZ);
  upd dst i b.

Definition PipeInner_pop (p : PipeInner) (dst : list Z) : outcome (PipeInner * list Z * Z) :=
  let n := Z.min (zlen dst) (pi_count p) in
  dst' ← for_each (seqZ 0 n) (pop_byte p) dst;
  Done (mkPipeInner (pi_buf p) ((pi_read_pos p + n) `mod` PIPE_BUFSZ) (pi_count p - n)
          (pi_write_closed p) (pi_read_closed p) (pi_waiters p), dst', n).

(* ------------------------------------------------------------------ *)
(** ** The two ends *)

(** One turn of the loop of [PipeReadEnd::read]: [Some n] returns [n] bytes,
    [None] has put the current task on the wait list and blocks, to run the
    loop again when it is next scheduled. *)
Definition PipeReadEnd_read (cur : option loc) (p : PipeInner) (buf : list Z)
    : outcome (PipeInner * list Z * option Z) :=
  if 0 <? pi_count p then
    '(p', buf', n) ← PipeInner_pop p buf; Done (p', buf', Some n)
  else if pi_write_closed p then Done (p, buf, Some 0)
  else
    let waiters := match cur with Some t => pi_waiters p ++ [t] | None => pi_waiters p end in
    Done (mkPipeInner (pi_buf p) (pi_read_pos p) (pi_count p)
            (pi_write_closed p) (pi_read_closed p) waiters, buf, None).

Definition PipeReadEnd_write (p : PipeInner) (buf : list Z) : Z := 0.
Definition PipeReadEnd_size (p : PipeInner) : Z := pi_count p.

Definition PipeReadEnd_drop (p : PipeInner) : PipeInner :=
  mkPipeInner (pi_buf p) (pi_read_pos p) (pi_count p) (pi_write_closed p) true (pi_waiters p).

Definition PipeWriteEnd_read (p : PipeInner) (buf : list Z) : Z := 0.

(** [PipeWriteEnd::write] returns the tasks it wakes beside its result;
    [usize::MAX] is the code's EPIPE sentinel. *)
Definition PipeWriteEnd_write (p : PipeInner) (buf : list Z)
    : outcome (PipeInner * list loc * Z) :=
  if pi_read_closed p then Done (p, [], U64_MAX)
  else
    '(p', n) ← PipeInner_push p buf;
    Done (mkPipeInner (pi_buf p') (pi_read_pos p') (pi_count p')
            (pi_write_closed p') (pi_read_closed p') [], pi_waiters p', n).

Definition PipeWriteEnd_drop (p : PipeInner) : PipeInner * list loc :=
  (mkPipeInner (pi_buf p) (pi_read_pos p) (pi_count p) true (pi_read_closed p) [],
   pi_waiters p).

(* ------------------------------------------------------------------ *)
(** ** Sequences of operations *)

Inductive pipe_op :=
  | OpWrite (src : list Z)
  | OpRead (cur : option loc) (buf : list Z)
  | OpCloseWrite
  | OpCloseRead.

(** What an operation did: [EvWrote bs] accepted the bytes [bs], [EvRead bs]
    returned them, [EvWoke] made tasks runnable again. *)
Inductive pipe_ev :=
  | EvWrote (bs : list Z)
  | EvEpipe
  | EvGot (bs : list Z)
  | EvSlept (t : option loc)
  | EvWoke (ts : list loc).

Definition pipe_do (op : pipe_op) (p : PipeInner) : outcome (PipeInner * list pipe_ev) :=
  match op with
  | OpWrite src =>
      '(p', woken, n) ← PipeWriteEnd_write p src;
      Done (p', if pi_read_closed p then [EvEpipe]
                else [EvWrote (ztake n src); EvWoke woken])
  | OpRead cur buf =>
      '(p', buf', r) ← PipeReadEnd_read cur p buf;
      Done (p', match r with
                | Some n => [EvGot (ztake n buf')]
                | None => [EvSlept cur]
                end)
  | OpCloseWrite => let '(p', woken) := PipeWriteEnd_drop p in Done (p', [EvWoke woken])
  | OpCloseRead => Done (PipeReadEnd_drop p, [])
  end.

Fixpoint pipe_run (ops : list pipe_op) (p : PipeInner) : outcome (PipeInner * list pipe_ev) :=
  match ops with
  | [] => Done (p, [])
  | op :: ops =>
      '(p1, e1) ← pipe_do op p;
      '(p2, e2) ← pipe_run ops p1;
      Done (p2, e1 ++ e2)
  end.

Definition ev_wrote (e : pipe_ev) : list Z := match e with EvWrote bs => bs | _ => [] end.
Definition ev_got (e : pipe_ev) : list Z := match e with EvGot bs => bs | _ => [] end.
Definition bytes_written (evs : list pipe_ev) : list Z := concat (ev_wrote <$> evs).
Definition bytes_read (evs : list pipe_ev) : list Z := concat (ev_got <$> evs).

(* ------------------------------------------------------------------ *)
(** ** The queue a ring buffer holds, and its invariant *)

(** Byte [i] of the queue. *)
Definition pipe_slot (p : PipeInner) (i : Z) : Z :=
  default 0 (zget (pi_buf p) ((pi_read_pos p + i) `mod` PIPE_BUFSZ)).

Definition pipe_contents (p : PipeInner) : list Z := pipe_slot p <$> seqZ 0 (pi_count p).

Record pipe_inv (p : PipeInner) : Prop := {
  pinv_len : zlen (pi_buf p) = PIPE_BUFSZ;
  pinv_pos : 0 ≤ pi_read_pos p < PIPE_BUFSZ;
  pinv_count : 0 ≤ pi_count p ≤ PIPE_BUFSZ;
  (* a sleeping reader waits on an empty pipe whose write end is open *)
  pinv_wait : pi_waiters p ≠ [] → pi_count p = 0 ∧ pi_write_closed p = false;
}.

(* ------------------------------------------------------------------ *)
(** ** The copy loops *)

Lemma bufsz_pos : 0 < PIPE_BUFSZ.
Proof. done. Qed.

Lemma ring_range a : 0 ≤ a `mod` PIPE_BUFSZ < PIPE_BUFSZ.
Proof. apply Z.mod_pos_bound, bufsz_pos. Qed.

(** After the [push] loop over [src] from ring offset [k], the slots [k] to
    [k + len - 1] hold [src] and every other slot is untouched. *)
Lemma push_loop p src k buf :
  0 ≤ k → k + zlen src ≤ PIPE_BUFSZ → zlen buf = PIPE_BUFSZ →
  ∃ buf', for_each (zip (seqZ k (zlen src)) src) (push_byte p) buf = Done buf' ∧
    zlen buf' = PIPE_BUFSZ ∧
    ∀ i, 0 ≤ i < PIPE_BUFSZ →
      zget buf' ((PipeInner_write_pos p + i) `mod` PIPE_BUFSZ) =
      if (k <=? i) && (i <? k + zlen src) then zget src (i - k)
      else zget buf ((PipeInner_write_pos p + i) `mod` PIPE_BUFSZ).
Proof.
  revert k buf. induction src as [|b src IH]; intros k buf Hk Hle Hlen.
  { exists buf. split_and!; [done|done|]. intros i Hi. rewrite zlen_nil. zbool; try lia; done. }
  rewrite zlen_cons in *. pose proof (zlen_nonneg src).
  rewrite seqZ_cons by lia. simpl.
  change (push_byte p (k, b) buf) with (upd buf ((PipeInner_write_pos p + k) `mod` PIPE_BUFSZ) b).
  pose proof (ring_range (PipeInner_write_pos p + k)).
  rewrite upd_Done by lia. simpl.
  replace (Z.pred (zlen src + 1)) with (zlen src) by lia.
  destruct (IH (Z.succ k) (zset buf ((PipeInner_write_pos p + k) `mod` PIPE_BUFSZ) b))
    as (buf' & -> & Hlen' & Hget); [lia|lia|by rewrite zlen_zset|].
  exists buf'. split_and!; [done|done|]. intros i Hi. rewrite Hget by lia.
  destruct (decide (i = k)) as [->|Hne].
  - zbool; try lia. rewrite zget_zset_eq by lia. by rewrite Z.sub_diag.
  - rewrite zget_zset_ne; [|intros E; apply mod_add_inj in E; lia].
    zbool; try lia; [|done..].
    unfold zget. rewrite !(proj2 (Z.leb_le _ _)) by lia.
    by replace (Z.to_nat (i - k)) with (S (Z.to_nat (i - Z.succ k))) by lia.
Qed.

(** The [pop] loop fills [dst[..n]] with the first [n] bytes of the queue. *)
Lemma pop_loop p n dst :
  zlen (pi_buf p) = PIPE_BUFSZ → 0 ≤ n ≤ zlen dst →
  ∃ dst', for_each (seqZ 0 n) (pop_byte p) dst = Done dst' ∧
    zlen dst' = zlen dst ∧
    ∀ i, zget dst' i =
      if (0 <=? i) && (i <? n) then Some (pipe_slot p i) else zget dst i.
Proof.
  intros Hlen Hn. rewrite <-(Z2Nat.id n) in * by lia.
  induction (Z.to_nat n) as [|m IH].
  { exists dst. split_and!; [done|done|]. intros i. zbool; try lia; done. }
  destruct IH as (d & Hd & Hdl & Hget); [lia|].
  rewrite seqZ_S, Z.add_0_l, for_each_app, Hd. simpl. unfold pop_byte.
  destruct (zget_is_Some (pi_buf p) ((pi_read_pos p + Z.of_nat m) `mod` PIPE_BUFSZ)) as [b Hb].
  { pose proof (ring_range (pi_read_pos p + Z.of_nat m)). lia. }
  rewrite (proj2 (idx_Done _ _ _) Hb). simpl. rewrite upd_Done by lia. simpl.
  eexists. split_and!; [done|by rewrite zlen_zset|]. intros i.
  destruct (decide (i = Z.of_nat m)) as [->|].
  - rewrite zget_zset_eq by lia. unfold pipe_slot. rewrite Hb. zbool; try lia; done.
  - rewrite zget_zset_ne, Hget by done. zbool; try lia; done.
Qed.

(* ------------------------------------------------------------------ *)
(** ** Push and pop on the queue *)

Lemma zlen_contents p : pipe_inv p → zlen (pipe_contents p) = pi_count p.
Proof. intros [? ? ? ?]. unfold zlen, pipe_contents. rewrite length_fmap, length_seqZ. lia. Qed.

Lemma zget_contents p i : 0 ≤ i < pi_count p → zget (pipe_contents p) i = Some (pipe_slot p i).
Proof.
  intros. unfold zget, pipe_contents. rewrite (proj2 (Z.leb_le _ _)) by lia.
  rewrite list_lookup_fmap, lookup_seqZ_lt by lia. simpl. do 2 f_equal. lia.
Qed.

(** A slot of the queue does not depend on anything but the ring. *)
Lemma pipe_slot_shift p q n i :
  pi_buf q = pi_buf p → pi_read_pos q = (pi_read_pos p + n) `mod` PIPE_BUFSZ →
  pipe_slot q i = pipe_slot p (n + i).
Proof.
  intros Hb Hr. unfold pipe_slot. rewrite Hb, Hr, Zplus_mod_idemp_l. do 3 f_equal. lia.
Qed.

Lemma push_spec p src :
  pipe_inv p →
  ∃ p', PipeInner_push p src = Done (p', Z.min (zlen src) (PipeInner_space p)) ∧
    zlen (pi_buf p') = PIPE_BUFSZ ∧ pi_read_pos p' = pi_read_pos p ∧
    pi_count p' = pi_count p + Z.min (zlen src) (PipeInner_space p) ∧
    pi_write_closed p' = pi_write_closed p ∧ pi_read_closed p' = pi_read_closed p ∧
    pi_waiters p' = pi_waiters p ∧
    pipe_contents p' =
      pipe_contents p ++ ztake (Z.min (zlen src) (PipeInner_space p)) src.
Proof.
  intros Hinv. pose proof (zlen_contents p Hinv) as Hlc.
  destruct Hinv as [Hlen Hpos Hcnt Hw]. unfold PipeInner_push, PipeInner_space in *.
  pose proof (zlen_nonneg src).
  remember (Z.min (zlen src) (PIPE_BUFSZ - pi_count p)) as n eqn:Hn.
  assert (0 ≤ n ≤ zlen src ∧ n ≤ PIPE_BUFSZ - pi_count p) as [??] by lia. clear Hn.
  rewrite slice_Done by lia. simpl.
  replace (zslice src 0 n) with (ztake n src)
    by (unfold zslice; rewrite Z.sub_0_r; by unfold zdrop).
  assert (zlen (ztake n src) = n) as Hlt by (by rewrite zlen_ztake).
  destruct (push_loop p (ztake n src) 0 (pi_buf p)) as (buf' & Hrun & Hbl & Hget);
    [lia|lia|done|].
  unfold zenum. rewrite Hrun. simpl. eexists. split_and!; try done.
  unfold pipe_contents at 1; simpl. apply zlist_eq. intros i Hi.
  assert (∀ c, 0 ≤ i < PIPE_BUFSZ →
    zget buf' ((pi_read_pos p + c) `mod` PIPE_BUFSZ) =
    zget buf' ((PipeInner_write_pos p + (c - pi_count p)) `mod` PIPE_BUFSZ)) as Hshift.
  { intros c _. unfold PipeInner_write_pos. rewrite Zplus_mod_idemp_l. do 2 f_equal. lia. }
  destruct (decide (i < pi_count p + n)) as [Hlti|].
  - transitivity (Some (pipe_slot (mkPipeInner buf' (pi_read_pos p) (pi_count p + n)
      (pi_write_closed p) (pi_read_closed p) (pi_waiters p)) i)).
    { apply (zget_contents (mkPipeInner buf' _ _ _ _ _)). simpl. lia. }
    unfold pipe_slot at 1; simpl. destruct (decide (i < pi_count p)) as [Hold|].
    + rewrite zget_app_l, zget_contents by lia. unfold pipe_slot. do 2 f_equal.
      replace ((pi_read_pos p + i) `mod` PIPE_BUFSZ)
        with ((PipeInner_write_pos p + (i - pi_count p + PIPE_BUFSZ)) `mod` PIPE_BUFSZ).
      2:{ unfold PipeInner_write_pos. rewrite Zplus_mod_idemp_l.
          rewrite <-(Z_mod_plus_full (pi_read_pos p + i) 1). f_equal. lia. }
      rewrite Hget by lia. zbool; try lia; done.
    + rewrite zget_app_r, Hshift, Hget by lia. rewrite Hlc, Z.sub_0_r.
      zbool; try lia.
      destruct (zget_is_Some (ztake n src) (i - pi_count p)) as [b Hb]; [lia|].
      by rewrite Hb.
  - rewrite !zget_None; [done|rewrite zlen_app; lia|].
    unfold zlen. rewrite length_fmap, length_seqZ. lia.
Qed.

Lemma pop_spec p dst :
  pipe_inv p →
  ∃ p' dst', PipeInner_pop p dst = Done (p', dst', Z.min (zlen dst) (pi_count p)) ∧
    pi_buf p' = pi_buf p ∧
    pi_read_pos p' = (pi_read_pos p + Z.min (zlen dst) (pi_count p)) `mod` PIPE_BUFSZ ∧
    pi_count p' = pi_count p - Z.min (zlen dst) (pi_count p) ∧
    pi_write_closed p' = pi_write_closed p ∧ pi_read_closed p' = pi_read_closed p ∧
    pi_waiters p' = pi_waiters p ∧
    dst' = zsplice dst 0 (ztake (Z.min (zlen dst) (pi_count p)) (pipe_contents p)) ∧
    pipe_contents p' = zdrop (Z.min (zlen dst) (pi_count p)) (pipe_contents p).
Proof.
  intros Hinv. pose proof (zlen_contents p Hinv) as Hlc.
  destruct Hinv as [Hlen Hpos Hcnt Hw]. unfold PipeInner_pop.
  pose proof (zlen_nonneg dst).
  remember (Z.min (zlen dst) (pi_count p)) as n eqn:Hn.
  assert (0 ≤ n ≤ zlen dst ∧ n ≤ pi_count p) as [??] by lia. clear Hn.
  destruct (pop_loop p n dst) as (dst' & -> & Hdl & Hget); [done|lia|]. simpl.
  assert (zlen (ztake n (pipe_contents p)) = n) as Hlt by (rewrite zlen_ztake; lia).
  eexists _, _. split_and!; try done.
  - apply zlist_eq. intros i Hi. rewrite Hget. destruct (decide (i < n)).
    + rewrite zget_zsplice_in, zget_ztake, zget_contents by lia.
      rewrite Z.sub_0_r. zbool; try lia; done.
    + rewrite zget_zsplice_out by lia. zbool; try lia; done.
  - apply zlist_eq. intros i Hi. destruct (decide (i < pi_count p - n)).
    + rewrite zget_zdrop, (zget_contents p) by lia.
      rewrite (zget_contents (mkPipeInner _ _ _ _ _ _)) by (simpl; lia). f_equal.
      by apply pipe_slot_shift.
    + rewrite !zget_None; [done|rewrite zlen_zdrop; lia|].
      unfold zlen, pipe_contents; simpl. rewrite length_fmap, length_seqZ. lia.
Qed.

(* ------------------------------------------------------------------ *)
(** ** One operation *)

Lemma contents_same_ring p q :
  pi_buf q = pi_buf p → pi_read_pos q = pi_read_pos p → pi_count q = pi_count p →
  pipe_contents q = pipe_contents p.
Proof. intros Hb Hr Hc. unfold pipe_contents, pipe_slot. by rewrite Hb, Hr, Hc. Qed.

Lemma bytes_written_app e1 e2 : bytes_written (e1 ++ e2) = bytes_written e1 ++ bytes_written e2.
Proof. unfold bytes_written. by rewrite fmap_app, concat_app. Qed.
Lemma bytes_read_app e1 e2 : bytes_read (e1 ++ e2) = bytes_read e1 ++ bytes_read e2.
Proof. unfold bytes_read. by rewrite fmap_app, concat_app. Qed.

Lemma pipe_inv_new : pipe_inv PipeInner_new.
Proof. split; try done. Qed.

Lemma ztake_zsplice_0 {A} n (dst q : list A) :
  0 ≤ n → zlen q = n → n ≤ zlen dst → ztake n (zsplice dst 0 q) = q.
Proof.
  intros. apply zlist_eq. intros i Hi. destruct (decide (i < n)).
  - rewrite zget_ztake, zget_zsplice_in by lia. by rewrite Z.sub_0_r.
  - rewrite zget_ztake_ge, zget_None by lia. done.
Qed.

(** Every operation succeeds, keeps the invariant, and moves bytes between the
    queue and the caller as its events say. *)
Lemma pipe_do_spec op p :
  pipe_inv p →
  ∃ p' evs, pipe_do op p = Done (p', evs) ∧ pipe_inv p' ∧
    bytes_read evs ++ pipe_contents p' = pipe_contents p ++ bytes_written evs.
Proof.
  intros Hinv. destruct op as [src|cur buf| |]; simpl.
  - unfold PipeWriteEnd_write. destruct (pi_read_closed p) eqn:Hrc; simpl.
    { exists p, [EvEpipe]. by rewrite app_nil_r. }
    destruct (push_spec p src Hinv) as (p' & -> & ? & ? & ? & ? & ? & ? & Hc). simpl.
    destruct Hinv as [Hlen Hpos Hcnt Hw]. unfold PipeInner_space in *.
    pose proof (zlen_nonneg src).
    eexists _, _. split_and!; [done|split; simpl; [done|lia|lia|done]|].
    unfold bytes_read, bytes_written; simpl. rewrite !app_nil_r. by rewrite <-Hc.
  - unfold PipeReadEnd_read. destruct (Z.ltb_spec 0 (pi_count p)).
    + destruct (pop_spec p buf Hinv) as (p' & d & -> & Hb & Hr & ? & ? & ? & Hwt & -> & Hc).
      pose proof (zlen_contents p Hinv). pose proof (zlen_nonneg buf). simpl.
      destruct Hinv as [Hlen Hpos Hcnt Hw].
      eexists _, _. split_and!; [done|split|].
      * by rewrite Hb.
      * rewrite Hr. apply ring_range.
      * lia.
      * rewrite Hwt. intros []%Hw. lia.
      * unfold bytes_read, bytes_written; simpl. rewrite !app_nil_r.
        rewrite ztake_zsplice_0, Hc; [|lia|rewrite zlen_ztake; lia|lia].
        apply take_drop.
    + destruct (pi_write_closed p) eqn:Hwc; simpl; eexists _, _; (split_and!; [done| |]).
      * done.
      * unfold bytes_read; simpl. by rewrite !app_nil_r.
      * destruct Hinv as [Hlen Hpos Hcnt Hw]. split; simpl; [done..|].
        intros _. split; [lia|done].
      * unfold bytes_read, bytes_written; simpl. by rewrite app_nil_r.
  - eexists _, _. split_and!; [done|destruct Hinv; by split|].
    unfold bytes_read, bytes_written; simpl. by rewrite app_nil_r.
  - eexists _, _. split_and!; [done|destruct Hinv; by split|].
    unfold bytes_read, bytes_written; simpl. by rewrite app_nil_r.
Qed.

Lemma pipe_run_spec ops p :
  pipe_inv p →
  ∃ p' evs, pipe_run ops p = Done (p', evs) ∧ pipe_inv p' ∧
    bytes_read evs ++ pipe_contents p' = pipe_contents p ++ bytes_written evs.
Proof.
  revert p. induction ops as [|op ops IH]; intros p Hinv; simpl.
  { exists p, []. by rewrite app_nil_r. }
  destruct (pipe_do_spec op p Hinv) as (p1 & e1 & -> & Hinv1 & H1). simpl.
  destruct (IH p1 Hinv1) as (p2 & e2 & -> & Hinv2 & H2). simpl.
  eexists _, _. split_and!; [done|done|].
  rewrite bytes_read_app, bytes_written_app, <-app_assoc, H2, app_assoc, H1.
  by rewrite app_assoc.
Qed.

(* ------------------------------------------------------------------ *)
(** ** Properties *)

(** C13: a pipe is a FIFO byte stream.  Any sequence of writes, reads and
    closes on a new pipe runs without a panic, keeps at most [PIPE_BUFSZ]
    bytes, and the bytes returned by the reads followed by the bytes left in
    the ring are exactly the bytes accepted by the writes, in order. *)
Theorem pipe_fifo (ops : list pipe_op) :
  ∃ p evs, pipe_run ops PipeInner_new = Done (p, evs) ∧
    0 ≤ pi_count p ≤ PIPE_BUFSZ ∧
    bytes_read evs ++ pipe_contents p = bytes_written evs.
Proof.
  destruct (pipe_run_spec ops PipeInner_new pipe_inv_new) as (p & evs & -> & Hinv & H).
  exists p, evs. split_and!; [done|apply Hinv..|]. by rewrite H.
Qed.

(** No reader sleeps on a pipe it could read from.  In every state a new
    pipe can reach, if a task is on the wait list then the ring is empty and
    the write end is still open; a write by an open reader side and the close
    of the write end both wake every task on the list. *)
Theorem pipe_no_lost_wakeup (ops : list pipe_op) (p : PipeInner) (evs : list pipe_ev) :
  pipe_run ops PipeInner_new = Done (p, evs) →
  (pi_waiters p ≠ [] → pi_count p = 0 ∧ pi_write_closed p = false) ∧
  (∀ src, pi_read_closed p = false →
     ∃ p' n, PipeWriteEnd_write p src = Done (p', pi_waiters p, n) ∧ pi_waiters p' = []) ∧
  (PipeWriteEnd_drop p).2 = pi_waiters p ∧ pi_waiters (PipeWriteEnd_drop p).1 = [].
Proof.
  intros H. destruct (pipe_run_spec ops PipeInner_new pipe_inv_new) as (p' & e' & H' & Hinv & _).
  rewrite H in H'. simplify_eq. split_and!; [apply Hinv| |done|done].
  intros src Hrc. unfold PipeWriteEnd_write. rewrite Hrc.
  destruct (push_spec p' src Hinv) as (q & -> & _ & _ & _ & _ & _ & Hw & _). simpl.
  eexists _, _. by rewrite Hw.
Qed.

Lemma pipe_no_lost_wakeup_witness :
  ∃ p evs, pipe_run [OpRead (Some 7%nat) [0; 0]] PipeInner_new = Done (p, evs) ∧
    pi_waiters p = [7%nat] ∧
    (pi_waiters p ≠ [] → pi_count p = 0 ∧ pi_write_closed p = false).
Proof.
  eexists _, _. split; [vm_compute; reflexivity|]. split; [reflexivity|].
  refine (proj1 (pipe_no_lost_wakeup [OpRead (Some 7%nat) [0; 0]] _ _ _)).
  vm_compute. reflexivity.
Defined.

