(* ===== verification/Keyboard.v ===== *)
(** * PS/2 keyboard input (keyboard/src/lib.rs)

    The scancode table, the interrupt-safe ring buffer [RingBuffer] that the
    keyboard interrupt fills ([handle_scancode]) and the readers drain
    ([pop_key]).  The ring keeps one slot free to tell "full" from "empty", so
    it holds [BUF_SIZE - 1] bytes.

    The buffer is shown to refine a bounded queue: for every interleaving of
    scancodes and reads, the ring returns what the queue returns. *)

From S2P Require Import Prelude.

Definition BUF_SIZE : Z := 128.

(** US QWERTY, scancode set 1. *)
Definition SCANDCODE_TO_ASCII : list Z :=
  [0; 27; 49; 50; 51; 52; 53; 54; 55; 56; 57; 48; 45; 61; 8; 9;
   113; 119; 101; 114; 116; 121; 117; 105; 111; 112; 91; 93; 10; 0; 97; 115;
   100; 102; 103; 104; 106; 107; 108; 59; 39; 96; 0; 92; 122; 120; 99; 118;
   98; 110; 109; 44; 46; 47; 0; 42; 0; 32; 0; 0; 0; 0; 0; 0;
   0; 0; 0; 0; 0; 0; 0; 0; 0; 0; 0; 0; 0; 0; 0; 0;
   0; 0; 0; 0; 0; 0; 0; 0; 0; 0; 0; 0; 0; 0; 0; 0;
   0; 0; 0; 0; 0; 0; 0; 0; 0; 0; 0; 0; 0; 0; 0; 0;
   0; 0; 0; 0; 0; 0; 0; 0; 0; 0; 0; 0; 0; 0; 0; 0].

Record RingBuffer := mkRingBuffer {
  rb_data : list Z;
  rb_head : Z;
  rb_tail : Z;
}.

Definition RingBuffer_new : RingBuffer := mkRingBuffer (zrep BUF_SIZE 0) 0 0.

Definition RingBuffer_push (r : RingBuffer) (val : Z) : outcome RingBuffer :=
  let next := (rb_head r + 1) `mod` BUF_SIZE in
  if negb (next =? rb_tail r) then
    data ← upd (rb_data r) (rb_head r) val;
    Done (mkRingBuffer data next (rb_tail r))
  else Done r.

Definition RingBuffer_pop (r : RingBuffer) : outcome (RingBuffer * option Z) :=
  if rb_head r =? rb_tail r then Done (r, None)
  else
    val ← idx (rb_data r) (rb_tail r);
    Done (mkRingBuffer (rb_data r) (rb_head r) ((rb_tail r + 1) `mod` BUF_SIZE), Some val).

(** The ASCII byte a make code stands for: break codes (bit 7) and codes
    without a character give nothing. *)
Definition handle_scancode (scancode : Z) (r : RingBuffer) : outcome RingBuffer :=
  if negb (Z.land scancode 128 =? 0) then Done r
  else
    match zget SCANDCODE_TO_ASCII scancode with
    | Some ascii => if negb (ascii =? 0) then RingBuffer_push r ascii else Done r
    | None => Done r
    end.

Definition pop_key (r : RingBuffer) : outcome (RingBuffer * option Z) := RingBuffer_pop r.

(** Interrupts and reads, in the order they happen; the keys the reads return. *)
Inductive kbd_op :=
  | KScan (scancode : Z)
  | KPop.

Fixpoint kbd_run (ops : list kbd_op) (r : RingBuffer) : outcome (RingBuffer * list (option Z)) :=
  match ops with
  | [] => Done (r, [])
  | KScan c :: ops => r1 ← handle_scancode c r; kbd_run ops r1
  | KPop :: ops =>
      '(r1, k) ← pop_key r;
      '(r2, ks) ← kbd_run ops r1;
      Done (r2, k :: ks)
  end.

(* ------------------------------------------------------------------ *)
(** ** Specification: a bounded queue of characters *)

(** The character of a scancode, from the table alone. *)
Definition scan_char (scancode : Z) : option Z :=
  if (0 <=? scancode) && (scancode <? 128) then
    match zget SCANDCODE_TO_ASCII scancode with
    | Some 0 => None
    | o => o
    end
  else None.

Definition kq_push (v : Z) (q : list Z) : list Z :=
  if zlen q <? BUF_SIZE - 1 then q ++ [v] else q.

Fixpoint kq_run (ops : list kbd_op) (q : list Z) : list Z * list (option Z) :=
  match ops with
  | [] => (q, [])
  | KScan c :: ops =>
      kq_run ops (match scan_char c with Some v => kq_push v q | None => q end)
  | KPop :: ops =>
      let '(q', ks) := kq_run ops (tail q) in (q', head q :: ks)
  end.

(* ------------------------------------------------------------------ *)
(** ** The queue a ring holds *)

Definition rb_size (r : RingBuffer) : Z := (rb_head r - rb_tail r) `mod` BUF_SIZE.

Definition rb_slot (r : RingBuffer) (i : Z) : Z :=
  default 0 (zget (rb_data r) ((rb_tail r + i) `mod` BUF_SIZE)).

Definition rb_contents (r : RingBuffer) : list Z := rb_slot r <$> seqZ 0 (rb_size r).

Record rb_inv (r : RingBuffer) : Prop := {
  rbi_len : zlen (rb_data r) = BUF_SIZE;
  rbi_head : 0 ≤ rb_head r < BUF_SIZE;
  rbi_tail : 0 ≤ rb_tail r < BUF_SIZE;
}.

(* ------------------------------------------------------------------ *)
(** ** Lemmas *)

(** The arithmetic of the two indices: [BUF_SIZE] is a numeral, so [lia]
    decides goals about [mod BUF_SIZE]. *)
Ltac ring_lia := unfold rb_size, BUF_SIZE in *; simpl in *; Z.to_euclidean_division_equations; lia.

Lemma rb_inv_new : rb_inv RingBuffer_new.
Proof. split; done. Qed.

Lemma zlen_rb_contents r : zlen (rb_contents r) = rb_size r.
Proof. unfold rb_contents, zlen. rewrite length_fmap, length_seqZ. ring_lia. Qed.

(** [push] refines [kq_push]. *)
Lemma push_refines r v :
  rb_inv r →
  ∃ r', RingBuffer_push r v = Done r' ∧ rb_inv r' ∧
    rb_contents r' = kq_push v (rb_contents r).
Proof.
  intros Hinv. pose proof Hinv as [Hlen Hh Ht].
  unfold RingBuffer_push, kq_push. rewrite zlen_rb_contents.
  destruct (Z.eqb_spec ((rb_head r + 1) `mod` BUF_SIZE) (rb_tail r)) as [E|E]; simpl.
  { exists r. split_and!; [done|done|]. destruct (Z.ltb_spec (rb_size r) (BUF_SIZE - 1)); [ring_lia|done]. }
  rewrite upd_Done by lia. simpl. eexists. split_and!; [done| |].
  { split; simpl; [by rewrite zlen_zset|ring_lia|done]. }
  destruct (Z.ltb_spec (rb_size r) (BUF_SIZE - 1)); [|ring_lia].
  unfold rb_contents.
  assert (rb_size (mkRingBuffer (zset (rb_data r) (rb_head r) v)
    ((rb_head r + 1) `mod` BUF_SIZE) (rb_tail r)) = rb_size r + 1) as -> by ring_lia.
  assert (0 ≤ rb_size r) by ring_lia.
  rewrite seqZ_snoc by done.
  rewrite fmap_app. f_equal.
  - apply list_fmap_ext. intros k i Hi. apply lookup_seqZ in Hi as [-> Hk].
    unfold rb_slot. simpl. rewrite zget_zset_ne by ring_lia. done.
  - simpl. unfold rb_slot. simpl. f_equal.
    replace ((rb_tail r + (0 + rb_size r)) `mod` BUF_SIZE) with (rb_head r) by ring_lia.
    by rewrite zget_zset_eq by lia.
Qed.

(** [pop] returns and removes the head of the queue. *)
Lemma pop_refines r :
  rb_inv r →
  ∃ r', RingBuffer_pop r = Done (r', head (rb_contents r)) ∧ rb_inv r' ∧
    rb_contents r' = tail (rb_contents r).
Proof.
  intros Hinv. pose proof Hinv as [Hlen Hh Ht]. unfold RingBuffer_pop.
  destruct (Z.eqb_spec (rb_head r) (rb_tail r)) as [E|E].
  { exists r. unfold rb_contents. assert (rb_size r = 0) as -> by ring_lia. done. }
  assert (0 < rb_size r) by ring_lia.
  destruct (zget_is_Some (rb_data r) (rb_tail r)) as [v Hv]; [lia|].
  unfold idx. rewrite Hv. simpl. unfold rb_contents.
  rewrite (seqZ_cons 0 (rb_size r)) by done. simpl.
  assert (rb_slot r 0 = v) as ->.
  { unfold rb_slot. replace ((rb_tail r + 0) `mod` BUF_SIZE) with (rb_tail r) by ring_lia. by rewrite Hv. }
  eexists. split_and!; [done|split; simpl; [done|done|ring_lia]|].
  assert (rb_size (mkRingBuffer (rb_data r) (rb_head r) ((rb_tail r + 1) `mod` BUF_SIZE))
    = Z.pred (rb_size r)) as -> by ring_lia.
  rewrite <-(fmap_add_seqZ 1 0), <-list_fmap_compose.
  apply list_fmap_ext. intros k i Hi. apply lookup_seqZ in Hi as [-> Hk].
  unfold rb_slot. simpl. do 2 f_equal. ring_lia.
Qed.

(** Bit 7 and the table range are the same test on a byte. *)
Lemma scancode_bit7 c : 0 ≤ c < 2 ^ 8 → (Z.land c 128 =? 0) = (c <? 128).
Proof.
  intros Hc.
  assert (forallb (λ c, Bool.eqb (Z.land c 128 =? 0) (c <? 128)) (seqZ 0 256) = true) as H
    by (vm_compute; reflexivity).
  apply Bool.eqb_prop. rewrite forallb_forall in H. apply H.
  apply list_elem_of_In, elem_of_seqZ. lia.
Qed.

Lemma handle_scancode_refines c r :
  0 ≤ c < 2 ^ 8 → rb_inv r →
  ∃ r', handle_scancode c r = Done r' ∧ rb_inv r' ∧
    rb_contents r' = match scan_char c with
                     | Some v => kq_push v (rb_contents r) | None => rb_contents r end.
Proof.
  intros Hc Hinv. unfold handle_scancode, scan_char. rewrite scancode_bit7 by done.
  rewrite (proj2 (Z.leb_le 0 c)) by lia. simpl.
  destruct (c <? 128); simpl; [|by exists r].
  destruct (zget SCANDCODE_TO_ASCII c) as [v|]; [|by exists r].
  destruct (Z.eqb_spec v 0) as [->|Hv]; simpl; [by exists r|].
  destruct (push_refines r v Hinv) as (r' & -> & ? & Hq). exists r'.
  split_and!; [done|done|]. rewrite Hq. by destruct v.
Qed.

Definition kbd_op_ok (op : kbd_op) : bool :=
  match op with KScan c => (0 <=? c) && (c <? 2 ^ 8) | KPop => true end.

Lemma kbd_run_refines ops r :
  forallb kbd_op_ok ops = true → rb_inv r →
  ∃ r' ks, kbd_run ops r = Done (r', ks) ∧ rb_inv r' ∧
    kq_run ops (rb_contents r) = (rb_contents r', ks).
Proof.
  revert r. induction ops as [|op ops IH]; intros r Hok Hinv; simpl in *; [by exists r, []|].
  apply andb_true_iff in Hok as [Hop Hok]. destruct op as [c|]; simpl in *.
  - destruct (handle_scancode_refines c r) as (r1 & -> & Hinv1 & H1); [zbool; lia|done|].
    simpl. destruct (IH r1 Hok Hinv1) as (r' & ks & -> & Hinv' & H'). exists r', ks.
    by rewrite H1 in H'.
  - destruct (pop_refines r Hinv) as (r1 & Hp & Hinv1 & H1). unfold pop_key. rewrite Hp. simpl.
    destruct (IH r1 Hok Hinv1) as (r' & ks & -> & Hinv' & H'). simpl.
    rewrite H1 in H'. rewrite H'. by eexists _, _.
Qed.

(* ------------------------------------------------------------------ *)
(** ** Properties *)

(** Keyboard input is a bounded FIFO.  For every sequence of scancode
    interrupts (bytes) and key reads starting from the empty buffer, nothing
    panics and the reads return exactly the keys of a queue that holds at most
    [BUF_SIZE - 1] characters, drops characters arriving when it is full, and
    takes only make codes with a character of the table. *)
Theorem keyboard_refines_queue (ops : list kbd_op) :
  forallb kbd_op_ok ops = true →
  ∃ r ks, kbd_run ops RingBuffer_new = Done (r, ks) ∧
    kq_run ops [] = (rb_contents r, ks) ∧ zlen (rb_contents r) ≤ BUF_SIZE - 1.
Proof.
  intros Hok. destruct (kbd_run_refines ops RingBuffer_new Hok rb_inv_new) as (r & ks & -> & Hinv & H).
  exists r, ks. split_and!; [done|done|]. rewrite zlen_rb_contents. ring_lia.
Qed.

Lemma keyboard_refines_queue_witness :
  ∃ r ks, kbd_run [KScan 30; KScan 158; KScan 48; KPop; KPop; KPop] RingBuffer_new = Done (r, ks) ∧
    kq_run [KScan 30; KScan 158; KScan 48; KPop; KPop; KPop] [] = (rb_contents r, ks) ∧
    zlen (rb_contents r) ≤ BUF_SIZE - 1.
Proof. apply keyboard_refines_queue. reflexivity. Defined.
