(* ===== verification/Task.v ===== *)
(** * Tasks and the run queue (task/src/lib.rs, task/src/scheduler.rs)

    Task control blocks live on a heap ([gmap loc TaskCB]) because the code
    shares them as [Arc<Mutex<TaskCB>>]: the run queue, the wait queues and the
    zombie list all hold locations.  The scheduler's global state is a record
    [sched]: that heap, the [RUN_QUEUE] static ([None] before [init]), the
    [CURRENT_TASK] and [NEXT_ID] atomics, the registered switch hook with the
    kernel stack it last installed, and the registers of the one CPU.

    The parts of SYS_EXIT and SYS_WAIT (kernel/src/syscall.rs) that act on the
    scheduler are here too, so that the executions of the last section cover
    the life of a task from its creation to its reaping.  The theorems are in
    Sched. *)

From S2P Require Import Prelude.

(* ------------------------------------------------------------------ *)
(** ** Data *)

Inductive TaskState := Ready | Running | Blocked | Sleeping | Zombie | Terminated.

#[global] Instance TaskState_eq_dec : EqDecision TaskState.
Proof. solve_decision. Defined.

Inductive SchedClass := Realtime (p : Z) | Fair (p : Z) | Batch | Iso.

Definition SchedClass_default : SchedClass := Fair 120.

Record CPUContext := mkCPUContext {
  x_rsp : Z; x_rbp : Z; x_rbx : Z; x_r12 : Z; x_r13 : Z; x_r14 : Z; x_r15 : Z;
  x_rip : Z; x_rflags : Z; x_cs : Z; x_ss : Z;
  x_fs : Z; x_gs : Z; x_ds : Z; x_es : Z; x_fs_base : Z; x_gs_base : Z; x_cr3 : Z;
}.

Definition CPUContext_default : CPUContext :=
  mkCPUContext 0 0 0 0 0 0 0 0 514 8 16 0 0 0 0 0 0 0.

Record TaskCB := mkTaskCB {
  t_id : Z;
  t_state : TaskState;
  t_sched_class : SchedClass;
  t_context : CPUContext;
  t_kstack : Z;
  t_ustack : option Z;
  t_name : string;
  t_parent_id : Z;
  t_exit_status : option Z;
  t_pml4_frame : option Z;
  t_children : list Z;
  t_waiting_for_child : bool;
}.

Record RunQueue := mkRunQueue {
  rq_queue : list loc;
  rq_current : option loc;
  rq_zombies : list loc;
}.

(** The registers [context_switch] saves and loads: the callee-saved ones, the
    stack pointer before the call, the return address and the page table. *)
Record cpu := mkCpu {
  c_rsp : Z; c_rbp : Z; c_rbx : Z; c_r12 : Z; c_r13 : Z; c_r14 : Z; c_r15 : Z;
  c_rip : Z; c_cr3 : Z;
}.

Record sched := mkSched {
  s_heap : gmap loc TaskCB;
  s_rq : option RunQueue;
  s_current_task : Z;
  s_next_id : Z;
  s_hook : bool;
  s_kstack : Z;
  s_cpu : cpu;
}.

Definition set_heap (h : gmap loc TaskCB) (s : sched) : sched :=
  mkSched h (s_rq s) (s_current_task s) (s_next_id s) (s_hook s) (s_kstack s) (s_cpu s).
Definition set_rq (rq : RunQueue) (s : sched) : sched :=
  mkSched (s_heap s) (Some rq) (s_current_task s) (s_next_id s) (s_hook s) (s_kstack s) (s_cpu s).
Definition set_current_task (id : Z) (s : sched) : sched :=
  mkSched (s_heap s) (s_rq s) id (s_next_id s) (s_hook s) (s_kstack s) (s_cpu s).
Definition set_next_id (n : Z) (s : sched) : sched :=
  mkSched (s_heap s) (s_rq s) (s_current_task s) n (s_hook s) (s_kstack s) (s_cpu s).
Definition set_kstack (k : Z) (s : sched) : sched :=
  mkSched (s_heap s) (s_rq s) (s_current_task s) (s_next_id s) (s_hook s) k (s_cpu s).
Definition set_cpu (c : cpu) (s : sched) : sched :=
  mkSched (s_heap s) (s_rq s) (s_current_task s) (s_next_id s) (s_hook s) (s_kstack s) c.

#[global] Arguments set_heap _ _ /.
#[global] Arguments set_rq _ _ /.
#[global] Arguments set_current_task _ _ /.
#[global] Arguments set_next_id _ _ /.
#[global] Arguments set_kstack _ _ /.
#[global] Arguments set_cpu _ _ /.

(** Before [scheduler::init]; NEXT_ID starts at 1. *)
Definition sched_boot (c : cpu) : sched := mkSched ∅ None 0 1 false 0 c.

(* ------------------------------------------------------------------ *)
(** ** Task control blocks *)

(** [arc.lock()] of a task: every [Arc] the code holds is on the heap. *)
Definition task_at (l : loc) (s : sched) : outcome TaskCB := unwrap (s_heap s !! l).

Definition update_task (l : loc) (f : TaskCB → TaskCB) (s : sched) : outcome sched :=
  t ← task_at l s; Done (set_heap (<[l := f t]> (s_heap s)) s).

Definition set_state (st : TaskState) (t : TaskCB) : TaskCB :=
  mkTaskCB (t_id t) st (t_sched_class t) (t_context t) (t_kstack t) (t_ustack t) (t_name t)
    (t_parent_id t) (t_exit_status t) (t_pml4_frame t) (t_children t) (t_waiting_for_child t).

Definition set_context (x : CPUContext) (t : TaskCB) : TaskCB :=
  mkTaskCB (t_id t) (t_state t) (t_sched_class t) x (t_kstack t) (t_ustack t) (t_name t)
    (t_parent_id t) (t_exit_status t) (t_pml4_frame t) (t_children t) (t_waiting_for_child t).

Definition set_exit_status (st : Z) (t : TaskCB) : TaskCB :=
  mkTaskCB (t_id t) (t_state t) (t_sched_class t) (t_context t) (t_kstack t) (t_ustack t) (t_name t)
    (t_parent_id t) (Some st) (t_pml4_frame t) (t_children t) (t_waiting_for_child t).

Definition set_children (cs : list Z) (t : TaskCB) : TaskCB :=
  mkTaskCB (t_id t) (t_state t) (t_sched_class t) (t_context t) (t_kstack t) (t_ustack t) (t_name t)
    (t_parent_id t) (t_exit_status t) (t_pml4_frame t) cs (t_waiting_for_child t).

Definition set_waiting (w : bool) (t : TaskCB) : TaskCB :=
  mkTaskCB (t_id t) (t_state t) (t_sched_class t) (t_context t) (t_kstack t) (t_ustack t) (t_name t)
    (t_parent_id t) (t_exit_status t) (t_pml4_frame t) (t_children t) w.

Definition TaskId_new (s : sched) : Z * sched :=
  (s_next_id s, set_next_id (s_next_id s ⊞ 1) s).

(** [Cr3::read()]: the page-table frame, without the flag bits. *)
Definition cr3_frame (cr3 : Z) : Z := Z.land cr3 0x000ffffffffff000.

(** [stack & !0xF]: the stack top, aligned down. *)
Definition TaskCB_new (name : string) (entry_point stack : Z) (class : SchedClass) (s : sched)
    : TaskCB * sched :=
  let context := mkCPUContext (Z.land stack (Z.lxor U64_MAX 15)) 0 0 0 0 0 0
                   entry_point 514 8 16 0 0 16 16 0 0 (cr3_frame (c_cr3 (s_cpu s))) in
  let '(id, s) := TaskId_new s in
  (mkTaskCB id Ready class context stack None name 0 None None [] false, s).

Definition TaskCB_running_task (s : sched) : TaskCB * sched :=
  let '(id, s) := TaskId_new s in
  (mkTaskCB id Running SchedClass_default CPUContext_default 0 None "kernel_main" 0 None None [] false, s).

Definition TaskCB_priority (t : TaskCB) : Z :=
  match t_sched_class t with Realtime p => p | Fair p => p | Batch => 140 | Iso => 50 end.

Definition TaskCB_is_runable (t : TaskCB) : bool := bool_decide (t_state t = Ready).

(* ------------------------------------------------------------------ *)
(** ** The run queue *)

Definition RunQueue_new : RunQueue := mkRunQueue [] None [].

Definition init (s : sched) : sched :=
  match s_rq s with Some _ => s | None => set_rq RunQueue_new s end.

Definition global (s : sched) : outcome RunQueue := unwrap (s_rq s).

Definition RunQueue_enqueue (task : loc) (s : sched) : outcome sched :=
  s ← update_task task (set_state Ready) s;
  rq ← global s;
  Done (set_rq (mkRunQueue (rq_queue rq ++ [task]) (rq_current rq) (rq_zombies rq)) s).

Definition RunQueue_dequeue (rq : RunQueue) : option (loc * RunQueue) :=
  match rq_queue rq with
  | [] => None
  | l :: q => Some (l, mkRunQueue q (rq_current rq) (rq_zombies rq))
  end.

Definition RunQueue_is_empty (rq : RunQueue) : bool :=
  match rq_queue rq with [] => true | _ => false end.
Definition RunQueue_len (rq : RunQueue) : Z := zlen (rq_queue rq).

Definition enqueue_task (task : loc) (s : sched) : outcome sched :=
  _ ← global s; RunQueue_enqueue task s.
Definition wake_task (task : loc) (s : sched) : outcome sched :=
  _ ← global s; RunQueue_enqueue task s.

Definition current_task_id (s : sched) : Z := s_current_task s.

Definition current_task_arc (s : sched) : outcome (option loc) :=
  rq ← global s; Done (rq_current rq).

Definition set_current (c : option loc) (s : sched) : outcome sched :=
  rq ← global s; Done (set_rq (mkRunQueue (rq_queue rq) c (rq_zombies rq)) s).

Definition take_current (s : sched) : outcome (option loc * sched) :=
  rq ← global s;
  s ← set_current None s;
  Done (rq_current rq, s).

Definition pick_next_task (s : sched) : outcome (option loc * sched) :=
  rq ← global s;
  match RunQueue_dequeue rq with
  | None => Done (None, s)
  | Some (next, rq) =>
      s ← update_task next (set_state Running) (set_rq rq s);
      t ← task_at next s;
      let s := set_current_task (t_id t) s in
      s ← set_current (Some next) s;
      Done (Some next, s)
  end.

Definition reschedule_current (s : sched) : outcome sched :=
  '(cur, s) ← take_current s;
  match cur with
  | None => Done s
  | Some task =>
      t ← task_at task s;
      if t_kstack t =? 0 then Done s else RunQueue_enqueue task s
  end.

Definition push_zombie (task : loc) (s : sched) : outcome sched :=
  rq ← global s;
  Done (set_rq (mkRunQueue (rq_queue rq) (rq_current rq) (rq_zombies rq ++ [task])) s).

(** The first location of a list whose task satisfies [p] (locking each). *)
Fixpoint find_loc (p : TaskCB → bool) (ls : list loc) (s : sched) : outcome (option loc) :=
  match ls with
  | [] => Done None
  | l :: ls =>
      t ← task_at l s;
      if p t then Done (Some l) else find_loc p ls s
  end.

Definition find_task_by_id (id : Z) (s : sched) : outcome (option loc) :=
  rq ← global s;
  r ← match rq_current rq with
      | Some cur => t ← task_at cur s; Done (if t_id t =? id then Some cur else None)
      | None => Done None
      end;
  match r with
  | Some l => Done (Some l)
  | None => find_loc (λ t, t_id t =? id) (rq_queue rq) s
  end.

(** [child_pid] is an [i64]; the code compares its [u64] cast with the id. *)
Definition zombie_matches (parent_id child_pid : Z) (t : TaskCB) : bool :=
  (t_parent_id t =? parent_id) && ((child_pid =? -1) || (t_id t =? wrap 64 child_pid)).

(** [iter().position(..)?] then [remove(pos)]. *)
Fixpoint remove_first (p : TaskCB → bool) (ls : list loc) (s : sched)
    : outcome (option (loc * list loc)) :=
  match ls with
  | [] => Done None
  | l :: ls =>
      t ← task_at l s;
      if p t then Done (Some (l, ls))
      else
        r ← remove_first p ls s;
        Done (match r with Some (l', ls') => Some (l', l :: ls') | None => None end)
  end.

Definition find_zombie_child (parent_id child_pid : Z) (s : sched) : outcome (option loc * sched) :=
  rq ← global s;
  r ← remove_first (zombie_matches parent_id child_pid) (rq_zombies rq) s;
  match r with
  | None => Done (None, s)
  | Some (l, zs) => Done (Some l, set_rq (mkRunQueue (rq_queue rq) (rq_current rq) zs) s)
  end.

(* ------------------------------------------------------------------ *)
(** ** Switching *)

(** What the assembly of [context_switch] stores into the old context ... *)
Definition save_context (c : cpu) (x : CPUContext) : CPUContext :=
  mkCPUContext (c_rsp c) (c_rbp c) (c_rbx c) (c_r12 c) (c_r13 c) (c_r14 c) (c_r15 c) (c_rip c)
    (x_rflags x) (x_cs x) (x_ss x) (x_fs x) (x_gs x) (x_ds x) (x_es x)
    (x_fs_base x) (x_gs_base x) (c_cr3 c).

(** ... and loads from the new one; a zero [cr3] keeps the page table. *)
Definition load_context (x : CPUContext) (c : cpu) : cpu :=
  mkCpu (x_rsp x) (x_rbp x) (x_rbx x) (x_r12 x) (x_r13 x) (x_r14 x) (x_r15 x) (x_rip x)
    (if x_cr3 x =? 0 then c_cr3 c else x_cr3 x).

(** [context_switch(&mut old.context, &new.context)]. *)
Definition context_switch (old new : loc) (s : sched) : outcome sched :=
  s ← update_task old (λ t, set_context (save_context (s_cpu s) (t_context t)) t) s;
  t ← task_at new s;
  Done (set_cpu (load_context (t_context t) (s_cpu s)) s).

(** The switch hook of the kernel installs the new task's kernel stack, unless
    the task has none. *)
Definition run_hook (new : loc) (s : sched) : outcome sched :=
  t ← task_at new s;
  Done (if s_hook s && negb (t_kstack t =? 0) then set_kstack (t_kstack t) s else s).

Definition schedule (s : sched) : outcome sched :=
  match s_rq s with
  | None => Done s
  | Some rq =>
      let old_arc := rq_current rq in
      s ← reschedule_current s;
      '(next, s) ← pick_next_task s;
      match next with
      | None => Done s
      | Some new =>
          if bool_decide (old_arc = Some new) then Done s
          else
            match old_arc with
            | None => Done s
            | Some old => s ← run_hook new s; context_switch old new s
            end
      end
  end.

Definition task_yield (s : sched) : outcome sched := schedule s.

(** What the scheduler does.  That a blocked system call switches here without
    the [swapgs] its return would do is a fact of the machine, not of this
    state: X86 shows what it leads to ([unswapped_switch_uses_null_page]). *)
Definition block_current_and_switch (s : sched) : outcome sched :=
  '(cur, s) ← take_current s;
  match cur with
  | None => Done s
  | Some old =>
      s ← update_task old (set_state Blocked) s;
      '(next, s) ← pick_next_task s;
      match next with
      | None => set_current (Some old) s
      | Some new => s ← run_hook new s; context_switch old new s
      end
  end.

(** apic/src/timer.rs: a preemption every [TIME_SLICE_TICKS] ticks. *)
Definition TIME_SLICE_TICKS : Z := 10.

Definition timer_interrupt_handler (tick_count : Z) (s : sched) : outcome (Z * sched) :=
  let ticks := tick_count ⊞ 1 in
  s ← (if ticks `mod` TIME_SLICE_TICKS =? 0 then schedule s else Done s);
  Done (ticks, s).

(* ------------------------------------------------------------------ *)
(** ** Exit and wait: the scheduler's part of SYS_EXIT and SYS_WAIT
       (kernel/src/syscall.rs) *)

(** The dying task leaves [current] and becomes a zombie; [None] when there is
    no current task, where the code halts for ever. *)
Definition exit_mark (status : Z) (s : sched) : outcome (option loc * sched) :=
  '(cur, s) ← take_current s;
  match cur with
  | None => Done (None, s)
  | Some old =>
      s ← update_task old (λ t, set_state Zombie (set_exit_status status t)) s;
      Done (Some old, s)
  end.

Definition exit_wake_parent (old : loc) (s : sched) : outcome sched :=
  t ← task_at old s;
  if negb (t_parent_id t =? 0) then
    par ← find_task_by_id (t_parent_id t) s;
    match par with
    | None => Done s
    | Some par =>
        tp ← task_at par s;
        if t_waiting_for_child tp then
          s ← update_task par (set_waiting false) s;
          wake_task par s
        else Done s
    end
  else Done s.

(** The next task is loaded over a dummy context: the dying task is never
    resumed.  With nothing to run the CPU halts in the handler. *)
Definition exit_switch (old : loc) (s : sched) : outcome sched :=
  s ← push_zombie old s;
  '(next, s) ← pick_next_task s;
  match next with
  | None => Done s
  | Some new =>
      s ← run_hook new s;
      t ← task_at new s;
      Done (set_cpu (load_context (t_context t) (s_cpu s)) s)
  end.

(** SYS_EXIT.  Between the first two parts the handler releases the task's
    descriptors, which wakes the readers blocked on the pipes it was the last
    writer of: [woken] are those tasks. *)
Definition exit_task (status : Z) (woken : list loc) (s : sched) : outcome sched :=
  '(cur, s) ← exit_mark status s;
  match cur with
  | None => Done s
  | Some old =>
      s ← for_each woken wake_task s;
      s ← exit_wake_parent old s;
      exit_switch old s
  end.

(** The blocking turn of the loop of SYS_WAIT. *)
Definition wait_block (s : sched) : outcome sched :=
  cur ← current_task_arc s;
  s ← match cur with Some l => update_task l (set_waiting true) s | None => Done s end;
  block_current_and_switch s.

(** The reaping turn: [Some] child and its status when a zombie was found. *)
Definition wait_reap (task_id pid : Z) (s : sched) : outcome (option (Z * Z) * sched) :=
  '(z, s) ← find_zombie_child task_id pid s;
  match z with
  | None => Done (None, s)
  | Some zl =>
      tz ← task_at zl s;
      let child_pid := t_id tz in
      let exit_status := default 0 (t_exit_status tz) in
      cur ← current_task_arc s;
      s ← match cur with
          | Some par =>
              update_task par (λ t, set_children
                (filter (λ id, id ≠ child_pid) (t_children t)) t) s
          | None => Done s
          end;
      Done (Some (child_pid, exit_status), s)
  end.

(* ------------------------------------------------------------------ *)
(** ** Executions *)

(** What can happen to the scheduler.  Every operation is made by, or preempts,
    a running task: a task that could not be switched away spins inside its
    system call with interrupts masked, and an exit that finds nothing to run
    halts the CPU.  Wait queues hold blocked tasks that are not inside
    SYS_WAIT. *)
Inductive sched_op :=
  | OpSpawn (l : loc) (mk : Z → TaskCB)
  | OpTick
  | OpBlock
  | OpWake (l : loc)
  | OpWait
  | OpReap (pid : Z)
  | OpExit (status : Z) (woken : list loc)
  | OpCompute (c : cpu).

Definition spawn_task (l : loc) (mk : Z → TaskCB) (s : sched) : outcome sched :=
  let '(id, s) := TaskId_new s in
  enqueue_task l (set_heap (<[l := mk id]> (s_heap s)) s).

Definition do_op (op : sched_op) (s : sched) : outcome sched :=
  match op with
  | OpSpawn l mk => spawn_task l mk s
  | OpTick => schedule s
  | OpBlock => block_current_and_switch s
  | OpWake l => wake_task l s
  | OpWait => wait_block s
  | OpReap pid => '(_, s) ← wait_reap (current_task_id s) pid s; Done s
  | OpExit status woken => exit_task status woken s
  | OpCompute c => Done (set_cpu c s)
  end.

(** The current task is in state [Running]. *)
Definition is_running (s : sched) : Prop :=
  match s_rq s with
  | Some rq => match rq_current rq with
               | Some l => match s_heap s !! l with
                           | Some t => t_state t = Running | None => False end
               | None => False end
  | None => False
  end.

Definition wakeable (l : loc) (s : sched) : Prop :=
  match s_rq s, s_heap s !! l with
  | Some rq, Some t => t_state t = Blocked ∧ t_waiting_for_child t = false ∧
                       t_kstack t ≠ 0 ∧ rq_current rq ≠ Some l
  | _, _ => False
  end.

Definition op_ok (op : sched_op) (s : sched) : Prop :=
  is_running s ∧
  match op with
  | OpSpawn l mk => s_heap s !! l = None ∧
      (∀ id, t_id (mk id) = id ∧ t_kstack (mk id) ≠ 0 ∧ t_waiting_for_child (mk id) = false)
  | OpWake l => wakeable l s
  | OpExit _ woken => NoDup woken ∧ Forall (λ l, wakeable l s) woken
  | OpTick | OpBlock | OpWait | OpReap _ | OpCompute _ => True
  end.

Inductive sched_step : sched → sched → Prop :=
  | step_op op s s' : op_ok op s → do_op op s = Done s' → sched_step s s'.

(** After [init] and the installation of the boot placeholder as current. *)
Definition seed_boot (l : loc) (s : sched) : outcome sched :=
  let '(t, s) := TaskCB_running_task s in
  set_current (Some l) (set_heap (<[l := t]> (s_heap s)) s).
