(* ===== verification/Sched.v ===== *)
(** * The scheduler is correct

    Theorems about the model of task/src/lib.rs and task/src/scheduler.rs:
    every reachable state satisfies the run-queue invariant (ready tasks are
    queued exactly once, the current task is not queued, zombies are neither);
    preemption is round robin; a task that is switched out resumes with exactly
    the registers it had, whatever the other tasks do; ids are unique; reaping
    removes the first matching zombie.  A parent blocked in SYS_WAIT is never
    woken by the exit of its child. *)

From S2P Require Import Prelude Task.

(* ------------------------------------------------------------------ *)
(** ** The run-queue invariant *)

(** [inv_core h q c zs]: the heap of tasks agrees with the queue, the current
    task and the zombie list.  The boot placeholder is the task without a
    kernel stack: it is never queued, and it keeps the state [Running] when the
    first switch leaves it. *)
Record inv_core (h : gmap loc TaskCB) (q : list loc) (c : option loc) (zs : list loc) : Prop := {
  ic_ready : ∀ l t, h !! l = Some t → t_state t = Ready → l ∈ q;
  ic_queue : ∀ l, l ∈ q → ∃ t, h !! l = Some t ∧ t_state t = Ready ∧ t_kstack t ≠ 0 ∧
               t_waiting_for_child t = false;
  ic_nodup : NoDup q;
  ic_run : ∀ l t, h !! l = Some t → t_kstack t ≠ 0 → t_state t = Running →
               c = Some l ∧ t_waiting_for_child t = false;
  ic_cur : ∀ l, c = Some l → ∃ t, h !! l = Some t ∧ (t_state t = Running ∨ t_state t = Blocked);
  ic_zombie : ∀ l, l ∈ zs → ∃ t, h !! l = Some t ∧ t_state t = Zombie;
  ic_nodupz : NoDup zs;
}.

Definition sched_inv (s : sched) : Prop :=
  ∃ q c zs, s_rq s = Some (mkRunQueue q c zs) ∧ inv_core (s_heap s) q c zs.

(** Task ids on the heap are below the counter and pairwise distinct. *)
Record ids_ok (h : gmap loc TaskCB) (n : Z) : Prop := {
  id_range : ∀ l t, h !! l = Some t → 0 < t_id t < n;
  id_inj : ∀ l1 l2 t1 t2, h !! l1 = Some t1 → h !! l2 = Some t2 → t_id t1 = t_id t2 → l1 = l2;
}.

(** Case analysis on a lookup in an updated heap. *)
Ltac lookup_cases :=
  repeat match goal with
  | H : <[?a := _]> _ !! ?b = _ |- _ =>
      apply lookup_insert_Some in H as [[??]|[??]]; subst
  end.

Section core.
Context (h : gmap loc TaskCB) (q : list loc) (zs : list loc).
Implicit Types (l : loc) (t : TaskCB).

Lemma inv_not_queued c l t :
  inv_core h q c zs → h !! l = Some t → t_state t ≠ Ready → l ∉ q.
Proof. intros Hi Hl Hs Hq. destruct (ic_queue _ _ _ _ Hi l Hq) as (? & ? & ? & _). by simplify_eq. Qed.

Lemma inv_not_zombie c l t :
  inv_core h q c zs → h !! l = Some t → t_state t ≠ Zombie → l ∉ zs.
Proof. intros Hi Hl Hs Hq. destruct (ic_zombie _ _ _ _ Hi l Hq) as (? & ? & ?). by simplify_eq. Qed.

(** Replacing a task outside the queue and the zombie list. *)
Lemma inv_replace c c' l t t' :
  inv_core h q c zs → h !! l = Some t → t_state t ≠ Ready → t_state t ≠ Zombie →
  t_state t' ≠ Ready →
  (∀ l' t, l' ≠ l → h !! l' = Some t → t_kstack t ≠ 0 → t_state t = Running →
    c' = Some l' ∧ t_waiting_for_child t = false) →
  (t_kstack t' ≠ 0 → t_state t' = Running → c' = Some l ∧ t_waiting_for_child t' = false) →
  (∀ l', c' = Some l' → (l' = l ∧ (t_state t' = Running ∨ t_state t' = Blocked)) ∨
     (l' ≠ l ∧ c = Some l')) →
  inv_core (<[l := t']> h) q c' zs.
Proof.
  intros Hi Hl Hr Hz Hr' Hrun Hrun' Hcur.
  pose proof (inv_not_queued c l t Hi Hl Hr) as Hq.
  pose proof (inv_not_zombie c l t Hi Hl Hz) as Hqz.
  destruct Hi as [I1 I2 I3 I4 I5 I6 I7]. split; [..|done].
  - intros; lookup_cases; [done|eauto].
  - intros l' Hl'. destruct (I2 l' Hl') as (u & ? & ?). exists u.
    rewrite lookup_insert_ne by (intros ->; done). done.
  - done.
  - intros; lookup_cases; eauto.
  - intros l' ->. destruct (Hcur l' eq_refl) as [[-> ?]|[? ->]].
    + rewrite lookup_insert_eq. eauto.
    + rewrite lookup_insert_ne by done. eauto.
  - intros l' Hl'. destruct (I6 l' Hl') as (u & ? & ?). exists u.
    rewrite lookup_insert_ne by (intros ->; done). done.
Qed.

(** The current task is taken off the CPU. *)
Lemma inv_unset_current l t t' :
  inv_core h q (Some l) zs → h !! l = Some t →
  t_state t' = Blocked ∨ t_state t' = Zombie → inv_core (<[l := t']> h) q None zs.
Proof.
  intros Hi Hl Ht'. destruct (ic_cur _ _ _ _ Hi l eq_refl) as (? & ? & Hst). simplify_eq.
  eapply inv_replace; [done|done|intuition congruence..| |intuition congruence|done].
  intros l' u Hne Hu Hk Hrun. destruct (ic_run _ _ _ _ Hi l' u Hu Hk Hrun). by simplify_eq.
Qed.

Lemma inv_reschedule l t :
  inv_core h q (Some l) zs → h !! l = Some t → t_kstack t ≠ 0 → t_state t = Running →
  inv_core (<[l := set_state Ready t]> h) (q ++ [l]) None zs.
Proof.
  intros Hi Hl Hk Hs.
  pose proof (inv_not_queued _ l t Hi Hl ltac:(by rewrite Hs)) as Hq.
  pose proof (inv_not_zombie _ l t Hi Hl ltac:(by rewrite Hs)) as Hqz.
  destruct (ic_run _ _ _ _ Hi l t Hl Hk Hs) as [_ Hw].
  destruct Hi as [I1 I2 I3 I4 I5 I6 I7]. split.
  - intros; lookup_cases; set_solver.
  - intros l' [Hl'| ->%list_elem_of_singleton]%elem_of_app.
    + destruct (I2 l' Hl') as (u & ? & ?). exists u.
      rewrite lookup_insert_ne by (intros ->; done). done.
    + rewrite lookup_insert_eq. eauto.
  - apply NoDup_app. split_and!; [done|set_solver|apply NoDup_singleton].
  - intros l' u ???; lookup_cases; [done|]. naive_solver.
  - done.
  - intros l' Hl'. destruct (I6 l' Hl') as (u & ? & ?). exists u.
    rewrite lookup_insert_ne by (intros ->; done). done.
  - done.
Qed.

Lemma inv_wake c l t :
  inv_core h q c zs → h !! l = Some t → t_kstack t ≠ 0 → t_state t = Blocked →
  t_waiting_for_child t = false → c ≠ Some l →
  inv_core (<[l := set_state Ready t]> h) (q ++ [l]) c zs.
Proof.
  intros Hi Hl Hk Hs Hw Hc.
  pose proof (inv_not_queued _ l t Hi Hl ltac:(by rewrite Hs)) as Hq.
  pose proof (inv_not_zombie _ l t Hi Hl ltac:(by rewrite Hs)) as Hqz.
  destruct Hi as [I1 I2 I3 I4 I5 I6 I7]. split.
  - intros; lookup_cases; set_solver.
  - intros l' [Hl'| ->%list_elem_of_singleton]%elem_of_app.
    + destruct (I2 l' Hl') as (u & ? & ?). exists u.
      rewrite lookup_insert_ne by (intros ->; done). done.
    + rewrite lookup_insert_eq. eauto.
  - apply NoDup_app. split_and!; [done|set_solver|apply NoDup_singleton].
  - intros l' u ???; lookup_cases; [done|]. naive_solver.
  - intros l' ->. rewrite lookup_insert_ne by congruence. eauto.
  - intros l' Hl'. destruct (I6 l' Hl') as (u & ? & ?). exists u.
    rewrite lookup_insert_ne by (intros ->; done). done.
  - done.
Qed.

Lemma inv_pick n t :
  inv_core h (n :: q) None zs → h !! n = Some t →
  inv_core (<[n := set_state Running t]> h) q (Some n) zs.
Proof.
  intros Hi Hn. destruct Hi as [I1 I2 I3 I4 I5 I6 I7].
  apply NoDup_cons in I3 as [Hq ND].
  destruct (I2 n) as (? & ? & Hr & Hk & Hw); [left|]. simplify_eq.
  split; [..|done].
  - intros; lookup_cases; [done|]. set_solver.
  - intros l' Hl'. destruct (I2 l') as (u & ? & ?); [by right|]. exists u.
    rewrite lookup_insert_ne by (intros ->; done). done.
  - done.
  - intros l' u ???; lookup_cases; [done|]. naive_solver.
  - intros l' ?; simplify_eq. rewrite lookup_insert_eq. eauto.
  - intros l' Hl'. destruct (I6 l' Hl') as (u & ? & ?). exists u.
    rewrite lookup_insert_ne by (intros ->; simplify_eq; congruence). done.
Qed.

Lemma inv_drop_boot l t :
  inv_core h q (Some l) zs → h !! l = Some t → t_kstack t = 0 → inv_core h q None zs.
Proof.
  intros [I1 I2 I3 I4 I5 I6 I7] Hl Hk. split; try done.
  intros l' u Hu Hku Hs. destruct (I4 l' u Hu Hku Hs). simplify_eq.
Qed.

Lemma inv_set_blocked_current l t :
  inv_core h q None zs → h !! l = Some t → t_state t = Blocked → inv_core h q (Some l) zs.
Proof.
  intros [I1 I2 I3 I4 I5 I6 I7] Hl Hk. split; try done.
  - intros l' u Hu Hku Hs. destruct (I4 l' u Hu Hku Hs). simplify_eq.
  - intros l' ?. simplify_eq. eauto.
Qed.

Lemma inv_push_zombie c l t :
  inv_core h q c zs → h !! l = Some t → t_state t = Zombie → l ∉ zs → inv_core h q c (zs ++ [l]).
Proof.
  intros [I1 I2 I3 I4 I5 I6 I7] Hl Hk Hz. split; try done.
  - intros l' [?| ->%list_elem_of_singleton]%elem_of_app; eauto.
  - apply NoDup_app. split_and!; [done|set_solver|apply NoDup_singleton].
Qed.

(** Changes to a task's other fields. *)
Lemma inv_same c l t t' :
  inv_core h q c zs → h !! l = Some t → t_state t' = t_state t → t_kstack t' = t_kstack t →
  t_waiting_for_child t' = t_waiting_for_child t → inv_core (<[l := t']> h) q c zs.
Proof.
  intros [I1 I2 I3 I4 I5 I6 I7] Hl Hs Hk Hw.
  assert (∀ l' u, h !! l' = Some u → ∃ u', <[l := t']> h !! l' = Some u' ∧
    t_state u' = t_state u ∧ t_kstack u' = t_kstack u ∧
    t_waiting_for_child u' = t_waiting_for_child u) as Hf.
  { intros l' u Hu. destruct (decide (l' = l)) as [->|].
    - rewrite lookup_insert_eq. simplify_eq. eauto.
    - rewrite lookup_insert_ne by done. eauto. }
  split; [..|done].
  - intros; lookup_cases; [|by eauto]. eapply I1; [done|congruence..].
  - intros l' (u & Hu & ? & ? & ?)%I2. destruct (Hf l' u Hu) as (u' & ? & ? & ? & ?).
    exists u'. split_and!; congruence.
  - done.
  - intros; lookup_cases; [|by eauto]. rewrite Hw. eapply I4; [done|congruence..].
  - intros l' (u & Hu & ?)%I5. destruct (Hf l' u Hu) as (u' & ? & ? & ? & ?).
    exists u'. split; [done|]. naive_solver congruence.
  - intros l' (u & Hu & ?)%I6. destruct (Hf l' u Hu) as (u' & ? & ? & ? & ?).
    exists u'. split; [done|]. congruence.
Qed.

Lemma inv_spawn c l t :
  inv_core h q c zs → h !! l = None → t_kstack t ≠ 0 → t_waiting_for_child t = false →
  inv_core (<[l := set_state Ready t]> h) (q ++ [l]) c zs.
Proof.
  intros [I1 I2 I3 I4 I5 I6 I7] Hl Hk Hw.
  assert (∀ l' u, h !! l' = Some u → <[l := set_state Ready t]> h !! l' = Some u) as Hf.
  { intros. rewrite lookup_insert_ne by congruence. done. }
  split; [..|done].
  - intros; lookup_cases; set_solver.
  - intros l' [(u & ? & ?)%I2| ->%list_elem_of_singleton]%elem_of_app; [by eauto|].
    rewrite lookup_insert_eq. eauto.
  - apply NoDup_app. split_and!; [done| |apply NoDup_singleton].
    intros l' (u & ? & _)%I2 ->%list_elem_of_singleton. congruence.
  - intros; lookup_cases; [done|eauto].
  - intros l' (u & ? & ?)%I5. eauto.
  - intros l' (u & ? & ?)%I6. eauto.
Qed.
End core.

(* ------------------------------------------------------------------ *)
(** ** The operations, as equations on concrete states *)

Section equations.
Context (ct ni ks : Z) (hk : bool) (r : cpu).
Implicit Types (h : gmap loc TaskCB) (q zs : list loc) (c : option loc).
#[local] Notation st h q c zs := (mkSched h (Some (mkRunQueue q c zs)) ct ni hk ks r).

Lemma enqueue_eq h q c zs l t :
  h !! l = Some t →
  RunQueue_enqueue l (st h q c zs) = Done (st (<[l := set_state Ready t]> h) (q ++ [l]) c zs).
Proof. intros Hl. unfold RunQueue_enqueue, update_task, task_at. simpl. by rewrite Hl. Qed.

Lemma wake_eq h q c zs l t :
  h !! l = Some t →
  wake_task l (st h q c zs) = Done (st (<[l := set_state Ready t]> h) (q ++ [l]) c zs).
Proof. apply enqueue_eq. Qed.

Lemma reschedule_eq h q zs l t :
  h !! l = Some t → t_kstack t ≠ 0 →
  reschedule_current (st h q (Some l) zs) =
  Done (st (<[l := set_state Ready t]> h) (q ++ [l]) None zs).
Proof.
  intros Hl Hk. unfold reschedule_current, take_current, task_at. simpl. rewrite Hl. simpl.
  rewrite (proj2 (Z.eqb_neq _ _) Hk). by apply enqueue_eq.
Qed.

Lemma reschedule_boot_eq h q zs l t :
  h !! l = Some t → t_kstack t = 0 →
  reschedule_current (st h q (Some l) zs) = Done (st h q None zs).
Proof.
  intros Hl Hk. unfold reschedule_current, take_current, task_at. simpl. rewrite Hl. simpl.
  by rewrite Hk.
Qed.

Lemma pick_next_eq h q c zs n t :
  h !! n = Some t →
  pick_next_task (st h (n :: q) c zs) =
  Done (Some n, mkSched (<[n := set_state Running t]> h) (Some (mkRunQueue q (Some n) zs))
                  (t_id t) ni hk ks r).
Proof.
  intros Hn. unfold pick_next_task, update_task, task_at. simpl. rewrite Hn. simpl.
  by rewrite lookup_insert_eq.
Qed.

(** The kernel stack installed when switching to [t]. *)
Definition hook_stack (t : TaskCB) : Z := if hk && negb (t_kstack t =? 0) then t_kstack t else ks.

Lemma run_hook_eq h q c zs n t :
  h !! n = Some t →
  run_hook n (st h q c zs) = Done (mkSched h (Some (mkRunQueue q c zs)) ct ni hk (hook_stack t) r).
Proof.
  intros Hn. unfold run_hook, task_at, hook_stack. simpl. rewrite Hn. simpl. by destruct (hk && _).
Qed.

Lemma context_switch_eq h q c zs o n to tn :
  h !! o = Some to → h !! n = Some tn → o ≠ n →
  context_switch o n (st h q c zs) =
  Done (mkSched (<[o := set_context (save_context r (t_context to)) to]> h)
          (Some (mkRunQueue q c zs)) ct ni hk ks (load_context (t_context tn) r)).
Proof.
  intros Ho Hn Hne. unfold context_switch, update_task, task_at. simpl. rewrite Ho. simpl.
  by rewrite lookup_insert_ne, Hn.
Qed.
End equations.

(** The state in which [n] runs after [o] was switched out: [h] is the heap
    with the states of both already set. *)
Definition switched (h : gmap loc TaskCB) (q zs : list loc) (ni ks : Z) (hk : bool) (r : cpu)
    (o n : loc) (to tn : TaskCB) : sched :=
  mkSched (<[o := set_context (save_context r (t_context to)) to]> h)
    (Some (mkRunQueue q (Some n) zs)) (t_id tn) ni hk (hook_stack ks hk tn)
    (load_context (t_context tn) r).

(** Preemption with another task ready. *)
Lemma schedule_eq h q zs ct ni hk ks r l t n tn :
  h !! l = Some t → t_kstack t ≠ 0 → h !! n = Some tn → l ≠ n →
  schedule (mkSched h (Some (mkRunQueue (n :: q) (Some l) zs)) ct ni hk ks r) =
  Done (switched (<[n := set_state Running tn]> (<[l := set_state Ready t]> h))
          (q ++ [l]) zs ni ks hk r l n (set_state Ready t) (set_state Running tn)).
Proof.
  intros Hl Hk Hn Hne. unfold schedule. simpl. rewrite (reschedule_eq _ _ _ _ _ _ _ _ l t) by done.
  simpl. rewrite (pick_next_eq _ _ _ _ _ _ _ _ _ n tn) by (by rewrite lookup_insert_ne).
  simpl. rewrite bool_decide_eq_false_2 by congruence.
  rewrite (run_hook_eq _ _ _ _ _ _ _ _ _ n (set_state Running tn)) by (by rewrite lookup_insert_eq).
  simpl. rewrite (context_switch_eq _ _ _ _ _ _ _ _ _ l n (set_state Ready t) (set_state Running tn));
    [done| |by rewrite lookup_insert_eq|done].
  by rewrite lookup_insert_ne, lookup_insert_eq.
Qed.

(** Preemption with nothing else ready: the task keeps the CPU. *)
Lemma schedule_alone_eq h zs ct ni hk ks r l t :
  h !! l = Some t → t_kstack t ≠ 0 →
  schedule (mkSched h (Some (mkRunQueue [] (Some l) zs)) ct ni hk ks r) =
  Done (mkSched (<[l := set_state Running t]> h) (Some (mkRunQueue [] (Some l) zs)) (t_id t) ni hk ks r).
Proof.
  intros Hl Hk. unfold schedule. simpl. rewrite (reschedule_eq _ _ _ _ _ _ _ _ l t) by done.
  simpl. rewrite (pick_next_eq _ _ _ _ _ _ _ _ _ l (set_state Ready t)) by (by rewrite lookup_insert_eq).
  simpl. by rewrite bool_decide_eq_true_2, insert_insert_eq.
Qed.

(** The first preemption leaves the boot placeholder for ever. *)
Lemma schedule_boot_eq h q zs ct ni hk ks r l t n tn :
  h !! l = Some t → t_kstack t = 0 → h !! n = Some tn → l ≠ n →
  schedule (mkSched h (Some (mkRunQueue (n :: q) (Some l) zs)) ct ni hk ks r) =
  Done (switched (<[n := set_state Running tn]> h) q zs ni ks hk r l n t (set_state Running tn)).
Proof.
  intros Hl Hk Hn Hne. unfold schedule. simpl. rewrite (reschedule_boot_eq _ _ _ _ _ _ _ _ l t) by done.
  simpl. rewrite (pick_next_eq _ _ _ _ _ _ _ _ _ n tn) by done.
  simpl. rewrite bool_decide_eq_false_2 by congruence.
  rewrite (run_hook_eq _ _ _ _ _ _ _ _ _ n (set_state Running tn)) by (by rewrite lookup_insert_eq).
  simpl. rewrite (context_switch_eq _ _ _ _ _ _ _ _ _ l n t (set_state Running tn));
    [done| |by rewrite lookup_insert_eq|done].
  by rewrite lookup_insert_ne.
Qed.

Lemma block_eq h q zs ct ni hk ks r l t n tn :
  h !! l = Some t → h !! n = Some tn → l ≠ n →
  block_current_and_switch (mkSched h (Some (mkRunQueue (n :: q) (Some l) zs)) ct ni hk ks r) =
  Done (switched (<[n := set_state Running tn]> (<[l := set_state Blocked t]> h))
          q zs ni ks hk r l n (set_state Blocked t) (set_state Running tn)).
Proof.
  intros Hl Hn Hne. unfold block_current_and_switch, take_current, update_task, task_at. simpl.
  rewrite Hl. simpl. unfold set_heap; simpl.
  rewrite (pick_next_eq _ _ _ _ _ _ _ _ _ n tn) by (by rewrite lookup_insert_ne). simpl.
  rewrite (run_hook_eq _ _ _ _ _ _ _ _ _ n (set_state Running tn)) by (by rewrite lookup_insert_eq).
  simpl. rewrite (context_switch_eq _ _ _ _ _ _ _ _ _ l n (set_state Blocked t) (set_state Running tn));
    [done| |by rewrite lookup_insert_eq|done].
  by rewrite lookup_insert_ne, lookup_insert_eq.
Qed.

Lemma block_alone_eq h zs ct ni hk ks r l t :
  h !! l = Some t →
  block_current_and_switch (mkSched h (Some (mkRunQueue [] (Some l) zs)) ct ni hk ks r) =
  Done (mkSched (<[l := set_state Blocked t]> h) (Some (mkRunQueue [] (Some l) zs)) ct ni hk ks r).
Proof.
  intros Hl. unfold block_current_and_switch, take_current, update_task, task_at. simpl.
  by rewrite Hl.
Qed.

(* ------------------------------------------------------------------ *)
(** ** Preservation *)

Lemma inv_switched h q zs ni ks hk r o n to tn :
  inv_core h q (Some n) zs → h !! o = Some to → sched_inv (switched h q zs ni ks hk r o n to tn).
Proof. intros Hi Ho. eexists _, _, _. split; [done|]. by eapply inv_same. Qed.

Lemma find_loc_spec p ls s :
  (∀ l, l ∈ ls → is_Some (s_heap s !! l)) →
  ∃ o, find_loc p ls s = Done o ∧
    match o with
    | Some l => ∃ t, l ∈ ls ∧ s_heap s !! l = Some t ∧ p t = true
    | None => ∀ l t, l ∈ ls → s_heap s !! l = Some t → p t = false
    end.
Proof.
  induction ls as [|l ls IH]; intros Hin; simpl.
  { exists None. split; [done|]. set_solver. }
  destruct (Hin l) as [t Ht]; [by left|]. unfold task_at. rewrite Ht. simpl.
  destruct (p t) eqn:Hp.
  { exists (Some l). split; [done|]. exists t. set_solver. }
  destruct IH as (o & Ho & Hs); [set_solver|]. rewrite Ho. exists o. split; [done|].
  destruct o as [l'|]; [set_solver|].
  intros l' t' [->|?]%elem_of_cons; [naive_solver|eauto].
Qed.

(** No task the exit path can find is waiting for a child: a task that waits
    is neither current nor queued. *)
Lemma exit_wake_parent_id h q zs ct ni hk ks r old told :
  inv_core h q None zs → h !! old = Some told →
  let s := mkSched h (Some (mkRunQueue q None zs)) ct ni hk ks r in
  exit_wake_parent old s = Done s.
Proof.
  intros Hi Ho s. unfold exit_wake_parent, task_at. simpl. rewrite Ho. simpl.
  destruct (negb _); [|done]. unfold find_task_by_id. simpl.
  destruct (find_loc_spec (λ t, t_id t =? t_parent_id told) q s) as (o & -> & Hs).
  { intros l (t & ? & _)%(ic_queue _ _ _ _ Hi). by exists t. }
  simpl. destruct o as [l|]; [|done]. destruct Hs as (t & Hl & Ht & _). simpl in Ht.
  rewrite Ht. simpl.
  destruct (ic_queue _ _ _ _ Hi l Hl) as (? & ? & _ & _ & Hw). simplify_eq. by rewrite Hw.
Qed.

Lemma exit_switch_inv h q zs ct ni hk ks r old told :
  inv_core h q None zs → h !! old = Some told → t_state told = Zombie → old ∉ zs →
  ∃ s', exit_switch old (mkSched h (Some (mkRunQueue q None zs)) ct ni hk ks r) = Done s' ∧ sched_inv s'.
Proof.
  intros Hi Ho Hz Hnz.
  assert (inv_core h q None (zs ++ [old])) as Hi' by (by eapply inv_push_zombie).
  unfold exit_switch, push_zombie. simpl. destruct q as [|n q].
  { eexists. split; [done|]. eexists _, _, _. by split. }
  destruct (ic_queue _ _ _ _ Hi n) as (tn & Hn & _); [by left|].
  rewrite (pick_next_eq _ _ _ _ _ _ _ _ _ n tn) by done. simpl.
  rewrite (run_hook_eq _ _ _ _ _ _ _ _ _ n (set_state Running tn)) by (by rewrite lookup_insert_eq).
  simpl. unfold task_at. simpl. rewrite lookup_insert_eq. simpl.
  eexists. split; [done|]. eexists _, _, _. split; [done|]. simpl. by apply inv_pick.
Qed.

Lemma ctx_insert_same (h : gmap loc TaskCB) l t t' x :
  h !! l = Some t → t_context t' = t_context t →
  t_context <$> (<[l := t']> h) !! x = t_context <$> h !! x.
Proof.
  intros Hl Ht. destruct (decide (x = l)) as [->|].
  - rewrite lookup_insert_eq, Hl. simpl. by rewrite Ht.
  - by rewrite lookup_insert_ne.
Qed.

Lemma wake_all_inv h q c zs ct ni hk ks r ls :
  inv_core h q c zs → NoDup ls →
  Forall (λ l, wakeable l (mkSched h (Some (mkRunQueue q c zs)) ct ni hk ks r)) ls →
  ∃ h' q', for_each ls wake_task (mkSched h (Some (mkRunQueue q c zs)) ct ni hk ks r) =
      Done (mkSched h' (Some (mkRunQueue q' c zs)) ct ni hk ks r) ∧
    inv_core h' q' c zs ∧ (∀ l, l ∉ ls → h' !! l = h !! l) ∧
    (∀ x, t_context <$> h' !! x = t_context <$> h !! x) ∧
    (∀ l, l ∈ ls → ∃ t, h' !! l = Some t ∧ t_state t = Ready).
Proof.
  revert h q. induction ls as [|l ls IH]; intros h q Hi ND Hw; simpl.
  { exists h, q. split_and!; try done. intros l Hl. by apply not_elem_of_nil in Hl. }
  apply NoDup_cons in ND as [Hnin ND]. apply Forall_cons in Hw as [Hl Hw].
  unfold wakeable in Hl; simpl in Hl. destruct (h !! l) as [t|] eqn:Ht; [|done].
  destruct Hl as (? & ? & ? & ?).
  rewrite (wake_eq _ _ _ _ _ _ _ _ _ l t) by done. simpl.
  destruct (IH (<[l:=set_state Ready t]> h) (q ++ [l])) as (h' & q' & -> & Hi' & Hh' & Hctx & Hrd).
  - by apply inv_wake.
  - done.
  - apply Forall_forall. intros l' Hin. pose proof (proj1 (Forall_forall _ _) Hw l' Hin). unfold wakeable in *. simpl in *. by rewrite lookup_insert_ne by (intros ->; done).
  - exists h', q'. split_and!; [done|done| | |].
    + intros l' [? ?]%not_elem_of_cons. by rewrite Hh', lookup_insert_ne.
    + intros x. by rewrite Hctx, (ctx_insert_same h l t).
    + intros l' [->|?]%elem_of_cons; [|by apply Hrd]. rewrite Hh', lookup_insert_eq by done. by eexists.
Qed.

(** SYS_EXIT up to its switch: the task is a zombie and nobody is current. *)
Lemma exit_prefix h q c zs ct ni hk ks r status woken :
  let s := mkSched h (Some (mkRunQueue q c zs)) ct ni hk ks r in
  inv_core h q c zs → is_running s → NoDup woken → Forall (λ l, wakeable l s) woken →
  ∃ l t h' q', c = Some l ∧ h !! l = Some t ∧ inv_core h' q' None zs ∧
    (∃ t', h' !! l = Some t' ∧ t_state t' = Zombie ∧ l ∉ zs) ∧
    (∀ x, t_context <$> h' !! x = t_context <$> h !! x) ∧
    (∀ x, x ≠ l → x ∉ woken → h' !! x = h !! x) ∧
    (∀ x, x ∈ woken → ∃ t, h' !! x = Some t ∧ t_state t = Ready) ∧
    exit_task status woken s =
    exit_switch l (mkSched h' (Some (mkRunQueue q' None zs)) ct ni hk ks r).
Proof.
  intros s Hi Hrun ND Hw. unfold is_running in Hrun. simpl in Hrun. destruct c as [l|]; [|done].
  destruct (h !! l) as [t|] eqn:Hl; [|done].
  unfold exit_task, exit_mark, take_current, update_task, task_at. simpl. rewrite Hl. simpl.
  pose proof (inv_not_zombie _ _ _ _ l t Hi Hl ltac:(by rewrite Hrun)) as Hnz.
  set (t' := set_state Zombie (set_exit_status status t)).
  pose proof (inv_unset_current _ _ _ l t t' Hi Hl ltac:(by right)) as Hi'.
  assert (l ∉ woken) as Hlw.
  { intros Hin. eapply Forall_forall in Hw; [|done]. unfold wakeable in Hw. simpl in Hw.
    rewrite Hl in Hw. naive_solver congruence. }
  destruct (wake_all_inv (<[l:=t']> h) q None zs ct ni hk ks r woken) as (h' & q' & Hwk & Hi'' & Hh'' & Hctx & Hrd);
    [done|done| |].
  { apply Forall_forall. intros l' Hin. pose proof (proj1 (Forall_forall _ _) Hw l' Hin). unfold wakeable in *. simpl in *. rewrite lookup_insert_ne by (intros ->; done).
    by destruct (h !! l'); naive_solver. }
  rewrite Hwk.
  assert (h' !! l = Some t') as Hl' by (by rewrite Hh'', lookup_insert_eq).
  exists l, t, h', q'. split_and!; [done..|by eauto| | |done|].
  - intros x. rewrite Hctx. by rewrite (ctx_insert_same h l t).
  - intros x ??. by rewrite Hh'', lookup_insert_ne by done.
  - simpl. by rewrite (exit_wake_parent_id _ _ _ _ _ _ _ _ l t').
Qed.

Lemma exit_task_inv status woken s :
  sched_inv s → op_ok (OpExit status woken) s → ∃ s', exit_task status woken s = Done s' ∧ sched_inv s'.
Proof.
  intros (q & c & zs & Hrq & Hi) [Hrun [ND Hw]]. destruct s as [h rq ct ni hk ks r]; simpl in *; subst.
  destruct (exit_prefix h q c zs ct ni hk ks r status woken)
    as (l & t & h' & q' & -> & _ & Hi' & (t' & ? & ? & ?) & _ & _ & _ & ->); [done..|].
  by eapply exit_switch_inv.
Qed.

(** The blocking task may have changed its own control block ([t1]) before. *)
Lemma block_inv h q zs ct ni hk ks r l t t1 :
  inv_core h q (Some l) zs → h !! l = Some t →
  ∃ s', block_current_and_switch
          (mkSched (<[l := t1]> h) (Some (mkRunQueue q (Some l) zs)) ct ni hk ks r) = Done s' ∧
    sched_inv s'.
Proof.
  intros Hi Hl.
  pose proof (inv_unset_current _ _ _ l t (set_state Blocked t1) Hi Hl ltac:(by left)) as Hi'.
  destruct q as [|n q].
  - rewrite (block_alone_eq _ _ _ _ _ _ _ l t1) by (by rewrite lookup_insert_eq).
    rewrite insert_insert_eq. eexists. split; [done|].
    eexists _, _, _. split; [done|]. simpl. eapply inv_set_blocked_current; [done|by rewrite lookup_insert_eq|done].
  - destruct (ic_queue _ _ _ _ Hi n) as (tn & Hn & Hr & _); [by left|].
    destruct (ic_cur _ _ _ _ Hi l eq_refl) as (? & ? & Hst). simplify_eq.
    assert (l ≠ n) by (intros ->; simplify_eq; intuition congruence).
    rewrite (block_eq _ _ _ _ _ _ _ _ l t1 n tn);
      [|by rewrite lookup_insert_eq|by rewrite lookup_insert_ne|done].
    rewrite insert_insert_eq. eexists. split; [done|].
    apply inv_switched; [|by rewrite lookup_insert_ne, lookup_insert_eq].
    apply inv_pick; [done|]. by rewrite lookup_insert_ne.
Qed.

Lemma schedule_inv s :
  sched_inv s → is_running s → ∃ s', schedule s = Done s' ∧ sched_inv s'.
Proof.
  intros (q & c & zs & Hrq & Hi) Hrun. destruct s as [h rq ct ni hk ks r]; simpl in *; subst.
  destruct c as [l|]; [|done].
  - destruct (ic_cur _ _ _ _ Hi l eq_refl) as (t & Hl & _). unfold is_running in Hrun. simpl in Hrun.
    rewrite Hl in Hrun. destruct q as [|n q].
    + destruct (decide (t_kstack t = 0)) as [Hk|Hk].
      * unfold schedule. simpl. rewrite (reschedule_boot_eq _ _ _ _ _ _ _ _ l t) by done. simpl.
        eexists. split; [done|]. eexists _, _, _. split; [done|]. by eapply inv_drop_boot.
      * rewrite (schedule_alone_eq _ _ _ _ _ _ _ l t) by done. eexists. split; [done|].
        eexists _, _, _. split; [done|]. simpl. by eapply inv_same.
    + destruct (ic_queue _ _ _ _ Hi n) as (tn & Hn & Hr & _); [by left|].
      assert (l ≠ n) by congruence.
      destruct (decide (t_kstack t = 0)) as [Hk|Hk].
      * rewrite (schedule_boot_eq _ _ _ _ _ _ _ _ l t n tn) by done. eexists. split; [done|].
        apply inv_switched; [|by rewrite lookup_insert_ne].
        apply inv_pick; [|done]. by eapply inv_drop_boot.
      * rewrite (schedule_eq _ _ _ _ _ _ _ _ l t n tn) by done. eexists. split; [done|].
        apply inv_switched; [|by rewrite lookup_insert_ne, lookup_insert_eq].
        apply inv_pick; [|by rewrite lookup_insert_ne].
        by apply (inv_reschedule _ (n :: q) _ l t).
Qed.

Lemma remove_first_spec p ls s :
  (∀ l, l ∈ ls → is_Some (s_heap s !! l)) →
  ∃ o, remove_first p ls s = Done o ∧
    match o with
    | Some (l, ls') => ∃ t l1 l2, s_heap s !! l = Some t ∧ p t = true ∧ ls = l1 ++ l :: l2 ∧
        ls' = l1 ++ l2 ∧ (∀ l' t', l' ∈ l1 → s_heap s !! l' = Some t' → p t' = false)
    | None => ∀ l t, l ∈ ls → s_heap s !! l = Some t → p t = false
    end.
Proof.
  induction ls as [|l ls IH]; intros Hin; simpl.
  { exists None. split; [done|]. set_solver. }
  destruct (Hin l) as [t Ht]; [by left|]. unfold task_at. rewrite Ht. simpl.
  destruct (p t) eqn:Hp.
  { exists (Some (l, ls)). split; [done|]. exists t, [], ls. set_solver. }
  destruct IH as (o & Ho & Hs); [set_solver|]. rewrite Ho. simpl. eexists. split; [done|].
  destruct o as [[l' ls']|]; simpl.
  - destruct Hs as (t' & l1 & l2 & ? & ? & -> & -> & Hl1). exists t', (l :: l1), l2.
    split_and!; [done..|]. intros l'' t'' [->|?]%elem_of_cons; [naive_solver|eauto].
  - intros l' t' [->|?]%elem_of_cons; [naive_solver|eauto].
Qed.

Lemma inv_remove_zombie h q c l1 l l2 :
  inv_core h q c (l1 ++ l :: l2) → inv_core h q c (l1 ++ l2).
Proof.
  intros [I1 I2 I3 I4 I5 I6 I7]. split; try done.
  - intros l' Hl'. apply I6. set_solver.
  - apply NoDup_app in I7 as (? & ? & [? ?]%NoDup_cons). apply NoDup_app.
    split_and!; [done| |done]. set_solver.
Qed.

Lemma wait_reap_inv tid pid s :
  sched_inv s → ∃ o s', wait_reap tid pid s = Done (o, s') ∧ sched_inv s'.
Proof.
  intros (q & c & zs & Hrq & Hi). destruct s as [h rq ct ni hk ks r]; simpl in *; subst.
  unfold wait_reap, find_zombie_child. simpl.
  destruct (remove_first_spec (zombie_matches tid pid) zs
    (mkSched h (Some (mkRunQueue q c zs)) ct ni hk ks r)) as (o & -> & Hs).
  { intros l (t & ? & _)%(ic_zombie _ _ _ _ Hi). by exists t. }
  simpl. destruct o as [[l zs']|]; simpl.
  - destruct Hs as (t & l1 & l2 & Ht & _ & -> & -> & _). simpl in Ht.
    apply inv_remove_zombie in Hi. unfold task_at. simpl. rewrite Ht. simpl.
    destruct c as [lc|]; simpl.
    + destruct (ic_cur _ _ _ _ Hi lc eq_refl) as (tc & Hc & _). unfold update_task, task_at. simpl.
      rewrite Hc. simpl. eexists _, _. split; [done|]. eexists _, _, _. split; [done|]. simpl.
      by eapply inv_same.
    + eexists _, _. split; [done|]. eexists _, _, _. by split.
  - eexists _, _. split; [done|]. eexists _, _, _. by split.
Qed.

Lemma wait_block_inv s : sched_inv s → is_running s → ∃ s', wait_block s = Done s' ∧ sched_inv s'.
Proof.
  intros (q & c & zs & Hrq & Hi) Hrun. destruct s as [h rq ct ni hk ks r]; simpl in *; subst.
  unfold is_running in Hrun. simpl in Hrun. destruct c as [l|]; [|done].
  destruct (h !! l) as [t|] eqn:Hl; [|done].
  unfold wait_block, update_task, task_at. simpl. rewrite Hl. simpl.
  by eapply block_inv.
Qed.

(** Every enabled operation succeeds and preserves the invariant. *)
Lemma do_op_inv op s : sched_inv s → op_ok op s → ∃ s', do_op op s = Done s' ∧ sched_inv s'.
Proof.
  intros Hinv Hok. pose proof Hok as [Hrun Hx].
  destruct op as [l mk| | |l| |pid|status woken|c]; simpl in *.
  - destruct Hx as [Hl Hmk]. destruct Hinv as (q & c & zs & Hrq & Hi).
    destruct s as [h rq ct ni hk ks r]; simpl in *; subst.
    unfold spawn_task, enqueue_task. simpl. rewrite (enqueue_eq _ _ _ _ _ _ _ _ _ l (mk ni))
      by (by rewrite lookup_insert_eq).
    rewrite insert_insert_eq. eexists. split; [done|]. eexists _, _, _. split; [done|].
    destruct (Hmk ni) as (? & ? & ?). by apply inv_spawn.
  - by apply schedule_inv.
  - destruct Hinv as (q & c & zs & Hrq & Hi). destruct s as [h rq ct ni hk ks r]; simpl in *; subst.
    unfold is_running in Hrun. simpl in Hrun. destruct c as [l|]; [|done].
    destruct (h !! l) as [t|] eqn:Hl; [|done]. rewrite <-(insert_id h l t) by done. by eapply block_inv.
  - destruct Hinv as (q & c & zs & Hrq & Hi). destruct s as [h rq ct ni hk ks r]; simpl in *; subst.
    unfold wakeable in Hx. simpl in Hx. destruct (h !! l) as [t|] eqn:Hl; [|done].
    destruct Hx as (? & ? & ? & ?). rewrite (wake_eq _ _ _ _ _ _ _ _ _ l t) by done.
    eexists. split; [done|]. eexists _, _, _. split; [done|]. by apply inv_wake.
  - by apply wait_block_inv.
  - destruct (wait_reap_inv (current_task_id s) pid s Hinv) as (o & s' & -> & ?). simpl. eauto.
  - by apply exit_task_inv.
  - eexists. split; [done|]. destruct Hinv as (q & c' & zs & Hrq & Hi). by exists q, c', zs.
Qed.

Lemma sched_inv_boot l c : ∃ s, seed_boot l (init (sched_boot c)) = Done s ∧ sched_inv s.
Proof.
  eexists. split; [done|]. eexists _, _, _. split; [done|]. simpl.
  split; try done; try apply NoDup_nil; try set_solver.
  - intros; lookup_cases; done.
  - intros; lookup_cases; done.
  - intros l' ?. simplify_eq. rewrite lookup_insert_eq. eauto.
Qed.

Lemma step_inv s s' : sched_step s s' → sched_inv s → sched_inv s'.
Proof.
  intros [op u u' Hok Hdo] Hinv. destruct (do_op_inv op u Hinv Hok) as (? & Hdo' & ?). congruence.
Qed.

Lemma reachable_inv s s' : rtc sched_step s s' → sched_inv s → sched_inv s'.
Proof. induction 1; eauto using step_inv. Qed.

(* ------------------------------------------------------------------ *)
(** ** Round robin *)

Fixpoint ticks (k : nat) (s : sched) : outcome sched :=
  match k with
  | O => Done s
  | S k => s ← schedule s; ticks k s
  end.

(** The ring of a state: the current task followed by the queue. *)
Definition ring_of (s : sched) : list loc :=
  match s_rq s with
  | Some rq => match rq_current rq with Some l => l :: rq_queue rq | None => rq_queue rq end
  | None => []
  end.

(** [run_ok s]: a task with a kernel stack runs. *)
Definition run_ok (s : sched) : Prop :=
  sched_inv s ∧ is_running s ∧ ∀ l t, l ∈ ring_of s → s_heap s !! l = Some t → t_kstack t ≠ 0.

Lemma schedule_rotates s :
  run_ok s →
  ∃ s', schedule s = Done s' ∧ run_ok s' ∧ ring_of s' = tail (ring_of s) ++ take 1 (ring_of s).
Proof.
  intros (Hinv & Hrun & Hk). destruct (schedule_inv s Hinv Hrun) as (s' & Hs & Hinv').
  destruct Hinv as (q & c & zs & Hrq & Hi). destruct s as [h rq ct ni hk ks r]; simpl in *; subst.
  unfold is_running in Hrun. unfold ring_of in *. simpl in *. destruct c as [l|]; [|done].
  destruct (h !! l) as [t|] eqn:Hl; [|done]. assert (t_kstack t ≠ 0) as Hkt by set_solver.
  exists s'. split; [done|]. destruct q as [|n q].
  - rewrite (schedule_alone_eq _ _ _ _ _ _ _ l t) in Hs by done. simplify_eq.
    unfold run_ok, ring_of, is_running; simpl. rewrite lookup_insert_eq. split_and!; try done.
    intros l' u ->%list_elem_of_singleton ?; lookup_cases; done.
  - destruct (ic_queue _ _ _ _ Hi n) as (tn & Hn & Hr & Hkn & _); [by left|].
    assert (l ≠ n) by congruence.
    rewrite (schedule_eq _ _ _ _ _ _ _ _ l t n tn) in Hs by done. simplify_eq.
    unfold run_ok, ring_of, is_running; simpl.
    rewrite lookup_insert_ne, lookup_insert_eq by done. split_and!; try done.
    intros l' u Hin Hu; lookup_cases; try done. eapply Hk; [|done]. set_solver.
Qed.

Lemma ticks_rotate k s :
  run_ok s → (k ≤ length (ring_of s))%nat →
  ∃ s', ticks k s = Done s' ∧ run_ok s' ∧ ring_of s' = drop k (ring_of s) ++ take k (ring_of s).
Proof.
  revert s. induction k as [|k IH]; intros s Hok Hle; simpl.
  { exists s. by rewrite drop_0, app_nil_r. }
  destruct (schedule_rotates s Hok) as (s1 & -> & Hok1 & Hr1). simpl.
  destruct (ring_of s) as [|x xs] eqn:Hring; simpl in *; [lia|].
  destruct (IH s1 Hok1) as (s' & -> & Hok' & Hr'); [rewrite Hr1, length_app; simpl; lia|].
  exists s'. split_and!; [done|done|]. rewrite Hr', Hr1, drop_app_le, take_app_le by lia.
  by rewrite <-app_assoc.
Qed.

(* ------------------------------------------------------------------ *)
(** ** What an operation does to the saved contexts *)

Definition cur (s : sched) : option loc := rq ← s_rq s; rq_current rq.

Definition ctx_of (s : sched) (x : loc) : option CPUContext := t_context <$> s_heap s !! x.

Inductive sched_effect (s s' : sched) : Prop :=
  (* the CPU stays with the current task; no saved context changes *)
  | eff_stay :
      cur s' = cur s → (∀ x c, ctx_of s x = Some c → ctx_of s' x = Some c) → sched_effect s s'
  (* [l] is saved and [n] loaded *)
  | eff_switch l n xl xn :
      cur s = Some l → cur s' = Some n → l ≠ n →
      ctx_of s l = Some xl → ctx_of s n = Some xn →
      s_cpu s' = load_context xn (s_cpu s) →
      ctx_of s' l = Some (save_context (s_cpu s) xl) →
      (∀ x, x ≠ l → ctx_of s' x = ctx_of s x) → sched_effect s s'
  (* the current task dies, or is the boot placeholder *)
  | eff_exit l :
      cur s = Some l →
      (∃ t, s_heap s' !! l = Some t ∧ (t_state t = Zombie ∨ t_kstack t = 0)) →
      (∀ n, cur s' = Some n → l ≠ n ∧
         ∃ xn, ctx_of s n = Some xn ∧ s_cpu s' = load_context xn (s_cpu s)) →
      (∀ x, ctx_of s' x = ctx_of s x) → sched_effect s s'.

(** The effect of a switch, from the heap [h'] that differs from [h] in task
    states only. *)
Lemma switched_effect s h' q zs ni ks hk r l n to tn :
  s_cpu s = r → cur s = Some l → l ≠ n →
  (∀ x, t_context <$> h' !! x = ctx_of s x) → h' !! l = Some to → h' !! n = Some tn →
  sched_effect s (switched h' q zs ni ks hk r l n to tn).
Proof.
  intros <- Hc Hne Hctx Hl Hn.
  apply (eff_switch _ _ l n (t_context to) (t_context tn)); try done.
  - by rewrite <-Hctx, Hl.
  - by rewrite <-Hctx, Hn.
  - unfold ctx_of. simpl. by rewrite lookup_insert_eq.
  - intros x Hx. unfold ctx_of at 1. simpl. by rewrite lookup_insert_ne by done.
Qed.

(** Blocking, where the task may have changed its own control block before. *)
Lemma block_effect s h q zs ct ni hk ks r l t t1 s' :
  s = mkSched h (Some (mkRunQueue q (Some l) zs)) ct ni hk ks r →
  inv_core h q (Some l) zs → h !! l = Some t → t_state t = Running → t_context t1 = t_context t →
  block_current_and_switch
    (mkSched (<[l := t1]> h) (Some (mkRunQueue q (Some l) zs)) ct ni hk ks r) = Done s' →
  sched_effect s s'.
Proof.
  intros -> Hi Hl Hrun Ht1. destruct q as [|n q].
  - rewrite (block_alone_eq _ _ _ _ _ _ _ l t1), insert_insert_eq by (by rewrite lookup_insert_eq).
    intros ?; simplify_eq. apply eff_stay; [done|]. intros x c. unfold ctx_of. simpl.
    by rewrite (ctx_insert_same h l t).
  - destruct (ic_queue _ _ _ _ Hi n) as (tn & Hn & Hr & _); [by left|].
    assert (l ≠ n) by congruence.
    rewrite (block_eq _ _ _ _ _ _ _ _ l t1 n tn), insert_insert_eq;
      [|by rewrite lookup_insert_eq|by rewrite lookup_insert_ne|done].
    intros ?; simplify_eq. apply switched_effect; try done.
    + intros x. unfold ctx_of. simpl.
      rewrite (ctx_insert_same _ n tn) by (done || by rewrite lookup_insert_ne).
      by rewrite (ctx_insert_same h l t).
    + by rewrite lookup_insert_ne, lookup_insert_eq.
    + by rewrite lookup_insert_eq.
Qed.

Lemma schedule_effect s s' :
  sched_inv s → is_running s → schedule s = Done s' → sched_effect s s'.
Proof.
  intros (q & c & zs & Hrq & Hi) Hrun. destruct s as [h rq ct ni hk ks r]; simpl in *; subst.
  unfold is_running in Hrun. simpl in *. destruct c as [l|]; [|done].
  destruct (h !! l) as [t|] eqn:Hl; [|done]. destruct q as [|n q].
  - destruct (decide (t_kstack t = 0)) as [Hk|Hk].
    + unfold schedule. simpl. rewrite (reschedule_boot_eq _ _ _ _ _ _ _ _ l t) by done. simpl.
      intros ?; simplify_eq. apply (eff_exit _ _ l); simpl; by eauto || by unfold cur.
    + rewrite (schedule_alone_eq _ _ _ _ _ _ _ l t) by done. intros ?; simplify_eq.
      apply eff_stay; [done|]. intros x c. unfold ctx_of. simpl. by rewrite (ctx_insert_same h l t).
  - destruct (ic_queue _ _ _ _ Hi n) as (tn & Hn & Hr & _); [by left|].
    assert (l ≠ n) by congruence. destruct (decide (t_kstack t = 0)) as [Hk|Hk].
    + rewrite (schedule_boot_eq _ _ _ _ _ _ _ _ l t n tn) by done. intros ?; simplify_eq.
      apply switched_effect; try done.
      * intros x. by rewrite (ctx_insert_same h n tn).
      * by rewrite lookup_insert_ne.
      * by rewrite lookup_insert_eq.
    + rewrite (schedule_eq _ _ _ _ _ _ _ _ l t n tn) by done. intros ?; simplify_eq.
      apply switched_effect; try done.
      * intros x. rewrite (ctx_insert_same _ n tn) by (done || by rewrite lookup_insert_ne).
        by rewrite (ctx_insert_same h l t).
      * by rewrite lookup_insert_ne, lookup_insert_eq.
      * by rewrite lookup_insert_eq.
Qed.

Lemma exit_switch_effect h q zs ct ni hk ks r old s' :
  inv_core h q None zs →
  exit_switch old (mkSched h (Some (mkRunQueue q None zs)) ct ni hk ks r) = Done s' →
  (∀ x, ctx_of s' x = t_context <$> h !! x) ∧
  (∀ n, cur s' = Some n → n ∈ q ∧ ∃ xn, t_context <$> h !! n = Some xn ∧ s_cpu s' = load_context xn r) ∧
  (∀ x t, h !! x = Some t → t_state t = Zombie → s_heap s' !! x = Some t).
Proof.
  intros Hi. unfold exit_switch, push_zombie. simpl. destruct q as [|n q].
  { unfold pick_next_task. simpl. intros ?; simplify_eq. split_and!; [done|by unfold cur|done]. }
  destruct (ic_queue _ _ _ _ Hi n) as (tn & Hn & Hr & _); [by left|].
  rewrite (pick_next_eq _ _ _ _ _ _ _ _ _ n tn) by done. simpl.
  rewrite (run_hook_eq _ _ _ _ _ _ _ _ _ n (set_state Running tn)) by (by rewrite lookup_insert_eq).
  simpl. unfold task_at. simpl. rewrite lookup_insert_eq. simpl. intros ?; simplify_eq. split.
  - intros x. unfold ctx_of. simpl. by rewrite (ctx_insert_same h n tn).
  - split.
    + unfold cur. simpl. intros ? ?; simplify_eq. split; [by left|]. rewrite Hn. simpl. eauto.
    + intros x t Hx Hz. simpl. rewrite lookup_insert_ne by congruence. done.
Qed.

Lemma exit_effect status woken s s' :
  sched_inv s → op_ok (OpExit status woken) s → exit_task status woken s = Done s' → sched_effect s s'.
Proof.
  intros (q & c & zs & Hrq & Hi) [Hrun [ND Hw]] Hex.
  destruct s as [h rq ct ni hk ks r]; simpl in *; subst.
  destruct (exit_prefix h q c zs ct ni hk ks r status woken) as (l & t & h' & q' & -> & Hl & Hi' & (t' & ? & ? & _) & Hctx & _ & _ & Hrest); [done..|].
  rewrite Hrest in Hex. apply exit_switch_effect in Hex as (Hc & Hn & Hz); [|done].
  apply (eff_exit _ _ l); [done|by eauto| |].
  - intros n (Hq & xn & Hxn & Hcpu)%Hn. split.
    + intros ->. destruct (ic_queue _ _ _ _ Hi' n Hq) as (? & ? & ? & _). congruence.
    + exists xn. by rewrite Hctx in Hxn.
  - intros x. by rewrite Hc, Hctx.
Qed.

Lemma wait_reap_effect tid pid s o s' :
  sched_inv s → wait_reap tid pid s = Done (o, s') → sched_effect s s'.
Proof.
  intros (q & c & zs & Hrq & Hi). destruct s as [h rq ct ni hk ks r]; simpl in *; subst.
  unfold wait_reap, find_zombie_child. simpl.
  destruct (remove_first _ _ _) as [[[l zs']|]|]; simpl; [|by intros; simplify_eq; apply eff_stay|done].
  unfold task_at. simpl. destruct (h !! l) as [tz|]; [|done]. simpl.
  destruct c as [lc|]; simpl; [|by intros; simplify_eq; apply eff_stay].
  destruct (ic_cur _ _ _ _ Hi lc eq_refl) as (tc & Hc & _). unfold update_task, task_at. simpl.
  rewrite Hc. simpl. intros ?; simplify_eq. apply eff_stay; [done|].
  intros x c'. unfold ctx_of. simpl. by rewrite (ctx_insert_same h lc tc).
Qed.

Lemma do_op_effect op s s' :
  sched_inv s → op_ok op s → do_op op s = Done s' → sched_effect s s'.
Proof.
  intros Hinv Hok. pose proof Hok as [Hrun Hx].
  destruct op as [l mk| | |l| |pid|status woken|c]; simpl in *.
  - destruct Hx as [Hl _]. destruct Hinv as (q & c & zs & Hrq & Hi).
    destruct s as [h rq ct ni hk ks r]; simpl in *; subst.
    unfold spawn_task, enqueue_task. simpl. rewrite (enqueue_eq _ _ _ _ _ _ _ _ _ l (mk ni))
      by (by rewrite lookup_insert_eq).
    intros ?; simplify_eq. apply eff_stay; [done|]. intros x c'. unfold ctx_of. simpl.
    intros Hx. rewrite insert_insert_eq. rewrite lookup_insert_ne; [done|]. intros ->. by rewrite Hl in Hx.
  - by apply schedule_effect.
  - destruct Hinv as (q & c & zs & Hrq & Hi). destruct s as [h rq ct ni hk ks r]; simpl in *; subst.
    unfold is_running in Hrun. simpl in Hrun. destruct c as [l|]; [|done].
    destruct (h !! l) as [t|] eqn:Hl; [|done]. intros Hb.
    eapply (block_effect _ h q zs ct ni hk ks r l t t); try done. by rewrite insert_id.
  - destruct Hinv as (q & c & zs & Hrq & Hi). destruct s as [h rq ct ni hk ks r]; simpl in *; subst.
    unfold wakeable in Hx. simpl in Hx. destruct (h !! l) as [t|] eqn:Hl; [|done].
    rewrite (wake_eq _ _ _ _ _ _ _ _ _ l t) by done. intros ?; simplify_eq.
    apply eff_stay; [done|]. intros x c'. unfold ctx_of. simpl. by rewrite (ctx_insert_same h l t).
  - destruct Hinv as (q & c & zs & Hrq & Hi). destruct s as [h rq ct ni hk ks r]; simpl in *; subst.
    unfold is_running in Hrun. simpl in Hrun. destruct c as [l|]; [|done].
    destruct (h !! l) as [t|] eqn:Hl; [|done].
    unfold wait_block, update_task, task_at. simpl. rewrite Hl. simpl. intros Hb.
    by eapply (block_effect _ h q zs ct ni hk ks r l t (set_waiting true t)).
  - intros Hd. apply bind_Done in Hd as ([o u] & Hr & ?); simplify_eq.
    by eapply wait_reap_effect.
  - by apply exit_effect.
  - intros ?; simplify_eq. by apply eff_stay.
Qed.

(** [saved s a r]: the saved context of [a] holds the registers [r]. *)
Definition saved (s : sched) (a : loc) (r : cpu) : Prop :=
  ∃ x, ctx_of s a = Some (save_context r x).

Lemma load_save r x r' : c_cr3 r ≠ 0 → load_context (save_context r x) r' = r.
Proof.
  intros H. destruct r. unfold load_context. simpl in *. by rewrite (proj2 (Z.eqb_neq _ _) H).
Qed.

Lemma switch_out_ctx s s' a :
  sched_inv s → sched_step s s' → cur s = Some a → cur s' ≠ Some a →
  (∀ t, s_heap s' !! a = Some t → t_state t ≠ Zombie ∧ t_kstack t ≠ 0) →
  saved s' a (s_cpu s).
Proof.
  intros Hinv Hs Ha Hout Hal. destruct Hs as [op u u' Hok Hdo].
  apply do_op_effect in Hdo; [|done..].
  destruct Hdo as [Hc _|l n xl xn Hl _ _ _ _ _ Hsv _|l Hl (t & Ht & Hz) _ _]; simplify_eq.
  - congruence.
  - by exists xl.
  - destruct (Hal _ Ht) as [? ?]. tauto.
Qed.

Lemma saved_step s s' a r :
  sched_inv s → sched_step s s' → cur s ≠ Some a → saved s a r → saved s' a r.
Proof.
  intros Hinv Hs Ha (x & Hx). destruct Hs as [op u u' Hok Hdo].
  apply do_op_effect in Hdo; [|done..]. exists x.
  destruct Hdo as [_ Hc|l n xl xn Hl _ _ _ _ _ _ Hc|l Hl _ _ Hc]; [by apply Hc| |by rewrite Hc].
  rewrite Hc; [done|]. congruence.
Qed.

Lemma away_cur s s' a :
  rtc (λ s s', sched_step s s' ∧ cur s' ≠ Some a) s s' → cur s ≠ Some a → cur s' ≠ Some a.
Proof. induction 1 as [|s1 s2 s3 [_ ?] _ IH]; auto. Qed.

Lemma away_ctx s s' a r :
  rtc (λ s s', sched_step s s' ∧ cur s' ≠ Some a) s s' → cur s ≠ Some a → sched_inv s →
  saved s a r → saved s' a r.
Proof.
  induction 1 as [|s1 s2 s3 [? ?] _ IH]; [done|]. intros Hc Hi Hsv.
  apply IH; [done|by eapply step_inv|by eapply saved_step].
Qed.

(** The step that makes [a] current loads its saved registers. *)
Lemma resume_ctx s s' a r :
  sched_inv s → saved s a r → c_cr3 r ≠ 0 → cur s ≠ Some a →
  sched_step s s' → cur s' = Some a → s_cpu s' = r.
Proof.
  intros Hinv (x & Hx) Hcr Ha Hs Ha'. destruct Hs as [op u u' Hok Hdo].
  apply do_op_effect in Hdo; [|done..].
  destruct Hdo as [Hc _|l n xl xn Hl Hn _ _ Hxn -> _ _|l Hl _ Hn _]; simplify_eq.
  - congruence.
  - by apply load_save.
  - destruct (Hn a Ha') as (_ & xn & Hxn & ->). simplify_eq. by apply load_save.
Qed.

(* ------------------------------------------------------------------ *)
(** ** Ids *)

(** What never changes in a task: its id and its kernel stack. *)
Definition identity (t : TaskCB) : Z * Z := (t_id t, t_kstack t).

(** [frame s s']: the same tasks with the same identities, the same counter. *)
Definition frame (s s' : sched) : Prop :=
  s_next_id s' = s_next_id s ∧ ∀ x, identity <$> s_heap s' !! x = identity <$> s_heap s !! x.

Lemma frame_back s s' x t' :
  frame s s' → s_heap s' !! x = Some t' → ∃ t, s_heap s !! x = Some t ∧ t_id t = t_id t' ∧ t_kstack t = t_kstack t'.
Proof.
  intros [_ Hf] Hx. specialize (Hf x). rewrite Hx in Hf. destruct (s_heap s !! x) as [t|]; [|done].
  simpl in Hf. injection Hf as ? ?. by exists t.
Qed.

#[local] Instance frame_preorder : PreOrder frame.
Proof.
  split; [by intros s|]. intros s1 s2 s3 [N1 H1] [N2 H2]. split; [congruence|].
  intros x. by rewrite H2, H1.
Qed.

(** Split a run of a sequence into the runs of its parts. *)
Ltac steps H :=
  repeat match type of H with
  | mbind _ _ = Done _ => apply bind_Done in H as (? & ? & H)
  | (let '(_, _) := ?p in _) = Done _ => destruct p
  | (if ?b then _ else _) = Done _ => destruct b
  | match ?o with _ => _ end = Done _ => destruct o; try discriminate H
  | Done _ = Done _ => progress simplify_eq
  end.

Lemma frame_update l f s s' :
  update_task l f s = Done s' → (∀ t, identity (f t) = identity t) → frame s s'.
Proof.
  intros H Hf. revert H. unfold update_task, task_at. destruct (s_heap s !! l) as [t|] eqn:Hl; [|done].
  simpl. intros ?; simplify_eq. split; [done|]. intros x. simpl.
  destruct (decide (x = l)) as [->|]; [by rewrite lookup_insert_eq, Hl; simpl; rewrite Hf|].
  by rewrite lookup_insert_ne.
Qed.

Lemma frame_enqueue l s s' : RunQueue_enqueue l s = Done s' → frame s s'.
Proof.
  unfold RunQueue_enqueue. intros H. steps H. etrans; [by eapply frame_update|]. done.
Qed.

Lemma frame_set_current c s s' : set_current c s = Done s' → frame s s'.
Proof. unfold set_current. intros H. steps H. done. Qed.

Lemma frame_take s o s' : take_current s = Done (o, s') → frame s s'.
Proof. unfold take_current. intros H. steps H. simplify_eq. by eapply frame_set_current. Qed.

Lemma frame_pick s o s' : pick_next_task s = Done (o, s') → frame s s'.
Proof.
  unfold pick_next_task. intros H. steps H; simplify_eq; [|done].
  match goal with
  | H1 : update_task _ _ _ = Done ?s1, H2 : set_current _ _ = Done _ |- _ =>
      apply frame_update in H1; [|done]; apply frame_set_current in H2;
      destruct H1, H2; split; naive_solver congruence
  end.
Qed.

Lemma frame_hook n s s' : run_hook n s = Done s' → frame s s'.
Proof. unfold run_hook. intros H. steps H. by destruct (_ && _). Qed.

Lemma frame_context_switch o n s s' : context_switch o n s = Done s' → frame s s'.
Proof.
  unfold context_switch. intros H. steps H. etrans; [by eapply frame_update|]. done.
Qed.

Lemma frame_reschedule s s' : reschedule_current s = Done s' → frame s s'.
Proof.
  unfold reschedule_current. intros H. steps H; simplify_eq;
    eauto using frame_take. etrans; eauto using frame_take, frame_enqueue.
Qed.

Lemma frame_schedule s s' : schedule s = Done s' → frame s s'.
Proof.
  unfold schedule. intros H. steps H; simplify_eq; try done.
  all: etrans; [by eapply frame_reschedule|]; etrans; [by eapply frame_pick|]; try done.
  etrans; [by eapply frame_hook|by eapply frame_context_switch].
Qed.

Lemma frame_block s s' : block_current_and_switch s = Done s' → frame s s'.
Proof.
  unfold block_current_and_switch. intros H. steps H; simplify_eq.
  all: etrans; [by eapply frame_take|]; try done.
  all: etrans; [by eapply frame_update|]; etrans; [by eapply frame_pick|].
  - etrans; [by eapply frame_hook|by eapply frame_context_switch].
  - by eapply frame_set_current.
Qed.

Lemma frame_wake l s s' : wake_task l s = Done s' → frame s s'.
Proof. unfold wake_task. intros H. steps H. by eapply frame_enqueue. Qed.

Lemma frame_for_wake ls s s' : for_each ls wake_task s = Done s' → frame s s'.
Proof.
  revert s. induction ls as [|l ls IH]; intros s H; simpl in H; [by simplify_eq|].
  steps H. etrans; [by eapply frame_wake|by apply IH].
Qed.

Lemma frame_exit_mark status s o s' : exit_mark status s = Done (o, s') → frame s s'.
Proof.
  unfold exit_mark. intros H. steps H; (etrans; [by eapply frame_take|]); [|done].
  by eapply frame_update.
Qed.

Lemma frame_wake_parent l s s' : exit_wake_parent l s = Done s' → frame s s'.
Proof.
  unfold exit_wake_parent. intros H. steps H; try done.
  etrans; [by eapply frame_update|by eapply frame_wake].
Qed.

Lemma frame_push_zombie l s s' : push_zombie l s = Done s' → frame s s'.
Proof. unfold push_zombie. intros H. by steps H. Qed.

Lemma frame_exit_switch l s s' : exit_switch l s = Done s' → frame s s'.
Proof.
  unfold exit_switch. intros H. steps H; (etrans; [by eapply frame_push_zombie|]);
    (etrans; [by eapply frame_pick|]); [|done].
  etrans; [by eapply frame_hook|]. done.
Qed.

Lemma frame_exit status woken s s' : exit_task status woken s = Done s' → frame s s'.
Proof.
  unfold exit_task. intros H. steps H; (etrans; [by eapply frame_exit_mark|]); [|done].
  etrans; [by eapply frame_for_wake|]. etrans; [by eapply frame_wake_parent|by eapply frame_exit_switch].
Qed.

Lemma frame_wait_block s s' : wait_block s = Done s' → frame s s'.
Proof.
  unfold wait_block. intros H. steps H.
  match goal with H : match ?o with _ => _ end = Done _ |- _ => destruct o; simplify_eq end.
  - etrans; [by eapply frame_update|by eapply frame_block].
  - by eapply frame_block.
Qed.

Lemma frame_find_zombie p c s o s' : find_zombie_child p c s = Done (o, s') → frame s s'.
Proof. unfold find_zombie_child. intros H. by steps H. Qed.

Lemma frame_wait_reap tid pid s o s' : wait_reap tid pid s = Done (o, s') → frame s s'.
Proof.
  unfold wait_reap. intros H. steps H; (etrans; [by eapply frame_find_zombie|]); [|done].
  match goal with H : match ?o with _ => _ end = Done _ |- _ => destruct o; simplify_eq end; [|done].
  by eapply frame_update.
Qed.

Lemma do_op_ids op s s' :
  op_ok op s → do_op op s = Done s' → ids_ok (s_heap s) (s_next_id s) →
  0 < s_next_id s < 2 ^ 64 - 1 →
  ids_ok (s_heap s') (s_next_id s') ∧ s_next_id s ≤ s_next_id s' ≤ s_next_id s + 1.
Proof.
  intros [_ Hok] Hdo Hids Hn.
  assert (frame s s' → ids_ok (s_heap s') (s_next_id s') ∧
    s_next_id s ≤ s_next_id s' ≤ s_next_id s + 1) as Hframe.
  { intros Hf. rewrite (proj1 Hf). split; [|lia]. destruct Hids as [Hr Hinj].
    assert (∀ x t', s_heap s' !! x = Some t' → ∃ t, s_heap s !! x = Some t ∧ t_id t = t_id t') as Hb.
    { intros x t' (t & ? & ? & _)%(frame_back s s'); [by exists t|done]. }
    split.
    - intros l t (u & ? & <-)%Hb. eauto.
    - intros l1 l2 t1 t2 (u1 & ? & <-)%Hb (u2 & ? & <-)%Hb. eauto. }
  destruct op as [l mk| | |l| |pid|status woken|c]; simpl in *.
  - clear Hframe. destruct Hok as [Hl Hmk]. unfold spawn_task, enqueue_task in Hdo. simpl in Hdo.
    steps Hdo. apply frame_enqueue in Hdo as Hfr. pose proof Hfr as [HN _]. simpl in *.
    rewrite wrap_small in HN by (split; lia). rewrite HN. split; [|lia].
    destruct Hids as [Hr Hinj].
    assert (∀ x t', s_heap s' !! x = Some t' → (x = l ∧ t_id t' = s_next_id s) ∨
      ∃ t, x ≠ l ∧ s_heap s !! x = Some t ∧ t_id t = t_id t') as Hb.
    { intros y t' (t & Ht & Hid & _)%(frame_back _ _ _ _ Hfr). simpl in Ht. lookup_cases; [left|right].
      - destruct (Hmk (s_next_id s)). split; [done|congruence].
      - by exists t. }
    split.
    + intros y t [[-> ->]|(u & _ & ?%Hr & <-)]%Hb; lia.
    + intros l1 l2 t1 t2 H1 H2 E.
      apply Hb in H1 as [[-> H1]|(u1 & ? & H1 & ?)], H2 as [[-> H2]|(u2 & ? & H2 & ?)]; [done|..].
      * apply Hr in H2. lia.
      * apply Hr in H1. lia.
      * eapply Hinj; [done..|congruence].
  - apply Hframe. by apply frame_schedule.
  - apply Hframe. by apply frame_block.
  - apply Hframe. by eapply frame_wake.
  - apply Hframe. by apply frame_wait_block.
  - steps Hdo. apply Hframe. by eapply frame_wait_reap.
  - apply Hframe. by eapply frame_exit.
  - simplify_eq. by apply Hframe.
Qed.

Lemma nsteps_ids n s s' :
  nsteps sched_step n s s' → ids_ok (s_heap s) (s_next_id s) →
  0 < s_next_id s ∧ s_next_id s + Z.of_nat n < 2 ^ 64 - 1 →
  ids_ok (s_heap s') (s_next_id s').
Proof.
  induction 1 as [|n s1 s2 s3 Hs _ IH]; [done|]. intros Hids Hn. destruct Hs as [op u u' Hok Hdo].
  destruct (do_op_ids op u u') as [? ?]; [done|done|done|lia|]. apply IH; [done|lia].
Qed.

(* ------------------------------------------------------------------ *)
(** ** Zombies *)

Definition zombies (s : sched) : list loc := match s_rq s with Some rq => rq_zombies rq | None => [] end.
Definition dead (h : gmap loc TaskCB) (x : loc) : Prop := ∃ t, h !! x = Some t ∧ t_state t = Zombie.

Lemma dead_insert h l t t' x :
  h !! l = Some t → t_state t ≠ Zombie → t_state t' ≠ Zombie → dead (<[l := t']> h) x ↔ dead h x.
Proof.
  intros Hl Hz Hz'. unfold dead. destruct (decide (x = l)) as [->|].
  - rewrite lookup_insert_eq, Hl. naive_solver.
  - by rewrite lookup_insert_ne.
Qed.

Lemma dead_insert_new h l t x : h !! l = None → t_state t ≠ Zombie → dead (<[l := t]> h) x ↔ dead h x.
Proof.
  intros Hl Hz. unfold dead. destruct (decide (x = l)) as [->|]; [rewrite lookup_insert_eq, Hl; naive_solver|].
  by rewrite lookup_insert_ne.
Qed.

(** Nobody dies and nobody is reaped. *)
Definition quiet (s s' : sched) : Prop := zombies s' = zombies s ∧ ∀ x, dead (s_heap s') x ↔ dead (s_heap s) x.

Lemma block_quiet h q zs ct ni hk ks r l t t1 s' :
  inv_core h q (Some l) zs → h !! l = Some t → t_state t = Running →
  block_current_and_switch (mkSched (<[l := t1]> h) (Some (mkRunQueue q (Some l) zs)) ct ni hk ks r) = Done s' →
  quiet (mkSched h (Some (mkRunQueue q (Some l) zs)) ct ni hk ks r) s'.
Proof.
  intros Hi Hl Hrun. destruct q as [|n q].
  - rewrite (block_alone_eq _ _ _ _ _ _ _ l t1), insert_insert_eq by (by rewrite lookup_insert_eq).
    intros ?; simplify_eq. split; [done|]. intros x. simpl. apply (dead_insert _ _ t); congruence || done.
  - destruct (ic_queue _ _ _ _ Hi n) as (tn & Hn & Hr & _); [by left|]. assert (l ≠ n) by congruence.
    rewrite (block_eq _ _ _ _ _ _ _ _ l t1 n tn), insert_insert_eq;
      [|by rewrite lookup_insert_eq|by rewrite lookup_insert_ne|done].
    intros ?; simplify_eq. split; [done|]. intros x. simpl.
    rewrite (dead_insert _ l (set_state Blocked t1)) by (done || by rewrite lookup_insert_ne, lookup_insert_eq).
    rewrite (dead_insert _ n tn) by (congruence || done || by rewrite lookup_insert_ne).
    apply (dead_insert _ _ t); congruence || done.
Qed.

Lemma schedule_quiet s s' : sched_inv s → is_running s → schedule s = Done s' → quiet s s'.
Proof.
  intros (q & c & zs & Hrq & Hi) Hrun. destruct s as [h rq ct ni hk ks r]; simpl in *; subst.
  unfold is_running in Hrun. simpl in *. destruct c as [l|]; [|done].
  destruct (h !! l) as [t|] eqn:Hl; [|done]. destruct q as [|n q].
  - destruct (decide (t_kstack t = 0)) as [Hk|Hk].
    + unfold schedule. simpl. rewrite (reschedule_boot_eq _ _ _ _ _ _ _ _ l t) by done. simpl.
      intros ?; by simplify_eq.
    + rewrite (schedule_alone_eq _ _ _ _ _ _ _ l t) by done. intros ?; simplify_eq.
      split; [done|]. intros x. simpl. apply (dead_insert _ _ t); congruence || done.
  - destruct (ic_queue _ _ _ _ Hi n) as (tn & Hn & Hr & _); [by left|]. assert (l ≠ n) by congruence.
    destruct (decide (t_kstack t = 0)) as [Hk|Hk].
    + rewrite (schedule_boot_eq _ _ _ _ _ _ _ _ l t n tn) by done. intros ?; simplify_eq.
      split; [done|]. intros x. simpl. rewrite (dead_insert _ l t) by (simpl; congruence || by rewrite lookup_insert_ne).
      apply (dead_insert _ _ tn); congruence || done.
    + rewrite (schedule_eq _ _ _ _ _ _ _ _ l t n tn) by done. intros ?; simplify_eq. split; [done|]. intros x. simpl.
      rewrite (dead_insert _ l (set_state Ready t)) by (done || by rewrite lookup_insert_ne, lookup_insert_eq).
      rewrite (dead_insert _ n tn) by (congruence || done || by rewrite lookup_insert_ne).
      apply (dead_insert _ _ t); congruence || done.
Qed.

(** An exit: the current task dies and is listed last. *)
Lemma exit_zombies status woken s s' :
  sched_inv s → op_ok (OpExit status woken) s → exit_task status woken s = Done s' →
  ∃ l, cur s = Some l ∧ ¬ dead (s_heap s) l ∧ zombies s' = zombies s ++ [l] ∧
    ∀ x, dead (s_heap s') x ↔ dead (s_heap s) x ∨ x = l.
Proof.
  intros (q & c & zs & Hrq & Hi) [Hrun [ND Hw]] Hex. destruct s as [h rq ct ni hk ks r]; simpl in *; subst.
  destruct (exit_prefix h q c zs ct ni hk ks r status woken)
    as (l & t & h' & q' & -> & Hl & Hi' & (t' & Hl' & Hz' & Hnz) & _ & Hsame & Hrd & Hrest); [done..|].
  unfold is_running in Hrun. simpl in Hrun. rewrite Hl in Hrun.
  assert (∀ x, dead h' x ↔ dead h x ∨ x = l) as Hd.
  { intros x. destruct (decide (x = l)) as [->|Hne]; [split; [by right|]; by exists t'|].
    destruct (decide (x ∈ woken)) as [Hin|Hin]; [|unfold dead; rewrite Hsame by done; naive_solver].
    pose proof (proj1 (Forall_forall _ _) Hw x Hin) as Hwk. unfold wakeable in Hwk. simpl in Hwk.
    destruct (h !! x) as [tx|] eqn:Hx; [|done]. destruct Hwk as (Hb & _). split; [|intros [(? & ? & ?)|?]; congruence].
    intros (t2 & Ht2 & Hz2). destruct (Hrd x Hin) as (? & ? & ?). congruence. }
  rewrite Hrest in Hex. exists l. split; [done|]. split; [intros (? & ? & ?); congruence|].
  unfold exit_switch, push_zombie in Hex. simpl in Hex. destruct q' as [|n q'].
  { unfold pick_next_task in Hex. simpl in Hex. by simplify_eq. }
  destruct (ic_queue _ _ _ _ Hi' n) as (tn & Hn & Hr & _); [by left|].
  rewrite (pick_next_eq _ _ _ _ _ _ _ _ _ n tn) in Hex by done. simpl in Hex.
  rewrite (run_hook_eq _ _ _ _ _ _ _ _ _ n (set_state Running tn)) in Hex by (by rewrite lookup_insert_eq).
  simpl in Hex. unfold task_at in Hex. simpl in Hex. rewrite lookup_insert_eq in Hex. simpl in Hex. simplify_eq.
  split; [done|]. intros x. simpl. rewrite (dead_insert _ n tn) by (congruence || done). apply Hd.
Qed.

(** Reaping takes at most one task off the list, the first that matches. *)
Lemma reap_zombies tid pid s o s' :
  sched_inv s → wait_reap tid pid s = Done (o, s') →
  (∀ x, dead (s_heap s') x ↔ dead (s_heap s) x) ∧
  (zombies s' = zombies s ∨ ∃ l1 l l2, zombies s = l1 ++ l :: l2 ∧ zombies s' = l1 ++ l2).
Proof.
  intros (q & c & zs & Hrq & Hi). destruct s as [h rq ct ni hk ks r]; simpl in *; subst.
  unfold wait_reap, find_zombie_child. simpl.
  destruct (remove_first_spec (zombie_matches tid pid) zs
    (mkSched h (Some (mkRunQueue q c zs)) ct ni hk ks r)) as (o' & -> & Hs).
  { intros l (t & ? & _)%(ic_zombie _ _ _ _ Hi). by exists t. }
  destruct o' as [[l zs']|]; simpl; [|intros; simplify_eq; auto].
  destruct Hs as (t & l1 & l2 & Ht & _ & -> & -> & _). simpl in Ht. unfold task_at. simpl. rewrite Ht. simpl.
  assert (zombies (mkSched h (Some (mkRunQueue q c (l1 ++ l :: l2))) ct ni hk ks r) = l1 ++ l :: l2) as Hzs by done.
  destruct c as [lc|]; simpl; [|intros; simplify_eq; split; [done|right; by eexists _, _, _]].
  destruct (ic_cur _ _ _ _ Hi lc eq_refl) as (tc & Hc & Hst). unfold update_task, task_at. simpl. rewrite Hc. simpl.
  intros ?; simplify_eq. split; [|right; by eexists _, _, _]. intros x. simpl.
  apply (dead_insert _ _ tc); [done|simpl; intuition congruence..].
Qed.

(** What was reaped by an operation. *)
Definition reaped (op : sched_op) (s s' : sched) : list loc :=
  match op with OpReap _ => filter (λ l, l ∉ zombies s') (zombies s) | _ => [] end.

(** Executions from [s0], with the tasks that were reaped on the way. *)
Inductive sched_exec (s0 : sched) : list loc → sched → Prop :=
  | sched_exec_start : sched_exec s0 [] s0
  | sched_exec_op R op s s' :
      sched_exec s0 R s → op_ok op s → do_op op s = Done s' → sched_exec s0 (reaped op s s' ++ R) s'.

(** The whole invariant.  [b] is the boot placeholder, the only task without a kernel
    stack; the tasks that have exited are those listed and those reaped, each once. *)
Record sched_ok (b : loc) (R : list loc) (s : sched) : Prop := {
  so_inv : sched_inv s;
  so_boot : ∀ x t, s_heap s !! x = Some t → t_kstack t = 0 ↔ x = b;
  so_known : is_Some (s_heap s !! b);
  so_dead : ∀ x, dead (s_heap s) x ↔ x ∈ zombies s ++ R;
  so_once : NoDup (zombies s ++ R);
}.

Lemma zombies_nodup s : sched_inv s → NoDup (zombies s).
Proof. intros (q & c & zs & Hrq & Hi). unfold zombies. rewrite Hrq. exact (ic_nodupz _ _ _ _ Hi). Qed.

(** Tasks other than [b] keep their kernel stacks. *)
Lemma do_op_boot b op s s' :
  op_ok op s → do_op op s = Done s' → is_Some (s_heap s !! b) →
  (∀ x t, s_heap s !! x = Some t → t_kstack t = 0 ↔ x = b) →
  is_Some (s_heap s' !! b) ∧ ∀ x t, s_heap s' !! x = Some t → t_kstack t = 0 ↔ x = b.
Proof.
  intros [_ Hok] Hdo Hb Hk.
  assert (∀ u, frame u s' → is_Some (s_heap u !! b) → (∀ x t, s_heap u !! x = Some t → t_kstack t = 0 ↔ x = b) →
    is_Some (s_heap s' !! b) ∧ ∀ x t, s_heap s' !! x = Some t → t_kstack t = 0 ↔ x = b) as Hf.
  { intros u Hf [t Ht] Hu. split.
    - destruct Hf as [_ Hf]. specialize (Hf b). rewrite Ht in Hf. destruct (s_heap s' !! b); [by eexists|done].
    - intros x t' (t1 & ? & _ & <-)%(frame_back _ _ _ _ Hf). by apply Hu. }
  destruct op as [l mk| | |l| |pid|status woken|c]; simpl in *.
  - destruct Hok as [Hl Hmk]. unfold spawn_task, enqueue_task in Hdo. simpl in Hdo. steps Hdo.
    apply frame_enqueue in Hdo. apply (Hf _ Hdo); simpl.
    + destruct Hb as [t Ht]. rewrite lookup_insert_ne by congruence. by eexists.
    + intros y t ?; lookup_cases; [|by apply Hk]. destruct (Hmk (s_next_id s)) as (_ & ? & _). destruct Hb as [tb Hb].
      split; [done|congruence].
  - apply (Hf s); [by apply frame_schedule|done..].
  - apply (Hf s); [by apply frame_block|done..].
  - apply (Hf s); [by eapply frame_wake|done..].
  - apply (Hf s); [by apply frame_wait_block|done..].
  - steps Hdo. apply (Hf s); [by eapply frame_wait_reap|done..].
  - apply (Hf s); [by eapply frame_exit|done..].
  - by simplify_eq.
Qed.

Lemma sched_ok_boot b c s0 : seed_boot b (init (sched_boot c)) = Done s0 → sched_ok b [] s0.
Proof.
  intros H0. destruct (sched_inv_boot b c) as (s1 & H1 & Hi). assert (s1 = s0) as -> by congruence.
  unfold seed_boot, set_current in H0. simpl in H0. injection H0 as <-. split; [done|..]; simpl.
  - intros x t ?; lookup_cases; [done|]. by rewrite lookup_empty in *.
  - rewrite lookup_insert_eq. by eexists.
  - intros x. unfold zombies. simpl. split; [|by intros Hx%not_elem_of_nil]. intros (t & ? & ?).
    lookup_cases; [done|]. by rewrite lookup_empty in *.
  - apply NoDup_nil_2.
Qed.

(** Who is dead and who is listed, operation by operation. *)
Lemma do_op_zombies op s s' :
  sched_inv s → op_ok op s → do_op op s = Done s' →
  match op with
  | OpExit _ _ => ∃ l, cur s = Some l ∧ ¬ dead (s_heap s) l ∧ zombies s' = zombies s ++ [l] ∧
      ∀ x, dead (s_heap s') x ↔ dead (s_heap s) x ∨ x = l
  | OpReap _ => (∀ x, dead (s_heap s') x ↔ dead (s_heap s) x) ∧
      (zombies s' = zombies s ∨ ∃ l1 l l2, zombies s = l1 ++ l :: l2 ∧ zombies s' = l1 ++ l2)
  | _ => quiet s s'
  end.
Proof.
  intros Hinv Hok. pose proof Hok as [Hrun Hx].
  destruct op as [l mk| | |l| |pid|status woken|c]; simpl in *.
  - destruct Hx as [Hl _]. destruct Hinv as (q & c & zs & Hrq & Hi). destruct s as [h rq ct ni hk ks r]; simpl in *; subst.
    unfold spawn_task, enqueue_task. simpl. rewrite (enqueue_eq _ _ _ _ _ _ _ _ _ l (mk ni)) by (by rewrite lookup_insert_eq).
    rewrite insert_insert_eq. intros ?; simplify_eq. split; [done|]. intros x. by apply dead_insert_new.
  - by apply schedule_quiet.
  - destruct Hinv as (q & c & zs & Hrq & Hi). destruct s as [h rq ct ni hk ks r]; simpl in *; subst.
    unfold is_running in Hrun. simpl in Hrun. destruct c as [l|]; [|done].
    destruct (h !! l) as [t|] eqn:Hl; [|done]. intros Hb. eapply (block_quiet _ _ _ _ _ _ _ _ l t t); try done. by rewrite insert_id.
  - destruct Hinv as (q & c & zs & Hrq & Hi). destruct s as [h rq ct ni hk ks r]; simpl in *; subst.
    unfold wakeable in Hx. simpl in Hx. destruct (h !! l) as [t|] eqn:Hl; [|done]. destruct Hx as (Hb & _).
    rewrite (wake_eq _ _ _ _ _ _ _ _ _ l t) by done. intros ?; simplify_eq. split; [done|]. intros x.
    apply (dead_insert _ _ t); congruence || done.
  - destruct Hinv as (q & c & zs & Hrq & Hi). destruct s as [h rq ct ni hk ks r]; simpl in *; subst.
    unfold is_running in Hrun. simpl in Hrun. destruct c as [l|]; [|done]. destruct (h !! l) as [t|] eqn:Hl; [|done].
    unfold wait_block, update_task, task_at. simpl. rewrite Hl. simpl. by eapply (block_quiet _ _ _ _ _ _ _ _ l t (set_waiting true t)).
  - intros Hd. apply bind_Done in Hd as ([o u] & Hr & ?); simplify_eq. by eapply reap_zombies.
  - by apply exit_zombies.
  - intros ?; by simplify_eq.
Qed.

Lemma do_op_ok b R op s s' :
  sched_ok b R s → op_ok op s → do_op op s = Done s' → sched_ok b (reaped op s s' ++ R) s'.
Proof.
  intros [Hinv Hb Hk Hd Ho] Hok Hdo. destruct (do_op_boot b op s s' Hok Hdo Hk Hb) as [Hk' Hb'].
  assert (sched_inv s') as Hinv' by (destruct (do_op_inv op s Hinv Hok) as (? & ? & ?); congruence).
  pose proof (do_op_zombies op s s' Hinv Hok Hdo) as Hz.
  assert (quiet s s' → (∀ x, dead (s_heap s') x ↔ x ∈ zombies s' ++ R) ∧ NoDup (zombies s' ++ R)) as Hquiet.
  { intros [-> Hq]. split; [|done]. intros x. by rewrite Hq. }
  destruct op as [l mk| | |l| |pid|status woken|c]; simpl in Hz; try (destruct (Hquiet Hz); by split).
  - destruct Hz as [Hq Hz].
    assert (zombies s ≡ₚ zombies s' ++ reaped (OpReap pid) s s') as Hp.
    { simpl. destruct Hz as [->|(l1 & l & l2 & Es & ->)].
      - replace (filter _ _) with (@nil loc); [by rewrite app_nil_r|].
        symmetry. apply filter_none. intros x Hx Hn. by apply Hn.
      - rewrite Es. pose proof (zombies_nodup s Hinv) as Hnd. rewrite Es in Hnd.
        rewrite filter_app, filter_cons.
        apply NoDup_app in Hnd as (_ & Hl1 & [Hl2 _]%NoDup_cons).
        rewrite decide_True by (intros [Hx|Hx]%elem_of_app; [by apply (Hl1 l Hx); left|done]).
        rewrite !(filter_none (λ x, x ∉ l1 ++ l2)) by (intros; set_solver).
        simpl. rewrite <-Permutation_middle. apply Permutation_cons_append. }
    split; try done.
    + intros x. rewrite Hq, Hd, (assoc_L (++)). by rewrite <-Hp.
    + rewrite (assoc_L (++)). by rewrite <-Hp.
  - destruct Hz as (l & _ & Hnd & Ez & Hq). split; try done; simpl; rewrite Ez.
    + intros x. rewrite Hq, Hd. set_solver.
    + rewrite <-(assoc_L (++)). simpl. rewrite <-Permutation_middle. apply NoDup_cons. split; [by rewrite <-Hd|done].
Qed.

Lemma sched_exec_ok b R s0 s : sched_exec s0 R s → sched_ok b [] s0 → sched_ok b R s.
Proof. induction 1 as [|R op s s' _ IH Hok Hdo]; [done|]. intros H0. apply do_op_ok; auto. Qed.

(* ------------------------------------------------------------------ *)
(** ** Tasks that never run again *)

Section parked.
(** Tasks that can neither be in the queue nor be woken. *)
Context (Q : TaskCB → Prop).
Context (not_queued : ∀ t, Q t → t_kstack t ≠ 0 → t_waiting_for_child t = false → False).

(** [p] is such a task and off the CPU. *)
Definition parked (p : loc) (s : sched) : Prop := cur s ≠ Some p ∧ ∃ t, s_heap s !! p = Some t ∧ Q t.

Lemma parked_intro p h rq ct ni hk ks r t :
  rq_current rq ≠ Some p → h !! p = Some t → Q t → parked p (mkSched h (Some rq) ct ni hk ks r).
Proof. intros. split; [done|]. by exists t. Qed.

Lemma parked_not_queued p h q c zs n t :
  inv_core h q c zs → h !! p = Some t → Q t → n ∈ q → n ≠ p.
Proof.
  intros Hi Hp HQ Hn ->. destruct (ic_queue _ _ _ _ Hi p Hn) as (tn & ? & _ & ? & ?). simplify_eq. by eapply not_queued.
Qed.

Lemma parked_block p s h q zs ct ni hk ks r l t1 s' :
  s = mkSched h (Some (mkRunQueue q (Some l) zs)) ct ni hk ks r →
  inv_core h q (Some l) zs → parked p s →
  block_current_and_switch
    (mkSched (<[l := t1]> h) (Some (mkRunQueue q (Some l) zs)) ct ni hk ks r) = Done s' →
  parked p s'.
Proof.
  intros -> Hi (Hc & t & Hp & HQ). unfold cur in Hc. simpl in *.
  assert (l ≠ p) by congruence. destruct (ic_cur _ _ _ _ Hi l eq_refl) as (tl & Hl & Hst).
  destruct q as [|n q].
  - rewrite (block_alone_eq _ _ _ _ _ _ _ l t1) by (by rewrite lookup_insert_eq).
    intros ?; simplify_eq. apply (parked_intro _ _ _ _ _ _ _ _ t); try done.
    by rewrite !lookup_insert_ne by done.
  - destruct (ic_queue _ _ _ _ Hi n) as (tn & Hn & Hr & _); [by left|].
    assert (l ≠ n) by (intros ->; simplify_eq; intuition congruence).
    assert (n ≠ p) by (eapply parked_not_queued; [done..|by left]).
    rewrite (block_eq _ _ _ _ _ _ _ _ l t1 n tn); 
      [|by rewrite lookup_insert_eq|by rewrite lookup_insert_ne|done].
    intros ?; simplify_eq. apply (parked_intro _ _ _ _ _ _ _ _ t); try done; simpl; [congruence|].
    by rewrite !lookup_insert_ne by done.
Qed.

Lemma parked_schedule p s s' :
  sched_inv s → is_running s → parked p s → schedule s = Done s' → parked p s'.
Proof.
  intros (q & c & zs & Hrq & Hi) Hrun (Hc & t & Hp & HQ).
  destruct s as [h rq ct ni hk ks r]; unfold cur, is_running in *; simpl in *; subst. simpl in *.
  destruct c as [l|]; [|done]. destruct (h !! l) as [tl|] eqn:Hl; [|done].
  assert (l ≠ p) by congruence. destruct q as [|n q].
  - destruct (decide (t_kstack tl = 0)) as [Hk|Hk].
    + unfold schedule. simpl. rewrite (reschedule_boot_eq _ _ _ _ _ _ _ _ l tl) by done. simpl.
      intros ?; simplify_eq. by apply (parked_intro _ _ _ _ _ _ _ _ t).
    + rewrite (schedule_alone_eq _ _ _ _ _ _ _ l tl) by done. intros ?; simplify_eq.
      apply (parked_intro _ _ _ _ _ _ _ _ t); try done. by rewrite lookup_insert_ne.
  - destruct (ic_queue _ _ _ _ Hi n) as (tn & Hn & Hr & _); [by left|].
    assert (l ≠ n) by congruence. assert (n ≠ p) by (eapply parked_not_queued; [done..|by left]).
    destruct (decide (t_kstack tl = 0)) as [Hk|Hk].
    + rewrite (schedule_boot_eq _ _ _ _ _ _ _ _ l tl n tn) by done. intros ?; simplify_eq.
      apply (parked_intro _ _ _ _ _ _ _ _ t); try done; simpl; [congruence|].
      by rewrite !lookup_insert_ne by done.
    + rewrite (schedule_eq _ _ _ _ _ _ _ _ l tl n tn) by done. intros ?; simplify_eq.
      apply (parked_intro _ _ _ _ _ _ _ _ t); try done; simpl; [congruence|].
      by rewrite !lookup_insert_ne by done.
Qed.

Lemma parked_exit p status woken s s' :
  sched_inv s → op_ok (OpExit status woken) s → parked p s → exit_task status woken s = Done s' →
  parked p s'.
Proof.
  intros (q & c & zs & Hrq & Hi) [Hrun [ND Hwk]] (Hc & t & Hp & HQ).
  destruct s as [h rq ct ni hk ks r]; unfold cur in *; simpl in *; subst. simpl in *.
  destruct (exit_prefix h q c zs ct ni hk ks r status woken)
    as (l & tl & h' & q' & -> & Hl & Hi' & (t' & Hl' & Hz & _) & _ & Hsame & _ & ->); [done..|].
  assert (p ∉ woken) as Hpw.
  { intros Hin. pose proof (proj1 (Forall_forall _ _) Hwk p Hin) as Hx. unfold wakeable in Hx.
    simpl in Hx. rewrite Hp in Hx. destruct Hx as (_ & ? & ? & _). by eapply not_queued. }
  assert (h' !! p = Some t) as Hp' by (rewrite Hsame by congruence; done).
  unfold exit_switch, push_zombie. simpl. destruct q' as [|n q'].
  { unfold pick_next_task. simpl. intros ?; simplify_eq. by apply (parked_intro _ _ _ _ _ _ _ _ t). }
  destruct (ic_queue _ _ _ _ Hi' n) as (tn & Hn & Hr & _); [by left|].
  assert (n ≠ p) by (eapply parked_not_queued; [done..|by left]).
  rewrite (pick_next_eq _ _ _ _ _ _ _ _ _ n tn) by done. simpl.
  rewrite (run_hook_eq _ _ _ _ _ _ _ _ _ n (set_state Running tn)) by (by rewrite lookup_insert_eq).
  simpl. unfold task_at. simpl. rewrite lookup_insert_eq. simpl. intros ?; simplify_eq.
  apply (parked_intro _ _ _ _ _ _ _ _ t); try done; simpl; [congruence|].
  rewrite lookup_insert_ne by congruence. done.
Qed.

Lemma parked_reap p tid pid s o s' :
  sched_inv s → parked p s → wait_reap tid pid s = Done (o, s') → parked p s'.
Proof.
  intros (q & c & zs & Hrq & Hi) (Hc & t & Hp & HQ).
  destruct s as [h rq ct ni hk ks r]; unfold cur in *; simpl in *; subst. simpl in *.
  unfold wait_reap, find_zombie_child. simpl.
  destruct (remove_first _ _ _) as [[[l zs']|]|]; simpl;
    [|by intros; simplify_eq; apply (parked_intro _ _ _ _ _ _ _ _ t)|done].
  unfold task_at. simpl. destruct (h !! l) as [tz|]; [|done]. simpl.
  destruct c as [lc|]; simpl; [|by intros; simplify_eq; apply (parked_intro _ _ _ _ _ _ _ _ t)].
  destruct (ic_cur _ _ _ _ Hi lc eq_refl) as (tc & Hlc & _). unfold update_task, task_at. simpl.
  rewrite Hlc. simpl. intros ?; simplify_eq. apply (parked_intro _ _ _ _ _ _ _ _ t); try done.
  rewrite lookup_insert_ne by congruence. done.
Qed.

Lemma parked_step p s s' : sched_inv s → parked p s → sched_step s s' → parked p s'.
Proof.
  intros Hinv Hst Hs. destruct Hs as [op u u' [Hrun Hok] Hdo].
  destruct op as [l mk| | |l| |pid|status woken|c]; simpl in *.
  - destruct Hst as (Hc & t & Hp & HQ). destruct Hok as [Hl _].
    destruct Hinv as (q & c & zs & Hrq & Hi).
    destruct u as [h rq ct ni hk ks r]; unfold cur in *; simpl in *; subst. simpl in *.
    unfold spawn_task, enqueue_task in Hdo. simpl in Hdo.
    rewrite (enqueue_eq _ _ _ _ _ _ _ _ _ l (mk ni)) in Hdo by (by rewrite lookup_insert_eq).
    simplify_eq. apply (parked_intro _ _ _ _ _ _ _ _ t); try done.
    rewrite !lookup_insert_ne by congruence. done.
  - by eapply parked_schedule.
  - destruct Hinv as (q & c & zs & Hrq & Hi). destruct u as [h rq ct ni hk ks r]; simpl in *; subst.
    unfold is_running in Hrun. simpl in Hrun. destruct c as [l|]; [|done].
    destruct (h !! l) as [t|] eqn:Hl; [|done].
    eapply (parked_block p _ h q zs ct ni hk ks r l t); try done. by rewrite insert_id.
  - destruct Hst as (Hc & t & Hp & HQ). destruct Hinv as (q & c & zs & Hrq & Hi).
    destruct u as [h rq ct ni hk ks r]; unfold cur, wakeable in *; simpl in *; subst. simpl in *.
    destruct (h !! l) as [tl|] eqn:Hl; [|done]. destruct Hok as (? & Hwl & Hkl & _).
    assert (l ≠ p) by (intros ->; simplify_eq; by eapply not_queued).
    rewrite (wake_eq _ _ _ _ _ _ _ _ _ l tl) in Hdo by done. simplify_eq.
    apply (parked_intro _ _ _ _ _ _ _ _ t); try done. rewrite lookup_insert_ne by congruence. done.
  - destruct Hinv as (q & c & zs & Hrq & Hi). destruct u as [h rq ct ni hk ks r]; simpl in *; subst.
    unfold is_running in Hrun. simpl in Hrun. destruct c as [l|]; [|done].
    destruct (h !! l) as [t|] eqn:Hl; [|done].
    unfold wait_block, update_task, task_at in Hdo. simpl in Hdo. rewrite Hl in Hdo. simpl in Hdo.
    by eapply (parked_block p _ h q zs ct ni hk ks r l (set_waiting true t)).
  - steps Hdo. by eapply parked_reap.
  - by eapply parked_exit.
  - by simplify_eq.
Qed.
End parked.

(** [stuck p s]: [p] is off the CPU, blocked, with [waiting_for_child] set. *)
Definition stuck : loc → sched → Prop := parked (λ t, t_state t = Blocked ∧ t_waiting_for_child t = true).

Lemma stuck_step p s s' : sched_inv s → stuck p s → sched_step s s' → stuck p s'.
Proof. apply parked_step. naive_solver congruence. Qed.

(* ------------------------------------------------------------------ *)
(** ** A concrete execution: two tasks at locations 1 and 2 *)

Fixpoint run_ops (ops : list sched_op) (s : sched) : outcome sched :=
  match ops with
  | [] => Done s
  | op :: ops => s ← do_op op s; run_ops ops s
  end.

Fixpoint ops_ok (ops : list sched_op) (s : sched) : Prop :=
  match ops with
  | [] => True
  | op :: ops => op_ok op s ∧ match do_op op s with Done s => ops_ok ops s | Panic => False end
  end.

Lemma run_ops_nsteps ops s s' :
  ops_ok ops s → run_ops ops s = Done s' → nsteps sched_step (length ops) s s'.
Proof.
  revert s. induction ops as [|op ops IH]; intros s; simpl; [intros; simplify_eq; constructor|].
  intros [Hok Hs] Hr. destruct (do_op op s) as [s1|] eqn:E; [|done].
  econstructor; [by econstructor|]. by apply IH.
Qed.

Lemma run_ops_rtc ops s s' : ops_ok ops s → run_ops ops s = Done s' → rtc sched_step s s'.
Proof. intros. eapply rtc_nsteps_2. by eapply run_ops_nsteps. Qed.

(** An execution without reaping. *)
Lemma run_ops_exec s0 ops R s s' :
  sched_exec s0 R s → ops_ok ops s → forallb (λ op, match op with OpReap _ => false | _ => true end) ops = true →
  run_ops ops s = Done s' → sched_exec s0 R s'.
Proof.
  revert s. induction ops as [|op ops IH]; intros s He; simpl; [intros; by simplify_eq|].
  intros [Hok Hs] [Hn Ha]%andb_true_iff Hr. destruct (do_op op s) as [s1|] eqn:E; [|done].
  apply (IH s1); try done. replace R with (reaped op s s1 ++ R) by (by destruct op). by econstructor.
Qed.

Definition demo_cpu (n : Z) : cpu := mkCpu n n n n n n n n 4096.
Definition demo_tcb (parent id : Z) : TaskCB :=
  mkTaskCB id Ready SchedClass_default (save_context (demo_cpu id) CPUContext_default)
    8192 None "demo" parent None None [] false.
Definition demo_boot : sched :=
  mkSched {[ 0%nat := mkTaskCB 1 Running SchedClass_default CPUContext_default 0 None "kernel_main"
                        0 None None [] false ]}
    (Some (mkRunQueue [] (Some 0%nat) [])) 0 2 false 0 (demo_cpu 5).
(** The boot task starts tasks 1 (id 2) and 2 (id 3, child of the first), and
    a time slice ends. *)
Definition demo_ops : list sched_op :=
  [OpSpawn 1 (demo_tcb 0); OpSpawn 2 (demo_tcb 2); OpTick].
Definition demo (ops : list sched_op) : sched :=
  match run_ops (demo_ops ++ ops) demo_boot with Done s => s | Panic => demo_boot end.

(** Discharge [ops_ok] on a concrete state. *)
Ltac demo_ok := vm_compute; repeat split; try done; repeat constructor.

Lemma demo_seed : seed_boot 0 (init (sched_boot (demo_cpu 5))) = Done demo_boot.
Proof. vm_compute. reflexivity. Qed.

Lemma demo_inv ops s :
  ops_ok (demo_ops ++ ops) demo_boot → run_ops (demo_ops ++ ops) demo_boot = Done s → sched_inv s.
Proof.
  intros Hok Hr. apply (reachable_inv demo_boot s); [by eapply run_ops_rtc|].
  destruct (sched_inv_boot 0 (demo_cpu 5)) as (s0 & H0 & ?). rewrite demo_seed in H0. by simplify_eq.
Qed.

(* ------------------------------------------------------------------ *)
(** ** Properties *)

(** C1: the run-queue invariant.  From the state [main] sets up (run queue
    initialised, boot placeholder [b] current), whatever tasks are spawned,
    preempted, blocked, woken, waited for, reaped or exit, in any order, no operation
    the scheduler can be asked for panics, and in every state reached: the tasks
    that are ready are exactly those in the queue, each there once; the current
    task is running or blocked, and no other task is running, except [b], which
    keeps that state when the first switch leaves it; [b] is the only task without
    a kernel stack and never in the queue; the tasks that have exited are
    exactly those in the zombie list and those that were reaped from it ([R]),
    none of them twice. *)
Theorem sched_reachable_safe (b : loc) (c : cpu) (s0 s : sched) (R : list loc) :
  seed_boot b (init (sched_boot c)) = Done s0 → sched_exec s0 R s →
  sched_ok b R s ∧ ∀ op, op_ok op s → ∃ s', do_op op s = Done s' ∧ sched_ok b (reaped op s s' ++ R) s'.
Proof.
  intros H0 Hr. assert (sched_ok b R s) as Hs by (eapply sched_exec_ok; [exact Hr|by eapply sched_ok_boot]).
  split; [done|]. intros op Hok. destruct (do_op_inv op s (so_inv _ _ _ Hs) Hok) as (s' & Hdo & _).
  exists s'. split; [done|]. by apply do_op_ok.
Qed.

(** The first task waits, the second exits, and its zombie is listed. *)
Lemma sched_reachable_safe_witness :
  sched_ok 0 [] (demo [OpWait; OpExit 7 []]) ∧ zombies (demo [OpWait; OpExit 7 []]) = [2%nat] ∧
  ∀ op, op_ok op (demo [OpWait; OpExit 7 []]) →
    ∃ s', do_op op (demo [OpWait; OpExit 7 []]) = Done s' ∧ sched_ok 0 (reaped op (demo [OpWait; OpExit 7 []]) s' ++ []) s'.
Proof.
  destruct (sched_reachable_safe 0 (demo_cpu 5) demo_boot (demo [OpWait; OpExit 7 []]) []) as [Hok Hop].
  - vm_compute. reflexivity.
  - apply (run_ops_exec _ (demo_ops ++ [OpWait; OpExit 7 []]) [] demo_boot);
      [constructor|demo_ok|reflexivity|vm_compute; reflexivity].
  - split; [exact Hok|]. split; [vm_compute; reflexivity|exact Hop].
Defined.

(** Preemption is round robin.  With a task running and [n - 1] tasks
    queued behind it, [k <= n] time slices rotate the ring of the [n] tasks by
    [k]: the task at position [k] runs next, and after [n] slices every task
    has run once and the first one runs again. *)
Theorem round_robin (s : sched) (k : nat) :
  run_ok s → (k ≤ length (ring_of s))%nat →
  ∃ s', ticks k s = Done s' ∧ run_ok s' ∧ ring_of s' = drop k (ring_of s) ++ take k (ring_of s).
Proof. intros. by apply ticks_rotate. Qed.

Lemma round_robin_witness :
  ∃ s', ticks 1 (demo []) = Done s' ∧ run_ok s' ∧
    ring_of s' = drop 1 (ring_of (demo [])) ++ take 1 (ring_of (demo [])).
Proof.
  apply (round_robin (demo []) 1); [|vm_compute; lia]. split_and!.
  - apply (demo_inv []); [demo_ok|vm_compute; reflexivity].
  - vm_compute. reflexivity.
  - intros l t. vm_compute ring_of. intros [->|[->|[]%elem_of_nil]%elem_of_cons]%elem_of_cons;
      vm_compute; intros [= <-]; done.
Defined.

(** C30: a task resumes exactly where it was.  If [a], a task with a kernel
    stack, is switched out alive by an operation, then any number of steps run
    while other tasks hold the CPU (computing, blocking, spawning, exiting),
    then a step makes [a] current again: the registers are those [a] had. *)
Theorem switch_resumes (s0 s1 s2 s3 : sched) (a : loc) :
  sched_inv s0 → cur s0 = Some a → c_cr3 (s_cpu s0) ≠ 0 →
  sched_step s0 s1 → cur s1 ≠ Some a →
  (∀ t, s_heap s1 !! a = Some t → t_state t ≠ Zombie ∧ t_kstack t ≠ 0) →
  rtc (λ s s', sched_step s s' ∧ cur s' ≠ Some a) s1 s2 →
  sched_step s2 s3 → cur s3 = Some a →
  s_cpu s3 = s_cpu s0.
Proof.
  intros Hinv Ha Hcr3 Hs Hout Hal Hr Hin Ha3.
  assert (sched_inv s1) by (by apply (step_inv s0 s1)).
  apply (resume_ctx s2 s3 a (s_cpu s0)); try done.
  - apply (reachable_inv s1 s2); [|done]. eapply rtc_subrel; [|exact Hr]. by intros ?? [].
  - apply (away_ctx s1 s2); [done..|]. by apply switch_out_ctx.
  - by apply (away_cur s1 s2).
Qed.

Lemma switch_resumes_witness :
  cur (demo []) = Some 1%nat ∧ cur (demo [OpTick]) = Some 2%nat ∧
  s_cpu (demo [OpTick; OpCompute (demo_cpu 77); OpTick]) = s_cpu (demo []).
Proof.
  split; [vm_compute; reflexivity|]. split; [vm_compute; reflexivity|].
  apply (switch_resumes (demo []) (demo [OpTick]) (demo [OpTick; OpCompute (demo_cpu 77)]) _ 1).
  - apply (demo_inv []); [demo_ok|vm_compute; reflexivity].
  - vm_compute; reflexivity.
  - vm_compute; done.
  - apply (step_op OpTick); [demo_ok|vm_compute; reflexivity].
  - vm_compute; done.
  - intros t. vm_compute. intros [= <-]; done.
  - apply rtc_once. split; [|vm_compute; done].
    apply (step_op (OpCompute (demo_cpu 77))); [demo_ok|vm_compute; reflexivity].
  - apply (step_op OpTick); [demo_ok|vm_compute; reflexivity].
  - vm_compute; reflexivity.
Defined.

(** Task ids are unique.  In any execution of fewer than [2 ^ 64 - 3]
    steps, no two tasks on the heap have the same id and none has id 0, the
    value [CURRENT_TASK] uses for "no task". *)
Theorem task_ids_unique (l : loc) (c : cpu) (s0 s : sched) (n : nat) :
  seed_boot l (init (sched_boot c)) = Done s0 → nsteps sched_step n s0 s →
  Z.of_nat n < 2 ^ 64 - 3 → ids_ok (s_heap s) (s_next_id s).
Proof.
  intros H0 Hn Hlt. unfold seed_boot, set_current in H0. simpl in H0. change (1 ⊞ 1) with 2 in H0.
  apply (nsteps_ids n s0 s); [done| |]; simplify_eq; simpl; [|lia].
  split.
  - intros; lookup_cases; [simpl; lia|done].
  - intros; lookup_cases; done.
Qed.

Lemma task_ids_unique_witness : ids_ok (s_heap (demo [OpTick])) (s_next_id (demo [OpTick])).
Proof.
  apply (task_ids_unique 0 (demo_cpu 5) demo_boot _ 4); [vm_compute; reflexivity| |lia].
  apply (run_ops_nsteps (demo_ops ++ [OpTick])); [demo_ok|vm_compute; reflexivity].
Defined.

(** C40: a parent blocked in SYS_WAIT is never woken.  Once a task is off the
    CPU with [waiting_for_child] set, it stays blocked whatever its children
    or any other task do, the exit of its children included: SYS_EXIT looks
    the parent up among the current and the queued tasks only. *)
Theorem wait_parent_never_woken (p : loc) (s s' : sched) :
  sched_inv s → stuck p s → rtc sched_step s s' → stuck p s'.
Proof.
  intros Hi Hst Hr. induction Hr as [|s1 s2 s3 ? _ IH]; [done|].
  apply IH; [by eapply step_inv|by eapply stuck_step].
Qed.

(** Task 1 waits; its child (task 2) exits: task 1 stays blocked. *)
Lemma wait_parent_never_woken_witness :
  stuck 1 (demo [OpWait]) ∧ stuck 1 (demo [OpWait; OpExit 7 []]).
Proof.
  assert (stuck 1 (demo [OpWait])) as Hst.
  { split; [vm_compute; done|]. eexists. split; [vm_compute; reflexivity|]. done. }
  split; [exact Hst|].
  apply (wait_parent_never_woken 1 (demo [OpWait])); [|exact Hst|].
  - apply (demo_inv [OpWait]); [demo_ok|vm_compute; reflexivity].
  - apply (run_ops_rtc [OpExit 7 []]); [demo_ok|vm_compute; reflexivity].
Defined.

(** Reaping.  SYS_WAIT on a reachable state returns the id and the exit
    status of the first zombie whose parent is the caller and whose id is the
    one asked for ([-1] asks for any), removes exactly that zombie, and
    returns nothing exactly when no zombie matches. *)
Theorem wait_reap_first (tid pid : Z) (s : sched) (q zs : list loc) (c : option loc) :
  sched_inv s → s_rq s = Some (mkRunQueue q c zs) →
  ∃ o s', wait_reap tid pid s = Done (o, s') ∧
    match o with
    | Some (child, status) => ∃ l1 l l2 t, zs = l1 ++ l :: l2 ∧
        s_rq s' = Some (mkRunQueue q c (l1 ++ l2)) ∧ s_heap s !! l = Some t ∧
        t_parent_id t = tid ∧ (pid = -1 ∨ t_id t = wrap 64 pid) ∧
        child = t_id t ∧ status = default 0 (t_exit_status t)
    | None => s' = s ∧ ∀ l t, l ∈ zs → s_heap s !! l = Some t → zombie_matches tid pid t = false
    end.
Proof.
  intros (q' & c' & zs' & Hrq & Hi) Hrq'. rewrite Hrq in Hrq'. simplify_eq.
  destruct s as [h rq ct ni hk ks r]; simpl in *; subst.
  unfold wait_reap, find_zombie_child. simpl.
  destruct (remove_first_spec (zombie_matches tid pid) zs
    (mkSched h (Some (mkRunQueue q c zs)) ct ni hk ks r)) as (o & -> & Hs).
  { intros l (t & ? & _)%(ic_zombie _ _ _ _ Hi). by exists t. }
  simpl. destruct o as [[l zs1]|]; simpl; [|by eexists _, _].
  destruct Hs as (t & l1 & l2 & Ht & Hm & -> & -> & _). simpl in Ht.
  unfold task_at. simpl. rewrite Ht. simpl.
  unfold zombie_matches in Hm. apply andb_true_iff in Hm as [Hp%Z.eqb_eq Hpid].
  assert (pid = -1 ∨ t_id t = wrap 64 pid) by (apply orb_true_iff in Hpid; rewrite !Z.eqb_eq in Hpid; done).
  destruct c as [lc|]; simpl.
  - destruct (ic_cur _ _ _ _ Hi lc eq_refl) as (tc & Hc & _). unfold update_task, task_at. simpl.
    rewrite Hc. simpl. eexists _, _. split; [done|]. by exists l1, l, l2, t.
  - eexists _, _. split; [done|]. by exists l1, l, l2, t.
Qed.

(** Task 2 runs, task 1 (id 2, parent 0) has exited: a wait by its parent. *)
Lemma wait_reap_first_witness :
  fst <$> wait_reap 0 2 (demo [OpExit 7 []]) = Done (Some (2, 7)) ∧
  ∃ o s', wait_reap 0 2 (demo [OpExit 7 []]) = Done (o, s').
Proof.
  split; [vm_compute; reflexivity|].
  destruct (wait_reap_first 0 2 (demo [OpExit 7 []]) [] [1%nat] (Some 2%nat)) as (o & s' & Hr & _).
  - apply (demo_inv [OpExit 7 []]); [demo_ok|vm_compute; reflexivity].
  - vm_compute; reflexivity.
  - exists o, s'. exact Hr.
Defined.
