(* ===== verification/X86.v ===== *)
(** * The assembly of the kernel

    A small machine for the instructions of the kernel's naked functions, and
    those functions as instruction lists: [context_switch]
    (task/src/context_switch.rs), [syscall_entry] (kernel/src/syscall.rs) and
    [user_entry_trampoline] (kernel/src/process.rs).

    Memory is modelled by aligned 64-bit words; an unaligned access leaves the
    model ([None]).  Addresses and stack pointers wrap at 64 bits.  Jumps are
    forward only, so an execution is a structural recursion on the list, a
    taken jump counting down the instructions it skips.

    Shown here: the context-switch assembly implements the save and load of
    callee-saved registers that the scheduler's model uses; a system call gives
    the dispatcher its arguments in order and returns to user mode with every
    register but RAX, RCX and R11 as it was, as long as the per-CPU word
    holding the user stack pointer survives the handler; a second system call
    made on the same CPU while the first one is blocked destroys it. *)

From S2P Require Import Prelude Task.

(* ------------------------------------------------------------------ *)
(** ** The machine *)

Inductive reg :=
  | RAX | RBX | RCX | RDX | RSI | RDI | RBP | RSP
  | R8 | R9 | R10 | R11 | R12 | R13 | R14 | R15.

(** Registers by their encoding in the instruction set, plus one. *)
Definition reg_num (r : reg) : positive :=
  match r with
  | RAX => 1 | RCX => 2 | RDX => 3 | RBX => 4 | RSP => 5 | RBP => 6 | RSI => 7 | RDI => 8
  | R8 => 9 | R9 => 10 | R10 => 11 | R11 => 12 | R12 => 13 | R13 => 14 | R14 => 15 | R15 => 16
  end.

Definition reg_set (r : reg) (v : Z) (f : reg → Z) : reg → Z :=
  λ r', if Pos.eqb (reg_num r') (reg_num r) then v else f r'.

Definition store (a v : Z) (mem : Z → Z) : Z → Z := λ a', if a' =? a then v else mem a'.

Record machine := mkMachine {
  m_reg : reg → Z;
  m_mem : Z → Z;
  m_rip : Z;
  m_rflags : Z;
  m_cs : Z;
  m_ss : Z;
  m_cr3 : Z;
  m_gs : Z;                      (* GS_BASE *)
  m_kgs : Z;                     (* KERNEL_GS_BASE *)
  m_zf : bool;
  m_if : bool;
}.

Definition with_reg (f : (reg → Z) → reg → Z) (m : machine) : machine :=
  mkMachine (f (m_reg m)) (m_mem m) (m_rip m) (m_rflags m) (m_cs m) (m_ss m) (m_cr3 m)
    (m_gs m) (m_kgs m) (m_zf m) (m_if m).
Definition with_mem (f : (Z → Z) → Z → Z) (m : machine) : machine :=
  mkMachine (m_reg m) (f (m_mem m)) (m_rip m) (m_rflags m) (m_cs m) (m_ss m) (m_cr3 m)
    (m_gs m) (m_kgs m) (m_zf m) (m_if m).
Definition with_cr3 (v : Z) (m : machine) : machine :=
  mkMachine (m_reg m) (m_mem m) (m_rip m) (m_rflags m) (m_cs m) (m_ss m) v
    (m_gs m) (m_kgs m) (m_zf m) (m_if m).
Definition with_zf (b : bool) (m : machine) : machine :=
  mkMachine (m_reg m) (m_mem m) (m_rip m) (m_rflags m) (m_cs m) (m_ss m) (m_cr3 m)
    (m_gs m) (m_kgs m) b (m_if m).
Definition with_if (b : bool) (m : machine) : machine :=
  mkMachine (m_reg m) (m_mem m) (m_rip m) (m_rflags m) (m_cs m) (m_ss m) (m_cr3 m)
    (m_gs m) (m_kgs m) (m_zf m) b.
Definition with_rip (v : Z) (m : machine) : machine :=
  mkMachine (m_reg m) (m_mem m) v (m_rflags m) (m_cs m) (m_ss m) (m_cr3 m)
    (m_gs m) (m_kgs m) (m_zf m) (m_if m).
Definition with_user (rip rflags cs ss : Z) (m : machine) : machine :=
  mkMachine (m_reg m) (m_mem m) rip rflags cs ss (m_cr3 m) (m_gs m) (m_kgs m) (m_zf m)
    (Z.testbit rflags 9).
Definition swapgs (m : machine) : machine :=
  mkMachine (m_reg m) (m_mem m) (m_rip m) (m_rflags m) (m_cs m) (m_ss m) (m_cr3 m)
    (m_kgs m) (m_gs m) (m_zf m) (m_if m).

Definition aligned (a : Z) : bool := a `mod` 8 =? 0.

Definition load_word (a : Z) (m : machine) : option Z :=
  if aligned a then Some (m_mem m a) else None.
Definition store_word (a v : Z) (m : machine) : option machine :=
  if aligned a then Some (with_mem (store a v) m) else None.

Definition push (v : Z) (m : machine) : option machine :=
  let sp := m_reg m RSP ⊟ 8 in
  store_word sp v (with_reg (reg_set RSP sp) m).
Definition pop (m : machine) : option (Z * machine) :=
  let sp := m_reg m RSP in
  v ← load_word sp m;
  Some (v, with_reg (reg_set RSP (sp ⊞ 8)) m).

Inductive instr :=
  | MovRR (d s : reg)
  | Load (d base : reg) (off : Z)            (* mov d, [base + off] *)
  | Store (base : reg) (off : Z) (s : reg)   (* mov [base + off], s *)
  | LoadGs (d : reg) (off : Z)               (* mov d, gs:[off] *)
  | StoreGs (off : Z) (s : reg)              (* mov gs:[off], s *)
  | MovFromCr3 (d : reg)
  | MovToCr3 (s : reg)
  | Push (s : reg)
  | PushI (v : Z)
  | PushM (base : reg) (off : Z)             (* push qword ptr [base + off] *)
  | Pop (d : reg)
  | AddI (d : reg) (v : Z)
  | AndI (d : reg) (v : Z)
  | TestRR (a b : reg)
  | CmpRR (a b : reg)
  | JumpZ (n : nat)                          (* jz / je over the next n instructions *)
  | Swapgs
  | Cli
  | Call
  | Ret
  | Sysretq
  | Iretq.

Section exec.
(** [call m]: the effect of the called function and its [ret], from the state
    in which the return address has just been pushed; [None] when it does not
    return. *)
Context (call : machine → option machine) (return_address : Z).
(** The SYSRET selector base in the STAR register. *)
Context (star_sysret : Z).

Definition step (i : instr) (m : machine) : option machine :=
  match i with
  | MovRR d s => Some (with_reg (reg_set d (m_reg m s)) m)
  | Load d b off => v ← load_word (m_reg m b ⊞ off) m; Some (with_reg (reg_set d v) m)
  | Store b off s => store_word (m_reg m b ⊞ off) (m_reg m s) m
  | LoadGs d off => v ← load_word (m_gs m ⊞ off) m; Some (with_reg (reg_set d v) m)
  | StoreGs off s => store_word (m_gs m ⊞ off) (m_reg m s) m
  | MovFromCr3 d => Some (with_reg (reg_set d (m_cr3 m)) m)
  | MovToCr3 s => Some (with_cr3 (m_reg m s) m)
  | Push s => push (m_reg m s) m
  | PushI v => push v m
  | PushM b off => v ← load_word (m_reg m b ⊞ off) m; push v m
  | Pop d => '(v, m) ← pop m; Some (with_reg (reg_set d v) m)
  | AddI d v => Some (with_reg (reg_set d (m_reg m d ⊞ v)) m)
  | AndI d v => Some (with_reg (reg_set d (Z.land (m_reg m d) v)) m)
  | TestRR a b => Some (with_zf (Z.land (m_reg m a) (m_reg m b) =? 0) m)
  | CmpRR a b => Some (with_zf (m_reg m a =? m_reg m b) m)
  | JumpZ _ => Some m
  | Swapgs => Some (swapgs m)
  | Cli => Some (with_if false m)
  | Call => m ← push return_address m; call m
  | Ret => '(v, m) ← pop m; Some (with_rip v m)
  | Sysretq => Some (with_user (m_reg m RCX) (m_reg m R11)
                       (Z.lor (star_sysret + 16) 3) (Z.lor (star_sysret + 8) 3) m)
  | Iretq =>
      '(rip, m) ← pop m; '(cs, m) ← pop m; '(rflags, m) ← pop m; '(rsp, m) ← pop m;
      '(ss, m) ← pop m;
      Some (with_user rip rflags cs ss (with_reg (reg_set RSP rsp) m))
  end.

Fixpoint exec (skip : nat) (p : list instr) (m : machine) : option machine :=
  match p with
  | [] => Some m
  | i :: p =>
      match skip with
      | S skip => exec skip p m
      | O =>
          m' ← step i m;
          exec (match i with JumpZ n => if m_zf m then n else O | _ => O end) p m'
      end
  end.
End exec.

(* ------------------------------------------------------------------ *)
(** ** The programs *)

Definition context_switch_asm : list instr :=
  [Pop RAX;
   Store RDI 56 RAX;
   Store RDI 0 RSP;
   Store RDI 8 RBP;
   Store RDI 16 RBX;
   Store RDI 24 R12;
   Store RDI 32 R13;
   Store RDI 40 R14;
   Store RDI 48 R15;
   MovFromCr3 RAX;
   Store RDI 136 RAX;
   Load RSP RSI 0;
   Load RBP RSI 8;
   Load RBX RSI 16;
   Load R12 RSI 24;
   Load R13 RSI 32;
   Load R14 RSI 40;
   Load R15 RSI 48;
   Load RAX RSI 136;
   TestRR RAX RAX;
   JumpZ 4;
   MovFromCr3 RCX;
   CmpRR RAX RCX;
   JumpZ 1;
   MovToCr3 RAX;
   PushM RSI 56;
   Ret].

Definition syscall_entry_save : list instr :=
  [Swapgs;
   StoreGs 16 RSP;
   LoadGs RSP 8;
   AndI RSP 0xFFFFFFFFFFFFFFF0;
   Push R11; Push RCX;
   Push R9; Push R8; Push R10; Push RDX; Push RSI; Push RDI; Push RAX;
   Push RBP; Push RBX; Push R12; Push R13; Push R14; Push R15;
   MovRR R9 R8;
   MovRR R8 R10;
   MovRR RCX RDX;
   MovRR RDX RSI;
   MovRR RSI RDI;
   MovRR RDI RAX].

Definition syscall_entry_restore : list instr :=
  [Pop R15; Pop R14; Pop R13; Pop R12; Pop RBX; Pop RBP;
   AddI RSP 8;
   Pop RDI; Pop RSI; Pop RDX; Pop R10; Pop R8; Pop R9;
   Pop RCX; Pop R11;
   LoadGs RSP 16;
   Swapgs;
   Sysretq].

Definition syscall_entry_asm : list instr :=
  syscall_entry_save ++ [Call] ++ syscall_entry_restore.

Definition user_entry_trampoline_asm : list instr :=
  [Cli; PushI 0x23; Push R13; PushI 0x202; PushI 0x2B; Push R12; Iretq].

(* ------------------------------------------------------------------ *)
(** ** Contexts in memory *)

(** The layout of [#[repr(C)] struct CPUContext] at address [p]. *)
Definition ctx_at (mem : Z → Z) (p : Z) : CPUContext :=
  mkCPUContext (mem p) (mem (p + 8)) (mem (p + 16)) (mem (p + 24)) (mem (p + 32)) (mem (p + 40))
    (mem (p + 48)) (mem (p + 56)) (mem (p + 64)) (mem (p + 72)) (mem (p + 80)) (mem (p + 88))
    (mem (p + 96)) (mem (p + 104)) (mem (p + 112)) (mem (p + 120)) (mem (p + 128)) (mem (p + 136)).

(** A [CPUContext] object of 144 bytes. *)
Definition ctx_addr (p : Z) : Prop := 0 ≤ p ∧ p + 144 ≤ 2 ^ 64 ∧ p `mod` 8 = 0.

(** The registers as [context_switch]'s caller sees them: before the call the
    stack pointer is above the return address; after the [ret] it is RSP. *)
Definition cpu_at_call (m : machine) : cpu :=
  mkCpu (m_reg m RSP + 8) (m_reg m RBP) (m_reg m RBX) (m_reg m R12) (m_reg m R13) (m_reg m R14)
    (m_reg m R15) (m_mem m (m_reg m RSP)) (m_cr3 m).
Definition cpu_after_ret (m : machine) : cpu :=
  mkCpu (m_reg m RSP) (m_reg m RBP) (m_reg m RBX) (m_reg m R12) (m_reg m R13) (m_reg m R14)
    (m_reg m R15) (m_rip m) (m_cr3 m).

(** A word of the stack. *)
Definition stack_word (a : Z) : Prop := 0 ≤ a ∧ a + 8 < 2 ^ 64 ∧ a `mod` 8 = 0.

(* ------------------------------------------------------------------ *)
(** ** Lemmas *)

Lemma store_eq a v mem : store a v mem a = v.
Proof. unfold store. by rewrite Z.eqb_refl. Qed.
Lemma store_ne a v mem b : b ≠ a → store a v mem b = mem b.
Proof. unfold store. intros. by rewrite (proj2 (Z.eqb_neq _ _)). Qed.

Lemma ctx_field p off :
  ctx_addr p → 0 ≤ off ≤ 136 → off `mod` 8 = 0 →
  p ⊞ off = p + off ∧ aligned (p + off) = true.
Proof.
  intros (? & ? & ?) ??. split; [apply wrap_small; split; lia|].
  unfold aligned. apply Z.eqb_eq. rewrite Z.add_mod by lia. by replace (off `mod` 8) with 0; replace (p `mod` 8) with 0.
Qed.

Lemma stack_pop a : stack_word a → a ⊞ 8 = a + 8 ∧ aligned a = true.
Proof. intros (? & ? & ?). split; [apply wrap_small; split; lia|]. by apply Z.eqb_eq. Qed.

Lemma stack_push a : stack_word (a - 8) → a ⊟ 8 = a - 8 ∧ aligned (a - 8) = true.
Proof. intros (? & ? & ?). split; [apply wrap_small; split; lia|]. by apply Z.eqb_eq. Qed.

Lemma exec_cons call ra star i p m :
  exec call ra star 0 (i :: p) m =
  (step call ra star i m ≫= λ m',
   exec call ra star (match i with JumpZ n => if m_zf m then n else 0%nat | _ => 0%nat end) p m').
Proof. done. Qed.

Lemma exec_skip call ra star n i p m : exec call ra star (S n) (i :: p) m = exec call ra star n p m.
Proof. done. Qed.

(** Evaluate one instruction; the address computations are left to rewrite. *)
Ltac xred :=
  unfold step, push, pop, load_word, store_word, reg_set, with_reg, with_mem, with_cr3, with_zf,
    with_if, with_rip, with_user, swapgs;
  cbn [m_reg m_mem m_rip m_rflags m_cs m_ss m_cr3 m_gs m_kgs m_zf m_if reg_num Pos.eqb
       mbind option_bind].
Ltac xstep := rewrite exec_cons; xred.

(** The address of a field of the context at [p]. *)
Ltac xfield H :=
  match type of H with ctx_addr ?p =>
    match goal with |- context [p ⊞ ?off] =>
      destruct (ctx_field p off H ltac:(lia) eq_refl) as [-> ->] end
  end; xred.

Section context_switch.
Context (call : machine → option machine) (ra star : Z).

Lemma switch_tail (m : machine) (new nsp : Z) :
  m_reg m RSI = new → m_reg m RSP = nsp → ctx_addr new → stack_word (nsp - 8) →
  ∃ m', exec call ra star 0 [PushM RSI 56; Ret] m = Some m' ∧
    cpu_after_ret m' = cpu_after_ret (with_rip (m_mem m (new + 56)) m) ∧
    m_mem m' = store (nsp - 8) (m_mem m (new + 56)) (m_mem m).
Proof.
  destruct m as [regs mem rip fl cs ss cr3 gs kgs zf if_]. cbn [m_reg m_mem].
  intros Hn Hsp Hnew Hst. xstep. rewrite Hn. xfield Hnew. rewrite Hsp.
  destruct (stack_push _ Hst) as [-> Ha]. rewrite Ha. xred.
  xstep. rewrite Ha. xred. rewrite store_eq, (proj1 (stack_pop _ Hst)).
  eexists. split_and!; [done| |done]. unfold cpu_after_ret. simpl. f_equal. lia.
Qed.

Lemma context_switch_spec (m : machine) (old new sp nsp : Z) :
  m_reg m RDI = old → m_reg m RSI = new → m_reg m RSP = sp → m_mem m new = nsp →
  ctx_addr old → ctx_addr new → old + 144 ≤ new ∨ new + 144 ≤ old →
  stack_word sp → stack_word (nsp - 8) → nsp ≤ old ∨ old + 144 ≤ nsp - 8 →
  ∃ m', exec call ra star 0 context_switch_asm m = Some m' ∧
    ctx_at (m_mem m') old = save_context (cpu_at_call m) (ctx_at (m_mem m) old) ∧
    cpu_after_ret m' = load_context (ctx_at (m_mem m) new) (cpu_at_call m) ∧
    ∀ a, ¬ (old ≤ a < old + 144) → a ≠ nsp - 8 → m_mem m' a = m_mem m a.
Proof.
  destruct m as [regs mem rip fl cs ss cr3 gs kgs zf if_].
  cbn [m_reg m_mem]. intros Ho Hn Hsp Hnsp Hold Hnew Hdis Hst Hnst Hd2.
  unfold context_switch_asm.
  xstep. rewrite Hsp. destruct (stack_pop _ Hst) as [Hsp8 Hspa]. rewrite Hspa. xred. rewrite Hsp8.
  do 8 (xstep; rewrite Ho; xfield Hold). xstep. xstep. rewrite Ho. xfield Hold.
  match goal with |- context [store (old + 136) cr3 ?mm] =>
    set (mem1 := store (old + 136) cr3 mm) end.
  assert (∀ a, ¬ (old ≤ a < old + 144) → mem1 a = mem a) as Hout
    by (intros; unfold mem1; rewrite !store_ne by lia; done).
  assert (ctx_at mem1 old = save_context (cpu_at_call (mkMachine regs mem rip fl cs ss cr3 gs kgs zf if_))
    (ctx_at mem old)) as Hsave.
  { unfold ctx_at, save_context, cpu_at_call, mem1. simpl. rewrite Hsp.
    repeat first [rewrite store_eq|rewrite store_ne by lia|rewrite Z.add_0_r]. done. }
  clearbody mem1.
  assert (∀ off, 0 ≤ off < 144 → mem1 (new + off) = mem (new + off)) as Hnewf
    by (intros; apply Hout; lia).
  do 8 (xstep; rewrite Hn; xfield Hnew; rewrite Hnewf by lia).
  xstep. rewrite Z.land_diag. rewrite Z.add_0_r, Hnsp. xstep.
  assert (∀ m1, m_reg m1 RSI = new → m_reg m1 RSP = nsp → m_mem m1 = mem1 →
    cpu_after_ret (with_rip (mem (new + 56)) m1) =
      load_context (ctx_at mem new) (cpu_at_call (mkMachine regs mem rip fl cs ss cr3 gs kgs zf if_)) →
    ∃ m', exec call ra star 0 [PushM RSI 56; Ret] m1 = Some m' ∧
      ctx_at (m_mem m') old = ctx_at mem1 old ∧
      cpu_after_ret m' = load_context (ctx_at mem new)
        (cpu_at_call (mkMachine regs mem rip fl cs ss cr3 gs kgs zf if_)) ∧
      (∀ a, ¬ (old ≤ a < old + 144) → a ≠ nsp - 8 → m_mem m' a = mem a)) as Htail.
  { intros m1 H1 H2 H3 <-.
    destruct (switch_tail m1 new nsp) as (m' & -> & Hc & Hm); [done..|].
    exists m'. rewrite Hc, Hm, H3, Hnewf by lia. split_and!; [done| |done|].
    - unfold ctx_at. by rewrite !store_ne by lia.
    - intros a ??. rewrite store_ne by done. by apply Hout. }
  rewrite <-Hsave. destruct (Z.eqb_spec (mem (new + 136)) 0) as [E0|E0].
  { rewrite !exec_skip. apply Htail; try done.
    unfold cpu_after_ret, load_context, cpu_at_call, ctx_at; simpl. by rewrite E0, Hnsp. }
  xstep. xstep. xstep.
  destruct (Z.eqb_spec (mem (new + 136)) cr3) as [E1|E1].
  { rewrite !exec_skip. apply Htail; try done.
    unfold cpu_after_ret, load_context, cpu_at_call, ctx_at; simpl.
    by rewrite (proj2 (Z.eqb_neq _ _) E0), E1, Hnsp. }
  xstep. apply Htail; try done.
  unfold cpu_after_ret, load_context, cpu_at_call, ctx_at; simpl.
  by rewrite (proj2 (Z.eqb_neq _ _) E0), Hnsp.
Qed.
End context_switch.

(* ------------------------------------------------------------------ *)
(** ** System calls *)

Definition straight (p : list instr) : bool :=
  forallb (λ i, match i with JumpZ _ => false | _ => true end) p.

Lemma exec_app call ra star p q m :
  straight p = true →
  exec call ra star 0 (p ++ q) m = (exec call ra star 0 p m ≫= exec call ra star 0 q).
Proof.
  revert m. induction p as [|i p IH]; intros m Hp; [done|].
  apply andb_true_iff in Hp as [Hi Hp]. rewrite <-app_comm_cons, !exec_cons.
  destruct (step call ra star i m) as [m'|]; [|done]. simpl. by destruct i; rewrite ?IH.
Qed.

(** The kernel stack the entry code uses: the top, aligned, with room for the
    frame of 15 words and the return address. *)
Definition kstack_top (top : Z) : Z := Z.land top 0xFFFFFFFFFFFFFFF0.
Definition kstack_ok (k : Z) : Prop := 136 ≤ k ∧ k < 2 ^ 64 - 8 ∧ k `mod` 16 = 0.

(** The frame: the registers in the order they are pushed. *)
Definition frame_regs : list reg :=
  [R11; RCX; R9; R8; R10; RDX; RSI; RDI; RAX; RBP; RBX; R12; R13; R14; R15].

Definition frame_at (mem : Z → Z) (k : Z) (r : reg → Z) : Prop :=
  mem (k - 8) = r R11 ∧ mem (k - 16) = r RCX ∧ mem (k - 24) = r R9 ∧ mem (k - 32) = r R8 ∧
  mem (k - 40) = r R10 ∧ mem (k - 48) = r RDX ∧ mem (k - 56) = r RSI ∧ mem (k - 64) = r RDI ∧
  mem (k - 72) = r RAX ∧ mem (k - 80) = r RBP ∧ mem (k - 88) = r RBX ∧ mem (k - 96) = r R12 ∧
  mem (k - 104) = r R13 ∧ mem (k - 112) = r R14 ∧ mem (k - 120) = r R15.

(** [PER_CPU_DATA], the target of KERNEL_GS_BASE. *)
Definition percpu_ok (p : Z) : Prop := 0 ≤ p ∧ p + 24 ≤ 2 ^ 64 ∧ p `mod` 8 = 0.

Lemma percpu_field p off :
  percpu_ok p → 0 ≤ off ≤ 16 → off `mod` 8 = 0 → p ⊞ off = p + off ∧ aligned (p + off) = true.
Proof.
  intros (? & ? & ?) ??. split; [apply wrap_small; split; lia|].
  unfold aligned. apply Z.eqb_eq. rewrite Z.add_mod by lia. by replace (off `mod` 8) with 0; replace (p `mod` 8) with 0.
Qed.

Lemma kstack_push k c c' :
  kstack_ok k → c' = c + 8 → 0 ≤ c ≤ 128 → c `mod` 8 = 0 →
  (k - c) ⊟ 8 = k - c' ∧ aligned (k - c') = true.
Proof.
  intros (? & ? & ?) -> ??. split; [rewrite wrap_small by (split; lia); lia|].
  unfold aligned. apply Z.eqb_eq. Z.to_euclidean_division_equations; lia.
Qed.

Lemma kstack_pop k c c' :
  kstack_ok k → c' = c - 8 → 8 ≤ c ≤ 128 → c `mod` 8 = 0 →
  (k - c) ⊞ 8 = k - c' ∧ aligned (k - c) = true.
Proof.
  intros (? & ? & ?) -> ??. split; [rewrite wrap_small by (split; lia); lia|].
  unfold aligned. apply Z.eqb_eq. Z.to_euclidean_division_equations; lia.
Qed.

Ltac xpush H :=
  match type of H with kstack_ok ?k =>
    match goal with |- context [(k - ?c) ⊟ 8] =>
      let c' := eval compute in (c + 8) in
      destruct (kstack_push k c c' H eq_refl ltac:(lia) eq_refl) as [-> ->] end
  end; xred.
Ltac xpop H :=
  match type of H with kstack_ok ?k =>
    match goal with |- context [(k - ?c) ⊞ 8] =>
      let c' := eval compute in (c - 8) in
      destruct (kstack_pop k c c' H eq_refl ltac:(lia) eq_refl) as [-> ->] end
  end; xred.

Section syscall.
Context (call : machine → option machine) (ra star : Z).

(** The entry code: the user's registers are in the frame, the user's stack
    pointer in the per-CPU word, and the arguments are where the dispatcher
    expects them. *)
Lemma syscall_save_spec (m : machine) (pc k : Z) :
  m_kgs m = pc → percpu_ok pc → kstack_top (m_mem m (pc + 8)) = k → kstack_ok k →
  pc + 24 ≤ k - 128 ∨ k ≤ pc →
  ∃ m', exec call ra star 0 syscall_entry_save m = Some m' ∧
    frame_at (m_mem m') k (m_reg m) ∧ m_mem m' (pc + 16) = m_reg m RSP ∧
    m_reg m' RSP = k - 120 ∧ m_gs m' = pc ∧ m_kgs m' = m_gs m ∧
    (m_reg m' RDI, m_reg m' RSI, m_reg m' RDX, m_reg m' RCX, m_reg m' R8, m_reg m' R9) =
    (m_reg m RAX, m_reg m RDI, m_reg m RSI, m_reg m RDX, m_reg m R10, m_reg m R8) ∧
    ∀ a, a ≠ pc + 16 → ¬ (k - 120 ≤ a < k) → m_mem m' a = m_mem m a.
Proof.
  destruct m as [regs mem rip fl cs ss cr3 gs kgs zf if_]. cbn [m_reg m_mem m_kgs].
  intros -> Hpc Hk Hkok Hdis. unfold syscall_entry_save.
  xstep. xstep. destruct (percpu_field pc 16 Hpc ltac:(lia) eq_refl) as [-> ->]. xred.
  xstep. destruct (percpu_field pc 8 Hpc ltac:(lia) eq_refl) as [-> ->]. xred.
  rewrite store_ne by lia. xstep. unfold kstack_top in Hk. rewrite Hk.
  xstep. replace (k ⊟ 8) with ((k - 0) ⊟ 8) by (by rewrite Z.sub_0_r). xpush Hkok.
  do 14 (xstep; xpush Hkok). do 6 xstep.
  eexists. split; [done|]. cbn [m_mem m_reg m_gs m_kgs reg_num Pos.eqb].
  split_and!; try done.
  - unfold frame_at. split_and!; repeat first [rewrite store_eq|rewrite store_ne by lia]; done.
  - by repeat first [rewrite store_eq|rewrite store_ne by lia].
  - intros a ??. by repeat rewrite store_ne by lia.
Qed.
(** The exit code: every register of the frame is restored, RAX is kept, and
    the stack pointer is whatever the per-CPU word holds. *)
Lemma syscall_restore_spec (m : machine) (pc k : Z) (regs : reg → Z) :
  m_gs m = pc → percpu_ok pc → kstack_ok k → m_reg m RSP = k - 120 → frame_at (m_mem m) k regs →
  ∃ m', exec call ra star 0 syscall_entry_restore m = Some m' ∧
    (∀ r, r ≠ RAX → r ≠ RSP → m_reg m' r = regs r) ∧
    m_reg m' RAX = m_reg m RAX ∧ m_reg m' RSP = m_mem m (pc + 16) ∧
    m_rip m' = regs RCX ∧ m_rflags m' = regs R11 ∧ m_gs m' = m_kgs m ∧ m_kgs m' = pc ∧
    m_mem m' = m_mem m.
Proof.
  destruct m as [rg mem rip fl cs ss cr3 gs kgs zf if_]. cbn [m_reg m_mem m_gs m_kgs].
  intros -> Hpc Hkok Hsp Hf. unfold frame_at in Hf. destruct_and! Hf. unfold syscall_entry_restore.
  xstep. rewrite Hsp. xpop Hkok. do 5 (xstep; xpop Hkok).
  xstep. rewrite (proj1 (kstack_pop k 72 64 Hkok eq_refl ltac:(lia) eq_refl)).
  do 8 (xstep; xpop Hkok).
  xstep. destruct (percpu_field pc 16 Hpc ltac:(lia) eq_refl) as [-> ->]. xred.
  xstep. xstep. eexists. split; [done|]. cbn [m_mem m_reg m_gs m_kgs m_rip m_rflags reg_num Pos.eqb].
  split_and!; try done. intros [] ??; cbn [reg_num Pos.eqb]; done.
Qed.
(** The [call] instruction pushes the return address below the frame. *)
Lemma syscall_push (m : machine) (k : Z) :
  kstack_ok k → m_reg m RSP = k - 120 →
  ∃ mc, push ra m = Some mc ∧ m_reg mc RSP = k - 128 ∧
    (∀ r, r ≠ RSP → m_reg mc r = m_reg m r) ∧ m_gs mc = m_gs m ∧ m_kgs mc = m_kgs m ∧
    ∀ a, a ≠ k - 128 → m_mem mc a = m_mem m a.
Proof.
  destruct m as [rg mem rip fl cs ss cr3 gs kgs zf if_]. cbn [m_reg m_mem m_gs m_kgs].
  intros Hkok Hsp. unfold push, store_word. xred. rewrite Hsp. xpush Hkok.
  eexists. split; [done|]. cbn [m_mem m_reg m_gs m_kgs reg_num Pos.eqb].
  split_and!; try done.
  - by intros [].
  - intros a ?. by rewrite store_ne.
Qed.

(** The whole path, with the state [mc] the dispatcher is called in and the
    state [md] it returns. *)
Lemma syscall_entry_run (m : machine) (pc k : Z) :
  m_kgs m = pc → percpu_ok pc → kstack_top (m_mem m (pc + 8)) = k → kstack_ok k →
  pc + 24 ≤ k - 128 ∨ k ≤ pc →
  (∀ mc, m_gs mc = pc → m_reg mc RSP = k - 128 → ∃ md, call mc = Some md ∧
     m_reg md RSP = k - 120 ∧ m_gs md = pc ∧ m_kgs md = m_kgs mc ∧
     ∀ a, k - 120 ≤ a < k → m_mem md a = m_mem mc a) →
  ∃ mc md m', call mc = Some md ∧ exec call ra star 0 syscall_entry_asm m = Some m' ∧
    m_reg mc RSP = k - 128 ∧ m_gs mc = pc ∧ m_reg m' RSP = m_mem md (pc + 16) ∧
    (m_reg mc RDI, m_reg mc RSI, m_reg mc RDX, m_reg mc RCX, m_reg mc R8, m_reg mc R9) =
    (m_reg m RAX, m_reg m RDI, m_reg m RSI, m_reg m RDX, m_reg m R10, m_reg m R8) ∧
    m_mem mc (pc + 16) = m_reg m RSP ∧
    m_reg m' RAX = m_reg md RAX ∧
    (∀ r, r ≠ RAX → r ≠ RSP → m_reg m' r = m_reg m r) ∧
    m_rip m' = m_reg m RCX ∧ m_rflags m' = m_reg m R11 ∧ m_gs m' = m_gs m ∧ m_kgs m' = pc.
Proof.
  intros Hkgs Hpc Hk Hkok Hdis Hcall.
  destruct (syscall_save_spec m pc k) as (m1 & Hs & Hf & Hu & Hsp & Hgs & Hkg & Hargs & _);
    [done..|].
  unfold syscall_entry_asm. rewrite exec_app, Hs by done. cbn [mbind option_bind].
  rewrite exec_app by done. rewrite exec_cons. cbn [exec]. 
  destruct (syscall_push m1 k Hkok Hsp) as (mc & Hp & Hcsp & Hcr & Hcgs & Hckgs & Hcm).
  cbn [step]. rewrite Hp. cbn [mbind option_bind].
  destruct (Hcall mc) as (md & Hc & Hdsp & Hdgs & Hdkgs & Hdm); [congruence|done|].
  rewrite Hc. cbn [mbind option_bind].
  destruct (syscall_restore_spec md pc k (m_reg m))
    as (m' & -> & Hr & Hrax & Hrsp & Hrip & Hfl & Hg1 & Hg2 & _); [done..| |].
  { unfold frame_at in *. destruct_and! Hf. rewrite !Hdm, !Hcm by lia. done. }
  exists mc, md, m'. rewrite (Hcm (pc + 16)) by lia.
  rewrite (Hcr RDI), (Hcr RSI), (Hcr RDX), (Hcr RCX), (Hcr R8), (Hcr R9) by done.
  split_and!; try done; congruence.
Qed.

End syscall.

(* ------------------------------------------------------------------ *)
(** ** Properties *)

(** C5: the context-switch assembly is the switch the scheduler relies on.
    Run with the old and the new context in RDI and RSI (two disjoint objects,
    8-aligned) and a valid stack on both sides, it stores into the old context
    exactly the callee-saved registers, the caller's stack pointer, the return
    address and CR3, leaves the CPU with the registers of the new context
    (keeping CR3 when the new one is 0), and writes nothing else but the word
    below the new stack pointer. *)
Theorem context_switch_asm_correct (call : machine → option machine) (ra star : Z)
    (m : machine) (old new sp nsp : Z) :
  m_reg m RDI = old → m_reg m RSI = new → m_reg m RSP = sp → m_mem m new = nsp →
  ctx_addr old → ctx_addr new → old + 144 ≤ new ∨ new + 144 ≤ old →
  stack_word sp → stack_word (nsp - 8) → nsp ≤ old ∨ old + 144 ≤ nsp - 8 →
  ∃ m', exec call ra star 0 context_switch_asm m = Some m' ∧
    ctx_at (m_mem m') old = save_context (cpu_at_call m) (ctx_at (m_mem m) old) ∧
    cpu_after_ret m' = load_context (ctx_at (m_mem m) new) (cpu_at_call m) ∧
    ∀ a, ¬ (old ≤ a < old + 144) → a ≠ nsp - 8 → m_mem m' a = m_mem m a.
Proof. apply context_switch_spec. Qed.

(** A machine with contexts at 4096 and 8192 and stacks below 65536. *)
Definition demo_machine : machine :=
  mkMachine (λ r, match r with RDI => 4096 | RSI => 8192 | RSP => 32768 | r => Zpos (reg_num r) end)
    (λ a, if a =? 8192 then 65536 else a) 0 514 8 16 4096 0 16384 false true.

Lemma context_switch_asm_correct_witness :
  ∃ m', exec Some 0 0 0 context_switch_asm demo_machine = Some m' ∧
    ctx_at (m_mem m') 4096 = save_context (cpu_at_call demo_machine) (ctx_at (m_mem demo_machine) 4096) ∧
    cpu_after_ret m' = load_context (ctx_at (m_mem demo_machine) 8192) (cpu_at_call demo_machine) ∧
    ∀ a, ¬ (4096 ≤ a < 4096 + 144) → a ≠ 65536 - 8 → m_mem m' a = m_mem demo_machine a.
Proof.
  apply (context_switch_asm_correct Some 0 0 demo_machine 4096 8192 32768 65536);
    try reflexivity; try (split_and!; reflexivity || lia); lia.
Defined.

(** C31: a system call is transparent to user mode.  From any user state, with
    the per-CPU area at KERNEL_GS_BASE and a valid kernel stack in it, the
    dispatcher is called with (nr, arg1..arg5) = (RAX, RDI, RSI, RDX, R10, R8);
    if it returns normally (its frame, GS and stack pointer intact), user mode
    resumes at the instruction after the SYSCALL with every register as it
    was except RAX, the dispatcher's result, and RSP, which is the content of
    the per-CPU save word at that moment: the user's stack pointer when the
    handler left that word alone. *)
Theorem syscall_entry_transparent (call : machine → option machine) (ra star : Z)
    (m : machine) (pc k : Z) :
  m_kgs m = pc → percpu_ok pc → kstack_top (m_mem m (pc + 8)) = k → kstack_ok k →
  pc + 24 ≤ k - 128 ∨ k ≤ pc →
  (∀ mc, m_gs mc = pc → m_reg mc RSP = k - 128 → ∃ md, call mc = Some md ∧
     m_reg md RSP = k - 120 ∧ m_gs md = pc ∧ m_kgs md = m_kgs mc ∧
     ∀ a, k - 120 ≤ a < k → m_mem md a = m_mem mc a) →
  ∃ mc md m', call mc = Some md ∧ exec call ra star 0 syscall_entry_asm m = Some m' ∧
    (m_reg mc RDI, m_reg mc RSI, m_reg mc RDX, m_reg mc RCX, m_reg mc R8, m_reg mc R9) =
    (m_reg m RAX, m_reg m RDI, m_reg m RSI, m_reg m RDX, m_reg m R10, m_reg m R8) ∧
    m_mem mc (pc + 16) = m_reg m RSP ∧
    m_reg m' RAX = m_reg md RAX ∧ m_reg m' RSP = m_mem md (pc + 16) ∧
    (∀ r, r ≠ RAX → r ≠ RSP → m_reg m' r = m_reg m r) ∧
    m_rip m' = m_reg m RCX ∧ m_rflags m' = m_reg m R11 ∧ m_gs m' = m_gs m ∧ m_kgs m' = pc.
Proof.
  intros Hkgs Hpc Hk Hkok Hdis Hcall.
  destruct (syscall_entry_run call ra star m pc k) as (mc & md & m' & Hrun);
    [done..|]. exists mc, md, m'. tauto.
Qed.

(** A user program at 0x400000 with its stack pointer at 0x7000. *)
Definition demo_user : machine :=
  mkMachine (λ r, match r with RCX => 0x400000 | RSP => 0x7000 | r => Zpos (reg_num r) end)
    (λ a, if a =? 16384 + 8 then 65536 else 0) 0 514 0x2B 0x23 4096 0 16384 false true.

(** A handler that returns 42. *)
Definition demo_handler (m : machine) : option machine :=
  Some (with_reg (λ f, reg_set RAX 42 (reg_set RSP (f RSP + 8) f)) m).

Lemma syscall_entry_transparent_witness :
  ∃ m', exec demo_handler 0 0x1B 0 syscall_entry_asm demo_user = Some m' ∧
    m_reg m' RSP = 0x7000 ∧ m_rip m' = 0x400000.
Proof.
  destruct (syscall_entry_transparent demo_handler 0 0x1B demo_user 16384 65536)
    as (mc & md & m' & Hc & He & _ & Hu & _ & Hrsp & _ & Hrip & _).
  - reflexivity.
  - split_and!; reflexivity || lia.
  - reflexivity.
  - split_and!; reflexivity || lia.
  - lia.
  - intros mc Hgs Hsp. eexists. split; [reflexivity|]. simpl. rewrite Hsp. split_and!; done.
  - exists m'. split; [exact He|]. split; [|exact Hrip].
    rewrite Hrsp. injection Hc as <-. exact Hu.
Defined.

(** The saved user stack pointer does not survive a blocking system call.
    While task A is blocked inside its handler, task B runs with its own
    registers [rb] and kernel stack [kb] and makes a system call, whose entry
    code executes on the same per-CPU area.  When A's handler later returns,
    A resumes in user mode with B's stack pointer. *)
Theorem blocked_syscall_returns_other_stack (ra star : Z) (m : machine) (pc k kb ub : Z)
    (rb : reg → Z) (result : Z) :
  let handler := λ mc,
    (* the switch hook installs B's kernel stack; B enters the kernel *)
    mb ← exec (λ _, None) ra star 0 syscall_entry_save
           (mkMachine rb (store (pc + 8) kb (m_mem mc)) 0 0 0 0 0 ub pc false false);
    (* A is scheduled again and its handler returns *)
    Some (mkMachine (reg_set RAX result (reg_set RSP (m_reg mc RSP + 8) (m_reg mc))) (m_mem mb)
            (m_rip mc) (m_rflags mc) (m_cs mc) (m_ss mc) (m_cr3 mc) (m_gs mc) (m_kgs mc)
            (m_zf mc) (m_if mc)) in
  m_kgs m = pc → percpu_ok pc → kstack_top (m_mem m (pc + 8)) = k → kstack_ok k →
  pc + 24 ≤ k - 128 ∨ k ≤ pc → kstack_ok (kstack_top kb) →
  pc + 24 ≤ kstack_top kb - 128 ∨ kstack_top kb ≤ pc → kstack_top kb ≤ k - 128 ∨ k ≤ kstack_top kb - 128 →
  ∃ m', exec handler ra star 0 syscall_entry_asm m = Some m' ∧ m_reg m' RSP = rb RSP.
Proof.
  intros handler Hkgs Hpc Hk Hkok Hdis Hkb Hdisb Hdd.
  assert (∀ mc, m_gs mc = pc → m_reg mc RSP = k - 128 → ∃ md, handler mc = Some md ∧
     m_reg md RSP = k - 120 ∧ m_gs md = pc ∧ m_kgs md = m_kgs mc ∧
     (∀ a, k - 120 ≤ a < k → m_mem md a = m_mem mc a) ∧ m_mem md (pc + 16) = rb RSP) as Hh.
  { intros mc Hgs Hsp. unfold handler.
    destruct (syscall_save_spec (λ _, None) ra star
      (mkMachine rb (store (pc + 8) kb (m_mem mc)) 0 0 0 0 0 ub pc false false) pc (kstack_top kb))
      as (mb & -> & _ & Hu & _ & _ & _ & _ & Hm); [done|done|simpl; by rewrite store_eq|done|done|].
    cbn [mbind option_bind]. eexists. split; [done|]. simpl. rewrite Hsp.
    split_and!; try done.
    - unfold reg_set; simpl; lia.
    - intros a Ha. rewrite Hm by lia. simpl. by rewrite store_ne by lia. }
  destruct (syscall_entry_run handler ra star m pc k) as (mc & md & m' & Hc & He & Hsp & Hgs & Hrsp & _);
    [done..| |].
  { intros mc Hgs Hsp. destruct (Hh mc Hgs Hsp) as (md & ? & ? & ? & ? & ? & _). eauto 10. }
  exists m'. split; [done|]. destruct (Hh mc) as (md' & ? & _ & _ & _ & _ & <-); [done..|]. congruence.
Qed.

Lemma blocked_syscall_returns_other_stack_witness :
  ∃ m', exec (λ mc,
      mb ← exec (λ _, None) 0 0x1B 0 syscall_entry_save
             (mkMachine (λ r, match r with RSP => 0x9000 | _ => 0 end)
                (store (16384 + 8) 131072 (m_mem mc)) 0 0 0 0 0 0 16384 false false);
      Some (mkMachine (reg_set RAX 42 (reg_set RSP (m_reg mc RSP + 8) (m_reg mc))) (m_mem mb)
              (m_rip mc) (m_rflags mc) (m_cs mc) (m_ss mc) (m_cr3 mc) (m_gs mc) (m_kgs mc)
              (m_zf mc) (m_if mc))) 0 0x1B 0 syscall_entry_asm demo_user = Some m' ∧
    m_reg m' RSP = 0x9000.
Proof.
  apply (blocked_syscall_returns_other_stack 0 0x1B demo_user 16384 65536 131072 0
    (λ r, match r with RSP => 0x9000 | _ => 0 end) 42);
    try reflexivity; try (split_and!; reflexivity || lia); vm_compute; intuition congruence.
Defined.

(** A spawned process enters user mode as its loader said.  Started by a
    context switch to the trampoline with the entry point in R12 and the user
    stack in R13, on any valid kernel stack, it executes an IRETQ to ring 3:
    user code and data selectors, interrupts enabled, entry point and stack
    pointer as given. *)
Theorem trampoline_enters_user (call : machine → option machine) (ra star : Z) (m : machine) (k : Z) :
  m_reg m RSP = k → kstack_ok k →
  ∃ m', exec call ra star 0 user_entry_trampoline_asm m = Some m' ∧
    m_rip m' = m_reg m R12 ∧ m_reg m' RSP = m_reg m R13 ∧
    m_cs m' = 0x2B ∧ m_ss m' = 0x23 ∧ m_rflags m' = 0x202 ∧ m_if m' = true ∧
    m_cr3 m' = m_cr3 m ∧ m_gs m' = m_gs m ∧ m_kgs m' = m_kgs m.
Proof.
  destruct m as [rg mem rip fl cs ss cr3 gs kgs zf if_]. cbn [m_reg m_mem m_gs m_kgs m_cr3].
  intros Hsp Hkok. unfold user_entry_trampoline_asm.
  xstep. xstep. rewrite Hsp. replace (k ⊟ 8) with ((k - 0) ⊟ 8) by (by rewrite Z.sub_0_r). xpush Hkok.
  do 4 (xstep; xpush Hkok). xstep. do 5 xpop Hkok.
  eexists. split; [done|]. cbn [m_mem m_reg m_gs m_kgs m_rip m_rflags m_cs m_ss m_if m_cr3 reg_num Pos.eqb].
  split_and!; repeat first [rewrite store_eq|rewrite store_ne by lia]; done.
Qed.

(** GS_BASE and KERNEL_GS_BASE are not part of a context.  Inside a handler the first
    is the per-CPU area and the second the user's 0; SYS_EXIT and SYS_WAIT swap them
    back before they switch, a blocking read of a pipe and a blocking receive do not.
    A task entered from there through the trampoline runs with KERNEL_GS_BASE 0: the
    entry code of its next system call stores the user's stack pointer at address 16
    and takes its kernel stack from address 8, not from the per-CPU area. *)
Lemma unswapped_switch_uses_null_page (call : machine → option machine) (ra star : Z) (m : machine) (k : Z) :
  m_reg m RSP = k → kstack_ok k → m_kgs m = 0 →
  ∃ mu, exec call ra star 0 user_entry_trampoline_asm m = Some mu ∧ m_cs mu = 0x2B ∧
    ∀ mu', m_kgs mu' = m_kgs mu →
    ∃ m', exec call ra star 0 (take 3 syscall_entry_save) mu' = Some m' ∧
      m_mem m' = store 16 (m_reg mu' RSP) (m_mem mu') ∧ m_reg m' RSP = m_mem mu' 8.
Proof.
  intros Hsp Hk Hg. destruct (trampoline_enters_user call ra star m k Hsp Hk)
    as (mu & He & _ & _ & Hcs & _ & _ & _ & _ & _ & Hkg). exists mu. split; [done|]. split; [done|].
  intros [rg mem rip fl cs ss cr3 gs kgs zf if_] Hu. cbn [m_kgs] in Hu. rewrite Hkg, Hg in Hu. subst kgs.
  eexists. split; [reflexivity|]. by split.
Qed.

Lemma trampoline_enters_user_witness :
  ∃ m', exec Some 0 0 0 user_entry_trampoline_asm demo_machine = Some m' ∧
    m_rip m' = m_reg demo_machine R12 ∧ m_reg m' RSP = m_reg demo_machine R13.
Proof.
  destruct (trampoline_enters_user Some 0 0 demo_machine 32768) as (m' & He & Hrip & Hrsp & _).
  - reflexivity.
  - split_and!; reflexivity || lia.
  - exists m'. split; [exact He|]. split; assumption.
Defined.
