(* ===== verification/Ipc.v ===== *)
(** * Message ports (ipc/src/lib.rs)

    A [Port] is a bounded FIFO of messages with a queue of blocked receivers;
    the [IpcSpace] maps port ids to shared ports (locations of a heap, as the
    code shares them by [Arc]).  Operations that wake a task return it: waking
    is [Task.wake_task].

    A port delivers the accepted messages in order and never holds more than
    [PORT_QUEUE_LEN]; no receiver sleeps while there are more messages than
    woken receivers on their way to take them. *)

From S2P Require Import Prelude Task.

(* ------------------------------------------------------------------ *)
(** ** Ports *)

Definition MAX_MSG_SIZE : Z := 128.
Definition PORT_QUEUE_LEN : Z := 32.

Record Message := mkMessage {
  msg_sender_id : Z;
  msg_id : Z;
  msg_len : Z;
  msg_data : list Z;
}.

Definition Message_default : Message := mkMessage 0 0 0 (zrep MAX_MSG_SIZE 0).

Record Port := mkPort {
  port_id : Z;
  port_queue : list Message;
  port_waiting_receivers : list loc;
}.

Definition Port_new (id : Z) : Port := mkPort id [] [].

(** The result, the port, and the receiver to wake. *)
Definition Port_send (msg : Message) (p : Port) : bool * Port * option loc :=
  if PORT_QUEUE_LEN <=? zlen (port_queue p) then (false, p, None)
  else
    let q := port_queue p ++ [msg] in
    match port_waiting_receivers p with
    | [] => (true, mkPort (port_id p) q [], None)
    | t :: ts => (true, mkPort (port_id p) q ts, Some t)
    end.

Definition Port_receive (p : Port) : option Message * Port :=
  match port_queue p with
  | [] => (None, p)
  | m :: q => (Some m, mkPort (port_id p) q (port_waiting_receivers p))
  end.

(** One turn of the loop of [receive_blocking], by the task [current]: a
    message, or the task has put itself on the wait queue and blocks, or (no
    current task) it spins. *)
Inductive recv_turn := RecvGot (m : Message) | RecvBlocks | RecvSpins.

Definition Port_receive_blocking (current : option loc) (p : Port) : recv_turn * Port :=
  match port_queue p with
  | m :: q => (RecvGot m, mkPort (port_id p) q (port_waiting_receivers p))
  | [] =>
      match current with
      | None => (RecvSpins, p)
      | Some t => (RecvBlocks, mkPort (port_id p) [] (port_waiting_receivers p ++ [t]))
      end
  end.

(* ------------------------------------------------------------------ *)
(** ** The port space *)

Record IpcSpace := mkIpcSpace {
  sp_ports : gmap Z loc;
  sp_heap : gmap loc Port;
}.

Definition IpcSpace_new : IpcSpace := mkIpcSpace ∅ ∅.

(** [l] is the location of the new [Arc<Port>]. *)
Definition IpcSpace_create_port (l : loc) (id : Z) (sp : IpcSpace) : loc * IpcSpace :=
  (l, mkIpcSpace (<[id := l]> (sp_ports sp)) (<[l := Port_new id]> (sp_heap sp))).

Definition IpcSpace_get_port (id : Z) (sp : IpcSpace) : option loc := sp_ports sp !! id.

(** A method call through the [Arc]. *)
Definition with_port {A} (l : loc) (f : Port → A * Port) (sp : IpcSpace) : outcome (A * IpcSpace) :=
  p ← unwrap (sp_heap sp !! l);
  let '(a, p) := f p in
  Done (a, mkIpcSpace (sp_ports sp) (<[l := p]> (sp_heap sp))).

(* ------------------------------------------------------------------ *)
(** ** Executions of one port *)

(** [PRecvBlock t] is a turn of the receive loop by task [t]: its first, or
    the retry after it was woken. *)
Inductive port_op :=
  | PSend (m : Message)
  | PRecv
  | PRecvBlock (t : loc).

(** [ps_woken]: the tasks taken off the wait queue that have not retried yet. *)
Record port_state := mkPortState {
  ps_port : Port;
  ps_woken : list loc;
  ps_sent : list Message;      (* accepted, oldest first *)
  ps_got : list Message;       (* delivered, oldest first *)
}.

Definition remove1 (t : loc) (l : list loc) : list loc :=
  match list_find (λ x, x = t) l with
  | Some (i, _) => take i l ++ drop (S i) l
  | None => l
  end.

Definition port_step (op : port_op) (s : port_state) : port_state :=
  match op with
  | PSend m =>
      let '(ok, p, w) := Port_send m (ps_port s) in
      mkPortState p (match w with Some t => ps_woken s ++ [t] | None => ps_woken s end)
        (if ok then ps_sent s ++ [m] else ps_sent s) (ps_got s)
  | PRecv =>
      let '(r, p) := Port_receive (ps_port s) in
      mkPortState p (ps_woken s) (ps_sent s)
        (match r with Some m => ps_got s ++ [m] | None => ps_got s end)
  | PRecvBlock t =>
      let '(r, p) := Port_receive_blocking (Some t) (ps_port s) in
      mkPortState p (remove1 t (ps_woken s)) (ps_sent s)
        (match r with RecvGot m => ps_got s ++ [m] | _ => ps_got s end)
  end.

Definition port_run (ops : list port_op) (s : port_state) : port_state :=
  fold_left (λ s op, port_step op s) ops s.

Definition port_start (id : Z) : port_state := mkPortState (Port_new id) [] [] [].

(** The invariant of a run. *)
Record port_inv (s : port_state) : Prop := {
  pti_len : zlen (port_queue (ps_port s)) ≤ PORT_QUEUE_LEN;
  pti_fifo : ps_sent s = ps_got s ++ port_queue (ps_port s);
  pti_wake : port_waiting_receivers (ps_port s) ≠ [] →
                (length (port_queue (ps_port s)) ≤ length (ps_woken s))%nat;
}.

(* ------------------------------------------------------------------ *)
(** ** Lemmas *)

Lemma length_remove1 t l : (length l - 1 ≤ length (remove1 t l))%nat.
Proof.
  unfold remove1. destruct (list_find _ _) as [[i x]|] eqn:E; [|lia].
  apply list_find_Some in E as (Hi%lookup_lt_Some & _). rewrite length_app, length_take, length_drop. lia.
Qed.

Lemma port_step_inv op s : port_inv s → port_inv (port_step op s).
Proof.
  intros [Hl Hf Hw]. destruct s as [[id q ws] wk sent got], op as [m| |t]; simpl in *.
  - unfold Port_send; simpl. destruct (Z.leb_spec PORT_QUEUE_LEN (zlen q)); [by split|].
    destruct ws as [|t ws]; split; simpl; autorewrite with zl; try lia; try done.
    + subst. by rewrite app_assoc.
    + subst. by rewrite app_assoc.
    + intros _. rewrite !length_app. simpl. specialize (Hw ltac:(done)). lia.
  - unfold Port_receive; simpl. destruct q as [|m q]; [by split|].
    split; simpl; autorewrite with zl in *; [lia| |].
    + subst. by rewrite <-app_assoc.
    + intros Hn. specialize (Hw Hn). simpl in Hw. lia.
  - unfold Port_receive_blocking; simpl. pose proof (length_remove1 t wk).
    destruct q as [|m q]; split; simpl; autorewrite with zl in *; try lia; try done.
    + subst. by rewrite <-app_assoc.
    + intros Hn. specialize (Hw Hn). simpl in Hw. lia.
Qed.

Lemma port_run_inv ops s : port_inv s → port_inv (port_run ops s).
Proof.
  revert s. induction ops as [|op ops IH]; intros s Hs; [done|]. simpl. by apply IH, port_step_inv.
Qed.

Lemma port_inv_start id : port_inv (port_start id).
Proof. by split. Qed.

(* ------------------------------------------------------------------ *)
(** ** Properties *)

(** C37: a port is a bounded FIFO.  After any sequence of sends, receives and
    turns of blocking receives on a new port, the messages delivered followed
    by the messages queued are exactly the messages accepted, in order, and at
    most [PORT_QUEUE_LEN] are queued. *)
Theorem port_fifo (id : Z) (ops : list port_op) :
  let s := port_run ops (port_start id) in
  ps_sent s = ps_got s ++ port_queue (ps_port s) ∧ zlen (port_queue (ps_port s)) ≤ PORT_QUEUE_LEN.
Proof. destruct (port_run_inv ops (port_start id) (port_inv_start id)). done. Qed.

(** No receiver is left asleep on a message.  After any such sequence, if
    a task still sleeps on the port then there are at most as many messages as
    woken receivers that have not retried yet; so once every woken receiver
    has retried, a sleeping receiver means an empty queue. *)
Theorem port_no_lost_wakeup (id : Z) (ops : list port_op) :
  let s := port_run ops (port_start id) in
  port_waiting_receivers (ps_port s) ≠ [] →
  (length (port_queue (ps_port s)) ≤ length (ps_woken s))%nat ∧
  (ps_woken s = [] → port_queue (ps_port s) = []).
Proof.
  intros s Hn. pose proof (pti_wake s (port_run_inv ops _ (port_inv_start id)) Hn) as Hw.
  split; [done|]. intros E. rewrite E in Hw. simpl in Hw. by apply nil_length_inv; lia.
Qed.

Lemma port_no_lost_wakeup_witness :
  let s := port_run [PRecvBlock 1%nat; PRecvBlock 2%nat; PSend Message_default] (port_start 7) in
  port_waiting_receivers (ps_port s) = [2%nat] ∧
  (length (port_queue (ps_port s)) ≤ length (ps_woken s))%nat.
Proof.
  split; [reflexivity|].
  refine (proj1 (port_no_lost_wakeup 7 [PRecvBlock 1%nat; PRecvBlock 2%nat; PSend Message_default] _)).
  vm_compute. discriminate.
Defined.
