(* ===== verification/Vfs.v ===== *)
(** * The virtual file system (vfs/src/lib.rs)

    The [INode] trait as a type class over a type of node handles and a store,
    the mount table, and path resolution.  Strings are byte lists: every
    operation of the code on paths splits at or strips the byte ['/'].

    The mount table is shown to stay sorted longest-path-first with distinct
    normalized keys; path resolution uses the most specific mount whatever
    order the sort gives to mounts of the same length; mounting makes the mount
    point resolve to the new root, and unmounting undoes it. *)

From stdpp Require Import sorting.
From S2P Require Import Prelude.

Abbreviation str := (list Z) (only parsing).

(** The byte ['/']. *)
Definition SLASH : Z := 47.

(* ------------------------------------------------------------------ *)
(** ** Nodes *)

Inductive FileType := File | Directory | Device.

#[global] Instance FileType_eq_dec : EqDecision FileType.
Proof. solve_decision. Defined.

(** The trait, for handles [N] ([Arc<dyn INode>]) over a store [S] that holds
    what the nodes share: file contents, directories, devices. *)
Class INode (N S : Type) := {
  inode_read : N → Z → list Z → S → outcome (Z * list Z * S);
  inode_write : N → Z → list Z → S → outcome (Z * S);
  inode_metadata : N → S → FileType;
  inode_lookup : N → str → S → outcome (option N * S);
  inode_insert : N → str → N → S → outcome (result unit * S);
  inode_create_file : N → str → S → outcome (result N * S);
  inode_mkdir : N → str → S → outcome (result unit * S);
  inode_unlink : N → str → S → outcome (result unit * S);
  inode_size : N → S → outcome Z;
  inode_readdir : N → S → outcome (option (list (str * FileType)) * S);
}.

(** The default methods of the trait. *)
Section defaults.
Context {N S : Type}.
Definition default_lookup (_ : N) (_ : str) (s : S) : outcome (option N * S) := Done (None, s).
Definition default_insert (_ : N) (_ : str) (_ : N) (s : S) : outcome (result unit * S) :=
  Done (Err "not a directory", s).
Definition default_create_file (_ : N) (_ : str) (s : S) : outcome (result N * S) :=
  Done (Err "not a directory", s).
Definition default_mkdir (_ : N) (_ : str) (s : S) : outcome (result unit * S) :=
  Done (Err "not a directory", s).
Definition default_unlink (_ : N) (_ : str) (s : S) : outcome (result unit * S) :=
  Done (Err "not a directory", s).
Definition default_size (_ : N) (_ : S) : outcome Z := Done 0.
Definition default_readdir (_ : N) (s : S) : outcome (option (list (str * FileType)) * S) :=
  Done (None, s).
End defaults.

(* ------------------------------------------------------------------ *)
(** ** Strings *)

(** [trim_start_matches('/')] and [trim_end_matches('/')]. *)
Fixpoint trim_start (p : str) : str :=
  match p with
  | c :: p' => if c =? SLASH then trim_start p' else p
  | [] => []
  end.
Definition trim_end (p : str) : str := reverse (trim_start (reverse p)).

Fixpoint starts_with (pre p : str) : bool :=
  match pre, p with
  | [], _ => true
  | c :: pre, d :: p => (c =? d) && starts_with pre p
  | _ :: _, [] => false
  end.

Definition strip_prefix (pre p : str) : option str :=
  if starts_with pre p then Some (drop (length pre) p) else None.

(** [split('/')]: the (possibly empty) pieces between slashes. *)
Fixpoint split_slash (p : str) : list str :=
  match p with
  | [] => [[]]
  | c :: p =>
      if c =? SLASH then [] :: split_slash p
      else match split_slash p with
           | w :: ws => (c :: w) :: ws
           | [] => [[c]]
           end
  end.

Definition nonempty (w : str) : bool := match w with [] => false | _ => true end.

(** [remainder.split('/').filter(|c| !c.is_empty())]. *)
Definition components (p : str) : list str := filter (λ w, nonempty w = true) (split_slash p).

(** [rfind('/')]: what is before and after the last slash. *)
Fixpoint rfind_slash (s : str) : option (str * str) :=
  match s with
  | [] => None
  | c :: s =>
      match rfind_slash s with
      | Some (pre, post) => Some (c :: pre, post)
      | None => if c =? SLASH then Some ([], s) else None
      end
  end.

(** [core::str::from_utf8]: the byte sequences of the Unicode standard. *)
Definition utf8_cont (b : Z) : bool := (0x80 <=? b) && (b <=? 0xBF).
Fixpoint utf8_valid (s : list Z) : bool :=
  match s with
  | [] => true
  | b0 :: s0 =>
      if b0 <? 0x80 then utf8_valid s0
      else match s0 with
      | b1 :: s1 =>
          if (0xC2 <=? b0) && (b0 <=? 0xDF) then utf8_cont b1 && utf8_valid s1
          else match s1 with
          | b2 :: s2 =>
              if (0xE0 <=? b0) && (b0 <=? 0xEF) then
                (if b0 =? 0xE0 then (0xA0 <=? b1) && (b1 <=? 0xBF)
                 else if b0 =? 0xED then (0x80 <=? b1) && (b1 <=? 0x9F)
                 else utf8_cont b1) && utf8_cont b2 && utf8_valid s2
              else match s2 with
              | b3 :: s3 =>
                  (0xF0 <=? b0) && (b0 <=? 0xF4) &&
                  (if b0 =? 0xF0 then (0x90 <=? b1) && (b1 <=? 0xBF)
                   else if b0 =? 0xF4 then (0x80 <=? b1) && (b1 <=? 0x8F)
                   else utf8_cont b1) && utf8_cont b2 && utf8_cont b3 && utf8_valid s3
              | [] => false
              end
          | [] => false
          end
      | [] => false
      end
  end.

(** [chars]: the scalar values of a valid UTF-8 string. *)
Fixpoint chars (s : str) : list Z :=
  match s with
  | [] => []
  | b0 :: s0 =>
      if b0 <? 0x80 then b0 :: chars s0
      else match s0 with
      | b1 :: s1 =>
          if b0 <? 0xE0 then Z.lor (Z.land b0 0x1F ≪ 6) (Z.land b1 0x3F) :: chars s1
          else match s1 with
          | b2 :: s2 =>
              if b0 <? 0xF0 then
                Z.lor (Z.lor (Z.land b0 0xF ≪ 12) (Z.land b1 0x3F ≪ 6)) (Z.land b2 0x3F) :: chars s2
              else match s2 with
              | b3 :: s3 =>
                  Z.lor (Z.lor (Z.land b0 7 ≪ 18) (Z.land b1 0x3F ≪ 12))
                        (Z.lor (Z.land b2 0x3F ≪ 6) (Z.land b3 0x3F)) :: chars s3
              | [] => []
              end
          | [] => []
          end
      | [] => []
      end
  end.

(** [String::push]: the UTF-8 bytes of a scalar value. *)
Definition encode_utf8 (c : Z) : str :=
  if c <? 0x80 then [c]
  else if c <? 0x800 then [Z.lor 0xC0 (c ≫ 6); Z.lor 0x80 (Z.land c 0x3F)]
  else if c <? 0x10000 then
    [Z.lor 0xE0 (c ≫ 12); Z.lor 0x80 (Z.land (c ≫ 6) 0x3F); Z.lor 0x80 (Z.land c 0x3F)]
  else
    [Z.lor 0xF0 (c ≫ 18); Z.lor 0x80 (Z.land (c ≫ 12) 0x3F);
     Z.lor 0x80 (Z.land (c ≫ 6) 0x3F); Z.lor 0x80 (Z.land c 0x3F)].

(** [encode_utf16]: surrogate pairs above [0xFFFF]. *)
Definition encode_utf16 (c : Z) : list Z :=
  if c <? 0x10000 then [c]
  else [Z.lor 0xD800 ((c - 0x10000) ≫ 10); Z.lor 0xDC00 (Z.land (c - 0x10000) 0x3FF)].

(** [char::from_u32]. *)
Definition char_from_u32 (c : Z) : option Z :=
  if (c <? 0xD800) || ((0xDFFF <? c) && (c <=? 0x10FFFF)) then Some c else None.

(** [to_ascii_uppercase] and [eq_ignore_ascii_case]. *)
Definition ascii_upper (b : Z) : Z := if (97 <=? b) && (b <=? 122) then b - 32 else b.
Definition ascii_lower (b : Z) : Z := if (65 <=? b) && (b <=? 90) then b + 32 else b.
Definition eq_ignore_case (a b : str) : bool := bool_decide (map ascii_lower a = map ascii_lower b).

(* ------------------------------------------------------------------ *)
(** ** The mount table *)

Definition normalize_mount_path (path : str) : str :=
  if bool_decide (path = [SLASH]) then [SLASH] else trim_end path ++ [SLASH].

Section mounts.
Context {N : Type}.

Record MountEntry := mkMountEntry {
  me_path : str;
  me_root : N;
}.

(** Longest path first; [sort_unstable_by] may order equal lengths either way. *)
Definition longer (a b : MountEntry) : Prop := zlen (me_path b) ≤ zlen (me_path a).
#[global] Instance longer_dec : RelDecision longer.
Proof. intros a b. unfold longer. apply _. Defined.

(** [iter_mut().find(..)] then the assignment: the first entry with the key. *)
Fixpoint replace_first (key : str) (root : N) (t : list MountEntry) : option (list MountEntry) :=
  match t with
  | [] => None
  | e :: t =>
      if bool_decide (me_path e = key) then Some (mkMountEntry (me_path e) root :: t)
      else match replace_first key root t with Some t' => Some (e :: t') | None => None end
  end.

Definition mount (path : str) (root : N) (table : list MountEntry) : list MountEntry :=
  let key := normalize_mount_path path in
  match replace_first key root table with
  | Some table' => table'
  | None => merge_sort longer (table ++ [mkMountEntry key root])
  end.

(** [position] then [remove]. *)
Fixpoint remove_key (key : str) (t : list MountEntry) : option (list MountEntry) :=
  match t with
  | [] => None
  | e :: t =>
      if bool_decide (me_path e = key) then Some t
      else match remove_key key t with Some t' => Some (e :: t') | None => None end
  end.

Definition umount (path : str) (table : list MountEntry) : result unit * list MountEntry :=
  let key := normalize_mount_path path in
  match remove_key key table with
  | Some table' => (Ok (), table')
  | None => (Err "not mounted", table)
  end.

Definition set_root (root : N) (table : list MountEntry) : list MountEntry := mount [SLASH] root table.

(** The closure of [lookup_path]'s [find]. *)
Definition mount_matches (path : str) (e : MountEntry) : bool :=
  if bool_decide (me_path e = [SLASH]) then starts_with [SLASH] path
  else bool_decide (path = trim_end (me_path e)) || starts_with (me_path e) path.

Fixpoint find_mount (path : str) (t : list MountEntry) : option MountEntry :=
  match t with
  | [] => None
  | e :: t => if mount_matches path e then Some e else find_mount path t
  end.

Definition mount_remainder (path : str) (e : MountEntry) : str :=
  if bool_decide (me_path e = [SLASH]) then trim_start path
  else trim_start (default [] (strip_prefix (me_path e) path)).

Context {S : Type} `{INode N S}.

(** [node = node.lookup(component)?] over the components. *)
Fixpoint walk (node : N) (cs : list str) (s : S) : outcome (option N * S) :=
  match cs with
  | [] => Done (Some node, s)
  | c :: cs =>
      '(o, s) ← inode_lookup node c s;
      match o with
      | Some node => walk node cs s
      | None => Done (None, s)
      end
  end.

Definition lookup_path (table : list MountEntry) (path : str) (s : S) : outcome (option N * S) :=
  match table with
  | [] => Done (None, s)
  | _ =>
      match find_mount path table with
      | None => Done (None, s)
      | Some e =>
          let remainder := mount_remainder path e in
          if negb (nonempty remainder) then Done (Some (me_root e), s)
          else walk (me_root e) (components remainder) s
      end
  end.
End mounts.
Arguments MountEntry N : clear implicits.

(* ------------------------------------------------------------------ *)
(** ** Strings: lemmas *)

(** ASCII text is its own encoding. *)
Definition ascii (s : str) : Prop := Forall (λ c, c < 128) s.

Lemma utf8_ascii s : ascii s → utf8_valid s = true.
Proof. induction 1 as [|c s Hc _ IH]; simpl; [done|]. by rewrite (proj2 (Z.ltb_lt c 128)). Qed.

Lemma chars_ascii s : ascii s → chars s = s.
Proof. induction 1 as [|c s Hc _ IH]; simpl; [done|]. by rewrite (proj2 (Z.ltb_lt c 128)), IH. Qed.

Definition no_slash (w : str) : Prop := SLASH ∉ w.

(** A string without a trailing slash. *)
Definition trimmed (w : str) : Prop := trim_end w = w.

Lemma trim_start_split p : ∃ k, p = replicate k SLASH ++ trim_start p.
Proof.
  induction p as [|c p [k IH]]; [by exists O|]. simpl. destruct (Z.eqb_spec c SLASH) as [->|].
  - exists (S k). simpl. by rewrite <-IH.
  - by exists O.
Qed.

Lemma trim_start_slashes k p : trim_start (replicate k SLASH ++ p) = trim_start p.
Proof. by induction k. Qed.

Lemma trim_start_idem p : trim_start (trim_start p) = trim_start p.
Proof.
  induction p as [|c p IH]; [done|]. simpl. destruct (c =? SLASH) eqn:E; [done|]. simpl. by rewrite E.
Qed.

Lemma trim_end_split p : ∃ k, p = trim_end p ++ replicate k SLASH.
Proof.
  destruct (trim_start_split (reverse p)) as [k Hk]. exists k. unfold trim_end.
  apply (f_equal reverse) in Hk. rewrite reverse_involutive, reverse_app, reverse_replicate in Hk. done.
Qed.

Lemma trim_end_slash w : trim_end (w ++ [SLASH]) = trim_end w.
Proof. unfold trim_end. by rewrite reverse_snoc. Qed.

Lemma trim_end_idem p : trimmed (trim_end p).
Proof. unfold trimmed, trim_end. by rewrite reverse_involutive, trim_start_idem. Qed.

Lemma trimmed_snoc w : trimmed w → w = [] ∨ ∃ w' c, w = w' ++ [c] ∧ c ≠ SLASH.
Proof.
  unfold trimmed, trim_end. destruct w as [|c w _] using rev_ind; [by left|].
  rewrite reverse_snoc. simpl. destruct (Z.eqb_spec c SLASH) as [->|]; [|right; eauto].
  intros E. apply (f_equal length) in E. rewrite length_app, length_reverse in E.
  assert (∀ l, (length (trim_start l) ≤ length l)%nat) as Hl.
  { intros l. induction l as [|d l IH]; simpl; [done|]. destruct (d =? SLASH); simpl; lia. }
  specialize (Hl (reverse w)). rewrite length_reverse in Hl. simpl in E. lia.
Qed.

Lemma starts_with_spec pre p : starts_with pre p = true ↔ pre `prefix_of` p.
Proof.
  revert p. induction pre as [|c pre IH]; intros p; simpl; [split; [intros; apply prefix_nil|done]|].
  destruct p as [|d p]; [split; [done|by intros ?%prefix_nil_not]|].
  rewrite andb_true_iff, Z.eqb_eq, IH. split.
  - intros [-> ?]. by apply prefix_cons.
  - intros Hp. split; [by eapply prefix_cons_inv_1|by eapply prefix_cons_inv_2].
Qed.

(* ------------------------------------------------------------------ *)
(** ** The mount table: invariant *)

(** A normalized mount path: some trimmed path followed by one slash. *)
Definition normal (k : str) : Prop := ∃ w, k = w ++ [SLASH] ∧ trimmed w.

Lemma normalize_spec path : normalize_mount_path path = trim_end path ++ [SLASH].
Proof. unfold normalize_mount_path. case_bool_decide; [by subst|done]. Qed.

Lemma normalize_normal path : normal (normalize_mount_path path).
Proof. exists (trim_end path). split; [apply normalize_spec|apply trim_end_idem]. Qed.

Section table.
Context {N : Type}.
Implicit Types (t : list (MountEntry N)) (e : MountEntry N).

Record table_inv t : Prop := {
  ti_sorted : StronglySorted longer t;
  ti_nodup : NoDup (me_path <$> t);
  ti_normal : Forall (λ e, normal (me_path e)) t;
}.

#[local] Instance longer_trans : Transitive (@longer N).
Proof. unfold longer. intros ????. lia. Qed.
#[local] Instance longer_total : Total (@longer N).
Proof. unfold longer. intros a b. lia. Qed.

Lemma replace_first_spec key root t :
  match replace_first key root t with
  | Some t' => ∃ t1 e t2, t = t1 ++ e :: t2 ∧ me_path e = key ∧
      t' = t1 ++ mkMountEntry key root :: t2
  | None => key ∉ (me_path <$> t)
  end.
Proof.
  induction t as [|e t IH]; simpl; [set_solver|].
  case_bool_decide as E; [exists [], e, t; by rewrite E|].
  destruct (replace_first key root t).
  - destruct IH as (t1 & e' & t2 & -> & ? & ->). by exists (e :: t1), e', t2.
  - set_solver.
Qed.

Lemma remove_key_spec key t :
  match remove_key key t with
  | Some t' => ∃ t1 e t2, t = t1 ++ e :: t2 ∧ me_path e = key ∧ t' = t1 ++ t2
  | None => key ∉ (me_path <$> t)
  end.
Proof.
  induction t as [|e t IH]; simpl; [set_solver|].
  case_bool_decide as E; [by exists [], e, t|].
  destruct (remove_key key t).
  - destruct IH as (t1 & e' & t2 & -> & ? & ->). by exists (e :: t1), e', t2.
  - set_solver.
Qed.

(** Sortedness depends on the paths only. *)
Lemma sorted_paths t t' :
  me_path <$> t = me_path <$> t' → StronglySorted longer t → StronglySorted longer t'.
Proof.
  revert t'. induction t as [|e t IH]; intros [|e' t'] E; try done.
  rewrite !fmap_cons in E. injection E as Ee Et.
  intros [Hs Hf]%StronglySorted_inv. constructor; [by apply IH|].
  apply Forall_forall. intros x (i & Hx)%list_elem_of_lookup.
  assert (∃ y, t !! i = Some y ∧ me_path y = me_path x) as (y & Hy & Ey).
  { apply (f_equal (.!! i)) in Et. rewrite !list_lookup_fmap, Hx in Et.
    destruct (t !! i); naive_solver. }
  pose proof (Forall_lookup_1 _ _ _ _ Hf Hy) as Hl. unfold longer in *. by rewrite <-Ey, <-Ee.
Qed.

Lemma mount_inv path root t : table_inv t → table_inv (mount path root t).
Proof.
  intros [Hs Hn Hk]. unfold mount.
  pose proof (replace_first_spec (normalize_mount_path path) root t) as Hr.
  destruct (replace_first _ _ _) as [t'|].
  - destruct Hr as (t1 & e & t2 & -> & He & ->).
    assert (me_path <$> t1 ++ e :: t2 =
      me_path <$> t1 ++ mkMountEntry (normalize_mount_path path) root :: t2) as E.
    { rewrite !fmap_app, !fmap_cons. by rewrite He. }
    split; [by eapply sorted_paths|by rewrite <-E|].
    apply Forall_app in Hk as [? Hk]. apply Forall_cons in Hk as [??]. apply Forall_app. split; [done|].
    constructor; [apply normalize_normal|done].
  - assert (merge_sort longer (t ++ [mkMountEntry (normalize_mount_path path) root]) ≡ₚ
      mkMountEntry (normalize_mount_path path) root :: t) as Hp.
    { rewrite merge_sort_Permutation. by rewrite Permutation_app_comm. }
    split.
    + apply StronglySorted_merge_sort; apply _.
    + rewrite Hp. simpl. by constructor.
    + rewrite Hp. constructor; [apply normalize_normal|done].
Qed.

Lemma sorted_remove t1 e t2 :
  StronglySorted (@longer N) (t1 ++ e :: t2) → StronglySorted longer (t1 ++ t2).
Proof.
  intros H. eapply StronglySorted_app in H as (H1 & H2 & H3).
  apply StronglySorted_inv in H3 as [H3 _].
  apply StronglySorted_app. split_and!; [|done|done]. intros x y ??. apply H1; [done|by right].
Qed.

Lemma umount_inv path t r t' : table_inv t → umount path t = (r, t') → table_inv t'.
Proof.
  intros [Hs Hn Hk]. unfold umount. pose proof (remove_key_spec (normalize_mount_path path) t) as Hr.
  destruct (remove_key _ _); intros ?; simplify_eq; [|by split].
  destruct Hr as (t1 & e & t2 & -> & He & ->). split.
  - by eapply sorted_remove.
  - rewrite fmap_app, fmap_cons in *. apply NoDup_app in Hn as (? & Hd & [? ?]%NoDup_cons).
    apply NoDup_app. split_and!; [done| |done]. set_solver.
  - apply Forall_app in Hk as [? Hk]. apply Forall_cons in Hk as [??]. by apply Forall_app.
Qed.
End table.

(* ------------------------------------------------------------------ *)
(** ** Which mount serves a path *)

Section matching.
Context {N : Type}.
Implicit Types (t : list (MountEntry N)) (e : MountEntry N).

(** A normalized entry matches the mount point itself or a path below it. *)
Lemma matches_spec path e w :
  me_path e = w ++ [SLASH] → trimmed w →
  mount_matches path e = true ↔ (w ≠ [] ∧ path = w) ∨ (w ++ [SLASH]) `prefix_of` path.
Proof.
  intros He Hw. unfold mount_matches. rewrite He. case_bool_decide as E.
  - assert (w = []) as -> by (by destruct w as [|? [|? ?]]; simplify_eq).
    rewrite starts_with_spec. simpl. naive_solver.
  - rewrite orb_true_iff, bool_decide_eq_true, starts_with_spec, trim_end_slash, Hw.
    assert (w ≠ []) by (intros ->; done). naive_solver.
Qed.

(** Two entries of the same length that match the same path have the same
    mount path. *)
Lemma matches_unique path e1 e2 :
  normal (me_path e1) → normal (me_path e2) →
  mount_matches path e1 = true → mount_matches path e2 = true →
  zlen (me_path e1) = zlen (me_path e2) → me_path e1 = me_path e2.
Proof.
  intros (w1 & E1 & T1) (w2 & E2 & T2).
  rewrite (matches_spec path e1 w1), (matches_spec path e2 w2) by done. rewrite E1, E2.
  unfold zlen. intros M1 M2 Hl. assert (length w1 = length w2) as Hw.
  { rewrite !length_app in Hl. simpl in Hl. lia. }
  destruct M1 as [[_ ->]|P1], M2 as [[_ M2]|P2].
  - by subst.
  - apply prefix_length in P2. rewrite length_app in P2. simpl in P2. lia.
  - subst path. apply prefix_length in P1. rewrite length_app in P1. simpl in P1. lia.
  - destruct P1 as [k1 ->], P2 as [k2 P2]. apply app_inj_1 in P2 as [? _]; [done|].
    rewrite !length_app. simpl. lia.
Qed.

Lemma find_mount_Some path t e :
  StronglySorted longer t → find_mount path t = Some e →
  e ∈ t ∧ mount_matches path e = true ∧
  ∀ e', e' ∈ t → mount_matches path e' = true → zlen (me_path e') ≤ zlen (me_path e).
Proof.
  induction t as [|x t IH]; simpl; [done|]. intros [Hs Hf]%StronglySorted_inv.
  destruct (mount_matches path x) eqn:E.
  - intros ?; simplify_eq. split_and!; [by left|done|].
    intros e' [->|He']%elem_of_cons _; [done|]. by apply (proj1 (Forall_forall _ _) Hf e').
  - intros H. destruct IH as (? & ? & Hmax); [done|done|]. split_and!; [by right|done|].
    intros e' [->|He']%elem_of_cons ?; [congruence|eauto].
Qed.

Lemma find_mount_None path t e : find_mount path t = None → e ∈ t → mount_matches path e = false.
Proof.
  induction t as [|x t IH]; simpl; [set_solver|]. destruct (mount_matches path x) eqn:E; [done|].
  intros H [->|?]%elem_of_cons; [done|eauto].
Qed.

Lemma nodup_entry t e1 e2 :
  NoDup (me_path <$> t) → e1 ∈ t → e2 ∈ t → me_path e1 = me_path e2 → e1 = e2.
Proof.
  intros Hn (i & Hi)%list_elem_of_lookup (j & Hj)%list_elem_of_lookup E.
  assert (i = j); [|naive_solver]. eapply NoDup_lookup; [exact Hn| |].
  - by rewrite list_lookup_fmap, Hi.
  - by rewrite list_lookup_fmap, Hj, E.
Qed.

(** An entry that matches and is at least as long as every match is the one
    found, in every sorted order of the table. *)
Lemma find_mount_eq path t e :
  table_inv t → e ∈ t → mount_matches path e = true →
  (∀ e', e' ∈ t → mount_matches path e' = true → zlen (me_path e') ≤ zlen (me_path e)) →
  find_mount path t = Some e.
Proof.
  intros [Hs Hn Hk] Hin Hm Hmax. destruct (find_mount path t) as [e'|] eqn:E.
  - apply find_mount_Some in E as (Hin' & Hm' & Hmax'); [|done].
    f_equal. eapply nodup_entry; [done..|].
    apply (matches_unique path); try done.
    + by eapply (proj1 (Forall_forall _ _) Hk).
    + by eapply (proj1 (Forall_forall _ _) Hk).
    + apply Hmax in Hm'; [|done]. apply Hmax' in Hm; [|done]. lia.
  - by rewrite (find_mount_None path t e) in Hm.
Qed.

Lemma find_mount_perm path t t' :
  table_inv t → table_inv t' → t ≡ₚ t' → find_mount path t = find_mount path t'.
Proof.
  intros Hi Hi' Hp. destruct (find_mount path t) as [e|] eqn:E.
  - symmetry. apply find_mount_Some in E as (? & ? & Hmax); [|apply Hi].
    apply find_mount_eq; [done|by rewrite <-Hp|done|]. intros e'. rewrite <-Hp. apply Hmax.
  - destruct (find_mount path t') as [e|] eqn:E'; [|done].
    apply find_mount_Some in E' as (Hin & Hm & _); [|apply Hi'].
    rewrite <-Hp in Hin. by rewrite (find_mount_None path t e) in Hm.
Qed.

(** The mount point's own entry is the one that serves it. *)
Lemma find_mount_point path t e :
  table_inv t → e ∈ t → me_path e = normalize_mount_path path → starts_with [SLASH] path = true →
  find_mount path t = Some e.
Proof.
  intros Hi Hin He Hsl. rewrite normalize_spec in He. pose proof (trim_end_idem path) as Hw.
  destruct (trim_end_split path) as [k Hk].
  remember (trim_end path) as w eqn:Ew. clear Ew.
  apply find_mount_eq; [done|done| |].
  - apply (matches_spec path e w); [done|done|]. destruct k as [|k].
    + left. rewrite app_nil_r in Hk. split; [|done]. intros ->. by subst path.
    + right. rewrite Hk. simpl. exists (replicate k SLASH). by rewrite <-app_assoc.
  - intros e' Hin' Hm. destruct (proj1 (Forall_forall _ _) (ti_normal _ Hi) e' Hin') as (w' & E' & T').
    apply (matches_spec path e' w') in Hm; [|done|done]. rewrite E', He. unfold zlen. rewrite !length_app. simpl.
    destruct Hm as [[Hne ->]|Hp].
    + destruct (trimmed_snoc w' T') as [->|(u & c & -> & Hc)]; [done|].
      destruct k as [|k]; [rewrite app_nil_r in Hk; subst; lia|].
      rewrite replicate_S_end, app_assoc in Hk. by apply app_inj_tail in Hk as [_ ->].
    + rewrite Hk in Hp. destruct Hp as [v Hv].
      destruct (decide (length w' ≤ length w)%nat); [lia|].
      destruct (trimmed_snoc w' T') as [->|(u & c & -> & Hc)]; [simpl in *; lia|].
      assert ((w ++ replicate k SLASH) !! length u = Some c) as Hl.
      { rewrite Hv, <-!app_assoc. simpl. by rewrite list_lookup_middle. }
      rewrite length_app in n. simpl in n. rewrite lookup_app_r in Hl by lia.
      apply lookup_replicate_1 in Hl as [-> _]. done.
Qed.
End matching.

(* ------------------------------------------------------------------ *)
(** ** Components of a path *)

Lemma split_slash_app a b :
  split_slash (a ++ SLASH :: b) = split_slash a ++ split_slash b.
Proof.
  induction a as [|c a IH]; simpl; [done|].
  destruct (c =? SLASH); [by rewrite IH|]. rewrite IH.
  destruct (split_slash a) eqn:E; [|done].
  exfalso. destruct a; simpl in E; [done|]. destruct (_ =? _); [done|]. by destruct (split_slash a).
Qed.

Lemma split_slash_word w : no_slash w → split_slash w = [w].
Proof.
  unfold no_slash. induction w as [|c w IH]; intros Hw; [done|]. simpl.
  apply not_elem_of_cons in Hw as [Hc Hw]. rewrite (proj2 (Z.eqb_neq _ _)), IH by done. done.
Qed.

Lemma components_app a b : components (a ++ SLASH :: b) = components a ++ components b.
Proof. unfold components. by rewrite split_slash_app, filter_app. Qed.

Lemma components_word w : no_slash w → w ≠ [] → components w = [w].
Proof. intros. unfold components. rewrite split_slash_word by done. by destruct w. Qed.

Lemma components_trim p : components (trim_start p) = components p.
Proof.
  induction p as [|c p IH]; [done|]. simpl. destruct (Z.eqb_spec c SLASH) as [->|]; [|done].
  rewrite IH. symmetry. apply (components_app [] p).
Qed.

Lemma walk_app {N S} `{INode N S} (node : N) cs1 cs2 s :
  walk node (cs1 ++ cs2) s =
  ('(o, s) ← walk node cs1 s;
   match o with Some n => walk n cs2 s | None => Done (None, s) end).
Proof.
  revert node s. induction cs1 as [|c cs IH]; intros node s; [done|]. simpl.
  destruct (inode_lookup node c s) as [[[n|] s']|]; simpl; [apply IH|done|done].
Qed.

(** With a mount found, resolution is the walk of all components of the rest
    (none when the rest is empty or only slashes). *)
Lemma lookup_path_walk {N S} `{INode N S} t path e (s : S) :
  find_mount path t = Some e →
  lookup_path t path s = walk (me_root e) (components (mount_remainder path e)) s.
Proof.
  intros He. unfold lookup_path. rewrite He. destruct t; [done|].
  by destruct (mount_remainder path e).
Qed.

(* ------------------------------------------------------------------ *)
(** ** Tables the kernel can build *)

Inductive mount_op (N : Type) := MMount (path : str) (root : N) | MUmount (path : str).
Arguments MMount {N}. Arguments MUmount {N}.

Definition mount_do {N} (t : list (MountEntry N)) (op : mount_op N) : list (MountEntry N) :=
  match op with MMount path root => mount path root t | MUmount path => (umount path t).2 end.

Lemma mount_ops_inv {N} (ops : list (mount_op N)) t :
  table_inv t → table_inv (fold_left mount_do ops t).
Proof.
  revert t. induction ops as [|op ops IH]; intros t Ht; [done|]. simpl. apply IH.
  destruct op; simpl; [by apply mount_inv|]. destruct (umount path t) eqn:E. by eapply umount_inv.
Qed.

Lemma table_inv_nil {N} : table_inv ([] : list (MountEntry N)).
Proof. split; constructor. Qed.

Lemma mount_in {N} path (root : N) t : mkMountEntry (normalize_mount_path path) root ∈ mount path root t.
Proof.
  unfold mount. pose proof (replace_first_spec (normalize_mount_path path) root t) as Hr.
  destruct (replace_first _ _ _) as [t'|].
  - destruct Hr as (t1 & e & t2 & _ & _ & ->). set_solver.
  - rewrite merge_sort_Permutation. set_solver.
Qed.

Lemma remainder_mount_point {N} path (root : N) :
  starts_with [SLASH] path = true →
  components (mount_remainder path (mkMountEntry (normalize_mount_path path) root)) = [].
Proof.
  intros Hsl. unfold mount_remainder. simpl. rewrite normalize_spec.
  destruct (trim_end_split path) as [k Hk]. remember (trim_end path) as w eqn:Ew. clear Ew.
  assert (∀ n, components (trim_start (replicate n SLASH)) = []) as Hn.
  { intros n. rewrite <-(app_nil_r (replicate n SLASH)), trim_start_slashes. done. }
  case_bool_decide as E.
  - assert (w = []) as -> by (by destruct w as [|? [|? ?]]; simplify_eq).
    rewrite Hk. apply Hn.
  - unfold strip_prefix. destruct (starts_with (w ++ [SLASH]) path) eqn:Es; [|done]. simpl.
    destruct k as [|k].
    + apply starts_with_spec, prefix_length in Es. rewrite Hk, !length_app in Es. simpl in Es. lia.
    + replace (drop (length (w ++ [SLASH])) path) with (replicate k SLASH); [apply Hn|].
      rewrite Hk. replace (w ++ replicate (S k) SLASH) with ((w ++ [SLASH]) ++ replicate k SLASH)
        by (by rewrite <-app_assoc). by rewrite drop_app_length.
Qed.

(* ------------------------------------------------------------------ *)
(** ** Properties *)

(** The most specific mount wins.  For every table the kernel can build by
    mounting and unmounting, a path is served by a mount that contains it and
    is strictly longer than every other mount that contains it, and any other
    longest-first ordering of the table (the sort is unstable) gives the same
    answer. *)
Theorem most_specific_mount {N} (ops : list (mount_op N)) (path : str) :
  let t := fold_left mount_do ops [] in
  (∀ e, find_mount path t = Some e →
     e ∈ t ∧ mount_matches path e = true ∧
     ∀ e', e' ∈ t → mount_matches path e' = true → e' = e ∨ zlen (me_path e') < zlen (me_path e)) ∧
  (find_mount path t = None → ∀ e, e ∈ t → mount_matches path e = false) ∧
  (∀ t', t ≡ₚ t' → StronglySorted longer t' → find_mount path t' = find_mount path t).
Proof.
  intros t. assert (table_inv t) as Hi by (apply mount_ops_inv, table_inv_nil).
  pose proof Hi as [Hs Hn Hk]. split_and!.
  - intros e (Hin & Hm & Hmax)%find_mount_Some; [|done]. split_and!; [done|done|].
    intros e' Hin' Hm'. destruct (decide (zlen (me_path e') < zlen (me_path e))) as [|Hge]; [by right|].
    left. eapply nodup_entry; [exact Hn|done|done|].
    apply (matches_unique path); try done; [by eapply (proj1 (Forall_forall _ _) Hk)..|].
    specialize (Hmax e' Hin' Hm'). lia.
  - intros H e. by apply find_mount_None.
  - intros t' Hp Hs'. apply find_mount_perm; [|done|done].
    split; [done|by rewrite <-Hp|by rewrite <-Hp].
Qed.

(** Mounting takes effect.  In any table the kernel can build, after
    [mount(path, root)] with an absolute path, the path (with or without
    trailing slashes) resolves to [root], whatever was mounted there before. *)
Theorem mount_then_lookup {N S} `{INode N S} (ops : list (mount_op N)) (path : str) (root : N) (s : S) :
  starts_with [SLASH] path = true →
  lookup_path (mount path root (fold_left mount_do ops [])) path s = Done (Some root, s).
Proof.
  intros Hsl. erewrite lookup_path_walk; [|apply find_mount_point; [|apply mount_in|done|done]].
  - by rewrite remainder_mount_point.
  - apply mount_inv, mount_ops_inv, table_inv_nil.
Qed.

(** Unmounting undoes mounting.  If nothing was mounted at the path, then
    [mount] followed by [umount] succeeds and every path is served as before;
    unmounting what is not mounted reports an error and changes nothing. *)
Theorem umount_undoes_mount {N} (ops : list (mount_op N)) (path : str) (root : N) :
  let t := fold_left mount_do ops [] in
  normalize_mount_path path ∉ (me_path <$> t) →
  umount path t = (Err "not mounted", t) ∧
  ∃ t', umount path (mount path root t) = (Ok (), t') ∧
    ∀ p, find_mount p t' = find_mount p t.
Proof.
  intros t Hnew. assert (table_inv t) as Hi by (apply mount_ops_inv, table_inv_nil).
  assert (table_inv (mount path root t)) as Hi' by (by apply mount_inv).
  assert (mount path root t ≡ₚ mkMountEntry (normalize_mount_path path) root :: t) as Hp.
  { unfold mount. pose proof (replace_first_spec (normalize_mount_path path) root t) as Hr.
    destruct (replace_first _ _ _) as [t'|].
    - destruct Hr as (t1 & e & t2 & E & He & _). rewrite E in Hnew. set_solver.
    - rewrite merge_sort_Permutation. by rewrite Permutation_app_comm. }
  split.
  - unfold umount. pose proof (remove_key_spec (normalize_mount_path path) t) as Hr.
    destruct (remove_key _ t); [|done]. destruct Hr as (t1 & e & t2 & E & He & _).
    rewrite E in Hnew. set_solver.
  - destruct (umount path (mount path root t)) as [r t'] eqn:E.
    pose proof (umount_inv _ _ _ _ Hi' E) as Hi''. unfold umount in E.
    pose proof (remove_key_spec (normalize_mount_path path) (mount path root t)) as Hr.
    destruct (remove_key _ _) as [t1'|]; simplify_eq.
    + destruct Hr as (t1 & e & t2 & E & He & ->). eexists. split; [done|]. intros p.
      apply find_mount_perm; [done|done|].
      assert (e = mkMountEntry (normalize_mount_path path) root) as ->.
      { eapply nodup_entry; [apply Hi'|rewrite E; set_solver|apply mount_in|done]. }
      rewrite E in Hp. rewrite <-Permutation_middle in Hp. by apply Permutation_cons_inv in Hp.
    + exfalso. apply Hr. rewrite Hp. simpl. left.
Qed.

Lemma strip_prefix_app pre p : strip_prefix pre (pre ++ p) = Some p.
Proof.
  unfold strip_prefix. rewrite (proj2 (starts_with_spec pre (pre ++ p))) by (by exists p).
  by rewrite drop_app_length.
Qed.

Lemma remainder_child {N} (e : MountEntry N) p name :
  normal (me_path e) → mount_matches p e = true →
  components (mount_remainder (p ++ SLASH :: name) e) =
  components (mount_remainder p e) ++ components name.
Proof.
  intros (w & E & T) Hm. apply (matches_spec p e w) in Hm; [|done|done].
  unfold mount_remainder. case_bool_decide; [by rewrite !components_trim, components_app|].
  rewrite !components_trim, E. destruct Hm as [[Hw ->]|[v ->]].
  - replace (w ++ SLASH :: name) with ((w ++ [SLASH]) ++ name) by (by rewrite <-app_assoc).
    rewrite strip_prefix_app. unfold strip_prefix. destruct (starts_with _ w) eqn:Es; [|done].
    apply starts_with_spec, prefix_length in Es. rewrite length_app in Es. simpl in Es. lia.
  - rewrite <-(app_assoc (w ++ [SLASH]) v), !strip_prefix_app. simpl. apply components_app.
Qed.

(** Resolution is compositional.  Within one mount, resolving [p/name] is
    resolving [p] and then looking [name] up in the node found. *)
Theorem lookup_path_child {N S} `{INode N S} (ops : list (mount_op N)) (e : MountEntry N)
    (p name : str) (s : S) :
  let t := fold_left mount_do ops [] in
  find_mount p t = Some e → find_mount (p ++ SLASH :: name) t = Some e →
  no_slash name → name ≠ [] →
  lookup_path t (p ++ SLASH :: name) s =
  ('(o, s) ← lookup_path t p s;
   match o with Some n => inode_lookup n name s | None => Done (None, s) end).
Proof.
  intros t Hp Hc Hns Hne. assert (table_inv t) as Hi by (apply mount_ops_inv, table_inv_nil).
  pose proof (find_mount_Some _ _ _ (ti_sorted _ Hi) Hp) as (Hin & Hm & _).
  rewrite (lookup_path_walk t _ e), (lookup_path_walk t p e) by done.
  pose proof (proj1 (Forall_forall _ _) (ti_normal _ Hi) e Hin) as Hnm.
  rewrite remainder_child, (components_word name), walk_app by done.
  destruct (walk (me_root e) _ s) as [[[n|] s']|]; simpl; [|done|done].
  by destruct (inode_lookup n name s') as [[[n'|] s'']|].
Qed.
