(* ===== verification/RamFs.v ===== *)
(** * The in-memory file system (vfs/src/lib.rs: RamFile, RamDir)

    Files and directories live on a heap, as the code shares them by [Arc]; a
    directory may also hold nodes of other drivers (devices), so the handles
    are a sum and the instance of [INode] forwards to the other driver's.

    Files are shown to be sparse byte arrays: what is written is read back,
    nothing else changes, gaps read as zero; the one way to panic is a write
    whose end wraps around 2^64.  Directories are finite maps from names to
    nodes: the invariant that names are distinct and children exist is kept by
    every operation of the file system. *)

From S2P Require Import Prelude Vfs.

Section ramfs.
Context {D SD : Type} `{INode D SD}.

Inductive node := Ram (l : loc) | Dev (d : D).

Inductive ramnode :=
  | RamFile (name : str) (data : list Z)
  | RamDir (name : str) (children : list (str * node)).

Record store := mkStore {
  st_heap : gmap loc ramnode;
  st_dev : SD;
}.

Definition set_heap (h : gmap loc ramnode) (s : store) : store := mkStore h (st_dev s).

(** [Arc::new]: a location not in use. *)
Definition alloc (n : ramnode) (s : store) : loc * store :=
  let l := fresh (dom (st_heap s)) in
  (l, mkStore (<[l := n]> (st_heap s)) (st_dev s)).

(* ------------------------------------------------------------------ *)
(** ** Files *)

Definition RamFile_new (name : str) : ramnode := RamFile name [].

Definition RamFile_read (data : list Z) (offset : Z) (buf : list Z) : outcome (Z * list Z) :=
  if zlen data <=? offset then Done (0, buf)
  else
    let len := Z.min (zlen buf) (zlen data - offset) in
    src ← slice data offset (offset + len);
    buf' ← copy_into buf 0 len src;
    Done (len, buf').

(** [Vec::resize(n, 0)] to a larger length. *)
Definition resize0 (n : Z) (data : list Z) : list Z := data ++ zrep (n - zlen data) 0.

Definition RamFile_write (data : list Z) (offset : Z) (buf : list Z) : outcome (Z * list Z) :=
  let end_ := offset ⊞ zlen buf in
  let data := if zlen data <? end_ then resize0 end_ data else data in
  data' ← copy_into data offset end_ buf;
  Done (zlen buf, data').

(* ------------------------------------------------------------------ *)
(** ** Directories *)

Definition RamDir_new (name : str) : ramnode := RamDir name [].

Fixpoint find_child (name : str) (cs : list (str * node)) : option node :=
  match cs with
  | [] => None
  | (n, x) :: cs => if bool_decide (n = name) then Some x else find_child name cs
  end.

Definition has_child (name : str) (cs : list (str * node)) : bool :=
  existsb (λ c, bool_decide (c.1 = name)) cs.

(** [position] then [remove]. *)
Fixpoint remove_child (name : str) (cs : list (str * node)) : option (list (str * node)) :=
  match cs with
  | [] => None
  | (n, x) :: cs =>
      if bool_decide (n = name) then Some cs
      else match remove_child name cs with Some cs' => Some ((n, x) :: cs') | None => None end
  end.

(** [RamDir::insert] on the directory at [l]. *)
Definition RamDir_insert (l : loc) (dname : str) (cs : list (str * node)) (name : str) (n : node)
    (s : store) : result unit * store :=
  if has_child name cs then (Err "file exists", s)
  else (Ok (), set_heap (<[l := RamDir dname (cs ++ [(name, n)])]> (st_heap s)) s).

Definition RamDir_create_file (l : loc) (dname : str) (cs : list (str * node)) (name : str)
    (s : store) : result node * store :=
  let '(f, s) := alloc (RamFile_new name) s in
  match RamDir_insert l dname cs name (Ram f) s with
  | (Ok _, s) => (Ok (Ram f), s)
  | (Err e, s) => (Err e, s)
  end.

Definition RamDir_mkdir (l : loc) (dname : str) (cs : list (str * node)) (name : str)
    (s : store) : result unit * store :=
  let '(d, s) := alloc (RamDir_new name) s in
  RamDir_insert l dname cs name (Ram d) s.

Definition RamDir_unlink (l : loc) (dname : str) (cs : list (str * node)) (name : str)
    (s : store) : result unit * store :=
  match remove_child name cs with
  | Some cs' => (Ok (), set_heap (<[l := RamDir dname cs']> (st_heap s)) s)
  | None => (Err "not found", s)
  end.

(* ------------------------------------------------------------------ *)
(** ** The trait *)

(** Calls on a device node, on the device part of the store. *)
Definition on_dev {A} (f : SD → outcome (A * SD)) (s : store) : outcome (A * store) :=
  '(a, sd) ← f (st_dev s); Done (a, mkStore (st_heap s) sd).

Definition ram_at (l : loc) (s : store) : outcome ramnode := unwrap (st_heap s !! l).

Definition dev_result {A B} (f : A → B) (r : result A) : result B :=
  match r with Ok a => Ok (f a) | Err e => Err e end.

Definition dev_lookup (d : D) (name : str) (sd : SD) : outcome (option node * SD) :=
  '(o, sd) ← inode_lookup d name sd;
  Done (match o with Some d => Some (Dev d) | None => None end, sd).
Definition dev_create_file (d : D) (name : str) (sd : SD) : outcome (result node * SD) :=
  '(r, sd) ← inode_create_file d name sd; Done (dev_result Dev r, sd).

Definition ram_read (n : node) (off : Z) (buf : list Z) (s : store) : outcome (Z * list Z * store) :=
  match n with
  | Dev d => on_dev (inode_read d off buf) s
  | Ram l =>
      x ← ram_at l s;
      match x with
      | RamFile _ data => '(k, buf') ← RamFile_read data off buf; Done (k, buf', s)
      | RamDir _ _ => Done (0, buf, s)
      end
  end.

Definition ram_write (n : node) (off : Z) (buf : list Z) (s : store) : outcome (Z * store) :=
  match n with
  | Dev d => on_dev (inode_write d off buf) s
  | Ram l =>
      x ← ram_at l s;
      match x with
      | RamFile name data =>
          '(k, data') ← RamFile_write data off buf;
          Done (k, set_heap (<[l := RamFile name data']> (st_heap s)) s)
      | RamDir _ _ => Done (0, s)
      end
  end.

Definition ram_metadata (n : node) (s : store) : FileType :=
  match n with
  | Dev d => inode_metadata d (st_dev s)
  | Ram l => match st_heap s !! l with Some (RamDir _ _) => Directory | _ => File end
  end.

Definition ram_lookup (n : node) (name : str) (s : store) : outcome (option node * store) :=
  match n with
  | Dev d => on_dev (dev_lookup d name) s
  | Ram l =>
      x ← ram_at l s;
      match x with
      | RamDir _ cs => Done (find_child name cs, s)
      | RamFile _ _ => default_lookup n name s
      end
  end.

Definition ram_insert (n : node) (name : str) (c : node) (s : store) : outcome (result unit * store) :=
  match n with
  | Dev d =>
      match c with
      | Dev c => on_dev (inode_insert d name c) s
      | Ram _ => default_insert n name c s
      end
  | Ram l =>
      x ← ram_at l s;
      match x with
      | RamDir dn cs => Done (RamDir_insert l dn cs name c s)
      | RamFile _ _ => default_insert n name c s
      end
  end.

Definition ram_create_file (n : node) (name : str) (s : store) : outcome (result node * store) :=
  match n with
  | Dev d => on_dev (dev_create_file d name) s
  | Ram l =>
      x ← ram_at l s;
      match x with
      | RamDir dn cs => Done (RamDir_create_file l dn cs name s)
      | RamFile _ _ => default_create_file n name s
      end
  end.

Definition ram_mkdir (n : node) (name : str) (s : store) : outcome (result unit * store) :=
  match n with
  | Dev d => on_dev (inode_mkdir d name) s
  | Ram l =>
      x ← ram_at l s;
      match x with
      | RamDir dn cs => Done (RamDir_mkdir l dn cs name s)
      | RamFile _ _ => default_mkdir n name s
      end
  end.

Definition ram_unlink (n : node) (name : str) (s : store) : outcome (result unit * store) :=
  match n with
  | Dev d => on_dev (inode_unlink d name) s
  | Ram l =>
      x ← ram_at l s;
      match x with
      | RamDir dn cs => Done (RamDir_unlink l dn cs name s)
      | RamFile _ _ => default_unlink n name s
      end
  end.

Definition ram_size (n : node) (s : store) : outcome Z :=
  match n with
  | Dev d => inode_size d (st_dev s)
  | Ram l => match st_heap s !! l with Some (RamFile _ data) => Done (zlen data) | _ => default_size n s end
  end.

Definition ram_readdir (n : node) (s : store) : outcome (option (list (str * FileType)) * store) :=
  match n with
  | Dev d => on_dev (inode_readdir d) s
  | Ram l =>
      x ← ram_at l s;
      match x with
      | RamDir _ cs => Done (Some ((λ c, (c.1, ram_metadata c.2 s)) <$> cs), s)
      | RamFile _ _ => default_readdir n s
      end
  end.

#[global] Instance ram_INode : INode node store := {
  inode_read := ram_read;
  inode_write := ram_write;
  inode_metadata := ram_metadata;
  inode_lookup := ram_lookup;
  inode_insert := ram_insert;
  inode_create_file := ram_create_file;
  inode_mkdir := ram_mkdir;
  inode_unlink := ram_unlink;
  inode_size := ram_size;
  inode_readdir := ram_readdir;
}.
End ramfs.
Arguments node D : clear implicits.
Arguments ramnode D : clear implicits.
Arguments store D SD : clear implicits.

(* ------------------------------------------------------------------ *)
(** ** Files: lemmas *)

Lemma zlen_resize0 n data : zlen data ≤ n → zlen (resize0 n data) = n.
Proof. intros. unfold resize0. rewrite zlen_app, zlen_zrep by lia. lia. Qed.

Lemma zget_resize0 n data i :
  zlen data ≤ n → 0 ≤ i < n →
  zget (resize0 n data) i = if i <? zlen data then zget data i else Some 0.
Proof.
  intros. unfold resize0. destruct (Z.ltb_spec i (zlen data)).
  - by rewrite zget_app_l.
  - rewrite zget_app_r, zget_zrep by lia. done.
Qed.

(** The contents of a file as a function: bytes past the end read as zero. *)
Definition byte_at (data : list Z) (i : Z) : Z := default 0 (zget data i).

Lemma write_spec data off buf :
  0 ≤ off → off + zlen buf < 2 ^ 64 →
  ∃ data', RamFile_write data off buf = Done (zlen buf, data') ∧
    zlen data' = Z.max (zlen data) (off + zlen buf) ∧
    ∀ i, 0 ≤ i → byte_at data' i =
      if (off <=? i) && (i <? off + zlen buf) then byte_at buf (i - off) else byte_at data i.
Proof.
  intros Ho Hlt. pose proof (zlen_nonneg buf). pose proof (zlen_nonneg data).
  unfold RamFile_write. rewrite wrap_small by (split; lia).
  set (d1 := if zlen data <? off + zlen buf then resize0 (off + zlen buf) data else data).
  assert (zlen d1 = Z.max (zlen data) (off + zlen buf)) as Hl1.
  { unfold d1. destruct (Z.ltb_spec (zlen data) (off + zlen buf)); [rewrite zlen_resize0 by lia|]; lia. }
  assert (∀ i, 0 ≤ i → byte_at d1 i = byte_at data i) as Hg.
  { intros i Hi. unfold d1, byte_at. destruct (Z.ltb_spec (zlen data) (off + zlen buf)); [|done].
    destruct (decide (i < off + zlen buf)).
    - rewrite zget_resize0 by lia. destruct (Z.ltb_spec i (zlen data)); [done|].
      by rewrite zget_None by lia.
    - rewrite !zget_None; rewrite ?zlen_resize0; lia || done. }
  clearbody d1. rewrite copy_into_Done by lia. eexists. split; [done|].
  rewrite zlen_zsplice by lia. split; [done|]. intros i Hi. unfold byte_at.
  destruct (Z.leb_spec off i), (Z.ltb_spec i (off + zlen buf)); simpl.
  1: by rewrite zget_zsplice_in by lia.
  all: rewrite zget_zsplice_out by lia; by apply Hg.
Qed.

Lemma read_spec data off buf :
  0 ≤ off →
  ∃ n buf', RamFile_read data off buf = Done (n, buf') ∧
    n = Z.max 0 (Z.min (zlen buf) (zlen data - off)) ∧ zlen buf' = zlen buf ∧
    ∀ i, 0 ≤ i < zlen buf → zget buf' i = if i <? n then zget data (off + i) else zget buf i.
Proof.
  intros Ho. pose proof (zlen_nonneg buf). unfold RamFile_read.
  destruct (Z.leb_spec (zlen data) off).
  { eexists _, _. split; [done|]. split_and!; [lia|done|]. intros i Hi. by destruct (Z.ltb_spec i 0); [lia|]. }
  remember (Z.min (zlen buf) (zlen data - off)) as n eqn:Hn.
  rewrite slice_Done by lia. simpl. rewrite copy_into_Done; [|lia|lia|rewrite zlen_zslice; lia].
  assert (zlen (zslice data off (off + n)) = n) as Hz by (rewrite zlen_zslice; lia).
  eexists _, _. split; [done|]. rewrite zlen_zsplice by lia. split_and!; [lia|done|].
  intros i Hi. destruct (Z.ltb_spec i n).
  - rewrite zget_zsplice_in, zget_zslice by lia. f_equal. lia.
  - by rewrite zget_zsplice_out by lia.
Qed.

(** What a write put there, a read of the same length returns. *)
Lemma read_written data off buf data' dst :
  0 ≤ off → off + zlen buf < 2 ^ 64 → RamFile_write data off buf = Done (zlen buf, data') → zlen dst = zlen buf →
  RamFile_read data' off dst = Done (zlen buf, buf).
Proof.
  intros Ho Hlt Hw' Hd. destruct (write_spec data off buf Ho Hlt) as (d & Hw & Hl & Hb).
  assert (d = data') as -> by congruence.
  pose proof (zlen_nonneg buf). destruct (read_spec data' off dst Ho) as (n & buf' & -> & Hn & Hlen & Hg).
  assert (n = zlen buf) as -> by lia. do 2 f_equal. apply zlist_eq. intros i Hi.
  destruct (decide (i < zlen buf)); [|rewrite !zget_None; [done|lia|lia]].
  rewrite Hg by lia. rewrite (proj2 (Z.ltb_lt _ _)) by done.
  specialize (Hb (off + i) ltac:(lia)). rewrite (proj2 (Z.leb_le off (off + i))), (proj2 (Z.ltb_lt (off + i) _)) in Hb by lia.
  simpl in Hb. replace (off + i - off) with i in Hb by lia. unfold byte_at in Hb.
  destruct (zget_is_Some data' (off + i)) as [x Hx]; [lia|].
  destruct (zget_is_Some buf i) as [y Hy]; [lia|]. rewrite Hx, Hy in *. simpl in Hb. by subst.
Qed.

(* ------------------------------------------------------------------ *)
(** ** Directories: lemmas *)

Section dirs.
Context {D : Type}.
Implicit Types (cs : list (str * node D)).

Lemma find_child_map name cs : NoDup cs.*1 → find_child name cs = (list_to_map cs : gmap str (node D)) !! name.
Proof.
  induction cs as [|[n x] cs IH]; simpl; [by rewrite lookup_empty|].
  intros [Hn Hd]%NoDup_cons. case_bool_decide as E; [subst; by rewrite lookup_insert_eq|].
  rewrite lookup_insert_ne by done. auto.
Qed.

Lemma has_child_spec name cs : has_child name cs = true ↔ name ∈ cs.*1.
Proof.
  unfold has_child. rewrite existsb_exists. split.
  - intros ([n x] & Hin%list_elem_of_In & E%bool_decide_eq_true). simpl in E. subst.
    apply list_elem_of_fmap. by exists (name, x).
  - intros ([n x] & -> & Hin)%list_elem_of_fmap. exists (n, x).
    split; [by apply list_elem_of_In|]. by apply bool_decide_eq_true.
Qed.

Lemma remove_child_spec name cs :
  match remove_child name cs with
  | Some cs' => ∃ c1 x c2, cs = c1 ++ (name, x) :: c2 ∧ cs' = c1 ++ c2
  | None => name ∉ cs.*1
  end.
Proof.
  induction cs as [|[n x] cs IH]; simpl; [set_solver|].
  case_bool_decide as E; [subst; by exists [], x, cs|].
  destruct (remove_child name cs); [|set_solver].
  destruct IH as (c1 & y & c2 & -> & ->). by exists ((n, x) :: c1), y, c2.
Qed.

Lemma remove_child_map name cs cs' :
  NoDup cs.*1 → remove_child name cs = Some cs' →
  NoDup cs'.*1 ∧ (∀ c, c ∈ cs' → c ∈ cs) ∧
  (list_to_map cs' : gmap str (node D)) = delete name (list_to_map cs).
Proof.
  intros Hn Hr. pose proof (remove_child_spec name cs) as Hs. rewrite Hr in Hs.
  destruct Hs as (c1 & x & c2 & -> & ->).
  rewrite fmap_app, fmap_cons in Hn. simpl in Hn.
  apply NoDup_app in Hn as (Hn1 & Hd & [Hx Hn2]%NoDup_cons). split_and!.
  - rewrite fmap_app. apply NoDup_app. split_and!; [done| |done]. set_solver.
  - set_solver.
  - apply map_eq. intros k. rewrite !list_to_map_app, list_to_map_cons.
    destruct (decide (k = name)) as [->|Hne].
    + rewrite lookup_delete_eq. apply lookup_union_None. split; apply not_elem_of_list_to_map_1; set_solver.
    + rewrite lookup_delete_ne by done. rewrite !lookup_union, lookup_insert_ne by done. done.
Qed.

Lemma append_child_map name x cs :
  name ∉ cs.*1 →
  (list_to_map (cs ++ [(name, x)]) : gmap str (node D)) = <[name := x]> (list_to_map cs).
Proof.
  intros Hn. rewrite list_to_map_app. simpl. apply map_eq. intros k. rewrite lookup_union.
  destruct (decide (k = name)) as [->|].
  - rewrite !lookup_insert_eq, not_elem_of_list_to_map_1 by done. done.
  - rewrite !lookup_insert_ne, lookup_empty by done. by destruct (_ !! k).
Qed.
End dirs.

(* ------------------------------------------------------------------ *)
(** ** The store invariant *)

Section inv.
Context {D SD : Type} `{INode D SD}.
Implicit Types (s : store D SD).

Definition dir_ok (h : gmap loc (ramnode D)) (cs : list (str * node D)) : Prop :=
  NoDup cs.*1 ∧ ∀ name l, (name, Ram l) ∈ cs → is_Some (h !! l).

Definition store_inv s : Prop :=
  ∀ l dn cs, st_heap s !! l = Some (RamDir dn cs) → dir_ok (st_heap s) cs.

(** Operations of the file system, on any node. *)
Inductive ram_op :=
  | RWrite (n : node D) (off : Z) (buf : list Z)
  | RInsert (n : node D) (name : str) (c : node D)
  | RCreate (n : node D) (name : str)
  | RMkdir (n : node D) (name : str)
  | RUnlink (n : node D) (name : str).

Definition node_ok (s : store D SD) (n : node D) : Prop :=
  match n with Ram l => is_Some (st_heap s !! l) | Dev _ => True end.

Definition ram_op_ok (op : ram_op) (s : store D SD) : Prop :=
  match op with
  | RInsert n _ c => node_ok s n ∧ node_ok s c
  | RWrite n _ _ | RCreate n _ | RMkdir n _ | RUnlink n _ => node_ok s n
  end.

Definition ram_do (op : ram_op) (s : store D SD) : outcome (store D SD) :=
  match op with
  | RWrite n off buf => '(_, s) ← inode_write n off buf s; Done s
  | RInsert n name c => '(_, s) ← inode_insert n name c s; Done s
  | RCreate n name => '(_, s) ← inode_create_file n name s; Done s
  | RMkdir n name => '(_, s) ← inode_mkdir n name s; Done s
  | RUnlink n name => '(_, s) ← inode_unlink n name s; Done s
  end.

Lemma store_inv_dev h sd sd' : store_inv (mkStore h sd) → store_inv (mkStore h sd').
Proof. done. Qed.

(** Replacing one node, all locations staying in use. *)
Lemma store_inv_set h (sd : SD) l x x' :
  store_inv (mkStore h sd) → h !! l = Some x →
  (∀ dn cs, x' = RamDir dn cs → dir_ok h cs) → store_inv (mkStore (<[l := x']> h) sd).
Proof.
  intros Hi Hl Hx l' dn cs. simpl.
  assert (∀ cs, dir_ok h cs → dir_ok (<[l := x']> h) cs) as Hmono.
  { intros cs' [? Hc]. split; [done|]. intros name l'' [y Hy]%Hc.
    destruct (decide (l'' = l)) as [->|]; [by rewrite lookup_insert_eq|].
    rewrite lookup_insert_ne by done. by exists y. }
  intros [[-> Ex]|[? Hl']]%lookup_insert_Some; apply Hmono; [by eapply Hx|by eapply Hi].
Qed.

Lemma store_inv_alloc h (sd : SD) l x :
  store_inv (mkStore h sd) → h !! l = None → (∀ dn cs, x = RamDir dn cs → cs = []) →
  store_inv (mkStore (<[l := x]> h) sd) ∧ (∀ cs, dir_ok h cs → dir_ok (<[l := x]> h) cs).
Proof.
  intros Hi Hl Hx.
  assert (∀ cs, dir_ok h cs → dir_ok (<[l := x]> h) cs) as Hmono.
  { intros cs [? Hc]. split; [done|]. intros name l'' [y Hy]%Hc.
    rewrite lookup_insert_ne by congruence. by exists y. }
  split; [|done]. intros l' dn cs. simpl.
  intros [[-> Ex]|[? Hl']]%lookup_insert_Some; apply Hmono; [|by eapply Hi].
  rewrite (Hx _ _ Ex). split; [apply NoDup_nil_2|set_solver].
Qed.

Lemma insert_inv h (sd : SD) l dn cs name c :
  store_inv (mkStore h sd) → h !! l = Some (RamDir dn cs) → node_ok (mkStore h sd) c →
  store_inv (RamDir_insert l dn cs name c (mkStore h sd)).2.
Proof.
  intros Hi Hl Hc. unfold RamDir_insert. destruct (has_child name cs) eqn:E; [done|]. simpl.
  eapply store_inv_set; [done|done|]. intros dn' cs' ?; simplify_eq.
  destruct (Hi l dn' cs Hl) as [Hn Hch]. split.
  - rewrite fmap_app. apply NoDup_app. split_and!; [done| |apply NoDup_singleton].
    intros x Hx ->%list_elem_of_singleton. apply has_child_spec in Hx. simpl in Hx. congruence.
  - intros nm l' [?|E'%list_elem_of_singleton]%elem_of_app; [by eapply Hch|]. by simplify_eq.
Qed.
Lemma on_dev_inv {A} (f : SD → outcome (A * SD)) s a s' :
  on_dev f s = Done (a, s') → store_inv s → store_inv s'.
Proof. unfold on_dev. intros Hd Hi. run_in Hd. destruct r. by simplify_eq. Qed.

Lemma alloc_inv x s l s' :
  store_inv s → (∀ dn cs, x = RamDir dn cs → cs = []) → alloc x s = (l, s') →
  st_heap s !! l = None ∧ st_heap s' = <[l := x]> (st_heap s) ∧ st_dev s' = st_dev s ∧ store_inv s' ∧
  (∀ l' y, st_heap s !! l' = Some y → l' ≠ l ∧ st_heap s' !! l' = Some y).
Proof.
  intros Hi Hx Ha. unfold alloc in Ha. simplify_eq. simpl.
  assert (st_heap s !! fresh (dom (st_heap s)) = None) as Hf
    by (apply not_elem_of_dom, is_fresh).
  destruct s as [h sd]. simpl in *. split_and!; try done.
  - by apply store_inv_alloc.
  - intros l' y Hy. assert (l' ≠ fresh (dom h)) by congruence. by rewrite lookup_insert_ne.
Qed.

Lemma dir_result_inv {A} s (r : A * store D SD) s' :
  Done r ≫= (λ '(_, s), Done s) = Done s' → store_inv r.2 → store_inv s'.
Proof. destruct r. simpl. intros. by simplify_eq. Qed.

(** Every operation keeps the invariant. *)
Lemma ram_do_inv op s s' : store_inv s → ram_op_ok op s → ram_do op s = Done s' → store_inv s'.
Proof.
  intros Hi Hok Hdo. destruct op as [[l|d] off buf|[l|d] name c|[l|d] name|[l|d] name|[l|d] name]; simpl in *.
  all: try (apply bind_Done in Hdo as ([? s1] & Hd & ?); simplify_eq; by eapply on_dev_inv).
  - unfold ram_at in Hdo. destruct (st_heap s !! l) as [[nm data|dn cs]|] eqn:Hl; simpl in Hdo; [|by simplify_eq|done].
    apply bind_Done in Hdo as ([? s1] & Hw & ?). simplify_eq.
    apply bind_Done in Hw as ([? data'] & _ & ?). simplify_eq.
    destruct s as [h sd]. by eapply store_inv_set.
  - unfold ram_at in Hdo. destruct (st_heap s !! l) as [[nm data|dn cs]|] eqn:Hl; simpl in Hdo; [by simplify_eq| |done].
    eapply dir_result_inv; [exact s|exact Hdo|]. destruct s as [h sd]. apply insert_inv; [done|done|apply Hok].
  - destruct c; [unfold default_insert in Hdo; simpl in Hdo; by simplify_eq|]. apply bind_Done in Hdo as ([? s1] & Hd & ?); simplify_eq. by eapply on_dev_inv.
  - unfold ram_at in Hdo. destruct (st_heap s !! l) as [[nm data|dn cs]|] eqn:Hl; simpl in Hdo; [by simplify_eq| |done].
    eapply dir_result_inv; [exact s|exact Hdo|]. unfold RamDir_create_file.
    destruct (alloc _ _) as [f s1] eqn:Ha. apply alloc_inv in Ha as (Hf & Hh & _ & Hi1 & Hold); [|done|done].
    destruct (Hold l _ Hl) as [? Hl1]. destruct s1 as [h1 sd1]. simpl in *.
    assert (store_inv (RamDir_insert l dn cs name (Ram f) (mkStore h1 sd1)).2) as Hr.
    { apply insert_inv; [done|done|]. simpl. by rewrite Hh, lookup_insert_eq. }
    by destruct (RamDir_insert _ _ _ _ _ _) as [[] ?].
  - unfold ram_at in Hdo. destruct (st_heap s !! l) as [[nm data|dn cs]|] eqn:Hl; simpl in Hdo; [by simplify_eq| |done].
    eapply dir_result_inv; [exact s|exact Hdo|]. unfold RamDir_mkdir.
    destruct (alloc _ _) as [f s1] eqn:Ha.
    apply alloc_inv in Ha as (Hf & Hh & _ & Hi1 & Hold); [|done|by intros; unfold RamDir_new in *; simplify_eq].
    destruct (Hold l _ Hl) as [? Hl1]. destruct s1 as [h1 sd1]. simpl in *.
    apply insert_inv; [done|done|]. simpl. by rewrite Hh, lookup_insert_eq.
  - unfold ram_at in Hdo. destruct (st_heap s !! l) as [[nm data|dn cs]|] eqn:Hl; simpl in Hdo; [by simplify_eq| |done].
    eapply dir_result_inv; [exact s|exact Hdo|]. unfold RamDir_unlink.
    destruct (remove_child name cs) as [cs'|] eqn:E; [|done]. destruct s as [h sd]. simpl in *.
    destruct (Hi l dn cs Hl) as [Hn Hc].
    destruct (remove_child_map name cs cs' Hn E) as (Hn' & Hsub & _).
    eapply store_inv_set; [done|done|]. intros ?? ?; simplify_eq. split; [done|].
    intros nm l' Hin. eapply Hc. by apply Hsub.
Qed.
End inv.

(** A file system without device nodes. *)
#[global] Instance no_dev_INode : INode Empty_set unit := {
  inode_read d := match d with end;
  inode_write d := match d with end;
  inode_metadata d := match d with end;
  inode_lookup d := match d with end;
  inode_insert d := match d with end;
  inode_create_file d := match d with end;
  inode_mkdir d := match d with end;
  inode_unlink d := match d with end;
  inode_size d := match d with end;
  inode_readdir d := match d with end;
}.

(* ------------------------------------------------------------------ *)
(** ** Properties *)

(** A RAM file is a sparse byte array.  A write of [buf] at [off] that
    does not reach 2^64 succeeds, returns the length, extends the file to at
    least its end, puts the bytes of [buf] there and leaves every other byte as
    it was (zero in the gap it opens); a read at [off] then returns [buf]. *)
Theorem ram_file_write_read (data buf : list Z) (off : Z) :
  0 ≤ off → off + zlen buf < 2 ^ 64 →
  ∃ data', RamFile_write data off buf = Done (zlen buf, data') ∧
    zlen data' = Z.max (zlen data) (off + zlen buf) ∧
    (∀ i, 0 ≤ i → byte_at data' i =
      if (off <=? i) && (i <? off + zlen buf) then byte_at buf (i - off) else byte_at data i) ∧
    ∀ dst, zlen dst = zlen buf → RamFile_read data' off dst = Done (zlen buf, buf).
Proof.
  intros Ho Hlt. destruct (write_spec data off buf Ho Hlt) as (data' & Hw & Hl & Hb).
  exists data'. split_and!; try done. intros dst Hd. by eapply read_written.
Qed.

Lemma ram_file_write_read_witness :
  ∃ data', RamFile_write [1; 2] 4 [7; 8] = Done (2, data') ∧ data' = [1; 2; 0; 0; 7; 8].
Proof.
  destruct (ram_file_write_read [1; 2] [7; 8] 4) as (data' & Hw & _); [lia|vm_compute; reflexivity|].
  exists data'. split; [exact Hw|]. injection Hw as <-. reflexivity.
Defined.

(** A write whose end wraps around 2^64 panics.  For a non-empty buffer
    and an offset with [off + len >= 2^64], which SYS_SEEK lets any program
    set, the write slices [off..end] with [end < off] and the kernel aborts. *)
Theorem ram_file_write_wraps_panics (data buf : list Z) (off : Z) :
  is_uint 64 off → zlen buf < 2 ^ 64 → 2 ^ 64 ≤ off + zlen buf →
  RamFile_write data off buf = Panic.
Proof.
  intros [? ?] ? ?. unfold RamFile_write. rewrite wrap_add_carry by lia.
  unfold copy_into. rewrite (proj2 (Z.leb_gt off _)) by lia. by rewrite andb_false_r.
Qed.

Lemma ram_file_write_wraps_panics_witness : RamFile_write [1; 2] U64_MAX [7] = Panic.
Proof.
  apply ram_file_write_wraps_panics; [|vm_compute; reflexivity|vm_compute; discriminate].
  split; [vm_compute; discriminate|vm_compute; reflexivity].
Defined.

(** The map a directory holds. *)
Definition dir_of {D SD} (s : store D SD) (l : loc) : option (gmap str (node D)) :=
  match st_heap s !! l with
  | Some (RamDir _ cs) => Some (list_to_map cs)
  | _ => None
  end.

(** C35: a RAM directory is a finite map from names to nodes.  In a store that
    satisfies the invariant: looking a name up is the map's lookup; inserting
    fails exactly on an existing name and otherwise adds the binding; creating
    a file adds a new empty file; unlinking fails exactly on an absent name and
    otherwise removes the binding, and the name is gone. *)
Theorem ram_dir_is_map {D SD} `{INode D SD} (s : store D SD) (l : loc) (m : gmap str (node D))
    (name : str) (c : node D) :
  store_inv s → dir_of s l = Some m →
  inode_lookup (Ram l) name s = Done (m !! name, s) ∧
  (∃ r s', inode_insert (Ram l) name c s = Done (r, s') ∧
     match m !! name with
     | Some _ => r = Err "file exists" ∧ s' = s
     | None => r = Ok () ∧ dir_of s' l = Some (<[name := c]> m)
     end) ∧
  (∃ r s', inode_unlink (Ram l) name s = Done (r, s') ∧
     match m !! name with
     | Some _ => r = Ok () ∧ dir_of s' l = Some (delete name m)
     | None => r = Err "not found" ∧ s' = s
     end) ∧
  (∃ r s', inode_create_file (Ram l) name s = Done (r, s') ∧
     match m !! name with
     | Some _ => r = Err "file exists" ∧ dir_of s' l = Some m
     | None => ∃ f, r = Ok (Ram f) ∧ st_heap s !! f = None ∧
         dir_of s' l = Some (<[name := Ram f]> m) ∧ st_heap s' !! f = Some (RamFile name [])
     end).
Proof.
  intros Hi Hd. unfold dir_of in Hd. destruct (st_heap s !! l) as [[|dn cs]|] eqn:Hl; try done.
  injection Hd as Hm. subst m. destruct (Hi l dn cs Hl) as [Hn _].
  assert ((list_to_map cs : gmap str (node D)) !! name = None ↔ has_child name cs = false) as Hhc.
  { rewrite <-not_elem_of_list_to_map, <-has_child_spec. by destruct (has_child name cs). }
  simpl. unfold ram_lookup, ram_insert, ram_unlink, ram_create_file, ram_at. rewrite Hl. simpl.
  split_and!.
  - by rewrite find_child_map.
  - unfold RamDir_insert. destruct (list_to_map cs !! name) as [x|] eqn:E.
    + destruct (has_child name cs); [eauto|]. by discriminate (proj2 Hhc eq_refl).
    + rewrite (proj1 Hhc eq_refl). eexists _, _. split; [done|]. split; [done|].
      unfold dir_of. simpl. rewrite lookup_insert_eq. f_equal. apply append_child_map.
      by apply not_elem_of_list_to_map.
  - unfold RamDir_unlink. pose proof (remove_child_spec name cs) as Hs.
    destruct (remove_child name cs) as [cs'|] eqn:Er.
    + destruct (remove_child_map name cs cs' Hn Er) as (_ & _ & Hdel).
      destruct (list_to_map cs !! name) as [x|] eqn:E.
      * eexists _, _. split; [done|]. split; [done|]. unfold dir_of. simpl. by rewrite lookup_insert_eq, Hdel.
      * apply not_elem_of_list_to_map in E. destruct Hs as (c1 & x & c2 & -> & _). set_solver.
    + rewrite not_elem_of_list_to_map_1 by done. eauto.
  - unfold RamDir_create_file. destruct (alloc _ _) as [f s1] eqn:Ha.
    apply alloc_inv in Ha as (Hf & Hh & _ & _ & Hold); [|done|done].
    destruct (Hold l _ Hl) as [Hlf Hl1]. unfold RamDir_insert.
    destruct (list_to_map cs !! name) as [x|] eqn:E.
    + destruct (has_child name cs); [|by discriminate (proj2 Hhc eq_refl)].
      eexists _, _. split; [done|]. split; [done|]. unfold dir_of. by rewrite Hl1.
    + rewrite (proj1 Hhc eq_refl). eexists _, _. split; [done|]. exists f. split_and!; [done|done| |].
      * unfold dir_of. simpl. rewrite lookup_insert_eq. f_equal. apply append_child_map.
        by apply not_elem_of_list_to_map.
      * simpl. by rewrite lookup_insert_ne, Hh, lookup_insert_eq.
Qed.

(** A root directory (location 0) holding the empty file [b"f"] (location 1). *)
Definition demo_store : store Empty_set unit :=
  mkStore {[ 0%nat := RamDir [] [([102], Ram 1%nat)]; 1%nat := RamFile [102] [] ]} ().

Lemma demo_store_inv : store_inv demo_store.
Proof.
  intros l dn cs. simpl. intros [[<- Hx]|[_ Hl]]%lookup_insert_Some.
  - injection Hx as <- <-. split; [apply NoDup_singleton|].
    intros name l' Hin%list_elem_of_singleton. injection Hin as -> ->. eexists. reflexivity.
  - apply lookup_singleton_Some in Hl as [_ ?]. done.
Qed.

Lemma ram_dir_is_map_witness :
  inode_lookup (Ram 0%nat) [102] demo_store = Done (Some (Ram 1%nat), demo_store) ∧
  ∃ r s', inode_insert (Ram 0%nat) [103] (Ram 1%nat) demo_store = Done (r, s').
Proof.
  split.
  - destruct (ram_dir_is_map demo_store 0 {[ [102] := Ram 1%nat ]} [102] (Ram 1%nat)) as (Hl & _);
      [exact demo_store_inv|reflexivity|]. rewrite Hl. reflexivity.
  - destruct (ram_dir_is_map demo_store 0 {[ [102] := Ram 1%nat ]} [103] (Ram 1%nat))
      as (_ & (r & s' & Hr & _) & _); [exact demo_store_inv|reflexivity|]. exists r, s'. exact Hr.
Defined.

(** C39: the file system stays well formed.  Every write, insert, create, mkdir
    and unlink on nodes of the store keeps the invariant: the names of each
    directory are distinct and every child exists. *)
Theorem ram_store_inv {D SD} `{INode D SD} (op : ram_op) (s s' : store D SD) :
  store_inv s → ram_op_ok op s → ram_do op s = Done s' → store_inv s'.
Proof. apply ram_do_inv. Qed.

Lemma ram_store_inv_witness :
  ∃ s', ram_do (RMkdir (Ram 0%nat) [100]) demo_store = Done s' ∧ store_inv s'.
Proof.
  eexists. split; [reflexivity|].
  apply (ram_store_inv (RMkdir (Ram 0%nat) [100]) demo_store); [exact demo_store_inv| |reflexivity].
  eexists. reflexivity.
Defined.

(* ------------------------------------------------------------------ *)
(** ** Path resolution over RAM directories *)

(** The table with [demo_store]'s root mounted at ["/"]. *)
Definition demo_table : list (mount_op (node Empty_set)) := [MMount [SLASH] (Ram 0%nat)].

(** ["/m"] after mounting there. *)
Lemma mount_then_lookup_witness :
  lookup_path (mount [SLASH; 109] (Ram 1%nat) (fold_left mount_do demo_table [])) [SLASH; 109] demo_store
  = Done (Some (Ram 1%nat), demo_store).
Proof. apply (mount_then_lookup demo_table [SLASH; 109] (Ram 1%nat) demo_store). reflexivity. Defined.

Lemma umount_undoes_mount_witness :
  ∃ t', umount [SLASH; 109] (mount [SLASH; 109] (Ram 1%nat) (fold_left mount_do demo_table [])) = (Ok (), t').
Proof.
  destruct (umount_undoes_mount demo_table [SLASH; 109] (Ram 1%nat)) as (_ & t' & Hu & _).
  - vm_compute. intros Hin. apply list_elem_of_singleton in Hin. discriminate.
  - exists t'. exact Hu.
Defined.

(** ["//f"] is ["/"] then ["f"]. *)
Lemma lookup_path_child_witness :
  lookup_path (fold_left mount_do demo_table []) ([SLASH] ++ SLASH :: [102]) demo_store
  = Done (Some (Ram 1%nat), demo_store).
Proof.
  rewrite (lookup_path_child demo_table (mkMountEntry [SLASH] (Ram 0%nat)) [SLASH] [102] demo_store).
  - reflexivity.
  - reflexivity.
  - reflexivity.
  - unfold no_slash. apply not_elem_of_cons. split; [discriminate|apply not_elem_of_nil].
  - discriminate.
Defined.
