(* ===== verification/Fd.v ===== *)
(** * File descriptors (kernel/src/fd.rs, the fd part of kernel/src/pipe.rs)

    The global table maps (task, fd) to a shared [OpenFile] (a location of a
    heap, as the code shares it by [Arc]): [dup] and [dup2] share the cursor,
    [clone_for_task] copies it.

    Shown here: [next_fd] is the lowest free descriptor from 3; operations of
    one task leave every other task's descriptors alone; the table never
    dangles; [dup] shares the cursor and a clone does not; descriptors from
    [open] come from a global counter and may replace an open descriptor. *)

From S2P Require Import Prelude Vfs.

Section fd.
Context {N S : Type} `{INode N S}.

Record OpenFile := mkOpenFile {
  of_inode : N;
  of_offset : Z;
}.

Record fds := mkFds {
  fd_table : gmap (Z * Z) loc;        (* FD_TABLE *)
  fd_files : gmap loc OpenFile;       (* the OpenFile objects *)
  fd_next : Z;                        (* NEXT_FD *)
}.

Definition fds_boot : fds := mkFds ∅ ∅ 3.

Definition set_table (t : gmap (Z * Z) loc) (f : fds) : fds := mkFds t (fd_files f) (fd_next f).

(** [Arc::new(OpenFile { .. })]. *)
Definition new_file (inode : N) (offset : Z) (f : fds) : loc * fds :=
  let l := fresh (dom (fd_files f)) in
  (l, mkFds (fd_table f) (<[l := mkOpenFile inode offset]> (fd_files f)) (fd_next f)).

(** New [OpenFile] inserted at a key, whatever was there. *)
Definition insert_file (k : Z * Z) (inode : N) (offset : Z) (f : fds) : fds :=
  let '(l, f) := new_file inode offset f in
  set_table (<[k := l]> (fd_table f)) f.

(* ------------------------------------------------------------------ *)
(** ** Operations *)

(** The part of [open] after the path is resolved. *)
Definition open_inode (task_id : Z) (inode : N) (f : fds) : Z * fds :=
  let fd := fd_next f in
  let f := mkFds (fd_table f) (fd_files f) (fd ⊞ 1) in
  (fd, insert_file (task_id, fd) inode 0 f).

Definition open (mounts : list (MountEntry N)) (task_id : Z) (path : str) (f : fds) (s : S)
    : outcome (option Z * fds * S) :=
  '(o, s) ← lookup_path mounts path s;
  match o with
  | None => Done (None, f, s)
  | Some inode =>
      let '(fd, f) := open_inode task_id inode f in
      Done (Some fd, f, s)
  end.

Definition close (task_id fd : Z) (f : fds) : bool * fds :=
  (bool_decide (is_Some (fd_table f !! (task_id, fd))),
   set_table (delete (task_id, fd) (fd_table f)) f).

Definition get (task_id fd : Z) (f : fds) : option loc := fd_table f !! (task_id, fd).

Definition set_offset (l : loc) (off : Z) (f : fds) : fds :=
  mkFds (fd_table f)
    (alter (λ o, mkOpenFile (of_inode o) off) l (fd_files f)) (fd_next f).

Definition seek (task_id fd offset : Z) (f : fds) : bool * fds :=
  match get task_id fd f with
  | Some l => (true, set_offset l offset f)
  | None => (false, f)
  end.

(** The [while] loop of [next_fd]; the fuel bounds its iterations. *)
Fixpoint next_fd_from (fuel : nat) (task_id fd : Z) (table : gmap (Z * Z) loc) : option Z :=
  match fuel with
  | O => None
  | Datatypes.S fuel =>
      if bool_decide (is_Some (table !! (task_id, fd)))
      then next_fd_from fuel task_id (fd + 1) table
      else Some fd
  end.

(** One more iteration than the table has entries is enough. *)
Definition next_fd (task_id : Z) (table : gmap (Z * Z) loc) : option Z :=
  next_fd_from (Datatypes.S (size table)) task_id 3 table.

Definition insert_inode (task_id : Z) (inode : N) (f : fds) : option (Z * fds) :=
  fd ← next_fd task_id (fd_table f);
  Some (fd, insert_file (task_id, fd) inode 0 f).

Definition dup (task_id old_fd : Z) (f : fds) : option (Z * fds) :=
  file ← get task_id old_fd f;
  new_fd ← next_fd task_id (fd_table f);
  Some (new_fd, set_table (<[(task_id, new_fd) := file]> (fd_table f)) f).

Definition dup2 (task_id old_fd new_fd : Z) (f : fds) : option Z * fds :=
  if old_fd =? new_fd then
    (if bool_decide (is_Some (fd_table f !! (task_id, old_fd))) then Some new_fd else None, f)
  else
    match fd_table f !! (task_id, old_fd) with
    | None => (None, f)
    | Some file =>
        let table := delete (task_id, new_fd) (fd_table f) in
        (Some new_fd, set_table (<[(task_id, new_fd) := file]> table) f)
    end.

(** One entry of the copy: a new [OpenFile] with the same inode and cursor. *)
Definition clone_entry (dst_task : Z) (e : Z * Z * loc) (f : fds) : fds :=
  match fd_files f !! e.2 with
  | Some file => insert_file (dst_task, e.1.2) (of_inode file) (of_offset file) f
  | None => f
  end.

Definition clone_for_task (src_task dst_task : Z) (f : fds) : fds :=
  let entries := filter (λ e, e.1.1 = src_task) (map_to_list (fd_table f)) in
  foldr (clone_entry dst_task) f entries.

Definition cleanup (task_id : Z) (f : fds) : fds :=
  set_table (filter (λ e, e.1.1 ≠ task_id) (fd_table f)) f.

(** [stdin], [stdout], [stderr] are the nodes of kernel/src/stdio.rs. *)
Definition init_stdio (stdin stdout stderr : N) (task_id : Z) (f : fds) : fds :=
  insert_file (task_id, 2) stderr 0
    (insert_file (task_id, 1) stdout 0 (insert_file (task_id, 0) stdin 0 f)).

(** kernel/src/pipe.rs: the two ends are the next two descriptors. *)
Definition create_pipe (task_id : Z) (read_end write_end : N) (f : fds) : option (Z * Z * fds) :=
  '(read_fd, f) ← insert_inode task_id read_end f;
  '(write_fd, f) ← insert_inode task_id write_end f;
  Some (read_fd, write_fd, f).
End fd.
Arguments OpenFile N : clear implicits.
Arguments fds N : clear implicits.

(* ------------------------------------------------------------------ *)
(** ** The lowest free descriptor *)

(** [k] consecutive descriptors from [fd] in use need [k] entries. *)
Lemma used_run_size (table : gmap (Z * Z) loc) (t fd : Z) (k : nat) :
  (∀ i, fd ≤ i < fd + Z.of_nat k → is_Some (table !! (t, i))) → (k ≤ size table)%nat.
Proof.
  intros Hu. rewrite <-size_dom.
  assert (list_to_set ((λ i, (t, i)) <$> seqZ fd (Z.of_nat k)) ⊆ dom table) as Hsub.
  { intros [t' i] (j & ? & Hj%elem_of_seqZ)%elem_of_list_to_set%list_elem_of_fmap. simplify_eq.
    apply elem_of_dom. apply Hu. lia. }
  apply subseteq_size in Hsub. rewrite size_list_to_set in Hsub.
  - by rewrite length_fmap, length_seqZ, Nat2Z.id in Hsub.
  - apply NoDup_fmap_2; [by intros ?? [=]|apply NoDup_seqZ].
Qed.

Lemma next_fd_from_spec (fuel : nat) (t fd : Z) (table : gmap (Z * Z) loc) (r : Z) :
  next_fd_from fuel t fd table = Some r →
  fd ≤ r ∧ table !! (t, r) = None ∧ ∀ i, fd ≤ i < r → is_Some (table !! (t, i)).
Proof.
  revert fd. induction fuel as [|fuel IH]; intros fd; simpl; [done|].
  case_bool_decide as E.
  - intros (? & ? & Hall)%IH. split_and!; [lia|done|]. intros i Hi.
    destruct (decide (i = fd)) as [->|]; [done|]. apply Hall. lia.
  - intros ?; simplify_eq. split_and!; [lia|by apply eq_None_not_Some|]. intros; lia.
Qed.

Lemma next_fd_from_total (fuel : nat) (t fd : Z) (table : gmap (Z * Z) loc) :
  next_fd_from fuel t fd table = None → ∀ i, fd ≤ i < fd + Z.of_nat fuel → is_Some (table !! (t, i)).
Proof.
  revert fd. induction fuel as [|fuel IH]; intros fd; simpl; [intros; lia|].
  case_bool_decide as E; [|done]. intros Hn i Hi.
  destruct (decide (i = fd)) as [->|]; [done|]. apply (IH (fd + 1)); [done|lia].
Qed.

Lemma next_fd_spec (t : Z) (table : gmap (Z * Z) loc) :
  ∃ r, next_fd t table = Some r ∧ 3 ≤ r ∧ table !! (t, r) = None ∧
    ∀ i, 3 ≤ i < r → is_Some (table !! (t, i)).
Proof.
  unfold next_fd. destruct (next_fd_from _ _ _ _) as [r|] eqn:E.
  - exists r. split; [done|]. by eapply next_fd_from_spec.
  - exfalso. pose proof (used_run_size table t 3 (S (size table)) (next_fd_from_total _ _ _ _ E)). lia.
Qed.

(* ------------------------------------------------------------------ *)
(** ** The table invariant *)

Section inv.
Context {N : Type}.
Implicit Types (f : fds N).

(** What a descriptor denotes: the inode and the cursor. *)
Definition view f (t fd : Z) : option (OpenFile N) :=
  l ← fd_table f !! (t, fd); fd_files f !! l.

Record fds_inv f : Prop := {
  (* the table does not dangle *)
  fi_dom : ∀ k l, fd_table f !! k = Some l → is_Some (fd_files f !! l);
  (* no two tasks share an OpenFile *)
  fi_priv : ∀ k1 k2 l, fd_table f !! k1 = Some l → fd_table f !! k2 = Some l → k1.1 = k2.1;
}.

Lemma view_is_open f t fd : fds_inv f → is_Some (view f t fd) ↔ is_Some (fd_table f !! (t, fd)).
Proof.
  intros Hi. unfold view. destruct (fd_table f !! (t, fd)) as [l|] eqn:E; simpl; [|done].
  destruct (fi_dom f Hi _ _ E) as [x ->]. by split; eexists.
Qed.

Lemma insert_file_spec k (i : N) off f :
  fds_inv f →
  fds_inv (insert_file k i off f) ∧ fd_next (insert_file k i off f) = fd_next f ∧
  ∀ t fd, view (insert_file k i off f) t fd =
    if bool_decide ((t, fd) = k) then Some (mkOpenFile i off) else view f t fd.
Proof.
  intros [Hd Hp]. unfold insert_file, new_file, view. simpl.
  set (l := fresh (dom (fd_files f))).
  assert (fd_files f !! l = None) as Hl by (apply not_elem_of_dom, is_fresh).
  assert (∀ k', fd_table f !! k' ≠ Some l) as Hnl.
  { intros k' Hk. destruct (Hd _ _ Hk) as [x Hx]. congruence. }
  clearbody l. split_and!.
  - split; simpl.
    + intros k' l' [[-> <-]|[_ Hk]]%lookup_insert_Some; [by rewrite lookup_insert_eq|].
      destruct (Hd _ _ Hk) as [x Hx]. rewrite lookup_insert_ne by congruence. by exists x.
    + intros k1 k2 l' [[<- <-]|[? H1]]%lookup_insert_Some [[<- E]|[? H2]]%lookup_insert_Some; try done.
      * by destruct (Hnl k2).
      * subst. by destruct (Hnl k1).
      * by eapply Hp.
  - done.
  - intros t fd. case_bool_decide as E.
    + rewrite E, lookup_insert_eq. simpl. by rewrite lookup_insert_eq.
    + rewrite lookup_insert_ne by congruence. destruct (fd_table f !! (t, fd)) as [l'|] eqn:E'; simpl; [|done].
      rewrite lookup_insert_ne; [done|]. intros ->. by destruct (Hnl (t, fd)).
Qed.

Lemma init_stdio_view (i o e : N) t f :
  fds_inv f →
  let f' := init_stdio i o e t f in
  view f' t 0 = Some (mkOpenFile i 0) ∧ view f' t 1 = Some (mkOpenFile o 0) ∧ view f' t 2 = Some (mkOpenFile e 0).
Proof.
  intros Hf. unfold init_stdio.
  destruct (insert_file_spec (t, 0) i 0 f Hf) as (Hi0 & _ & Hv0).
  destruct (insert_file_spec (t, 1) o 0 _ Hi0) as (Hi1 & _ & Hv1).
  destruct (insert_file_spec (t, 2) e 0 _ Hi1) as (_ & _ & Hv2). rewrite !Hv2, !Hv1, !Hv0.
  by split_and!; repeat case_bool_decide.
Qed.

(** Removing table entries, or binding a task's descriptor to a file of the
    same task, keeps the invariant. *)
Lemma fds_inv_sub f (table : gmap (Z * Z) loc) :
  fds_inv f → table ⊆ fd_table f → fds_inv (set_table table f).
Proof.
  intros [Hd Hp] Hs. split; simpl.
  - intros k l Hk. eapply Hd. by eapply lookup_weaken.
  - intros k1 k2 l H1 H2. eapply Hp; by eapply lookup_weaken.
Qed.

Lemma fds_inv_alias f (table : gmap (Z * Z) loc) (t old new : Z) l :
  fds_inv f → table ⊆ fd_table f → fd_table f !! (t, old) = Some l →
  fds_inv (set_table (<[(t, new) := l]> table) f).
Proof.
  intros [Hd Hp] Hs Ho. split; simpl.
  - intros k l' [[<- <-]|[_ Hk]]%lookup_insert_Some; [by eapply Hd|]. eapply Hd. by eapply lookup_weaken.
  - intros k1 k2 l' [[<- E1]|[? H1]]%lookup_insert_Some [[<- E2]|[? H2]]%lookup_insert_Some; subst; try done.
    + apply (Hp (t, old) k2 l'); [done|by eapply lookup_weaken].
    + symmetry. apply (Hp (t, old) k1 l'); [done|by eapply lookup_weaken].
    + eapply Hp; by eapply lookup_weaken.
Qed.

Lemma fds_inv_offset f l off : fds_inv f → fds_inv (set_offset l off f).
Proof.
  intros [Hd Hp]. split; simpl; [|done]. intros k l' Hk. apply lookup_alter_is_Some. by eapply Hd.
Qed.

(** One entry of a clone. *)
Lemma clone_entry_spec dst e f file :
  fds_inv f → fd_files f !! e.2 = Some file →
  fds_inv (clone_entry dst e f) ∧
  (∀ t fd, view (clone_entry dst e f) t fd =
     if bool_decide ((t, fd) = (dst, e.1.2)) then Some (mkOpenFile (of_inode file) (of_offset file))
     else view f t fd) ∧
  (∀ l x, fd_files f !! l = Some x → fd_files (clone_entry dst e f) !! l = Some x).
Proof.
  intros Hi He. unfold clone_entry. rewrite He.
  destruct (insert_file_spec (dst, e.1.2) (of_inode file) (of_offset file) f Hi) as (? & _ & ?).
  split_and!; [done..|]. intros l x Hl. unfold insert_file, new_file. simpl.
  rewrite lookup_insert_ne; [done|]. intros <-.
  assert (fd_files f !! fresh (dom (fd_files f)) = None) by (apply not_elem_of_dom, is_fresh). congruence.
Qed.
Lemma clone_fold_spec (dst : Z) f (es : list (Z * Z * loc)) :
  fds_inv f → (∀ e, e ∈ es → fd_table f !! e.1 = Some e.2) → NoDup ((λ e, e.1.2) <$> es) →
  let f' := foldr (clone_entry dst) f es in
  fds_inv f' ∧ (∀ l x, fd_files f !! l = Some x → fd_files f' !! l = Some x) ∧
  (∀ t fd, t ≠ dst → view f' t fd = view f t fd) ∧
  (∀ fd, fd ∉ ((λ e, e.1.2) <$> es) → view f' dst fd = view f dst fd) ∧
  (∀ e, e ∈ es → view f' dst e.1.2 = fd_files f !! e.2).
Proof.
  intros Hi. induction es as [|e es IH]; intros Hin Hnd; simpl.
  { split_and!; try done. set_solver. }
  apply NoDup_cons in Hnd as [Hne Hnd].
  destruct IH as (Hi' & Hold & Hoth & Hout & Hent); [set_solver|done|].
  set (f1 := foldr (clone_entry dst) f es) in *.
  destruct (fi_dom f Hi e.1 e.2) as [file Hf]; [apply Hin; by left|].
  destruct (clone_entry_spec dst e f1 file Hi' (Hold _ _ Hf)) as (Hi2 & Hv & Hold2).
  split_and!; [done|by eauto|..].
  - intros t fd Ht. rewrite Hv, bool_decide_eq_false_2 by congruence. auto.
  - intros fd [??]%not_elem_of_cons. rewrite Hv, bool_decide_eq_false_2 by congruence. auto.
  - intros e' [->|He']%elem_of_cons.
    + rewrite Hv, bool_decide_eq_true_2, Hf by done. by destruct file.
    + rewrite Hv, bool_decide_eq_false_2; [by apply Hent|]. intros [= E]. apply Hne. rewrite <-E.
      apply list_elem_of_fmap. eauto.
Qed.

Lemma clone_spec (src dst : Z) f :
  fds_inv f → src ≠ dst →
  fds_inv (clone_for_task src dst f) ∧
  ∀ t fd, view (clone_for_task src dst f) t fd =
    if bool_decide (t = dst) then
      match view f src fd with Some v => Some v | None => view f dst fd end
    else view f t fd.
Proof.
  intros Hi Hne. unfold clone_for_task.
  set (es := filter (λ e : Z * Z * loc, e.1.1 = src) (map_to_list (fd_table f))).
  assert (∀ t fd l, (t, fd, l) ∈ es ↔ t = src ∧ fd_table f !! (t, fd) = Some l) as Hes.
  { intros t fd l. unfold es. rewrite list_elem_of_filter, elem_of_map_to_list. done. }
  destruct (clone_fold_spec dst f es Hi) as (Hi' & _ & Hoth & Hout & Hent).
  - intros [[t fd] l] [_ ?]%Hes. done.
  - apply NoDup_fmap_2_strong; [|apply NoDup_filter, NoDup_map_to_list].
    intros [[t1 fd1] l1] [[t2 fd2] l2] [-> H1]%Hes [-> H2]%Hes. simpl. intros ->. congruence.
  - split; [done|]. intros t fd. case_bool_decide as E; [subst|by apply Hoth].
    unfold view at 2. destruct (fd_table f !! (src, fd)) as [l|] eqn:El; simpl.
    + pose proof (Hent (src, fd, l) (proj2 (Hes _ _ _) (conj eq_refl El))) as Hv. simpl in Hv.
      rewrite Hv. by destruct (fi_dom f Hi _ _ El) as [x ->].
    + apply Hout. intros ([[t' fd'] l'] & -> & [-> Hin]%Hes)%list_elem_of_fmap. simpl in El. congruence.
Qed.

(* ------------------------------------------------------------------ *)
(** ** Operations of a task *)

Inductive fd_op :=
  | FOpen (inode : N)
  | FClose (fd : Z)
  | FSeek (fd offset : Z)
  | FInsert (inode : N)
  | FDup (fd : Z)
  | FDup2 (old new : Z)
  | FStdio (stdin stdout stderr : N)
  | FCleanup.

Definition fd_do (t : Z) (op : fd_op) f : fds N :=
  match op with
  | FOpen i => (open_inode t i f).2
  | FClose fd => (close t fd f).2
  | FSeek fd off => (seek t fd off f).2
  | FInsert i => match insert_inode t i f with Some (_, f) => f | None => f end
  | FDup fd => match dup t fd f with Some (_, f) => f | None => f end
  | FDup2 a b => (dup2 t a b f).2
  | FStdio i o e => init_stdio i o e t f
  | FCleanup => cleanup t f
  end.

Lemma set_offset_view l off f t fd :
  view (set_offset l off f) t fd =
  match fd_table f !! (t, fd) with
  | Some l' => (if bool_decide (l' = l) then (λ o, mkOpenFile (of_inode o) off) <$> fd_files f !! l'
                else fd_files f !! l')
  | None => None
  end.
Proof.
  unfold view, set_offset. simpl. destruct (fd_table f !! (t, fd)) as [l'|]; simpl; [|done].
  case_bool_decide; [subst; by rewrite lookup_alter_eq|by rewrite lookup_alter_ne].
Qed.

Lemma seek_other t fd off f t' fd' :
  fds_inv f → t' ≠ t → view (seek t fd off f).2 t' fd' = view f t' fd'.
Proof.
  intros Hi Hne. unfold seek, get. destruct (fd_table f !! (t, fd)) as [l|] eqn:E; [|done]. simpl.
  rewrite set_offset_view. unfold view. destruct (fd_table f !! (t', fd')) as [l'|] eqn:E'; [|done].
  rewrite bool_decide_eq_false_2; [done|]. intros ->.
  apply Hne. apply (fi_priv f Hi (t', fd') (t, fd) l E' E).
Qed.

(** Every operation keeps the invariant and the other tasks' descriptors. *)
Lemma fd_do_spec t op f :
  fds_inv f → fds_inv (fd_do t op f) ∧ ∀ t' fd', t' ≠ t → view (fd_do t op f) t' fd' = view f t' fd'.
Proof.
  intros Hi. destruct op as [i|fd|fd off|i|fd|a b|i o e|]; simpl.
  - unfold open_inode. simpl.
    destruct (insert_file_spec (t, fd_next f) i 0 (mkFds (fd_table f) (fd_files f) (fd_next f ⊞ 1)))
      as (? & _ & Hv); [by destruct Hi|]. split; [done|].
    intros t' fd' Hne. rewrite Hv, bool_decide_eq_false_2 by congruence. done.
  - split; [apply fds_inv_sub; [done|apply delete_subseteq]|].
    intros t' fd' Hne. unfold view. simpl. by rewrite lookup_delete_ne by congruence.
  - split; [|by intros; apply seek_other]. unfold seek. destruct (get t fd f); [|done].
    by apply fds_inv_offset.
  - unfold insert_inode. destruct (next_fd_spec t (fd_table f)) as (r & -> & _). simpl.
    destruct (insert_file_spec (t, r) i 0 f Hi) as (? & _ & Hv). split; [done|].
    intros t' fd' Hne. by rewrite Hv, bool_decide_eq_false_2 by congruence.
  - unfold dup, get. destruct (fd_table f !! (t, fd)) as [l|] eqn:E; simpl; [|done].
    destruct (next_fd_spec t (fd_table f)) as (r & -> & _). simpl.
    split; [by eapply fds_inv_alias|]. intros t' fd' Hne. unfold view. simpl.
    by rewrite lookup_insert_ne by congruence.
  - unfold dup2. destruct (a =? b); [done|]. destruct (fd_table f !! (t, a)) as [l|] eqn:E; [|done]. simpl.
    split; [eapply fds_inv_alias; [done|apply delete_subseteq|done]|].
    intros t' fd' Hne. unfold view. simpl. by rewrite lookup_insert_ne, lookup_delete_ne by congruence.
  - unfold init_stdio.
    destruct (insert_file_spec (t, 0) i 0 f Hi) as (Hi0 & _ & Hv0).
    destruct (insert_file_spec (t, 1) o 0 _ Hi0) as (Hi1 & _ & Hv1).
    destruct (insert_file_spec (t, 2) e 0 _ Hi1) as (Hi2 & _ & Hv2). split; [done|].
    intros t' fd' Hne. by rewrite Hv2, Hv1, Hv0, !bool_decide_eq_false_2 by congruence.
  - unfold cleanup. split; [apply fds_inv_sub; [done|apply map_filter_subseteq]|].
    intros t' fd' Hne. unfold view. simpl. rewrite map_lookup_filter.
    destruct (fd_table f !! (t', fd')); simpl; [|done]. by rewrite option_guard_True.
Qed.

(** A run: operations of tasks, and spawns copying descriptors to a new task. *)
Inductive sys_op := SOp (t : Z) (op : fd_op) | SClone (src dst : Z).

Definition sys_do f (op : sys_op) : fds N :=
  match op with
  | SOp t op => fd_do t op f
  | SClone src dst => if src =? dst then f else clone_for_task src dst f
  end.

Lemma sys_run_inv ops f : fds_inv f → fds_inv (fold_left sys_do ops f).
Proof.
  revert f. induction ops as [|[t op|src dst] ops IH]; intros f Hi; simpl; [done|..]; apply IH.
  - by apply fd_do_spec.
  - destruct (Z.eqb_spec src dst); [done|]. by apply clone_spec.
Qed.

Lemma fds_inv_boot : fds_inv fds_boot.
Proof. split; simpl; intros *; by rewrite lookup_empty. Qed.
End inv.

(* ------------------------------------------------------------------ *)
(** ** Properties *)

(** C36: descriptors are private.  In every state reachable from boot, any
    operation a task makes on its descriptors leaves what every other task's
    descriptors denote (the inode and the cursor) unchanged, and no descriptor
    dangles. *)
Theorem fd_isolation {N} (ops : list (@sys_op N)) (t : Z) (op : @fd_op N) :
  let f := fold_left sys_do ops fds_boot in
  (∀ t' fd, t' ≠ t → view (fd_do t op f) t' fd = view f t' fd) ∧
  (∀ t' fd, is_Some (fd_table f !! (t', fd)) → is_Some (view f t' fd)).
Proof.
  intros f. assert (fds_inv f) as Hi by (apply sys_run_inv, fds_inv_boot). split.
  - intros t' fd Hne. by apply fd_do_spec.
  - intros t' fd. by apply view_is_open.
Qed.

(** [dup] and [insert_inode] take the lowest free descriptor from 3, and a
    duplicate shares the cursor: both descriptors denote the same open file,
    and a seek on one moves the other. *)
Theorem dup_lowest_and_shared {N} (ops : list (@sys_op N)) (t fd off : Z) (v : OpenFile N) :
  let f := fold_left sys_do ops fds_boot in
  view f t fd = Some v →
  ∃ new f', dup t fd f = Some (new, f') ∧ 3 ≤ new ∧ view f t new = None ∧
    (∀ i, 3 ≤ i < new → is_Some (view f t i)) ∧
    view f' t new = Some v ∧ view f' t fd = Some v ∧
    view (seek t new off f').2 t fd = Some (mkOpenFile (of_inode v) off) ∧
    view (seek t fd off f').2 t new = Some (mkOpenFile (of_inode v) off).
Proof.
  intros f Hv. assert (fds_inv f) as Hi by (apply sys_run_inv, fds_inv_boot).
  clearbody f. unfold view in Hv. destruct (fd_table f !! (t, fd)) as [l|] eqn:El; [|done]. simpl in Hv.
  unfold dup, get. rewrite El. simpl.
  destruct (next_fd_spec t (fd_table f)) as (r & -> & Hr3 & Hfree & Hused). simpl.
  assert (r ≠ fd) by congruence. eexists _, _. split; [done|]. split_and!.
  - done.
  - unfold view. by rewrite Hfree.
  - intros i ?%Hused. by apply view_is_open.
  - unfold view. simpl. rewrite lookup_insert_eq. simpl. done.
  - unfold view. simpl. rewrite lookup_insert_ne, El by congruence. done.
  - unfold seek, get. simpl. rewrite lookup_insert_eq. cbn [snd]. rewrite set_offset_view. simpl.
    rewrite lookup_insert_ne, El, bool_decide_eq_true_2, Hv by congruence. done.
  - unfold seek, get. simpl. rewrite lookup_insert_ne, El by congruence. cbn [snd]. rewrite set_offset_view. simpl.
    rewrite lookup_insert_eq, bool_decide_eq_true_2, Hv by done. done.
Qed.

Lemma dup_lowest_and_shared_witness :
  ∃ new f', dup 1 0 (fold_left sys_do [SOp 1 (FStdio 10%nat 11%nat 12%nat)] fds_boot) = Some (new, f') ∧
    3 ≤ new ∧ view f' 1 new = Some (mkOpenFile 10%nat 0).
Proof.
  destruct (dup_lowest_and_shared [SOp 1 (FStdio 10%nat 11%nat 12%nat)] 1 0 5 (mkOpenFile 10%nat 0))
    as (new & f' & Hd & H3 & _ & _ & Hv & _); [vm_compute; reflexivity|].
  exists new, f'. split; [exact Hd|]. split; [exact H3|exact Hv].
Defined.

(** A clone copies cursors.  [clone_for_task] gives the destination every
    descriptor of the source with the same inode and cursor, keeps the others,
    leaves all other tasks alone, and later seeks by the parent do not move
    the child's cursor. *)
Theorem clone_independent {N} (ops : list (@sys_op N)) (src dst fd off : Z) :
  let f := fold_left sys_do ops fds_boot in
  src ≠ dst →
  let f' := clone_for_task src dst f in
  (∀ t i, view f' t i =
     if bool_decide (t = dst) then
       match view f src i with Some v => Some v | None => view f dst i end
     else view f t i) ∧
  (∀ i, view (seek src fd off f').2 dst i = view f' dst i).
Proof.
  intros f Hne f'. assert (fds_inv f) as Hi by (apply sys_run_inv, fds_inv_boot).
  destruct (clone_spec src dst f Hi Hne) as [Hi' Hv]. split; [done|].
  intros i. by apply seek_other.
Qed.

Lemma clone_independent_witness :
  view (seek 1 0 99 (clone_for_task 1 2
    (fold_left sys_do [SOp 1 (FStdio 10%nat 11%nat 12%nat)] fds_boot))).2 2 0 = Some (mkOpenFile 10%nat 0).
Proof.
  destruct (clone_independent [SOp 1 (FStdio 10%nat 11%nat 12%nat)] 1 2 0 99) as [_ Hs]; [discriminate|].
  rewrite Hs. vm_compute. reflexivity.
Defined.

(** [open] can replace an open descriptor.  Descriptors of [open] come
    from the global counter [NEXT_FD] without looking at the table, while
    [dup] and [pipe] take the lowest free one: whenever the descriptor the
    counter stands at is in use by the task, [open] silently replaces it. *)
Theorem open_replaces_descriptor {N} (f : fds N) (t : Z) (v : OpenFile N) (inode : N) :
  fds_inv f → view f t (fd_next f) = Some v →
  ∃ f', open_inode t inode f = (fd_next f, f') ∧
    view f' t (fd_next f) = Some (mkOpenFile inode 0).
Proof.
  intros Hi Hv. unfold open_inode. simpl. eexists. split; [done|].
  destruct (insert_file_spec (t, fd_next f) inode 0 (mkFds (fd_table f) (fd_files f) (fd_next f ⊞ 1)))
    as (_ & _ & Hv'); [by destruct Hi|]. by rewrite Hv', bool_decide_eq_true_2.
Qed.

(** A new task opens a pipe end first: it gets descriptor 3; the next [open]
    returns 3 again. *)
Lemma open_replaces_descriptor_witness :
  ∃ f', open_inode 1 20%nat (fold_left sys_do [SOp 1 (FInsert 10%nat)] fds_boot) = (3, f') ∧
    view f' 1 3 = Some (mkOpenFile 20%nat 0).
Proof.
  apply (open_replaces_descriptor (fold_left sys_do [SOp 1 (FInsert 10%nat)] fds_boot) 1
    (mkOpenFile 10%nat 0) 20%nat); [apply sys_run_inv, fds_inv_boot|vm_compute; reflexivity].
Defined.
