(* ===== verification/Memory.v ===== *)
(** * Physical frames, kernel stacks and the SLUB allocator
      (memory/src/lib.rs, heap.rs, kstack.rs, slub.rs)

    Frames and pages are identified by their base addresses.  The page tables
    are those of the x86_64 crate, which is not part of this repository: they
    are a type [PT] with the class [Mapper] stating what the crate documents of
    [map_to] and translation.  The boot frame allocator of heap.rs is concrete.

    Shown here: a boot frame is never handed out twice; live SLUB blocks never
    overlap, whatever the sequence of allocations and frees; kernel stacks are
    disjoint, mapped page by page to distinct frames, and inside their region;
    a new address space shares exactly the upper half. *)

From S2P Require Import Prelude.

Definition PAGE_SIZE : Z := 4096.

(* ------------------------------------------------------------------ *)
(** ** The boot frame allocator (heap.rs) *)

Definition MAX_BOOT_FRAMES : Z := 65536.

(** [BOOT_FRAMES] and the cursor over it. *)
Record falloc := mkFalloc {
  fa_frames : list (option Z);
  fa_next : Z;
  fa_limit : Z;
}.

Definition StaticBootFrameAllocator_new (frames : list (option Z)) (frame_count : Z) : falloc :=
  mkFalloc frames 0 frame_count.

(** The [while] loop of [allocate_frame]; [fuel] bounds its iterations. *)
Fixpoint allocate_frame_loop (fuel : nat) (a : falloc) : outcome (option Z * falloc) :=
  match fuel with
  | O => Done (None, a)
  | S fuel =>
      if fa_next a <? fa_limit a then
        e ← idx (fa_frames a) (fa_next a);
        match e with
        | Some frame =>
            Done (Some frame, mkFalloc (zset (fa_frames a) (fa_next a) None) (fa_next a + 1) (fa_limit a))
        | None => allocate_frame_loop fuel (mkFalloc (fa_frames a) (fa_next a + 1) (fa_limit a))
        end
      else Done (None, a)
  end.

(** At most [limit - next] iterations. *)
Definition allocate_frame (a : falloc) : outcome (option Z * falloc) :=
  allocate_frame_loop (S (Z.to_nat (fa_limit a - fa_next a))) a.

(** The frames still to be handed out, in order. *)
Definition frames_left (a : falloc) : list Z :=
  omap id (zslice (fa_frames a) (fa_next a) (fa_limit a)).

Definition falloc_ok (a : falloc) : Prop :=
  0 ≤ fa_next a ≤ fa_limit a ∧ fa_limit a ≤ zlen (fa_frames a).

(* ------------------------------------------------------------------ *)
(** ** Usable frames of the memory map (lib.rs) *)

(** A region of the boot loader's map: usable or not, base, length. *)
Record region := mkRegion {
  rg_usable : bool;
  rg_base : Z;
  rg_length : Z;
}.

(** [containing_address]: round down to a page. *)
Definition containing (a : Z) : Z := Z.shiftl (Z.shiftr a 12) 12.

(** [range_inclusive(start, end)], in page steps. *)
Definition range_inclusive (s e : Z) : list Z :=
  (λ i, s + i * PAGE_SIZE) <$> seqZ 0 ((e - s) `div` PAGE_SIZE + 1).

#[global] Arguments containing : simpl never.
#[global] Arguments range_inclusive : simpl never.

Definition region_frames (r : region) : list Z :=
  let start := rg_base r in
  let end_ := rg_base r ⊞ rg_length r in
  range_inclusive (containing start) (containing (end_ ⊟ 1)).

Record BootFrameAllocator := mkBootFrameAllocator {
  bf_frames : list Z;
  bf_next : Z;
}.

Definition BootFrameAllocator_new (memory_map : list region) : BootFrameAllocator :=
  mkBootFrameAllocator (concat (region_frames <$> filter (λ r, rg_usable r = true) memory_map)) 0.

Definition BootFrameAllocator_allocate_frame (b : BootFrameAllocator)
    : outcome (option Z * BootFrameAllocator) :=
  if bf_next b <? zlen (bf_frames b) then
    frame ← idx (bf_frames b) (bf_next b);
    Done (Some frame, mkBootFrameAllocator (bf_frames b) (bf_next b + 1))
  else Done (None, b).

(* ------------------------------------------------------------------ *)
(** ** Page tables: the interface of the x86_64 crate *)

Inductive map_result :=
  | MapOk
  | MapAlreadyMapped (existing : Z)
  | MapFailed.                     (* no frame for a table, or a huge page *)

(** [advance a a']: [a'] is [a] after some allocations. *)
Inductive advance : falloc → falloc → Prop :=
  | advance_refl a : advance a a
  | advance_step a f a1 a2 : allocate_frame a = Done (f, a1) → advance a1 a2 → advance a a2.

Class Mapper (PT : Type) := {
  (* the frame a page is mapped to *)
  translate : PT → Z → option Z;
  map_to : Z → Z → Z → falloc → PT → map_result * falloc * PT;
  (* a mapping is added only to an unmapped page, and only that one *)
  map_to_ok : ∀ page frame flags a t a' t',
    map_to page frame flags a t = (MapOk, a', t') →
    translate t page = None ∧ translate t' page = Some frame ∧
    ∀ q, q ≠ page → translate t' q = translate t q;
  (* otherwise no mapping changes *)
  map_to_err : ∀ page frame flags a t r a' t',
    map_to page frame flags a t = (r, a', t') → r ≠ MapOk → ∀ q, translate t' q = translate t q;
  map_to_already : ∀ page frame flags a t existing a' t',
    map_to page frame flags a t = (MapAlreadyMapped existing, a', t') →
    translate t page = Some existing;
  (* a page that is mapped is reported, not remapped *)
  map_to_mapped : ∀ page frame flags a t existing,
    translate t page = Some existing →
    ∃ r a' t', map_to page frame flags a t = (r, a', t') ∧ r ≠ MapOk;
  (* frames for intermediate tables come from the allocator *)
  map_to_advance : ∀ page frame flags a t r a' t',
    map_to page frame flags a t = (r, a', t') → advance a a';
}.

(** [map_to] takes at most three frames, for tables; on a page that is not inside a
    huge page ([mappable]) it fails only for want of frames; and it makes no huge
    pages. *)
Class MapperBudget (PT : Type) `{Mapper PT} := {
  mappable : PT → Z → Prop;
  map_to_uses : ∀ page frame flags a t r a' t',
    map_to page frame flags a t = (r, a', t') → falloc_ok a → zlen (frames_left a) ≤ zlen (frames_left a') + 3;
  map_to_mappable : ∀ page frame flags a t r a' t' p,
    map_to page frame flags a t = (r, a', t') → mappable t p → mappable t' p;
  map_to_total : ∀ page frame flags a t r a' t',
    map_to page frame flags a t = (r, a', t') → mappable t page → falloc_ok a → 3 ≤ zlen (frames_left a) →
    r ≠ MapFailed;
}.

(** [PageTableFlags]. *)
Definition FLAG_PRESENT : Z := 1.
Definition FLAG_WRITABLE : Z := 2.
Definition FLAG_USER : Z := 4.
Definition FLAG_NO_EXECUTE : Z := 2 ^ 63.

Section mapped.
Context {PT : Type} `{Mapper PT}.

(** The global [PAGE_ALLOC]: page table and frames. *)
Record PageAllocator := mkPageAllocator {
  pa_mapper : PT;
  pa_frame_alloc : falloc;
}.

(** The loop [for i in 0..n_pages] of the three allocators: map the pages
    [va, va + 4096, ..] to fresh frames; [false] when a frame or a mapping
    fails (the [?]), the pages mapped so far staying mapped. *)
Fixpoint map_pages (n : nat) (va flags : Z) (pa : PageAllocator) : outcome (bool * PageAllocator) :=
  match n with
  | O => Done (true, pa)
  | S n =>
      '(fo, fa) ← allocate_frame (pa_frame_alloc pa);
      match fo with
      | None => Done (false, mkPageAllocator (pa_mapper pa) fa)
      | Some frame =>
          let '(r, fa, t) := map_to (containing va) frame flags fa (pa_mapper pa) in
          match r with
          | MapOk => map_pages n (va ⊞ PAGE_SIZE) flags (mkPageAllocator t fa)
          | _ => Done (false, mkPageAllocator t fa)
          end
      end
  end.

(* ------------------------------------------------------------------ *)
(** ** Kernel stacks (kstack.rs) *)

Definition KSTACK_VA_START : Z := 0xFFFFB00000000000.
Definition KSTACK_VA_END : Z := 0xFFFFD00000000000.
Definition KSTACK_FLAGS : Z := Z.lor FLAG_PRESENT (Z.lor FLAG_WRITABLE FLAG_NO_EXECUTE).

(** [next] is the global allocator's [next_va]; the result is the stack top. *)
Definition alloc_kernel_stack (size : Z) (next : Z) (pa : option PageAllocator)
    : outcome (option Z * Z * option PageAllocator) :=
  if (size =? 0) || negb (size `mod` 4096 =? 0) then Done (None, next, pa)
  else
    let base := next in
    if KSTACK_VA_END <? base ⊞ size then Done (None, next, pa)
    else
      let next := next ⊞ size in
      match pa with
      | None => Done (None, next, None)
      | Some p =>
          '(ok, p) ← map_pages (Z.to_nat (size `div` 4096)) base KSTACK_FLAGS p;
          Done (if ok : bool then Some (base ⊞ size) else None, next, Some p)
      end.

(** One stack is allocated at boot, so that the region's tables exist. *)
Definition init_kstack_region (next : Z) (pa : option PageAllocator)
    : outcome (option unit * Z * option PageAllocator) :=
  '(r, next, pa) ← alloc_kernel_stack (1024 * 1024) next pa;
  Done (match r with Some _ => Some tt | None => None end, next, pa).

(** The method of [KStackAllocator], which advances only on success. *)
Definition KStackAllocator_alloc (size : Z) (next : Z) (pa : PageAllocator)
    : outcome (option Z * Z * PageAllocator) :=
  if (size =? 0) || negb (size `mod` 4096 =? 0) then Done (None, next, pa)
  else
    let base := next in
    if KSTACK_VA_END <? base ⊞ size then Done (None, next, pa)
    else
      '(ok, pa) ← map_pages (Z.to_nat (size `div` 4096)) base KSTACK_FLAGS pa;
      Done (if ok : bool then (Some (base ⊞ size), next ⊞ size, pa) else (None, next, pa)).

(* ------------------------------------------------------------------ *)
(** ** SLUB (slub.rs) *)

Definition NUM_SIZE_CLASSES : Z := 9.
Definition SIZE_CLASSES : list Z :=
  [0x1000; 0x2000; 0x4000; 0x8000; 0x10000; 0x20000; 0x40000; 0x80000; 0x100000].
Definition SLUB_VA_START : Z := 0xFFFFD00000000000.

Record SlubCache := mkSlubCache {
  sc_size : Z;
  sc_free_list : list Z;
}.

Record SlubAllocator := mkSlubAllocator {
  sl_caches : list SlubCache;
  sl_next_va : Z;
}.

Definition SlubAllocator_new : SlubAllocator :=
  mkSlubAllocator ((λ size, mkSlubCache size []) <$> SIZE_CLASSES) SLUB_VA_START.

(** [iter().position(|&s| s >= size)]. *)
Definition size_class_index (size : Z) : option nat :=
  fst <$> list_find (λ s, size ≤ s) SIZE_CLASSES.

(** [Vec::pop]: the last element. *)
Definition vec_pop {A} (l : list A) : option (A * list A) :=
  match last l with
  | Some x => Some (x, take (length l - 1) l)
  | None => None
  end.

Definition SlubAllocator_alloc (size : Z) (sl : SlubAllocator) (pa : option PageAllocator)
    : outcome (option Z * SlubAllocator * option PageAllocator) :=
  match size_class_index size with
  | None => Done (None, sl, pa)
  | Some i =>
      cache ← unwrap (sl_caches sl !! i);
      match vec_pop (sc_free_list cache) with
      | Some (ptr, rest) =>
          Done (Some ptr,
                mkSlubAllocator (<[i := mkSlubCache (sc_size cache) rest]> (sl_caches sl)) (sl_next_va sl),
                pa)
      | None =>
          match pa with
          | None => Done (None, sl, pa)
          | Some p =>
              '(ok, p) ← map_pages (Z.to_nat (sc_size cache `div` 4096)) (sl_next_va sl) KSTACK_FLAGS p;
              Done (if ok : bool
                    then (Some (sl_next_va sl),
                          mkSlubAllocator (sl_caches sl) (sl_next_va sl ⊞ sc_size cache), Some p)
                    else (None, sl, Some p))
          end
      end
  end.

Definition SlubAllocator_free (ptr size : Z) (sl : SlubAllocator) : outcome SlubAllocator :=
  match size_class_index size with
  | None => Done sl
  | Some i =>
      cache ← unwrap (sl_caches sl !! i);
      Done (mkSlubAllocator
        (<[i := mkSlubCache (sc_size cache) (sc_free_list cache ++ [ptr])]> (sl_caches sl))
        (sl_next_va sl))
  end.

(** [alloc_kernel_object]: small objects come from the global heap (a
    third-party allocator, [heap_alloc]), the others from the SLUB. *)
Definition alloc_kernel_object {H} (heap_alloc : Z → H → option Z * H)
    (size : Z) (h : H) (slub : option SlubAllocator) (pa : option PageAllocator)
    : outcome (option Z * H * option SlubAllocator * option PageAllocator) :=
  if size <? 4096 then
    let '(p, h) := heap_alloc size h in Done (p, h, slub, pa)
  else
    match slub with
    | None => Done (None, h, None, pa)
    | Some sl => '(p, sl, pa) ← SlubAllocator_alloc size sl pa; Done (p, h, Some sl, pa)
    end.

(** The stack top of a SLUB block; its guard page is disabled in the code. *)
Definition slub_alloc_kernel_stack {H} (heap_alloc : Z → H → option Z * H)
    (size : Z) (h : H) (slub : option SlubAllocator) (pa : option PageAllocator)
    : outcome (option Z * H * option SlubAllocator * option PageAllocator) :=
  '(p, h, slub, pa) ← alloc_kernel_object heap_alloc size h slub pa;
  Done (match p with Some base => Some (base ⊞ size) | None => None end, h, slub, pa).

Definition slub_init (slub : option SlubAllocator) : option SlubAllocator :=
  match slub with Some sl => Some sl | None => Some SlubAllocator_new end.

Definition free_kernel_object {H} (heap_free : Z → Z → H → H)
    (ptr size : Z) (h : H) (slub : option SlubAllocator) : outcome (H * option SlubAllocator) :=
  if size <? 4096 then Done (heap_free ptr size h, slub)
  else
    match slub with
    | None => Done (h, None)
    | Some sl => sl ← SlubAllocator_free ptr size sl; Done (h, Some sl)
    end.

(* ------------------------------------------------------------------ *)
(** ** The kernel heap's pages (heap.rs) *)

Definition HEAP_START : Z := 0xFFFFC00000000000.
Definition HEAP_SIZE : Z := 1024 * 1024.

(** [init_heap]: every page must be mapped ([expect]). *)
Definition init_heap (pa : PageAllocator) : outcome PageAllocator :=
  let start := containing HEAP_START in
  let last := containing (HEAP_START + HEAP_SIZE - 1) in
  for_each (range_inclusive start last)
    (λ page pa,
      '(fo, fa) ← allocate_frame (pa_frame_alloc pa);
      frame ← unwrap fo;
      let '(r, fa, t) := map_to page frame (Z.lor FLAG_PRESENT FLAG_WRITABLE) fa (pa_mapper pa) in
      match r with MapOk => Done (mkPageAllocator t fa) | _ => Panic end) pa.
End mapped.
Arguments PageAllocator PT : clear implicits.

(* ------------------------------------------------------------------ *)
(** ** Address spaces (lib.rs) *)

(** [for i in 256..512 { pml4_table[i] = active_table[i].clone(); }]. *)
Definition copy_kernel_half (active_table table : list Z) : outcome (list Z) :=
  for_each (seqZ 256 256) (λ i table, e ← idx active_table i; upd table i e) table.

(** Physical memory as page tables: frame to its 512 entries. *)
Definition create_user_page_table (fa : falloc) (cr3 : Z) (phys : gmap Z (list Z))
    : outcome (option Z * falloc * gmap Z (list Z)) :=
  '(fo, fa) ← allocate_frame fa;
  match fo with
  | None => Done (None, fa, phys)
  | Some pml4_frame =>
      let phys := <[pml4_frame := zrep 512 0]> phys in
      active_table ← unwrap (phys !! cr3);
      table ← copy_kernel_half active_table (zrep 512 0);
      Done (Some pml4_frame, fa, <[pml4_frame := table]> phys)
  end.

(* ------------------------------------------------------------------ *)
(** ** The allocators together: sequences of requests *)

Section kmem.
Context {PT : Type} `{Mapper PT}.

Record kmem := mkKmem {
  km_next : Z;                      (* KSTACK_ALLOC *)
  km_slub : SlubAllocator;          (* SLUB *)
  km_pa : PageAllocator PT;         (* PAGE_ALLOC *)
  km_stacks : list (Z * Z);         (* stacks returned: base and size *)
  km_live : list (Z * Z);           (* SLUB pointers not yet freed, with the size asked for *)
}.

Inductive kmem_op :=
  | KStack (size : Z)
  | KAlloc (size : Z)
  | KFree (k : nat)                 (* free the [k]-th live pointer *)
  | KMap (n : nat) (va flags : Z)   (* another part of the kernel maps pages *)
  | KTake.                          (* or takes a frame, for another address space *)

(** The caller's side of the contract: only a live pointer is freed, with
    its size. *)
Definition kmem_do (op : kmem_op) (m : kmem) : outcome kmem :=
  match op with
  | KStack size =>
      '(r, next, pa) ← alloc_kernel_stack size (km_next m) (Some (km_pa m));
      pa ← unwrap pa;
      Done (mkKmem next (km_slub m) pa
        (match r with Some top => km_stacks m ++ [(top - size, size)] | None => km_stacks m end)
        (km_live m))
  | KAlloc size =>
      '(r, sl, pa) ← SlubAllocator_alloc size (km_slub m) (Some (km_pa m));
      pa ← unwrap pa;
      Done (mkKmem (km_next m) sl pa (km_stacks m)
        (match r with Some p => km_live m ++ [(p, size)] | None => km_live m end))
  | KFree k =>
      match km_live m !! k with
      | Some (p, size) =>
          sl ← SlubAllocator_free p size (km_slub m);
          Done (mkKmem (km_next m) sl (km_pa m) (km_stacks m) (delete k (km_live m)))
      | None => Done m
      end
  | KMap n va flags =>
      '(_, pa) ← map_pages n va flags (km_pa m);
      Done (mkKmem (km_next m) (km_slub m) pa (km_stacks m) (km_live m))
  | KTake =>
      '(_, fa) ← allocate_frame (pa_frame_alloc (km_pa m));
      Done (mkKmem (km_next m) (km_slub m) (mkPageAllocator (pa_mapper (km_pa m)) fa)
              (km_stacks m) (km_live m))
  end.

(** Requests the code makes: stacks below 32 TiB, pages inside the address
    space. *)
Definition kmem_op_ok (op : kmem_op) : Prop :=
  match op with
  | KStack size => 0 ≤ size < 2 ^ 45
  | KAlloc size => 0 ≤ size < 2 ^ 64
  | KFree _ | KTake => True
  | KMap n va _ => 0 ≤ va ∧ (PAGE_SIZE | va) ∧ va + Z.of_nat n * PAGE_SIZE ≤ 2 ^ 64
  end.

Definition kmem_init (pa : PageAllocator PT) : kmem :=
  mkKmem KSTACK_VA_START SlubAllocator_new pa [] [].

Fixpoint kmem_run (ops : list kmem_op) (m : kmem) : outcome kmem :=
  match ops with
  | [] => Done m
  | op :: ops => m ← kmem_do op m; kmem_run ops m
  end.
End kmem.
Arguments kmem PT : clear implicits.

(* ------------------------------------------------------------------ *)
(** ** Frames *)

Section frames.
Lemma zslice_cons {A} (l : list A) a b x :
  a < b → zget l a = Some x → zslice l a b = x :: zslice l (a + 1) b.
Proof.
  intros Hab Hx. pose proof (zget_Some_range _ _ _ Hx).
  rewrite <-(zslice_app l a (a + 1) b) by lia. f_equal.
  unfold zslice, ztake, zdrop. replace (Z.to_nat (a + 1 - a)) with 1%nat by lia.
  unfold zget in Hx. rewrite (proj2 (Z.leb_le _ _)) in Hx by lia.
  by rewrite (drop_S _ _ _ Hx).
Qed.

Lemma zslice_zset_before {A} (l : list A) i a b x : 0 ≤ i < a → zslice (zset l i x) a b = zslice l a b.
Proof.
  intros. unfold zslice, zdrop, zset. rewrite (proj2 (Z.leb_le _ _)) by lia.
  by rewrite drop_insert_lt by lia.
Qed.

Lemma allocate_frame_loop_spec fuel a :
  falloc_ok a → fa_limit a - fa_next a < Z.of_nat fuel →
  ∃ a', allocate_frame_loop fuel a = Done (head (frames_left a), a') ∧ falloc_ok a' ∧
        frames_left a' = tail (frames_left a).
Proof.
  revert a. induction fuel as [|fuel IH]; intros [fr next lim] [Hr Hl] Hf; simpl in *; [lia|].
  destruct (Z.ltb_spec next lim).
  2: { exists (mkFalloc fr next lim). unfold frames_left, falloc_ok; simpl.
       rewrite zslice_nil by lia. naive_solver. }
  destruct (zget_is_Some fr next) as [e He]; [lia|].
  rewrite (proj2 (idx_Done _ _ _) He). simpl.
  unfold frames_left at 1 3; simpl. rewrite (zslice_cons _ _ _ _ ltac:(done) He). simpl.
  destruct e as [f|]; simpl.
  - eexists. split; [done|]. unfold falloc_ok, frames_left; simpl.
    rewrite zslice_zset_before by lia. zlen_solve. naive_solver lia.
  - apply (IH (mkFalloc fr (next + 1) lim)); unfold falloc_ok; simpl; lia.
Qed.

(** One allocation: the first frame left, or none. *)
Lemma allocate_frame_spec a :
  falloc_ok a →
  ∃ a', allocate_frame a = Done (head (frames_left a), a') ∧ falloc_ok a' ∧
        frames_left a' = tail (frames_left a).
Proof. intros [??]. apply allocate_frame_loop_spec; [done|lia]. Qed.

Lemma advance_spec a a' :
  advance a a' → falloc_ok a → falloc_ok a' ∧ ∃ k, frames_left a' = drop k (frames_left a).
Proof.
  induction 1 as [a|a f a1 a2 E _ IH]; intros Ha; [split; [done|by exists 0%nat]|].
  destruct (allocate_frame_spec a Ha) as (a1' & E' & Ha1 & Hl). rewrite E in E'. simplify_eq.
  destruct (IH Ha1) as (? & k & ->). split; [done|]. exists (S k). rewrite Hl.
  destruct (frames_left a); simpl; [by rewrite drop_nil|done].
Qed.

Lemma advance_sub a a' f :
  advance a a' → falloc_ok a → f ∈ frames_left a' → f ∈ frames_left a.
Proof.
  intros Ha Hok Hf. destruct (advance_spec _ _ Ha Hok) as (_ & k & Hk). rewrite Hk in Hf.
  rewrite <-(take_drop k (frames_left a)). apply elem_of_app. by right.
Qed.

Lemma advance_NoDup a a' :
  advance a a' → falloc_ok a → NoDup (frames_left a) → NoDup (frames_left a').
Proof.
  intros Ha Hok Hf. destruct (advance_spec _ _ Ha Hok) as (_ & k & ->).
  rewrite <-(take_drop k (frames_left a)) in Hf. by apply NoDup_app in Hf as (_ & _ & ?).
Qed.
End frames.

(* ------------------------------------------------------------------ *)
(** ** Mapping runs of pages *)

Lemma containing_mul k : 0 ≤ k → containing (k * PAGE_SIZE) = k * PAGE_SIZE.
Proof.
  intros. unfold containing, PAGE_SIZE. rewrite Z.shiftr_div_pow2, Z.shiftl_mul_pow2 by lia.
  change (2 ^ 12) with 4096. rewrite Z.div_mul by lia. done.
Qed.

Lemma containing_aligned v : 0 ≤ v → (PAGE_SIZE | v) → containing v = v.
Proof. intros Hv [k ->]. apply containing_mul. unfold PAGE_SIZE in *. lia. Qed.

Section mapping.
Context {PT : Type} `{Mapper PT}.

(** The kernel's own pages: from the stack region up. *)
Definition kpage (p : Z) : Prop := KSTACK_VA_START ≤ p.

(** Over a zone of pages: boot frames still free are distinct and not mapped
    in the zone, and a page of [own] shares its frame with no page of the
    zone. *)
Record pa_inv (zone own : Z → Prop) (pa : PageAllocator PT) : Prop := {
  pai_ok : falloc_ok (pa_frame_alloc pa);
  pai_nodup : NoDup (frames_left (pa_frame_alloc pa));
  pai_free : ∀ p f, zone p → translate (pa_mapper pa) p = Some f → f ∉ frames_left (pa_frame_alloc pa);
  pai_inj : ∀ p q f, zone p → zone q → own p →
    translate (pa_mapper pa) p = Some f → translate (pa_mapper pa) q = Some f → p = q;
}.

(** [pa'] maps everything [pa] maps. *)
Definition pa_mono (pa pa' : PageAllocator PT) : Prop :=
  ∀ p f, translate (pa_mapper pa) p = Some f → translate (pa_mapper pa') p = Some f.

Lemma pa_mono_trans pa1 pa2 pa3 : pa_mono pa1 pa2 → pa_mono pa2 pa3 → pa_mono pa1 pa3.
Proof. unfold pa_mono. auto. Qed.

Lemma pa_inv_weaken (zone own own' : Z → Prop) pa :
  (∀ p, own' p → own p) → pa_inv zone own pa → pa_inv zone own' pa.
Proof. intros Hw [????]. split; eauto. Qed.

(** One iteration of the mapping loop. *)
Lemma map_one zone own va frame flags fa0 fa t r fa' t' :
  pa_inv zone own (mkPageAllocator t fa0) →
  allocate_frame fa0 = Done (Some frame, fa) →
  map_to va frame flags fa t = (r, fa', t') →
  pa_mono (mkPageAllocator t fa0) (mkPageAllocator t' fa') ∧
  pa_inv zone (λ p, own p ∨ r = MapOk ∧ p = va) (mkPageAllocator t' fa') ∧
  (r = MapOk → translate t' va = Some frame).
Proof.
  intros [Hok Hnd Hfree Hinj] Ea Em; simpl in *.
  destruct (allocate_frame_spec fa0 Hok) as (fa1 & Ea' & Hok1 & Hl). rewrite Ea in Ea'. simplify_eq.
  destruct (frames_left fa0) as [|f0 fs] eqn:Efs; simplify_eq/=.
  apply NoDup_cons in Hnd as [Hnf Hnd].
  pose proof (map_to_advance _ _ _ _ _ _ _ _ Em) as Hadv.
  pose proof (λ f, advance_sub _ _ f Hadv Hok1) as Hsub.
  destruct (advance_spec _ _ Hadv Hok1) as [Hok' _].
  assert (r = MapOk ∨ r ≠ MapOk) as [->|Hr] by (destruct r; auto).
  - apply map_to_ok in Em as (Hn & Hm & Hne).
    split_and!; [|split; simpl|done].
    + intros p f Hp. simpl in *. rewrite Hne; [done|congruence].
    + done.
    + by eapply advance_NoDup.
    + intros p f Hk Hp Hin. destruct (decide (p = va)) as [->|Hpv].
      * simplify_eq. by apply Hnf, Hsub.
      * rewrite Hne in Hp by done. apply (Hfree p f Hk Hp). right. auto.
    + intros p q f Hkp Hkq Hown Hp Hq.
      destruct (decide (p = va)) as [->|Hpv], (decide (q = va)) as [->|Hqv]; try done.
      * simplify_eq. rewrite Hne in Hq by done. exfalso. apply (Hfree q _ Hkq Hq). left.
      * simplify_eq. rewrite Hne in Hp by done. exfalso. apply (Hfree p _ Hkp Hp). left.
      * rewrite Hne in Hp, Hq by done. destruct Hown as [|[_ ?]]; [eauto|done].
  - pose proof (map_to_err _ _ _ _ _ _ _ _ Em Hr) as Hsame.
    split_and!; [|split; simpl|done].
    + intros p f. simpl. by rewrite Hsame.
    + done.
    + by eapply advance_NoDup.
    + intros p f Hk. rewrite Hsame. intros Hp Hin. apply (Hfree p f Hk Hp). right. auto.
    + intros p q f ??. rewrite !Hsame. naive_solver.
Qed.

(** [pages va n]: the pages of a run of [n] pages from [va]. *)
Definition pages (va n : Z) (p : Z) : Prop := ∃ i, 0 ≤ i < n ∧ p = va + i * PAGE_SIZE.

Lemma map_pages_spec n zone own va flags pa :
  pa_inv zone own pa → 0 ≤ va → (PAGE_SIZE | va) → va + Z.of_nat n * PAGE_SIZE ≤ 2 ^ 64 →
  ∃ ok pa', map_pages n va flags pa = Done (ok, pa') ∧ pa_mono pa pa' ∧
    pa_inv zone (λ p, own p ∨ ok = true ∧ pages va (Z.of_nat n) p) pa' ∧
    (ok = true → ∀ p, pages va (Z.of_nat n) p → is_Some (translate (pa_mapper pa') p)).
Proof.
  revert own va pa. induction n as [|n IH]; intros own va [t fa0] Hinv Hva Hal Hb; simpl.
  { exists true, (mkPageAllocator t fa0). split_and!; [done|by intros ?|..].
    - eapply pa_inv_weaken; [|done]. intros p [?|(_ & i & ? & _)]; [done|lia].
    - intros _ p (i & ? & _). lia. }
  destruct (allocate_frame_spec fa0 (pai_ok _ _ _ Hinv)) as (fa & E & Hok & Hl).
  rewrite E. simpl. destruct (frames_left fa0) as [|f fs] eqn:Efs; simpl in *.
  { exists false, (mkPageAllocator t fa). destruct Hinv as [Ha Hb' Hc Hd]; simpl in *.
    split_and!; [done|by intros ?| |done]. split; simpl; rewrite ?Hl; [done|constructor|set_solver|].
    naive_solver. }
  rewrite containing_aligned by done.
  destruct (map_to va f flags fa t) as [[r fa'] t'] eqn:Em.
  destruct (map_one _ _ _ _ _ _ _ _ _ _ _ Hinv E Em) as (Hmono & Hinv' & Hm).
  assert (r = MapOk ∨ r ≠ MapOk) as [->|Hr] by (destruct r; auto).
  2: { exists false, (mkPageAllocator t' fa'). split_and!; [by destruct r|done| |done].
       eapply pa_inv_weaken; [|done]. naive_solver. }
  destruct (decide (n = 0%nat)) as [->|Hn].
  { simpl. exists true, (mkPageAllocator t' fa'). split_and!; [done..| |].
    - eapply pa_inv_weaken; [|done]. intros p [?|(_ & i & ? & ->)]; [by left|right].
      split; [done|]. unfold PAGE_SIZE. lia.
    - intros _ p (i & ? & ->). replace i with 0 by lia. rewrite Z.add_0_r. simpl. eauto. }
  rewrite wrap_small by (unfold is_uint, PAGE_SIZE in *; lia).
  destruct (IH _ (va + PAGE_SIZE) _ Hinv') as (ok & pa' & -> & Hmono2 & Hinv2 & Hmap).
  { unfold PAGE_SIZE. lia. }
  { apply Z.divide_add_r; [done|apply Z.divide_refl]. }
  { unfold PAGE_SIZE in *. lia. }
  assert (Hsplit : ∀ p, pages va (Z.of_nat (S n)) p → p = va ∨ pages (va + PAGE_SIZE) (Z.of_nat n) p).
  { intros p (i & Hi & ->). destruct (decide (i = 0)) as [->|]; [left; lia|].
    right. exists (i - 1). split; [lia|]. unfold PAGE_SIZE. lia. }
  exists ok, pa'. split_and!; [done|by eapply pa_mono_trans| |].
  - eapply pa_inv_weaken; [|done]. intros p [?|[-> [->|?]%Hsplit]]; auto.
  - intros -> p [->|?]%Hsplit; [|by auto]. exists f. apply Hmono2. simpl. auto.
Qed.
End mapping.

(* ------------------------------------------------------------------ *)
(** ** Enough memory *)

Section avail.
Context {PT : Type} `{MapperBudget PT}.

(** At least [k] frames are left, all in [D], and the pages of [R] can be mapped. *)
Record avail (D : Z → Prop) (k : Z) (R : Z → Prop) (pa : PageAllocator PT) : Prop := {
  av_inv : pa_inv kpage (λ _, False) pa;
  av_frames : k ≤ zlen (frames_left (pa_frame_alloc pa));
  av_good : ∀ f, f ∈ frames_left (pa_frame_alloc pa) → D f;
  av_pages : ∀ p, R p → translate (pa_mapper pa) p = None ∧ mappable (pa_mapper pa) p;
}.

Lemma avail_weaken {D : Z → Prop} k k' (R R' : Z → Prop) pa :
  k' ≤ k → (∀ p, R' p → R p) → avail D k R pa → avail D k' R' pa.
Proof. intros Hk HR [Hi Hf Hg Hp]. split; [done|lia|done|auto]. Qed.

(** A frame is taken and mapped. *)
Lemma grab {D : Z → Prop} k R p flags t fa :
  avail D (k + 4) R (mkPageAllocator t fa) → 0 ≤ k → R p →
  ∃ f fa1 fa' t', allocate_frame fa = Done (Some f, fa1) ∧ map_to p f flags fa1 t = (MapOk, fa', t') ∧
    avail D k (λ q, R q ∧ q ≠ p) (mkPageAllocator t' fa').
Proof.
  intros [Hi Hf Hg HR] Hk Hp. simpl in *. destruct (allocate_frame_spec fa (pai_ok _ _ _ Hi)) as (fa1 & E & Hok1 & Hl).
  destruct (frames_left fa) as [|f fs] eqn:Efs; [rewrite zlen_nil in Hf; lia|]. simpl in *. rewrite zlen_cons in Hf.
  destruct (HR p Hp) as [Hn Hm].
  destruct (map_to p f flags fa1 t) as [[r fa'] t'] eqn:Em.
  assert (r = MapOk) as ->.
  { pose proof (map_to_total _ _ _ _ _ _ _ _ Em Hm Hok1 ltac:(rewrite Hl; lia)). destruct r as [|e|]; [done| |done].
    pose proof (map_to_already _ _ _ _ _ _ _ _ Em). congruence. }
  exists f, fa1, fa', t'. split; [done|]. split; [done|].
  destruct (map_one kpage (λ _, False) p f flags fa fa1 t MapOk fa' t' Hi E Em) as (_ & Hi' & _).
  split; simpl; [eapply pa_inv_weaken; [|exact Hi']; tauto| | |].
  - pose proof (map_to_uses _ _ _ _ _ _ _ _ Em Hok1). rewrite Hl in *. lia.
  - intros g Hin. apply Hg. right. rewrite <-Hl. exact (advance_sub _ _ _ (map_to_advance _ _ _ _ _ _ _ _ Em) Hok1 Hin).
  - intros q [Hq Hne]. destruct (HR q Hq) as [? ?]. split; [|by eapply map_to_mappable].
    apply map_to_ok in Em as (_ & _ & Ho). by rewrite Ho.
Qed.

Lemma map_pages_total {D : Z → Prop} n k R va flags pa :
  avail D (k + 4 * Z.of_nat n) R pa → 0 ≤ k → 0 ≤ va → (PAGE_SIZE | va) → va + Z.of_nat n * PAGE_SIZE < 2 ^ 64 →
  (∀ p, pages va (Z.of_nat n) p → R p) →
  ∃ pa', map_pages n va flags pa = Done (true, pa') ∧ avail D k (λ q, R q ∧ ¬ pages va (Z.of_nat n) q) pa'.
Proof.
  revert k R va pa. induction n as [|n IH]; intros k R va [t fa] Hav Hk Hva Hal Hb HR.
  { exists (mkPageAllocator t fa). split; [done|]. eapply avail_weaken; [| |exact Hav]; [lia|]. tauto. }
  unfold PAGE_SIZE in *. cbn [map_pages]. rewrite containing_aligned by done.
  destruct (grab (D := D) (k + 4 * Z.of_nat n) R va flags t fa) as (f & fa1 & fa' & t' & E & Em & Hav').
  { eapply avail_weaken; [| |exact Hav]; [lia|done]. }
  { lia. }
  { apply HR. exists 0. lia. }
  cbn [pa_frame_alloc pa_mapper]. rewrite E. cbn [mbind outcome_bind]. rewrite Em.
  rewrite wrap_small by (split; unfold PAGE_SIZE; lia).
  destruct (IH k (λ q, R q ∧ q ≠ va) (va + PAGE_SIZE) (mkPageAllocator t' fa') Hav' Hk) as (pa' & E' & Hav'').
  - unfold PAGE_SIZE. lia.
  - by apply Z.divide_add_r; [|exists 1].
  - unfold PAGE_SIZE. lia.
  - intros p (i & Hi & ->). split; [apply HR; exists (i + 1)|]; unfold PAGE_SIZE; lia.
  - exists pa'. split; [done|]. eapply avail_weaken; [| |exact Hav'']; [lia|].
    intros q [HRq Hn]. split; [split; [done|]|].
    + intros ->. apply Hn. exists 0. lia.
    + intros (i & Hi & ->). apply Hn. exists (i + 1). unfold PAGE_SIZE. lia.
Qed.

(** A kernel stack of [n] pages. *)
Lemma alloc_kernel_stack_avail {D : Z → Prop} n k R next pa :
  avail D (k + 4 * Z.of_nat n) R pa → 0 ≤ k → (0 < n)%nat → KSTACK_VA_START ≤ next → (PAGE_SIZE | next) →
  next + Z.of_nat n * PAGE_SIZE ≤ KSTACK_VA_END → (∀ p, pages next (Z.of_nat n) p → R p) →
  ∃ pa', alloc_kernel_stack (Z.of_nat n * PAGE_SIZE) next (Some pa) =
      Done (Some (next + Z.of_nat n * PAGE_SIZE), next + Z.of_nat n * PAGE_SIZE, Some pa') ∧
    avail D k (λ q, R q ∧ ¬ pages next (Z.of_nat n) q) pa'.
Proof.
  intros Hav Hk Hn Hs Hd He HR. unfold alloc_kernel_stack. unfold KSTACK_VA_START, KSTACK_VA_END in *.
  rewrite wrap_small by (split; unfold PAGE_SIZE in *; lia). unfold PAGE_SIZE at 1 2.
  rewrite Z.mod_mul, (proj2 (Z.eqb_neq _ 0)), (proj2 (Z.ltb_ge _ _)) by (lia || done). cbn [orb negb Z.eqb].
  unfold PAGE_SIZE at 3. rewrite Z.div_mul, Nat2Z.id by lia.
  destruct (map_pages_total (D := D) n k R next KSTACK_FLAGS pa) as (pa' & -> & Hav'); try done; [lia|unfold PAGE_SIZE in *; lia|].
  cbn [mbind outcome_bind]. by exists pa'.
Qed.
End avail.

(* ------------------------------------------------------------------ *)
(** ** Blocks of addresses *)

(** Two half-open ranges [(base, size)] that do not meet. *)
Definition disj (b c : Z * Z) : Prop := b.1 + b.2 ≤ c.1 ∨ c.1 + c.2 ≤ b.1.

(** Every block of the list is disjoint from the later ones. *)
Fixpoint apart (l : list (Z * Z)) : Prop :=
  match l with
  | [] => True
  | b :: l => Forall (disj b) l ∧ apart l
  end.

Section apart.
Lemma disj_sym b c : disj b c → disj c b.
Proof. unfold disj. tauto. Qed.

#[global] Instance apart_perm : Proper ((≡ₚ) ==> iff) apart.
Proof.
  assert (∀ l1 l2, l1 ≡ₚ l2 → apart l1 → apart l2) as Hp.
  { induction 1 as [|b l1 l2 Hp IH|b c l|l1 l2 l3 _ IH1 _ IH2]; simpl; [done|..|by auto].
    - intros [Hb ?]. rewrite Hp in Hb. auto.
    - rewrite !Forall_cons. intros ([Hbc ?] & ? & ?). auto using disj_sym. }
  intros l1 l2 ?. split; by apply Hp.
Qed.

Lemma apart_app l1 l2 :
  apart (l1 ++ l2) ↔ apart l1 ∧ apart l2 ∧ ∀ b c, b ∈ l1 → c ∈ l2 → disj b c.
Proof.
  induction l1 as [|b l1 IH]; simpl; [set_solver|].
  rewrite IH, Forall_app, (Forall_forall _ l2). set_solver.
Qed.

Lemma apart_lookup l i j b c :
  apart l → l !! i = Some b → l !! j = Some c → i ≠ j → disj b c.
Proof.
  revert i j. induction l as [|d l IH]; intros i j Ha Hi Hj Hij; [done|].
  destruct Ha as [Hd Hl], i as [|i], j as [|j]; simplify_eq/=.
  - by eapply Forall_lookup_1 in Hd.
  - apply disj_sym. by eapply Forall_lookup_1 in Hd.
  - eapply IH; eauto.
Qed.
End apart.

(* ------------------------------------------------------------------ *)
(** ** SLUB blocks *)

(** The size of the class a request is served from. *)
Definition class_size (size : Z) : Z :=
  match size_class_index size with
  | Some i => default 0 (SIZE_CLASSES !! i)
  | None => 0
  end.

Section slub.
(** The smallest class that holds the request. *)
Lemma size_class_index_spec size i :
  size_class_index size = Some i →
  ∃ c, SIZE_CLASSES !! i = Some c ∧ class_size size = c ∧ size ≤ c ∧
    (PAGE_SIZE | c) ∧ PAGE_SIZE ≤ c ≤ 2 ^ 20 ∧
    ∀ j d, (j < i)%nat → SIZE_CLASSES !! j = Some d → d < size.
Proof.
  intros Hi. unfold class_size. rewrite Hi. unfold size_class_index in Hi.
  apply fmap_Some in Hi as ([k c] & (Hc & Hle & Hmin)%list_find_Some & Hk).
  simpl in Hk. subst k. exists c. rewrite Hc. simpl.
  assert (Forall (λ c, (PAGE_SIZE | c) ∧ PAGE_SIZE ≤ c ≤ 2 ^ 20) SIZE_CLASSES) as Hall.
  { apply Forall_forall. unfold SIZE_CLASSES, PAGE_SIZE. intros d Hd.
    repeat (apply elem_of_cons in Hd as [->|Hd]; [split; [by apply Z.mod_divide|lia]|]).
    by apply elem_of_nil in Hd. }
  destruct (Forall_lookup_1 _ _ _ _ Hall Hc) as (? & ? & ?).
  split_and!; try done.
  - intros j d Hj Hd. specialize (Hmin j d Hd Hj). lia.
Qed.

Definition cache_blocks (c : SlubCache) : list (Z * Z) := (λ p, (p, sc_size c)) <$> sc_free_list c.
Definition free_blocks (caches : list SlubCache) : list (Z * Z) := concat (cache_blocks <$> caches).
Definition live_blocks (live : list (Z * Z)) : list (Z * Z) := prod_map id class_size <$> live.

Lemma vec_pop_snoc {A} (l : list A) x rest : vec_pop l = Some (x, rest) ↔ l = rest ++ [x].
Proof.
  unfold vec_pop. destruct (l) as [|y l' _] using rev_ind; simpl.
  { split; [done|]. by destruct rest. }
  rewrite last_snoc, length_app. simpl.
  replace (length l' + 1 - 1)%nat with (length l') by lia. rewrite take_app_length.
  split; [naive_solver|]. intros []%app_inj_2; naive_solver.
Qed.

Lemma free_blocks_update caches i c c' b :
  caches !! i = Some c → cache_blocks c' ≡ₚ b :: cache_blocks c →
  free_blocks (<[i := c']> caches) ≡ₚ b :: free_blocks caches.
Proof.
  intros Hi Hc. unfold free_blocks. rewrite <-(take_drop_middle caches i c Hi) at 2.
  rewrite insert_take_drop by (by eapply lookup_lt_Some).
  rewrite !fmap_app, !fmap_cons, !concat_app. simpl. rewrite Hc. simpl.
  symmetry. apply Permutation_middle.
Qed.

Lemma caches_size caches i c :
  sc_size <$> caches = SIZE_CLASSES → caches !! i = Some c → SIZE_CLASSES !! i = Some (sc_size c).
Proof. intros <- Hi. by rewrite list_lookup_fmap, Hi. Qed.

Lemma caches_update caches i c l :
  sc_size <$> caches = SIZE_CLASSES → caches !! i = Some c →
  sc_size <$> (<[i := mkSlubCache (sc_size c) l]> caches) = SIZE_CLASSES.
Proof.
  intros Hc Hi. rewrite list_fmap_insert. simpl. rewrite list_insert_id; [done|].
  rewrite Hc. by eapply caches_size.
Qed.

Lemma caches_lookup caches size i :
  sc_size <$> caches = SIZE_CLASSES → size_class_index size = Some i →
  ∃ c, caches !! i = Some c ∧ sc_size c = class_size size.
Proof.
  intros Hc (cs & Hi & Hcs & _)%size_class_index_spec.
  rewrite <-Hc, list_lookup_fmap in Hi. apply fmap_Some in Hi as (c & ? & ->). eauto.
Qed.
End slub.

(* ------------------------------------------------------------------ *)
(** ** The invariant of the allocators *)

Section kmem_inv.
Context {PT : Type} `{Mapper PT}.

(** A page inside a block. *)
Definition in_block (p : Z) (b : Z * Z) : Prop := b.1 ≤ p < b.1 + b.2 ∧ (PAGE_SIZE | p).

Definition slub_blocks (m : kmem PT) : list (Z * Z) :=
  live_blocks (km_live m) ++ free_blocks (sl_caches (km_slub m)).

Definition owned (m : kmem PT) (p : Z) : Prop :=
  ∃ b, b ∈ km_stacks m ++ slub_blocks m ∧ in_block p b.

(** A block between two addresses, starting at a page. *)
Definition within (lo hi : Z) (b : Z * Z) : Prop :=
  lo ≤ b.1 ∧ b.1 + b.2 ≤ hi ∧ 0 ≤ b.2 ∧ (PAGE_SIZE | b.1).

Record kmem_inv (n : Z) (m : kmem PT) : Prop := {
  ki_next : KSTACK_VA_START ≤ km_next m ≤ KSTACK_VA_END ∧ (PAGE_SIZE | km_next m);
  ki_va : SLUB_VA_START ≤ sl_next_va (km_slub m) ≤ SLUB_VA_START + n * 2 ^ 20 ∧
          (PAGE_SIZE | sl_next_va (km_slub m));
  ki_caches : sc_size <$> sl_caches (km_slub m) = SIZE_CLASSES;
  ki_live : Forall (λ b, size_class_index b.2 ≠ None) (km_live m);
  ki_stacks : Forall (within KSTACK_VA_START (km_next m)) (km_stacks m);
  ki_blocks : Forall (within SLUB_VA_START (sl_next_va (km_slub m))) (slub_blocks m);
  ki_apart : apart (km_stacks m) ∧ apart (slub_blocks m);
  ki_pa : pa_inv kpage (owned m) (km_pa m);
  ki_mapped : ∀ p, owned m p → is_Some (translate (pa_mapper (km_pa m)) p);
}.

Lemma within_weaken lo hi hi' b : hi ≤ hi' → within lo hi b → within lo hi' b.
Proof. unfold within. intuition lia. Qed.

(** A block appended at the top of its region. *)
Lemma apart_snoc lo hi size l :
  apart l → Forall (within lo hi) l → apart (l ++ [(hi, size)]).
Proof.
  rewrite apart_app, Forall_forall. intros Ha Hw. split_and!; [done|simpl; auto|].
  intros b c Hb ->%list_elem_of_singleton. left. simpl. by apply Hw.
Qed.

Lemma in_block_pages p base size :
  (PAGE_SIZE | base) → (PAGE_SIZE | size) →
  in_block p (base, size) → pages base (size `div` 4096) p.
Proof.
  unfold in_block, pages, PAGE_SIZE. simpl. intros [k ->] [s ->] [Hp [q ->]].
  rewrite Z.div_mul by lia. exists (q - k). lia.
Qed.

(** Pages a block is made of stay mapped and unshared after a run of pages
    was mapped for a new block. *)
Lemma owned_extend (m : kmem PT) own base size pa ok :
  (PAGE_SIZE | base) → (PAGE_SIZE | size) →
  (∀ p, own p → owned m p ∨ ok = true ∧ in_block p (base, size)) →
  pa_inv kpage (λ p, owned m p ∨ ok = true ∧ pages base (size `div` 4096) p) pa →
  pa_inv kpage own pa.
Proof.
  intros ?? Hown. apply pa_inv_weaken. intros p [|[-> ?]]%Hown; [by left|right].
  split; [done|]. by apply in_block_pages.
Qed.

Lemma kmem_inv_step_perm n (m : kmem PT) sl live :
  kmem_inv n m →
  live_blocks live ++ free_blocks (sl_caches sl) ≡ₚ slub_blocks m →
  sc_size <$> sl_caches sl = SIZE_CLASSES → sl_next_va sl = sl_next_va (km_slub m) →
  Forall (λ b, size_class_index b.2 ≠ None) live →
  kmem_inv n (mkKmem (km_next m) sl (km_pa m) (km_stacks m) live).
Proof.
  intros [] Hp Hc Hva Hl.
  assert (∀ p, owned (mkKmem (km_next m) sl (km_pa m) (km_stacks m) live) p → owned m p) as Ho.
  { intros p (b & Hb & ?). exists b. split; [|done]. unfold slub_blocks in Hb. simpl in Hb.
    by rewrite Hp in Hb. }
  split; simpl; rewrite ?Hva; try done; unfold slub_blocks; simpl; rewrite ?Hp; auto.
  - by eapply pa_inv_weaken.
Qed.

Lemma kmem_inv_step_pa n (m : kmem PT) pa :
  kmem_inv n m → pa_mono (km_pa m) pa → pa_inv kpage (owned m) pa →
  kmem_inv n (mkKmem (km_next m) (km_slub m) pa (km_stacks m) (km_live m)).
Proof.
  intros [] Hm Hpa. split; simpl; try done.
  intros p Hp. destruct (ki_mapped0 p Hp) as [f Hf]. exists f. by apply Hm.
Qed.

Lemma kmem_inv_mono n n' (m : kmem PT) : n ≤ n' → kmem_inv n m → kmem_inv n' m.
Proof. intros ? []. split; try done. split; [lia|]. by apply ki_va0. Qed.

Lemma kstack_step n m size :
  kmem_inv n m → kmem_op_ok (KStack size) →
  ∃ m', kmem_do (KStack size) m = Done m' ∧ kmem_inv n m'.
Proof.
  intros Hinv Hs. pose proof Hinv as [[Hn1 Hn2] Hva Hc Hlv Hst Hbl [Ha1 Ha2] Hpa Hmap].
  simpl in *. unfold alloc_kernel_stack.
  destruct (Z.eqb_spec size 0); simpl; [by destruct m; eauto|].
  destruct (Z.eqb_spec (size `mod` 4096) 0) as [Hal|]; simpl; [|by destruct m; eauto].
  apply Z.mod_divide in Hal; [|done].
  rewrite !wrap_small by (unfold is_uint, KSTACK_VA_END, KSTACK_VA_START in *; lia).
  destruct (Z.ltb_spec KSTACK_VA_END (km_next m + size)); simpl; [by destruct m; eauto|].
  assert (0 ≤ size `div` 4096 ∧ size `div` 4096 * PAGE_SIZE = size) as [? Hsz].
  { destruct Hal as [k ->]. unfold PAGE_SIZE in *. rewrite Z.div_mul by done. lia. }
  edestruct (map_pages_spec (Z.to_nat (size `div` 4096)) _ _ (km_next m) KSTACK_FLAGS _ Hpa)
    as (ok & pa & -> & Hmono & Hpa' & Hok).
  { unfold KSTACK_VA_START in *; lia. }
  { done. }
  { rewrite Z2Nat.id, Hsz by done. unfold KSTACK_VA_END in *; lia. }
  rewrite Z2Nat.id in Hpa', Hok by done.
  simpl. eexists. split; [done|].
  assert (∀ r, Forall (within r (km_next m + size)) (km_stacks m) ∨ True) as _ by auto.
  set (m' := mkKmem _ _ _ _ _).
  assert (Ho : ∀ p, owned m' p → owned m p ∨ ok = true ∧ in_block p (km_next m, size)).
  { intros p (b & Hb & Hp). subst m'. unfold owned. simpl in Hb. destruct ok; [|eauto].
    replace (km_next m + size - size) with (km_next m) in Hb by lia.
    rewrite !elem_of_app, list_elem_of_singleton in Hb. destruct Hb as [[?| ->]|?]; auto;
      left; exists b; rewrite elem_of_app; auto. }
  split; subst m'; simpl; try done.
  - split; [lia|]. by apply Z.divide_add_r.
  - assert (Forall (within KSTACK_VA_START (km_next m + size)) (km_stacks m)).
    { eapply Forall_impl; [done|]. intros b. apply within_weaken. lia. }
    destruct ok; [|done]. apply Forall_app. split; [done|]. constructor; [|done].
    unfold within; simpl. split_and!; try lia.
    replace (km_next m + size - size) with (km_next m) by lia. done.
  - destruct ok; [|done].
    replace (km_next m + size - size) with (km_next m) by lia. split; [|done]. by eapply apart_snoc.
  - by apply (owned_extend m _ (km_next m) size _ ok).
  - intros p [Hp|[-> Hp]]%Ho; [|by apply Hok, in_block_pages].
    destruct (Hmap p Hp) as [f Hf]. exists f. by apply Hmono.
Qed.

Lemma slub_slow_step n m size i c :
  kmem_inv n m → n < 2 ^ 25 →
  size_class_index size = Some i → sl_caches (km_slub m) !! i = Some c → sc_free_list c = [] →
  sc_size c = class_size size →
  ∃ m', kmem_do (KAlloc size) m = Done m' ∧ kmem_inv (n + 1) m'.
Proof.
  intros Hinv Hn Hi Hci Hfl Hcs.
  destruct (size_class_index_spec _ _ Hi) as (cs & _ & <- & _ & Hal & Hcl & _). rewrite <-Hcs in *.
  pose proof Hinv as [Hnx [Hva Hvd] Hc Hlv Hst Hbl [Ha1 Ha2] Hpa Hmap].
  simpl. unfold SlubAllocator_alloc. rewrite Hi, Hci. simpl. rewrite Hfl. simpl.
  assert (0 ≤ sc_size c `div` 4096 ∧ sc_size c `div` 4096 * PAGE_SIZE = sc_size c) as [? Hsz].
  { destruct Hal as [k Hk]. rewrite Hk in *. unfold PAGE_SIZE in *. rewrite Z.div_mul by done. lia. }
  edestruct (map_pages_spec (Z.to_nat (sc_size c `div` 4096)) _ _ (sl_next_va (km_slub m)) KSTACK_FLAGS _ Hpa)
    as (ok & pa & -> & Hmono & Hpa' & Hok).
  { unfold SLUB_VA_START in *; lia. }
  { done. }
  { rewrite Z2Nat.id, Hsz by done. unfold SLUB_VA_START in *; lia. }
  rewrite Z2Nat.id in Hpa', Hok by done. simpl.
  rewrite wrap_small by (unfold is_uint, SLUB_VA_START, PAGE_SIZE in *; lia).
  destruct ok; simpl; (eexists; split; [done|]).
  2: { apply (kmem_inv_mono n); [lia|]. apply kmem_inv_step_pa; [done..|].
       eapply pa_inv_weaken; [|done]. intros p ?. by left. }
  set (b := (sl_next_va (km_slub m), sc_size c)).
  set (m' := mkKmem _ _ _ _ _).
  assert (slub_blocks m' ≡ₚ slub_blocks m ++ [b]) as Hb.
  { unfold slub_blocks, live_blocks; simpl. rewrite fmap_app. simpl. unfold prod_map; simpl.
    rewrite <-Hcs. fold b. rewrite <-!app_assoc. f_equiv. apply Permutation_app_comm. }
  assert (Ho : ∀ p, owned m' p → owned m p ∨ true = true ∧ in_block p b).
  { intros p (b' & Hb' & Hp). rewrite Hb, !elem_of_app, list_elem_of_singleton in Hb'.
    unfold owned. destruct Hb' as [?|[?| ->]]; auto; left; exists b'; rewrite elem_of_app; auto. }
  split; try done.
  - simpl. split; [unfold PAGE_SIZE in *; lia|by apply Z.divide_add_r].
  - simpl. apply Forall_app. split; [done|]. constructor; [simpl; by rewrite Hi|done].
  - rewrite Hb. apply Forall_app. split.
    + eapply Forall_impl; [done|]. intros b'. apply within_weaken. simpl. unfold PAGE_SIZE in *. lia.
    + constructor; [|done]. unfold within; simpl. unfold PAGE_SIZE in *. split_and!; lia || done.
  - rewrite Hb. split; [done|]. by eapply apart_snoc.
  - by apply (owned_extend m _ (sl_next_va (km_slub m)) (sc_size c) _ true).
  - intros p [Hp|[_ Hp]]%Ho; [|by apply Hok, in_block_pages].
    destruct (Hmap p Hp) as [f Hf]. exists f. by apply Hmono.
Qed.

Lemma slub_alloc_step n m size :
  kmem_inv n m → n < 2 ^ 25 → ∃ m', kmem_do (KAlloc size) m = Done m' ∧ kmem_inv (n + 1) m'.
Proof.
  intros Hinv Hn. destruct (size_class_index size) as [i|] eqn:Hi.
  2: { simpl. unfold SlubAllocator_alloc. rewrite Hi. simpl.
       exists m. destruct m; split; [done|]. eapply kmem_inv_mono; [|done]. lia. }
  destruct (caches_lookup _ _ _ (ki_caches _ _ Hinv) Hi) as (c & Hc & Hcs).
  destruct (vec_pop (sc_free_list c)) as [[p rest]|] eqn:Ep.
  - simpl. unfold SlubAllocator_alloc. rewrite Hi, Hc. simpl. rewrite Ep. simpl.
    eexists. split; [done|]. apply (kmem_inv_mono n); [lia|].
    apply vec_pop_snoc in Ep. apply kmem_inv_step_perm; simpl; [done| |by apply caches_update; [apply Hinv|]|done|].
    2: { apply Forall_app. split; [apply Hinv|]. constructor; [simpl; by rewrite Hi|done]. }
    unfold slub_blocks, live_blocks. rewrite fmap_app, <-app_assoc. f_equiv. simpl. symmetry.
    set (c' := mkSlubCache (sc_size c) rest).
    rewrite <-(list_insert_id _ _ _ Hc) at 1. rewrite <-(list_insert_insert_eq _ i c c').
    apply (free_blocks_update _ _ c').
    + apply list_lookup_insert_eq. by eapply lookup_lt_Some.
    + unfold cache_blocks. rewrite Ep, fmap_app. simpl. unfold prod_map; simpl. rewrite <-Hcs.
      symmetry. apply Permutation_cons_append.
  - eapply slub_slow_step; eauto. unfold vec_pop in Ep. destruct (last _) eqn:El; [done|].
    by apply last_None.
Qed.

Lemma slub_free_step n m k :
  kmem_inv n m → ∃ m', kmem_do (KFree k) m = Done m' ∧ kmem_inv n m'.
Proof.
  intros Hinv. pose proof (ki_live _ _ Hinv) as Hl. simpl. destruct (km_live m !! k) as [[p size]|] eqn:Ek; [|by eauto].
  pose proof (Forall_lookup_1 _ _ _ _ Hl Ek) as Hne. simpl in Hne.
  unfold SlubAllocator_free. destruct (size_class_index size) as [i|] eqn:Hi; [|done].
  destruct (caches_lookup _ _ _ (ki_caches _ _ Hinv) Hi) as (c & Hc & Hcs). rewrite Hc. simpl.
  eexists. split; [done|]. apply kmem_inv_step_perm; simpl; [done| |by apply caches_update; [apply Hinv|]|done|by apply Forall_delete].
  rewrite free_blocks_update; [|done|].
  2: { unfold cache_blocks; simpl. rewrite fmap_app. symmetry. apply Permutation_cons_append. }
  assert (live_blocks (km_live m) ≡ₚ (p, sc_size c) :: live_blocks (delete k (km_live m))) as Hd.
  { rewrite Hcs. unfold live_blocks. by rewrite (delete_Permutation (km_live m) k (p, size)) at 1. }
  unfold slub_blocks. rewrite Hd.
  symmetry. apply Permutation_middle.
Qed.

Lemma kmem_step n m op :
  kmem_inv n m → n < 2 ^ 25 → kmem_op_ok op →
  ∃ m', kmem_do op m = Done m' ∧ kmem_inv (n + 1) m'.
Proof.
  intros Hinv Hn Hop.
  assert (∀ m', kmem_inv n m' → kmem_inv (n + 1) m') as Hm by (intros m'; apply kmem_inv_mono; lia).
  pose proof (ki_pa _ _ Hinv) as Hpa. destruct op as [size|size|k|k va flags|].
  - destruct (kstack_step n m size Hinv Hop) as (m' & ? & ?). eauto.
  - by apply slub_alloc_step.
  - destruct (slub_free_step n m k Hinv) as (m' & ? & ?). eauto.
  - destruct Hop as (? & ? & ?). simpl.
    destruct (map_pages_spec k _ _ va flags _ Hpa) as (ok & pa & -> & ? & ? & ?); [done..|].
    simpl. eexists. split; [done|]. apply Hm, kmem_inv_step_pa; [done..|].
    eapply pa_inv_weaken; [|done]. intros p ?. by left.
  - simpl. destruct (allocate_frame_spec _ (pai_ok _ _ _ Hpa)) as (fa & E & Hok & Hl). rewrite E. simpl.
    eexists. split; [done|]. apply Hm, kmem_inv_step_pa; [done|by intros ?|].
    assert (advance (pa_frame_alloc (km_pa m)) fa) as Ha by (eapply advance_step; [done|constructor]).
    destruct Hpa as [? ? Hf ?]. split; simpl; [done|by eapply advance_NoDup| |done].
    intros p f Hk Hp Hin. eapply Hf; [done..|]. by eapply advance_sub.
Qed.

Lemma kmem_run_inv ops : ∀ n m,
  kmem_inv n m → n + zlen ops ≤ 2 ^ 25 → Forall kmem_op_ok ops →
  ∃ m', kmem_run ops m = Done m' ∧ kmem_inv (n + zlen ops) m'.
Proof.
  induction ops as [|op ops IH]; intros n m Hinv Hn Hops; simpl.
  { exists m. split; [done|]. by replace (n + zlen []) with n by (unfold zlen; simpl; lia). }
  rewrite zlen_cons in Hn. pose proof (zlen_nonneg ops). apply Forall_cons in Hops as [Hop Hops].
  destruct (kmem_step n m op Hinv) as (m1 & -> & Hinv1); [lia|done|]. simpl.
  destruct (IH (n + 1) m1) as (m' & -> & ?); [done|lia|done|].
  exists m'. split; [done|]. rewrite zlen_cons. by replace (n + (zlen ops + 1)) with (n + 1 + zlen ops) by lia.
Qed.

Lemma kmem_init_inv pa : pa_inv kpage (λ _, False) pa → kmem_inv 0 (kmem_init pa).
Proof.
  intros Hpa. split; simpl; try done.
  - split; [unfold KSTACK_VA_START, KSTACK_VA_END; lia|by apply Z.mod_divide].
  - split; [lia|by apply Z.mod_divide].
  - eapply pa_inv_weaken; [|done]. intros p (b & Hb & _). simpl in Hb. by apply elem_of_nil in Hb.
  - intros p (b & Hb & _). simpl in Hb. by apply elem_of_nil in Hb.
Qed.

(** The blocks in use: kernel stacks, and live SLUB blocks of the sizes
    asked for. *)
Definition in_use (m : kmem PT) : list (Z * Z) := km_stacks m ++ km_live m.

Lemma in_use_lookup n m i p size :
  kmem_inv n m → in_use m !! i = Some (p, size) →
  ∃ b, (km_stacks m ++ live_blocks (km_live m)) !! i = Some (p, b) ∧ size ≤ b.
Proof.
  intros Hinv. unfold in_use. rewrite !lookup_app. destruct (km_stacks m !! i) as [x|]; [naive_solver|].
  intros Hl. pose proof (Forall_lookup_1 _ _ _ _ (ki_live _ _ Hinv) Hl) as Hne. simpl in Hne.
  unfold live_blocks. rewrite list_lookup_fmap, Hl. simpl.
  destruct (size_class_index size) as [k|] eqn:Hk; [|done].
  destruct (size_class_index_spec _ _ Hk) as (c & _ & Hcs & ? & _).
  exists (class_size size). split; [done|]. lia.
Qed.

Lemma kmem_apart n m : kmem_inv n m → apart (km_stacks m ++ live_blocks (km_live m)).
Proof.
  intros [[Hn _] _ _ _ Hst Hbl [Ha1 Ha2] _ _]. unfold slub_blocks in *.
  apply apart_app in Ha2 as (Ha2 & _). apply apart_app. split_and!; [done..|].
  intros b c Hb Hc. apply Forall_app in Hbl as [Hbl _]. left.
  rewrite Forall_forall in Hst, Hbl. destruct (Hst b Hb) as (_ & ? & _), (Hbl c Hc) as (? & _).
  unfold KSTACK_VA_END, SLUB_VA_START in *. lia.
Qed.

Lemma in_use_owned n m i p size q :
  kmem_inv n m → in_use m !! i = Some (p, size) → in_block q (p, size) → owned m q ∧ kpage q.
Proof.
  intros Hinv Hi Hq. destruct (in_use_lookup _ _ _ _ _ Hinv Hi) as (b & Hb & Hle).
  assert ((p, b) ∈ km_stacks m ++ slub_blocks m) as Hel.
  { unfold slub_blocks. rewrite (assoc_L (++)), elem_of_app. left. by eapply list_elem_of_lookup_2. }
  destruct Hq as [Hq1 Hq2]. simpl in *. split.
  { exists (p, b). split; [done|]. split; simpl; [lia|done]. }
  unfold kpage. apply elem_of_app in Hel as [Hel|Hel].
  - pose proof (proj1 (Forall_forall _ _) (ki_stacks _ _ Hinv) _ Hel) as (? & _). simpl in *. lia.
  - pose proof (proj1 (Forall_forall _ _) (ki_blocks _ _ Hinv) _ Hel) as (? & _). simpl in *.
    unfold KSTACK_VA_START, SLUB_VA_START in *. lia.
Qed.

(** C3: From boot, with distinct free frames none of which is mapped at a
    kernel page, every sequence of up to 2^25 requests (kernel stacks, SLUB
    allocations and frees of live pointers, pages mapped or frames taken by
    other code) runs without a panic, and afterwards: the stacks and the
    allocations not freed do not overlap; each of their pages is mapped; and
    no two of those pages, of the same or of different blocks, share a
    physical frame. *)
Theorem kernel_memory_safe (pa : PageAllocator PT) ops :
  pa_inv kpage (λ _, False) pa → zlen ops ≤ 2 ^ 25 → Forall kmem_op_ok ops →
  ∃ m, kmem_run ops (kmem_init pa) = Done m ∧
    (∀ i j p size q size', i ≠ j →
       in_use m !! i = Some (p, size) → in_use m !! j = Some (q, size') →
       p + size ≤ q ∨ q + size' ≤ p) ∧
    (∀ i p size x, in_use m !! i = Some (p, size) → in_block x (p, size) →
       ∃ f, translate (pa_mapper (km_pa m)) x = Some f ∧
         ∀ j q size' y, in_use m !! j = Some (q, size') → in_block y (q, size') →
           translate (pa_mapper (km_pa m)) y = Some f → y = x).
Proof.
  intros Hpa Hn Hops. apply kmem_init_inv in Hpa.
  destruct (kmem_run_inv ops 0 _ Hpa) as (m & Hm & Hinv); [lia|done|].
  exists m. split_and!; [done|..].
  - intros i j p s q s' Hij Hi Hj.
    destruct (in_use_lookup _ _ _ _ _ Hinv Hi) as (b & Hb & ?).
    destruct (in_use_lookup _ _ _ _ _ Hinv Hj) as (c & Hc & ?).
    pose proof (apart_lookup _ _ _ _ _ (kmem_apart _ _ Hinv) Hb Hc Hij) as Hd.
    unfold disj in Hd. simpl in Hd. lia.
  - intros i p s x Hi Hx. destruct (in_use_owned _ _ _ _ _ _ Hinv Hi Hx) as [Hox Hkx].
    destruct (ki_mapped _ _ Hinv _ Hox) as [f Hf]. exists f. split; [done|].
    intros j q s' y Hj Hy Hfy. destruct (in_use_owned _ _ _ _ _ _ Hinv Hj Hy) as [Hoy Hky].
    by eapply (pai_inj _ _ _ (ki_pa _ _ Hinv)).
Qed.

End kmem_inv.

(* ------------------------------------------------------------------ *)
(** ** Boot frames and address spaces *)

Section spaces.
(** [n] allocations in a row. *)
Fixpoint allocate_frames (n : nat) (a : falloc) : outcome (list Z * falloc) :=
  match n with
  | O => Done ([], a)
  | S n =>
      '(fo, a) ← allocate_frame a;
      '(fs, a) ← allocate_frames n a;
      Done (match fo with Some f => f :: fs | None => fs end, a)
  end.

Lemma allocate_frames_spec n : ∀ a,
  falloc_ok a →
  ∃ a', allocate_frames n a = Done (take n (frames_left a), a') ∧ falloc_ok a' ∧
        frames_left a' = drop n (frames_left a).
Proof.
  induction n as [|n IH]; intros a Ha; simpl; [by eauto|].
  destruct (allocate_frame_spec a Ha) as (a1 & -> & Ha1 & Hl). simpl.
  destruct (IH a1 Ha1) as (a2 & -> & Ha2 & Hl2). simpl. exists a2. rewrite Hl2, Hl.
  destruct (frames_left a); simpl; rewrite ?take_nil, ?drop_nil; done.
Qed.

(** The boot frame allocator hands out the frames of BOOT_FRAMES in
    order and each one once: when the array holds distinct frames, any number
    of allocations returns distinct frames, none of which is left to be
    handed out again, and stops returning frames only when all have been. *)
Theorem boot_frames_once frames count n :
  0 ≤ count ≤ zlen frames → NoDup (omap id frames) →
  ∃ fs a, allocate_frames n (StaticBootFrameAllocator_new frames count) = Done (fs, a) ∧
    NoDup fs ∧ (∀ f, f ∈ fs → Some f ∈ frames ∧ f ∉ frames_left a) ∧
    fs ++ frames_left a = omap id (ztake count frames).
Proof.
  intros Hc Hnd. set (a0 := StaticBootFrameAllocator_new frames count).
  assert (falloc_ok a0) as Hok by (unfold falloc_ok; simpl; lia).
  destruct (allocate_frames_spec n a0 Hok) as (a & -> & _ & Hl).
  assert (frames_left a0 = omap id (ztake count frames)) as Hf.
  { unfold frames_left, zslice, zdrop. simpl. by rewrite Z.sub_0_r, drop_0. }
  rewrite <-Hf.
  assert (NoDup (frames_left a0)) as Hnd0.
  { rewrite Hf. rewrite <-(take_drop (Z.to_nat count) frames), omap_app in Hnd.
    by apply NoDup_app in Hnd as (? & _). }
  rewrite <-(take_drop n (frames_left a0)) in Hnd0.
  apply NoDup_app in Hnd0 as (? & Hdisj & _).
  eexists _, _. split_and!; [done|done| |by rewrite Hl, take_drop].
  intros f Hin. rewrite Hl. split; [|by apply Hdisj].
  apply (subseteq_take n) in Hin. rewrite Hf in Hin.
  apply list_elem_of_omap in Hin as ([f'|] & Hin & ?); simplify_eq/=. by eapply subseteq_take.
Qed.

Lemma copy_upper_spec (active : list Z) k : ∀ t,
  zlen active = 512 → zlen t = 512 → (k ≤ 256)%nat →
  ∃ t', for_each (seqZ 256 (Z.of_nat k)) (λ i t, e ← idx active i; upd t i e) t = Done t' ∧
    zlen t' = 512 ∧ (∀ i, i < 256 → zget t' i = zget t i) ∧
    (∀ i, 256 ≤ i < 256 + Z.of_nat k → zget t' i = zget active i).
Proof.
  induction k as [|k IH]; intros t Ha Ht Hk.
  { exists t. split_and!; [done..|]. intros i. lia. }
  replace (Z.of_nat (S k)) with (Z.of_nat k + 1) by lia. rewrite seqZ_snoc, for_each_app by lia.
  destruct (IH t Ha Ht ltac:(lia)) as (t1 & -> & Hl & Hlo & Hhi). simpl.
  destruct (zget_is_Some active (256 + Z.of_nat k)) as [e He]; [lia|].
  rewrite (proj2 (idx_Done _ _ _) He). simpl. rewrite upd_Done by lia. simpl.
  eexists. split_and!; [done|by rewrite zlen_zset|..]; intros i Hi.
  { rewrite zget_zset_ne by lia. auto. }
  destruct (decide (i = 256 + Z.of_nat k)) as [->|Hne].
  - by rewrite zget_zset_eq by lia.
  - rewrite zget_zset_ne by done. apply Hhi. lia.
Qed.

Lemma create_user_page_table_spec fa cr3 phys active f fs :
  falloc_ok fa → frames_left fa = f :: fs → f ≠ cr3 →
  phys !! cr3 = Some active → zlen active = 512 →
  ∃ fa' table phys', create_user_page_table fa cr3 phys = Done (Some f, fa', phys') ∧
    frames_left fa' = fs ∧ advance fa fa' ∧ phys' !! f = Some table ∧ zlen table = 512 ∧
    (∀ i, 0 ≤ i < 256 → zget table i = Some 0) ∧
    (∀ i, 256 ≤ i < 512 → zget table i = zget active i) ∧
    (∀ g, g ≠ f → phys' !! g = phys !! g).
Proof.
  intros Hok Hl Hne Hact Hlen. unfold create_user_page_table.
  destruct (allocate_frame_spec fa Hok) as (fa' & Ea & Hok' & Hl'). rewrite Ea. rewrite Hl in *. simpl in *.
  rewrite lookup_insert_ne by done. rewrite Hact. simpl.
  destruct (copy_upper_spec active 256 (zrep 512 0) Hlen) as (t & E & Ht & Hlo & Hhi); [done|lia|].
  unfold copy_kernel_half. change 256 with (Z.of_nat 256) at 2. rewrite E. simpl. exists fa', t, (<[f := t]> (<[f := zrep 512 0]> phys)).
  split_and!; [done|done|by eapply advance_step, advance_refl|by rewrite lookup_insert_eq|done|..].
  - intros i Hi. rewrite Hlo, zget_zrep by lia. done.
  - intros i Hi. apply Hhi. lia.
  - intros g Hgf. by rewrite !lookup_insert_ne by done.
Qed.

(** A new user address space takes one fresh frame for its top-level
    table, whose lower half (user addresses) is empty and whose upper half is
    that of the active table: kernel mappings are shared, user mappings never
    are; no other table changes. *)
Theorem user_page_table_shares_kernel fa cr3 phys active f fs :
  falloc_ok fa → frames_left fa = f :: fs → f ≠ cr3 →
  phys !! cr3 = Some active → zlen active = 512 →
  ∃ fa' table phys', create_user_page_table fa cr3 phys = Done (Some f, fa', phys') ∧
    frames_left fa' = fs ∧ phys' !! f = Some table ∧ zlen table = 512 ∧
    (∀ i, 0 ≤ i < 256 → zget table i = Some 0) ∧
    (∀ i, 256 ≤ i < 512 → zget table i = zget active i) ∧
    (∀ g, g ≠ f → phys' !! g = phys !! g).
Proof.
  intros. edestruct (create_user_page_table_spec fa cr3 phys) as (fa' & t & phys' & ? & ? & _ & ?); eauto 10.
Qed.
End spaces.

(* ------------------------------------------------------------------ *)
(** ** An instance, and the theorems at work *)

(** Page tables as a finite map, taking a frame for every new table. *)
Definition map_table_map_to (page frame flags : Z) (a : falloc) (t : gmap Z Z)
    : map_result * falloc * gmap Z Z :=
  match t !! page with
  | Some e => (MapAlreadyMapped e, a, t)
  | None =>
      match allocate_frame a with
      | Done (Some _, a') => (MapOk, a', <[page := frame]> t)
      | Done (None, a') => (MapFailed, a', t)
      | Panic => (MapFailed, a, t)
      end
  end.

#[global] Program Instance map_table_Mapper : Mapper (gmap Z Z) := {|
  translate := λ t p, t !! p;
  map_to := map_table_map_to;
|}.
Next Obligation.
  intros page frame flags a t a' t' E. unfold map_table_map_to in E.
  repeat case_match; simplify_eq. split_and!; [done|by rewrite lookup_insert_eq|].
  intros. by rewrite lookup_insert_ne.
Qed.
Next Obligation.
  intros page frame flags a t r a' t' E. unfold map_table_map_to in E.
  repeat case_match; by simplify_eq.
Qed.
Next Obligation.
  intros page frame flags a t e a' t' E. unfold map_table_map_to in E.
  repeat case_match; by simplify_eq.
Qed.
Next Obligation.
  intros page frame flags a t e E. unfold map_table_map_to. rewrite E. eauto.
Qed.
Next Obligation.
  intros page frame flags a t r a' t' E. unfold map_table_map_to in E.
  repeat case_match; simplify_eq; try constructor; (eapply advance_step; [done|constructor]).
Qed.

#[global, refine] Instance map_table_budget : MapperBudget (gmap Z Z) := { mappable _ _ := True }.
Proof.
  - intros page frame flags a t r a' t' E Hok. unfold map_to in E. simpl in E. unfold map_table_map_to in E.
    destruct (allocate_frame_spec a Hok) as (a1 & Ea & Hok1 & Hl). rewrite Ea in E.
    assert (zlen (frames_left a) ≤ zlen (frames_left a1) + 1) as Hle
      by (rewrite Hl; destruct (frames_left a); unfold zlen; simpl; lia).
    destruct (t !! page); [by simplify_eq; lia|]. destruct (head (frames_left a)); simplify_eq; lia.
  - done.
  - intros page frame flags a t r a' t' E _ Hok Hf. unfold map_to in E. simpl in E. unfold map_table_map_to in E.
    destruct (allocate_frame_spec a Hok) as (a1 & Ea & Hok1 & Hl). rewrite Ea in E.
    destruct (t !! page); [by simplify_eq|].
    destruct (frames_left a) as [|f fs]; [unfold zlen in Hf; simpl in Hf; lia|]. simpl in E. by simplify_eq.
Defined.

(** [n] boot frames. *)
Definition boot_falloc (n : Z) : falloc :=
  StaticBootFrameAllocator_new ((λ i, Some (i * PAGE_SIZE)) <$> seqZ 1 n) n.

Definition demo_pa : PageAllocator (gmap Z Z) := mkPageAllocator ∅ (boot_falloc 40).
Definition demo_ops : list kmem_op :=
  [KStack 8192; KAlloc 5000; KAlloc 4096; KTake; KFree 0; KStack 4096; KAlloc 8192].

Lemma demo_pa_inv : pa_inv kpage (λ _, False) demo_pa.
Proof. split; [by vm_compute| |done|done]. apply (bool_decide_unpack _). by vm_compute. Qed.

Lemma kernel_memory_safe_witness :
  ∃ m, kmem_run demo_ops (kmem_init demo_pa) = Done m ∧
    ∀ i j p size q size', i ≠ j →
      in_use m !! i = Some (p, size) → in_use m !! j = Some (q, size') →
      p + size ≤ q ∨ q + size' ≤ p.
Proof.
  destruct (kernel_memory_safe demo_pa demo_ops) as (m & Hm & Hd & _).
  - apply demo_pa_inv.
  - vm_compute. discriminate.
  - repeat constructor; vm_compute; discriminate || reflexivity.
  - exists m. split; assumption.
Defined.

(** The fourth block in use reuses the block freed before. *)
Example demo_reuse :
  in_use <$> kmem_run demo_ops (kmem_init demo_pa) =
  Done [(KSTACK_VA_START, 8192); (KSTACK_VA_START + 8192, 4096);
        (SLUB_VA_START + 8192, 4096); (SLUB_VA_START, 8192)].
Proof. vm_compute. reflexivity. Qed.

Lemma boot_frames_once_witness :
  ∃ fs a, allocate_frames 3 (StaticBootFrameAllocator_new [Some 4096; None; Some 8192] 3) = Done (fs, a) ∧
    NoDup fs.
Proof.
  destruct (boot_frames_once [Some 4096; None; Some 8192] 3 3) as (fs & a & ? & ? & _).
  - vm_compute. split; discriminate.
  - apply (bool_decide_unpack _). vm_compute. exact I.
  - exists fs, a. split; assumption.
Defined.

Lemma user_page_table_shares_kernel_witness :
  ∃ fa table phys,
    create_user_page_table (StaticBootFrameAllocator_new [Some 4096] 1) 0 {[0 := zrep 512 7]}
      = Done (Some 4096, fa, phys) ∧ phys !! 4096 = Some table ∧
    zget table 3 = Some 0 ∧ zget table 300 = Some 7.
Proof.
  destruct (user_page_table_shares_kernel (StaticBootFrameAllocator_new [Some 4096] 1) 0
    {[0 := zrep 512 7]} (zrep 512 7) 4096 []) as (fa & t & phys & E & _ & Ht & _ & Hlo & Hhi & _).
  - vm_compute. repeat split; discriminate.
  - vm_compute. reflexivity.
  - discriminate.
  - reflexivity.
  - reflexivity.
  - exists fa, t, phys. split; [exact E|]. split; [exact Ht|]. split; [apply Hlo; lia|].
    rewrite Hhi by lia. reflexivity.
Defined.
