(* ===== verification/Loader.v ===== *)
(** * The ELF loader (loader/src/elf.rs, loader/src/lib.rs)

    A file is a list of bytes.  [load_elf] reads the header and the program
    headers through raw pointers cast to packed structs: every such read is a
    read of little-endian fields at an offset, and an offset outside the slice
    (undefined behaviour in the source) is an explicit [Panic].  The heap that
    holds the segments' vectors and the address type of the x86_64 crate are
    parameters.

    Shown here: a file laid out as the ELF64 format prescribes is loaded as
    exactly the image it describes; what is not such a file is refused with
    the error of the check that fails; and a header with a small
    [e_phentsize] makes the loader read outside the file. *)

From S2P Require Import Prelude.

Definition ELF_MAGIC : list Z := [0x7F; 0x45; 0x4C; 0x46].
Definition Machine_X86_64 : Z := 0x3E.

Inductive SegmentType := Null | Load | Dynamic | Interp | Note | Shlib | Phdr | Tls.
Definition SegmentType_u32 (t : SegmentType) : Z :=
  match t with
  | Null => 0 | Load => 1 | Dynamic => 2 | Interp => 3
  | Note => 4 | Shlib => 5 | Phdr => 6 | Tls => 7
  end.

Record Elf64Header := mkElf64Header {
  e_ident : list Z;
  e_type : Z; e_machine : Z; e_version : Z;
  e_entry : Z; e_phoff : Z; e_shoff : Z;
  e_flags : Z; e_ehsize : Z; e_phentsize : Z; e_phnum : Z;
  e_shentsize : Z; e_shnum : Z; e_shstrndx : Z;
}.

Record ProgramHeader := mkProgramHeader {
  p_type : Z; p_flags : Z;
  p_offset : Z; p_vaddr : Z; p_paddr : Z;
  p_filesz : Z; p_memsz : Z; p_align : Z;
}.

Definition PF_X : Z := 1.
Definition PF_W : Z := 2.
Definition PF_R : Z := 4.

Definition Elf64Header_size : Z := 64.
Definition ProgramHeader_size : Z := 56.

(** [&*(data.as_ptr() as *const Elf64Header)]. *)
Definition header_at (data : list Z) (o : Z) : outcome Elf64Header :=
  ident ← slice data o (o + 16);
  ty ← le_at 2 data (o + 16); mach ← le_at 2 data (o + 18); ver ← le_at 4 data (o + 20);
  entry ← le_at 8 data (o + 24); phoff ← le_at 8 data (o + 32); shoff ← le_at 8 data (o + 40);
  flags ← le_at 4 data (o + 48); ehsize ← le_at 2 data (o + 52); phentsize ← le_at 2 data (o + 54);
  phnum ← le_at 2 data (o + 56); shentsize ← le_at 2 data (o + 58); shnum ← le_at 2 data (o + 60);
  shstrndx ← le_at 2 data (o + 62);
  Done (mkElf64Header ident ty mach ver entry phoff shoff flags ehsize phentsize phnum
          shentsize shnum shstrndx).

(** [&*(ptr as *const ProgramHeader)]. *)
Definition program_header_at (data : list Z) (o : Z) : outcome ProgramHeader :=
  ty ← le_at 4 data o; flags ← le_at 4 data (o + 4);
  offset ← le_at 8 data (o + 8); vaddr ← le_at 8 data (o + 16); paddr ← le_at 8 data (o + 24);
  filesz ← le_at 8 data (o + 32); memsz ← le_at 8 data (o + 40); align ← le_at 8 data (o + 48);
  Done (mkProgramHeader ty flags offset vaddr paddr filesz memsz align).

Definition validate (h : Elf64Header) : result unit :=
  if negb (bool_decide (ztake 4 (e_ident h) = ELF_MAGIC)) then Err "ELF magic doesn't match"
  else if negb (default 0 (zget (e_ident h) 4) =? 2) then Err "Not 64-bit ELF"
  else if negb (e_machine h =? Machine_X86_64) then Err "Machine not x86_64"
  else Ok tt.

Record SegmentFlags := mkSegmentFlags {
  readable : bool;
  writable : bool;
  executable : bool;
}.

Record LoadableSegment := mkLoadableSegment {
  virtual_address : Z;
  seg_size : Z;
  flags : SegmentFlags;
  seg_data : list Z;
}.

Record LoadedImage := mkLoadedImage {
  entry_point : Z;
  segments : list LoadableSegment;
}.

Section load.
(** [VirtAddr::new] of the x86_64 crate, and whether a vector of a given
    capacity fits the kernel heap. *)
Context (VirtAddr_new : Z → outcome Z) (heap_fits : Z → bool).

Definition seg_flags (f : Z) : SegmentFlags :=
  mkSegmentFlags (negb (Z.land f PF_R =? 0)) (negb (Z.land f PF_W =? 0)) (negb (Z.land f PF_X =? 0)).

(** One iteration of the loop over the program headers: [None] when the
    header is not a LOAD segment. *)
Definition load_segment (data : list Z) (ph : ProgramHeader)
    : outcome (result (option LoadableSegment)) :=
  if p_type ph =? SegmentType_u32 Load then
    if zlen data <? p_offset ph ⊞ p_filesz ph then Done (Err "Segment truncated")
    else
      _ ← assert_or_panic (heap_fits (p_memsz ph));
      let start := p_offset ph in
      let end_ := start ⊞ p_filesz ph in
      file ← slice data start end_;
      let zero_fill := p_memsz ph ⊟ p_filesz ph in
      _ ← assert_or_panic (heap_fits (zlen file + zero_fill));
      va ← VirtAddr_new (p_vaddr ph);
      Done (Ok (Some (mkLoadableSegment va (p_memsz ph) (seg_flags (p_flags ph))
                        (file ++ zrep zero_fill 0))))
  else Done (Ok None).

(** The loop, from header [i] on; [n] headers are left. *)
Fixpoint load_segments (data : list Z) (ph_offset ph_size : Z) (n : nat) (i : Z)
    : outcome (result (list LoadableSegment)) :=
  match n with
  | O => Done (Ok [])
  | S n =>
      ph ← program_header_at data (ph_offset ⊞ i * ph_size);
      r ← load_segment data ph;
      match r with
      | Err e => Done (Err e)
      | Ok so =>
          rest ← load_segments data ph_offset ph_size n (i + 1);
          Done match rest with
               | Err e => Err e
               | Ok segs => Ok (option_list so ++ segs)
               end
      end
  end.

Definition load_elf (data : list Z) : outcome (result LoadedImage) :=
  if zlen data <? Elf64Header_size then Done (Err "File too small")
  else
    header ← header_at data 0;
    match validate header with
    | Err e => Done (Err e)
    | Ok _ =>
        let ph_offset := e_phoff header in
        let ph_count := e_phnum header in
        let ph_size := e_phentsize header in
        if zlen data <? ph_offset ⊞ ph_count * ph_size then Done (Err "Program headers truncated")
        else
          segs ← load_segments data ph_offset ph_size (Z.to_nat ph_count) 0;
          match segs with
          | Err e => Done (Err e)
          | Ok segs => entry ← VirtAddr_new (e_entry header); Done (Ok (mkLoadedImage entry segs))
          end
    end.
End load.

(* ------------------------------------------------------------------ *)
(** ** The ELF64 format *)

(** The packed structs as bytes: the fields in order, little-endian. *)
Definition encode_header (h : Elf64Header) : list Z :=
  e_ident h ++ to_le 2 (e_type h) ++ to_le 2 (e_machine h) ++ to_le 4 (e_version h) ++
  to_le 8 (e_entry h) ++ to_le 8 (e_phoff h) ++ to_le 8 (e_shoff h) ++
  to_le 4 (e_flags h) ++ to_le 2 (e_ehsize h) ++ to_le 2 (e_phentsize h) ++ to_le 2 (e_phnum h) ++
  to_le 2 (e_shentsize h) ++ to_le 2 (e_shnum h) ++ to_le 2 (e_shstrndx h).

Definition encode_program_header (p : ProgramHeader) : list Z :=
  to_le 4 (p_type p) ++ to_le 4 (p_flags p) ++ to_le 8 (p_offset p) ++ to_le 8 (p_vaddr p) ++
  to_le 8 (p_paddr p) ++ to_le 8 (p_filesz p) ++ to_le 8 (p_memsz p) ++ to_le 8 (p_align p).

Definition header_wf (h : Elf64Header) : Prop :=
  zlen (e_ident h) = 16 ∧ is_uint 16 (e_type h) ∧ is_uint 16 (e_machine h) ∧ is_uint 32 (e_version h) ∧
  is_uint 64 (e_entry h) ∧ is_uint 64 (e_phoff h) ∧ is_uint 64 (e_shoff h) ∧ is_uint 32 (e_flags h) ∧
  is_uint 16 (e_ehsize h) ∧ is_uint 16 (e_phentsize h) ∧ is_uint 16 (e_phnum h) ∧
  is_uint 16 (e_shentsize h) ∧ is_uint 16 (e_shnum h) ∧ is_uint 16 (e_shstrndx h).

Definition program_header_wf (p : ProgramHeader) : Prop :=
  is_uint 32 (p_type p) ∧ is_uint 32 (p_flags p) ∧ is_uint 64 (p_offset p) ∧ is_uint 64 (p_vaddr p) ∧
  is_uint 64 (p_paddr p) ∧ is_uint 64 (p_filesz p) ∧ is_uint 64 (p_memsz p) ∧ is_uint 64 (p_align p).

(** Bits 47 to 63 of an address are equal. *)
Definition canonical (v : Z) : Prop := 0 ≤ v < 2 ^ 47 ∨ 2 ^ 64 - 2 ^ 47 ≤ v < 2 ^ 64.

(** What the format asks of a LOAD segment of a file of [len] bytes. *)
Definition load_ok (len : Z) (p : ProgramHeader) : Prop :=
  p_offset p + p_filesz p ≤ len ∧ p_filesz p ≤ p_memsz p ∧ canonical (p_vaddr p).

(** [data] is an x86-64 ELF64 file with header [h] and program headers [phs]. *)
Record elf_file (data : list Z) (h : Elf64Header) (phs : list ProgramHeader) : Prop := {
  ef_len : zlen data < 2 ^ 63;
  ef_header : holds data 0 (encode_header h);
  ef_wf : header_wf h;
  ef_magic : ztake 5 (e_ident h) = ELF_MAGIC ++ [2];
  ef_machine : e_machine h = Machine_X86_64;
  ef_entry : canonical (e_entry h);
  ef_phnum : e_phnum h = zlen phs;
  ef_phentsize : ProgramHeader_size ≤ e_phentsize h;
  ef_table : e_phoff h + e_phnum h * e_phentsize h ≤ zlen data;
  ef_phs : ∀ i p, zget phs i = Some p →
    program_header_wf p ∧ holds data (e_phoff h + i * e_phentsize h) (encode_program_header p) ∧
    (p_type p = SegmentType_u32 Load → load_ok (zlen data) p);
}.

(** The segment a LOAD header describes: the file's bytes, then zeros up to
    the size in memory. *)
Definition described (data : list Z) (p : ProgramHeader) : option LoadableSegment :=
  if p_type p =? SegmentType_u32 Load then
    Some (mkLoadableSegment (p_vaddr p) (p_memsz p)
            (mkSegmentFlags (Z.testbit (p_flags p) 2) (Z.testbit (p_flags p) 1) (Z.testbit (p_flags p) 0))
            (zslice data (p_offset p) (p_offset p + p_filesz p) ++
             zrep (p_memsz p - p_filesz p) 0))
  else None.

(* ------------------------------------------------------------------ *)
(** ** Reading fields *)

Section fields.
Lemma program_header_at_holds data o p :
  program_header_wf p → holds data o (encode_program_header p) → program_header_at data o = Done p.
Proof.
  intros (?&?&?&?&?&?&?&?) Hh. unfold program_header_at, encode_program_header in *.
  do 7 next_field Hh. rewrite (holds_le _ _ 8 (p_align p)) by (done || lia). by destruct p.
Qed.

Lemma header_at_holds data o h :
  header_wf h → holds data o (encode_header h) → header_at data o = Done h.
Proof.
  intros (Hi&?&?&?&?&?&?&?&?&?&?&?&?&?) Hh. unfold header_at, encode_header in *.
  rewrite (holds_slice _ _ (e_ident h)); [|by eapply holds_app_l|by rewrite Hi].
  cbn [mbind outcome_bind]. apply holds_app_r in Hh. rewrite Hi in Hh.
  do 12 next_field Hh. rewrite (holds_le _ _ 2 (e_shstrndx h)) by (done || lia). by destruct h.
Qed.
End fields.

Lemma land_pow2_testbit f k : 0 ≤ k → negb (Z.land f (2 ^ k) =? 0) = Z.testbit f k.
Proof.
  intros Hk. destruct (Z.testbit f k) eqn:E.
  - apply negb_true_iff, Z.eqb_neq. intros H. apply (f_equal (λ z, Z.testbit z k)) in H.
    by rewrite Z.land_spec, E, Z.pow2_bits_true, Z.bits_0 in H by done.
  - apply negb_false_iff, Z.eqb_eq. apply Z.bits_inj'. intros i Hi.
    rewrite Z.land_spec, Z.bits_0, Z.pow2_bits_eqb by done.
    destruct (Z.eqb_spec k i) as [->|]; [by rewrite E|by rewrite andb_false_r].
Qed.

Lemma seg_flags_testbit f :
  seg_flags f = mkSegmentFlags (Z.testbit f 2) (Z.testbit f 1) (Z.testbit f 0).
Proof.
  unfold seg_flags. rewrite <-(land_pow2_testbit f 2), <-(land_pow2_testbit f 1),
    <-(land_pow2_testbit f 0) by lia. done.
Qed.

Section load_correct.
Context (VirtAddr_new : Z → outcome Z) (heap_fits : Z → bool).
(** A canonical address is accepted as it is. *)
Hypothesis VirtAddr_canonical : ∀ v, canonical v → VirtAddr_new v = Done v.

Lemma load_segment_described data p :
  program_header_wf p → zlen data < 2 ^ 63 →
  (p_type p = SegmentType_u32 Load → load_ok (zlen data) p ∧ heap_fits (p_memsz p) = true) →
  load_segment VirtAddr_new heap_fits data p = Done (Ok (described data p)).
Proof.
  intros Hwf Hl Hld. unfold load_segment, described.
  destruct (Z.eqb_spec (p_type p) (SegmentType_u32 Load)) as [Ht|]; [|done].
  destruct (Hld Ht) as ((Hoff & Hfs & Hva) & Hfit).
  destruct Hwf as (_&_&[? _]&_&_&[? _]&[_ ?]&_).
  rewrite (wrap_small 64 (p_offset p + p_filesz p)) by (unfold is_uint; lia).
  rewrite (wrap_small 64 (p_memsz p - p_filesz p)) by (unfold is_uint; lia).
  destruct (Z.ltb_spec (zlen data) (p_offset p + p_filesz p)); [lia|].
  rewrite Hfit. simpl. rewrite slice_Done by lia. simpl. rewrite zlen_zslice by lia.
  replace (p_offset p + p_filesz p - p_offset p + (p_memsz p - p_filesz p)) with (p_memsz p) by lia.
  rewrite Hfit, VirtAddr_canonical, seg_flags_testbit by done. done.
Qed.

Lemma load_segments_described data off size phs : ∀ i,
  zlen data < 2 ^ 63 → 0 ≤ off → 0 ≤ i → ProgramHeader_size ≤ size →
  off + (i + zlen phs) * size ≤ zlen data →
  (∀ k p, zget phs k = Some p →
     program_header_wf p ∧ holds data (off + (i + k) * size) (encode_program_header p) ∧
     (p_type p = SegmentType_u32 Load → load_ok (zlen data) p ∧ heap_fits (p_memsz p) = true)) →
  load_segments VirtAddr_new heap_fits data off size (length phs) i = Done (Ok (omap (described data) phs)).
Proof.
  induction phs as [|p phs IH]; intros i Hl Hoff Hi Hsz Hb Hphs; [done|]. cbn [length load_segments].
  rewrite zlen_cons in Hb. pose proof (zlen_nonneg phs). unfold ProgramHeader_size in *.
  destruct (Hphs 0 p) as (Hwf & Hh & Hld); [done|]. rewrite Z.add_0_r in Hh.
  rewrite wrap_small by (unfold is_uint; nia).
  rewrite (program_header_at_holds _ _ _ Hwf Hh). simpl. rewrite load_segment_described by done. simpl.
  rewrite IH; [|done|done|lia|done|nia|].
  - by destruct (described data p).
  - intros k q Hk. replace (i + 1 + k) with (i + (k + 1)) by lia. apply Hphs.
    pose proof (zget_Some_range _ _ _ Hk). by rewrite zget_cons_succ by lia.
Qed.

Lemma validate_ok h : ztake 5 (e_ident h) = ELF_MAGIC ++ [2] → e_machine h = Machine_X86_64 →
  validate h = Ok tt.
Proof.
  intros Hm Hmach. unfold validate. rewrite Hmach. destruct (e_ident h) as [|a [|b [|c [|d [|e l]]]]]; try done.
  unfold ztake in *. simpl in *. by simplify_eq.
Qed.

Lemma load_elf_described data h phs :
  elf_file data h phs →
  (∀ p, p ∈ phs → p_type p = SegmentType_u32 Load → heap_fits (p_memsz p) = true) →
  load_elf VirtAddr_new heap_fits data =
    Done (Ok (mkLoadedImage (e_entry h) (omap (described data) phs))).
Proof.
  intros [Hlen Hh Hwf Hm Hmach Hentry Hnum Hent Htab Hphs] Hfit. unfold load_elf.
  pose proof Hh as (_ & Hsz & _). pose proof Hwf as (Hi & Hu). unfold ProgramHeader_size in *.
  assert (zlen (encode_header h) = 64) as Hel.
  { unfold encode_header. rewrite !zlen_app, !zlen_to_le, Hi by lia. lia. }
  unfold Elf64Header_size. destruct (Z.ltb_spec (zlen data) 64); [lia|].
  rewrite (header_at_holds _ _ _ Hwf Hh). simpl. rewrite validate_ok by done.
  destruct Hu as (_&_&_&_&[? _]&_&_&_&[? _]&[? _]&_).
  rewrite wrap_small by (unfold is_uint; nia).
  destruct (Z.ltb_spec (zlen data) (e_phoff h + e_phnum h * e_phentsize h)); [lia|].
  replace (Z.to_nat (e_phnum h)) with (length phs) by (unfold zlen in *; lia).
  rewrite load_segments_described; [|done|lia|lia|done|lia|].
  - simpl. by rewrite VirtAddr_canonical.
  - intros k p Hk. destruct (Hphs k p Hk) as (? & ? & ?). split_and!; [done|done|].
    intros Ht. split; [auto|]. apply Hfit; [|done].
    unfold zget in Hk. destruct (0 <=? k); [|done]. by eapply list_elem_of_lookup_2.
Qed.

(** C34: A file laid out as the ELF64 format prescribes (header and program
    headers encoded field by field, tables and segments inside the file,
    canonical addresses) whose segments fit the heap is loaded without error
    or panic as exactly the image it describes: its entry point and, in
    order, one segment per LOAD header with its address, size, permissions,
    and the file's bytes followed by zeros. *)
Theorem load_elf_correct data h phs :
  elf_file data h phs →
  (∀ p, p ∈ phs → p_type p = SegmentType_u32 Load → heap_fits (p_memsz p) = true) →
  load_elf VirtAddr_new heap_fits data =
    Done (Ok (mkLoadedImage (e_entry h) (omap (described data) phs))).
Proof. apply load_elf_described. Qed.
End load_correct.

Section load_bounds.
Context (VirtAddr_new : Z → outcome Z) (heap_fits : Z → bool).

Lemma program_header_at_bounds data o p :
  program_header_at data o = Done p → o + ProgramHeader_size ≤ zlen data.
Proof.
  intros H. unfold program_header_at in H. run_in H. unfold le_at in E6. run_in E6.
  apply slice_inv in E7 as (? & ? & _). unfold ProgramHeader_size. lia.
Qed.

(** The check on the program header table trusts [e_phentsize]: when a
    file has a valid header, announces at least one program header, and the
    table it announces ends inside the file but the first header does not,
    the check passes and the loader reads past the end of the file. *)
Theorem load_elf_reads_outside data h :
  header_wf h → holds data 0 (encode_header h) →
  ztake 5 (e_ident h) = ELF_MAGIC ++ [2] → e_machine h = Machine_X86_64 →
  zlen data < 2 ^ 63 → 1 ≤ e_phnum h →
  e_phoff h + e_phnum h * e_phentsize h ≤ zlen data →
  zlen data < e_phoff h + ProgramHeader_size →
  load_elf VirtAddr_new heap_fits data = Panic.
Proof.
  intros Hwf Hh Hm Hmach Hlen Hnum Htab Hout. unfold load_elf.
  pose proof Hh as (_ & Hsz & _). pose proof Hwf as (Hi & Hu).
  assert (zlen (encode_header h) = 64) as Hel.
  { unfold encode_header. rewrite !zlen_app, !zlen_to_le, Hi by lia. lia. }
  unfold Elf64Header_size. destruct (Z.ltb_spec (zlen data) 64); [lia|].
  rewrite (header_at_holds _ _ _ Hwf Hh). simpl. rewrite validate_ok by done.
  destruct Hu as (_&_&_&_&[? _]&_&_&_&[? _]&[? _]&_).
  rewrite wrap_small by (unfold is_uint; nia).
  destruct (Z.ltb_spec (zlen data) (e_phoff h + e_phnum h * e_phentsize h)); [lia|].
  destruct (Z.to_nat (e_phnum h)) as [|n] eqn:En; [lia|]. cbn [load_segments].
  rewrite Z.mul_0_l, Z.add_0_r, wrap_small by (unfold is_uint; nia).
  destruct (program_header_at data (e_phoff h)) as [p|] eqn:E; [|done].
  apply program_header_at_bounds in E. lia.
Qed.
End load_bounds.

(* ------------------------------------------------------------------ *)
(** ** A small executable *)

Definition demo_ident : list Z := ELF_MAGIC ++ [2; 1; 1] ++ zrep 9 0.
Definition demo_header (phnum phentsize : Z) : Elf64Header :=
  mkElf64Header demo_ident 2 Machine_X86_64 1 0x400000 64 0 0 64 phentsize phnum 0 0 0.
Definition demo_ph : ProgramHeader := mkProgramHeader 1 5 120 0x400000 0 3 8 4096.
Definition demo_elf : list Z :=
  encode_header (demo_header 1 56) ++ encode_program_header demo_ph ++ [0x90; 0x90; 0xC3].

Definition demo_VirtAddr_new (v : Z) : outcome Z :=
  if (v <? 2 ^ 47) || (2 ^ 64 - 2 ^ 47 <=? v) then Done v else Panic.

Lemma demo_VirtAddr_canonical v : canonical v → demo_VirtAddr_new v = Done v.
Proof. unfold canonical, demo_VirtAddr_new. intros. zbool; done || lia. Qed.

Lemma demo_elf_file : elf_file demo_elf (demo_header 1 56) [demo_ph].
Proof.
  split.
  1-5: vm_compute; repeat split; discriminate || reflexivity.
  2-4: vm_compute; discriminate || reflexivity.
  - left. vm_compute. by split.
  - intros i p Hi. pose proof (zget_Some_range _ _ _ Hi) as Hr. unfold zlen in Hr. simpl in Hr.
    replace i with 0 in * by lia. vm_compute in Hi. simplify_eq.
    split_and!; try (vm_compute; repeat split; discriminate || reflexivity).
    intros _. split_and!; [by vm_compute..|]. left. vm_compute. by split.
Qed.

Lemma load_elf_correct_witness :
  load_elf demo_VirtAddr_new (λ n, n <? 2 ^ 20) demo_elf =
    Done (Ok (mkLoadedImage 0x400000
      [mkLoadableSegment 0x400000 8 (mkSegmentFlags true false true) [0x90; 0x90; 0xC3; 0; 0; 0; 0; 0]])).
Proof.
  rewrite (load_elf_correct _ _ demo_VirtAddr_canonical _ _ _ demo_elf_file).
  - vm_compute. reflexivity.
  - intros p Hp _. apply list_elem_of_singleton in Hp as ->. reflexivity.
Defined.

Lemma load_elf_reads_outside_witness :
  load_elf demo_VirtAddr_new (λ n, n <? 2 ^ 20) (encode_header (demo_header 1 0)) = Panic.
Proof.
  apply (load_elf_reads_outside _ _ _ (demo_header 1 0));
    vm_compute; repeat split; discriminate || reflexivity.
Defined.
