(* ===== verification/Process.v ===== *)
(** * Address spaces and processes (kernel/src/process.rs, kernel/src/main.rs)

    A [space] is an address space being built: its page table, the boot frame
    allocator, and the contents of physical frames, which the code reaches
    through the direct map ([phys_offset + frame]).  A byte of virtual memory
    is read through the page table ([vbyte]), so that aliased pages would be
    seen.

    Shown here: [map_segment] makes exactly the segment's bytes appear at its
    virtual addresses, zero-fills fresh pages and changes nothing else;
    loading several segments, then the stack, leaves every segment's bytes in
    place; the two copies of [map_segment] in the kernel agree; and a spawned
    process is queued with the context its trampoline expects. *)

From S2P Require Import Prelude X86 Memory Loader Vfs RamFs Fd Task.

Section space.
Context {PT : Type} `{Mapper PT}.
Context (VirtAddr_new : Z → outcome Z).

Record space := mkSpace {
  sp_mapper : PT;
  sp_frames : falloc;
  sp_phys : gmap Z (list Z);
}.

Definition segment_flags (f : SegmentFlags) : Z :=
  let flags := Z.lor FLAG_PRESENT FLAG_USER in
  let flags := if writable f then Z.lor flags FLAG_WRITABLE else flags in
  if negb (executable f) then Z.lor flags FLAG_NO_EXECUTE else flags.

(** The body of the loop over the pages of a segment. *)
Definition map_segment_page (segment : LoadableSegment) (page : Z) (st : space) : outcome space :=
  '(fo, fa) ← allocate_frame (sp_frames st);
  new_frame ← unwrap fo;
  let '(r, fa, t) := map_to page new_frame (segment_flags (flags segment)) fa (sp_mapper st) in
  '(frame, freshly_mapped) ← match r with
                             | MapOk => Done (new_frame, true)
                             | MapAlreadyMapped existing => Done (existing, false)
                             | MapFailed => Panic
                             end;
  let phys := if freshly_mapped : bool then <[frame := zrep 4096 0]> (sp_phys st) else sp_phys st in
  let page_addr := page in
  let seg_addr := virtual_address segment in
  let data_start := if page_addr <? seg_addr then 0 else page_addr - seg_addr in
  let data_end := Z.min (zlen (seg_data segment)) (saturating_sub (page_addr ⊞ 4096) seg_addr) in
  if data_start <? data_end then
    let dest_offset := if page_addr <? seg_addr then seg_addr - page_addr else 0 in
    content ← unwrap (phys !! frame);
    content ← copy_into content dest_offset (dest_offset + (data_end - data_start))
                (zslice (seg_data segment) data_start data_end);
    Done (mkSpace t fa (<[frame := content]> phys))
  else Done (mkSpace t fa phys).

(** [end] and [end - 1] are addresses of the x86_64 crate. *)
Definition map_segment (segment : LoadableSegment) (st : space) : outcome space :=
  let start := virtual_address segment in
  end_ ← VirtAddr_new (start + seg_size segment);
  last ← VirtAddr_new (end_ - 1);
  for_each (range_inclusive (containing start) (containing last)) (map_segment_page segment) st.

(** The copy of [map_segment] in main.rs: the frame is zeroed at once, and
    the end of the data is computed with a plain subtraction. *)
Definition main_map_segment_page (segment : LoadableSegment) (page : Z) (st : space) : outcome space :=
  '(fo, fa) ← allocate_frame (sp_frames st);
  new_frame ← unwrap fo;
  let '(r, fa, t) := map_to page new_frame (segment_flags (flags segment)) fa (sp_mapper st) in
  '(frame, phys) ← match r with
                   | MapOk => Done (new_frame, <[new_frame := zrep 4096 0]> (sp_phys st))
                   | MapAlreadyMapped existing => Done (existing, sp_phys st)
                   | MapFailed => Panic
                   end;
  let page_addr := page in
  let seg_addr := virtual_address segment in
  let data_start := if page_addr <? seg_addr then 0 else page_addr - seg_addr in
  let data_end := Z.min (zlen (seg_data segment)) ((page_addr ⊞ 4096) ⊟ seg_addr) in
  if data_start <? data_end then
    let dest_offset := if page_addr <? seg_addr then seg_addr - page_addr else 0 in
    let count := data_end - data_start in
    content ← unwrap (phys !! frame);
    content ← copy_into content dest_offset (dest_offset + count)
                (zslice (seg_data segment) data_start data_end);
    Done (mkSpace t fa (<[frame := content]> phys))
  else Done (mkSpace t fa phys).

Definition main_map_segment (segment : LoadableSegment) (st : space) : outcome space :=
  let start := virtual_address segment in
  end_ ← VirtAddr_new (start + seg_size segment);
  last ← VirtAddr_new (end_ - 1);
  for_each (range_inclusive (containing start) (containing last)) (main_map_segment_page segment) st.

Definition USER_STACK_TOP : Z := 0x7FFFFFFFF000.
Definition USER_STACK_SIZE : Z := 16384.

(** A mapping error is ignored; the frame is zeroed all the same. *)
Definition user_stack_page (page : Z) (st : space) : outcome space :=
  '(fo, fa) ← allocate_frame (sp_frames st);
  frame ← unwrap fo;
  let flags := Z.lor FLAG_PRESENT (Z.lor FLAG_WRITABLE FLAG_USER) in
  let '(_, fa, t) := map_to page frame flags fa (sp_mapper st) in
  Done (mkSpace t fa (<[frame := zrep 4096 0]> (sp_phys st))).

Definition allocate_user_stack (st : space) : outcome (Z * space) :=
  stack_top ← VirtAddr_new USER_STACK_TOP;
  stack_bottom ← VirtAddr_new (stack_top - USER_STACK_SIZE);
  last ← VirtAddr_new (stack_top - 1);
  st ← for_each (range_inclusive (containing stack_bottom) (containing last)) user_stack_page st;
  Done (stack_top, st).
(** Steps 3 to 6 of [spawn_user_process] on the new address space. *)
Definition load_image (segs : list LoadableSegment) (st : space) : outcome (Z * space) :=
  st ← for_each segs map_segment st;
  allocate_user_stack st.

End space.
Arguments space PT : clear implicits.

(* ------------------------------------------------------------------ *)
(** ** What a program sees *)

(** Pages of the lower half. *)
Definition upage (p : Z) : Prop := 0 ≤ p < 2 ^ 47.

Section seen.
Context {PT : Type} `{MapperBudget PT}.

(** The contents of a page, and a byte, of virtual memory. *)
Definition vpage (st : space PT) (p : Z) : option (list Z) :=
  f ← translate (sp_mapper st) p; sp_phys st !! f.
Definition vbyte (st : space PT) (a : Z) : option Z :=
  c ← vpage st (containing a); zget c (a - containing a).

Record space_inv (st : space PT) : Prop := {
  si_pa : pa_inv upage upage (mkPageAllocator (sp_mapper st) (sp_frames st));
  si_phys : ∀ p f, upage p → translate (sp_mapper st) p = Some f →
    ∃ c, sp_phys st !! f = Some c ∧ zlen c = 4096;
  si_mappable : ∀ p, upage p → mappable (sp_mapper st) p;
}.

Definition frames_count (st : space PT) : nat := length (frames_left (sp_frames st)).

(** What a page of a segment holds afterwards, given what it held before
    (nothing, when it was not mapped). *)
Definition seg_page (seg : LoadableSegment) (p : Z) (before : option (list Z)) (c : list Z) : Prop :=
  zlen c = 4096 ∧
  ∀ o, 0 ≤ o < 4096 →
    zget c o = if bool_decide (virtual_address seg ≤ p + o < virtual_address seg + zlen (seg_data seg))
               then zget (seg_data seg) (p + o - virtual_address seg)
               else zget (default (zrep 4096 0) before) o.
End seen.

Section pages.
Context {PT : Type} `{MapperBudget PT}.

Lemma map_to_user page frame flags a (t : PT) r a' t' :
  mappable t page → (3 ≤ length (frames_left a))%nat → falloc_ok a → map_to page frame flags a t = (r, a', t') →
  r ≠ MapFailed ∧ (length (frames_left a) ≤ 3 + length (frames_left a'))%nat.
Proof.
  intros Hm Hl Hok E. pose proof (map_to_uses _ _ _ _ _ _ _ _ E Hok) as Hu. unfold zlen in Hu. split; [|lia].
  eapply map_to_total; [done..|]. unfold zlen. lia.
Qed.

(** The copy of one page's share of the data. *)
Definition page_copy (seg : LoadableSegment) (p : Z) (content : list Z) : outcome (list Z) :=
  let seg_addr := virtual_address seg in
  let data_start := if p <? seg_addr then 0 else p - seg_addr in
  let data_end := Z.min (zlen (seg_data seg)) (saturating_sub (p ⊞ 4096) seg_addr) in
  if data_start <? data_end then
    let dest_offset := if p <? seg_addr then seg_addr - p else 0 in
    copy_into content dest_offset (dest_offset + (data_end - data_start))
      (zslice (seg_data seg) data_start data_end)
  else Done content.

Lemma page_copy_spec seg p content before :
  upage p → 0 ≤ virtual_address seg < p + 4096 → zlen content = 4096 →
  content = default (zrep 4096 0) before →
  ∃ c, page_copy seg p content = Done c ∧ seg_page seg p before c.
Proof.
  intros Hp Hs Hl Hb. unfold page_copy, upage in *. pose proof (zlen_nonneg (seg_data seg)) as Hd.
  rewrite wrap_small by (unfold is_uint; lia). unfold saturating_sub.
  set (s := virtual_address seg) in *. set (d := seg_data seg) in *.
  set (ds := if p <? s then 0 else p - s).
  set (de := Z.min (zlen d) (Z.max 0 (p + 4096 - s))).
  set (dst := if p <? s then s - p else 0).
  assert (0 ≤ ds ∧ 0 ≤ dst ∧ dst - ds = s - p ∧ (de ≤ zlen d) ∧ (de + (dst - ds) ≤ 4096) ∧
          (ds = 0 ∨ dst = 0)) as (? & ? & Hdd & ? & ? & ?).
  { subst ds de dst. zbool; lia. }
  unfold seg_page. fold s d. rewrite <-Hb. destruct (Z.ltb_spec ds de).
  - assert (zlen (zslice d ds de) = de - ds) as Hzl by (rewrite zlen_zslice by lia; lia).
    rewrite copy_into_Done by lia. eexists. split; [done|]. split; [by rewrite zlen_zsplice by lia|].
    intros o Ho. case_bool_decide as Hin.
    + rewrite zget_zsplice_in by lia. rewrite zget_zslice by lia. f_equal. lia.
    + rewrite zget_zsplice_out by lia. done.
  - eexists. split; [done|]. split; [done|]. intros o Ho. rewrite bool_decide_eq_false_2 by lia. done.
Qed.

(** One page of a segment. *)
Lemma map_segment_page_spec seg p st :
  space_inv st → upage p → (PAGE_SIZE | p) → (4 ≤ frames_count st)%nat →
  0 ≤ virtual_address seg < p + 4096 →
  ∃ st' c, map_segment_page seg p st = Done st' ∧ space_inv st' ∧
    (frames_count st ≤ 4 + frames_count st')%nat ∧
    (∀ q, upage q → q ≠ p → vpage st' q = vpage st q) ∧
    vpage st' p = Some c ∧ seg_page seg p (vpage st p) c.
Proof.
  intros [Hpa Hph Hmp] Hp Hal Hfr Hs. destruct st as [t fa0 phys]. unfold frames_count in *. simpl in *.
  destruct (allocate_frame_spec fa0 (pai_ok _ _ _ Hpa)) as (fa & E & Hok & Hl).
  unfold map_segment_page. simpl. rewrite E. simpl.
  destruct (frames_left fa0) as [|f fs] eqn:Efs; simpl in *; [lia|].
  destruct (map_to p f (segment_flags (flags seg)) fa t) as [[r fa'] t'] eqn:Em.
  destruct (map_one _ _ _ _ _ _ _ _ _ _ _ Hpa E Em) as (Hmono & Hpa' & Hm).
  destruct (map_to_user _ _ _ _ _ _ _ _ (Hmp p Hp) ltac:(rewrite Hl; lia) Hok Em) as [Hnf Hcnt].
  rewrite Hl in Hcnt.
  apply (pa_inv_weaken _ _ upage) in Hpa'; [|by intros; left].
  assert (∀ q, upage q → q ≠ p → translate t' q = translate t q) as Hq.
  { intros q _ Hne. destruct r; [by apply map_to_ok in Em as (_ & _ & ?); auto|..];
      by rewrite (map_to_err _ _ _ _ _ _ _ _ Em). }
  (* the frame written, its contents before, and why no other page sees it *)
  assert (∃ frame content, translate t' p = Some frame ∧ zlen content = 4096 ∧
    content = default (zrep 4096 0) (vpage (mkSpace t fa0 phys) p) ∧
    (∀ q g, upage q → q ≠ p → translate t q = Some g → g ≠ frame) ∧
    ((r = MapOk ∧ frame = f ∧ content = zrep 4096 0) ∨
     (r = MapAlreadyMapped frame ∧ phys !! frame = Some content)))
    as (frame & content & Hfr' & Hcl & Hcb & Hother & Hr).
  { destruct r as [|e|]; [|..|done].
    - exists f, (zrep 4096 0). pose proof Em as (Hn & _ & _)%map_to_ok. unfold vpage; simpl. rewrite Hn.
      split_and!; [by auto|done|done| |by left].
      intros q g Hu Hne Hg ->. apply (pai_free _ _ _ Hpa q f Hu); [done|]. simpl. rewrite Efs. left.
    - pose proof (map_to_already _ _ _ _ _ _ _ _ Em) as He.
      destruct (Hph p e Hp He) as (c & Hc & Hlc). exists e, c. unfold vpage; simpl. rewrite He. simpl.
      rewrite Hc. split_and!; [|done|done| |by right].
      + by rewrite (map_to_err _ _ _ _ _ _ _ _ Em).
      + intros q g Hu Hne Hg ->. apply Hne. by apply (pai_inj _ _ _ Hpa q p e). }
  destruct (page_copy_spec seg p content (vpage (mkSpace t fa0 phys) p) Hp Hs Hcl Hcb)
    as (c & Hcopy & Hseg).
  assert (∃ phys', phys' !! frame = Some c ∧ (∀ g, g ≠ frame → phys' !! g = phys !! g) ∧
    map_segment_page seg p (mkSpace t fa0 phys) = Done (mkSpace t' fa' phys')) as (phys' & Hc' & Hg & Hrun).
  { unfold map_segment_page, page_copy in *. simpl. rewrite E. simpl. rewrite Em.
    destruct Hr as [(-> & -> & ->)|(-> & Hc)]; cbn [mbind outcome_bind];
      destruct (_ <? Z.min _ _); try injection Hcopy as <-.
    - rewrite lookup_insert_eq. simpl. rewrite Hcopy. simpl. eexists. split_and!; [|..|done].
      + by rewrite lookup_insert_eq.
      + intros. by rewrite !lookup_insert_ne.
    - eexists. split_and!; [|..|done]; [by rewrite lookup_insert_eq|]. intros. by rewrite lookup_insert_ne.
    - rewrite Hc. simpl. rewrite Hcopy. simpl. eexists. split_and!; [|..|done].
      + by rewrite lookup_insert_eq.
      + intros. by rewrite lookup_insert_ne.
    - eexists. split_and!; [|..|done]; done. }
  unfold map_segment_page in Hrun. simpl in Hrun. rewrite E in Hrun. simpl in Hrun. rewrite Em in Hrun.
  exists (mkSpace t' fa' phys'), c.
  split_and!; [done|split; [done| |intros q Hu; eapply map_to_mappable; [exact Em|by apply Hmp]]|simpl; lia|..|done].
  - intros q g Hu Hg'. simpl in *. destruct (decide (q = p)) as [->|Hne].
    + simplify_eq. exists c. split; [done|]. apply Hseg.
    + rewrite Hq in Hg' by done. rewrite (Hg g) by eauto. eauto.
  - intros q Hu Hne. unfold vpage; simpl. rewrite Hq by done.
    destruct (translate t q) as [g|] eqn:Hg'; [|done]. simpl. apply Hg. eauto.
  - unfold vpage; simpl. by rewrite Hfr'.
Qed.
End pages.

(* ------------------------------------------------------------------ *)
(** ** Runs of pages *)

Section ranges.
Lemma containing_spec a : 0 ≤ a → 0 ≤ containing a ≤ a ∧ a < containing a + 4096 ∧ (PAGE_SIZE | containing a).
Proof.
  intros. unfold containing, PAGE_SIZE. rewrite Z.shiftr_div_pow2, Z.shiftl_mul_pow2 by lia.
  change (2 ^ 12) with 4096. pose proof (Z.div_mod a 4096 ltac:(lia)).
  pose proof (Z.mod_pos_bound a 4096 ltac:(lia)). pose proof (Z.div_pos a 4096).
  split_and!; [lia..|]. by exists (a `div` 4096).
Qed.

Lemma containing_unique a p : 0 ≤ a → (PAGE_SIZE | p) → p ≤ a < p + 4096 → containing a = p.
Proof.
  intros Ha [k ->] Hr. destruct (containing_spec a Ha) as (? & ? & j & Hj). unfold PAGE_SIZE in *.
  rewrite Hj in *. nia.
Qed.

Lemma containing_mono a b : 0 ≤ a ≤ b → containing a ≤ containing b.
Proof.
  intros. unfold containing. rewrite !Z.shiftr_div_pow2, !Z.shiftl_mul_pow2 by lia.
  pose proof (Z.div_le_mono a b (2 ^ 12) ltac:(lia)). lia.
Qed.

Lemma range_inclusive_elem s e p :
  (PAGE_SIZE | s) → (PAGE_SIZE | e) → p ∈ range_inclusive s e ↔ (PAGE_SIZE | p) ∧ s ≤ p ≤ e.
Proof.
  intros [k ->] [j ->]. unfold range_inclusive, PAGE_SIZE.
  rewrite <-Z.mul_sub_distr_r, Z.div_mul by lia. rewrite list_elem_of_fmap. split.
  - intros (i & -> & Hi%elem_of_seqZ). split; [by exists (k + i); lia|lia].
  - intros [[m ->] ?]. exists (m - k). split; [lia|]. apply elem_of_seqZ. lia.
Qed.

Lemma range_inclusive_NoDup s e : NoDup (range_inclusive s e).
Proof.
  unfold range_inclusive, PAGE_SIZE. apply NoDup_fmap_2; [|apply NoDup_seqZ]. intros i j. lia.
Qed.

Lemma range_inclusive_length a b :
  0 ≤ a ≤ b → Z.of_nat (length (range_inclusive (containing a) (containing b))) ≤ (b - a) `div` 4096 + 2.
Proof.
  intros. unfold range_inclusive. rewrite length_fmap, length_seqZ.
  pose proof (containing_mono a b ltac:(lia)).
  destruct (containing_spec a ltac:(lia)) as (? & ? & _), (containing_spec b ltac:(lia)) as (? & ? & _).
  unfold PAGE_SIZE. rewrite Z2Nat.id.
  - pose proof (Z.div_le_mono (containing b - containing a) (b - a + 1 * 4096) 4096 ltac:(lia)).
    rewrite Z.div_add in * by lia. lia.
  - pose proof (Z.div_pos (containing b - containing a) 4096). lia.
Qed.
End ranges.

Section segments.
Context {PT : Type} `{MapperBudget PT}.
Context (VirtAddr_new : Z → outcome Z).
Hypothesis VirtAddr_canonical : ∀ v, canonical v → VirtAddr_new v = Done v.

(** [st'] extends [st] by at most [n] frames' worth of pages. *)
Lemma map_segment_pages_spec seg l : ∀ st,
  space_inv st → NoDup l → (4 * length l ≤ frames_count st)%nat →
  (∀ p, p ∈ l → upage p ∧ (PAGE_SIZE | p) ∧ 0 ≤ virtual_address seg < p + 4096) →
  ∃ st', for_each l (map_segment_page seg) st = Done st' ∧ space_inv st' ∧
    (frames_count st ≤ 4 * length l + frames_count st')%nat ∧
    (∀ q, upage q → q ∉ l → vpage st' q = vpage st q) ∧
    (∀ q, q ∈ l → ∃ c, vpage st' q = Some c ∧ seg_page seg q (vpage st q) c).
Proof.
  induction l as [|p l IH]; intros st Hinv Hnd Hfr Hl; cbn [length for_each] in *.
  { exists st. split_and!; [done..|lia|done|]. by intros q ?%elem_of_nil. }
  apply NoDup_cons in Hnd as [Hpl Hnd]. destruct (Hl p ltac:(left)) as (Hp & Hal & Hs).
  destruct (map_segment_page_spec seg p st Hinv Hp Hal ltac:(lia) Hs)
    as (st1 & c & -> & Hinv1 & Hfr1 & Hq1 & Hp1 & Hc1). simpl.
  destruct (IH st1 Hinv1 Hnd ltac:(lia)) as (st' & -> & Hinv' & Hfr' & Hq' & Hin').
  { intros q Hq. apply Hl. by right. }
  exists st'. split_and!; [done..|lia| |].
  - intros q Hu [Hne Hnl]%not_elem_of_cons. by rewrite Hq', Hq1.
  - intros q [->|Hq]%elem_of_cons.
    + exists c. by rewrite Hq'.
    + destruct (Hin' q Hq) as (c' & ? & Hc'). exists c'. split; [done|].
      rewrite Hq1 in Hc'; [done|apply Hl; by right|]. intros ->. done.
Qed.

Lemma vpage_len st p c : space_inv st → upage p → vpage st p = Some c → zlen c = 4096.
Proof.
  intros Hinv Hp (f & Ht & Hf)%bind_Some. destruct (si_phys _ Hinv p f Hp Ht) as (c' & ? & ?). congruence.
Qed.

(** A segment as [load_elf] makes it, inside the lower half. *)
Definition user_segment (seg : LoadableSegment) : Prop :=
  0 ≤ virtual_address seg ∧ 0 < seg_size seg ∧ zlen (seg_data seg) = seg_size seg ∧
  virtual_address seg + seg_size seg < 2 ^ 47.

(** Frames enough to map a segment. *)
Definition seg_frames (seg : LoadableSegment) : nat := 4 * Z.to_nat (seg_size seg `div` 4096 + 2).

(** The pages a segment touches. *)
Definition in_seg_pages (seg : LoadableSegment) (a : Z) : Prop :=
  containing (virtual_address seg) ≤ a <
  containing (virtual_address seg + seg_size seg - 1) + 4096.

#[global] Instance in_seg_pages_dec seg a : Decision (in_seg_pages seg a).
Proof. unfold in_seg_pages. apply _. Defined.

Lemma map_segment_spec seg st :
  space_inv st → user_segment seg → (seg_frames seg ≤ frames_count st)%nat →
  ∃ st', map_segment VirtAddr_new seg st = Done st' ∧ space_inv st' ∧
    (frames_count st ≤ seg_frames seg + frames_count st')%nat ∧
    ∀ a, upage a →
      vbyte st' a =
        if bool_decide (virtual_address seg ≤ a < virtual_address seg + seg_size seg)
        then zget (seg_data seg) (a - virtual_address seg)
        else if bool_decide (in_seg_pages seg a) then Some (default 0 (vbyte st a)) else vbyte st a.
Proof.
  intros Hinv (Hs0 & Hs1 & Hdl & Hs2) Hfr. unfold map_segment.
  set (s := virtual_address seg) in *. set (n := seg_size seg) in *.
  rewrite VirtAddr_canonical by (left; lia). cbn [mbind outcome_bind].
  rewrite VirtAddr_canonical by (left; lia). cbn [mbind outcome_bind].
  destruct (containing_spec s ltac:(lia)) as (Hcs & Hcs' & Hds).
  destruct (containing_spec (s + n - 1) ltac:(lia)) as (Hce & Hce' & Hde).
  pose proof (range_inclusive_length s (s + n - 1) ltac:(lia)) as Hlen.
  set (l := range_inclusive (containing s) (containing (s + n - 1))) in *.
  pose proof (λ p, range_inclusive_elem _ _ p Hds Hde) as Hel. fold l in Hel.
  assert (length l ≤ Z.to_nat (n `div` 4096 + 2))%nat as Hll.
  { pose proof (Z.div_le_mono (s + n - 1 - s) n 4096 ltac:(lia)). lia. }
  unfold seg_frames in *. fold n in Hfr |- *.
  destruct (map_segment_pages_spec seg l st Hinv (range_inclusive_NoDup _ _) ltac:(lia))
    as (st' & -> & Hinv' & Hfr' & Hout & Hin).
  { intros p [? ?]%Hel. fold s. split_and!; [unfold upage|done|..]; lia. }
  exists st'. split_and!; [done..|lia|]. intros a Ha. unfold upage in Ha.
  destruct (containing_spec a ltac:(lia)) as (Hca & Hca' & Hda). unfold vbyte, in_seg_pages. fold s n.
  destruct (decide (containing a ∈ l)) as [Hl|Hl].
  - destruct (Hin _ Hl) as (c & Hc & Hlc & Hbytes). apply Hel in Hl as [_ Hr].
    rewrite Hc. cbn [mbind option_bind]. rewrite Hbytes by lia.
    replace (containing a + (a - containing a)) with a by lia. rewrite Hdl. fold s n.
    destruct (bool_decide_reflect (s ≤ a < s + n)); [done|]. rewrite bool_decide_eq_true_2 by lia.
    destruct (vpage st (containing a)) as [c0|] eqn:Hv; cbn [mbind option_bind default from_option id].
    + assert (zlen c0 = 4096) as Hl0 by (apply (vpage_len st (containing a)); [done|unfold upage; lia|done]).
      destruct (zget_is_Some c0 (a - containing a)) as [b ->]; [lia|done].
    + by rewrite zget_zrep by lia.
  - assert (¬ (containing s ≤ a < containing (s + n - 1) + 4096)) as Hno.
    { intros Hr. apply Hl, Hel. split; [done|].
      pose proof (containing_mono s a). destruct Hde as [j Hj], Hda as [i Hi], Hds as [k Hk].
      unfold PAGE_SIZE in *. lia. }
    rewrite !bool_decide_eq_false_2 by lia. rewrite Hout; [done| |done]. unfold upage. lia.
Qed.

Definition seg_range (seg : LoadableSegment) : Z * Z := (virtual_address seg, seg_size seg).

Definition segs_frames (segs : list LoadableSegment) : nat := sum_list_with seg_frames segs.

Lemma map_segments_spec segs : ∀ st,
  space_inv st → Forall user_segment segs → apart (seg_range <$> segs) →
  (segs_frames segs ≤ frames_count st)%nat →
  ∃ st', for_each segs (map_segment VirtAddr_new) st = Done st' ∧ space_inv st' ∧
    (frames_count st ≤ segs_frames segs + frames_count st')%nat ∧
    (∀ seg i, seg ∈ segs → 0 ≤ i < seg_size seg →
       vbyte st' (virtual_address seg + i) = zget (seg_data seg) i) ∧
    (∀ a, upage a → (∀ seg, seg ∈ segs → ¬ in_seg_pages seg a) → vbyte st' a = vbyte st a) ∧
    (∀ a b, upage a → (∀ seg, seg ∈ segs → ¬ virtual_address seg ≤ a < virtual_address seg + seg_size seg) →
       vbyte st a = Some b → vbyte st' a = Some b).
Proof.
  induction segs as [|seg segs IH]; intros st Hinv Hus Hap Hfr.
  { exists st. cbn. split_and!; [done..|lia| |done|done]. by intros seg i ?%elem_of_nil. }
  apply Forall_cons in Hus as [Hu Hus]. cbn [fmap list_fmap apart for_each] in *. destruct Hap as [Hd Hap].
  unfold segs_frames in *. cbn [sum_list_with] in *.
  destruct (map_segment_spec seg st Hinv Hu ltac:(lia)) as (st1 & -> & Hinv1 & Hfr1 & Hb1).
  cbn [mbind outcome_bind].
  destruct (IH st1 Hinv1 Hus Hap ltac:(lia)) as (st' & -> & Hinv' & Hfr' & Hb & Hun & Hkeep).
  pose proof Hu as (Hs0 & Hs1 & Hdl & Hs2).
  exists st'. split_and!; [done..|lia| | |].
  - intros sg i [->|Hin]%elem_of_cons Hi; [|by apply Hb].
    destruct (zget_is_Some (seg_data seg) i) as [b Hbi]; [lia|]. rewrite Hbi.
    apply Hkeep; [unfold upage; lia| |].
    + intros sg Hsg. rewrite Forall_forall in Hd.
      destruct (Hd (seg_range sg)) as [Hdj|Hdj]; [by apply list_elem_of_fmap_2|cbn in Hdj; lia..].
    + rewrite Hb1, bool_decide_eq_true_2 by (unfold upage; lia).
      by replace (virtual_address seg + i - virtual_address seg) with i by lia.
  - intros a Ha Hno. rewrite Hun; [|done|intros; apply Hno; by right].
    rewrite Hb1 by done. specialize (Hno seg ltac:(left)).
    rewrite !bool_decide_eq_false_2; [done|done|]. intros Hr. apply Hno. unfold in_seg_pages.
    destruct (containing_spec (virtual_address seg)) as (? & ? & _); [lia|].
    destruct (containing_spec (virtual_address seg + seg_size seg - 1)) as (? & ? & _); [lia|]. lia.
  - intros a b Ha Hno Hab. apply Hkeep; [done|intros; apply Hno; by right|].
    rewrite Hb1 by done. rewrite bool_decide_eq_false_2 by (apply Hno; left). rewrite Hab.
    by destruct (bool_decide _).
Qed.

Lemma user_stack_page_spec p st :
  space_inv st → upage p → (PAGE_SIZE | p) → (4 ≤ frames_count st)%nat →
  ∃ st', user_stack_page p st = Done st' ∧ space_inv st' ∧
    (frames_count st ≤ 4 + frames_count st')%nat ∧
    (∀ q, upage q → q ≠ p → vpage st' q = vpage st q) ∧
    vpage st' p = Some (default (zrep 4096 0) (vpage st p)).
Proof.
  intros Hinv Hp Hal Hfr. pose proof Hinv as [Hpa Hph Hmp]. destruct st as [t fa0 phys].
  unfold frames_count in *. simpl in *.
  destruct (allocate_frame_spec fa0 (pai_ok _ _ _ Hpa)) as (fa & E & Hok & Hl).
  unfold user_stack_page. simpl. rewrite E. simpl.
  destruct (frames_left fa0) as [|f fs] eqn:Efs; simpl in *; [lia|].
  set (fl := Z.lor _ _). destruct (map_to p f fl fa t) as [[r fa'] t'] eqn:Em.
  destruct (map_one _ _ _ _ _ _ _ _ _ _ _ Hpa E Em) as (Hmono & Hpa' & Hm).
  destruct (map_to_user _ _ _ _ _ _ _ _ (Hmp p Hp) ltac:(rewrite Hl; lia) Hok Em) as [Hnf Hcnt].
  rewrite Hl in Hcnt.
  apply (pa_inv_weaken _ _ upage) in Hpa'; [|by intros; left].
  (* the new frame is seen through [p] alone, and only when [p] was free *)
  assert (∀ q g, upage q → translate t q = Some g → g ≠ f) as Hnew.
  { intros q g Hu Hg ->. apply (pai_free _ _ _ Hpa q f Hu); [done|]. simpl. rewrite Efs. left. }
  assert (∀ q, upage q → translate t' q = translate t q ∨
                         (q = p ∧ translate t q = None ∧ translate t' q = Some f)) as Hq.
  { intros q Hu. assert (r = MapOk ∨ r ≠ MapOk) as [->|Hr] by (destruct r; auto).
    - pose proof Em as (Hn & Hs & Hne)%map_to_ok. destruct (decide (q = p)) as [->|]; auto.
    - left. by rewrite (map_to_err _ _ _ _ _ _ _ _ Em). }
  eexists. split_and!; [done|split; [done| |intros q Hu; eapply map_to_mappable; [exact Em|by apply Hmp]]|simpl; lia|..]; simpl.
  - intros q g Hu Hg. destruct (Hq q Hu) as [Hs|(-> & _ & Hs)]; rewrite Hs in Hg.
    + rewrite lookup_insert_ne by (intros ->; by eapply Hnew). eauto.
    + simplify_eq. rewrite lookup_insert_eq. by eexists.
  - intros q Hu Hne. unfold vpage; simpl. destruct (Hq q Hu) as [->|(-> & _)]; [|done].
    destruct (translate t q) as [g|] eqn:Hg; [|done]. simpl.
    rewrite lookup_insert_ne; [done|]. intros ->. by eapply Hnew.
  - unfold vpage; simpl. destruct (Hq p Hp) as [Hs|(_ & Hn & Hs)]; rewrite Hs.
    + destruct (translate t p) as [g|] eqn:Hg; simpl.
      * rewrite lookup_insert_ne by (intros ->; by eapply Hnew).
        destruct (Hph p g Hp Hg) as (c & -> & _). done.
      * assert (r = MapOk ∨ r ≠ MapOk) as [->|Hr] by (destruct r; auto); [by rewrite Hm in Hs|].
        destruct r as [|e|]; [done|..|done].
        by rewrite (map_to_already _ _ _ _ _ _ _ _ Em) in Hg.
    + simpl. rewrite Hn. simpl. by rewrite lookup_insert_eq.
Qed.

Lemma user_stack_pages_spec l : ∀ st,
  space_inv st → NoDup l → (4 * length l ≤ frames_count st)%nat →
  (∀ p, p ∈ l → upage p ∧ (PAGE_SIZE | p)) →
  ∃ st', for_each l user_stack_page st = Done st' ∧ space_inv st' ∧
    (frames_count st ≤ 4 * length l + frames_count st')%nat ∧
    (∀ q, upage q → q ∉ l → vpage st' q = vpage st q) ∧
    (∀ q, q ∈ l → vpage st' q = Some (default (zrep 4096 0) (vpage st q))).
Proof.
  induction l as [|p l IH]; intros st Hinv Hnd Hfr Hl; cbn [length for_each] in *.
  { exists st. split_and!; [done..|lia|done|]. by intros q ?%elem_of_nil. }
  apply NoDup_cons in Hnd as [Hpl Hnd]. destruct (Hl p ltac:(left)) as (Hp & Hal).
  destruct (user_stack_page_spec p st Hinv Hp Hal ltac:(lia)) as (st1 & -> & Hinv1 & Hfr1 & Hq1 & Hp1).
  cbn [mbind outcome_bind].
  destruct (IH st1 Hinv1 Hnd ltac:(lia)) as (st' & -> & Hinv' & Hfr' & Hq' & Hin').
  { intros q Hq. apply Hl. by right. }
  exists st'. split_and!; [done..|lia| |].
  - intros q Hu [Hne Hnl]%not_elem_of_cons. by rewrite Hq', Hq1.
  - intros q [->|Hq]%elem_of_cons.
    + by rewrite Hq', Hp1.
    + rewrite Hin' by done. rewrite Hq1; [done|apply Hl; by right|]. intros ->. done.
Qed.

Lemma allocate_user_stack_spec st :
  space_inv st → (16 ≤ frames_count st)%nat →
  ∃ st', allocate_user_stack VirtAddr_new st = Done (USER_STACK_TOP, st') ∧ space_inv st' ∧
    (frames_count st ≤ 16 + frames_count st')%nat ∧
    (∀ a b, upage a → vbyte st a = Some b → vbyte st' a = Some b) ∧
    (∀ a, USER_STACK_TOP - USER_STACK_SIZE ≤ a < USER_STACK_TOP → vpage st (containing a) = None →
       vbyte st' a = Some 0).
Proof.
  intros Hinv Hfr. unfold allocate_user_stack, USER_STACK_TOP, USER_STACK_SIZE in *.
  rewrite VirtAddr_canonical by (left; lia). cbn [mbind outcome_bind].
  rewrite VirtAddr_canonical by (left; lia). cbn [mbind outcome_bind].
  rewrite VirtAddr_canonical by (left; lia). cbn [mbind outcome_bind].
  set (lo := containing (0x7FFFFFFFF000 - 16384)). set (hi := containing (0x7FFFFFFFF000 - 1)).
  assert (lo = 0x7FFFFFFFB000 ∧ hi = 0x7FFFFFFFE000) as [Hlo Hhi] by (by vm_compute).
  assert (length (range_inclusive lo hi) = 4%nat) as Hlen by (rewrite Hlo, Hhi; by vm_compute).
  assert ((PAGE_SIZE | lo) ∧ (PAGE_SIZE | hi)) as [Hdl Hdh]
    by (rewrite Hlo, Hhi; split; by apply Z.mod_divide).
  pose proof (λ p, range_inclusive_elem lo hi p Hdl Hdh) as Hel.
  destruct (user_stack_pages_spec (range_inclusive lo hi) st Hinv (range_inclusive_NoDup _ _))
    as (st' & -> & Hinv' & Hfr' & Hout & Hin); [lia| |].
  { intros p [? ?]%Hel. split; [unfold upage; lia|done]. }
  exists st'. split_and!; [done|done|lia|..].
  - intros a b Ha. unfold vbyte. destruct (containing_spec a ltac:(unfold upage in Ha; lia)) as (? & ? & ?).
    assert (upage (containing a)) by (unfold upage in *; lia).
    destruct (decide (containing a ∈ range_inclusive lo hi)) as [Hl|Hl]; [|by rewrite Hout].
    rewrite Hin by done. destruct (vpage st (containing a)); done.
  - intros a Ha Hn. unfold vbyte. destruct (containing_spec a ltac:(lia)) as (? & ? & Hda).
    rewrite Hin, Hn.
    + cbn [mbind option_bind default from_option id]. apply zget_zrep. lia.
    + apply Hel. split; [done|]. destruct Hda as [k Hk]. rewrite Hlo, Hhi, Hk in *. unfold PAGE_SIZE in *. lia.
Qed.

Lemma load_image_spec segs st :
  space_inv st → Forall user_segment segs → apart (seg_range <$> segs) →
  (segs_frames segs + 16 ≤ frames_count st)%nat →
  (∀ p, upage p → translate (sp_mapper st) p = None) →
  ∃ st', load_image VirtAddr_new segs st = Done (USER_STACK_TOP, st') ∧ space_inv st' ∧
    (frames_count st ≤ segs_frames segs + 16 + frames_count st')%nat ∧
    (∀ seg i, seg ∈ segs → 0 ≤ i < seg_size seg →
       vbyte st' (virtual_address seg + i) = zget (seg_data seg) i) ∧
    (∀ a, USER_STACK_TOP - USER_STACK_SIZE ≤ a < USER_STACK_TOP →
       (∀ seg, seg ∈ segs → ¬ in_seg_pages seg a) → vbyte st' a = Some 0).
Proof.
  intros Hinv Hus Hap Hfr Hempty. unfold load_image.
  destruct (map_segments_spec segs st Hinv Hus Hap ltac:(lia)) as (st1 & -> & Hinv1 & Hfr1 & Hb & Hun & _).
  cbn [mbind outcome_bind].
  destruct (allocate_user_stack_spec st1 Hinv1 ltac:(lia)) as (st' & -> & Hinv' & Hfr' & Hkeep & Hstack).
  exists st'. split_and!; [done..|lia| |].
  - intros seg i Hin Hi. pose proof (proj1 (Forall_forall _ _) Hus seg Hin) as (? & ? & ? & ?).
    destruct (zget_is_Some (seg_data seg) i) as [b Hbi]; [lia|]. rewrite Hbi.
    apply Hkeep; [unfold upage; lia|]. by rewrite Hb.
  - intros a Ha Hno. apply Hstack; [done|]. unfold USER_STACK_TOP, USER_STACK_SIZE in *.
    assert (vbyte st1 a = None) as Hnone.
    { rewrite Hun; [|unfold upage; lia|done]. unfold vbyte, vpage.
      destruct (containing_spec a ltac:(lia)) as (? & ? & _). by rewrite Hempty by (unfold upage; lia). }
    destruct (vpage st1 (containing a)) as [c|] eqn:Hv; [|done]. exfalso.
    destruct (containing_spec a ltac:(lia)) as (? & ? & _).
    assert (zlen c = 4096) by (apply (vpage_len st1 (containing a)); [done|unfold upage; lia|done]).
    unfold vbyte in Hnone. rewrite Hv in Hnone. cbn [mbind option_bind] in Hnone.
    destruct (zget_is_Some c (a - containing a)) as [b Hb']; [lia|]. congruence.
Qed.

(** Loading an image into a new address space: with segments of the
    lower half that do not overlap, and frames enough, the segments and the
    user stack are mapped without a panic; afterwards the program reads, at
    each address of each segment, exactly the byte the file or the zero fill
    has there, and zeros everywhere on its stack when no segment's pages reach
    it.  The segments may share pages with each other. *)
Theorem load_image_correct segs st :
  space_inv st → Forall user_segment segs → apart (seg_range <$> segs) →
  (segs_frames segs + 16 ≤ frames_count st)%nat →
  (∀ p, upage p → translate (sp_mapper st) p = None) →
  ∃ st', load_image VirtAddr_new segs st = Done (USER_STACK_TOP, st') ∧ space_inv st' ∧
    (∀ seg i, seg ∈ segs → 0 ≤ i < seg_size seg →
       vbyte st' (virtual_address seg + i) = zget (seg_data seg) i) ∧
    (∀ a, USER_STACK_TOP - USER_STACK_SIZE ≤ a < USER_STACK_TOP →
       (∀ seg, seg ∈ segs → ¬ in_seg_pages seg a) → vbyte st' a = Some 0).
Proof.
  intros. edestruct load_image_spec as (st' & ? & ? & _ & ? & ?); eauto 10.
Qed.

(** The two copies of [map_segment] (process.rs for spawned programs,
    main.rs for the first one) do the same on every segment of the address
    space, although one saturates where the other subtracts. *)
Theorem map_segment_copies_agree seg st :
  0 ≤ virtual_address seg → 0 < seg_size seg → virtual_address seg + seg_size seg < 2 ^ 47 →
  main_map_segment VirtAddr_new seg st = map_segment VirtAddr_new seg st.
Proof.
  intros Hs0 Hn Hb. unfold main_map_segment, map_segment.
  rewrite VirtAddr_canonical by (left; lia). cbn [mbind outcome_bind].
  rewrite VirtAddr_canonical by (left; lia). cbn [mbind outcome_bind].
  destruct (containing_spec (virtual_address seg) ltac:(lia)) as (? & ? & Hd1).
  destruct (containing_spec (virtual_address seg + seg_size seg - 1) ltac:(lia)) as (? & ? & Hd2).
  pose proof (λ p, proj1 (range_inclusive_elem _ _ p Hd1 Hd2)) as Hel.
  revert st Hel. generalize (range_inclusive (containing (virtual_address seg))
    (containing (virtual_address seg + seg_size seg - 1))). intros l.
  induction l as [|p l IH]; intros st Hel; [done|]. cbn [for_each].
  assert (main_map_segment_page seg p st = map_segment_page seg p st) as ->.
  { destruct (Hel p ltac:(left)) as [_ Hp]. unfold main_map_segment_page, map_segment_page, saturating_sub.
    destruct (allocate_frame (sp_frames st)) as [[[f|] fa]|]; cbn [mbind outcome_bind unwrap]; [|done..].
    destruct (map_to _ _ _ _ _) as [[r fa'] t'].
    rewrite !(wrap_small 64 (p + 4096)) by (unfold is_uint; lia). rewrite wrap_small by (unfold is_uint; lia).
    rewrite Z.max_r by lia. by destruct r. }
  destruct (map_segment_page seg p st); [|done]. cbn [mbind outcome_bind]. apply IH.
  intros q Hq. apply Hel. by right.
Qed.
End segments.

(* ------------------------------------------------------------------ *)
(** ** Spawning a process *)

Section spawn.
Context {PT : Type} `{Mapper PT}.
Context {N S : Type} `{INode N S}.
Context (VirtAddr_new : Z → outcome Z) (heap_fits : Z → bool).
(** [create_mapper] on the table of a frame; the address of the trampoline;
    the mount table and the three console nodes of [init_stdio]. *)
Context (create_mapper : Z → gmap Z (list Z) → PT) (user_entry_trampoline : Z).
Context (mounts : list (MountEntry N)) (stdin stdout stderr : N).

(** The parts of the kernel's state that [spawn_user_process] reads or
    changes; [ps_spaces] are the address spaces, by top-level frame. *)
Record proc_sys := mkProcSys {
  ps_store : S;
  ps_fds : fds N;
  ps_sched : sched;
  ps_page_alloc : option (PageAllocator PT);
  ps_tables : gmap Z (list Z);
  ps_phys : gmap Z (list Z);
  ps_spaces : gmap Z PT;
  ps_kstack : Z;
}.

(** [while off < size { .. read .. }]; every turn but the last advances. *)
Fixpoint read_all (fuel : nat) (inode : N) (size off : Z) (data : list Z) (s : S)
    : outcome (list Z * S) :=
  match fuel with
  | O => Done (data, s)
  | Datatypes.S fuel =>
      if off <? size then
        buf ← slice data off (zlen data);
        '(n, buf, s) ← inode_read inode off buf s;
        let data := zsplice data off buf in
        if n =? 0 then Done (data, s) else read_all fuel inode size (off ⊞ n) data s
      else Done (data, s)
  end.

Definition spawn_context (kstack entry ustack pml4 : Z) : CPUContext :=
  mkCPUContext kstack 0 0 entry ustack 0 0 user_entry_trampoline 0x202 0x08 0x10 0 0 0 0 0 0 pml4.

Definition spawn_tcb (child_id parent_id kstack entry ustack pml4 : Z) : TaskCB :=
  mkTaskCB child_id Ready (Fair 120) (spawn_context kstack entry ustack pml4) kstack (Some ustack)
    "user_proc" parent_id None (Some pml4) [] false.

(** Steps 8 to 11: the new task, its descriptors, its place in the parent's
    children and in the run queue. *)
Definition spawn_register (parent_id kstack entry ustack pml4 : Z) (f : fds N) (sc : sched)
    : outcome (Z * fds N * sched) :=
  let '(child_id, sc) := TaskId_new sc in
  let tcb := spawn_tcb child_id parent_id kstack entry ustack pml4 in
  let f := init_stdio stdin stdout stderr child_id f in
  sc ← (if negb (parent_id =? 0) then
          par ← find_task_by_id parent_id sc;
          match par with
          | Some l => update_task l (λ t, set_children (t_children t ++ [child_id]) t) sc
          | None => Done sc
          end
        else Done sc);
  let l := fresh (dom (s_heap sc)) in
  sc ← enqueue_task l (set_heap (<[l := tcb]> (s_heap sc)) sc);
  Done (child_id, f, sc).

Definition spawn_user_process (path : str) (parent_id : Z) (p : proc_sys)
    : outcome (result Z * proc_sys) :=
  '(ino, store) ← lookup_path mounts path (ps_store p);
  let p := mkProcSys store (ps_fds p) (ps_sched p) (ps_page_alloc p) (ps_tables p) (ps_phys p)
             (ps_spaces p) (ps_kstack p) in
  match ino with
  | None => Done (Err "spawn: path not found", p)
  | Some inode =>
    size ← inode_size inode (ps_store p);
    if size =? 0 then Done (Err "spawn: ELF is empty", p)
    else
      '(data, store) ← read_all (Datatypes.S (Z.to_nat size)) inode size 0 (zrep size 0) (ps_store p);
      let p := mkProcSys store (ps_fds p) (ps_sched p) (ps_page_alloc p) (ps_tables p) (ps_phys p)
                 (ps_spaces p) (ps_kstack p) in
      img ← load_elf VirtAddr_new heap_fits data;
      match img with
      | Err e => Done (Err e, p)
      | Ok image =>
        match ps_page_alloc p with
        | None => Done (Err "spawn: PAGE_ALLOC not ready", p)
        | Some pa =>
          '(pml4, fa, tables) ← create_user_page_table (pa_frame_alloc pa)
                                  (cr3_frame (c_cr3 (s_cpu (ps_sched p)))) (ps_tables p);
          match pml4 with
          | None =>
              Done (Err "spawn: OOM creating PML4",
                    mkProcSys (ps_store p) (ps_fds p) (ps_sched p)
                      (Some (mkPageAllocator (pa_mapper pa) fa)) tables (ps_phys p)
                      (ps_spaces p) (ps_kstack p))
          | Some pml4 =>
            let user_mapper := create_mapper pml4 tables in
            '(ust, st) ← load_image VirtAddr_new (segments image) (mkSpace user_mapper fa (ps_phys p));
            let spaces := <[pml4 := sp_mapper st]> (ps_spaces p) in
            '(ks, next, pa) ← alloc_kernel_stack (1024 * 1024) (ps_kstack p)
                                (Some (mkPageAllocator (pa_mapper pa) (sp_frames st)));
            match ks with
            | None =>
                Done (Err "spawn: OOM kernel stack",
                      mkProcSys (ps_store p) (ps_fds p) (ps_sched p) pa tables (sp_phys st) spaces next)
            | Some kstack =>
                '(child_id, f, sc) ← spawn_register parent_id kstack (entry_point image) ust pml4
                                       (ps_fds p) (ps_sched p);
                Done (Ok child_id,
                      mkProcSys (ps_store p) f sc pa tables (sp_phys st) spaces next)
            end
          end
        end
      end
  end.
End spawn.
Arguments proc_sys PT N S : clear implicits.

Section spawn_correct.
Context {PT : Type} `{MapperBudget PT}.
Context {N S : Type} `{INode N S}.
Context (VirtAddr_new : Z → outcome Z) (heap_fits : Z → bool).
Context (create_mapper : Z → gmap Z (list Z) → PT) (user_entry_trampoline : Z).
Context (mounts : list (MountEntry N)) (stdin stdout stderr : N).
Hypothesis VirtAddr_canonical : ∀ v, canonical v → VirtAddr_new v = Done v.
(** A top-level table whose lower half is empty maps no user page, and has no huge
    page there. *)
Hypothesis create_mapper_empty : ∀ frame tables t,
  tables !! frame = Some t → (∀ i, 0 ≤ i < 256 → zget t i = Some 0) →
  ∀ p, upage p → translate (create_mapper frame tables) p = None ∧ mappable (create_mapper frame tables) p.

(** Frames only ever advance. *)
Lemma advance_trans a b c : advance a b → advance b c → advance a c.
Proof. induction 1; [done|]. intros. eapply advance_step; eauto. Qed.

Lemma map_segment_page_advance seg p st st' :
  map_segment_page seg p st = Done st' → advance (sp_frames st) (sp_frames st').
Proof.
  unfold map_segment_page. intros E.
  apply bind_Done in E as ([fo fa] & Ea & E). apply bind_Done in E as (f & Ef & E).
  destruct (map_to _ _ _ _ _) as [[r fa'] t'] eqn:Em. apply map_to_advance in Em.
  apply bind_Done in E as ([frame fresh] & _ & E).
  assert (sp_frames st' = fa') as ->.
  { destruct (_ <? _) in E; [|by simplify_eq]. apply bind_Done in E as (c & _ & E).
    apply bind_Done in E as (c' & _ & E). by simplify_eq. }
  eapply advance_trans; [|done]. eapply advance_step; [done|constructor].
Qed.

Lemma user_stack_page_advance p (st st' : space PT) :
  user_stack_page p st = Done st' → advance (sp_frames st) (sp_frames st').
Proof.
  unfold user_stack_page. intros E.
  apply bind_Done in E as ([fo fa] & Ea & E). apply bind_Done in E as (f & Ef & E).
  destruct (map_to _ _ _ _ _) as [[r fa'] t'] eqn:Em. apply map_to_advance in Em. simplify_eq.
  eapply advance_trans; [|done]. eapply advance_step; [done|constructor].
Qed.

Lemma for_each_advance {A} (l : list A) (body : A → space PT → outcome (space PT)) st st' :
  (∀ x s1 s2, body x s1 = Done s2 → advance (sp_frames s1) (sp_frames s2)) →
  for_each l body st = Done st' → advance (sp_frames st) (sp_frames st').
Proof.
  intros Hb. apply (for_each_inv (λ s, advance (sp_frames st) (sp_frames s))); [|constructor].
  intros x s1 s2 _ Ha E. eapply advance_trans; eauto.
Qed.

Lemma load_image_advance segs (st st' : space PT) top :
  load_image VirtAddr_new segs st = Done (top, st') → advance (sp_frames st) (sp_frames st').
Proof.
  intros E. unfold load_image, allocate_user_stack in E.
  apply bind_Done in E as (st1 & E1 & E). do 3 apply bind_Done in E as (? & _ & E).
  apply bind_Done in E as (st2 & E2 & E). simplify_eq.
  eapply advance_trans.
  - refine (for_each_advance _ _ _ _ _ E1). intros seg s1 s2 Es. unfold map_segment in Es.
    do 2 apply bind_Done in Es as (? & _ & Es).
    by apply (for_each_advance _ _ _ _ (map_segment_page_advance _)) in Es.
  - eapply (for_each_advance _ _ _ _ user_stack_page_advance). done.
Qed.

Lemma pa_inv_advance zone own (t : PT) a a' :
  pa_inv zone own (mkPageAllocator t a) → advance a a' → pa_inv zone own (mkPageAllocator t a').
Proof.
  intros [Hok Hnd Hf Hi] Ha. destruct (advance_spec _ _ Ha Hok) as [Hok' _].
  split; simpl in *; [done|by eapply advance_NoDup| |done].
  intros p f Hz Hp Hin. eapply Hf; [done..|]. by eapply advance_sub.
Qed.

(** A kernel stack is allocated or refused, never a panic. *)
Lemma alloc_kernel_stack_total own next pa :
  pa_inv kpage own pa → KSTACK_VA_START ≤ next ≤ KSTACK_VA_END → (PAGE_SIZE | next) →
  ∃ ks next' pa', alloc_kernel_stack (1024 * 1024) next (Some pa) = Done (ks, next', Some pa') ∧
    ∀ k, ks = Some k → kstack_ok k.
Proof.
  intros Hpa Hn Hal. unfold alloc_kernel_stack. cbn [Z.eqb orb negb].
  change (1024 * 1024 =? 0) with false. change (((1024 * 1024) `mod` 4096 =? 0)) with true.
  cbn [orb negb]. unfold KSTACK_VA_START, KSTACK_VA_END in *.
  rewrite wrap_small by (unfold is_uint; lia).
  destruct (Z.ltb_spec 0xFFFFD00000000000 (next + 1024 * 1024)); [eexists _, _, _; by split|].
  edestruct (map_pages_spec (Z.to_nat ((1024 * 1024) `div` 4096)) _ _ next KSTACK_FLAGS _ Hpa)
    as (ok & pa' & -> & _); [lia|done| |].
  2: { eexists _, _, _. split; [done|]. intros k Hk. destruct ok; simplify_eq. destruct Hal as [q ->].
       unfold kstack_ok, PAGE_SIZE in *. Z.to_euclidean_division_equations. lia. }
  change (Z.of_nat (Z.to_nat ((1024 * 1024) `div` 4096))) with 256. unfold PAGE_SIZE. lia.
Qed.

(** The scheduler's locations are on the heap. *)
Definition rq_alive (sc : sched) : Prop :=
  match s_rq sc with
  | Some rq => ∀ l, l ∈ rq_queue rq ∨ rq_current rq = Some l → is_Some (s_heap sc !! l)
  | None => False
  end.

Lemma find_loc_total p sc ls :
  (∀ l, l ∈ ls → is_Some (s_heap sc !! l)) →
  ∃ o, find_loc p ls sc = Done o ∧ (∀ l, o = Some l → is_Some (s_heap sc !! l)).
Proof.
  induction ls as [|l ls IH]; intros Hal; simpl; [naive_solver|].
  destruct (Hal l ltac:(left)) as [t Ht]. unfold task_at at 1. rewrite Ht. simpl.
  destruct (p t); [eexists; split; [done|]; intros l' [= <-]; by exists t|].
  apply IH. intros. apply Hal. by right.
Qed.

Lemma find_task_by_id_total id sc :
  rq_alive sc → ∃ o, find_task_by_id id sc = Done o ∧ (∀ l, o = Some l → is_Some (s_heap sc !! l)).
Proof.
  unfold rq_alive, find_task_by_id, global. destruct (s_rq sc) as [rq|]; [|done]. intros Hal. simpl.
  assert (∃ o, find_loc (λ t, t_id t =? id) (rq_queue rq) sc = Done o ∧
               (∀ l, o = Some l → is_Some (s_heap sc !! l))) as Hq by (apply find_loc_total; auto).
  destruct (rq_current rq) as [cur|] eqn:Ec; [|done].
  destruct (Hal cur ltac:(by right)) as [t Ht]. unfold task_at. rewrite Ht. simpl.
  destruct (t_id t =? id); [|done]. eexists. split; [done|]. intros l [= <-]. by exists t.
Qed.

(** The new task joins the queue's end, Ready, with its three descriptors. *)
Lemma spawn_register_spec parent_id kstack entry ustack pml4 f sc rq :
  rq_alive sc → s_rq sc = Some rq → fds_inv f →
  ∃ f' sc' l, spawn_register user_entry_trampoline stdin stdout stderr parent_id kstack entry ustack pml4 f sc
      = Done (s_next_id sc, f', sc') ∧
    s_heap sc !! l = None ∧
    s_heap sc' !! l = Some (spawn_tcb user_entry_trampoline (s_next_id sc) parent_id kstack entry ustack pml4) ∧
    s_rq sc' = Some (mkRunQueue (rq_queue rq ++ [l]) (rq_current rq) (rq_zombies rq)) ∧
    s_next_id sc' = s_next_id sc ⊞ 1 ∧
    view f' (s_next_id sc) 0 = Some (mkOpenFile stdin 0) ∧
    view f' (s_next_id sc) 1 = Some (mkOpenFile stdout 0) ∧
    view f' (s_next_id sc) 2 = Some (mkOpenFile stderr 0).
Proof.
  intros Hal Hrq Hf. unfold spawn_register, TaskId_new. simpl.
  set (sc0 := mkSched _ _ _ _ _ _ _). set (id := s_next_id sc).
  assert (∃ sc1, (if negb (parent_id =? 0) then
          par ← find_task_by_id parent_id sc0;
          match par with
          | Some l => update_task l (λ t, set_children (t_children t ++ [id]) t) sc0
          | None => Done sc0
          end
        else Done sc0) = Done sc1 ∧ dom (s_heap sc1) = dom (s_heap sc) ∧
        s_rq sc1 = Some rq ∧ s_next_id sc1 = id ⊞ 1) as (sc1 & E & Hd & Hr & Hn).
  { destruct (negb _); [|by exists sc0].
    destruct (find_task_by_id_total parent_id sc0) as (o & -> & Ho); [by unfold rq_alive in *|]. simpl.
    destruct o as [l|]; [|by exists sc0]. destruct (Ho l eq_refl) as [t Ht].
    unfold update_task, task_at. rewrite Ht. simpl. eexists. split_and!; [done|..]; try done. simpl.
    apply dom_insert_lookup_L. by exists t. }
  rewrite E. simpl. clear E. set (l := fresh (dom (s_heap sc1))).
  assert (s_heap sc !! l = None) as Hl.
  { apply not_elem_of_dom. rewrite <-Hd. apply is_fresh. }
  unfold enqueue_task, RunQueue_enqueue, global, update_task, task_at. simpl. rewrite Hr. simpl.
  rewrite lookup_insert_eq. simpl.
  eexists _, _, l. split_and!; [done|done|..]; simpl; [by rewrite lookup_insert_eq|done|done|..];
    by apply init_stdio_view.
Qed.

(** A CPU that has just switched to the context is at the trampoline, which
    takes it to user mode. *)
Definition enters_user (x : CPUContext) (entry ustack pml4 : Z) : Prop :=
  x_rip x = user_entry_trampoline ∧
  ∀ call ra star m c, cpu_after_ret m = load_context x c →
  ∃ m', exec call ra star 0 user_entry_trampoline_asm m = Some m' ∧
    m_rip m' = entry ∧ m_reg m' RSP = ustack ∧ m_cs m' = 0x2B ∧ m_ss m' = 0x23 ∧
    m_rflags m' = 0x202 ∧ m_if m' = true ∧ m_cr3 m' = pml4.

Lemma spawn_context_enters k entry ustack pml4 :
  kstack_ok k → pml4 ≠ 0 → enters_user (spawn_context user_entry_trampoline k entry ustack pml4) entry ustack pml4.
Proof.
  intros Hk Hp. split; [done|]. intros call ra star m c Hm. unfold cpu_after_ret, load_context in Hm. simpl in Hm.
  rewrite (proj2 (Z.eqb_neq pml4 0) Hp) in Hm. injection Hm as Hsp _ _ H12 H13 _ _ _ Hcr3.
  destruct (trampoline_enters_user call ra star m k Hsp Hk) as (m' & He & ? & ? & ? & ? & ? & ? & ? & _).
  exists m'. split_and!; congruence.
Qed.

(** What [spawn_user_process] finds: the file, a loadable image, memory. *)
Record spawn_ready (path : str) (p : proc_sys PT N S) (pml4 : Z) (inode : N) (data : list Z)
    (h : Elf64Header) (phs : list ProgramHeader) : Prop := {
  sr_lookup : lookup_path mounts path (ps_store p) = Done (Some inode, ps_store p);
  sr_size : inode_size inode (ps_store p) = Done (zlen data);
  (* a read gives some of the bytes asked for, at least one *)
  sr_read : ∀ off buf, 0 ≤ off < zlen data → zlen buf = zlen data - off →
    ∃ n, 0 < n ≤ zlen buf ∧
      inode_read inode off buf (ps_store p) = Done (n, zsplice buf 0 (zslice data off (off + n)), ps_store p);
  sr_elf : elf_file data h phs;
  sr_fits : ∀ ph, ph ∈ phs → p_type ph = SegmentType_u32 Load → heap_fits (p_memsz ph) = true;
  sr_user : Forall user_segment (omap (described data) phs);
  sr_apart : apart (seg_range <$> omap (described data) phs);
  sr_mem : ∃ pa fs active, ps_page_alloc p = Some pa ∧ pa_inv kpage kpage pa ∧
    frames_left (pa_frame_alloc pa) = pml4 :: fs ∧
    (segs_frames (omap (described data) phs) + 16 ≤ length fs)%nat ∧
    pml4 ≠ 0 ∧ pml4 ≠ cr3_frame (c_cr3 (s_cpu (ps_sched p))) ∧
    ps_tables p !! cr3_frame (c_cr3 (s_cpu (ps_sched p))) = Some active ∧ zlen active = 512;
  sr_kstack : KSTACK_VA_START ≤ ps_kstack p ≤ KSTACK_VA_END ∧ (PAGE_SIZE | ps_kstack p);
  sr_sched : rq_alive (ps_sched p);
  sr_fds : fds_inv (ps_fds p);
}.

(** There is room for the 1 MiB kernel stack: addresses, frames (a page takes at most
    four), and pages that can be mapped. *)
Definition stack_room (p : proc_sys PT N S) (segs : list LoadableSegment) : Prop :=
  ps_kstack p + 1024 * 1024 ≤ KSTACK_VA_END ∧
  ∃ pa, ps_page_alloc p = Some pa ∧
    1 + Z.of_nat (segs_frames segs + 16) + 4 * 256 ≤ zlen (frames_left (pa_frame_alloc pa)) ∧
    ∀ q, pages (ps_kstack p) 256 q → translate (pa_mapper pa) q = None ∧ mappable (pa_mapper pa) q.

(** However the reads split the file, all of it is read. *)
Lemma read_all_spec inode data (s : S) fuel : ∀ off got,
  (∀ off buf, 0 ≤ off < zlen data → zlen buf = zlen data - off →
    ∃ n, 0 < n ≤ zlen buf ∧ inode_read inode off buf s = Done (n, zsplice buf 0 (zslice data off (off + n)), s)) →
  zlen data < 2 ^ 64 → 0 ≤ off ≤ zlen data → zlen got = zlen data → zlen data - off < Z.of_nat fuel →
  (∀ i, 0 ≤ i < off → zget got i = zget data i) →
  read_all fuel inode (zlen data) off got s = Done (data, s).
Proof.
  induction fuel as [|fuel IH]; intros off got Hrd Hl Ho Hg Hf Hpre; [lia|]. cbn [read_all].
  destruct (Z.ltb_spec off (zlen data)).
  - rewrite slice_Done by lia. cbn [mbind outcome_bind].
    destruct (Hrd off (zslice got off (zlen got))) as (n & Hn & ->); [lia|by rewrite zlen_zslice by lia; lia|].
    rewrite zlen_zslice in Hn by lia. cbn [mbind outcome_bind]. destruct (Z.eqb_spec n 0); [lia|].
    rewrite wrap_small by (split; lia).
    assert (zlen (zslice data off (off + n)) = n) as Hz by (rewrite zlen_zslice; lia).
    assert (zlen (zsplice (zslice got off (zlen got)) 0 (zslice data off (off + n))) = zlen got - off) as Hz'
      by (rewrite zlen_zsplice; [rewrite zlen_zslice; lia|lia|rewrite Hz, zlen_zslice; lia]).
    apply IH; [done|done|lia|by rewrite zlen_zsplice by lia|lia|]. intros i Hi. destruct (Z.lt_ge_cases i off).
    + rewrite zget_zsplice_out by lia. apply Hpre. lia.
    + rewrite zget_zsplice_in by lia. rewrite zget_zsplice_in by (rewrite ?zlen_zslice; lia). rewrite zget_zslice by lia. f_equal. lia.
  - replace got with data; [done|]. apply zlist_eq. intros i Hi. destruct (Z.lt_ge_cases i off).
    + symmetry. apply Hpre. lia.
    + by rewrite !zget_None by lia.
Qed.

(** A fresh user table starts as a good address space. *)
Lemma fresh_space_inv own (t0 t : PT) fa phys :
  pa_inv kpage own (mkPageAllocator t0 fa) → (∀ p, upage p → translate t p = None ∧ mappable t p) →
  space_inv (mkSpace t fa phys).
Proof.
  intros [Hok Hnd _ _] Hempty. split; [split; simpl in *; [done|done|..]|simpl..].
  - intros p f Hp. by rewrite (proj1 (Hempty p Hp)).
  - intros p q f Hp _ _. by rewrite (proj1 (Hempty p Hp)).
  - intros p f Hp. by rewrite (proj1 (Hempty p Hp)).
  - intros p Hp. apply (Hempty p Hp).
Qed.

(** With room for the stack, it is allocated. *)
Lemma kernel_stack_room own next t fa ks next' pa' :
  pa_inv kpage own (mkPageAllocator t fa) → 4 * 256 ≤ zlen (frames_left fa) →
  KSTACK_VA_START ≤ next → (PAGE_SIZE | next) → next + 1024 * 1024 ≤ KSTACK_VA_END →
  (∀ q, pages next 256 q → translate t q = None ∧ mappable t q) →
  alloc_kernel_stack (1024 * 1024) next (Some (mkPageAllocator t fa)) = Done (ks, next', pa') → is_Some ks.
Proof.
  intros Hi Hf Hn Hd He Hp E.
  destruct (alloc_kernel_stack_avail (D := λ _, True) 256 0 (pages next 256) next (mkPageAllocator t fa))
    as (pa1 & E1 & _); try (done || lia).
  - split; simpl; [eapply pa_inv_weaken; [|exact Hi]; tauto|lia|done|done].
  - change (Z.of_nat 256 * PAGE_SIZE) with (1024 * 1024) in E1. rewrite E1 in E. by simplify_eq.
Qed.

(** C4: Spawning an executable.  When the path names a well-formed ELF file (which
    may take several reads) whose segments lie apart in the lower half, and there
    are frames for the image, the call never panics.  It returns the next task id,
    and a new Ready task is last in the run queue, with console descriptors 0, 1, 2
    and an address space in which every byte of every segment is the one the
    file describes; or it is refused, scheduler and descriptors unchanged, which
    happens only without room for the 1 MiB kernel stack (no addresses below the
    end of the region of the stacks, no pages there that can be mapped, or too few
    frames).  When the scheduler first switches to it, its trampoline's
    assembly takes the CPU to user mode at the file's entry point, on the user
    stack, in that address space. *)
Theorem spawn_user_process_correct path parent_id (p : proc_sys PT N S) pml4 inode data h phs rq :
  spawn_ready path p pml4 inode data h phs → s_rq (ps_sched p) = Some rq →
  ∃ r p', spawn_user_process VirtAddr_new heap_fits create_mapper user_entry_trampoline mounts
            stdin stdout stderr path parent_id p = Done (r, p') ∧
    ((r = Err "spawn: OOM kernel stack" ∧ ¬ stack_room p (omap (described data) phs) ∧ ps_sched p' = ps_sched p ∧ ps_fds p' = ps_fds p) ∨
     let id := s_next_id (ps_sched p) in
     ∃ tcb l t fa,
       r = Ok id ∧ s_heap (ps_sched p) !! l = None ∧ s_heap (ps_sched p') !! l = Some tcb ∧
       t_id tcb = id ∧ t_state tcb = Ready ∧ t_parent_id tcb = parent_id ∧ t_pml4_frame tcb = Some pml4 ∧
       kstack_ok (t_kstack tcb) ∧ enters_user (t_context tcb) (e_entry h) USER_STACK_TOP pml4 ∧
       s_rq (ps_sched p') = Some (mkRunQueue (rq_queue rq ++ [l]) (rq_current rq) (rq_zombies rq)) ∧
       view (ps_fds p') id 0 = Some (mkOpenFile stdin 0) ∧
       view (ps_fds p') id 1 = Some (mkOpenFile stdout 0) ∧
       view (ps_fds p') id 2 = Some (mkOpenFile stderr 0) ∧
       ps_spaces p' !! pml4 = Some t ∧
       ∀ seg i, seg ∈ omap (described data) phs → 0 ≤ i < seg_size seg →
         vbyte (mkSpace t fa (ps_phys p')) (virtual_address seg + i) = zget (seg_data seg) i).
Proof.
  intros [Hlk Hsz Hrd Helf Hfits Husr Hap Hmem [Hks Hka] Hsc Hfd] Hrq.
  destruct Hmem as (pa & fs & active & Hpa & Hinv & Hfl & Hcnt & Hp0 & Hne & Hact & Hal).
  assert (0 < zlen data < 2 ^ 64) as Hlen.
  { destruct (ef_header _ _ _ Helf) as (_ & Hhl & _). pose proof (ef_len _ _ _ Helf).
    pose proof (ef_wf _ _ _ Helf) as (Hi & _). unfold encode_header in Hhl.
    rewrite zlen_app in Hhl. pose proof (zlen_nonneg (to_le 2 (e_type h) ++ to_le 2 (e_machine h))).
    match type of Hhl with context [zlen (?a ++ ?b)] => pose proof (zlen_nonneg (a ++ b)) end. lia. }
  unfold spawn_user_process. rewrite Hlk. cbn [mbind outcome_bind ps_store]. rewrite Hsz. cbn [mbind outcome_bind].
  destruct (Z.eqb_spec (zlen data) 0); [lia|].
  rewrite (read_all_spec _ _ _ _ 0 (zrep (zlen data) 0) Hrd); [|lia|lia|rewrite zlen_zrep; lia|lia|lia].
  cbn [mbind outcome_bind].
  rewrite (load_elf_described _ _ VirtAddr_canonical _ _ _ Helf Hfits).
  cbn [mbind outcome_bind ps_page_alloc ps_sched ps_tables]. rewrite Hpa.
  destruct (create_user_page_table_spec _ _ _ active pml4 fs (pai_ok _ _ _ Hinv) Hfl Hne Hact Hal)
    as (fa & table & tables & -> & Hfl' & Hadv & Htab & _ & Hlow & _).
  cbn [mbind outcome_bind segments entry_point ps_phys ps_spaces ps_kstack ps_store ps_fds].
  destruct pa as [t0 fa0]. cbn [pa_mapper pa_frame_alloc] in *.
  pose proof (pa_inv_advance _ _ _ _ _ Hinv Hadv) as Hinv1.
  pose proof (create_mapper_empty _ _ _ Htab Hlow) as Hempty.
  destruct (load_image_spec VirtAddr_new VirtAddr_canonical (omap (described data) phs)
    (mkSpace (create_mapper pml4 tables) fa (ps_phys p))) as (st & Hrun & Hst & Hleft & Hbytes & _);
    [by eapply fresh_space_inv|done|done|by unfold frames_count; simpl; rewrite Hfl'|apply Hempty|].
  rewrite Hrun. cbn [mbind outcome_bind]. apply load_image_advance in Hrun. simpl in Hrun.
  pose proof (pa_inv_advance _ _ _ _ _ Hinv1 Hrun) as Hinv2.
  destruct (alloc_kernel_stack_total _ (ps_kstack p) _ Hinv2 Hks Hka) as (ks & next & pa' & Eks & Hkok).
  rewrite Eks. cbn [mbind outcome_bind]. destruct ks as [kstack|].
  2: { eexists _, _; split; [done|]. left. split; [done|]. split; [|done]. intros (Hend & pa1 & Hpa1 & Hroom & Hpg).
       rewrite Hpa in Hpa1. injection Hpa1 as <-. cbn [pa_frame_alloc pa_mapper] in Hroom, Hpg. rewrite Hfl, zlen_cons in Hroom.
       unfold frames_count in Hleft. simpl in Hleft. rewrite Hfl' in Hleft. unfold zlen in Hroom.
       destruct (kernel_stack_room _ _ _ _ _ _ _ Hinv2 ltac:(unfold zlen; lia) (proj1 Hks) Hka Hend Hpg Eks) as [? ?]. done. }
  destruct (spawn_register_spec parent_id kstack (e_entry h) USER_STACK_TOP pml4 _ _ rq Hsc Hrq Hfd)
    as (f' & sc' & l & -> & Hl & Htcb & Hq & _ & Hv0 & Hv1 & Hv2).
  cbn [mbind outcome_bind]. eexists _, _. split; [done|]. right. eexists _, l, (sp_mapper st), (sp_frames st).
  cbn [ps_sched ps_fds ps_spaces ps_phys]. pose proof (spawn_context_enters kstack (e_entry h) USER_STACK_TOP pml4) as [? ?]; [auto..|].
  specialize (Hkok _ eq_refl). destruct Hkok as (? & ? & ?).
  split_and!; [done..|by rewrite lookup_insert_eq|]. by destruct st.
Qed.
End spawn_correct.

(* ------------------------------------------------------------------ *)
(** ** The theorems at work *)

Definition demo_space : space (gmap Z Z) := mkSpace ∅ (boot_falloc 40) ∅.
Definition demo_segs : list LoadableSegment :=
  [mkLoadableSegment 0x400FFE 4 (mkSegmentFlags true false true) [1; 2; 3; 4];
   mkLoadableSegment 0x401002 2 (mkSegmentFlags true true false) [5; 6]].

Lemma demo_space_inv : space_inv demo_space.
Proof.
  split; [split; [by vm_compute| |done|done]|done|done]. apply (bool_decide_unpack _). by vm_compute.
Qed.

(** Two segments, the first across a page boundary, sharing the second page. *)
Lemma load_image_correct_witness :
  ∃ st', load_image demo_VirtAddr_new demo_segs demo_space = Done (USER_STACK_TOP, st') ∧
    ∀ seg i, seg ∈ demo_segs → 0 ≤ i < seg_size seg →
      vbyte st' (virtual_address seg + i) = zget (seg_data seg) i.
Proof.
  destruct (load_image_correct demo_VirtAddr_new demo_VirtAddr_canonical demo_segs demo_space)
    as (st' & Hrun & _ & Hb & _).
  - exact demo_space_inv.
  - repeat constructor; vm_compute; discriminate || reflexivity.
  - split; [|done]. constructor; [left; vm_compute; discriminate|done].
  - vm_compute. lia.
  - reflexivity.
  - exists st'. split; [exact Hrun|exact Hb].
Defined.

Lemma map_segment_copies_agree_witness :
  main_map_segment demo_VirtAddr_new (mkLoadableSegment 0x400FFE 4 (mkSegmentFlags true false true) [1; 2; 3; 4])
    demo_space =
  map_segment demo_VirtAddr_new (mkLoadableSegment 0x400FFE 4 (mkSegmentFlags true false true) [1; 2; 3; 4])
    demo_space.
Proof.
  apply (map_segment_copies_agree demo_VirtAddr_new demo_VirtAddr_canonical);
    vm_compute; discriminate || reflexivity.
Defined.

(** A ramdisk whose root holds the executable of Loader as ["a"]. *)
Definition spawn_store : store Empty_set unit :=
  mkStore {[0%nat := RamDir [] [([97], Ram 1%nat)]; 1%nat := RamFile [97] demo_elf]} tt.
Definition spawn_mounts : list (MountEntry (node Empty_set)) := mount [SLASH] (Ram 0%nat) [].
Definition spawn_sys : proc_sys (gmap Z Z) (node Empty_set) (store Empty_set unit) :=
  mkProcSys spawn_store fds_boot
    (mkSched ∅ (Some RunQueue_new) 0 1 false 0 (mkCpu 0 0 0 0 0 0 0 0 0))
    (Some (mkPageAllocator ∅ (boot_falloc 1100))) {[0 := zrep 512 0]} ∅ ∅ KSTACK_VA_START.

Lemma RamFile_read_rest data off buf :
  0 ≤ off < zlen data → zlen buf = zlen data - off →
  RamFile_read data off buf = Done (zlen buf, zsplice buf 0 (zslice data off (off + zlen buf))).
Proof.
  intros Ho Hb. unfold RamFile_read. destruct (Z.leb_spec (zlen data) off); [lia|]. rewrite Z.min_l by lia.
  rewrite slice_Done by lia. cbn [mbind outcome_bind]. by rewrite copy_into_Done by (rewrite ?zlen_zslice; lia).
Qed.

Lemma spawn_sys_ready :
  spawn_ready (λ n, n <? 2 ^ 20) spawn_mounts [SLASH; 97] spawn_sys 4096 (Ram 1%nat) demo_elf
    (demo_header 1 56) [demo_ph].
Proof.
  split.
  - vm_compute. reflexivity.
  - vm_compute. reflexivity.
  - intros off buf Ho Hb. exists (zlen buf). split; [lia|]. cbn -[demo_elf zlen zslice zsplice RamFile_read].
    change (ram_at 1%nat spawn_store) with (Done (RamFile (D := Empty_set) [97] demo_elf)). cbn [mbind outcome_bind].
    rewrite (RamFile_read_rest _ _ _ Ho Hb). reflexivity.
  - apply demo_elf_file.
  - intros ph ->%list_elem_of_singleton _. done.
  - repeat constructor; vm_compute; discriminate || reflexivity.
  - replace (omap (described demo_elf) [demo_ph]) with
      [mkLoadableSegment 0x400000 8 (mkSegmentFlags true false true) [0x90; 0x90; 0xC3; 0; 0; 0; 0; 0]]
      by (vm_compute; reflexivity).
    by split.
  - exists (mkPageAllocator ∅ (boot_falloc 1100)), ((λ i, i * PAGE_SIZE) <$> seqZ 2 1099), (zrep 512 0).
    split_and!; [done| |by vm_compute|vm_compute; lia|done|done|done|done].
    split; [by vm_compute| |done|done]. apply (bool_decide_unpack _). by vm_compute.
  - split; [vm_compute; split; discriminate|]. by apply Z.mod_divide.
  - intros l [?%elem_of_nil|?]; done.
  - apply fds_inv_boot.
Qed.

Lemma spawn_sys_room : stack_room spawn_sys (omap (described demo_elf) [demo_ph]).
Proof.
  split; [vm_compute; discriminate|]. eexists. split; [reflexivity|]. split; [vm_compute; discriminate|].
  intros q _. split; [apply lookup_empty|exact I].
Qed.

Lemma empty_table_mappable (p : Z) : translate (∅ : gmap Z Z) p = None ∧ mappable (∅ : gmap Z Z) p.
Proof. split; [apply lookup_empty|exact I]. Qed.

(** The process is spawned: task 1, alone in the queue. *)
Lemma spawn_user_process_correct_witness :
  ∃ p' tcb l, spawn_user_process demo_VirtAddr_new (λ n, n <? 2 ^ 20) (λ _ _, ∅) 0xFFFFFFFF80001000 spawn_mounts
      (Ram 1%nat) (Ram 1%nat) (Ram 1%nat) [SLASH; 97] 0 spawn_sys = Done (Ok 1, p') ∧
    s_heap (ps_sched p') !! l = Some tcb ∧ t_state tcb = Ready ∧
    s_rq (ps_sched p') = Some (mkRunQueue [l] None []).
Proof.
  destruct (spawn_user_process_correct demo_VirtAddr_new (λ n, n <? 2 ^ 20) (λ _ _, ∅) 0xFFFFFFFF80001000
    spawn_mounts (Ram 1%nat) (Ram 1%nat) (Ram 1%nat) demo_VirtAddr_canonical
    (λ _ _ _ _ _ z _, empty_table_mappable z)
    [SLASH; 97] 0 spawn_sys 4096 (Ram 1%nat) demo_elf (demo_header 1 56) [demo_ph] RunQueue_new
    spawn_sys_ready eq_refl) as (r & p' & E & [(_ & Hno & _)|Hyes]); [destruct (Hno spawn_sys_room)|].
  destruct Hyes as (tcb & l & t & fa & Hr & _ & Hl & _ & Hs & _ & _ & _ & _ & Hq & _).
  exists p', tcb, l. rewrite Hr in E. split; [exact E|]. split; [exact Hl|]. split; [exact Hs|exact Hq].
Defined.
