(* ===== verification/Virtqueue.v ===== *)
(** * Virtqueues (drivers/src/virtqueue.rs)

    The three DMA pages are lists of what a page can hold: 256 descriptors,
    the available ring, the used ring; an index outside a page is an explicit
    [Panic] (the source would write another frame).  The device is the other
    party: it reads descriptors from a chain's head and writes the used ring
    only.

    Shown here: whatever chains the driver submits and returns, in any order,
    the device reads from each chain in flight exactly the buffers submitted,
    no descriptor belongs to two chains or is free and in flight, and none is
    ever lost. *)

From S2P Require Import Prelude Memory.

Definition VIRTQ_DESC_F_NEXT : Z := 1.
Definition VIRTQ_DESC_F_WRITE : Z := 2.

Record VirtqDesc := mkVirtqDesc {
  d_addr : Z;
  d_len : Z;
  d_flags : Z;
  d_next : Z;
}.

Record VirtqUsedElem := mkVirtqUsedElem {
  u_id : Z;
  u_len : Z;
}.

(** [avail] and [used] are an index and a ring each. *)
Record Virtqueue := mkVirtqueue {
  vq_desc : list VirtqDesc;
  vq_avail_idx : Z;
  vq_avail_ring : list Z;
  vq_used_idx : Z;
  vq_used_ring : list VirtqUsedElem;
  desc_phys : Z;
  avail_phys : Z;
  used_phys : Z;
  queue_size : Z;
  free_head : Z;
  num_free : Z;
  last_used_idx : Z;
}.

Definition set_desc (d : list VirtqDesc) (v : Virtqueue) : Virtqueue :=
  mkVirtqueue d (vq_avail_idx v) (vq_avail_ring v) (vq_used_idx v) (vq_used_ring v) (desc_phys v)
    (avail_phys v) (used_phys v) (queue_size v) (free_head v) (num_free v) (last_used_idx v).
Definition set_free (head n : Z) (v : Virtqueue) : Virtqueue :=
  mkVirtqueue (vq_desc v) (vq_avail_idx v) (vq_avail_ring v) (vq_used_idx v) (vq_used_ring v) (desc_phys v)
    (avail_phys v) (used_phys v) (queue_size v) head n (last_used_idx v).
Definition set_avail (i : Z) (ring : list Z) (v : Virtqueue) : Virtqueue :=
  mkVirtqueue (vq_desc v) i ring (vq_used_idx v) (vq_used_ring v) (desc_phys v)
    (avail_phys v) (used_phys v) (queue_size v) (free_head v) (num_free v) (last_used_idx v).
Definition set_used (i : Z) (ring : list VirtqUsedElem) (v : Virtqueue) : Virtqueue :=
  mkVirtqueue (vq_desc v) (vq_avail_idx v) (vq_avail_ring v) i ring (desc_phys v)
    (avail_phys v) (used_phys v) (queue_size v) (free_head v) (num_free v) (last_used_idx v).
Definition set_last_used (i : Z) (v : Virtqueue) : Virtqueue :=
  mkVirtqueue (vq_desc v) (vq_avail_idx v) (vq_avail_ring v) (vq_used_idx v) (vq_used_ring v) (desc_phys v)
    (avail_phys v) (used_phys v) (queue_size v) (free_head v) (num_free v) i.

#[global] Arguments set_desc _ _ /.
#[global] Arguments set_free _ _ _ /.
#[global] Arguments set_avail _ _ _ /.
#[global] Arguments set_used _ _ _ /.
#[global] Arguments set_last_used _ _ /.

(** What a 4 KiB page holds of 16-byte descriptors, of [u16] entries after
    the 4-byte header, of 8-byte elements after it. *)
Definition DESC_PER_PAGE : Z := 256.
Definition AVAIL_PER_PAGE : Z := 2046.
Definition USED_PER_PAGE : Z := 511.

(** A zeroed frame, by its address in the direct map. *)
Definition alloc_dma_page (hhdm_offset : Z) (fa : falloc) : outcome (option Z * falloc) :=
  '(fo, fa) ← allocate_frame fa;
  Done (match fo with Some phys => Some (hhdm_offset ⊞ phys) | None => None end, fa).

(** The loop of [allocate]: each descriptor points to the next. *)
Definition init_desc (queue_size : Z) (desc : list VirtqDesc) : outcome (list VirtqDesc) :=
  for_each (seqZ 0 queue_size)
    (λ i desc,
      d ← idx desc i;
      upd desc i (mkVirtqDesc (d_addr d) (d_len d) 0
        (if wrap 16 (i + 1) <? queue_size then wrap 16 (i + 1) else 0))) desc.

Definition Virtqueue_allocate (queue_size hhdm_offset : Z) (fa : falloc)
    : outcome (option Virtqueue * falloc) :=
  '(d, fa) ← alloc_dma_page hhdm_offset fa;
  match d with None => Done (None, fa) | Some desc_virt =>
  '(a, fa) ← alloc_dma_page hhdm_offset fa;
  match a with None => Done (None, fa) | Some avail_virt =>
  '(u, fa) ← alloc_dma_page hhdm_offset fa;
  match u with None => Done (None, fa) | Some used_virt =>
    desc ← init_desc queue_size (zrep DESC_PER_PAGE (mkVirtqDesc 0 0 0 0));
    Done (Some (mkVirtqueue desc 0 (zrep AVAIL_PER_PAGE 0) 0 (zrep USED_PER_PAGE (mkVirtqUsedElem 0 0))
                  (desc_virt ⊟ hhdm_offset) (avail_virt ⊟ hhdm_offset) (used_virt ⊟ hhdm_offset)
                  queue_size 0 queue_size 0), fa)
  end end end.

(** A buffer as the caller gives it: physical address, length, flags. *)
Definition buffer : Type := (Z * Z * Z)%type.

(** The loop of [push_chain], at descriptor [i]. *)
Fixpoint push_descs (descs : list buffer) (i : Z) (v : Virtqueue) : outcome Virtqueue :=
  match descs with
  | [] => Done v
  | (addr, len, flags) :: rest =>
      let is_last := bool_decide (rest = []) in
      d ← idx (vq_desc v) i;
      let next := d_next d in
      let flags := if is_last then Z.land flags (Z.lxor 65535 VIRTQ_DESC_F_NEXT)
                   else Z.lor flags VIRTQ_DESC_F_NEXT in
      desc ← upd (vq_desc v) i (mkVirtqDesc addr len flags next);
      let v := set_desc desc v in
      let v := set_free (if is_last then next else free_head v) (wrap 16 (num_free v - 1)) v in
      push_descs rest next v
  end.

Definition push_chain (descs : list buffer) (v : Virtqueue) : outcome (option Z * Virtqueue) :=
  if bool_decide (descs = []) || (num_free v <? wrap 16 (zlen descs)) then Done (None, v)
  else
    let head := free_head v in
    v ← push_descs descs head v;
    let avail_idx := vq_avail_idx v in
    _ ← assert_or_panic (negb (queue_size v =? 0));
    ring ← upd (vq_avail_ring v) (avail_idx `mod` queue_size v) head;
    Done (Some head, set_avail (wrap 16 (avail_idx + 1)) ring v).

Definition pop_used (v : Virtqueue) : outcome (option (Z * Z) * Virtqueue) :=
  if last_used_idx v =? vq_used_idx v then Done (None, v)
  else
    _ ← assert_or_panic (negb (queue_size v =? 0));
    e ← idx (vq_used_ring v) (last_used_idx v `mod` queue_size v);
    Done (Some (u_id e, u_len e), set_last_used (wrap 16 (last_used_idx v + 1)) v).

(** The [loop] of [free_chain]; [None] when [fuel] runs out. *)
Fixpoint free_descs (fuel : nat) (i : Z) (v : Virtqueue) : outcome (option Virtqueue) :=
  match fuel with
  | O => Done None
  | S fuel =>
      d ← idx (vq_desc v) i;
      desc ← upd (vq_desc v) i (mkVirtqDesc (d_addr d) (d_len d) 0 (free_head v));
      let v := set_free i (wrap 16 (num_free v + 1)) (set_desc desc v) in
      if negb (Z.land (d_flags d) VIRTQ_DESC_F_NEXT =? 0) then free_descs fuel (d_next d) v
      else Done (Some v)
  end.

(** A chain has at most [queue_size] descriptors. *)
Definition free_chain (head : Z) (v : Virtqueue) : outcome (option Virtqueue) :=
  free_descs (Z.to_nat (queue_size v)) head v.

(* ------------------------------------------------------------------ *)
(** ** The device, and executions *)

(** How a device reads a chain: follow [next] while NEXT is set. *)
Fixpoint device_walk (fuel : nat) (desc : list VirtqDesc) (i : Z) : option (list buffer) :=
  match fuel with
  | O => None
  | S fuel =>
      d ← zget desc i;
      let b := (d_addr d, d_len d, Z.land (d_flags d) (Z.lxor 65535 VIRTQ_DESC_F_NEXT)) in
      if negb (Z.land (d_flags d) VIRTQ_DESC_F_NEXT =? 0)
      then rest ← device_walk fuel desc (d_next d); Some (b :: rest)
      else Some [b]
  end.

(** The driver's steps, with the chains in flight: head and buffers. *)
Inductive vq_op :=
  | VPush (descs : list buffer)
  | VFree (k : nat)                                  (* return the [k]-th chain in flight *)
  | VPop                                             (* poll the used ring *)
  | VDevice (i : Z) (ring : list VirtqUsedElem).     (* the device completes requests *)

Definition vq_do (op : vq_op) (st : Virtqueue * list (Z * list buffer))
    : outcome (Virtqueue * list (Z * list buffer)) :=
  let '(v, flight) := st in
  match op with
  | VPush descs =>
      '(h, v) ← push_chain descs v;
      Done (v, match h with Some h => flight ++ [(h, descs)] | None => flight end)
  | VFree k =>
      match flight !! k with
      | Some (h, _) => o ← free_chain h v; v ← unwrap o; Done (v, delete k flight)
      | None => Done (v, flight)
      end
  | VPop => '(_, v) ← pop_used v; Done (v, flight)
  | VDevice i ring => Done (set_used i ring v, flight)
  end.

Fixpoint vq_run (ops : list vq_op) (st : Virtqueue * list (Z * list buffer))
    : outcome (Virtqueue * list (Z * list buffer)) :=
  match ops with
  | [] => Done st
  | op :: ops => st ← vq_do op st; vq_run ops st
  end.

Definition vq_op_ok (op : vq_op) : Prop :=
  match op with
  | VPush descs => zlen descs < 2 ^ 16 ∧ Forall (λ b, is_uint 16 b.2) descs
  | VDevice i ring => zlen ring = USED_PER_PAGE
  | _ => True
  end.

(* ------------------------------------------------------------------ *)
(** ** Flags *)

(** A buffer as the device sees it: NEXT is the driver's. *)
Definition strip (b : buffer) : buffer := (b.1, Z.land b.2 (Z.lxor 65535 VIRTQ_DESC_F_NEXT)).

Section flags.
Lemma land_lor_strip f : Z.land (Z.lor f 1) 65534 = Z.land f 65534.
Proof. rewrite Z.land_lor_distr_l. change (Z.land 1 65534) with 0. apply Z.lor_0_r. Qed.

Lemma land_strip f : Z.land (Z.land f 65534) 65534 = Z.land f 65534.
Proof. by rewrite <-Z.land_assoc. Qed.

Lemma next_set f : negb (Z.land (Z.lor f 1) 1 =? 0) = true.
Proof.
  rewrite Z.land_lor_distr_l. change (Z.land 1 1) with 1. apply negb_true_iff, Z.eqb_neq.
  intros E%Z.lor_eq_0_iff. lia.
Qed.

Lemma next_clear f : negb (Z.land (Z.land f 65534) 1 =? 0) = false.
Proof. rewrite <-Z.land_assoc. change (Z.land 65534 1) with 0. by rewrite Z.land_0_r. Qed.
End flags.

(* ------------------------------------------------------------------ *)
(** ** Lists of descriptors *)

(** Each descriptor of the list points to the next one. *)
Fixpoint linked (desc : list VirtqDesc) (l : list Z) : Prop :=
  match l with
  | i :: l' => (∀ j, head l' = Some j → ∃ d, zget desc i = Some d ∧ d_next d = j) ∧ linked desc l'
  | [] => True
  end.

(** The list is a chain in flight that holds [bufs]. *)
Fixpoint chain (desc : list VirtqDesc) (l : list Z) (bufs : list buffer) : Prop :=
  match l, bufs with
  | i :: l', (addr, len, flags) :: bufs' =>
      ∃ next, zget desc i = Some (mkVirtqDesc addr len
                (if bool_decide (bufs' = []) then Z.land flags 65534 else Z.lor flags 1) next) ∧
        (bufs' ≠ [] → head l' = Some next ∧ chain desc l' bufs') ∧ (bufs' = [] → l' = [])
  | _, _ => False
  end.

Definition in_page (i : Z) : Prop := 0 ≤ i < DESC_PER_PAGE.

Section lists.
Lemma linked_frame desc desc' l :
  (∀ i, i ∈ l → zget desc' i = zget desc i) → linked desc l → linked desc' l.
Proof.
  induction l as [|i l IH]; simpl; [done|]. intros Hf [Hn Hl]. split.
  - intros j Hj. rewrite Hf by left. auto.
  - apply IH; [|done]. intros k Hk. apply Hf. by right.
Qed.

Lemma chain_frame desc desc' l : ∀ bufs,
  (∀ i, i ∈ l → zget desc' i = zget desc i) → chain desc l bufs → chain desc' l bufs.
Proof.
  induction l as [|i l IH]; intros bufs Hf; destruct bufs as [|[[a n] f] bufs]; simpl; try done.
  intros (next & Hi & Hn & Hl). exists next. rewrite Hf by left. split_and!; [done| |done].
  intros Hb. destruct (Hn Hb). split; [done|]. apply IH; [|done]. intros k Hk. apply Hf. by right.
Qed.

Lemma chain_length desc l : ∀ bufs, chain desc l bufs → length l = length bufs ∧ l ≠ [].
Proof.
  induction l as [|i l IH]; intros [|[[a n] f] bufs]; simpl; try done.
  intros (next & _ & Hn & Hl). split; [|done]. f_equal.
  destruct (decide (bufs = [])) as [->|Hb]; [by rewrite Hl|]. by apply IH, Hn.
Qed.

(** The device reads a chain in flight back. *)
Lemma chain_walk desc l : ∀ bufs fuel h,
  chain desc l bufs → head l = Some h → (length l ≤ fuel)%nat →
  device_walk fuel desc h = Some (strip <$> bufs).
Proof.
  induction l as [|i l IH]; intros bufs fuel h Hc Hh Hf; simplify_eq/=.
  destruct fuel as [|fuel]; [lia|]. destruct bufs as [|[[a n] f] bufs]; [done|].
  destruct Hc as (next & Hi & Hn & Hl). simpl. rewrite Hi. simpl.
  change (Z.lxor 65535 VIRTQ_DESC_F_NEXT) with 65534. unfold VIRTQ_DESC_F_NEXT.
  case_bool_decide as Hb.
  - subst. rewrite next_clear, land_strip. done.
  - destruct (Hn Hb) as [Hh' Hc']. rewrite next_set, land_lor_strip.
    rewrite (IH bufs fuel next Hc' Hh') by lia. done.
Qed.

Lemma linked_app_r desc l1 l2 : linked desc (l1 ++ l2) → linked desc l2.
Proof. induction l1 as [|i l1 IH]; [done|]. intros [_ Hl]. auto. Qed.

(** Submitting: the first free descriptors become the chain. *)
Lemma push_descs_spec descs : ∀ l1 l2 h v,
  descs ≠ [] → length l1 = length descs → linked (vq_desc v) (l1 ++ l2) → NoDup (l1 ++ l2) →
  Forall in_page l1 → zlen (vq_desc v) = DESC_PER_PAGE → zlen descs ≤ num_free v < 2 ^ 16 →
  head l1 = Some h →
  ∃ desc' fh, push_descs descs h v = Done (set_free fh (num_free v - zlen descs) (set_desc desc' v)) ∧
    zlen desc' = DESC_PER_PAGE ∧ (∀ i, i ∉ l1 → zget desc' i = zget (vq_desc v) i) ∧
    chain desc' l1 descs ∧ (∀ j, head l2 = Some j → fh = j).
Proof.
  induction descs as [|[[a n] f] rest IH]; intros l1 l2 h v Hne Hlen Hlk Hnd Hin Hpg Hnf Hh; [done|].
  destruct l1 as [|i l1]; simplify_eq/=. apply NoDup_cons in Hnd as [Hi1 Hnd].
  apply Forall_cons in Hin as [Hi Hin]. destruct Hlk as [Hnext Hlk]. rewrite zlen_cons in Hnf.
  pose proof (zlen_nonneg rest). unfold in_page in Hi.
  destruct (zget_is_Some (vq_desc v) h) as [d Hd]; [lia|].
  rewrite (proj2 (idx_Done _ _ _) Hd). simpl. rewrite upd_Done by lia. simpl.
  rewrite wrap_small by (unfold is_uint; lia). rewrite zlen_cons.
  set (d' := mkVirtqDesc _ _ _ _). destruct rest as [|b rest].
  - destruct l1 as [|? ?]; [|done]. simpl.
    exists (zset (vq_desc v) h d'), (d_next d). split_and!.
    + done.
    + by rewrite zlen_zset.
    + intros j Hj. rewrite zget_zset_ne; [done|]. intros ->. apply Hj. left.
    + exists (d_next d). rewrite zget_zset_eq by lia. by split_and!.
    + intros j Hj. destruct (Hnext j) as (d0 & ? & ?); [by destruct l2|]. by simplify_eq.
  - destruct l1 as [|i' l1]; [done|]. destruct (Hnext i' eq_refl) as (d0 & Hd0 & Hn0).
    assert (d0 = d) as -> by congruence.
    rewrite (bool_decide_eq_false_2 (b :: rest = [])) by done.
    set (v1 := mkVirtqueue _ _ _ _ _ _ _ _ _ _ _ _).
    destruct (IH (i' :: l1) l2 (d_next d) v1) as (desc' & fh & Hrun & Hl' & Hf' & Hc' & Hh');
      [done|done| |done|done|by subst v1; simpl; rewrite zlen_zset|subst v1; simpl; rewrite zlen_cons in *; lia|
       by simpl; f_equal|].
    { eapply linked_frame; [|done]. intros k Hk. subst v1. simpl. apply zget_zset_ne. by intros ->. }
    exists desc', fh. split_and!; [|done|..|done].
    + rewrite Hrun. subst v1. simpl. do 2 f_equal. rewrite !zlen_cons. lia.
    + intros k [Hkh Hk]%not_elem_of_cons. rewrite Hf' by done. subst v1. simpl. by rewrite zget_zset_ne.
    + exists (d_next d). rewrite Hf'.
      * subst v1. simpl. rewrite zget_zset_eq by lia. split_and!; [done|split; [by rewrite Hn0|done]|done].
      * intros Hk. apply Hi1. apply elem_of_app. by left.
Qed.

(** Returning: the chain's descriptors go on top of the free ones. *)
Lemma free_descs_spec l : ∀ bufs fuel h free v,
  chain (vq_desc v) l bufs → head l = Some h → (length l ≤ fuel)%nat → NoDup (l ++ free) →
  Forall in_page l → zlen (vq_desc v) = DESC_PER_PAGE → linked (vq_desc v) free →
  (∀ j, head free = Some j → free_head v = j) → 0 ≤ num_free v → num_free v + zlen l < 2 ^ 16 →
  ∃ desc' fh, free_descs fuel h v = Done (Some (set_free fh (num_free v + zlen l) (set_desc desc' v))) ∧
    zlen desc' = DESC_PER_PAGE ∧ (∀ i, i ∉ l → zget desc' i = zget (vq_desc v) i) ∧
    linked desc' (reverse l ++ free) ∧ head (reverse l ++ free) = Some fh.
Proof.
  induction l as [|i l IH]; intros bufs fuel h free v Hc Hh Hfuel Hnd Hin Hpg Hlk Hfh Hnf Hb; simplify_eq/=.
  destruct bufs as [|[[a n] f] bufs]; [done|]. destruct Hc as (next & Hi & Hn & Hl).
  destruct fuel as [|fuel]; [lia|]. rewrite zlen_cons in *. pose proof (zlen_nonneg l).
  apply NoDup_cons in Hnd as [Hil Hnd]. apply Forall_cons in Hin as [Hip Hin]. unfold in_page in Hip.
  simpl. rewrite (proj2 (idx_Done _ _ _) Hi). simpl. rewrite upd_Done by lia. simpl.
  rewrite wrap_small by (unfold is_uint; lia). unfold VIRTQ_DESC_F_NEXT.
  set (d' := mkVirtqDesc _ _ _ _). set (v1 := mkVirtqueue _ _ _ _ _ _ _ _ _ _ _ _).
  assert (linked (vq_desc v1) (h :: free)) as Hlk1.
  { split.
    - intros j Hj. exists d'. subst v1. simpl. rewrite zget_zset_eq by lia. split; [done|]. simpl. auto.
    - eapply linked_frame; [|done]. intros k Hk. subst v1. simpl. apply zget_zset_ne. intros ->.
      apply Hil, elem_of_app. by right. }
  rewrite reverse_cons, <-(assoc_L (++)). simpl.
  case_bool_decide as Hbn.
  - rewrite next_clear. rewrite (Hl Hbn) in *. simpl.
    exists (vq_desc v1), h. split_and!; [|by subst v1; simpl; rewrite zlen_zset| |exact (proj1 Hlk1)|exact (proj2 Hlk1)|reflexivity].
    + subst v1. simpl. by rewrite zlen_nil, Z.add_0_l.
    + intros k Hk%not_elem_of_cons. subst v1. simpl. apply zget_zset_ne. naive_solver.
  - destruct (Hn Hbn) as [Hh' Hc']. rewrite next_set.
    assert (h ∉ l) as Hhl by (intros ?; apply Hil, elem_of_app; by left).
    destruct (IH bufs fuel next (h :: free) v1) as (desc' & fh & Hrun & Hl' & Hf' & Hlk' & Hfh');
      [|done|lia| |done|by subst v1; simpl; rewrite zlen_zset|done|by intros j [= <-]|subst v1; simpl; lia|
       subst v1; simpl; lia|].
    + eapply chain_frame; [|done]. intros k Hk. subst v1. simpl. apply zget_zset_ne. by intros ->.
    + rewrite <-Permutation_middle. by apply NoDup_cons.
    + exists desc', fh. split_and!; [|done| |done|done].
      * rewrite Hrun. subst v1. simpl. do 3 f_equal. lia.
      * intros k [Hkh Hk]%not_elem_of_cons. rewrite Hf' by done.
        subst v1. simpl. by apply zget_zset_ne.
Qed.
End lists.

(* ------------------------------------------------------------------ *)
(** ** The invariant *)

(** The descriptors split into the free ones and the chains in flight. *)
Record vq_inv (v : Virtqueue) (flight : list (Z * list buffer)) (free : list Z) (idxs : list (list Z))
    : Prop := {
  vi_qs : 1 ≤ queue_size v ≤ DESC_PER_PAGE;
  vi_desc : zlen (vq_desc v) = DESC_PER_PAGE;
  vi_avail : zlen (vq_avail_ring v) = AVAIL_PER_PAGE ∧ 0 ≤ vq_avail_idx v;
  vi_used : zlen (vq_used_ring v) = USED_PER_PAGE;
  vi_last : 0 ≤ last_used_idx v;
  vi_perm : free ++ concat idxs ≡ₚ seqZ 0 (queue_size v);
  vi_num : num_free v = zlen free;
  vi_head : ∀ j, head free = Some j → free_head v = j;
  vi_linked : linked (vq_desc v) free;
  vi_chains : Forall2 (λ l hb, head l = Some hb.1 ∧ chain (vq_desc v) l hb.2) idxs flight;
}.

Section inv.
Lemma vi_in_page v flight free idxs i :
  vq_inv v flight free idxs → i ∈ free ++ concat idxs → in_page i.
Proof.
  intros Hv. rewrite (vi_perm _ _ _ _ Hv), elem_of_seqZ. pose proof (vi_qs _ _ _ _ Hv).
  unfold in_page. lia.
Qed.

Lemma vi_nodup v flight free idxs : vq_inv v flight free idxs → NoDup (free ++ concat idxs).
Proof. intros Hv. rewrite (vi_perm _ _ _ _ Hv). apply NoDup_seqZ. Qed.

Lemma vi_count v flight free idxs :
  vq_inv v flight free idxs → zlen free + zlen (concat idxs) = queue_size v.
Proof.
  intros Hv. pose proof (Permutation_length (vi_perm _ _ _ _ Hv)) as Hl.
  rewrite length_app, length_seqZ in Hl. pose proof (vi_qs _ _ _ _ Hv). unfold zlen. lia.
Qed.

Lemma elem_of_concat_lookup {A} (idxs : list (list A)) k l i :
  idxs !! k = Some l → i ∈ l → i ∈ concat idxs.
Proof.
  intros Hk Hi. rewrite <-(take_drop_middle idxs k l Hk), concat_app, elem_of_app. right. simpl.
  apply elem_of_app. by left.
Qed.

(** Chains not touched stay as they are. *)
Lemma chains_frame desc desc' idxs flight :
  (∀ i, i ∈ concat idxs → zget desc' i = zget desc i) →
  Forall2 (λ l (hb : Z * list buffer), head l = Some hb.1 ∧ chain desc l hb.2) idxs flight →
  Forall2 (λ l (hb : Z * list buffer), head l = Some hb.1 ∧ chain desc' l hb.2) idxs flight.
Proof.
  intros Hf Hc. apply Forall2_same_length_lookup in Hc as [Hl Hc].
  apply Forall2_same_length_lookup. split; [done|]. intros k l hb Hk Hh.
  destruct (Hc k l hb Hk Hh) as [? ?]. split; [done|]. eapply chain_frame; [|done].
  intros i Hi. apply Hf. by eapply elem_of_concat_lookup.
Qed.

Lemma push_inv v flight free idxs descs :
  vq_inv v flight free idxs → vq_op_ok (VPush descs) →
  ∃ r v', push_chain descs v = Done (r, v') ∧
    match r with
    | None => v' = v
    | Some h => ∃ free' l, vq_inv v' (flight ++ [(h, descs)]) free' (idxs ++ [l]) ∧
        zget (vq_avail_ring v') (vq_avail_idx v `mod` queue_size v) = Some h
    end.
Proof.
  intros Hv [Hlen _]. pose proof (vi_nodup _ _ _ _ Hv) as Hnd. pose proof (vi_count _ _ _ _ Hv) as Hcnt.
  pose proof (λ i, vi_in_page _ _ _ _ i Hv) as Hpg.
  destruct Hv as [Hqs Hd [Ha Hai] Hu Hlu Hperm Hnum Hhd Hlk Hch]. unfold push_chain.
  pose proof (zlen_nonneg descs). pose proof (zlen_nonneg (concat idxs)).
  rewrite wrap_small by (unfold is_uint; lia).
  destruct (bool_decide_reflect (descs = [])) as [->|Hne]; [by eexists _, _|].
  destruct (Z.ltb_spec (num_free v) (zlen descs)); [by eexists _, _|]. cbn [orb].
  set (n := length descs). set (l1 := take n free). set (l2 := drop n free).
  assert (free = l1 ++ l2) as Hsplit by (symmetry; apply take_drop).
  assert (length l1 = n) as Hl1 by (subst l1; rewrite length_take; unfold zlen in *; lia).
  destruct l1 as [|h l1'] eqn:El1; [destruct descs; simpl in *; done|].
  assert (free_head v = h) as Hfh by (apply Hhd; by rewrite Hsplit). rewrite Hfh.
  assert (num_free v < 2 ^ 16) by (unfold DESC_PER_PAGE in *; lia).
  rewrite Hsplit in Hnd, Hlk, Hpg.
  destruct (push_descs_spec descs (h :: l1') l2 h v Hne Hl1 Hlk) as (desc' & fh & -> & Hd' & Hf & Hc & Hh');
    [|by apply Forall_forall; intros i Hi; apply Hpg; rewrite !elem_of_app; auto|done|lia|done|].
  { by apply NoDup_app in Hnd as (? & _). }
  cbn [mbind outcome_bind]. simpl. destruct (Z.eqb_spec (queue_size v) 0); [lia|]. simpl.
  pose proof (Z.mod_pos_bound (vq_avail_idx v) (queue_size v) ltac:(lia)).
  unfold AVAIL_PER_PAGE, DESC_PER_PAGE in *.
  rewrite upd_Done by lia. simpl. eexists _, _. split; [done|]. exists l2, (h :: l1').
  assert (zlen free = zlen descs + zlen l2) as Hfree.
  { rewrite Hsplit, zlen_app. unfold zlen in *. rewrite Hl1. done. }
  apply NoDup_app in Hnd as (Hnd12 & Hdj & _). apply NoDup_app in Hnd12 as (_ & Hdj12 & _).
  split; [|simpl; rewrite zget_zset_eq by lia; done].
  split; simpl; try done.
  - rewrite zlen_zset. split; [done|]. by apply wrap_range.
  - rewrite <-Hperm, Hsplit, concat_app. cbn [concat]. rewrite app_nil_r.
    rewrite (Permutation_app_comm (h :: l1') l2), <-(assoc_L (++)). f_equiv. apply Permutation_app_comm.
  - lia.
  - eapply linked_frame; [|by eapply linked_app_r]. intros i Hi. apply Hf. intros Hi'.
    by apply (Hdj12 i).
  - apply Forall2_app; [|by constructor]. eapply chains_frame; [|done]. intros i Hi. apply Hf.
    intros Hi'. apply (Hdj i); [|done]. apply elem_of_app. by left.
Qed.

Lemma free_inv v flight free idxs k h bufs :
  vq_inv v flight free idxs → flight !! k = Some (h, bufs) →
  ∃ v' free', free_chain h v = Done (Some v') ∧ vq_inv v' (delete k flight) free' (delete k idxs).
Proof.
  intros Hv Hk. pose proof (vi_nodup _ _ _ _ Hv) as Hnd. pose proof (vi_count _ _ _ _ Hv) as Hcnt.
  pose proof (λ i, vi_in_page _ _ _ _ i Hv) as Hpg.
  destruct Hv as [Hqs Hd [Ha Hai] Hu Hlu Hperm Hnum Hhd Hlk Hch].
  destruct (Forall2_lookup_r _ _ _ _ _ Hch Hk) as (l & Hl & Hlh & Hlc). simpl in *.
  assert (concat idxs ≡ₚ l ++ concat (delete k idxs)) as Hcc.
  { by rewrite (delete_Permutation idxs k l Hl) at 1. }
  rewrite Hcc in Hnd, Hperm.
  assert (∀ i, i ∈ l → in_page i) as Hlp.
  { intros i Hi. apply Hpg, elem_of_app. right. by eapply elem_of_concat_lookup. }
  assert (zlen (concat idxs) = zlen l + zlen (concat (delete k idxs))) as Hzl.
  { unfold zlen. rewrite Hcc, length_app. lia. }
  pose proof (zlen_nonneg (concat (delete k idxs))). pose proof (zlen_nonneg free).
  unfold free_chain, DESC_PER_PAGE in *.
  apply NoDup_app in Hnd as (Hnf & Hdj & Hnl). pose proof Hnl as (Hnl1 & Hdjl & _)%NoDup_app.
  destruct (free_descs_spec l bufs (Z.to_nat (queue_size v)) h free v Hlc Hlh)
    as (desc' & fh & -> & Hd' & Hf & Hlk' & Hfh); [unfold zlen in *; lia| |by apply Forall_forall|done|done|done|lia|lia|].
  { apply NoDup_app. split_and!; [done| |done]. intros i Hi Hif. apply (Hdj i Hif), elem_of_app. by left. }
  eexists _, (reverse l ++ free). split; [done|]. split; simpl; try done.
  - rewrite <-Hperm. rewrite (reverse_Permutation l), (assoc_L (++)). f_equiv. apply Permutation_app_comm.
  - rewrite zlen_app. unfold zlen. rewrite length_reverse. unfold zlen in *. lia.
  - intros j Hj. congruence.
  - eapply chains_frame; [|by apply Forall2_delete]. intros i Hi. apply Hf. intros Hil. by apply (Hdjl i).
Qed.
End inv.

Section init.
(** The size of the queue never changes. *)
Lemma push_descs_qs descs : ∀ i v v', push_descs descs i v = Done v' → queue_size v' = queue_size v.
Proof.
  induction descs as [|[[a n] f] descs IH]; intros i v v' E; simpl in E; [by simplify_eq|].
  apply bind_Done in E as (d & _ & E). apply bind_Done in E as (desc & _ & E). by apply IH in E.
Qed.

Lemma push_chain_qs descs v r v' : push_chain descs v = Done (r, v') → queue_size v' = queue_size v.
Proof.
  unfold push_chain. intros E. destruct (_ || _); [by simplify_eq|].
  apply bind_Done in E as (v1 & E1 & E). do 2 apply bind_Done in E as (? & _ & E). simplify_eq. simpl.
  by eapply push_descs_qs.
Qed.

Lemma free_chain_qs h v v' : free_chain h v = Done (Some v') → queue_size v' = queue_size v.
Proof.
  unfold free_chain. generalize (Z.to_nat (queue_size v)). intros fuel.
  revert h v. induction fuel as [|fuel IH]; intros h v E; simpl in E; [done|].
  apply bind_Done in E as (d & _ & E). apply bind_Done in E as (desc & _ & E).
  destruct (negb _); [by apply IH in E|by simplify_eq].
Qed.

(** What submitting and returning leave alone. *)
Definition rings (v : Virtqueue) : Z * list VirtqUsedElem * (Z * Z * Z) * Z * Z :=
  (vq_used_idx v, vq_used_ring v, (desc_phys v, avail_phys v, used_phys v), queue_size v, last_used_idx v).

Lemma push_descs_rings descs : ∀ i v v', push_descs descs i v = Done v' →
  rings v' = rings v ∧ vq_avail_idx v' = vq_avail_idx v.
Proof.
  induction descs as [|[[a n] f] descs IH]; intros i v v' E; simpl in E; [by simplify_eq|].
  apply bind_Done in E as (d & _ & E). apply bind_Done in E as (desc & _ & E). by apply IH in E.
Qed.

Lemma push_descs_avail descs : ∀ i v v', push_descs descs i v = Done v' → vq_avail_ring v' = vq_avail_ring v.
Proof.
  induction descs as [|[[a n] f] descs IH]; intros i v v' E; simpl in E; [by simplify_eq|].
  apply bind_Done in E as (d & _ & E). apply bind_Done in E as (desc & _ & E). by apply IH in E.
Qed.

Lemma push_chain_rings descs v h v' : push_chain descs v = Done (Some h, v') →
  rings v' = rings v ∧ vq_avail_idx v' = wrap 16 (vq_avail_idx v + 1).
Proof.
  unfold push_chain. intros E. destruct (_ || _); [done|].
  apply bind_Done in E as (v1 & E1 & E). do 2 apply bind_Done in E as (? & _ & E). simplify_eq. simpl.
  apply push_descs_rings in E1 as [E1 ->]. by rewrite <-E1.
Qed.

Lemma free_chain_rings h v v' : free_chain h v = Done (Some v') →
  rings v' = rings v ∧ vq_avail_idx v' = vq_avail_idx v ∧ vq_avail_ring v' = vq_avail_ring v.
Proof.
  unfold free_chain. generalize (Z.to_nat (queue_size v)). intros fuel.
  revert h v. induction fuel as [|fuel IH]; intros h v E; simpl in E; [done|].
  apply bind_Done in E as (d & _ & E). apply bind_Done in E as (desc & _ & E).
  destruct (negb _); [by apply IH in E|by simplify_eq].
Qed.

(** An idle queue takes a chain that fits it. *)
Lemma push_idle v free (descs : list buffer) :
  vq_inv v [] free [] → descs ≠ [] → zlen descs ≤ queue_size v → Forall (λ b, is_uint 16 b.2) descs →
  ∃ h v' free' l, push_chain descs v = Done (Some h, v') ∧ vq_inv v' [(h, descs)] free' [l] ∧
    zget (vq_avail_ring v') (vq_avail_idx v `mod` queue_size v) = Some h ∧
    rings v' = rings v ∧ vq_avail_idx v' = wrap 16 (vq_avail_idx v + 1).
Proof.
  intros Hv Hne Hlen Hb. pose proof (vi_qs _ _ _ _ Hv) as Hqs. unfold DESC_PER_PAGE in Hqs.
  destruct (push_inv v [] free [] descs Hv) as ([h|] & v' & E & Hr); [split; [lia|done]|..].
  - destruct Hr as (free' & l & Hv' & Hh). destruct (push_chain_rings _ _ _ _ E). by exists h, v', free', l.
  - exfalso. pose proof (vi_count _ _ _ _ Hv) as Hc. change (zlen (concat [])) with 0 in Hc. pose proof (vi_num _ _ _ _ Hv).
    unfold push_chain in E. rewrite bool_decide_eq_false_2, wrap_small in E by (done || (pose proof (zlen_nonneg descs); split; lia)).
    destruct (Z.ltb_spec (num_free v) (zlen descs)); [lia|]. simpl in E.
    apply bind_Done in E as (v1 & E1 & E). by do 2 apply bind_Done in E as (? & _ & E).
Qed.

Lemma linked_seqZ desc m n :
  (∀ i, m ≤ i → i + 1 < m + Z.of_nat n → ∃ d, zget desc i = Some d ∧ d_next d = i + 1) →
  linked desc (seqZ m (Z.of_nat n)).
Proof.
  revert m. induction n as [|n IH]; intros m Hd; [done|].
  rewrite seqZ_cons by lia. replace (Z.pred (Z.of_nat (S n))) with (Z.of_nat n) by lia. split.
  - intros j Hj. destruct n as [|n]; [done|]. rewrite seqZ_cons in Hj by lia. simplify_eq/=.
    destruct (Hd m) as (d & ? & ?); [lia|lia|]. exists d. split; [done|]. lia.
  - apply IH. intros i ? ?. apply Hd; lia.
Qed.

Lemma init_desc_spec qs n : ∀ desc,
  zlen desc = DESC_PER_PAGE → Z.of_nat n ≤ DESC_PER_PAGE → Z.of_nat n ≤ qs →
  ∃ desc', for_each (seqZ 0 (Z.of_nat n))
      (λ i desc, d ← idx desc i;
         upd desc i (mkVirtqDesc (d_addr d) (d_len d) 0
           (if wrap 16 (i + 1) <? qs then wrap 16 (i + 1) else 0))) desc = Done desc' ∧
    zlen desc' = DESC_PER_PAGE ∧
    ∀ i, 0 ≤ i < Z.of_nat n → i + 1 < qs → ∃ d, zget desc' i = Some d ∧ d_next d = i + 1.
Proof.
  induction n as [|n IH]; intros desc Hl Hqs Hn.
  { exists desc. split_and!; [done|done|]. lia. }
  replace (Z.of_nat (S n)) with (Z.of_nat n + 1) by lia. rewrite seqZ_snoc, for_each_app by lia.
  destruct (IH desc Hl ltac:(lia) ltac:(lia)) as (d1 & -> & Hl1 & Hd1). rewrite Z.add_0_l. simpl.
  unfold DESC_PER_PAGE in *. destruct (zget_is_Some d1 (Z.of_nat n)) as [d Hd]; [lia|].
  rewrite (proj2 (idx_Done _ _ _) Hd). simpl. rewrite upd_Done by lia. simpl.
  rewrite wrap_small by (unfold is_uint; lia).
  eexists. split_and!; [done|by rewrite zlen_zset|]. intros i Hi Hiq.
  destruct (decide (i = Z.of_nat n)) as [->|Hne].
  - rewrite zget_zset_eq by lia. eexists. split; [done|]. simpl.
    destruct (Z.ltb_spec (Z.of_nat n + 1) qs); lia.
  - rewrite zget_zset_ne by done. apply Hd1; lia.
Qed.

(** A size above what the page holds. *)
Lemma init_desc_overrun qs desc : zlen desc = DESC_PER_PAGE → DESC_PER_PAGE < qs → init_desc qs desc = Panic.
Proof.
  intros Hl Hqs. unfold init_desc. unfold DESC_PER_PAGE in *.
  replace qs with (256 + (qs - 256)) at 1 by lia. rewrite seqZ_app, for_each_app by lia.
  destruct (init_desc_spec qs 256 desc Hl ltac:(done) ltac:(lia)) as (d1 & E & Hl1 & _).
  change (Z.of_nat 256) with 256 in E. rewrite E. cbn [mbind outcome_bind].
  rewrite seqZ_cons by lia. cbn [for_each]. unfold idx. rewrite zget_None by (unfold DESC_PER_PAGE in *; lia). done.
Qed.

Lemma allocate_inv qs hhdm fa v fa' :
  1 ≤ qs ≤ DESC_PER_PAGE → Virtqueue_allocate qs hhdm fa = Done (Some v, fa') →
  vq_inv v [] (seqZ 0 qs) [] ∧ queue_size v = qs.
Proof.
  intros Hqs E. unfold Virtqueue_allocate, init_desc in E.
  apply bind_Done in E as ([[d|] fa1] & _ & E); [|done].
  apply bind_Done in E as ([[a|] fa2] & _ & E); [|done].
  apply bind_Done in E as ([[u|] fa3] & _ & E); [|done].
  destruct (init_desc_spec qs (Z.to_nat qs) (zrep DESC_PER_PAGE (mkVirtqDesc 0 0 0 0)))
    as (desc & Hrun & Hl & Hd); [by rewrite zlen_zrep|lia|lia|].
  rewrite Z2Nat.id in Hrun, Hd by lia. rewrite Hrun in E. simplify_eq/=. split; [|done].
  split; simpl; try done.
  - by rewrite app_nil_r.
  - unfold zlen. rewrite length_seqZ. lia.
  - intros j Hj. rewrite seqZ_cons in Hj by lia. by simplify_eq/=.
  - rewrite <-(Z2Nat.id qs) by lia. apply linked_seqZ. intros. apply Hd; lia.
Qed.

(** A request of fewer than 2^16 buffers is refused exactly when it is empty or too
    few descriptors are free. *)
Lemma push_chain_refuses descs v :
  zlen descs < 2 ^ 16 → (push_chain descs v = Done (None, v) ↔ descs = [] ∨ num_free v < zlen descs).
Proof.
  intros Hl. pose proof (zlen_nonneg descs). unfold push_chain. rewrite wrap_small by (split; lia).
  destruct (bool_decide_reflect (descs = [])) as [->|Hne]; cbn [orb]; [by split; auto|].
  destruct (Z.ltb_spec (num_free v) (zlen descs)); [by split; auto|]. split; [|intros [?|?]; [done|lia]].
  intros E. apply bind_Done in E as (v1 & E1 & E). by do 2 apply bind_Done in E as (? & _ & E).
Qed.

(** The length is compared after a truncation to 16 bits: a request of more buffers
    than the queue has descriptors is accepted when its length modulo 2^16 is small;
    the loop then goes round the descriptors again. *)
Lemma push_descs_total descs : ∀ i v,
  in_page i → zlen (vq_desc v) = DESC_PER_PAGE → Forall (λ d, in_page (d_next d)) (vq_desc v) →
  ∃ v', push_descs descs i v = Done v'.
Proof.
  induction descs as [|[[a n] fl] rest IH]; intros i v Hi Hl Hn; [by eexists|]. cbn [push_descs].
  unfold in_page in Hi. destruct (zget_is_Some (vq_desc v) i) as [d Hd]; [lia|].
  rewrite (proj2 (idx_Done _ _ _) Hd). cbn [mbind outcome_bind]. rewrite upd_Done by lia. cbn [mbind outcome_bind].
  assert (in_page (d_next d)) as Hd'.
  { apply (proj1 (Forall_lookup _ _) Hn (Z.to_nat i)). rewrite <-zget_nat. by rewrite Z2Nat.id by lia. }
  apply IH; simpl; [done|by rewrite zlen_zset|]. unfold zset. destruct (0 <=? i); [by apply Forall_insert|done].
Qed.

Lemma push_chain_truncates descs v :
  in_page (free_head v) → zlen (vq_desc v) = DESC_PER_PAGE → Forall (λ d, in_page (d_next d)) (vq_desc v) →
  zlen (vq_avail_ring v) = AVAIL_PER_PAGE → 0 ≤ vq_avail_idx v → 1 ≤ queue_size v ≤ DESC_PER_PAGE →
  descs ≠ [] → zlen descs `mod` 2 ^ 16 ≤ num_free v →
  ∃ v', push_chain descs v = Done (Some (free_head v), v').
Proof.
  intros Hh Hd Hn Ha Hai Hqs Hne Hl. unfold push_chain, wrap.
  rewrite bool_decide_eq_false_2, (proj2 (Z.ltb_ge _ _)) by done. cbn [orb].
  destruct (push_descs_total descs _ v Hh Hd Hn) as (v1 & E). pose proof (push_descs_rings _ _ _ _ E) as [Er Eai].
  pose proof (push_descs_avail _ _ _ _ E) as Ear. rewrite E. cbn [mbind outcome_bind].
  assert (queue_size v1 = queue_size v) as Eq by (unfold rings in Er; congruence). rewrite Eq, Eai.
  unfold DESC_PER_PAGE, AVAIL_PER_PAGE in *. destruct (Z.eqb_spec (queue_size v) 0); [lia|]. cbn [negb assert_or_panic mbind outcome_bind].
  pose proof (Z.mod_pos_bound (vq_avail_idx v) (queue_size v) ltac:(lia)).
  rewrite upd_Done by (rewrite Ear; lia). by eexists.
Qed.

(** 65537 buffers on a queue of four descriptors. *)
Example push_chain_65537 :
  ∃ v0 fa' v', Virtqueue_allocate 4 0 (boot_falloc 3) = Done (Some v0, fa') ∧
    push_chain (zrep 65537 (0, 0, 0)) v0 = Done (Some 0, v').
Proof.
  eexists _, _. destruct (push_chain_truncates (zrep 65537 (0, 0, 0))
    (mkVirtqueue ([mkVirtqDesc 0 0 0 1; mkVirtqDesc 0 0 0 2; mkVirtqDesc 0 0 0 3] ++ zrep 253 (mkVirtqDesc 0 0 0 0))
      0 (zrep AVAIL_PER_PAGE 0) 0 (zrep USED_PER_PAGE (mkVirtqUsedElem 0 0)) 4096 8192 12288 4 0 4 0)) as (v' & E).
  - done.
  - done.
  - repeat constructor; done.
  - done.
  - done.
  - done.
  - unfold zrep. by rewrite (Nat2Z.inj (Z.to_nat 65537) (S (Z.to_nat 65536)) ltac:(done)).
  - rewrite zlen_zrep by done. done.
  - exists v'. split; [vm_compute; reflexivity|exact E].
Qed.

(** The heads of disjoint chains are distinct. *)
Lemma heads_nodup {B} (idxs : list (list Z)) (flight : list (Z * B)) P :
  Forall2 (λ l hb, head l = Some hb.1 ∧ P l hb) idxs flight → NoDup (concat idxs) →
  NoDup (flight.*1) ∧ ∀ h, h ∈ flight.*1 → h ∈ concat idxs.
Proof.
  induction 1 as [|l hb idxs flight [Hh _] _ IH]; simpl; [split; [constructor|done]|].
  intros (Hl & Hdj & Hnd)%NoDup_app. destruct (IH Hnd) as [Hf Hin].
  destruct l as [|i l]; simplify_eq/=. split.
  - constructor; [|done]. intros Hi. apply (Hdj hb.1); [left|]. auto.
  - intros h [->|Hi]%elem_of_cons; [left|]. right. apply elem_of_app. auto.
Qed.

Lemma chains_size desc idxs flight :
  Forall2 (λ l (hb : Z * list buffer), head l = Some hb.1 ∧ chain desc l hb.2) idxs flight →
  length (concat idxs) = sum_list_with (length ∘ snd) flight.
Proof.
  induction 1 as [|l hb idxs flight [_ Hc] _ IH]; simpl; [done|].
  rewrite length_app, IH. by destruct (chain_length _ _ _ Hc) as [-> _].
Qed.

Lemma vq_step v flight free idxs op :
  vq_inv v flight free idxs → vq_op_ok op →
  ∃ v' flight' free' idxs', vq_do op (v, flight) = Done (v', flight') ∧
    vq_inv v' flight' free' idxs' ∧ queue_size v' = queue_size v.
Proof.
  intros Hv Hok. destruct op as [descs|k| |i ring]; simpl.
  - destruct (push_inv _ _ _ _ descs Hv Hok) as ([h|] & v' & E & Hr); rewrite E; simpl.
    + destruct Hr as (free' & l & Hv' & _). eexists _, _, _, _. split_and!; [done|done|].
      by eapply push_chain_qs.
    + subst. by eexists _, _, _, _.
  - destruct (flight !! k) as [[h bufs]|] eqn:Hk; [|by eexists _, _, _, _].
    destruct (free_inv _ _ _ _ _ _ _ Hv Hk) as (v' & free' & E & Hv'). rewrite E. simpl.
    eexists _, _, _, _. split_and!; [done|done|]. by eapply free_chain_qs.
  - unfold pop_used. destruct (last_used_idx v =? vq_used_idx v); [by eexists _, _, _, _|].
    pose proof (vi_qs _ _ _ _ Hv) as Hqs. destruct (Z.eqb_spec (queue_size v) 0); [lia|]. simpl.
    pose proof (Z.mod_pos_bound (last_used_idx v) (queue_size v) ltac:(lia)).
    pose proof (vi_used _ _ _ _ Hv) as Hu. unfold USED_PER_PAGE, DESC_PER_PAGE in *.
    destruct (zget_is_Some (vq_used_ring v) (last_used_idx v `mod` queue_size v)) as [e He]; [lia|].
    rewrite (proj2 (idx_Done _ _ _) He). simpl. eexists _, _, free, idxs. split_and!; [done| |done].
    destruct Hv. split; simpl; try done. by apply wrap_range.
  - eexists _, _, free, idxs. split_and!; [done| |done]. destruct Hv. by split.
Qed.
End init.

(** C27: The descriptor table under any use.  On a queue of 1 to 256 entries, which
    fits its page, after any sequence of submissions (each of fewer than 2^16
    buffers with 16-bit flags), returns of chains in flight in any order, polls and
    device completions, no operation having panicked or looped: the device reads
    from every chain in flight exactly the buffers submitted with it, the heads of
    the chains in flight are distinct, the free descriptors and those in flight are
    all the queue has, and the next submission of fewer than 2^16 buffers is refused
    exactly when it is empty or longer than the free descriptors.  (Longer requests
    are compared modulo 2^16: [push_chain_truncates].) *)
Theorem virtqueue_chains_intact qs hhdm fa fa' v0 ops :
  1 ≤ qs ≤ DESC_PER_PAGE → Virtqueue_allocate qs hhdm fa = Done (Some v0, fa') →
  Forall vq_op_ok ops →
  ∃ v flight, vq_run ops (v0, []) = Done (v, flight) ∧
    (∀ h bufs, (h, bufs) ∈ flight → device_walk (Z.to_nat qs) (vq_desc v) h = Some (strip <$> bufs)) ∧
    NoDup (flight.*1) ∧
    num_free v + Z.of_nat (sum_list_with (length ∘ snd) flight) = qs ∧
    ∀ descs, zlen descs < 2 ^ 16 → (push_chain descs v = Done (None, v) ↔ descs = [] ∨ num_free v < zlen descs).
Proof.
  intros Hqs E Hops. destruct (allocate_inv _ _ _ _ _ Hqs E) as [Hinv Hq]. clear E.
  assert (∃ v flight free idxs, vq_run ops (v0, []) = Done (v, flight) ∧
    vq_inv v flight free idxs ∧ queue_size v = qs) as (v & flight & free & idxs & Hrun & Hv & Hqv).
  { revert v0 Hinv Hq. generalize (@nil (Z * list buffer)) (@nil (list Z)) (seqZ 0 qs).
    induction Hops as [|op ops Hop _ IH]; intros flight idxs free v0 Hinv Hq; cbn [vq_run]; [by eexists _, _, _, _|].
    destruct (vq_step _ _ _ _ _ Hinv Hop) as (v1 & fl1 & fr1 & ix1 & -> & Hv1 & Hq1).
    cbn [mbind outcome_bind]. apply (IH fl1 ix1 fr1 v1 Hv1). congruence. }
  pose proof (vi_nodup _ _ _ _ Hv) as (_ & _ & Hnd)%NoDup_app.
  pose proof (vi_count _ _ _ _ Hv) as Hcnt. pose proof (vi_chains _ _ _ _ Hv) as Hch.
  exists v, flight. split_and!; [done|..].
  - intros h bufs [k Hk]%list_elem_of_lookup.
    destruct (Forall2_lookup_r _ _ _ _ _ Hch Hk) as (l & Hl & Hh & Hc). simpl in *.
    eapply chain_walk; [done|done|].
    assert (length l ≤ length (concat idxs))%nat.
    { rewrite <-(take_drop_middle idxs k l Hl), concat_app, length_app. simpl. rewrite length_app. lia. }
    pose proof (zlen_nonneg free). unfold zlen in *. lia.
  - by apply (heads_nodup idxs flight _ Hch).
  - rewrite <-(chains_size _ _ _ Hch), (vi_num _ _ _ _ Hv). unfold zlen in *. lia.
  - intros descs. apply push_chain_refuses.
Qed.

Lemma virtqueue_chains_intact_witness :
  ∃ v0 fa' v flight,
    Virtqueue_allocate 4 0 (boot_falloc 3) = Done (Some v0, fa') ∧
    vq_run [VPush [(1, 16, 0); (2, 512, 2); (3, 1, 2)]; VPush [(4, 8, 0)]; VPush [(5, 8, 0)]; VFree 0;
            VPush [(6, 8, 0); (7, 8, 2)]] (v0, []) = Done (v, flight) ∧
    NoDup (flight.*1).
Proof.
  destruct (Virtqueue_allocate 4 0 (boot_falloc 3)) as [[[v0|] fa']|] eqn:E; [|discriminate E..].
  destruct (virtqueue_chains_intact 4 0 (boot_falloc 3) fa' v0
    [VPush [(1, 16, 0); (2, 512, 2); (3, 1, 2)]; VPush [(4, 8, 0)]; VPush [(5, 8, 0)]; VFree 0;
     VPush [(6, 8, 0); (7, 8, 2)]]) as (v & flight & Hrun & _ & Hnd & _).
  - vm_compute. split; discriminate.
  - exact E.
  - repeat constructor; vm_compute; discriminate || reflexivity.
  - exists v0, fa', v, flight. split; [reflexivity|]. split; assumption.
Defined.
