(* ===== verification/BlockDev.v ===== *)
(** * Block devices (fs/src/lib.rs, drivers/src/block.rs)

    [BlockDev] is the trait the file systems are written against: sectors of
    512 bytes.  [Disk] states what a working device does, with its contents as
    one list of bytes; drivers that fail are devices without that law.

    Shown here: both byte-oriented views of a device ([BlockDevINode] and the
    driver's [BlockDevice]) read and write exactly the addressed bytes of the
    disk, whatever the alignment, and count what they moved. *)

From S2P Require Import Prelude.

Definition SECTOR : Z := 512.

(** A read gives success and the buffer; a write success and the device. *)
Class BlockDev (D : Type) := {
  read_block : Z → list Z → D → bool * list Z;
  write_block : Z → list Z → D → bool * D;
  sector_count : D → Z;
}.

(** A device that works: a flat array of bytes. *)
Class Disk (D : Type) `{BlockDev D} := {
  disk : D → list Z;
  disk_len : ∀ d, zlen (disk d) = SECTOR * sector_count d;
  disk_size : ∀ d, 0 ≤ sector_count d < 2 ^ 54;
  disk_read : ∀ d s buf, 0 ≤ s < sector_count d → zlen buf = SECTOR →
    read_block s buf d = (true, zslice (disk d) (SECTOR * s) (SECTOR * s + SECTOR));
  disk_read_out : ∀ d s buf, sector_count d ≤ s → (read_block s buf d).1 = false;
  disk_write : ∀ d s data, 0 ≤ s < sector_count d → zlen data = SECTOR →
    ∃ d', write_block s data d = (true, d') ∧ disk d' = zsplice (disk d) (SECTOR * s) data ∧
          sector_count d' = sector_count d;
  disk_write_out : ∀ d s data, sector_count d ≤ s →
    ∃ d', write_block s data d = (false, d') ∧ disk d' = disk d ∧ sector_count d' = sector_count d;
}.

(* ------------------------------------------------------------------ *)
(** ** The driver registry *)

Section registry.
Context {D N : Type}.

Record FsDriver := mkFsDriver {
  drv_name : string;
  drv_probe : D → outcome bool;
  drv_mount : D → outcome (option N);
}.

(** [retain(name differs)] then [push]. *)
Definition register (driver : FsDriver) (reg : list FsDriver) : list FsDriver :=
  filter (λ d, drv_name d ≠ drv_name driver) reg ++ [driver].

Definition unregister (name : string) (reg : list FsDriver) : list FsDriver :=
  filter (λ d, drv_name d ≠ name) reg.

Fixpoint probe_and_mount (reg : list FsDriver) (dev : D) : outcome (option N) :=
  match reg with
  | [] => Done None
  | driver :: reg =>
      ok ← drv_probe driver dev;
      if ok : bool then drv_mount driver dev else probe_and_mount reg dev
  end.
End registry.

(* ------------------------------------------------------------------ *)
(** ** Byte-oriented access *)

Section bytes.
Context {D : Type} `{BlockDev D}.

(** The loop of [BlockDevINode::read]; every turn copies at least a byte. *)
Fixpoint BlockDevINode_read_loop (fuel : nat) (dev : D) (pos done : Z) (buf sector_buf : list Z)
    : outcome (Z * list Z) :=
  match fuel with
  | O => Done (done, buf)
  | S fuel =>
      if done <? zlen buf then
        let sector := pos `div` 512 in
        let sec_off := pos `mod` 512 in
        let '(ok, sector_buf) := read_block sector sector_buf dev in
        if negb ok then Done (done, buf)
        else
          let avail := 512 - sec_off in
          let copy := Z.min avail (zlen buf - done) in
          src ← slice sector_buf sec_off (sec_off + copy);
          buf ← copy_into buf done (done + copy) src;
          BlockDevINode_read_loop fuel dev (pos ⊞ copy) (done + copy) buf sector_buf
      else Done (done, buf)
  end.

Definition BlockDevINode_read (offset : Z) (buf : list Z) (dev : D) : outcome (Z * list Z) :=
  if bool_decide (buf = []) then Done (0, buf)
  else BlockDevINode_read_loop (S (length buf)) dev offset 0 buf (zrep 512 0).

Fixpoint BlockDevINode_write_loop (fuel : nat) (dev : D) (pos done : Z) (buf sector_buf : list Z)
    : outcome (Z * D) :=
  match fuel with
  | O => Done (done, dev)
  | S fuel =>
      if done <? zlen buf then
        let sector := pos `div` 512 in
        let sec_off := pos `mod` 512 in
        let '(ok, sector_buf) :=
          if negb (sec_off =? 0) || (zlen buf - done <? 512)
          then read_block sector sector_buf dev else (true, sector_buf) in
        if negb ok then Done (done, dev)
        else
          let avail := 512 - sec_off in
          let copy := Z.min avail (zlen buf - done) in
          src ← slice buf done (done + copy);
          sector_buf ← copy_into sector_buf sec_off (sec_off + copy) src;
          let '(ok, dev) := write_block sector sector_buf dev in
          if negb ok then Done (done, dev)
          else BlockDevINode_write_loop fuel dev (pos ⊞ copy) (done + copy) buf sector_buf
      else Done (done, dev)
  end.

Definition BlockDevINode_write (offset : Z) (buf : list Z) (dev : D) : outcome (Z * D) :=
  if bool_decide (buf = []) then Done (0, dev)
  else BlockDevINode_write_loop (S (length buf)) dev offset 0 buf (zrep 512 0).

Definition BlockDevINode_size (dev : D) : Z := sector_count dev ⊠ 512.

(** The driver's own node, over the global device ([None] when there is none):
    accesses stop at the capacity. *)
Fixpoint BlockDevice_read_loop (fuel : nat) (dev : D) (end_ pos written : Z) (buf sector_buf : list Z)
    : outcome (Z * list Z) :=
  match fuel with
  | O => Done (written, buf)
  | S fuel =>
      if pos <? end_ then
        let sector := pos `div` 512 in
        let off_in_sector := pos `mod` 512 in
        let chunk := Z.min (512 - off_in_sector) (end_ - pos) in
        let '(ok, sector_buf) := read_block sector sector_buf dev in
        if negb ok then Done (written, buf)
        else
          src ← slice sector_buf off_in_sector (off_in_sector + chunk);
          buf ← copy_into buf written (written + chunk) src;
          BlockDevice_read_loop fuel dev end_ (pos + chunk) (written + chunk) buf sector_buf
      else Done (written, buf)
  end.

Definition BlockDevice_read (offset : Z) (buf : list Z) (virtio_blk : option D) : outcome (Z * list Z) :=
  match virtio_blk with
  | None => Done (0, buf)
  | Some dev =>
      let capacity_bytes := sector_count dev ⊠ 512 in
      if (capacity_bytes <=? offset) || bool_decide (buf = []) then Done (0, buf)
      else
        let end_ := Z.min (offset ⊞ zlen buf) capacity_bytes in
        BlockDevice_read_loop (S (length buf)) dev end_ offset 0 buf (zrep 512 0)
  end.

Fixpoint BlockDevice_write_loop (fuel : nat) (dev : D) (end_ pos consumed : Z) (buf sector_buf : list Z)
    : outcome (Z * D) :=
  match fuel with
  | O => Done (consumed, dev)
  | S fuel =>
      if pos <? end_ then
        let sector := pos `div` 512 in
        let off_in_sector := pos `mod` 512 in
        let chunk := Z.min (512 - off_in_sector) (end_ - pos) in
        let '(ok, sector_buf) :=
          if chunk <? 512 then read_block sector sector_buf dev else (true, sector_buf) in
        if negb ok then Done (consumed, dev)
        else
          src ← slice buf consumed (consumed + chunk);
          sector_buf ← copy_into sector_buf off_in_sector (off_in_sector + chunk) src;
          let '(ok, dev) := write_block sector sector_buf dev in
          if negb ok then Done (consumed, dev)
          else BlockDevice_write_loop fuel dev end_ (pos + chunk) (consumed + chunk) buf sector_buf
      else Done (consumed, dev)
  end.

Definition BlockDevice_write (offset : Z) (buf : list Z) (virtio_blk : option D)
    : outcome (Z * option D) :=
  match virtio_blk with
  | None => Done (0, None)
  | Some dev =>
      let capacity_bytes := sector_count dev ⊠ 512 in
      if (capacity_bytes <=? offset) || bool_decide (buf = []) then Done (0, Some dev)
      else
        let end_ := Z.min (offset ⊞ zlen buf) capacity_bytes in
        '(n, dev) ← BlockDevice_write_loop (S (length buf)) dev end_ offset 0 buf (zrep 512 0);
        Done (n, Some dev)
  end.

Definition BlockDevice_size (virtio_blk : option D) : Z :=
  match virtio_blk with Some dev => sector_count dev ⊠ 512 | None => 0 end.
End bytes.
Arguments FsDriver D N : clear implicits.

(* ------------------------------------------------------------------ *)
(** ** The device as bytes *)

(** How many bytes an access of [n] at [pos] moves. *)
Definition moved (cap pos n : Z) : Z := Z.min n (Z.max 0 (cap - pos)).

Section flat.
Context {D : Type} `{Disk D}.
Implicit Types d : D.

Definition capacity d : Z := SECTOR * sector_count d.

(** The sector of a byte. *)
Lemma sector_in d pos :
  0 ≤ pos →
  (pos < capacity d → pos `div` 512 < sector_count d) ∧
  (capacity d ≤ pos → sector_count d ≤ pos `div` 512) ∧
  0 ≤ pos `div` 512 ∧ 0 ≤ pos `mod` 512 < 512 ∧ pos = 512 * (pos `div` 512) + pos `mod` 512.
Proof.
  intros Hp. unfold capacity, SECTOR. pose proof (Z.div_mod pos 512 ltac:(lia)).
  pose proof (Z.mod_pos_bound pos 512 ltac:(lia)). pose proof (Z.div_pos pos 512 Hp). lia.
Qed.

Lemma read_sector d pos buf :
  0 ≤ pos < capacity d → zlen buf = SECTOR →
  let s := pos `div` 512 in
  read_block s buf d = (true, zslice (disk d) (512 * s) (512 * s + 512)) ∧
  512 * s + 512 ≤ zlen (disk d).
Proof.
  intros Hp Hb s. destruct (sector_in d pos) as (Hs & _ & ? & ? & ?); [lia|]. subst s.
  rewrite disk_read by (done || lia). rewrite disk_len. unfold SECTOR in *. split; [done|lia].
Qed.

Lemma BlockDevINode_read_loop_spec fuel : ∀ d pos done buf sb,
  0 ≤ pos → 0 ≤ done ≤ zlen buf → pos + (zlen buf - done) < 2 ^ 64 → zlen sb = SECTOR →
  zlen buf - done < Z.of_nat fuel →
  let k := moved (capacity d) pos (zlen buf - done) in
  BlockDevINode_read_loop fuel d pos done buf sb =
    Done (done + k, zsplice buf done (zslice (disk d) pos (pos + k))).
Proof.
  induction fuel as [|fuel IH]; intros d pos done buf sb Hp Hd Hw Hsb Hf k; [lia|]. simpl.
  destruct (sector_in d pos Hp) as (Hs & Hs' & ? & ? & Hdm).
  pose proof (disk_len d) as Hdl. fold (capacity d) in Hdl.
  destruct (Z.ltb_spec done (zlen buf)).
  2: { assert (k = 0) as -> by (subst k; unfold moved; lia). rewrite !Z.add_0_r, zslice_nil by lia.
       by rewrite zsplice_nil. }
  destruct (decide (pos < capacity d)) as [Hin|Hout].
  2: { destruct (read_block (pos `div` 512) sb d) as [ok sb'] eqn:E.
       pose proof (disk_read_out d (pos `div` 512) sb ltac:(apply Hs'; lia)) as Ho. rewrite E in Ho. simpl in Ho. subst ok.
       simpl. assert (k = 0) as -> by (subst k; unfold moved; lia).
       rewrite !Z.add_0_r, zslice_nil by lia. by rewrite zsplice_nil. }
  destruct (read_sector d pos sb ltac:(lia) Hsb) as [-> Hb]. simpl.
  set (s := pos `div` 512) in *. set (o := pos `mod` 512) in *.
  set (c := Z.min (512 - o) (zlen buf - done)).
  assert (0 < c ∧ c ≤ 512 - o ∧ c ≤ zlen buf - done ∧ (c = 512 - o ∨ c = zlen buf - done)) as (? & ? & ? & ?)
    by (subst c; lia).
  rewrite slice_Done by (rewrite ?zlen_zslice; lia). simpl. rewrite zslice_zslice by lia.
  replace (512 * s + o) with pos by lia. replace (512 * s + (o + c)) with (pos + c) by lia.
  assert (zlen (zslice (disk d) pos (pos + c)) = c) as Hc by (rewrite zlen_zslice; lia).
  rewrite copy_into_Done by lia. simpl. rewrite wrap_small by (unfold is_uint; lia).
  assert (zlen (zsplice buf done (zslice (disk d) pos (pos + c))) = zlen buf) as Hzl
    by (rewrite zlen_zsplice; lia).
  rewrite IH; rewrite ?Hzl; [|lia|lia|lia| |lia].
  2: { unfold SECTOR. rewrite zlen_zslice; lia. }
  assert (c + moved (capacity d) (pos + c) (zlen buf - (done + c)) = k) as Hk
    by (subst k; unfold moved, capacity, SECTOR in *; lia).
  assert (0 ≤ moved (capacity d) (pos + c) (zlen buf - (done + c))) by (unfold moved; lia).
  assert (k ≤ zlen buf - done ∧ pos + k ≤ zlen (disk d)) as [? ?]
    by (subst k; unfold moved in *; rewrite Hdl; lia).
  set (m := moved (capacity d) (pos + c) (zlen buf - (done + c))) in *.
  pose proof (zsplice_app buf done (zslice (disk d) pos (pos + c))
    (zslice (disk d) (pos + c) (pos + c + m))) as E.
  rewrite Hc, (zlen_zslice _ (pos + c)) in E by lia. rewrite E by lia.
  rewrite zslice_app by lia. by rewrite <-Hk, !Z.add_assoc.
Qed.

(** A sector read when it is changed in part, rewritten at once otherwise. *)
Lemma sector_update d pos c src sb :
  0 ≤ pos → zlen sb = SECTOR → zlen src = c → 0 < c ≤ 512 - pos `mod` 512 → pos < capacity d →
  let s := pos `div` 512 in
  let o := pos `mod` 512 in
  (c < 512 → sb = zslice (disk d) (512 * s) (512 * s + 512)) →
  copy_into sb o (o + c) src = Done (zsplice sb o src) ∧
  ∃ d', write_block s (zsplice sb o src) d = (true, d') ∧ disk d' = zsplice (disk d) pos src ∧
        capacity d' = capacity d ∧ zlen (zsplice sb o src) = SECTOR.
Proof.
  intros Hp Hsb Hsrc Hc Hin s o Hrd. destruct (sector_in d pos Hp) as (Hs & _ & ? & ? & Hdm).
  pose proof (disk_len d) as Hdl. unfold capacity, SECTOR in *. fold s o in Hs, Hdm |- *.
  rewrite copy_into_Done by lia. split; [done|].
  destruct (disk_write d s (zsplice sb o src)) as (d' & -> & Hd' & Hcnt); [lia|unfold SECTOR; rewrite zlen_zsplice; lia|].
  exists d'. split_and!; [done| |by rewrite Hcnt|rewrite zlen_zsplice; lia].
  rewrite Hd'. unfold SECTOR. destruct (decide (c < 512)) as [Hlt|].
  - rewrite (Hrd Hlt), zsplice_zslice_part by lia. f_equal. lia.
  - replace o with 0 in * by lia. rewrite zsplice_full by lia. f_equal. lia.
Qed.

Lemma BlockDevINode_write_loop_spec fuel : ∀ d pos done buf sb,
  0 ≤ pos → 0 ≤ done ≤ zlen buf → pos + (zlen buf - done) < 2 ^ 64 → zlen sb = SECTOR →
  zlen buf - done < Z.of_nat fuel →
  let k := moved (capacity d) pos (zlen buf - done) in
  ∃ d', BlockDevINode_write_loop fuel d pos done buf sb = Done (done + k, d') ∧
    disk d' = zsplice (disk d) pos (zslice buf done (done + k)) ∧ capacity d' = capacity d.
Proof.
  induction fuel as [|fuel IH]; intros d pos done buf sb Hp Hd Hw Hsb Hf k; [lia|]. simpl.
  destruct (sector_in d pos Hp) as (Hs & Hs' & ? & ? & Hdm).
  pose proof (disk_len d) as Hdl. fold (capacity d) in Hdl.
  assert (∀ d0, k = 0 → disk d0 = disk d → capacity d0 = capacity d → ∃ d', Done (done, d0) = Done (done + k, d') ∧
    disk d' = zsplice (disk d) pos (zslice buf done (done + k)) ∧ capacity d' = capacity d) as Hstop.
  { intros d0 Hk Hd0 Hc0. exists d0. rewrite Hk, Z.add_0_r, zslice_nil, zsplice_nil by lia. done. }
  destruct (Z.ltb_spec done (zlen buf)); [|apply Hstop; [subst k; unfold moved; lia|done|done]].
  set (s := pos `div` 512) in *. set (o := pos `mod` 512) in *.
  set (c := Z.min (512 - o) (zlen buf - done)).
  assert (0 < c ∧ c ≤ 512 - o ∧ c ≤ zlen buf - done ∧ (c = 512 - o ∨ c = zlen buf - done)) as (? & ? & ? & ?)
    by (subst c; lia).
  set (rd := if _ || _ then _ else _).
  destruct (decide (pos < capacity d)) as [Hin|Hout].
  2: { assert (k = 0) as Hk0 by (subst k; unfold moved; lia). destruct rd as [ok sb'] eqn:Erd.
       destruct ok; simpl; [|by apply Hstop].
       assert (zlen sb' = SECTOR) as Hsb'.
       { subst rd. destruct (_ || _); [|by simplify_eq].
         pose proof (disk_read_out d s sb ltac:(apply Hs'; lia)) as Ho. rewrite Erd in Ho. done. }
       rewrite slice_Done by lia. simpl. unfold SECTOR in *.
       rewrite copy_into_Done by (rewrite ?zlen_zslice; lia). simpl.
       destruct (disk_write_out d s (zsplice sb' o (zslice buf done (done + c)))) as (d0 & -> & Hd0 & Hc0); [apply Hs'; lia|].
       simpl. apply Hstop; [done|done|]. unfold capacity. by rewrite Hc0. }
  assert (∃ sb', rd = (true, sb') ∧ zlen sb' = SECTOR ∧
    (c < 512 → sb' = zslice (disk d) (512 * s) (512 * s + 512))) as (sb' & -> & Hsb' & Hrd).
  { destruct (read_sector d pos sb ltac:(lia) Hsb) as [E Hb]. fold s in E, Hb. subst rd.
    destruct (Z.eqb_spec o 0), (Z.ltb_spec (zlen buf - done) 512); simpl;
      (eexists; split; [done || exact E|]); unfold SECTOR in *; rewrite ?zlen_zslice by lia;
      split; try done; try lia. }
  simpl. rewrite slice_Done by lia. simpl.
  assert (zlen (zslice buf done (done + c)) = c) as Hc by (rewrite zlen_zslice; lia).
  destruct (sector_update d pos c (zslice buf done (done + c)) sb') as (Hcp & d1 & Hw1 & Hd1 & Hcap & Hz);
    [done..|fold o; lia|done|done|]. fold s o in Hcp, Hw1, Hz. rewrite Hcp. simpl. rewrite Hw1. simpl.
  rewrite wrap_small by (unfold is_uint; lia).
  destruct (IH d1 (pos + c) (done + c) buf (zsplice sb' o (zslice buf done (done + c))))
    as (d' & -> & Hd' & Hcap'); [lia..|done|lia|]. rewrite Hcap in *.
  set (m := moved (capacity d) (pos + c) (zlen buf - (done + c))) in *.
  assert (c + m = k) as Hk by (subst k m; unfold moved, capacity, SECTOR in *; lia).
  assert (0 ≤ m ∧ pos + c + m ≤ zlen (disk d) ∧ done + c + m ≤ zlen buf) as (? & ? & ?)
    by (subst m; unfold moved in *; rewrite Hdl; lia).
  exists d'. split_and!; [by rewrite <-Hk, Z.add_assoc| |congruence].
  rewrite Hd', Hd1. pose proof (zsplice_app (disk d) pos (zslice buf done (done + c))
    (zslice buf (done + c) (done + c + m))) as E.
  rewrite Hc, (zlen_zslice _ (done + c)) in E by lia. rewrite E by lia.
  rewrite zslice_app by lia. by rewrite <-Hk, Z.add_assoc.
Qed.

Lemma BlockDevice_read_loop_spec fuel : ∀ d e pos w buf sb,
  0 ≤ pos ≤ e → e ≤ capacity d → 0 ≤ w → e - pos ≤ zlen buf - w → zlen sb = SECTOR →
  e - pos < Z.of_nat fuel →
  BlockDevice_read_loop fuel d e pos w buf sb = Done (w + (e - pos), zsplice buf w (zslice (disk d) pos e)).
Proof.
  induction fuel as [|fuel IH]; intros d e pos w buf sb Hp He Hw Hb Hsb Hf; [lia|]. simpl.
  destruct (Z.ltb_spec pos e).
  2: { rewrite zslice_nil, zsplice_nil by lia. do 2 f_equal. lia. }
  destruct (sector_in d pos ltac:(lia)) as (Hs & _ & ? & ? & Hdm).
  destruct (read_sector d pos sb ltac:(lia) Hsb) as [-> Hbd]. simpl.
  pose proof (disk_len d) as Hdl. fold (capacity d) in Hdl.
  set (s := pos `div` 512) in *. set (o := pos `mod` 512) in *.
  set (c := Z.min (512 - o) (e - pos)).
  assert (0 < c ∧ c ≤ 512 - o ∧ c ≤ e - pos) as (? & ? & ?) by (subst c; lia).
  rewrite slice_Done by (rewrite ?zlen_zslice; lia). simpl. rewrite zslice_zslice by lia.
  replace (512 * s + o) with pos by lia. replace (512 * s + (o + c)) with (pos + c) by lia.
  assert (zlen (zslice (disk d) pos (pos + c)) = c) as Hc by (rewrite zlen_zslice; lia).
  rewrite copy_into_Done by lia. simpl.
  rewrite IH; [|lia|lia|lia|rewrite zlen_zsplice; lia|unfold SECTOR; rewrite zlen_zslice; lia|lia].
  pose proof (zsplice_app buf w (zslice (disk d) pos (pos + c)) (zslice (disk d) (pos + c) e)) as E.
  rewrite Hc, (zlen_zslice _ (pos + c)) in E by lia. rewrite E, zslice_app by lia.
  do 2 f_equal. lia.
Qed.

Lemma BlockDevice_write_loop_spec fuel : ∀ d e pos w buf sb,
  0 ≤ pos ≤ e → e ≤ capacity d → 0 ≤ w → e - pos ≤ zlen buf - w → zlen sb = SECTOR →
  e - pos < Z.of_nat fuel →
  ∃ d', BlockDevice_write_loop fuel d e pos w buf sb = Done (w + (e - pos), d') ∧
    disk d' = zsplice (disk d) pos (zslice buf w (w + (e - pos))) ∧ capacity d' = capacity d.
Proof.
  induction fuel as [|fuel IH]; intros d e pos w buf sb Hp He Hw Hb Hsb Hf; [lia|]. simpl.
  destruct (Z.ltb_spec pos e).
  2: { replace (w + (e - pos)) with w by lia. exists d. rewrite zslice_nil, zsplice_nil by lia. done. }
  destruct (sector_in d pos ltac:(lia)) as (Hs & _ & ? & ? & Hdm).
  pose proof (disk_len d) as Hdl. fold (capacity d) in Hdl.
  destruct (read_sector d pos sb ltac:(lia) Hsb) as [Erd Hbd].
  set (s := pos `div` 512) in *. set (o := pos `mod` 512) in *.
  set (c := Z.min (512 - o) (e - pos)).
  assert (0 < c ∧ c ≤ 512 - o ∧ c ≤ e - pos) as (? & ? & ?) by (subst c; lia).
  set (rd := if c <? 512 then _ else _).
  assert (∃ sb', rd = (true, sb') ∧ zlen sb' = SECTOR ∧
    (c < 512 → sb' = zslice (disk d) (512 * s) (512 * s + 512))) as (sb' & -> & Hsb' & Hrd).
  { subst rd. destruct (Z.ltb_spec c 512); (eexists; split; [done || exact Erd|]);
      unfold SECTOR in *; rewrite ?zlen_zslice by lia; split; try done; try lia. }
  simpl. rewrite slice_Done by lia. simpl.
  assert (zlen (zslice buf w (w + c)) = c) as Hc by (rewrite zlen_zslice; lia).
  destruct (sector_update d pos c (zslice buf w (w + c)) sb') as (Hcp & d1 & Hw1 & Hd1 & Hcap & Hz);
    [lia|done|done|fold o; lia|lia|done|]. fold s o in Hcp, Hw1, Hz. rewrite Hcp. simpl. rewrite Hw1. simpl.
  destruct (IH d1 e (pos + c) (w + c) buf (zsplice sb' o (zslice buf w (w + c))))
    as (d' & -> & Hd' & Hcap'); [lia|lia|lia|lia|done|lia|].
  exists d'. replace (w + c + (e - (pos + c))) with (w + (e - pos)) in * by lia.
  split_and!; [done| |congruence]. rewrite Hd', Hd1.
  pose proof (zsplice_app (disk d) pos (zslice buf w (w + c)) (zslice buf (w + c) (w + (e - pos)))) as E.
  rewrite Hc, (zlen_zslice _ (w + c)) in E by lia. rewrite E by lia. by rewrite zslice_app by lia.
Qed.

(** C32: On a working device both byte-oriented nodes (the file system's
    /dev node and the driver's) give the disk as one array of bytes: a read
    at any offset returns the bytes there, as many as asked for or as the disk
    still has; a write changes exactly those bytes, and both report the number
    moved.  Neither depends on the alignment of the access, and they agree. *)
Theorem block_nodes_are_bytes d offset buf :
  0 ≤ offset → offset + zlen buf < 2 ^ 64 →
  let k := moved (capacity d) offset (zlen buf) in
  BlockDevINode_read offset buf d = Done (k, zsplice buf 0 (zslice (disk d) offset (offset + k))) ∧
  BlockDevice_read offset buf (Some d) = BlockDevINode_read offset buf d ∧
  (∃ d', BlockDevINode_write offset buf d = Done (k, d') ∧
     disk d' = zsplice (disk d) offset (ztake k buf)) ∧
  (∃ d', BlockDevice_write offset buf (Some d) = Done (k, Some d') ∧
     disk d' = zsplice (disk d) offset (ztake k buf)).
Proof.
  intros Ho Hn k.
  assert (∀ j, zslice buf 0 (0 + j) = ztake j buf) as Htk.
  { intros j. unfold zslice, zdrop. simpl. by replace (0 + j - 0) with j by lia. }
  pose proof (zlen_nonneg buf) as Hbl. pose proof (disk_size d) as Hds.
  assert (BlockDevINode_read offset buf d = Done (k, zsplice buf 0 (zslice (disk d) offset (offset + k))))
    as Hrd.
  { unfold BlockDevINode_read. destruct (bool_decide_reflect (buf = [])) as [->|Hb].
    - assert (k = 0) as -> by (subst k; unfold moved; rewrite zlen_nil; lia).
      by rewrite zslice_nil, zsplice_nil by lia.
    - rewrite BlockDevINode_read_loop_spec; [|lia..|done|unfold zlen; lia]. by rewrite Z.sub_0_r, Z.add_0_l. }
  split; [done|].
  assert (sector_count d ⊠ 512 = capacity d) as Hcap.
  { unfold capacity, SECTOR. rewrite wrap_small by (unfold is_uint; lia). lia. }
  unfold BlockDevice_read, BlockDevice_write, BlockDevINode_write. rewrite Hcap, Hrd.
  rewrite !(wrap_small 64 (offset + zlen buf)) by (unfold is_uint; lia).
  destruct (bool_decide_reflect (buf = [])) as [->|Hb].
  { assert (k = 0) as -> by (subst k; unfold moved; rewrite zlen_nil; lia).
    rewrite orb_true_r, zslice_nil, zsplice_nil by lia.
    split_and!; [done|..]; exists d; (split; [done|]); unfold ztake; by rewrite take_nil, zsplice_nil. }
  rewrite orb_false_r. assert (zlen (zrep 512 0) = SECTOR) as Hz by (by rewrite zlen_zrep).
  destruct (BlockDevINode_write_loop_spec (S (length buf)) d offset 0 buf (zrep 512 0))
    as (d1 & Hw1 & Hd1 & _); [lia..|done|unfold zlen; lia|].
  rewrite Z.sub_0_r in Hw1, Hd1. fold k in Hw1, Hd1. rewrite Htk in Hd1. rewrite Z.add_0_l in Hw1.
  destruct (Z.leb_spec (capacity d) offset).
  { assert (k = 0) as Hk0 by (subst k; unfold moved; lia). rewrite Hk0 in *.
    rewrite zslice_nil, zsplice_nil by lia. split_and!; [done|by eauto|].
    exists d. split; [done|]. unfold ztake. by rewrite take_0, zsplice_nil. }
  assert (Z.min (offset + zlen buf) (capacity d) = offset + k) as -> by (subst k; unfold moved; lia).
  assert (0 ≤ k ≤ zlen buf ∧ offset + k ≤ capacity d) as [? ?] by (subst k; unfold moved; lia).
  rewrite (BlockDevice_read_loop_spec _ d (offset + k)); [|lia..|done|unfold zlen in *; lia].
  destruct (BlockDevice_write_loop_spec (S (length buf)) d (offset + k) offset 0 buf (zrep 512 0))
    as (d2 & -> & Hd2 & _); [lia..|done|unfold zlen in *; lia|].
  replace (0 + (offset + k - offset)) with (0 + k) in * by lia. rewrite Htk in Hd2. rewrite Z.add_0_l.
  split_and!; [done|by eauto|]. simpl. by eauto.
Qed.
End flat.

(* ------------------------------------------------------------------ *)
(** ** A disk in memory *)

(** Runs of equally long pieces. *)
Section pieces.
Context (n : Z).
Implicit Types l : list (list Z).

Lemma zlen_concat l : Forall (λ x, zlen x = n) l → zlen (concat l) = n * zlen l.
Proof.
  induction 1 as [|x l Hx _ IH]; simpl; [by rewrite Z.mul_0_r|].
  rewrite zlen_app, zlen_cons, IH, Hx. lia.
Qed.

Lemma concat_split l k x :
  Forall (λ x, zlen x = n) l → l !! k = Some x →
  concat l = concat (take k l) ++ x ++ concat (drop (S k) l) ∧ zlen (concat (take k l)) = n * Z.of_nat k.
Proof.
  intros Hl Hk. rewrite <-(take_drop_middle l k x Hk) at 1. rewrite concat_app. split; [done|].
  rewrite zlen_concat by (by apply Forall_take). unfold zlen. rewrite length_take.
  apply lookup_lt_Some in Hk. f_equal. lia.
Qed.

Lemma zslice_concat l k x :
  Forall (λ x, zlen x = n) l → l !! k = Some x →
  zslice (concat l) (n * Z.of_nat k) (n * Z.of_nat k + n) = x.
Proof.
  intros Hl Hk. destruct (concat_split l k x Hl Hk) as [-> Hz].
  pose proof (Forall_lookup_1 _ _ _ _ Hl Hk) as Hx. simpl in Hx.
  unfold zslice, ztake, zdrop. rewrite <-Hz. unfold zlen at 3. rewrite Nat2Z.id, drop_app_length.
  replace (zlen (concat (take k l)) + n - zlen (concat (take k l))) with (zlen x) by lia.
  unfold zlen. by rewrite Nat2Z.id, take_app_length.
Qed.

Lemma zsplice_concat l k x y :
  Forall (λ x, zlen x = n) l → l !! k = Some x → zlen y = n →
  zsplice (concat l) (n * Z.of_nat k) y = concat (<[k := y]> l).
Proof.
  intros Hl Hk Hy. destruct (concat_split l k x Hl Hk) as [-> Hz].
  pose proof (Forall_lookup_1 _ _ _ _ Hl Hk) as Hx. simpl in Hx.
  rewrite insert_take_drop by (by eapply lookup_lt_Some). rewrite concat_app. simpl.
  unfold zsplice, ztake, zdrop. rewrite <-Hz, Hy, <-Hx.
  unfold zlen at 1. rewrite Nat2Z.id, take_app_length. do 2 f_equal.
  replace (Z.to_nat (zlen (concat (take k l)) + zlen x)) with (length (concat (take k l) ++ x))
    by (rewrite length_app; unfold zlen; lia).
  by rewrite (assoc_L (++)), drop_app_length.
Qed.
End pieces.

(** Sixty-four sectors, kept as what was written to them. *)
Definition memdisk : Type := gmap Z (list Z).
Definition memdisk_sectors : Z := 64.
Definition md_sector (d : memdisk) (s : Z) : list Z :=
  let x := default [] (d !! s) in if zlen x =? 512 then x else zrep 512 0.

#[global] Instance memdisk_BlockDev : BlockDev memdisk := {
  read_block s buf d := if s <? memdisk_sectors then (true, md_sector d s) else (false, buf);
  write_block s data d := if s <? memdisk_sectors then (true, <[s := data]> d) else (false, d);
  sector_count _ := memdisk_sectors;
}.

Lemma md_sector_len d s : zlen (md_sector d s) = 512.
Proof. unfold md_sector. destruct (Z.eqb_spec (zlen (default [] (d !! s))) 512); [done|]. by rewrite zlen_zrep. Qed.

Definition md_list (d : memdisk) : list (list Z) := md_sector d <$> seqZ 0 memdisk_sectors.

Lemma md_list_wf d : Forall (λ x, zlen x = 512) (md_list d).
Proof. apply Forall_fmap, Forall_true. intros s. apply md_sector_len. Qed.

Lemma md_list_lookup d s :
  0 ≤ s < memdisk_sectors → md_list d !! Z.to_nat s = Some (md_sector d s).
Proof.
  intros. unfold md_list. rewrite list_lookup_fmap, lookup_seqZ_lt by lia. simpl. do 2 f_equal. lia.
Qed.

Definition md_bytes (d : memdisk) : list Z := concat (md_list d).
#[global] Arguments md_bytes : simpl never.

#[global] Program Instance memdisk_Disk : Disk memdisk := {| disk := md_bytes |}.
Next Obligation.
  intros d. unfold md_bytes. rewrite (zlen_concat 512) by apply md_list_wf. unfold md_list, zlen.
  by rewrite length_fmap, length_seqZ.
Qed.
Next Obligation. intros d. simpl. unfold memdisk_sectors. lia. Qed.
Next Obligation.
  intros d s buf Hs _. simpl in *. rewrite (proj2 (Z.ltb_lt _ _)) by lia. f_equal. unfold SECTOR.
  replace s with (Z.of_nat (Z.to_nat s)) at 2 3 by lia. symmetry.
  unfold md_bytes. apply (zslice_concat 512); [apply md_list_wf|]. by apply md_list_lookup.
Qed.
Next Obligation. intros d s buf Hs. simpl in *. by rewrite (proj2 (Z.ltb_ge _ _)). Qed.
Next Obligation.
  intros d s data Hs Hd. simpl in *. rewrite (proj2 (Z.ltb_lt _ _)) by lia.
  exists (<[s := data]> d). split_and!; [done| |done]. unfold SECTOR in *.
  replace s with (Z.of_nat (Z.to_nat s)) at 2 by lia.
  unfold md_bytes. rewrite (zsplice_concat 512 _ _ (md_sector d s));
    [|apply md_list_wf|by apply md_list_lookup|done]. f_equal.
  unfold md_list. apply list_eq. intros k. destruct (decide (k = Z.to_nat s)) as [->|Hne].
  - rewrite list_lookup_insert_eq by (rewrite length_fmap, length_seqZ; unfold memdisk_sectors in *; lia).
    rewrite list_lookup_fmap, lookup_seqZ_lt by lia. simpl. unfold md_sector.
    replace (0 + Z.of_nat (Z.to_nat s)) with s by lia. unfold memdisk in *. rewrite lookup_insert_eq. simpl. by rewrite Hd.
  - rewrite list_lookup_insert_ne by done. rewrite !list_lookup_fmap.
    destruct (seqZ 0 memdisk_sectors !! k) as [t|] eqn:Ht; [|done]. simpl. unfold md_sector.
    apply lookup_seqZ in Ht as [-> ?]. unfold memdisk in *. by rewrite lookup_insert_ne by lia.
Qed.
Next Obligation. intros d s data Hs. simpl in *. rewrite (proj2 (Z.ltb_ge _ _)) by done. by exists d. Qed.

Lemma md_bytes_ok (d : memdisk) : map_Forall (λ _ x, bytes_ok x) d → bytes_ok (md_bytes d).
Proof.
  intros Hd. unfold md_bytes, bytes_ok. apply Forall_concat. unfold md_list. apply Forall_fmap, Forall_true.
  intros s. simpl. unfold md_sector. destruct (_ =? _); [|apply bytes_ok_zrep; unfold byte_ok; lia].
  destruct (d !! s) as [x|] eqn:E; simpl; [by apply (Hd s)|by apply Forall_nil].
Qed.

(** A write across a sector boundary, read back. *)
Lemma block_nodes_are_bytes_witness :
  ∃ d, BlockDevINode_write 510 [1; 2; 3; 4] (∅ : memdisk) = Done (4, d) ∧
    disk d = zsplice (disk (∅ : memdisk)) 510 [1; 2; 3; 4].
Proof.
  destruct (block_nodes_are_bytes (∅ : memdisk) 510 [1; 2; 3; 4]) as (_ & _ & (d & Hw & Hd) & _).
  - lia.
  - vm_compute. reflexivity.
  - exists d. split; [exact Hw|exact Hd].
Defined.
