(* ===== verification/Ext2.v ===== *)
(** * The ext2 file system (fs/src/ext2/)

    All of the driver, over any block device: superblock.rs, bgdt.rs,
    bitmap_alloc.rs, inode.rs, dir.rs and inode_impl.rs, as functions on the
    state [ext2] that the nodes share behind a mutex (device, superblock,
    group descriptors).  A read whose result the code ignores returns whatever
    the device left in the zeroed buffer.  The theorems are in Ext2Disk,
    Ext2Alloc and Ext2Dir. *)

From S2P Require Import Prelude BlockDev Vfs.

(* ------------------------------------------------------------------ *)
(** ** Superblock (superblock.rs) *)

Definition EXT2_MAGIC : Z := 0xEF53.
Definition SUPERBLOCK_SECTOR : Z := 2.

Record Superblock := mkSuperblock {
  inodes_count : Z;
  blocks_count : Z;
  sb_free_blocks : Z;
  sb_free_inodes : Z;
  first_data_block : Z;
  log_block_size : Z;
  blocks_per_group : Z;
  inodes_per_group : Z;
  magic : Z;
  sb_inode_size : Z;
  first_ino : Z;
}.

Definition set_sb_free_blocks (n : Z) (sb : Superblock) : Superblock :=
  mkSuperblock (inodes_count sb) (blocks_count sb) n (sb_free_inodes sb) (first_data_block sb)
    (log_block_size sb) (blocks_per_group sb) (inodes_per_group sb) (magic sb) (sb_inode_size sb)
    (first_ino sb).
Definition set_sb_free_inodes (n : Z) (sb : Superblock) : Superblock :=
  mkSuperblock (inodes_count sb) (blocks_count sb) (sb_free_blocks sb) n (first_data_block sb)
    (log_block_size sb) (blocks_per_group sb) (inodes_per_group sb) (magic sb) (sb_inode_size sb)
    (first_ino sb).
#[global] Arguments set_sb_free_blocks _ _ /.
#[global] Arguments set_sb_free_inodes _ _ /.

(** [1024 << log]: the shift of a release build masks its amount. *)
Definition block_size (sb : Superblock) : Z := wrap 64 (1024 * 2 ^ (log_block_size sb `mod` 64)).
Definition sectors_per_block (sb : Superblock) : Z := block_size sb `div` 512.
Definition block_to_sector (sb : Superblock) (block : Z) : Z := block ⊠ sectors_per_block sb.

Definition num_block_groups (sb : Superblock) : outcome Z :=
  _ ← assert_or_panic (negb (blocks_per_group sb =? 0));
  let n := (blocks_count sb ⊞ blocks_per_group sb ⊟ 1) `div` blocks_per_group sb in
  Done (Z.max n 1).

Definition bgdt_block (sb : Superblock) : Z := wrap 32 (first_data_block sb + 1).

Definition inode_block_group (sb : Superblock) (ino : Z) : outcome Z :=
  _ ← assert_or_panic (negb (inodes_per_group sb =? 0));
  Done (wrap 32 (ino - 1) `div` inodes_per_group sb).
Definition inode_local_index (sb : Superblock) (ino : Z) : outcome Z :=
  _ ← assert_or_panic (negb (inodes_per_group sb =? 0));
  Done (wrap 32 (ino - 1) `mod` inodes_per_group sb).

(* ------------------------------------------------------------------ *)
(** ** Group descriptors (bgdt.rs) *)

Record BgDesc := mkBgDesc {
  block_bitmap : Z;
  inode_bitmap : Z;
  inode_table : Z;
  bg_free_blocks : Z;
  bg_free_inodes : Z;
  used_dirs : Z;
}.

(** The descriptor's fields as they are patched into the table: 18 bytes. *)
Definition bg_bytes (e : BgDesc) : list Z :=
  to_le 4 (block_bitmap e) ++ to_le 4 (inode_bitmap e) ++ to_le 4 (inode_table e) ++
  to_le 2 (bg_free_blocks e) ++ to_le 2 (bg_free_inodes e) ++ to_le 2 (used_dirs e).

Definition bg_parse (e : list Z) : outcome BgDesc :=
  bb ← le_at 4 e 0; ib ← le_at 4 e 4; it ← le_at 4 e 8;
  fb ← le_at 2 e 12; fi ← le_at 2 e 14; ud ← le_at 2 e 16;
  Done (mkBgDesc bb ib it fb fi ud).

(* ------------------------------------------------------------------ *)
(** ** Bitmaps (bitmap_alloc.rs) *)

(** The first zero bit of a byte, from bit [k] on ([n] bits left). *)
Fixpoint byte_free_bit (n : nat) (k byte : Z) : option Z :=
  match n with
  | O => None
  | S n => if Z.land byte (Z.shiftl 1 k) =? 0 then Some k else byte_free_bit n (k + 1) byte
  end.

Fixpoint find_free_bit_from (byte_idx : Z) (bitmap : list Z) : option Z :=
  match bitmap with
  | [] => None
  | byte :: bitmap =>
      if negb (byte =? 0xFF) then
        match byte_free_bit 8 0 byte with
        | Some bit => Some (byte_idx * 8 + bit)
        | None => find_free_bit_from (byte_idx + 1) bitmap
        end
      else find_free_bit_from (byte_idx + 1) bitmap
  end.

Definition find_free_bit (bitmap : list Z) : option Z := find_free_bit_from 0 bitmap.

Definition set_bit (bitmap : list Z) (i : Z) : outcome (list Z) :=
  b ← idx bitmap (i `div` 8);
  upd bitmap (i `div` 8) (Z.lor b (Z.shiftl 1 (i `mod` 8))).

Definition clear_bit (bitmap : list Z) (i : Z) : outcome (list Z) :=
  b ← idx bitmap (i `div` 8);
  upd bitmap (i `div` 8) (Z.land b (Z.lxor 0xFF (Z.shiftl 1 (i `mod` 8)))).

(* ------------------------------------------------------------------ *)
(** ** Inodes (inode.rs) *)

Definition EXT2_S_IFREG : Z := 0x8000.
Definition EXT2_S_IFDIR : Z := 0x4000.

Record Inode := mkInode {
  i_mode : Z;
  i_links_count : Z;
  i_size : Z;
  i_blocks : Z;
  i_block : list Z;
  i_ino : Z;
}.

Definition Inode_is_dir (i : Inode) : bool := Z.land (i_mode i) 0xF000 =? EXT2_S_IFDIR.
Definition Inode_is_file (i : Inode) : bool := Z.land (i_mode i) 0xF000 =? EXT2_S_IFREG.

Definition set_i_block (b : list Z) (i : Inode) : Inode :=
  mkInode (i_mode i) (i_links_count i) (i_size i) (i_blocks i) b (i_ino i).
Definition set_i_size (n : Z) (i : Inode) : Inode :=
  mkInode (i_mode i) (i_links_count i) n (i_blocks i) (i_block i) (i_ino i).
Definition set_i_blocks (n : Z) (i : Inode) : Inode :=
  mkInode (i_mode i) (i_links_count i) (i_size i) n (i_block i) (i_ino i).
#[global] Arguments set_i_block _ _ /.
#[global] Arguments set_i_size _ _ /.
#[global] Arguments set_i_blocks _ _ /.

Definition u32_at (data : list Z) (i : Z) : outcome Z := le_at 4 data (i * 4).
Definition write_u32_at (data : list Z) (i v : Z) : outcome (list Z) := put_le 4 data (i * 4) v.

(* ------------------------------------------------------------------ *)
(** ** Directory blocks (dir.rs) *)

Definition EXT2_FT_REG_FILE : Z := 1.
Definition EXT2_FT_DIR : Z := 2.

Record dirent := mkDirent {
  de_off : Z;
  de_ino : Z;
  de_rec_len : Z;
  de_name : list Z;
}.

(** The entries [for_each_entry] visits.  [f] is called on each in order until
    it returns [false]; parsing an entry cannot fail, so the clients below
    search or map this list. *)
Fixpoint dir_entries_from (fuel : nat) (off : Z) (block : list Z) : outcome (list dirent) :=
  match fuel with
  | O => Done []
  | S fuel =>
      if off + 8 <=? zlen block then
        ino ← le_at 4 block off;
        rec_len ← le_at 2 block (off + 4);
        name_len ← idx block (off + 6);
        if (rec_len <? 8) || (zlen block <? off + rec_len) then Done []
        else
          name ← slice block (off + 8) (off + 8 + Z.min name_len (zlen block - off - 8));
          rest ← dir_entries_from fuel (off + rec_len) block;
          Done (mkDirent off ino rec_len name :: rest)
      else Done []
  end.

Definition dir_entries (block : list Z) : outcome (list dirent) :=
  dir_entries_from (S (length block)) 0 block.

Definition write_dir_entry (block : list Z) (off ino rec_len name_len file_type : Z) (name : list Z)
    : outcome (list Z) :=
  block ← put_le 4 block off ino;
  block ← put_le 2 block (off + 4) rec_len;
  block ← upd block (off + 6) name_len;
  block ← upd block (off + 7) file_type;
  src ← slice name 0 name_len;
  copy_into block (off + 8) (off + 8 + name_len) src.

(** The bytes an entry with a name of [n] bytes needs: [(8 + n + 3) & !3]. *)
Definition entry_size (n : Z) : Z := align_up 2 (8 + n).

(** The walk of [add_entry] to the last entry of a block: [Some] new block
    when the entry fits in its slack. *)
Fixpoint add_in_block (fuel : nat) (off needed child_ino file_type : Z) (name block : list Z)
    : outcome (option (list Z)) :=
  match fuel with
  | O => Done None
  | S fuel =>
      if zlen block <? off + 8 then Done None
      else
        rec_len ← le_at 2 block (off + 4);
        name_len ← idx block (off + 6);
        if rec_len <? 8 then Done None
        else
          let actual := entry_size name_len in
          let next_off := off + rec_len in
          if zlen block <=? next_off then
            let slack := rec_len ⊟ actual in
            if needed <=? slack then
              block ← put_le 2 block (off + 4) (wrap 16 actual);
              block ← write_dir_entry block (off + actual) child_ino (wrap 16 slack)
                        (wrap 8 (zlen name)) file_type name;
              Done (Some block)
            else Done None
          else add_in_block fuel next_off needed child_ino file_type name block
  end.

(** The search of [remove_entry]: offset of the entry, of the one before it,
    and its length. *)
Fixpoint find_with_prev (prev : option Z) (name : list Z) (es : list dirent)
    : option (Z * option Z * Z) :=
  match es with
  | [] => None
  | d :: es =>
      if negb (de_ino d =? 0) && bool_decide (de_name d = name)
      then Some (de_off d, prev, de_rec_len d)
      else find_with_prev (Some (de_off d)) name es
  end.

(** The block after the removal, when the name is in it. *)
Definition remove_in_block (name block : list Z) : outcome (option (list Z)) :=
  es ← dir_entries block;
  match find_with_prev None name es with
  | None => Done None
  | Some (cur_off, prev, rec) =>
      block ← put_le 4 block cur_off 0;
      match prev with
      | Some poff =>
          prev_rec ← le_at 2 block (poff + 4);
          block ← put_le 2 block (poff + 4) (wrap 16 (prev_rec + rec));
          Done (Some block)
      | None => Done (Some block)
      end
  end.

Definition find_entry (name : list Z) (es : list dirent) : option Z :=
  de_ino ∘ snd <$> list_find (λ d, de_ino d ≠ 0 ∧ de_name d = name) es.

Section ext2.
Context {D : Type} `{BlockDev D}.

(** [Ext2State]. *)
Record ext2 := mkExt2 {
  e_dev : D;
  e_sb : Superblock;
  e_bgdt : list BgDesc;
}.

Definition set_dev (d : D) (e : ext2) : ext2 := mkExt2 d (e_sb e) (e_bgdt e).
Definition set_sb (sb : Superblock) (e : ext2) : ext2 := mkExt2 (e_dev e) sb (e_bgdt e).
Definition set_bgdt (t : list BgDesc) (e : ext2) : ext2 := mkExt2 (e_dev e) (e_sb e) t.

(** A sector into a zeroed buffer, the result flag ignored. *)
Definition read_sector_into (sector : Z) (dev : D) : list Z := (read_block sector (zrep 512 0) dev).2.

Definition Superblock_read (dev : D) : outcome (option Superblock) :=
  let '(ok2, s2) := read_block SUPERBLOCK_SECTOR (zrep 512 0) dev in
  if negb ok2 then Done None else
  let '(ok3, s3) := read_block (SUPERBLOCK_SECTOR + 1) (zrep 512 0) dev in
  if negb ok3 then Done None else
  let raw := s2 ++ s3 in
  magic ← le_at 2 raw 56;
  if negb (magic =? EXT2_MAGIC) then Done None else
  ic ← le_at 4 raw 0; bc ← le_at 4 raw 4; fb ← le_at 4 raw 12; fi ← le_at 4 raw 16;
  fdb ← le_at 4 raw 20; lbs ← le_at 4 raw 24; bpg ← le_at 4 raw 32; ipg ← le_at 4 raw 40;
  isz ← le_at 2 raw 88; fino ← le_at 4 raw 84;
  Done (Some (mkSuperblock ic bc fb fi fdb lbs bpg ipg magic isz fino)).

Definition write_free_counts (sb : Superblock) (dev : D) : outcome D :=
  let '(ok2, s2) := read_block SUPERBLOCK_SECTOR (zrep 512 0) dev in
  if negb ok2 then Done dev else
  let '(ok3, s3) := read_block (SUPERBLOCK_SECTOR + 1) (zrep 512 0) dev in
  if negb ok3 then Done dev else
  let raw := s2 ++ s3 in
  raw ← put_le 4 raw 12 (sb_free_blocks sb);
  raw ← put_le 4 raw 16 (sb_free_inodes sb);
  let '(_, dev) := write_block SUPERBLOCK_SECTOR (ztake 512 raw) dev in
  let '(_, dev) := write_block (SUPERBLOCK_SECTOR + 1) (zdrop 512 raw) dev in
  Done dev.

(** [read_block] / [read_block_bytes]: one file system block, sector by
    sector (each of the four modules has its own copy). *)
Definition read_sectors (first n : Z) (dev : D) : list Z :=
  concat ((λ s, read_sector_into (first ⊞ s) dev) <$> seqZ 0 n).
Definition read_fs_block (sb : Superblock) (blk : Z) (dev : D) : list Z :=
  read_sectors (block_to_sector sb blk) (sectors_per_block sb) dev.

Definition write_sectors (first n : Z) (data : list Z) (dev : D) : outcome D :=
  for_each (seqZ 0 n)
    (λ s dev,
      buf ← slice data (s * 512) ((s + 1) * 512);
      let '(_, dev) := write_block (first ⊞ s) buf dev in Done dev) dev.
Definition write_fs_block (sb : Superblock) (blk : Z) (data : list Z) (dev : D) : outcome D :=
  write_sectors (block_to_sector sb blk) (sectors_per_block sb) data dev.

Definition BgDescTable_read (dev : D) (sb : Superblock) : outcome (list BgDesc) :=
  n ← num_block_groups sb;
  let bsz := block_size sb in
  let spb := sectors_per_block sb in
  let bgdt_start_sector := block_to_sector sb (bgdt_block sb) in
  _ ← assert_or_panic (negb (bsz =? 0));
  let buf_blocks := (n * 32 + bsz - 1) `div` bsz in
  let raw := concat ((λ blk, read_sectors (bgdt_start_sector ⊞ blk * spb) spb dev) <$> seqZ 0 buf_blocks) in
  for_each (seqZ 0 n)
    (λ i entries,
      e ← slice raw (i * 32) (i * 32 + 32);
      d ← bg_parse e;
      Done (entries ++ [d])) [].

Definition bgdt_get (g : Z) (e : ext2) : outcome BgDesc := idx (e_bgdt e) g.

Definition write_entry (group : Z) (e : ext2) : outcome ext2 :=
  let sb := e_sb e in
  let bgdt_start_sector := block_to_sector sb (bgdt_block sb) in
  let spb := sectors_per_block sb in
  let bsz := block_size sb in
  _ ← assert_or_panic (negb (bsz =? 0));
  let byte_off := group * 32 in
  let block_idx := byte_off `div` bsz in
  let off_in_blk := byte_off `mod` bsz in
  let sector_base := bgdt_start_sector ⊞ block_idx * spb in
  let blk_buf := read_sectors sector_base spb (e_dev e) in
  d ← bgdt_get group e;
  _ ← slice blk_buf off_in_blk (off_in_blk + 32);
  blk_buf ← copy_into blk_buf off_in_blk (off_in_blk + 18) (bg_bytes d);
  dev ← write_sectors sector_base spb blk_buf (e_dev e);
  Done (set_dev dev e).

(** [bgdt.get_mut(g)] updated by [f], then [write_entry]. *)
Definition update_entry (g : Z) (f : BgDesc → BgDesc) (e : ext2) : outcome ext2 :=
  d ← bgdt_get g e;
  t ← upd (e_bgdt e) g (f d);
  write_entry g (set_bgdt t e).

Definition add_free_blocks (k : Z) (d : BgDesc) : BgDesc :=
  mkBgDesc (block_bitmap d) (inode_bitmap d) (inode_table d) (wrap 16 (bg_free_blocks d + k))
    (bg_free_inodes d) (used_dirs d).
Definition add_free_inodes (k : Z) (d : BgDesc) : BgDesc :=
  mkBgDesc (block_bitmap d) (inode_bitmap d) (inode_table d) (bg_free_blocks d)
    (wrap 16 (bg_free_inodes d + k)) (used_dirs d).
Definition add_used_dirs (k : Z) (d : BgDesc) : BgDesc :=
  mkBgDesc (block_bitmap d) (inode_bitmap d) (inode_table d) (bg_free_blocks d)
    (bg_free_inodes d) (wrap 16 (used_dirs d + k)).

Definition flush_counts (e : ext2) : outcome ext2 :=
  dev ← write_free_counts (e_sb e) (e_dev e); Done (set_dev dev e).

(** The loop of [alloc_block] over the groups. *)
Fixpoint alloc_block_from (gs : list Z) (e : ext2) : outcome (option Z * ext2) :=
  match gs with
  | [] => Done (None, e)
  | g :: gs =>
      bg ← bgdt_get g e;
      if bg_free_blocks bg =? 0 then alloc_block_from gs e
      else
        let bitmap_blk := block_bitmap bg in
        let bitmap := read_fs_block (e_sb e) bitmap_blk (e_dev e) in
        match find_free_bit bitmap with
        | None => alloc_block_from gs e
        | Some bit =>
            bitmap ← set_bit bitmap bit;
            dev ← write_fs_block (e_sb e) bitmap_blk bitmap (e_dev e);
            e ← update_entry g (add_free_blocks (-1)) (set_dev dev e);
            let e := set_sb (set_sb_free_blocks (saturating_sub (sb_free_blocks (e_sb e)) 1) (e_sb e)) e in
            e ← flush_counts e;
            Done (Some (wrap 32 (wrap 32 g * blocks_per_group (e_sb e) + bit)), e)
        end
  end.

Definition alloc_block (e : ext2) : outcome (option Z * ext2) :=
  n ← num_block_groups (e_sb e); alloc_block_from (seqZ 0 n) e.

Definition free_block (block : Z) (e : ext2) : outcome ext2 :=
  _ ← assert_or_panic (negb (blocks_per_group (e_sb e) =? 0));
  let g := block `div` blocks_per_group (e_sb e) in
  let bit_idx := block `mod` blocks_per_group (e_sb e) in
  bg ← bgdt_get g e;
  let bitmap_blk := block_bitmap bg in
  bitmap ← clear_bit (read_fs_block (e_sb e) bitmap_blk (e_dev e)) bit_idx;
  dev ← write_fs_block (e_sb e) bitmap_blk bitmap (e_dev e);
  e ← update_entry g (add_free_blocks 1) (set_dev dev e);
  flush_counts (set_sb (set_sb_free_blocks (wrap 32 (sb_free_blocks (e_sb e) + 1)) (e_sb e)) e).

Fixpoint alloc_inode_from (gs : list Z) (e : ext2) : outcome (option Z * ext2) :=
  match gs with
  | [] => Done (None, e)
  | g :: gs =>
      bg ← bgdt_get g e;
      if bg_free_inodes bg =? 0 then alloc_inode_from gs e
      else
        let bitmap_blk := inode_bitmap bg in
        let bitmap := read_fs_block (e_sb e) bitmap_blk (e_dev e) in
        match find_free_bit bitmap with
        | None => alloc_inode_from gs e
        | Some bit =>
            bitmap ← set_bit bitmap bit;
            dev ← write_fs_block (e_sb e) bitmap_blk bitmap (e_dev e);
            e ← update_entry g (add_free_inodes (-1)) (set_dev dev e);
            let e := set_sb (set_sb_free_inodes (saturating_sub (sb_free_inodes (e_sb e)) 1) (e_sb e)) e in
            e ← flush_counts e;
            Done (Some (wrap 32 (wrap 32 g * inodes_per_group (e_sb e) + bit + 1)), e)
        end
  end.

Definition alloc_inode (e : ext2) : outcome (option Z * ext2) :=
  n ← num_block_groups (e_sb e); alloc_inode_from (seqZ 0 n) e.

Definition free_inode (ino : Z) (e : ext2) : outcome ext2 :=
  g ← inode_block_group (e_sb e) ino;
  bit_idx ← inode_local_index (e_sb e) ino;
  bg ← bgdt_get g e;
  let bitmap_blk := inode_bitmap bg in
  bitmap ← clear_bit (read_fs_block (e_sb e) bitmap_blk (e_dev e)) bit_idx;
  dev ← write_fs_block (e_sb e) bitmap_blk bitmap (e_dev e);
  e ← update_entry g (add_free_inodes 1) (set_dev dev e);
  flush_counts (set_sb (set_sb_free_inodes (wrap 32 (sb_free_inodes (e_sb e) + 1)) (e_sb e)) e).

(* ------------------------------------------------------------------ *)
(** ** Inode table and block map (inode.rs) *)

(** Where inode [ino] lives: block of the table, and offset in it. *)
Definition inode_location (ino : Z) (e : ext2) : outcome (Z * Z) :=
  let sb := e_sb e in
  group ← inode_block_group sb ino;
  idx ← inode_local_index sb ino;
  bg ← bgdt_get group e;
  _ ← assert_or_panic (negb (block_size sb =? 0));
  let byte_off := idx * sb_inode_size sb in
  let block_idx := byte_off `div` block_size sb in
  Done (wrap 32 (inode_table bg + block_idx), byte_off `mod` block_size sb).

Definition Inode_read (ino : Z) (e : ext2) : outcome (option Inode) :=
  '(blk, off) ← inode_location ino e;
  let blk_data := read_fs_block (e_sb e) blk (e_dev e) in
  if zlen blk_data <? off + 128 then Done None
  else
    r ← slice blk_data off (off + 128);
    mode ← le_at 2 r 0; links_count ← le_at 2 r 26; size ← le_at 4 r 4; blocks ← le_at 4 r 28;
    block ← for_each (seqZ 0 15) (λ i block, b ← le_at 4 r (40 + i * 4); Done (block ++ [b])) [];
    Done (Some (mkInode mode links_count size blocks block ino)).

Definition Inode_write (i : Inode) (e : ext2) : outcome ext2 :=
  '(blk, off) ← inode_location (i_ino i) e;
  let blk_data := read_fs_block (e_sb e) blk (e_dev e) in
  dst ← slice blk_data off (off + 128);
  dst ← put_le 2 dst 0 (i_mode i);
  dst ← put_le 2 dst 26 (i_links_count i);
  dst ← put_le 4 dst 4 (i_size i);
  dst ← put_le 4 dst 28 (i_blocks i);
  dst ← for_each (seqZ 0 15) (λ k dst, b ← idx (i_block i) k; put_le 4 dst (40 + k * 4) b) dst;
  blk_data ← copy_into blk_data off (off + 128) dst;
  dev ← write_fs_block (e_sb e) blk blk_data (e_dev e);
  Done (set_dev dev e).

Definition ptrs_per_block (sb : Superblock) : Z := wrap 32 (block_size sb `div` 4).

(** A block number of zero means none. *)
Definition nonzero (b : Z) : option Z := if b =? 0 then None else Some b.

Definition get_block (i : Inode) (n : Z) (e : ext2) : outcome (option Z) :=
  let sb := e_sb e in
  let ptrs := ptrs_per_block sb in
  let rd b := read_fs_block sb b (e_dev e) in
  if n <? 12 then b ← idx (i_block i) n; Done (nonzero b)
  else
  let n1 := n - 12 in
  if n1 <? ptrs then
    ib ← idx (i_block i) 12;
    if ib =? 0 then Done None else
    b ← u32_at (rd ib) n1; Done (nonzero b)
  else
  let n2 := n1 - ptrs in
  if n2 <? wrap 32 (ptrs * ptrs) then
    dib ← idx (i_block i) 13;
    if dib =? 0 then Done None else
    ib ← u32_at (rd dib) (n2 `div` ptrs);
    if ib =? 0 then Done None else
    b ← u32_at (rd ib) (n2 `mod` ptrs); Done (nonzero b)
  else
  let n3 := n2 - wrap 32 (ptrs * ptrs) in
  tib ← idx (i_block i) 14;
  if tib =? 0 then Done None else
  _ ← assert_or_panic (negb (wrap 32 (ptrs * ptrs) =? 0));
  ib2 ← u32_at (rd tib) (n3 `div` wrap 32 (ptrs * ptrs));
  if ib2 =? 0 then Done None else
  ib ← u32_at (rd ib2) ((n3 `div` ptrs) `mod` ptrs);
  if ib =? 0 then Done None else
  b ← u32_at (rd ib) (n3 `mod` ptrs); Done (nonzero b).

(** [alloc_block(..).unwrap_or(0)] and zero-fill: a new indirect block. *)
Definition alloc_block_or_0 (e : ext2) : outcome (Z * ext2) :=
  '(b, e) ← alloc_block e; Done (default 0 b, e).
Definition zero_fill (b : Z) (e : ext2) : outcome ext2 :=
  dev ← write_fs_block (e_sb e) b (zrep (block_size (e_sb e)) 0) (e_dev e); Done (set_dev dev e).

(** Entry [k] of indirect block [b] is set to [v]. *)
Definition set_ptr (b k v : Z) (e : ext2) : outcome ext2 :=
  data ← write_u32_at (read_fs_block (e_sb e) b (e_dev e)) k v;
  dev ← write_fs_block (e_sb e) b data (e_dev e);
  Done (set_dev dev e).

(** The block in slot [k] of the inode, allocated and zeroed when absent. *)
Definition slot_block (i : Inode) (k : Z) (e : ext2) : outcome (Z * Inode * ext2) :=
  b ← idx (i_block i) k;
  if b =? 0 then
    '(ib, e) ← alloc_block_or_0 e;
    blk ← upd (i_block i) k ib;
    e ← zero_fill ib e;
    Done (ib, set_i_block blk i, e)
  else Done (b, i, e).

(** The block in entry [k] of indirect block [b], allocated when absent; the
    pointer is written before the new block is zeroed. *)
Definition ptr_block (b k : Z) (e : ext2) : outcome (Z * ext2) :=
  ib ← u32_at (read_fs_block (e_sb e) b (e_dev e)) k;
  if ib =? 0 then
    (* the code keeps the data it read before the allocation *)
    let data := read_fs_block (e_sb e) b (e_dev e) in
    '(ib, e) ← alloc_block_or_0 e;
    data ← write_u32_at data k ib;
    dev ← write_fs_block (e_sb e) b data (e_dev e);
    e ← zero_fill ib (set_dev dev e);
    Done (ib, e)
  else Done (ib, e).

Definition set_block (i : Inode) (n phys : Z) (e : ext2) : outcome (Inode * ext2) :=
  let ptrs := ptrs_per_block (e_sb e) in
  if n <? 12 then blk ← upd (i_block i) n phys; Done (set_i_block blk i, e)
  else
  let n1 := n - 12 in
  if n1 <? ptrs then
    '(ib, i, e) ← slot_block i 12 e;
    e ← set_ptr ib n1 phys e;
    Done (i, e)
  else
  let n2 := n1 - ptrs in
  if n2 <? wrap 32 (ptrs * ptrs) then
    '(dib, i, e) ← slot_block i 13 e;
    '(ib, e) ← ptr_block dib (n2 `div` ptrs) e;
    e ← set_ptr ib (n2 `mod` ptrs) phys e;
    Done (i, e)
  else
  let n3 := n2 - wrap 32 (ptrs * ptrs) in
  '(tib, i, e) ← slot_block i 14 e;
  _ ← assert_or_panic (negb (wrap 32 (ptrs * ptrs) =? 0));
  '(ib2, e) ← ptr_block tib (n3 `div` wrap 32 (ptrs * ptrs)) e;
  '(ib, e) ← ptr_block ib2 ((n3 `div` ptrs) `mod` ptrs) e;
  e ← set_ptr ib (n3 `mod` ptrs) phys e;
  Done (i, e).

(* ------------------------------------------------------------------ *)
(** ** Directories (dir.rs) *)

Definition dir_blocks (dir : Inode) (e : ext2) : outcome Z :=
  let bsz := block_size (e_sb e) in
  _ ← assert_or_panic (negb (bsz =? 0));
  Done ((i_size dir + bsz - 1) `div` bsz).

(** [get_block(..)?]: a hole ends the search. *)
Fixpoint lookup_blocks (blks : list Z) (dir : Inode) (name : str) (e : ext2) : outcome (option Z) :=
  match blks with
  | [] => Done None
  | blk_idx :: blks =>
      p ← get_block dir blk_idx e;
      match p with
      | None => Done None
      | Some phys =>
          es ← dir_entries (read_fs_block (e_sb e) phys (e_dev e));
          match find_entry name es with
          | Some ino => Done (Some ino)
          | None => lookup_blocks blks dir name e
          end
      end
  end.

Definition lookup_in_dir (dir : Inode) (name : str) (e : ext2) : outcome (option Z) :=
  n ← dir_blocks dir e; lookup_blocks (seqZ 0 (wrap 32 n)) dir name e.

Definition DOT : Z := 46.

Fixpoint list_entries (es : list dirent) (e : ext2) : outcome (list (str * FileType)) :=
  match es with
  | [] => Done []
  | d :: es =>
      here ← (if negb (de_ino d =? 0) && utf8_valid (de_name d)
                 && negb (bool_decide (de_name d = [DOT]) || bool_decide (de_name d = [DOT; DOT])) then
                ch ← Inode_read (de_ino d) e;
                Done [(de_name d, match ch with
                                  | Some c => if Inode_is_dir c then Directory else File
                                  | None => File
                                  end)]
              else Done []);
      rest ← list_entries es e;
      Done (here ++ rest)
  end.

Fixpoint readdir_blocks (blks : list Z) (dir : Inode) (e : ext2) : outcome (list (str * FileType)) :=
  match blks with
  | [] => Done []
  | blk_idx :: blks =>
      p ← get_block dir blk_idx e;
      here ← match p with
             | None => Done []
             | Some phys =>
                 es ← dir_entries (read_fs_block (e_sb e) phys (e_dev e)); list_entries es e
             end;
      rest ← readdir_blocks blks dir e;
      Done (here ++ rest)
  end.

Definition dir_readdir (dir : Inode) (e : ext2) : outcome (list (str * FileType)) :=
  n ← dir_blocks dir e; readdir_blocks (seqZ 0 (wrap 32 n)) dir e.

(** The scan of [add_entry] over the existing blocks: [true] when inserted. *)
Fixpoint add_in_blocks (blks : list Z) (dir : Inode) (name : str) (child_ino file_type : Z) (e : ext2)
    : outcome (bool * ext2) :=
  match blks with
  | [] => Done (false, e)
  | blk_idx :: blks =>
      p ← get_block dir blk_idx e;
      match p with
      | None => add_in_blocks blks dir name child_ino file_type e
      | Some phys =>
          let block := read_fs_block (e_sb e) phys (e_dev e) in
          r ← add_in_block (S (length block)) 0 (wrap 16 (entry_size (zlen name))) child_ino file_type
                name block;
          match r with
          | Some block =>
              dev ← write_fs_block (e_sb e) phys block (e_dev e); Done (true, set_dev dev e)
          | None => add_in_blocks blks dir name child_ino file_type e
          end
      end
  end.

Definition add_entry (dir : Inode) (name : str) (child_ino file_type : Z) (e : ext2)
    : outcome (Inode * ext2) :=
  let bsz := block_size (e_sb e) in
  n_blocks ← dir_blocks dir e;
  '(inserted, e) ← add_in_blocks (seqZ 0 (wrap 32 n_blocks)) dir name child_ino file_type e;
  if inserted : bool then Done (dir, e)
  else
    '(p, e) ← alloc_block e;
    match p with
    | None => Done (dir, e)
    | Some phys =>
        block ← write_dir_entry (zrep bsz 0) 0 child_ino (wrap 16 bsz) (wrap 8 (zlen name)) file_type name;
        dev ← write_fs_block (e_sb e) phys block (e_dev e);
        '(dir, e) ← set_block dir (wrap 32 n_blocks) phys (set_dev dev e);
        let dir := set_i_size (wrap 32 (i_size dir + bsz)) dir in
        let dir := set_i_blocks (wrap 32 (i_blocks dir + sectors_per_block (e_sb e))) dir in
        e ← Inode_write dir e;
        Done (dir, e)
    end.

Fixpoint remove_blocks (blks : list Z) (dir : Inode) (name : str) (e : ext2) : outcome (bool * ext2) :=
  match blks with
  | [] => Done (false, e)
  | blk_idx :: blks =>
      p ← get_block dir blk_idx e;
      match p with
      | None => remove_blocks blks dir name e
      | Some phys =>
          r ← remove_in_block name (read_fs_block (e_sb e) phys (e_dev e));
          match r with
          | Some block => dev ← write_fs_block (e_sb e) phys block (e_dev e); Done (true, set_dev dev e)
          | None => remove_blocks blks dir name e
          end
      end
  end.

Definition remove_entry (dir : Inode) (name : str) (e : ext2) : outcome (bool * ext2) :=
  n ← dir_blocks dir e; remove_blocks (seqZ 0 (wrap 32 n)) dir name e.

(* ------------------------------------------------------------------ *)
(** ** The nodes (inode_impl.rs) *)

Inductive ext2_node := Ext2FileINode (ino : Z) | Ext2DirINode (ino : Z).

(** The copy loop of [Ext2FileINode::read]: a hole ends it. *)
Fixpoint file_read_loop (fuel : nat) (i : Inode) (offset to_read done : Z) (buf : list Z) (e : ext2)
    : outcome (Z * list Z) :=
  match fuel with
  | O => Done (done, buf)
  | S fuel =>
      if done <? to_read then
        let bsz := block_size (e_sb e) in
        let pos := offset ⊞ done in
        let blk_idx := wrap 32 (pos `div` bsz) in
        let blk_off := pos `mod` bsz in
        p ← get_block i blk_idx e;
        match p with
        | None => Done (done, buf)
        | Some phys =>
            let block := read_fs_block (e_sb e) phys (e_dev e) in
            let avail := Z.min (bsz - blk_off) (to_read - done) in
            src ← slice block blk_off (blk_off + avail);
            buf ← copy_into buf done (done + avail) src;
            file_read_loop fuel i offset to_read (done + avail) buf e
        end
      else Done (done, buf)
  end.

Definition file_read (ino offset : Z) (buf : list Z) (e : ext2) : outcome (Z * list Z) :=
  if bool_decide (buf = []) then Done (0, buf)
  else
    io ← Inode_read ino e;
    match io with
    | None => Done (0, buf)
    | Some i =>
        if i_size i <=? offset then Done (0, buf)
        else
          _ ← assert_or_panic (negb (block_size (e_sb e) =? 0));
          let to_read := Z.min (zlen buf) (i_size i - offset) in
          file_read_loop (S (length buf)) i offset to_read 0 buf e
    end.

(** The block that holds position [pos], allocated and zeroed when absent;
    [None] when the disk is full. *)
Definition file_block (i : Inode) (blk_idx : Z) (e : ext2) : outcome (option Z * Inode * ext2) :=
  p ← get_block i blk_idx e;
  match p with
  | Some p => Done (Some p, i, e)
  | None =>
      '(p, e) ← alloc_block e;
      match p with
      | None => Done (None, i, e)
      | Some p =>
          e ← zero_fill p e;
          '(i, e) ← set_block i blk_idx p e;
          Done (Some p, set_i_blocks (wrap 32 (i_blocks i + sectors_per_block (e_sb e))) i, e)
      end
  end.

Fixpoint file_write_loop (fuel : nat) (i : Inode) (offset done : Z) (buf : list Z) (e : ext2)
    : outcome (Z * Inode * ext2) :=
  match fuel with
  | O => Done (done, i, e)
  | S fuel =>
      if done <? zlen buf then
        let bsz := block_size (e_sb e) in
        let pos := offset ⊞ done in
        let blk_idx := wrap 32 (pos `div` bsz) in
        let blk_off := pos `mod` bsz in
        '(p, i, e) ← file_block i blk_idx e;
        match p with
        | None => Done (done, i, e)
        | Some phys =>
            let avail := Z.min (bsz - blk_off) (zlen buf - done) in
            src ← slice buf done (done + avail);
            block ← copy_into (read_fs_block (e_sb e) phys (e_dev e)) blk_off (blk_off + avail) src;
            dev ← write_fs_block (e_sb e) phys block (e_dev e);
            file_write_loop fuel i offset (done + avail) buf (set_dev dev e)
        end
      else Done (done, i, e)
  end.

Definition file_write (ino offset : Z) (buf : list Z) (e : ext2) : outcome (Z * ext2) :=
  if bool_decide (buf = []) then Done (0, e)
  else
    io ← Inode_read ino e;
    match io with
    | None => Done (0, e)
    | Some i =>
        _ ← assert_or_panic (negb (block_size (e_sb e) =? 0));
        '(done, i, e) ← file_write_loop (S (length buf)) i offset 0 buf e;
        let new_end := offset ⊞ done in
        let i := if i_size i <? new_end then set_i_size (wrap 32 new_end) i else i in
        e ← Inode_write i e;
        Done (done, e)
    end.

Definition file_size (ino : Z) (e : ext2) : outcome Z :=
  io ← Inode_read ino e; Done (match io with Some i => i_size i | None => 0 end).

Definition dir_lookup (ino : Z) (name : str) (e : ext2) : outcome (option ext2_node) :=
  d ← Inode_read ino e;
  match d with None => Done None | Some dir =>
  c ← lookup_in_dir dir name e;
  match c with None => Done None | Some child_ino =>
  ch ← Inode_read child_ino e;
  match ch with None => Done None | Some child =>
    Done (Some (if Inode_is_dir child then Ext2DirINode child_ino else Ext2FileINode child_ino))
  end end end.

Definition node_readdir (ino : Z) (e : ext2) : outcome (option (list (str * FileType))) :=
  d ← Inode_read ino e;
  match d with
  | None => Done None
  | Some dir => es ← dir_readdir dir e; Done (Some es)
  end.

(** The block of a new directory: ["."] and [".."]. *)
Definition new_dir_block (bsz child_ino parent_ino : Z) : outcome (list Z) :=
  b ← put_le 4 (zrep bsz 0) 0 child_ino;
  b ← put_le 2 b 4 12;
  b ← upd b 6 1;
  b ← upd b 7 EXT2_FT_DIR;
  b ← upd b 8 DOT;
  b ← put_le 4 b 12 parent_ino;
  b ← put_le 2 b 16 (wrap 16 (bsz ⊟ 12));
  b ← upd b 18 2;
  b ← upd b 19 EXT2_FT_DIR;
  b ← upd b 20 DOT;
  upd b 21 DOT.

Definition dir_mkdir (ino : Z) (name : str) (e : ext2) : outcome (result unit * ext2) :=
  '(c, e) ← alloc_inode e;
  match c with None => Done (Err "no free inodes", e) | Some child_ino =>
  '(b, e) ← alloc_block e;
  match b with None => Done (Err "no free blocks", e) | Some blk =>
    let bsz := block_size (e_sb e) in
    let spb := sectors_per_block (e_sb e) in
    dir_blk ← new_dir_block bsz child_ino ino;
    dev ← write_fs_block (e_sb e) blk dir_blk (e_dev e);
    let e := set_dev dev e in
    let child := mkInode (Z.lor EXT2_S_IFDIR 493) 2 (wrap 32 bsz) (wrap 32 spb)
                   (blk :: zrep 14 0) child_ino in
    e ← Inode_write child e;
    p ← Inode_read ino e;
    match p with None => Done (Err "parent inode read failed", e) | Some parent_inode =>
      '(_, e) ← add_entry parent_inode name child_ino EXT2_FT_DIR e;
      g ← inode_block_group (e_sb e) ino;
      e ← update_entry g (add_used_dirs 1) e;
      Done (Ok tt, e)
    end
  end end.

Definition dir_create_file (ino : Z) (name : str) (e : ext2) : outcome (result ext2_node * ext2) :=
  '(c, e) ← alloc_inode e;
  match c with None => Done (Err "no free inodes", e) | Some child_ino =>
    let child := mkInode (Z.lor EXT2_S_IFREG 420) 1 0 0 (zrep 15 0) child_ino in
    e ← Inode_write child e;
    p ← Inode_read ino e;
    match p with None => Done (Err "parent inode read failed", e) | Some parent_inode =>
      '(_, e) ← add_entry parent_inode name child_ino EXT2_FT_REG_FILE e;
      Done (Ok (Ext2FileINode child_ino), e)
    end
  end.

(** The loop of [unlink] over the child's blocks. *)
Definition free_blocks_of (child : Inode) (n : Z) (e : ext2) : outcome ext2 :=
  for_each (seqZ 0 n)
    (λ b e, p ← get_block child b e;
       match p with Some phys => free_block phys e | None => Done e end) e.

Definition dir_unlink (ino : Z) (name : str) (e : ext2) : outcome (result unit * ext2) :=
  d ← Inode_read ino e;
  match d with None => Done (Err "dir inode read failed", e) | Some dir =>
  c ← lookup_in_dir dir name e;
  match c with None => Done (Err "not found", e) | Some child_ino =>
  ch ← Inode_read child_ino e;
  match ch with None => Done (Err "child inode read failed", e) | Some child =>
    n ← dir_blocks child e;
    e ← free_blocks_of child (wrap 32 n) e;
    e ← free_inode child_ino e;
    '(removed, e) ← remove_entry dir name e;
    Done (if removed : bool then Ok tt else Err "entry not found", e)
  end end end.

(** [Ext2Driver] (mod.rs). *)
Definition ext2_probe (dev : D) : outcome bool :=
  let '(ok, buf) := read_block 2 (zrep 512 0) dev in
  if negb ok then Done false else m ← le_at 2 buf 56; Done (m =? EXT2_MAGIC).

Definition ext2_mount (dev : D) : outcome (option (ext2_node * ext2)) :=
  s ← Superblock_read dev;
  match s with
  | None => Done None
  | Some sb => bgdt ← BgDescTable_read dev sb; Done (Some (Ext2DirINode 2, mkExt2 dev sb bgdt))
  end.
End ext2.
Arguments ext2 D : clear implicits.

(* ------------------------------------------------------------------ *)
(** ** ext2 nodes as VFS nodes *)

#[global] Instance ext2_INode {D} `{BlockDev D} : INode ext2_node (ext2 D) := {
  inode_read n offset buf e :=
    match n with
    | Ext2FileINode ino => '(k, buf) ← file_read ino offset buf e; Done (k, buf, e)
    | Ext2DirINode _ => Done (0, buf, e)
    end;
  inode_write n offset buf e :=
    match n with
    | Ext2FileINode ino => file_write ino offset buf e
    | Ext2DirINode _ => Done (0, e)
    end;
  inode_metadata n _ := match n with Ext2FileINode _ => File | Ext2DirINode _ => Directory end;
  inode_lookup n name e :=
    match n with
    | Ext2FileINode _ => default_lookup n name e
    | Ext2DirINode ino => r ← dir_lookup ino name e; Done (r, e)
    end;
  inode_insert n name child e :=
    match n with
    | Ext2FileINode _ => default_insert n name child e
    | Ext2DirINode _ => Done (Err "use create_file or mkdir for ext2 directories", e)
    end;
  inode_create_file n name e :=
    match n with
    | Ext2FileINode _ => default_create_file n name e
    | Ext2DirINode ino => dir_create_file ino name e
    end;
  inode_mkdir n name e :=
    match n with
    | Ext2FileINode _ => default_mkdir n name e
    | Ext2DirINode ino => dir_mkdir ino name e
    end;
  inode_unlink n name e :=
    match n with
    | Ext2FileINode _ => default_unlink n name e
    | Ext2DirINode ino => dir_unlink ino name e
    end;
  inode_size n e :=
    match n with
    | Ext2FileINode ino => file_size ino e
    | Ext2DirINode _ => default_size n e
    end;
  inode_readdir n e :=
    match n with
    | Ext2FileINode _ => default_readdir n e
    | Ext2DirINode ino => r ← node_readdir ino e; Done (r, e)
    end;
}.
