(* ===== verification/Ext2Disk.v ===== *)
(** * ext2 blocks on a working disk

    On a device that is a flat array of bytes ([Disk]), the sector loops of the
    driver read and write whole file system blocks: [blk e b] is block [b].
    Shared by the theorems on allocation, block maps and directories. *)

From S2P Require Import Prelude BlockDev Vfs Ext2.

Section disk.
Context {D : Type} `{Disk D}.
Implicit Types (d : D) (e : ext2 D).

Lemma read_sectors_spec d first n :
  0 ≤ first → 0 ≤ n → first + n ≤ sector_count d →
  read_sectors first n d = zslice (disk d) (SECTOR * first) (SECTOR * (first + n)).
Proof.
  intros Hf Hn. revert n Hn. apply (natlike_ind (λ n, first + n ≤ sector_count d →
    read_sectors first n d = zslice (disk d) (SECTOR * first) (SECTOR * (first + n)))).
  - intros _. unfold read_sectors. simpl. rewrite zslice_nil; [done|unfold SECTOR; lia].
  - intros n Hn IH Hle. unfold read_sectors in *. rewrite <-Z.add_1_r, seqZ_snoc by done.
    rewrite fmap_app, concat_app, IH by lia. simpl. rewrite app_nil_r, Z.add_0_l.
    pose proof (disk_size d). unfold read_sector_into. rewrite wrap_small by (unfold is_uint; lia).
    rewrite disk_read by (first [lia | by apply zlen_zrep]). simpl.
    replace (SECTOR * (first + n) + SECTOR) with (SECTOR * (first + (n + 1))) by lia.
    apply zslice_app; unfold SECTOR; lia.
Qed.

Lemma write_sectors_spec d first n data :
  0 ≤ first → 0 ≤ n → first + n ≤ sector_count d → zlen data = SECTOR * n →
  ∃ d', write_sectors first n data d = Done d' ∧ disk d' = zsplice (disk d) (SECTOR * first) data ∧
        sector_count d' = sector_count d.
Proof.
  intros Hf Hn Hle Hd. unfold write_sectors.
  assert (∀ k, 0 ≤ k → k ≤ n → ∃ d', for_each (seqZ 0 k)
     (λ s dev, buf ← slice data (s * 512) ((s + 1) * 512);
        let '(_, dev) := write_block (first ⊞ s) buf dev in Done dev) d = Done d' ∧
     disk d' = zsplice (disk d) (SECTOR * first) (zslice data 0 (SECTOR * k)) ∧
     sector_count d' = sector_count d) as Hk.
  { apply (natlike_ind (λ k, k ≤ n → _)).
    - intros _. exists d. simpl. split_and!; [done| |done]. by rewrite zslice_nil, zsplice_nil.
    - intros k Hk IH Hkn. destruct IH as (d1 & E1 & E2 & E3); [lia|].
      rewrite <-Z.add_1_r, seqZ_snoc, for_each_app, E1, Z.add_0_l by done. simpl. unfold SECTOR in *.
      rewrite slice_Done by lia. simpl. pose proof (disk_size d).
      rewrite wrap_small by (unfold is_uint; lia).
      pose proof (disk_len d) as Hlen. unfold SECTOR in *.
      destruct (disk_write d1 (first + k) (zslice data (k * 512) ((k + 1) * 512))) as (d2 & E & F1 & F2);
        [lia|rewrite zlen_zslice; unfold SECTOR; lia|].
      rewrite E. simpl. exists d2. split_and!; [done| |lia]. rewrite F1, E2. unfold SECTOR.
      rewrite <-(zslice_app data 0 (512 * k) (512 * (k + 1))) by lia. rewrite <-zsplice_app.
      + rewrite zlen_zslice by lia. f_equal; [lia|]. f_equal; lia.
      + lia.
      + rewrite !zlen_zslice by lia. lia. }
  destruct (Hk n Hn) as (d' & E1 & E2 & E3); [lia|]. exists d'. split_and!; [done| |done].
  by rewrite E2, <-Hd, zslice_full.
Qed.

(* ------------------------------------------------------------------ *)
(** ** Whole blocks *)

(** Block sizes of 1, 2 and 4 KiB. *)
Definition geom (sb : Superblock) : Prop := 0 ≤ log_block_size sb ≤ 2.

Definition nblk e : Z := capacity (e_dev e) `div` block_size (e_sb e).
Definition blk e (b : Z) : list Z :=
  zslice (disk (e_dev e)) (b * block_size (e_sb e)) (b * block_size (e_sb e) + block_size (e_sb e)).

Lemma geom_spec sb :
  geom sb → block_size sb = SECTOR * sectors_per_block sb ∧
    (block_size sb = 1024 ∨ block_size sb = 2048 ∨ block_size sb = 4096).
Proof.
  intros Hg. unfold geom, block_size, sectors_per_block, block_size in *.
  assert (log_block_size sb = 0 ∨ log_block_size sb = 1 ∨ log_block_size sb = 2) as [-> | [-> | ->]] by lia;
    vm_compute; naive_solver.
Qed.

Lemma nblk_bound e b :
  geom (e_sb e) → 0 ≤ b < nblk e → (b + 1) * block_size (e_sb e) ≤ capacity (e_dev e).
Proof.
  intros Hg Hb. destruct (geom_spec _ Hg) as [_ Hs]. unfold nblk in Hb.
  pose proof (Z.mul_div_le (capacity (e_dev e)) (block_size (e_sb e))). nia.
Qed.

Lemma zlen_blk e b : geom (e_sb e) → 0 ≤ b < nblk e → zlen (blk e b) = block_size (e_sb e).
Proof.
  intros Hg Hb. pose proof (nblk_bound e b Hg Hb). destruct (geom_spec _ Hg) as [_ Hs].
  unfold blk, capacity in *. rewrite zlen_zslice; [lia|nia|]. rewrite disk_len. lia.
Qed.

Lemma block_to_sector_spec e b :
  geom (e_sb e) → 0 ≤ b < nblk e →
  block_to_sector (e_sb e) b = b * sectors_per_block (e_sb e) ∧
  0 ≤ b * sectors_per_block (e_sb e) ∧
  b * sectors_per_block (e_sb e) + sectors_per_block (e_sb e) ≤ sector_count (e_dev e).
Proof.
  intros Hg Hb. pose proof (nblk_bound e b Hg Hb). destruct (geom_spec _ Hg) as [Hs Hv].
  unfold capacity, SECTOR in *. pose proof (disk_size (e_dev e)).
  assert (sectors_per_block (e_sb e) = 2 ∨ sectors_per_block (e_sb e) = 4 ∨ sectors_per_block (e_sb e) = 8) by lia.
  unfold block_to_sector. rewrite wrap_small; [|unfold is_uint]; nia.
Qed.

Lemma read_fs_block_spec e b :
  geom (e_sb e) → 0 ≤ b < nblk e → read_fs_block (e_sb e) b (e_dev e) = blk e b.
Proof.
  intros Hg Hb. destruct (block_to_sector_spec e b Hg Hb) as (E & Hp & Hle).
  destruct (geom_spec _ Hg) as [Hs Hv]. unfold read_fs_block, blk. unfold SECTOR in *.
  rewrite E, read_sectors_spec by lia. unfold SECTOR. rewrite Hs. f_equal; lia.
Qed.

Lemma write_fs_block_spec e b data :
  geom (e_sb e) → 0 ≤ b < nblk e → zlen data = block_size (e_sb e) →
  ∃ dev, write_fs_block (e_sb e) b data (e_dev e) = Done dev ∧
    disk dev = zsplice (disk (e_dev e)) (b * block_size (e_sb e)) data ∧
    sector_count dev = sector_count (e_dev e).
Proof.
  intros Hg Hb Hd. destruct (block_to_sector_spec e b Hg Hb) as (E & Hp & Hle).
  destruct (geom_spec _ Hg) as [Hs Hv]. unfold write_fs_block. unfold SECTOR in *. rewrite E.
  destruct (write_sectors_spec (e_dev e) (b * sectors_per_block (e_sb e)) (sectors_per_block (e_sb e)) data)
    as (d' & -> & E2 & E3); [lia|lia|lia|unfold SECTOR; lia|]. exists d'. split_and!; [done| |done].
  rewrite E2. unfold SECTOR. rewrite Hs. f_equal. lia.
Qed.

Lemma blk_write e b data dev b' :
  geom (e_sb e) → 0 ≤ b < nblk e → 0 ≤ b' < nblk e → zlen data = block_size (e_sb e) →
  disk dev = zsplice (disk (e_dev e)) (b * block_size (e_sb e)) data →
  blk (set_dev dev e) b' = if decide (b' = b) then data else blk e b'.
Proof.
  intros Hg Hb Hb' Hd E. pose proof (nblk_bound e b Hg Hb). pose proof (nblk_bound e b' Hg Hb').
  destruct (geom_spec _ Hg) as [_ Hs]. unfold blk. simpl. rewrite E.
  pose proof (disk_len (e_dev e)) as Hl. unfold capacity in *.
  destruct (decide (b' = b)) as [->|Hne].
  - apply zslice_zsplice_same; nia.
  - apply zslice_zsplice_disjoint; [nia|nia|nia|]. rewrite Hd.
    assert (b' < b ∨ b < b') as [?|?] by lia; [left; nia|right; nia].
Qed.

(** A write that stays outside block [b]. *)
Lemma blk_other e a src dev b :
  geom (e_sb e) → 0 ≤ b < nblk e → 0 ≤ a → a + zlen src ≤ zlen (disk (e_dev e)) →
  disk dev = zsplice (disk (e_dev e)) a src →
  a + zlen src ≤ b * block_size (e_sb e) ∨ (b + 1) * block_size (e_sb e) ≤ a →
  blk (set_dev dev e) b = blk e b.
Proof.
  intros Hg Hb Ha Hl E Hout. destruct (geom_spec _ Hg) as [_ Hs]. unfold blk. simpl. rewrite E.
  apply zslice_zsplice_disjoint; nia.
Qed.

(* ------------------------------------------------------------------ *)
(** ** Group descriptors and free counts *)

(** The byte at which the group descriptor table starts. *)
Definition table_at (sb : Superblock) : Z := bgdt_block sb * block_size sb.

Lemma zlen_bg_bytes bg : zlen (bg_bytes bg) = 18.
Proof. unfold bg_bytes. rewrite !zlen_app, !zlen_to_le by lia. lia. Qed.

(** [write_entry] patches the descriptor's 18 bytes. *)
Lemma write_entry_spec e g bg :
  geom (e_sb e) → 0 ≤ g → zget (e_bgdt e) g = Some bg →
  0 ≤ bgdt_block (e_sb e) → bgdt_block (e_sb e) + (g * 32) `div` block_size (e_sb e) < nblk e →
  ∃ dev, write_entry g e = Done (set_dev dev e) ∧
    disk dev = zsplice (disk (e_dev e)) (table_at (e_sb e) + g * 32) (bg_bytes bg) ∧
    sector_count dev = sector_count (e_dev e).
Proof.
  intros Hg Hg0 Ebg Ht Hn. unfold write_entry, table_at. set (sb := e_sb e) in *.
  destruct (geom_spec _ Hg) as [Hs Hv]. set (q := (g * 32) `div` block_size sb) in *.
  assert (0 ≤ q) by (apply Z.div_pos; lia).
  assert (g * 32 = block_size sb * q + (g * 32) `mod` block_size sb) as Hdm by (apply Z.div_mod; lia).
  assert (0 ≤ (g * 32) `mod` block_size sb ∧ (g * 32) `mod` block_size sb + 32 ≤ block_size sb) as Hm.
  { clear -Hv. destruct Hv as [-> | [-> | ->]]; Z.to_euclidean_division_equations; lia. }
  set (m := (g * 32) `mod` block_size sb) in *. clearbody m q.
  destruct (Z.eqb_spec (block_size sb) 0); [lia|]. cbn [negb assert_or_panic mbind outcome_bind].
  destruct (block_to_sector_spec e (bgdt_block sb + q)) as (E & Hp & Hle); [done|lia|]. fold sb in E, Hp, Hle.
  destruct (block_to_sector_spec e (bgdt_block sb)) as (E0 & Hp0 & Hle0); [done|lia|]. fold sb in E0, Hp0, Hle0.
  pose proof (disk_size (e_dev e)). unfold SECTOR in *.
  assert (block_to_sector sb (bgdt_block sb) ⊞ q * sectors_per_block sb =
    (bgdt_block sb + q) * sectors_per_block sb) as ->.
  { rewrite E0, wrap_small; [lia|]. unfold is_uint. lia. }
  rewrite read_sectors_spec by lia. set (raw := zslice _ _ _).
  pose proof (disk_len (e_dev e)) as Hlen. unfold SECTOR in *.
  assert (zlen raw = block_size sb) as Hraw by (subst raw; rewrite zlen_zslice; lia).
  unfold bgdt_get. rewrite (proj2 (idx_Done _ _ _) Ebg). cbn [mbind outcome_bind].
  pose proof (zlen_bg_bytes bg).
  rewrite slice_Done by lia. cbn [mbind outcome_bind]. rewrite copy_into_Done by lia. cbn [mbind outcome_bind].
  destruct (write_sectors_spec (e_dev e) ((bgdt_block sb + q) * sectors_per_block sb) (sectors_per_block sb)
    (zsplice raw m (bg_bytes bg))) as (d' & -> & E2 & E3); [lia|lia|lia|rewrite zlen_zsplice; unfold SECTOR; lia|].
  eexists; split_and!; [done| |done]. rewrite E2. subst raw. unfold SECTOR.
  rewrite zsplice_zslice_part by lia. f_equal. lia.
Qed.

Lemma write_free_counts_spec sb d :
  4 ≤ sector_count d →
  ∃ d', write_free_counts sb d = Done d' ∧
    disk d' = zsplice (zsplice (disk d) 1036 (to_le 4 (sb_free_blocks sb))) 1040 (to_le 4 (sb_free_inodes sb)) ∧
    sector_count d' = sector_count d.
Proof.
  intros Hsc. unfold write_free_counts. pose proof (disk_len d) as Hlen. unfold SECTOR, SUPERBLOCK_SECTOR in *.
  rewrite !disk_read by (first [lia | by apply zlen_zrep]). unfold SECTOR. cbn [negb].
  rewrite zslice_app by lia. set (raw := zslice _ _ _).
  assert (zlen raw = 1024) as Hraw by (subst raw; rewrite zlen_zslice; lia).
  rewrite put_le_Done by lia. cbn [mbind outcome_bind].
  rewrite put_le_Done by (rewrite ?zlen_zsplice; rewrite ?zlen_to_le; lia). cbn [mbind outcome_bind].
  set (raw' := zsplice (zsplice raw 12 _) 16 _).
  assert (zlen raw' = 1024) as Hraw' by (subst raw'; rewrite !zlen_zsplice; rewrite ?zlen_zsplice, ?zlen_to_le; rewrite ?zlen_to_le; lia).
  destruct (disk_write d 2 (ztake 512 raw')) as (d1 & -> & E1 & S1); [lia|rewrite zlen_ztake; unfold SECTOR; lia|].
  destruct (disk_write d1 (2 + 1) (zdrop 512 raw')) as (d2 & -> & E2 & S2); [lia|rewrite zlen_zdrop; unfold SECTOR; lia|].
  exists d2. split_and!; [done| |lia]. rewrite E2, E1. unfold SECTOR.
  rewrite zsplice_next by (rewrite ?zlen_ztake, ?zlen_zdrop; lia).
  unfold ztake, zdrop. rewrite take_drop. subst raw'.
  rewrite !(zsplice_next _ (to_le 4 (sb_free_blocks sb))) by (rewrite ?zlen_to_le; lia).
  subst raw. by rewrite zsplice_zslice_part by (rewrite ?zlen_app, ?zlen_to_le; lia).
Qed.
End disk.

(* ------------------------------------------------------------------ *)
(** ** The superblock on the disk *)

(** What [Superblock::read] makes of the 1024 bytes. *)
Definition sb_parse (raw : list Z) : outcome (option Superblock) :=
  magic ← le_at 2 raw 56;
  if negb (magic =? EXT2_MAGIC) then Done None else
  ic ← le_at 4 raw 0; bc ← le_at 4 raw 4; fb ← le_at 4 raw 12; fi ← le_at 4 raw 16;
  fdb ← le_at 4 raw 20; lbs ← le_at 4 raw 24; bpg ← le_at 4 raw 32; ipg ← le_at 4 raw 40;
  isz ← le_at 2 raw 88; fino ← le_at 4 raw 84;
  Done (Some (mkSuperblock ic bc fb fi fdb lbs bpg ipg magic isz fino)).

Lemma sb_parse_counts raw raw' sb fb fi :
  zlen raw = 1024 → is_uint 32 fb → is_uint 32 fi → sb_parse raw = Done (Some sb) →
  raw' = zsplice raw 12 (to_le 4 fb ++ to_le 4 fi) →
  sb_parse raw' = Done (Some (set_sb_free_inodes fi (set_sb_free_blocks fb sb))).
Proof.
  intros Hl Hfb Hfi Hp ->. unfold sb_parse in *.
  assert (∀ n off, 0 < n → 0 ≤ off → off + n ≤ 12 ∨ 20 ≤ off → off + n ≤ 1024 →
    le_at n (zsplice raw 12 (to_le 4 fb ++ to_le 4 fi)) off = le_at n raw off) as Hne.
  { intros n off Hn Ho Hd Hle. rewrite !le_at_Done by (rewrite ?zlen_zsplice; rewrite ?zlen_app, ?zlen_to_le; lia).
    by rewrite zslice_zsplice_disjoint by (rewrite ?zlen_app, ?zlen_to_le; lia). }
  assert (holds (zsplice raw 12 (to_le 4 fb ++ to_le 4 fi)) 12 (to_le 4 fb ++ to_le 4 fi)) as Hh
    by (apply holds_splice_same; rewrite ?zlen_app, ?zlen_to_le; lia).
  pose proof Hh as Hh2. apply holds_app_r in Hh2. rewrite zlen_to_le in Hh2 by lia.
  rewrite (Hne 2 56), (Hne 4 0), (Hne 4 4), (Hne 4 20), (Hne 4 24), (Hne 4 32), (Hne 4 40), (Hne 2 88),
    (Hne 4 84) by lia.
  rewrite (holds_le _ 12 4 fb ltac:(lia) Hfb (holds_app_l _ _ _ _ Hh)), (holds_le _ 16 4 fi ltac:(lia) Hfi Hh2).
  destruct (le_at 2 raw 56) as [m|]; [|done]. cbn [mbind outcome_bind] in *. destruct (negb _); [done|].
  rewrite (le_at_Done 4 raw 12), (le_at_Done 4 raw 16) in Hp by lia.
  repeat match type of Hp with
  | context [le_at ?n raw ?o] => destruct (le_at n raw o); cbn [mbind outcome_bind] in *; [|done]
  end.
  cbn [mbind outcome_bind] in *. by simplify_eq.
Qed.

Section superblock.
Context {D : Type} `{Disk D}.

Lemma Superblock_read_spec (d : D) :
  4 ≤ sector_count d → Superblock_read d = sb_parse (zslice (disk d) 1024 2048).
Proof.
  intros Hsc. unfold Superblock_read. pose proof (disk_len d) as Hlen. unfold SECTOR, SUPERBLOCK_SECTOR in *.
  rewrite !disk_read by (first [lia | by apply zlen_zrep]). unfold SECTOR. cbn [negb].
  by rewrite zslice_app by lia.
Qed.

End superblock.

(** Patching the free counts in place. *)
Lemma sb_parse_patched (dk : list Z) sb fb fi :
  2048 ≤ zlen dk → is_uint 32 fb → is_uint 32 fi → sb_parse (zslice dk 1024 2048) = Done (Some sb) →
  sb_parse (zslice (zsplice (zsplice dk 1036 (to_le 4 fb)) 1040 (to_le 4 fi)) 1024 2048) =
    Done (Some (set_sb_free_inodes fi (set_sb_free_blocks fb sb))).
Proof.
  intros Hl Hfb Hfi Hr. eapply sb_parse_counts; [..|exact Hr|]; [rewrite zlen_zslice; lia|done|done|].
  rewrite zsplice_next by (rewrite ?zlen_to_le; lia).
  apply zlist_eq. intros i Hi. set (src := to_le 4 fb ++ to_le 4 fi).
  assert (zlen src = 8) by (subst src; rewrite zlen_app, !zlen_to_le; lia).
  destruct (decide (i < 1024)).
  - rewrite zget_zslice by lia. destruct (decide (12 ≤ i < 20)).
    + rewrite !zget_zsplice_in by (rewrite ?zlen_zslice; lia). f_equal. lia.
    + rewrite !zget_zsplice_out by (rewrite ?zlen_zslice; lia). by rewrite zget_zslice by lia.
  - rewrite !zget_None; [done|rewrite zlen_zsplice; rewrite ?zlen_zslice; lia|].
    rewrite zlen_zslice; [lia|lia|]. rewrite zlen_zsplice; lia.
Qed.
