(* ===== verification/Ext2Alloc.v ===== *)
(** * ext2 block and inode allocation (fs/src/ext2/bitmap_alloc.rs)

    The bitmaps on the disk as functions from numbers to bits, the invariant
    of a mounted file system ([wf]: the disk carries the superblock and the
    descriptors that are in memory, the free counts are the numbers of clear
    bits, the metadata blocks lie apart), and the allocator against it. *)

From S2P Require Import Prelude BlockDev Vfs Ext2 Ext2Disk.

(** Bit [i] of a bitmap; what lies beyond counts as taken. *)
Definition bit (bm : list Z) (i : Z) : bool :=
  match zget bm (i `div` 8) with Some b => Z.testbit b (i `mod` 8) | None => true end.

(** The clear bits. *)
Definition nfree (bm : list Z) : Z := zlen (filter (λ i, bit bm i = false) (seqZ 0 (8 * zlen bm))).

Section bits.
Lemma land_shiftl_testbit b k : 0 ≤ k → (Z.land b (Z.shiftl 1 k) =? 0) = negb (Z.testbit b k).
Proof.
  intros Hk. destruct (Z.testbit b k) eqn:E; simpl.
  - apply Z.eqb_neq. intros E0. assert (Z.testbit (Z.land b (1 ≪ k)) k = true) as Ht.
    { rewrite Z.land_spec, E, Z.shiftl_spec, Z.sub_diag by done. done. }
    by rewrite E0, Z.bits_0 in Ht.
  - apply Z.eqb_eq. apply Z.bits_inj'. intros n Hn. rewrite Z.land_spec, Z.bits_0, Z.shiftl_spec by done.
    destruct (decide (n = k)) as [->|]; [by rewrite E|].
    destruct (decide (n < k)); [by rewrite (Z.testbit_neg_r _ (n - k)) by lia; rewrite andb_false_r|].
    rewrite (Z.bits_above_log2 1 (n - k)) by (simpl; lia). by rewrite andb_false_r.
Qed.

Lemma byte_free_bit_spec n : ∀ k byte, 0 ≤ k →
  match byte_free_bit n k byte with
  | Some j => k ≤ j < k + Z.of_nat n ∧ Z.testbit byte j = false ∧ ∀ i, k ≤ i < j → Z.testbit byte i = true
  | None => ∀ i, k ≤ i < k + Z.of_nat n → Z.testbit byte i = true
  end.
Proof.
  induction n as [|n IH]; intros k byte Hk; simpl; [intros; lia|].
  rewrite land_shiftl_testbit by done. destruct (Z.testbit byte k) eqn:E; simpl.
  - specialize (IH (k + 1) byte ltac:(lia)). destruct (byte_free_bit n (k + 1) byte).
    + destruct IH as (? & ? & Hlt). split_and!; [lia|lia|done|]. intros i Hi.
      destruct (decide (i = k)) as [->|]; [done|]. apply Hlt. lia.
    + intros i Hi. destruct (decide (i = k)) as [->|]; [done|]. apply IH. lia.
  - split_and!; [lia|lia|done|]. intros; lia.
Qed.

Lemma bit_cons b bm i : 8 ≤ i → bit (b :: bm) i = bit bm (i - 8).
Proof.
  intros Hi. unfold bit. replace (i `mod` 8) with ((i - 8) `mod` 8) by (Z.to_euclidean_division_equations; lia).
  replace (i `div` 8) with ((i - 8) `div` 8 + 1) by (Z.to_euclidean_division_equations; lia).
  rewrite zget_cons_succ; [done|]. apply Z.div_pos; lia.
Qed.

Lemma bit_head b bm i : 0 ≤ i < 8 → bit (b :: bm) i = Z.testbit b i.
Proof. intros. unfold bit. by rewrite Z.div_small, Z.mod_small by lia. Qed.

Lemma find_free_bit_from_spec bm : ∀ bi,
  match find_free_bit_from bi bm with
  | Some i => ∃ j, i = bi * 8 + j ∧ 0 ≤ j < 8 * zlen bm ∧ bit bm j = false ∧ ∀ k, 0 ≤ k < j → bit bm k = true
  | None => ∀ k, 0 ≤ k < 8 * zlen bm → bit bm k = true
  end.
Proof.
  induction bm as [|b bm IH]; intros bi; cbn [find_free_bit_from]; [intros k Hk; change (zlen []) with 0 in Hk; lia|].
  rewrite zlen_cons. pose proof (zlen_nonneg bm) as Hz.
  assert (match byte_free_bit 8 0 b with
    | Some j => 0 ≤ j < 8 ∧ Z.testbit b j = false ∧ ∀ i, 0 ≤ i < j → Z.testbit b i = true
    | None => ∀ i, 0 ≤ i < 8 → Z.testbit b i = true end) as Hb by apply (byte_free_bit_spec 8 0 b ltac:(lia)).
  assert ((∀ i, 0 ≤ i < 8 → Z.testbit b i = true) →
    match find_free_bit_from (bi + 1) bm with
    | Some i => ∃ j, i = bi * 8 + j ∧ 0 ≤ j < 8 * (zlen bm + 1) ∧ bit (b :: bm) j = false ∧
                     ∀ k, 0 ≤ k < j → bit (b :: bm) k = true
    | None => ∀ k, 0 ≤ k < 8 * (zlen bm + 1) → bit (b :: bm) k = true
    end) as Hrest.
  { intros Hall. specialize (IH (bi + 1)).
    assert (∀ k, 0 ≤ k → (k < 8 ∨ bit bm (k - 8) = true) → bit (b :: bm) k = true) as Hk.
    { intros k Hk Hc. destruct (decide (k < 8)); [rewrite bit_head by lia; apply Hall; lia|].
      rewrite bit_cons by lia. destruct Hc; [lia|done]. }
    destruct (find_free_bit_from (bi + 1) bm) as [i|].
    - destruct IH as (j & -> & Hj & Ej & Hlt). exists (j + 8). split_and!; [lia|lia|lia| |].
      + rewrite bit_cons by lia. by replace (j + 8 - 8) with j by lia.
      + intros k Hkj. apply Hk; [lia|]. destruct (decide (k < 8)); [by left|right]. apply Hlt. lia.
    - intros k Hkj. apply Hk; [lia|]. destruct (decide (k < 8)); [by left|right]. apply IH. lia. }
  destruct (Z.eqb_spec b 255) as [->|]; simpl negb; cbv iota.
  - apply Hrest. intros i Hi. change 255 with (Z.ones 8). rewrite Z.ones_spec_low; [done|lia].
  - destruct (byte_free_bit 8 0 b) as [j|]; [|by apply Hrest].
    destruct Hb as (Hj & Ej & Hlt). exists j. split_and!; [done|lia|lia| |].
    + by rewrite bit_head by lia.
    + intros k Hk. rewrite bit_head by lia. apply Hlt. lia.
Qed.

Lemma find_free_bit_spec bm :
  match find_free_bit bm with
  | Some i => 0 ≤ i < 8 * zlen bm ∧ bit bm i = false ∧ ∀ k, 0 ≤ k < i → bit bm k = true
  | None => ∀ k, 0 ≤ k < 8 * zlen bm → bit bm k = true
  end.
Proof.
  pose proof (find_free_bit_from_spec bm 0) as Hf. unfold find_free_bit.
  destruct (find_free_bit_from 0 bm); [|done]. by destruct Hf as (j & -> & ?).
Qed.

(** [bm'] is [bm] with bit [i] set to [v]. *)
Definition bit_changed (bm : list Z) (i : Z) (v : bool) (bm' : list Z) : Prop :=
  zlen bm' = zlen bm ∧ bytes_ok bm' ∧ ∀ j, 0 ≤ j → bit bm' j = if decide (j = i) then v else bit bm j.

(** Replacing the byte of bit [i] by one that differs in that bit only. *)
Lemma byte_changed bm i b b' v :
  bytes_ok bm → 0 ≤ i → zget bm (i `div` 8) = Some b → byte_ok b' →
  (∀ k, 0 ≤ k < 8 → Z.testbit b' k = if decide (k = i `mod` 8) then v else Z.testbit b k) →
  bit_changed bm i v (zset bm (i `div` 8) b').
Proof.
  intros Hok Hi Hb Hb' Hbits. pose proof (zget_Some_range _ _ _ Hb).
  split_and!; [apply zlen_zset|by apply bytes_ok_zset|]. intros j Hj. unfold bit.
  assert (0 ≤ j `mod` 8 < 8) by (apply Z.mod_pos_bound; lia).
  destruct (decide (j `div` 8 = i `div` 8)) as [E|Hne].
  - rewrite E, zget_zset_eq, Hb, Hbits by done.
    assert (j = i ↔ j `mod` 8 = i `mod` 8) by (Z.to_euclidean_division_equations; lia).
    destruct (decide (j = i)), (decide (j `mod` 8 = i `mod` 8)); tauto.
  - rewrite zget_zset_ne by done. destruct (decide (j = i)) as [->|]; [done|done].
Qed.

Lemma shiftl1_testbit k n : 0 ≤ k → 0 ≤ n → Z.testbit (Z.shiftl 1 k) n = bool_decide (n = k).
Proof.
  intros. rewrite Z.shiftl_1_l, Z.pow2_bits_eqb by done. rewrite Z.eqb_sym.
  destruct (Z.eqb_spec n k); [by rewrite bool_decide_eq_true_2|by rewrite bool_decide_eq_false_2].
Qed.

Lemma byte_ok_bits b : 0 ≤ b → (∀ n, 8 ≤ n → Z.testbit b n = false) → byte_ok b.
Proof.
  intros H0 Hb. split; [done|]. destruct (decide (b = 0)) as [->|]; [lia|].
  apply Z.log2_lt_pow2; [lia|]. destruct (decide (8 ≤ Z.log2 b)) as [Hl|]; [|lia].
  assert (Z.testbit b (Z.log2 b) = true) as E by (apply Z.bit_log2; lia). by rewrite Hb in E.
Qed.

Lemma byte_high b n : byte_ok b → 8 ≤ n → Z.testbit b n = false.
Proof.
  intros [? ?] ?. destruct (decide (b = 0)) as [->|]; [by rewrite Z.bits_0|].
  apply Z.bits_above_log2; [done|]. apply Z.log2_lt_pow2; [lia|].
  apply Z.lt_le_trans with (2 ^ 8); [done|]. apply Z.pow_le_mono_r; lia.
Qed.

Lemma bitmap_byte bm i :
  bytes_ok bm → 0 ≤ i < 8 * zlen bm → ∃ b, zget bm (i `div` 8) = Some b ∧ byte_ok b ∧ 0 ≤ i `mod` 8 < 8.
Proof.
  intros Hok Hi. destruct (zget_is_Some bm (i `div` 8)) as [b Hb].
  { split; [apply Z.div_pos; lia|]. apply Z.div_lt_upper_bound; lia. }
  exists b. split_and!; [done|by eapply bytes_ok_zget|..]; apply Z.mod_pos_bound; lia.
Qed.

Lemma set_bit_spec bm i :
  bytes_ok bm → 0 ≤ i < 8 * zlen bm → ∃ bm', set_bit bm i = Done bm' ∧ bit_changed bm i true bm'.
Proof.
  intros Hok Hi. destruct (bitmap_byte bm i Hok Hi) as (b & Hb & Hbok & Hm).
  pose proof (zget_Some_range _ _ _ Hb). unfold set_bit.
  rewrite (proj2 (idx_Done _ _ _) Hb). cbn [mbind outcome_bind]. rewrite upd_Done by done.
  eexists; split; [done|]. apply byte_changed with b; [done|lia|done| |].
  - apply byte_ok_bits; [apply Z.lor_nonneg; split; [apply Hbok|apply Z.shiftl_nonneg; lia]|].
    intros n Hn. rewrite Z.lor_spec, shiftl1_testbit, byte_high by (done || lia).
    rewrite bool_decide_eq_false_2; [done|lia].
  - intros k Hk. rewrite Z.lor_spec, shiftl1_testbit by lia.
    destruct (decide (k = i `mod` 8)); [rewrite bool_decide_eq_true_2 by done; apply orb_true_r|].
    rewrite bool_decide_eq_false_2 by done. apply orb_false_r.
Qed.

Lemma clear_bit_spec bm i :
  bytes_ok bm → 0 ≤ i < 8 * zlen bm → ∃ bm', clear_bit bm i = Done bm' ∧ bit_changed bm i false bm'.
Proof.
  intros Hok Hi. destruct (bitmap_byte bm i Hok Hi) as (b & Hb & Hbok & Hm).
  pose proof (zget_Some_range _ _ _ Hb). unfold clear_bit.
  rewrite (proj2 (idx_Done _ _ _) Hb). cbn [mbind outcome_bind]. rewrite upd_Done by done.
  eexists; split; [done|]. apply byte_changed with b; [done|lia|done| |].
  - apply byte_ok_bits; [apply Z.land_nonneg; left; apply Hbok|].
    intros n Hn. by rewrite Z.land_spec, byte_high.
  - intros k Hk. rewrite Z.land_spec, Z.lxor_spec, shiftl1_testbit by lia.
    change 255 with (Z.ones 8). rewrite Z.ones_spec_low by lia.
    destruct (decide (k = i `mod` 8)); [rewrite bool_decide_eq_true_2 by done; apply andb_false_r|].
    rewrite bool_decide_eq_false_2 by done. apply andb_true_r.
Qed.

Lemma filter_same (P Q : Z → Prop) `{∀ x, Decision (P x), ∀ x, Decision (Q x)} (l : list Z) :
  (∀ j, j ∈ l → (P j ↔ Q j)) → filter P l = filter Q l.
Proof.
  induction l as [|x l IH]; intros Hiff; [done|]. rewrite !filter_cons, IH by (intros; apply Hiff; by right).
  pose proof (Hiff x ltac:(by left)). destruct (decide (P x)), (decide (Q x)); tauto.
Qed.

(** Taking one element out of a filter. *)
Lemma filter_drop_one (P Q : Z → Prop) `{∀ x, Decision (P x), ∀ x, Decision (Q x)} (l : list Z) i :
  NoDup l → i ∈ l → P i → ¬ Q i → (∀ j, j ∈ l → j ≠ i → (P j ↔ Q j)) →
  zlen (filter Q l) = zlen (filter P l) - 1.
Proof.
  intros Hnd. induction Hnd as [|x l Hx Hnd IH]; [by intros ?%elem_of_nil|].
  intros Hi HP HQ Hiff. rewrite !filter_cons. apply elem_of_cons in Hi as [->|Hi].
  - destruct (decide (Q x)); [done|]. destruct (decide (P x)); [|done]. rewrite zlen_cons.
    rewrite (filter_same Q P); [lia|]. intros j Hj. symmetry. apply Hiff; [by right|]. by intros ->.
  - assert (P x ↔ Q x) by (apply Hiff; [by left|]; by intros ->).
    assert (zlen (filter Q l) = zlen (filter P l) - 1) by (apply IH; [done..|]; intros; apply Hiff; [by right|done]).
    destruct (decide (Q x)), (decide (P x)); try tauto. rewrite !zlen_cons. lia.
Qed.

Lemma nfree_set bm i bm' :
  bit_changed bm i true bm' → 0 ≤ i < 8 * zlen bm → bit bm i = false → nfree bm' = nfree bm - 1.
Proof.
  intros (Hz & _ & Hbits) Hi Hb. unfold nfree. rewrite Hz.
  apply (filter_drop_one _ _ _ i); [apply NoDup_seqZ|by apply elem_of_seqZ|done| |].
  - rewrite Hbits, decide_True by (done || lia). done.
  - intros j Hj%elem_of_seqZ Hne. by rewrite Hbits, decide_False by (done || lia).
Qed.

Lemma nfree_clear bm i bm' :
  bit_changed bm i false bm' → 0 ≤ i < 8 * zlen bm → bit bm i = true → nfree bm' = nfree bm + 1.
Proof.
  intros (Hz & _ & Hbits) Hi Hb. unfold nfree. rewrite Hz.
  assert (zlen (filter (λ i, bit bm i = false) (seqZ 0 (8 * zlen bm))) =
    zlen (filter (λ i, bit bm' i = false) (seqZ 0 (8 * zlen bm))) - 1); [|lia].
  apply (filter_drop_one _ _ _ i); [apply NoDup_seqZ|by apply elem_of_seqZ| | |].
  - by rewrite Hbits, decide_True by (done || lia).
  - by rewrite Hb.
  - intros j Hj%elem_of_seqZ Hne. by rewrite Hbits, decide_False by (done || lia).
Qed.

Lemma nfree_bounds bm : 0 ≤ nfree bm ≤ 8 * zlen bm.
Proof.
  unfold nfree. pose proof (zlen_nonneg bm). split; [apply zlen_nonneg|].
  pose proof (length_filter (λ i, bit bm i = false) (seqZ 0 (8 * zlen bm))) as Hl.
  rewrite length_seqZ in Hl. unfold zlen in *. lia.
Qed.

Lemma filter_shift (P : Z → Prop) `{∀ x, Decision (P x)} c (l : list Z) :
  zlen (filter P (Z.add c <$> l)) = zlen (filter (λ i, P (c + i)) l).
Proof.
  induction l as [|x l IH]; [done|]. rewrite fmap_cons, !filter_cons.
  destruct (decide (P (c + x))); [|done]. rewrite !zlen_cons. lia.
Qed.

Lemma nfree_cons b bm : nfree (b :: bm) = zlen (filter (λ i, Z.testbit b i = false) (seqZ 0 8)) + nfree bm.
Proof.
  unfold nfree. rewrite zlen_cons. pose proof (zlen_nonneg bm).
  replace (8 * (zlen bm + 1)) with (8 + 8 * zlen bm) by lia. rewrite seqZ_app by lia.
  replace (0 + 8) with (8 + 0) by lia.
  rewrite filter_app, zlen_app, <-(fmap_add_seqZ 8 0), filter_shift. f_equal; f_equal.
  apply filter_same. intros j Hj%elem_of_seqZ. rewrite (bit_cons b bm (8 + j)) by lia. by rewrite Z.add_simpl_l.
Qed.

Lemma nfree_0 bm : nfree bm = 0 ↔ ∀ i, 0 ≤ i < 8 * zlen bm → bit bm i = true.
Proof.
  unfold nfree. split.
  - intros E i Hi. destruct (bit bm i) eqn:Eb; [done|].
    assert (i ∈ filter (λ i, bit bm i = false) (seqZ 0 (8 * zlen bm))) as Hin.
    { apply list_elem_of_filter. split; [done|]. apply elem_of_seqZ. lia. }
    destruct (filter _ _) as [|x l]; [by apply elem_of_nil in Hin|]. rewrite zlen_cons in E.
    pose proof (zlen_nonneg l). lia.
  - intros Hall. rewrite (filter_same _ (λ _, False)).
    + induction (seqZ 0 (8 * zlen bm)) as [|x l IH]; [done|]. by rewrite filter_cons.
    + intros j Hj%elem_of_seqZ. rewrite Hall by lia. done.
Qed.

Lemma nfree_ones n : 0 ≤ n → nfree (zrep n 255) = 0.
Proof.
  intros Hn. apply nfree_0. intros i Hi. rewrite zlen_zrep in Hi by done. unfold bit.
  rewrite zget_zrep by (split; [apply Z.div_pos; lia|apply Z.div_lt_upper_bound; lia]).
  change 255 with (Z.ones 8). apply Z.ones_spec_low, Z.mod_pos_bound. lia.
Qed.
End bits.

(* ------------------------------------------------------------------ *)
(** ** The invariant of a mounted file system *)

(** Blocks and inodes are allocated alike, each from its own bitmap. *)
Inductive bkind := Blocks | Inodes.
#[global] Instance bkind_eq_dec : EqDecision bkind.
Proof. solve_decision. Defined.

Definition k_map (k : bkind) (bg : BgDesc) : Z :=
  match k with Blocks => block_bitmap bg | Inodes => inode_bitmap bg end.
Definition k_cnt (k : bkind) (bg : BgDesc) : Z :=
  match k with Blocks => bg_free_blocks bg | Inodes => bg_free_inodes bg end.
Definition k_add (k : bkind) (n : Z) (bg : BgDesc) : BgDesc :=
  match k with Blocks => add_free_blocks n bg | Inodes => add_free_inodes n bg end.
Definition k_sb (k : bkind) (sb : Superblock) : Z :=
  match k with Blocks => sb_free_blocks sb | Inodes => sb_free_inodes sb end.
Definition k_set (k : bkind) (n : Z) (sb : Superblock) : Superblock :=
  match k with Blocks => set_sb_free_blocks n sb | Inodes => set_sb_free_inodes n sb end.

Definition bg_uint (bg : BgDesc) : Prop :=
  is_uint 32 (block_bitmap bg) ∧ is_uint 32 (inode_bitmap bg) ∧ is_uint 32 (inode_table bg) ∧
  is_uint 16 (bg_free_blocks bg) ∧ is_uint 16 (bg_free_inodes bg) ∧ is_uint 16 (used_dirs bg).

(** The disk after one allocation: a block, a descriptor and the counts of
    the superblock written. *)
Definition patched (dk : list Z) (a : Z) (bm : list Z) (t : Z) (desc : list Z) (fb fi : Z) : list Z :=
  zsplice (zsplice (zsplice (zsplice dk a bm) t desc) 1036 (to_le 4 fb)) 1040 (to_le 4 fi).

Section patched.
Context (dk : list Z) (a : Z) (bm : list Z) (t : Z) (desc : list Z) (fb fi : Z).
Hypothesis (Ha : 2048 ≤ a) (Hab : a + zlen bm ≤ zlen dk) (Ht : 2048 ≤ t) (Htd : t + zlen desc ≤ zlen dk).

Lemma patched_len : zlen (patched dk a bm t desc fb fi) = zlen dk.
Proof.
  pose proof (zlen_nonneg bm). pose proof (zlen_nonneg desc). unfold patched.
  rewrite !zlen_zsplice; rewrite ?zlen_zsplice; rewrite ?zlen_to_le, ?zlen_zsplice; rewrite ?zlen_zsplice; lia.
Qed.

Lemma patched_slice p q :
  2048 ≤ p → q ≤ t ∨ t + zlen desc ≤ p → zslice (patched dk a bm t desc fb fi) p q = zslice (zsplice dk a bm) p q.
Proof.
  intros Hp Hd. pose proof (zlen_nonneg bm). pose proof (zlen_nonneg desc). unfold patched.
  assert (zlen (zsplice dk a bm) = zlen dk) as E1 by (apply zlen_zsplice; lia).
  assert (zlen (zsplice (zsplice dk a bm) t desc) = zlen dk) as E2 by (rewrite zlen_zsplice; lia).
  rewrite (zslice_zsplice_disjoint _ 1040), (zslice_zsplice_disjoint _ 1036), zslice_zsplice_disjoint
    by (rewrite ?zlen_zsplice; rewrite ?zlen_to_le; lia). done.
Qed.

(** What a field outside the bitmap holds. *)
Lemma patched_holds p bytes :
  2048 ≤ p → p + zlen bytes ≤ t ∨ t + zlen desc ≤ p → p + zlen bytes ≤ a ∨ a + zlen bm ≤ p →
  holds dk p bytes → holds (patched dk a bm t desc fb fi) p bytes.
Proof.
  intros Hp Hd Hd' (H1 & H2 & H3). split_and!; [done|by rewrite patched_len|].
  rewrite patched_slice by done. by rewrite zslice_zsplice_disjoint by lia.
Qed.

Lemma patched_desc : holds (patched dk a bm t desc fb fi) t desc.
Proof.
  pose proof (zlen_nonneg bm). pose proof (zlen_nonneg desc). unfold patched.
  assert (zlen (zsplice dk a bm) = zlen dk) as E1 by (apply zlen_zsplice; lia).
  assert (zlen (zsplice (zsplice dk a bm) t desc) = zlen dk) as E2 by (rewrite zlen_zsplice; lia).
  apply holds_splice_other; [apply holds_splice_other; [apply holds_splice_same|..]|..];
    rewrite ?zlen_zsplice; rewrite ?zlen_to_le; lia.
Qed.

Lemma patched_sb sb :
  is_uint 32 fb → is_uint 32 fi → sb_parse (zslice dk 1024 2048) = Done (Some sb) →
  sb_parse (zslice (patched dk a bm t desc fb fi) 1024 2048) =
    Done (Some (set_sb_free_inodes fi (set_sb_free_blocks fb sb))).
Proof.
  intros Hfb Hfi Hs. pose proof (zlen_nonneg bm). pose proof (zlen_nonneg desc). unfold patched.
  assert (zlen (zsplice dk a bm) = zlen dk) as E1 by (apply zlen_zsplice; lia).
  assert (zlen (zsplice (zsplice dk a bm) t desc) = zlen dk) as E2 by (rewrite zlen_zsplice; lia).
  apply sb_parse_patched; [lia|done|done|]. by rewrite !zslice_zsplice_disjoint by lia.
Qed.

Lemma patched_bytes : bytes_ok dk → bytes_ok bm → bytes_ok desc → bytes_ok (patched dk a bm t desc fb fi).
Proof. intros. unfold patched. repeat apply bytes_ok_zsplice; try done; apply bytes_ok_to_le; lia. Qed.
End patched.

Section wf.
Context {D : Type} `{Disk D}.
Implicit Types (d : D) (e : ext2 D).

(** The blocks of the superblock and of the descriptor table. *)
Definition system e (b : Z) : Prop :=
  b * block_size (e_sb e) < 2048 ∨
  bgdt_block (e_sb e) ≤ b ≤ bgdt_block (e_sb e) + (zlen (e_bgdt e) * 32) `div` block_size (e_sb e).

Definition maps e : list Z := (block_bitmap <$> e_bgdt e) ++ (inode_bitmap <$> e_bgdt e).

(** Memory and disk agree, the counts are right, the bitmaps lie apart. *)
Record wf e : Prop := {
  wf_geom : geom (e_sb e);
  wf_bytes : bytes_ok (disk (e_dev e));
  wf_groups : num_block_groups (e_sb e) = Done (zlen (e_bgdt e));
  wf_total : zlen (e_bgdt e) * (8 * block_size (e_sb e)) < 2 ^ 32;
  wf_table : 0 ≤ bgdt_block (e_sb e) ∧ 2048 ≤ table_at (e_sb e) ∧
    bgdt_block (e_sb e) + (zlen (e_bgdt e) * 32) `div` block_size (e_sb e) < nblk e;
  wf_uint : Forall bg_uint (e_bgdt e) ∧ is_uint 32 (sb_free_blocks (e_sb e)) ∧ is_uint 32 (sb_free_inodes (e_sb e));
  wf_maps : NoDup (maps e) ∧ ∀ b, b ∈ maps e → 0 ≤ b < nblk e ∧ ¬ system e b;
  wf_sb : Superblock_read (e_dev e) = Done (Some (e_sb e));
  wf_sync : ∀ g bg, zget (e_bgdt e) g = Some bg → holds (disk (e_dev e)) (table_at (e_sb e) + g * 32) (bg_bytes bg);
  wf_count : ∀ g bg k, zget (e_bgdt e) g = Some bg → k_cnt k bg = nfree (blk e (k_map k bg));
}.

Lemma elem_of_zget {A} (l : list A) g x : zget l g = Some x → x ∈ l.
Proof. unfold zget. destruct (0 <=? g); [|done]. apply list_elem_of_lookup_2. Qed.

Lemma maps_in e g bg k : zget (e_bgdt e) g = Some bg → k_map k bg ∈ maps e.
Proof.
  intros Hg%elem_of_zget. unfold maps. apply elem_of_app.
  destruct k; [left|right]; apply list_elem_of_fmap; eauto.
Qed.

(** Different bitmaps are in different blocks. *)
Lemma maps_inj e g g' bg bg' k k' :
  NoDup (maps e) → zget (e_bgdt e) g = Some bg → zget (e_bgdt e) g' = Some bg' →
  k_map k bg = k_map k' bg' → g = g' ∧ k = k'.
Proof.
  intros Hnd Hg Hg' E. pose proof (zget_Some_range _ _ _ Hg). pose proof (zget_Some_range _ _ _ Hg').
  set (pos k g := (Z.to_nat g + match k with Blocks => 0 | Inodes => length (e_bgdt e) end)%nat).
  assert (∀ k g bg, zget (e_bgdt e) g = Some bg → maps e !! pos k g = Some (k_map k bg)) as Hpos.
  { clear. intros k g bg Hg. pose proof (zget_Some_range _ _ _ Hg). unfold zget in Hg.
    destruct (0 <=? g); [|done]. unfold maps, pos. destruct k.
    - rewrite Nat.add_0_r, lookup_app_l, list_lookup_fmap, Hg; [done|].
      rewrite length_fmap. by apply lookup_lt_Some in Hg.
    - rewrite lookup_app_r by (rewrite length_fmap; lia). rewrite length_fmap, list_lookup_fmap.
      replace (Z.to_nat g + length (e_bgdt e) - length (e_bgdt e))%nat with (Z.to_nat g) by lia. by rewrite Hg. }
  pose proof (Hpos k g bg Hg) as E1. pose proof (Hpos k' g' bg' Hg') as E2. rewrite E in E1.
  pose proof (NoDup_lookup _ _ _ _ Hnd E1 E2) as Eq. unfold pos in Eq. unfold zlen in *.
  destruct k, k'; split; (done || lia).
Qed.

(** Only the free counts of the superblock ever change. *)
Lemma k_set_geom k n sb :
  block_size (k_set k n sb) = block_size sb ∧ bgdt_block (k_set k n sb) = bgdt_block sb ∧
  blocks_per_group (k_set k n sb) = blocks_per_group sb ∧ inodes_per_group (k_set k n sb) = inodes_per_group sb ∧
  num_block_groups (k_set k n sb) = num_block_groups sb ∧ log_block_size (k_set k n sb) = log_block_size sb.
Proof. by destruct k. Qed.

Lemma k_add_maps k n bg k' : k_map k' (k_add k n bg) = k_map k' bg.
Proof. by destruct k, k'. Qed.

Lemma maps_update e g bg k n sb dev :
  zget (e_bgdt e) g = Some bg → maps (mkExt2 dev sb (zset (e_bgdt e) g (k_add k n bg))) = maps e.
Proof.
  intros Hg. unfold maps. simpl. unfold zset, zget in *. destruct (0 <=? g); [|done].
  rewrite !list_fmap_insert. pose proof (k_add_maps k n bg Blocks) as E1. pose proof (k_add_maps k n bg Inodes) as E2.
  simpl in E1, E2. rewrite E1, E2, !list_insert_id; [done|..]; by rewrite list_lookup_fmap, Hg.
Qed.

(** The state after one bit of a bitmap changed, counts included. *)
Definition after_bit k g bg (n c : Z) (dev : D) e : ext2 D :=
  mkExt2 dev (k_set k c (e_sb e)) (zset (e_bgdt e) g (k_add k n bg)).

(** The three writes, as one effect on the disk. *)
Lemma change_run k g bg n (f : Z → Z) bm' e :
  let c := f (k_sb k (e_sb e)) in
  wf e → zget (e_bgdt e) g = Some bg → zlen bm' = block_size (e_sb e) →
  ∃ dev,
    (dev ← write_fs_block (e_sb e) (k_map k bg) bm' (e_dev e);
     e1 ← update_entry g (k_add k n) (set_dev dev e);
     flush_counts (set_sb (k_set k (f (k_sb k (e_sb e1))) (e_sb e1)) e1)) = Done (after_bit k g bg n c dev e) ∧
    sector_count dev = sector_count (e_dev e) ∧
    disk dev = patched (disk (e_dev e)) (k_map k bg * block_size (e_sb e)) bm'
      (table_at (e_sb e) + g * 32) (bg_bytes (k_add k n bg))
      (sb_free_blocks (k_set k c (e_sb e))) (sb_free_inodes (k_set k c (e_sb e))).
Proof.
  intros c Hwf Hg Hbm. pose proof (zget_Some_range _ _ _ Hg) as Hr.
  destruct (proj2 (wf_maps _ Hwf) _ (maps_in e g bg k Hg)) as [Hin _].
  destruct (write_fs_block_spec e (k_map k bg) bm') as (d1 & -> & E1 & S1); [apply Hwf|done|done|].
  cbn [mbind outcome_bind]. unfold update_entry, bgdt_get. simpl e_bgdt.
  rewrite (proj2 (idx_Done _ _ _) Hg). cbn [mbind outcome_bind]. rewrite upd_Done by done.
  cbn [mbind outcome_bind]. set (e1 := set_bgdt _ _).
  destruct (wf_table _ Hwf) as (Ht0 & Ht1 & Ht2). destruct (geom_spec _ (wf_geom _ Hwf)) as [_ Hv].
  assert (nblk e1 = nblk e) as Hn1 by (subst e1; unfold nblk, capacity; simpl; by rewrite S1).
  destruct (write_entry_spec e1 g (k_add k n bg)) as (d2 & -> & E2 & S2).
  - apply Hwf.
  - lia.
  - simpl. by apply zget_zset_eq.
  - done.
  - rewrite Hn1. apply Z.le_lt_trans with (2 := Ht2). simpl.
    apply Z.add_le_mono_l, Z.div_le_mono; lia.
  - cbn [mbind outcome_bind]. unfold flush_counts. simpl e_dev. simpl e_sb. fold c.
    destruct (write_free_counts_spec (k_set k c (e_sb e)) d2) as (d3 & -> & E3 & S3).
    + simpl in S2. pose proof (nblk_bound e (bgdt_block (e_sb e)) (wf_geom _ Hwf)) as Hb. rewrite S2, S1.
      assert (0 ≤ (zlen (e_bgdt e) * 32) `div` block_size (e_sb e)) by (apply Z.div_pos; lia).
      unfold capacity, SECTOR, table_at in *. lia.
    + exists d3. cbn [mbind outcome_bind]. simpl in S2, E2. split_and!; [done|lia|].
      by rewrite E3, E2, E1.
Qed.

(** Bytes from 2048 on, outside the descriptor table. *)
Definition outside e (x y : Z) : Prop :=
  2048 ≤ x ∧ (y ≤ table_at (e_sb e) ∨ table_at (e_sb e) + zlen (e_bgdt e) * 32 ≤ x).

Lemma system_outside e b :
  geom (e_sb e) → ¬ system e b → outside e (b * block_size (e_sb e)) ((b + 1) * block_size (e_sb e)).
Proof.
  intros Hg Hns. destruct (geom_spec _ Hg) as [_ Hv]. unfold system, outside, table_at in *.
  split; [lia|]. set (q := (zlen (e_bgdt e) * 32) `div` block_size (e_sb e)) in *.
  assert (zlen (e_bgdt e) * 32 < (q + 1) * block_size (e_sb e)).
  { subst q. pose proof (Z.mul_succ_div_gt (zlen (e_bgdt e) * 32) (block_size (e_sb e))). lia. }
  assert (b < bgdt_block (e_sb e) ∨ bgdt_block (e_sb e) + q < b) as [?|?] by lia; [left|right]; nia.
Qed.

Lemma table_bound e : wf e → table_at (e_sb e) + zlen (e_bgdt e) * 32 ≤ zlen (disk (e_dev e)).
Proof.
  intros Hwf. destruct (wf_table _ Hwf) as (Ht0 & Ht1 & Ht2). destruct (geom_spec _ (wf_geom _ Hwf)) as [_ Hv].
  pose proof (zlen_nonneg (e_bgdt e)). rewrite disk_len. unfold table_at.
  set (q := (zlen (e_bgdt e) * 32) `div` block_size (e_sb e)) in *.
  assert (0 ≤ q) by (apply Z.div_pos; lia).
  pose proof (nblk_bound e (bgdt_block (e_sb e) + q) (wf_geom _ Hwf)) as Hb. unfold capacity in Hb.
  assert (zlen (e_bgdt e) * 32 < (q + 1) * block_size (e_sb e)); [|lia].
  subst q. pose proof (Z.mul_succ_div_gt (zlen (e_bgdt e) * 32) (block_size (e_sb e))). lia.
Qed.

(** Where a bitmap lies. *)
Lemma map_bound e g bg k :
  wf e → zget (e_bgdt e) g = Some bg →
  let a := k_map k bg * block_size (e_sb e) in
  0 ≤ k_map k bg < nblk e ∧ outside e a (a + block_size (e_sb e)) ∧ a + block_size (e_sb e) ≤ zlen (disk (e_dev e)).
Proof.
  intros Hwf Hg. destruct (proj2 (wf_maps _ Hwf) _ (maps_in e g bg k Hg)) as [Hin Hns].
  pose proof (nblk_bound e _ (wf_geom _ Hwf) Hin). pose proof (system_outside e _ (wf_geom _ Hwf) Hns) as Ho.
  rewrite disk_len. unfold capacity in *. rewrite Z.mul_add_distr_r, Z.mul_1_l in *. split_and!; [lia|lia|done|lia].
Qed.

(** What the change of a bit does to the blocks. *)
Lemma change_blocks k g bg n c bm' dev e :
  wf e → zget (e_bgdt e) g = Some bg → zlen bm' = block_size (e_sb e) →
  disk dev = patched (disk (e_dev e)) (k_map k bg * block_size (e_sb e)) bm'
      (table_at (e_sb e) + g * 32) (bg_bytes (k_add k n bg))
      (sb_free_blocks (k_set k c (e_sb e))) (sb_free_inodes (k_set k c (e_sb e))) →
  ∀ b, 0 ≤ b < nblk e → ¬ system e b →
    blk (after_bit k g bg n c dev e) b = if decide (b = k_map k bg) then bm' else blk e b.
Proof.
  intros Hwf Hg Hbm E b Hb Hns. pose proof (zget_Some_range _ _ _ Hg) as Hr.
  destruct (map_bound e g bg k Hwf Hg) as (Hin & [Halo _] & Hal). pose proof (table_bound e Hwf).
  destruct (system_outside e b (wf_geom _ Hwf) Hns) as [Hlo Hout].
  destruct (wf_table _ Hwf) as (_ & Ht1 & _). destruct (k_set_geom k c (e_sb e)) as (Hbs & _).
  pose proof (zlen_bg_bytes (k_add k n bg)).
  rewrite Z.mul_add_distr_r, Z.mul_1_l in Hout.
  destruct (geom_spec _ (wf_geom _ Hwf)) as [_ Hv].
  unfold blk at 1. simpl e_dev. simpl e_sb. rewrite Hbs, E, patched_slice by lia.
  set (d1 := zsplice _ _ _). destruct (decide (b = k_map k bg)) as [->|Hne].
  - apply zslice_zsplice_same; lia.
  - apply zslice_zsplice_disjoint; [lia|lia|lia|]. rewrite Hbm.
    assert (b < k_map k bg ∨ k_map k bg < b) as [?|?] by lia; [left|right]; nia.
Qed.

(** The count of the group follows the bitmap. *)
Lemma k_add_cnt k (v : bool) bg bm i bm' :
  let n := if v then -1 else 1 in
  bit_changed bm i v bm' → 0 ≤ i < 8 * zlen bm → 8 * zlen bm < 2 ^ 16 → bit bm i = negb v →
  k_cnt k bg = nfree bm →
  ∀ k', k_cnt k' (k_add k n bg) = if decide (k' = k) then nfree bm' else k_cnt k' bg.
Proof.
  intros n Hch Hi Hz Hb Hcnt k'.
  assert (nfree bm' = nfree bm + n) as Hn.
  { subst n. destruct v; [by rewrite (nfree_set bm i)|by rewrite (nfree_clear bm i)]. }
  pose proof (nfree_bounds bm'). destruct Hch as (Hz' & _). rewrite Hz' in *.
  assert (wrap 16 (k_cnt k bg + n) = nfree bm') as Hw by (rewrite Hcnt, <-Hn; apply wrap_small; unfold is_uint; lia).
  destruct k, k'; simpl in *; rewrite ?decide_True, ?decide_False by done; done.
Qed.

Lemma k_add_uint k n bg : bg_uint bg → bg_uint (k_add k n bg).
Proof. intros (? & ? & ? & ? & ? & ?). destruct k; split_and!; simpl; try done; apply wrap_range; lia. Qed.

(** A changed bit, with the counts adjusted, keeps the invariant. *)
Lemma change_wf k g bg i (v : bool) bm' c dev e :
  let n := if v then -1 else 1 in
  wf e → zget (e_bgdt e) g = Some bg → bit_changed (blk e (k_map k bg)) i v bm' →
  0 ≤ i < 8 * block_size (e_sb e) → bit (blk e (k_map k bg)) i = negb v → is_uint 32 c →
  sector_count dev = sector_count (e_dev e) →
  disk dev = patched (disk (e_dev e)) (k_map k bg * block_size (e_sb e)) bm'
      (table_at (e_sb e) + g * 32) (bg_bytes (k_add k n bg))
      (sb_free_blocks (k_set k c (e_sb e))) (sb_free_inodes (k_set k c (e_sb e))) →
  wf (after_bit k g bg n c dev e).
Proof.
  intros n Hwf Hg Hch Hi Hbit Hc Hsc E. pose proof (zget_Some_range _ _ _ Hg) as Hr.
  destruct (k_set_geom k c (e_sb e)) as (Hbs & Hbg & _ & _ & Hng & Hlog).
  destruct (map_bound e g bg k Hwf Hg) as (Hin & [Halo Hao] & Hal). pose proof (table_bound e Hwf) as Htb.
  destruct (wf_table _ Hwf) as (Ht0 & Ht1 & Ht2). destruct (geom_spec _ (wf_geom _ Hwf)) as [_ Hv].
  pose proof (zlen_blk e _ (wf_geom _ Hwf) Hin) as Hzb. pose proof Hch as (Hz & Hbok & _). rewrite Hzb in Hz.
  pose proof (zlen_bg_bytes (k_add k n bg)). destruct (wf_uint _ Hwf) as (Hu & Hufb & Hufi).
  assert (nblk (after_bit k g bg n c dev e) = nblk e) as Hnb.
  { unfold nblk, capacity. simpl. by rewrite Hbs, Hsc. }
  assert (zlen (e_bgdt (after_bit k g bg n c dev e)) = zlen (e_bgdt e)) as Hnt by apply zlen_zset.
  assert (∀ b, system (after_bit k g bg n c dev e) b ↔ system e b) as Hsys.
  { intros b. unfold system. rewrite Hnt. simpl. by rewrite Hbs, Hbg. }
  assert (table_at (k_set k c (e_sb e)) = table_at (e_sb e)) as Htt by (unfold table_at; by rewrite Hbs, Hbg).
  assert (is_uint 32 (sb_free_blocks (k_set k c (e_sb e))) ∧ is_uint 32 (sb_free_inodes (k_set k c (e_sb e)))) as [Hc1 Hc2]
    by (destruct k; simpl; done).
  constructor.
  - unfold geom. simpl. rewrite Hlog. apply Hwf.
  - simpl. rewrite E. apply patched_bytes; [apply Hwf|done|]. unfold bg_bytes.
    repeat apply bytes_ok_app; apply bytes_ok_to_le; lia.
  - simpl e_sb. rewrite Hng, Hnt. apply Hwf.
  - simpl e_sb. rewrite Hbs, Hnt. apply Hwf.
  - rewrite Hnt, Hnb. simpl e_sb. rewrite Hbs, Hbg, Htt. done.
  - split; [|done]. simpl. unfold zset. destruct (0 <=? g); [|done].
    apply Forall_insert; [done|]. apply k_add_uint. apply (Forall_forall bg_uint (e_bgdt e)); [done|].
    by eapply elem_of_zget.
  - unfold after_bit at 1. rewrite (maps_update e g bg k n) by done. destruct (wf_maps _ Hwf) as [Hnd Hm].
    split; [done|]. intros b. unfold after_bit at 1. rewrite (maps_update e g bg k n) by done.
    intros Hbm. rewrite Hnb, Hsys. by apply Hm.
  - pose proof (wf_sb _ Hwf) as Hsb. pose proof (disk_len (e_dev e)) as Hdl. unfold SECTOR in Hdl.
    assert (4 ≤ sector_count (e_dev e)) as H4 by lia.
    rewrite Superblock_read_spec in Hsb |- * by (simpl; lia). simpl e_dev. rewrite E.
    rewrite (patched_sb _ _ _ _ _ _ _) with (sb := e_sb e) by (done || lia). simpl. clear. by destruct (e_sb e), k.
  - simpl. rewrite Htt, E. intros g' bg' Hg'. destruct (decide (g' = g)) as [->|Hne].
    + rewrite zget_zset_eq in Hg' by done. simplify_eq. apply patched_desc; lia.
    + rewrite zget_zset_ne in Hg' by done. pose proof (zget_Some_range _ _ _ Hg'). pose proof (zlen_bg_bytes bg').
      apply patched_holds; [lia..|]. by apply (wf_sync _ Hwf).
  - intros g' bg' k' Hg'. simpl in Hg'.
    assert (∀ bg1, zget (e_bgdt e) g' = Some bg1 → blk (after_bit k g bg n c dev e) (k_map k' bg1) =
      if decide (k_map k' bg1 = k_map k bg) then bm' else blk e (k_map k' bg1)) as Hblk.
    { intros bg1 Hb1. destruct (proj2 (wf_maps _ Hwf) _ (maps_in e g' bg1 k' Hb1)) as [? ?].
      by apply change_blocks. }
    pose proof (k_add_cnt k v bg (blk e (k_map k bg)) i bm' Hch) as Hcnt. rewrite Hzb in Hcnt.
    specialize (Hcnt Hi ltac:(lia) Hbit (wf_count _ Hwf _ _ _ Hg)).
    destruct (decide (g' = g)) as [->|Hne].
    + rewrite zget_zset_eq in Hg' by done. simplify_eq. rewrite k_add_maps, (Hblk bg Hg), Hcnt.
      destruct (decide (k' = k)) as [->|Hk]; [by rewrite decide_True|].
      rewrite decide_False; [by apply (wf_count _ Hwf g)|].
      intros Heq. by destruct (maps_inj e g g bg bg k' k (proj1 (wf_maps _ Hwf)) Hg Hg Heq).
    + rewrite zget_zset_ne in Hg' by done. rewrite (Hblk bg' Hg').
      rewrite decide_False; [by apply (wf_count _ Hwf g')|].
      intros Heq. by destruct (maps_inj e g' g bg' bg k' k (proj1 (wf_maps _ Hwf)) Hg' Hg Heq).
Qed.

(* ------------------------------------------------------------------ *)
(** ** The allocator *)

(** Bit [i] of group [g]. *)
Definition taken k e (g i : Z) : bool :=
  match zget (e_bgdt e) g with Some bg => bit (blk e (k_map k bg)) i | None => true end.

(** One bit changed and nothing else that the file system looks at. *)
Record effect k g i (v : bool) e e' : Prop := {
  eff_wf : wf e';
  eff_sb : ∃ c, e_sb e' = k_set k c (e_sb e);
  eff_len : zlen (e_bgdt e') = zlen (e_bgdt e);
  eff_size : sector_count (e_dev e') = sector_count (e_dev e);
  eff_maps : maps e' = maps e;
  eff_tables : inode_table <$> e_bgdt e' = inode_table <$> e_bgdt e;
  eff_bits : ∀ k' g' i', 0 ≤ i' →
    taken k' e' g' i' = if decide (k' = k ∧ g' = g ∧ i' = i) then v else taken k' e g' i';
  eff_blocks : ∀ b, 0 ≤ b < nblk e → ¬ system e b → b ∉ maps e → blk e' b = blk e b;
}.

Lemma change_effect k g bg i (v : bool) bm' (f : Z → Z) e :
  let n := if v then -1 else 1 in
  let c := f (k_sb k (e_sb e)) in
  wf e → zget (e_bgdt e) g = Some bg → bit_changed (blk e (k_map k bg)) i v bm' →
  0 ≤ i < 8 * block_size (e_sb e) → bit (blk e (k_map k bg)) i = negb v → is_uint 32 c →
  ∃ e',
    (dev ← write_fs_block (e_sb e) (k_map k bg) bm' (e_dev e);
     e1 ← update_entry g (k_add k n) (set_dev dev e);
     flush_counts (set_sb (k_set k (f (k_sb k (e_sb e1))) (e_sb e1)) e1)) = Done e' ∧ effect k g i v e e' ∧
     e_sb e' = k_set k c (e_sb e).
Proof.
  intros n c Hwf Hg Hch Hi Hbit Hc. destruct (map_bound e g bg k Hwf Hg) as (Hin & _).
  pose proof (zlen_blk e _ (wf_geom _ Hwf) Hin) as Hzb. pose proof Hch as (Hz & _ & Hbits). rewrite Hzb in Hz.
  destruct (change_run k g bg n f bm' e Hwf Hg Hz) as (dev & -> & Hsc & E).
  fold c in E |- *. pose proof (change_blocks k g bg n c bm' dev e Hwf Hg Hz E) as Hblk.
  pose proof (zget_Some_range _ _ _ Hg) as Hr.
  eexists; split; [done|]. split; [|done]. constructor.
  - by eapply change_wf.
  - by exists c.
  - apply zlen_zset.
  - done.
  - by apply (maps_update e g bg k n).
  - simpl. unfold zset, zget in *. destruct (0 <=? g); [|done]. rewrite list_fmap_insert.
    rewrite list_insert_id; [done|]. rewrite list_lookup_fmap, Hg. by destruct k.
  - intros k' g' i' Hi'. unfold taken. simpl e_bgdt.
    assert (∀ bg', zget (e_bgdt e) g' = Some bg' →
      bit (blk (after_bit k g bg n c dev e) (k_map k' bg')) i' =
      if decide (k' = k ∧ g' = g ∧ i' = i) then v else bit (blk e (k_map k' bg')) i') as Hb.
    { intros bg' Hg'. destruct (proj2 (wf_maps _ Hwf) _ (maps_in e g' bg' k' Hg')) as [? ?].
      rewrite Hblk by done. destruct (decide (k_map k' bg' = k_map k bg)) as [Heq|Hne].
      - destruct (maps_inj e g' g bg' bg k' k (proj1 (wf_maps _ Hwf)) Hg' Hg Heq) as [-> ->].
        rewrite Hbits by done. rewrite Heq.
        destruct (decide (i' = i)), (decide (k = k ∧ g = g ∧ i' = i)); tauto.
      - rewrite decide_False; [done|]. intros (-> & -> & ->). by simplify_eq. }
    destruct (decide (g' = g)) as [->|Hne].
    + rewrite zget_zset_eq by done. rewrite k_add_maps, (Hb bg Hg), Hg. done.
    + rewrite zget_zset_ne by done. destruct (zget (e_bgdt e) g') as [bg'|]; [by rewrite (Hb bg')|].
      rewrite decide_False; [done|]. tauto.
  - intros b Hb Hns Hm. rewrite Hblk by done. rewrite decide_False; [done|].
    intros ->. by apply Hm, maps_in with g.
Qed.

(** The two allocation loops are one. *)
Fixpoint alloc_k k (gs : list Z) e : outcome (option (Z * Z) * ext2 D) :=
  match gs with
  | [] => Done (None, e)
  | g :: gs =>
      bg ← bgdt_get g e;
      if k_cnt k bg =? 0 then alloc_k k gs e
      else
        let bitmap := read_fs_block (e_sb e) (k_map k bg) (e_dev e) in
        match find_free_bit bitmap with
        | None => alloc_k k gs e
        | Some bit =>
            bitmap ← set_bit bitmap bit;
            e ← (dev ← write_fs_block (e_sb e) (k_map k bg) bitmap (e_dev e);
                 e ← update_entry g (k_add k (-1)) (set_dev dev e);
                 flush_counts (set_sb (k_set k (saturating_sub (k_sb k (e_sb e)) 1) (e_sb e)) e));
            Done (Some (g, bit), e)
        end
  end.

Lemma alloc_block_from_k gs e :
  alloc_block_from gs e =
    ('(r, e) ← alloc_k Blocks gs e;
     Done (option_map (λ '(g, bit), wrap 32 (wrap 32 g * blocks_per_group (e_sb e) + bit)) r, e)).
Proof.
  induction gs as [|g gs IH]; [done|]. simpl. destruct (bgdt_get g e) as [bg|]; [|done]. simpl.
  destruct (_ =? 0); [done|]. destruct (find_free_bit _); [|done]. destruct (set_bit _ _); [|done]. simpl.
  destruct (write_fs_block _ _ _ _); [|done]. simpl. destruct (update_entry _ _ _); [|done]. simpl.
  by destruct (flush_counts _).
Qed.

Lemma alloc_inode_from_k gs e :
  alloc_inode_from gs e =
    ('(r, e) ← alloc_k Inodes gs e;
     Done (option_map (λ '(g, bit), wrap 32 (wrap 32 g * inodes_per_group (e_sb e) + bit + 1)) r, e)).
Proof.
  induction gs as [|g gs IH]; [done|]. simpl. destruct (bgdt_get g e) as [bg|]; [|done]. simpl.
  destruct (_ =? 0); [done|]. destruct (find_free_bit _); [|done]. destruct (set_bit _ _); [|done]. simpl.
  destruct (write_fs_block _ _ _ _); [|done]. simpl. destruct (update_entry _ _ _); [|done]. simpl.
  by destruct (flush_counts _).
Qed.

Lemma alloc_k_spec k gs e :
  wf e → (∀ g, g ∈ gs → 0 ≤ g < zlen (e_bgdt e)) →
  ∃ r e', alloc_k k gs e = Done (r, e') ∧
    match r with
    | None => e' = e ∧ ∀ g i, g ∈ gs → 0 ≤ i < 8 * block_size (e_sb e) → taken k e g i = true
    | Some (g, i) => g ∈ gs ∧ 0 ≤ i < 8 * block_size (e_sb e) ∧ taken k e g i = false ∧ effect k g i true e e'
    end.
Proof.
  intros Hwf. induction gs as [|g gs IH]; intros Hgs.
  { exists None, e. split; [done|]. split; [done|]. by intros g i ?%elem_of_nil. }
  destruct (zget_is_Some (e_bgdt e) g (Hgs g ltac:(by left))) as [bg Hg].
  destruct IH as (r & e' & E & Hr); [intros; apply Hgs; by right|].
  destruct (map_bound e g bg k Hwf Hg) as (Hin & _). pose proof (zlen_blk e _ (wf_geom _ Hwf) Hin) as Hzb.
  simpl. unfold bgdt_get. rewrite (proj2 (idx_Done _ _ _) Hg). cbn [mbind outcome_bind].
  rewrite read_fs_block_spec by (done || apply Hwf).
  assert ((∀ i, 0 ≤ i < 8 * block_size (e_sb e) → bit (blk e (k_map k bg)) i = true) →
    ∃ r e', alloc_k k gs e = Done (r, e') ∧
    match r with
    | None => e' = e ∧ ∀ g' i, g' ∈ g :: gs → 0 ≤ i < 8 * block_size (e_sb e) → taken k e g' i = true
    | Some (g', i) => g' ∈ g :: gs ∧ 0 ≤ i < 8 * block_size (e_sb e) ∧ taken k e g' i = false ∧ effect k g' i true e e'
    end) as Hskip.
  { intros Hall. exists r, e'. split; [done|]. destruct r as [[g' i]|].
    - destruct Hr as (? & ? & ? & ?). split_and!; try done; [by right|lia|lia].
    - destruct Hr as [-> Hr]. split; [done|]. intros g' i [->|Hg']%elem_of_cons Hi; [|by apply Hr].
      unfold taken. rewrite Hg. by apply Hall. }
  destruct (Z.eqb_spec (k_cnt k bg) 0) as [E0|Hn0].
  { apply Hskip. rewrite (wf_count _ Hwf _ _ _ Hg) in E0. rewrite <-Hzb. by apply nfree_0. }
  pose proof (find_free_bit_spec (blk e (k_map k bg))) as Hfind. rewrite Hzb in Hfind.
  destruct (find_free_bit _) as [i|]; [|by apply Hskip]. destruct Hfind as (Hi & Hb & _).
  destruct (set_bit_spec (blk e (k_map k bg)) i) as (bm' & -> & Hch);
    [apply bytes_ok_zslice, Hwf|by rewrite Hzb|]. cbn [mbind outcome_bind].
  destruct (change_effect k g bg i true bm' (λ c, saturating_sub c 1) e Hwf Hg Hch Hi Hb) as (e2 & E2 & Heff & _).
  { destruct (wf_uint _ Hwf) as (_ & Hu1 & Hu2). unfold is_uint, saturating_sub in *. destruct k; simpl; lia. }
  simpl in E2. rewrite E2. cbn [mbind outcome_bind]. exists (Some (g, i)), e2. split; [done|].
  split_and!; [by left|lia|lia| |done]. unfold taken. by rewrite Hg.
Qed.

(** Blocks and inodes by number. *)
Definition group_bits e : Z := 8 * block_size (e_sb e).
Definition total e : Z := zlen (e_bgdt e) * group_bits e.
Definition bit_used e (p : Z) : bool := taken Blocks e (p `div` group_bits e) (p `mod` group_bits e).
Definition total_inodes e : Z := zlen (e_bgdt e) * inodes_per_group (e_sb e).
Definition iused e (ino : Z) : bool :=
  taken Inodes e ((ino - 1) `div` inodes_per_group (e_sb e)) ((ino - 1) `mod` inodes_per_group (e_sb e)).

(** The layout mkfs gives: a group has as many blocks as its bitmap has bits,
    and the bits beyond the inodes of a group are set. *)
Record layout_ok e : Prop := {
  lay_blocks : blocks_per_group (e_sb e) = group_bits e;
  lay_inodes : 0 < inodes_per_group (e_sb e) ≤ group_bits e;
  lay_pad : ∀ g i, inodes_per_group (e_sb e) ≤ i < group_bits e → taken Inodes e g i = true;
}.

Lemma group_bits_pos e : wf e → 0 < group_bits e.
Proof. intros Hwf. unfold group_bits. destruct (geom_spec _ (wf_geom _ Hwf)) as [_ Hv]. lia. Qed.

Section effect.
Context {k : bkind} {g i : Z} {v : bool} {e e' : ext2 D}.
Hypothesis (Heff : effect k g i v e e').

Lemma eff_geom :
  block_size (e_sb e') = block_size (e_sb e) ∧ bgdt_block (e_sb e') = bgdt_block (e_sb e) ∧
  blocks_per_group (e_sb e') = blocks_per_group (e_sb e) ∧ inodes_per_group (e_sb e') = inodes_per_group (e_sb e).
Proof. destruct (eff_sb _ _ _ _ _ _ Heff) as [c ->]. destruct (k_set_geom k c (e_sb e)) as (? & ? & ? & ? & _). done. Qed.

Lemma eff_nblk : nblk e' = nblk e.
Proof. unfold nblk, capacity. rewrite (eff_size _ _ _ _ _ _ Heff). by destruct eff_geom as (-> & _). Qed.

Lemma eff_system b : system e' b ↔ system e b.
Proof.
  unfold system. rewrite (eff_len _ _ _ _ _ _ Heff). by destruct eff_geom as (-> & -> & _).
Qed.

Lemma eff_total : total e' = total e ∧ group_bits e' = group_bits e ∧ total_inodes e' = total_inodes e.
Proof.
  unfold total, group_bits, total_inodes. rewrite (eff_len _ _ _ _ _ _ Heff). by destruct eff_geom as (-> & _ & _ & ->).
Qed.

Lemma eff_bit_used q : wf e → 0 ≤ q →
  bit_used e' q = if decide (k = Blocks ∧ q = g * group_bits e + i ∧ 0 ≤ i < group_bits e) then v else bit_used e q.
Proof.
  intros Hwf Hq. unfold bit_used. destruct eff_total as (_ & -> & _). pose proof (group_bits_pos e Hwf) as Hb.
  assert (0 ≤ q `mod` group_bits e < group_bits e) as Hm by (by apply Z.mod_pos_bound).
  rewrite (eff_bits _ _ _ _ _ _ Heff) by lia.
  assert ((Blocks = k ∧ q `div` group_bits e = g ∧ q `mod` group_bits e = i) ↔
    (k = Blocks ∧ q = g * group_bits e + i ∧ 0 ≤ i < group_bits e)) as Hiff.
  { pose proof (Z.div_mod q (group_bits e) ltac:(lia)) as Hdm. split.
    - intros (-> & Hd & Hmm). rewrite Hd, Hmm in Hdm. split_and!; [done|lia|lia|lia].
    - intros (-> & -> & Hi). rewrite Z.add_comm, Z.div_add, Z.mod_add, Z.div_small, Z.mod_small by lia. done. }
  by rewrite (decide_ext _ _ _ _ Hiff).
Qed.

Lemma eff_iused q : 0 < inodes_per_group (e_sb e) → 1 ≤ q →
  iused e' q = if decide (k = Inodes ∧ q = g * inodes_per_group (e_sb e) + i + 1 ∧ 0 ≤ i < inodes_per_group (e_sb e))
               then v else iused e q.
Proof.
  intros Hb Hq. unfold iused. destruct eff_geom as (_ & _ & _ & ->). set (n := inodes_per_group (e_sb e)) in *.
  assert (0 ≤ (q - 1) `mod` n < n) as Hm by (by apply Z.mod_pos_bound).
  rewrite (eff_bits _ _ _ _ _ _ Heff) by lia.
  assert ((Inodes = k ∧ (q - 1) `div` n = g ∧ (q - 1) `mod` n = i) ↔
    (k = Inodes ∧ q = g * n + i + 1 ∧ 0 ≤ i < n)) as Hiff.
  { pose proof (Z.div_mod (q - 1) n ltac:(lia)) as Hdm. split.
    - intros (-> & Hd & Hmm). rewrite Hd, Hmm in Hdm. split_and!; [done|lia|lia|lia].
    - intros (-> & -> & Hi). replace (g * n + i + 1 - 1) with (i + g * n) by lia.
      rewrite Z.div_add, Z.mod_add, Z.div_small, Z.mod_small by lia. done. }
  by rewrite (decide_ext _ _ _ _ Hiff).
Qed.

Lemma eff_layout : layout_ok e → (k = Inodes → i < inodes_per_group (e_sb e)) → layout_ok e'.
Proof.
  intros [Hl1 Hl2 Hl3] Hi. destruct eff_total as (_ & Hgb & _). destruct eff_geom as (_ & _ & Hbp & Hip). constructor.
  - by rewrite Hbp, Hgb.
  - by rewrite Hip, Hgb.
  - rewrite Hip, Hgb. intros g' i' Hi'. rewrite (eff_bits _ _ _ _ _ _ Heff) by lia.
    rewrite decide_False; [by apply Hl3|]. intros (<- & _ & ->). specialize (Hi eq_refl). lia.
Qed.
End effect.

Lemma number_split g i n m : 0 ≤ g < m → 0 ≤ i < n → 0 ≤ g * n + i < m * n ∧
  (g * n + i) `div` n = g ∧ (g * n + i) `mod` n = i.
Proof.
  intros Hg Hi. split; [nia|]. by rewrite Z.add_comm, Z.div_add, Z.mod_add, Z.div_small, Z.mod_small by lia.
Qed.

Lemma group_range p n m : 0 < n → 0 ≤ p < m * n → 0 ≤ p `div` n < m ∧ 0 ≤ p `mod` n < n.
Proof.
  intros Hn Hp. split; [|by apply Z.mod_pos_bound].
  split; [apply Z.div_pos; lia|]. apply Z.div_lt_upper_bound; lia.
Qed.

Lemma alloc_block_spec e :
  wf e → layout_ok e →
  ∃ r e', alloc_block e = Done (r, e') ∧
    match r with
    | None => e' = e ∧ ∀ p, 0 ≤ p < total e → bit_used e p = true
    | Some p => 0 ≤ p < total e ∧ bit_used e p = false ∧
        effect Blocks (p `div` group_bits e) (p `mod` group_bits e) true e e'
    end.
Proof.
  intros Hwf Hlay. unfold alloc_block. rewrite (wf_groups _ Hwf). cbn [mbind outcome_bind].
  rewrite alloc_block_from_k. pose proof (group_bits_pos e Hwf) as Hb.
  destruct (alloc_k_spec Blocks (seqZ 0 (zlen (e_bgdt e))) e Hwf) as (r & e' & -> & Hr).
  { intros g Hg%elem_of_seqZ. lia. }
  cbn [mbind outcome_bind]. eexists _, e'. split; [done|]. destruct r as [[g i]|]; simpl.
  - destruct Hr as (Hg%elem_of_seqZ & Hi & Htk & Heff). fold (group_bits e) in Hi.
    destruct (number_split g i (group_bits e) (zlen (e_bgdt e))) as (Hp & Hd & Hm); [lia|done|].
    destruct (eff_geom Heff) as (_ & _ & -> & _). rewrite (lay_blocks _ Hlay).
    pose proof (wf_total _ Hwf). fold (group_bits e) in *.
    assert (g < 2 ^ 32) by nia. rewrite (wrap_small 32 g), (wrap_small 32 (_ + _)) by (unfold is_uint; lia).
    split; [done|]. unfold bit_used. rewrite Hd, Hm. done.
  - destruct Hr as [-> Hr]. split; [done|]. intros p Hp. unfold bit_used.
    destruct (group_range p (group_bits e) (zlen (e_bgdt e))) as [? ?]; [done|done|].
    apply Hr; [|done]. apply elem_of_seqZ. lia.
Qed.

Lemma alloc_inode_spec e :
  wf e → layout_ok e → total_inodes e < 2 ^ 32 - 1 →
  ∃ r e', alloc_inode e = Done (r, e') ∧
    match r with
    | None => e' = e ∧ ∀ ino, 1 ≤ ino ≤ total_inodes e → iused e ino = true
    | Some ino => 1 ≤ ino ≤ total_inodes e ∧ iused e ino = false ∧
        effect Inodes ((ino - 1) `div` inodes_per_group (e_sb e)) ((ino - 1) `mod` inodes_per_group (e_sb e)) true e e'
    end.
Proof.
  intros Hwf Hlay Htot. unfold alloc_inode. rewrite (wf_groups _ Hwf). cbn [mbind outcome_bind].
  rewrite alloc_inode_from_k. destruct (lay_inodes _ Hlay) as [Hb Hbg].
  destruct (alloc_k_spec Inodes (seqZ 0 (zlen (e_bgdt e))) e Hwf) as (r & e' & -> & Hr).
  { intros g Hg%elem_of_seqZ. lia. }
  cbn [mbind outcome_bind]. eexists _, e'. split; [done|]. destruct r as [[g i]|]; simpl.
  - destruct Hr as (Hg%elem_of_seqZ & Hi & Htk & Heff). fold (group_bits e) in Hi.
    assert (i < inodes_per_group (e_sb e)) as Hlt.
    { destruct (decide (i < inodes_per_group (e_sb e))); [done|]. rewrite (lay_pad _ Hlay) in Htk by lia. done. }
    destruct (number_split g i (inodes_per_group (e_sb e)) (zlen (e_bgdt e))) as (Hp & Hd & Hm); [lia|lia|].
    destruct (eff_geom Heff) as (_ & _ & _ & ->). unfold total_inodes in *.
    assert (g < 2 ^ 32) by nia. rewrite (wrap_small 32 g), (wrap_small 32 (_ + _)) by (unfold is_uint; lia).
    split; [lia|]. unfold iused. rewrite Z.add_simpl_r, Hd, Hm. done.
  - destruct Hr as [-> Hr]. split; [done|]. intros p Hp. unfold iused, total_inodes in *.
    destruct (group_range (p - 1) (inodes_per_group (e_sb e)) (zlen (e_bgdt e))) as [? ?]; [done|lia|].
    apply Hr; [|unfold group_bits in *; lia]. apply elem_of_seqZ. lia.
Qed.

Lemma clear_effect k g i e :
  wf e → 0 ≤ g < zlen (e_bgdt e) → 0 ≤ i < group_bits e → taken k e g i = true →
  ∃ e',
    (bg ← bgdt_get g e;
     bitmap ← clear_bit (read_fs_block (e_sb e) (k_map k bg) (e_dev e)) i;
     dev ← write_fs_block (e_sb e) (k_map k bg) bitmap (e_dev e);
     e1 ← update_entry g (k_add k 1) (set_dev dev e);
     flush_counts (set_sb (k_set k (wrap 32 (k_sb k (e_sb e1) + 1)) (e_sb e1)) e1)) = Done e' ∧
    effect k g i false e e'.
Proof.
  intros Hwf Hg Hi Htk. destruct (zget_is_Some (e_bgdt e) g Hg) as [bg Hbg].
  unfold bgdt_get. rewrite (proj2 (idx_Done _ _ _) Hbg). cbn [mbind outcome_bind].
  destruct (map_bound e g bg k Hwf Hbg) as (Hin & _). pose proof (zlen_blk e _ (wf_geom _ Hwf) Hin) as Hzb.
  rewrite read_fs_block_spec by (done || apply Hwf).
  destruct (clear_bit_spec (blk e (k_map k bg)) i) as (bm' & -> & Hch);
    [apply bytes_ok_zslice, Hwf|by rewrite Hzb|]. cbn [mbind outcome_bind].
  unfold taken in Htk. rewrite Hbg in Htk.
  destruct (change_effect k g bg i false bm' (λ c, wrap 32 (c + 1)) e Hwf Hbg Hch Hi Htk) as (e' & E & Heff & _).
  { apply wrap_range. lia. }
  exists e'. split; [exact E|done].
Qed.

Lemma free_block_spec p e :
  wf e → layout_ok e → 0 ≤ p < total e → bit_used e p = true →
  ∃ e', free_block p e = Done e' ∧ effect Blocks (p `div` group_bits e) (p `mod` group_bits e) false e e'.
Proof.
  intros Hwf Hlay Hp Hu. pose proof (group_bits_pos e Hwf).
  destruct (group_range p (group_bits e) (zlen (e_bgdt e))) as [Hg Hi]; [done|done|].
  unfold free_block. rewrite (lay_blocks _ Hlay).
  destruct (Z.eqb_spec (group_bits e) 0); [lia|]. cbn [negb assert_or_panic mbind outcome_bind].
  by apply (clear_effect Blocks).
Qed.

Lemma free_inode_spec ino e :
  wf e → layout_ok e → total_inodes e < 2 ^ 32 - 1 → 1 ≤ ino ≤ total_inodes e → iused e ino = true →
  ∃ e', free_inode ino e = Done e' ∧
    effect Inodes ((ino - 1) `div` inodes_per_group (e_sb e)) ((ino - 1) `mod` inodes_per_group (e_sb e)) false e e'.
Proof.
  intros Hwf Hlay Htot Hp Hu. destruct (lay_inodes _ Hlay) as [Hb Hbg]. unfold total_inodes in *.
  destruct (group_range (ino - 1) (inodes_per_group (e_sb e)) (zlen (e_bgdt e))) as [Hg Hi]; [done|lia|].
  unfold free_inode, inode_block_group, inode_local_index.
  destruct (Z.eqb_spec (inodes_per_group (e_sb e)) 0); [lia|]. cbn [negb assert_or_panic mbind outcome_bind].
  rewrite wrap_small by (unfold is_uint; lia). apply (clear_effect Inodes); [done|done|lia|done].
Qed.

(* ------------------------------------------------------------------ *)
(** ** Mounting again *)

Lemma bg_parse_holds dk t bg :
  bg_uint bg → holds dk t (bg_bytes bg) → t + 32 ≤ zlen dk → bg_parse (zslice dk t (t + 32)) = Done bg.
Proof.
  intros (H1 & H2 & H3 & H4 & H5 & H6) Hh Hl. pose proof Hh as (Ht & _ & _).
  assert (holds (zslice dk t (t + 32)) 0 (bg_bytes bg)) as Hz.
  { destruct Hh as (? & ? & Hs). rewrite zlen_bg_bytes in *. split_and!; [lia|rewrite zlen_zslice, zlen_bg_bytes; lia|].
    rewrite zslice_zslice by (rewrite ?zlen_bg_bytes; lia). rewrite zlen_bg_bytes, Z.add_0_r, Z.add_0_l. done. }
  unfold bg_bytes in Hz. unfold bg_parse.
  apply holds_field in Hz as [-> Hz]; [|lia|done]. cbn [mbind outcome_bind].
  apply holds_field in Hz as [E Hz]; [|lia|done]. change (0 + 4) with 4 in *. rewrite E. cbn [mbind outcome_bind].
  apply holds_field in Hz as [E2 Hz]; [|lia|done]. change (4 + 4) with 8 in *. rewrite E2. cbn [mbind outcome_bind].
  apply holds_field in Hz as [E3 Hz]; [|lia|done]. change (8 + 4) with 12 in *. rewrite E3. cbn [mbind outcome_bind].
  apply holds_field in Hz as [E4 Hz]; [|lia|done]. change (12 + 2) with 14 in *. rewrite E4. cbn [mbind outcome_bind].
  change (14 + 2) with 16 in *. rewrite (holds_le _ 16 2 (used_dirs bg) ltac:(lia) H6 Hz). by destruct bg.
Qed.

Lemma read_table_blocks e n :
  geom (e_sb e) → 0 ≤ bgdt_block (e_sb e) → 0 ≤ n → bgdt_block (e_sb e) + n ≤ nblk e →
  concat ((λ q, read_sectors (block_to_sector (e_sb e) (bgdt_block (e_sb e)) ⊞ q * sectors_per_block (e_sb e))
                  (sectors_per_block (e_sb e)) (e_dev e)) <$> seqZ 0 n) =
  zslice (disk (e_dev e)) (table_at (e_sb e)) (table_at (e_sb e) + n * block_size (e_sb e)).
Proof.
  intros Hg Ht Hn. revert n Hn. apply (natlike_ind (λ n, _ ≤ _ → _)).
  { intros _. simpl. rewrite zslice_nil; [done|lia]. }
  intros n Hn IH Hle. rewrite <-Z.add_1_r, seqZ_snoc, fmap_app, concat_app, IH by lia. simpl. rewrite app_nil_r, Z.add_0_l.
  destruct (block_to_sector_spec e (bgdt_block (e_sb e) + n) Hg) as (E & Hp & Hb); [lia|].
  destruct (block_to_sector_spec e (bgdt_block (e_sb e)) Hg) as (E0 & Hp0 & _); [lia|].
  destruct (geom_spec _ Hg) as [Hs Hv]. pose proof (disk_size (e_dev e)). unfold table_at, SECTOR in *.
  rewrite E0, wrap_small by (unfold is_uint; lia).
  rewrite read_sectors_spec by lia. unfold SECTOR. rewrite Hs.
  replace (512 * (bgdt_block (e_sb e) * sectors_per_block (e_sb e) + n * sectors_per_block (e_sb e)))
    with (bgdt_block (e_sb e) * (512 * sectors_per_block (e_sb e)) + n * (512 * sectors_per_block (e_sb e))) by lia.
  rewrite zslice_app by nia. f_equal. lia.
Qed.

(** What is on the disk is what is in memory: mounting the device of a
    well-formed state gives that state back. *)
Lemma mount_wf e : wf e → ext2_mount (e_dev e) = Done (Some (Ext2DirINode 2, e)).
Proof.
  intros Hwf. unfold ext2_mount. rewrite (wf_sb _ Hwf). cbn [mbind outcome_bind].
  assert (BgDescTable_read (e_dev e) (e_sb e) = Done (e_bgdt e)) as ->; [|by destruct e].
  unfold BgDescTable_read. rewrite (wf_groups _ Hwf). cbn [mbind outcome_bind].
  destruct (geom_spec _ (wf_geom _ Hwf)) as [Hs Hv]. destruct (wf_table _ Hwf) as (Ht0 & Ht1 & Ht2).
  destruct (Z.eqb_spec (block_size (e_sb e)) 0) as [?|_]; [lia|]. cbn [negb assert_or_panic mbind outcome_bind].
  pose proof (zlen_nonneg (e_bgdt e)) as Hz. set (n := zlen (e_bgdt e)) in *. set (bs := block_size (e_sb e)) in *.
  assert (0 ≤ (n * 32 + bs - 1) `div` bs ≤ (n * 32) `div` bs + 1 ∧ n * 32 ≤ (n * 32 + bs - 1) `div` bs * bs) as (Hq0 & Hq).
  { clear -Hz Hv. destruct Hv as [-> | [-> | ->]]; Z.to_euclidean_division_equations; lia. }
  set (q := (n * 32 + bs - 1) `div` bs) in *. clearbody q.
  rewrite read_table_blocks; [|apply Hwf|done|lia|unfold n in *; lia]. fold bs.
  pose proof (table_bound e Hwf) as Htb. fold n in Htb.
  assert (table_at (e_sb e) + q * bs ≤ zlen (disk (e_dev e))) as Hqb.
  { rewrite disk_len. pose proof (nblk_bound e (bgdt_block (e_sb e) + q - 1) (wf_geom _ Hwf)) as Hb.
    unfold capacity, table_at in *. fold bs in Hb, Htb |- *. destruct (decide (q = 0)); [|nia].
    rewrite disk_len in Htb. nia. }
  assert (∀ m, 0 ≤ m → m ≤ n → for_each (seqZ 0 m) (λ i entries,
      e0 ← slice (zslice (disk (e_dev e)) (table_at (e_sb e)) (table_at (e_sb e) + q * bs)) (i * 32) (i * 32 + 32);
      d ← bg_parse e0; Done (entries ++ [d])) [] = Done (ztake m (e_bgdt e))) as Hm.
  { apply (natlike_ind (λ m, m ≤ n → _)); [done|]. intros m Hm IH Hle.
    rewrite <-Z.add_1_r, seqZ_snoc, for_each_app, IH, Z.add_0_l by lia. cbn [mbind outcome_bind for_each].
    destruct (zget_is_Some (e_bgdt e) m) as [bg Hbg]; [lia|].
    rewrite slice_Done by (rewrite ?zlen_zslice; lia). cbn [mbind outcome_bind].
    rewrite zslice_zslice, (Z.add_assoc (table_at (e_sb e))) by lia.
    rewrite (bg_parse_holds _ _ bg); [| |by apply (wf_sync _ Hwf)|lia].
    - cbn [mbind outcome_bind]. f_equal. unfold ztake, zget in *. rewrite (proj2 (Z.leb_le 0 m)) in Hbg by lia.
      replace (Z.to_nat (m + 1)) with (S (Z.to_nat m)) by lia. by rewrite (take_S_r _ _ bg).
    - apply (Forall_forall bg_uint (e_bgdt e)); [apply (wf_uint _ Hwf)|]. by eapply elem_of_zget. }
  rewrite Hm by lia. unfold ztake, n, zlen. by rewrite Nat2Z.id, firstn_all.
Qed.

(** A block that neither the superblock, nor the descriptors, nor a bitmap is in. *)
Definition plain e (b : Z) : Prop := 0 ≤ b < nblk e ∧ ¬ system e b ∧ b ∉ maps e.

(** Block [b] of the volume: the bits of the groups start at [first_data_block]. *)
Definition used e (b : Z) : bool := bit_used e (b - first_data_block (e_sb e)).

Definition first e : Z := first_data_block (e_sb e).

Lemma eff_first {k g i v} {e e' : ext2 D} : effect k g i v e e' → first e' = first e.
Proof. intros Heff. unfold first. destruct (eff_sb _ _ _ _ _ _ Heff) as [c ->]. by destruct k. Qed.

(** The bits: what [alloc_block] and then [free_block] do. *)
Lemma block_cycle e :
  wf e → layout_ok e →
  ∃ r e', alloc_block e = Done (r, e') ∧
    match r with
    | None => e' = e ∧ ∀ p, 0 ≤ p < total e → bit_used e p = true
    | Some p => 0 ≤ p < total e ∧ bit_used e p = false ∧
        (∀ q, 0 ≤ q → bit_used e' q = if decide (q = p) then true else bit_used e q) ∧
        (∀ ino, 1 ≤ ino → iused e' ino = iused e ino) ∧
        (∀ b, plain e b → blk e' b = blk e b) ∧
        first e' = first e ∧ ext2_mount (e_dev e') = Done (Some (Ext2DirINode 2, e')) ∧
        ∃ e'', free_block p e' = Done e'' ∧ (∀ q, 0 ≤ q → bit_used e'' q = bit_used e q) ∧
          first e'' = first e ∧ ext2_mount (e_dev e'') = Done (Some (Ext2DirINode 2, e''))
    end.
Proof.
  intros Hwf Hlay. destruct (alloc_block_spec e Hwf Hlay) as (r & e' & E & Hr). exists r, e'. split; [done|].
  destruct r as [p|]; [|done]. destruct Hr as (Hp & Hu & Heff). pose proof (group_bits_pos e Hwf) as Hb.
  destruct (group_range p (group_bits e) (zlen (e_bgdt e))) as [Hg Hi]; [done|done|].
  assert (p = p `div` group_bits e * group_bits e + p `mod` group_bits e) as Hdm
    by (rewrite Z.mul_comm; apply Z.div_mod; lia).
  pose proof (eff_wf _ _ _ _ _ _ Heff) as Hwf'. destruct (eff_total Heff) as (Htot & Hgb & _).
  assert (∀ q, 0 ≤ q → bit_used e' q = if decide (q = p) then true else bit_used e q) as Hused.
  { intros q Hq. rewrite (eff_bit_used Heff) by done.
    destruct (decide (q = p)) as [->|]; [by rewrite decide_True|]. rewrite decide_False; [done|]. lia. }
  split; [done|]. split; [done|]. split; [done|]. split.
  { intros ino Hino. rewrite (eff_iused Heff) by (done || apply Hlay). rewrite decide_False; [done|]. by intros []. }
  split; [intros b (? & ? & ?); by apply (eff_blocks _ _ _ _ _ _ Heff)|]. split; [by eapply eff_first|].
  split; [by apply mount_wf|].
  destruct (free_block_spec p e') as (e'' & E2 & Heff2); [done|by eapply eff_layout|by rewrite Htot| |].
  { rewrite Hused by lia. by rewrite decide_True. }
  exists e''. split; [done|]. split; [|split; [by rewrite (eff_first Heff2), (eff_first Heff)|by apply mount_wf, (eff_wf _ _ _ _ _ _ Heff2)]].
  intros q Hq. rewrite (eff_bit_used Heff2), Hgb by done. rewrite Hused by done.
  destruct (decide (q = p)) as [->|]; [by rewrite decide_True|]. rewrite decide_False; [done|]. lia.
Qed.

Lemma inode_cycle e :
  wf e → layout_ok e → total_inodes e < 2 ^ 32 - 1 →
  ∃ r e', alloc_inode e = Done (r, e') ∧
    match r with
    | None => e' = e ∧ ∀ ino, 1 ≤ ino ≤ total_inodes e → iused e ino = true
    | Some ino => 1 ≤ ino ≤ total_inodes e ∧ iused e ino = false ∧
        (∀ q, 1 ≤ q → iused e' q = if decide (q = ino) then true else iused e q) ∧
        (∀ p, 0 ≤ p → bit_used e' p = bit_used e p) ∧
        (∀ b, plain e b → blk e' b = blk e b) ∧
        first e' = first e ∧ ext2_mount (e_dev e') = Done (Some (Ext2DirINode 2, e')) ∧
        ∃ e'', free_inode ino e' = Done e'' ∧ (∀ q, 1 ≤ q → iused e'' q = iused e q) ∧
          first e'' = first e ∧ ext2_mount (e_dev e'') = Done (Some (Ext2DirINode 2, e''))
    end.
Proof.
  intros Hwf Hlay Htot. destruct (alloc_inode_spec e Hwf Hlay Htot) as (r & e' & E & Hr). exists r, e'. split; [done|].
  destruct r as [p|]; [|done]. destruct Hr as (Hp & Hu & Heff). destruct (lay_inodes _ Hlay) as [Hb _].
  set (n := inodes_per_group (e_sb e)) in *.
  destruct (group_range (p - 1) n (zlen (e_bgdt e))) as [Hg Hi]; [done|unfold total_inodes in Hp; fold n in Hp; lia|].
  assert (p - 1 = (p - 1) `div` n * n + (p - 1) `mod` n) as Hdm by (rewrite Z.mul_comm; apply Z.div_mod; lia).
  pose proof (eff_wf _ _ _ _ _ _ Heff) as Hwf'. destruct (eff_total Heff) as (_ & _ & Hti).
  destruct (eff_geom Heff) as (_ & _ & _ & Hip). fold n in Hip.
  assert (∀ q, 1 ≤ q → iused e' q = if decide (q = p) then true else iused e q) as Hused.
  { intros q Hq. rewrite (eff_iused Heff) by done. fold n.
    destruct (decide (q = p)) as [->|]; [rewrite decide_True; [done|split_and!; (done || lia)]|]. rewrite decide_False; [done|]. lia. }
  split; [done|]. split; [done|]. split; [done|]. split.
  { intros q Hq. rewrite (eff_bit_used Heff) by done. rewrite decide_False; [done|]. by intros []. }
  split; [intros b (? & ? & ?); by apply (eff_blocks _ _ _ _ _ _ Heff)|]. split; [by eapply eff_first|].
  split; [by apply mount_wf|].
  destruct (free_inode_spec p e') as (e'' & E2 & Heff2); [done|eapply eff_layout; [done|done|fold n; lia]|lia|lia| |].
  { rewrite Hused by lia. by rewrite decide_True. }
  exists e''. split; [done|]. split; [|split; [by rewrite (eff_first Heff2), (eff_first Heff)|by apply mount_wf, (eff_wf _ _ _ _ _ _ Heff2)]].
  intros q Hq. rewrite (eff_iused Heff2), Hip by lia. rewrite Hused by done.
  destruct (decide (q = p)) as [->|]; [rewrite decide_True by (split_and!; (done || lia)); by rewrite Hu|].
  rewrite decide_False; [done|]. lia.
Qed.

End wf.
