(* ===== verification/Ext2Dir.v ===== *)
(** * ext2 directory blocks (fs/src/ext2/dir.rs)

    A directory block is a chain of variable-length records.  [layout] says
    that a block is the concatenation of a list of records [dent], each with
    room for its name and possibly slack, that ends at the block's end; stale
    bytes in the slack do not matter.

    Shown here: walking any block terminates without a panic; on laid-out
    blocks, inserting and removing keep the layout and act on the names like
    the operations of a finite map. *)

From S2P Require Import Prelude BlockDev Vfs Ext2.

(** A record: inode (0 when deleted), length, type, name. *)
Record dent := mkDent {
  dn_ino : Z;
  dn_rec : Z;
  dn_type : Z;
  dn_name : list Z;
}.

Definition encode_dent (d : dent) : list Z :=
  to_le 4 (dn_ino d) ++ to_le 2 (dn_rec d) ++ [zlen (dn_name d); dn_type d] ++ dn_name d.

(** A record is long enough for its name. *)
Definition dent_ok (d : dent) : Prop :=
  is_uint 32 (dn_ino d) ∧ zlen (dn_name d) < 2 ^ 8 ∧ is_uint 8 (dn_type d) ∧
  entry_size (zlen (dn_name d)) ≤ dn_rec d < 2 ^ 16.

Fixpoint layout (block : list Z) (off : Z) (ds : list dent) : Prop :=
  match ds with
  | [] => off = zlen block
  | d :: ds => dent_ok d ∧ holds block off (encode_dent d) ∧ layout block (off + dn_rec d) ds
  end.

(** The records as the code reports them. *)
Fixpoint dirents_of (off : Z) (ds : list dent) : list dirent :=
  match ds with
  | [] => []
  | d :: ds => mkDirent off (dn_ino d) (dn_rec d) (dn_name d) :: dirents_of (off + dn_rec d) ds
  end.

(** The directory a list of records is: the first live record of a name. *)
Fixpoint dents_lookup (name : list Z) (ds : list dent) : option Z :=
  match ds with
  | [] => None
  | d :: ds => if negb (dn_ino d =? 0) && bool_decide (dn_name d = name) then Some (dn_ino d)
               else dents_lookup name ds
  end.

(** [lookup_in_dir] on one block. *)
Definition block_lookup (name block : list Z) : outcome (option Z) :=
  es ← dir_entries block; Done (find_entry name es).

Section dents.
Lemma entry_size_spec n : 0 ≤ n → 8 + n ≤ entry_size n < 12 + n.
Proof.
  intros. unfold entry_size. destruct (align_up_spec 2 (8 + n)) as [? _]; [lia|].
  change (2 ^ 2) with 4 in *. lia.
Qed.

Lemma zlen_encode_dent d : zlen (encode_dent d) = 8 + zlen (dn_name d).
Proof. unfold encode_dent. rewrite !zlen_app, !zlen_to_le by lia. change (zlen [_; _]) with 2. lia. Qed.

Lemma dent_fits block off d :
  dent_ok d → holds block off (encode_dent d) → 8 + zlen (dn_name d) ≤ dn_rec d ∧ 8 ≤ dn_rec d.
Proof.
  intros (_ & _ & _ & Hr) _. pose proof (zlen_nonneg (dn_name d)).
  pose proof (entry_size_spec (zlen (dn_name d)) ltac:(done)). lia.
Qed.

Lemma layout_bound block off ds : layout block off ds → off ≤ zlen block.
Proof.
  revert off. induction ds as [|d ds IH]; intros off; simpl; [lia|].
  intros (Hok & Hh & Hl). apply IH in Hl. pose proof (dent_fits _ _ _ Hok Hh). lia.
Qed.

(** The fields of a record, read back. *)
Lemma dent_fields block off d :
  dent_ok d → holds block off (encode_dent d) →
  le_at 4 block off = Done (dn_ino d) ∧ le_at 2 block (off + 4) = Done (dn_rec d) ∧
  idx block (off + 6) = Done (zlen (dn_name d)) ∧ holds block (off + 8) (dn_name d).
Proof.
  intros (Hi & Hn & Ht & Hr) Hh. unfold encode_dent in Hh.
  apply holds_field in Hh as [-> Hh]; [|lia|done]. split; [done|].
  pose proof (entry_size_spec (zlen (dn_name d)) (zlen_nonneg _)). pose proof (zlen_nonneg (dn_name d)).
  apply holds_field in Hh as [-> Hh]; [|lia|unfold is_uint; simpl; lia]. split; [done|].
  simpl in Hh. apply holds_byte in Hh as [E Hh]. apply holds_byte in Hh as [_ Hh].
  replace (off + 6) with (off + 4 + 2) by lia. replace (off + 8) with (off + 4 + 2 + 1 + 1) by lia. done.
Qed.

Lemma dir_entries_layout fuel : ∀ block off ds,
  0 ≤ off → layout block off ds → zlen block - off < Z.of_nat fuel →
  dir_entries_from fuel off block = Done (dirents_of off ds).
Proof.
  induction fuel as [|fuel IH]; intros block off ds Hoff Hl Hf.
  { pose proof (layout_bound _ _ _ Hl). lia. }
  destruct ds as [|d ds]; simpl in *.
  { destruct (Z.leb_spec (off + 8) (zlen block)); [lia|done]. }
  destruct Hl as (Hok & Hh & Hl). pose proof (layout_bound _ _ _ Hl) as Hb.
  destruct (dent_fits _ _ _ Hok Hh) as [Hfit H8]. pose proof (zlen_nonneg (dn_name d)).
  destruct (dent_fields _ _ _ Hok Hh) as (-> & -> & -> & Hn).
  destruct (Z.leb_spec (off + 8) (zlen block)); [|lia]. simpl.
  destruct (Z.ltb_spec (dn_rec d) 8), (Z.ltb_spec (zlen block) (off + dn_rec d)); try lia. simpl.
  rewrite Z.min_l by lia. rewrite (holds_slice _ _ _ _ Hn) by lia. simpl.
  rewrite (IH block (off + dn_rec d) ds) by (done || lia). done.
Qed.

Lemma find_entry_dirents name ds : ∀ off,
  find_entry name (dirents_of off ds) = dents_lookup name ds.
Proof.
  induction ds as [|d ds IH]; intros off; [done|]. unfold find_entry in *. simpl.
  destruct (decide _) as [[Hi Hn]|Hno]; simpl.
  - rewrite (proj2 (Z.eqb_neq _ _) Hi), bool_decide_eq_true_2 by done. done.
  - assert (negb (dn_ino d =? 0) && bool_decide (dn_name d = name) = false) as ->.
    { destruct (Z.eqb_spec (dn_ino d) 0); [done|]. simpl. apply bool_decide_eq_false. naive_solver. }
    rewrite <-(IH (off + dn_rec d)). by destruct (list_find _ _) as [[]|].
Qed.

Lemma block_lookup_layout name block ds :
  layout block 0 ds → block_lookup name block = Done (dents_lookup name ds).
Proof.
  intros Hl. unfold block_lookup, dir_entries.
  rewrite (dir_entries_layout _ _ _ ds) by (done || unfold zlen; lia). simpl.
  by rewrite find_entry_dirents.
Qed.

(** One record, or the end. *)
Lemma dir_entries_step block off :
  bytes_ok block → 0 ≤ off →
  (∀ fuel, dir_entries_from (S fuel) off block = Done []) ∨
  ∃ e, de_off e = off ∧ 8 ≤ de_rec_len e ∧ off + de_rec_len e ≤ zlen block ∧ zlen (de_name e) ≤ zlen block - off - 8 ∧
    ∀ fuel, dir_entries_from (S fuel) off block =
      (rest ← dir_entries_from fuel (off + de_rec_len e) block; Done (e :: rest)).
Proof.
  intros Hbytes Hoff. cbn [dir_entries_from].
  destruct (Z.leb_spec (off + 8) (zlen block)); [|by left].
  rewrite (le_at_Done 4), (le_at_Done 2) by lia. cbn [mbind outcome_bind].
  destruct (zget_is_Some block (off + 6)) as [n Hn]; [lia|].
  rewrite (proj2 (idx_Done _ _ _) Hn). cbn [mbind outcome_bind]. set (rec := from_le (zslice block (off + 4) _)).
  destruct (Z.ltb_spec rec 8); [by left|]. destruct (Z.ltb_spec (zlen block) (off + rec)); [by left|]. right.
  destruct (bytes_ok_zget _ _ _ Hbytes Hn). cbn [orb]. rewrite slice_Done by lia. cbn [mbind outcome_bind].
  eexists (mkDirent off _ rec _). cbn [de_off de_rec_len de_name].
  split_and!; [done|done|done| |intros fuel; reflexivity]. rewrite zlen_zslice; lia.
Qed.

Lemma dir_entries_from_total fuel : ∀ block off,
  bytes_ok block → 0 ≤ off → ∃ es, dir_entries_from fuel off block = Done es.
Proof.
  induction fuel as [|fuel IH]; intros block off Hb Hoff; [by eexists|].
  destruct (dir_entries_step block off Hb Hoff) as [Hs|(e & _ & ? & _ & _ & Hs)]; rewrite Hs; [by eexists|].
  destruct (IH block (off + de_rec_len e)) as [es ->]; [done|lia|]. by eexists.
Qed.

(** Any block, laid out or not, can be walked. *)
Lemma dir_entries_total block : bytes_ok block → ∃ es, dir_entries block = Done es.
Proof. intros. by apply dir_entries_from_total. Qed.

(** Records one behind the other, inside the block. *)
Fixpoint in_block (block : list Z) (off : Z) (es : list dirent) : Prop :=
  match es with
  | [] => True
  | e :: es => de_off e = off ∧ 8 ≤ de_rec_len e ∧ off + de_rec_len e ≤ zlen block ∧
               zlen (de_name e) ≤ zlen block - off - 8 ∧ in_block block (off + de_rec_len e) es
  end.

(** The walk of the rest of a block needs no more turns than it has room for records. *)
Lemma dir_entries_from_ends n : ∀ block off,
  bytes_ok block → 0 ≤ off → zlen block - off < 8 * Z.of_nat n →
  ∃ es, in_block block off es ∧ 8 * zlen es ≤ Z.max 0 (zlen block - off) ∧
    ∀ fuel, (n ≤ fuel)%nat → dir_entries_from fuel off block = Done es.
Proof.
  induction n as [|n IH]; intros block off Hb Hoff Hn.
  { exists []. split_and!; [done|change (zlen []) with 0; lia|]. intros [|fuel] _; [done|]. simpl.
    destruct (Z.leb_spec (off + 8) (zlen block)); [lia|done]. }
  destruct (dir_entries_step block off Hb Hoff) as [Hs|(e & He & ? & ? & ? & Hs)].
  - exists []. split_and!; [done|change (zlen []) with 0; lia|]. intros [|fuel] Hf; [lia|done].
  - destruct (IH block (off + de_rec_len e)) as (es & Hin & Hl & Hrun); [done|lia..|].
    exists (e :: es). split_and!; [done|rewrite zlen_cons; lia|].
    intros [|fuel] Hf; [lia|]. rewrite Hs, Hrun by lia. done.
Qed.

(* ------------------------------------------------------------------ *)
(** ** Splicing records *)

Definition recs (ds : list dent) : Z := foldr (λ d z, dn_rec d + z) 0 ds.

Lemma recs_app ds1 ds2 : recs (ds1 ++ ds2) = recs ds1 + recs ds2.
Proof. induction ds1 as [|d ds1 IH]; simpl; [done|]. unfold recs in *. simpl. lia. Qed.

Lemma layout_suffix block off ds1 ds2 : layout block off (ds1 ++ ds2) → layout block (off + recs ds1) ds2.
Proof.
  revert off. induction ds1 as [|d ds1 IH]; intros off; simpl; [by rewrite Z.add_0_r|].
  intros (_ & _ & Hl). rewrite Z.add_assoc. by apply IH.
Qed.

(** Records before the point of change are kept ... *)
Lemma layout_prefix block block' off ds1 ds2 ds2' :
  layout block off (ds1 ++ ds2) →
  (∀ o bytes, holds block o bytes → o + zlen bytes ≤ off + recs ds1 → holds block' o bytes) →
  layout block' (off + recs ds1) ds2' → layout block' off (ds1 ++ ds2').
Proof.
  revert off. induction ds1 as [|d ds1 IH]; intros off; simpl; [by rewrite Z.add_0_r|].
  intros (Hok & Hh & Hl) Hf Hl'. rewrite Z.add_assoc in Hf, Hl'. split_and!; [done| |by apply IH].
  destruct (dent_fits _ _ _ Hok Hh) as [? _]. apply Hf; [done|]. rewrite zlen_encode_dent.
  assert (0 ≤ recs ds1); [|lia].
  clear -Hl. revert Hl. generalize (off + dn_rec d). induction ds1 as [|d' ds1 IH]; intros o; simpl; [lia|].
  intros (Hok & Hh & Hl). pose proof (dent_fits _ _ _ Hok Hh). specialize (IH _ Hl). lia.
Qed.

(** ... and so are those after it. *)
Lemma layout_rest block block' off ds :
  layout block off ds → zlen block' = zlen block →
  (∀ o bytes, holds block o bytes → off ≤ o → holds block' o bytes) → layout block' off ds.
Proof.
  revert off. induction ds as [|d ds IH]; intros off; simpl; [by intros -> ->|].
  intros (Hok & Hh & Hl) Hz Hf. split_and!; [done|by apply Hf|]. apply IH; [done|done|].
  intros o bytes Ho ?. pose proof (dent_fits _ _ _ Hok Hh). apply Hf; [done|lia].
Qed.

Definition with_rec (r : Z) (d : dent) : dent := mkDent (dn_ino d) r (dn_type d) (dn_name d).
Definition with_ino (i : Z) (d : dent) : dent := mkDent i (dn_rec d) (dn_type d) (dn_name d).

(** A record whose length, or inode, was patched. *)
Lemma holds_with_rec block off d r :
  holds block off (encode_dent d) →
  holds (zsplice block (off + 4) (to_le 2 r)) off (encode_dent (with_rec r d)).
Proof.
  intros Hh. pose proof Hh as (Ho & Hl & _). rewrite zlen_encode_dent in Hl.
  pose proof (zlen_nonneg (dn_name d)). unfold encode_dent in *.
  rewrite !holds_app in *. rewrite !zlen_to_le, zlen_cons, zlen_cons, zlen_nil in * by lia. simpl.
  destruct Hh as (H1 & H2 & H3 & H4).
  refine (conj _ (conj _ (conj _ _))).
  - apply holds_splice_other; rewrite ?zlen_to_le, ?zlen_cons, ?zlen_nil; [done|lia..].
  - apply holds_splice_same; rewrite ?zlen_to_le; lia.
  - apply holds_splice_other; rewrite ?zlen_to_le, ?zlen_cons, ?zlen_nil; [done|lia..].
  - apply holds_splice_other; rewrite ?zlen_to_le, ?zlen_cons, ?zlen_nil; [done|lia..].
Qed.

Lemma holds_with_ino block off d i :
  holds block off (encode_dent d) →
  holds (zsplice block off (to_le 4 i)) off (encode_dent (with_ino i d)).
Proof.
  intros Hh. pose proof Hh as (Ho & Hl & _). rewrite zlen_encode_dent in Hl.
  pose proof (zlen_nonneg (dn_name d)). unfold encode_dent in *.
  rewrite !holds_app in *. rewrite !zlen_to_le, zlen_cons, zlen_cons, zlen_nil in * by lia. simpl.
  destruct Hh as (H1 & H2 & H3 & H4).
  refine (conj _ (conj _ (conj _ _))).
  - apply holds_splice_same; rewrite ?zlen_to_le; lia.
  - apply holds_splice_other; rewrite ?zlen_to_le, ?zlen_cons, ?zlen_nil; [done|lia..].
  - apply holds_splice_other; rewrite ?zlen_to_le, ?zlen_cons, ?zlen_nil; [done|lia..].
  - apply holds_splice_other; rewrite ?zlen_to_le, ?zlen_cons, ?zlen_nil; [done|lia..].
Qed.

(** [write_dir_entry] stores the encoding of the record. *)
Lemma write_dir_entry_spec block off d :
  0 ≤ off → off + zlen (encode_dent d) ≤ zlen block →
  write_dir_entry block off (dn_ino d) (dn_rec d) (zlen (dn_name d)) (dn_type d) (dn_name d) =
    Done (zsplice block off (encode_dent d)).
Proof.
  intros Ho Hl. rewrite zlen_encode_dent in Hl. pose proof (zlen_nonneg (dn_name d)).
  unfold write_dir_entry, encode_dent. set (nm := dn_name d) in *.
  rewrite put_le_Done by lia. cbn [mbind outcome_bind].
  rewrite put_le_Done by (rewrite ?zlen_zsplice; rewrite ?zlen_to_le; lia). cbn [mbind outcome_bind].
  rewrite zsplice_next by (rewrite ?zlen_to_le; lia).
  set (p2 := to_le 4 (dn_ino d) ++ to_le 2 (dn_rec d)).
  assert (zlen p2 = 6) as Hp2 by (subst p2; rewrite zlen_app, !zlen_to_le by lia; lia).
  assert (∀ s, zlen (p2 ++ s) = 6 + zlen s) as Hp2s by (intros; rewrite zlen_app; lia).
  rewrite upd_Done by (rewrite ?zlen_zsplice; lia). cbn [mbind outcome_bind].
  rewrite zset_splice by (rewrite ?zlen_zsplice; lia).
  rewrite zsplice_next by (rewrite ?Hp2, ?zlen_cons, ?zlen_nil; lia).
  rewrite upd_Done by (rewrite ?zlen_zsplice; rewrite ?Hp2s, ?zlen_cons, ?zlen_nil; lia).
  cbn [mbind outcome_bind].
  rewrite zset_splice by (rewrite ?zlen_zsplice; rewrite ?Hp2s, ?zlen_cons, ?zlen_nil; lia).
  rewrite zsplice_next by (rewrite ?Hp2s, ?zlen_cons, ?zlen_nil; lia).
  rewrite <-(assoc_L (++) p2). rewrite slice_Done, zslice_full by lia. cbn [mbind outcome_bind].
  rewrite copy_into_Done by (rewrite ?zlen_zsplice; rewrite ?Hp2s, ?zlen_app, ?zlen_cons, ?zlen_nil; lia).
  rewrite zsplice_next by (rewrite ?Hp2s, ?zlen_app, ?zlen_cons, ?zlen_nil; lia).
  subst p2. by rewrite <-!(assoc_L (++)).
Qed.

Lemma layout_recs block off ds : layout block off ds → off + recs ds = zlen block.
Proof. intros Hl. pose proof (layout_suffix block off ds []) as H. rewrite app_nil_r in H. by apply H. Qed.

Lemma recs_pos block off ds : layout block off ds → 8 * Z.of_nat (length ds) ≤ recs ds.
Proof.
  revert off. induction ds as [|d ds IH]; intros off; simpl; [lia|]. intros (Hok & Hh & Hl).
  pose proof (dent_fits _ _ _ Hok Hh). specialize (IH _ Hl). lia.
Qed.

(** The insertion walks to the last record. *)
Lemma add_in_block_walk fuel block off ds l needed child ft name :
  layout block off (ds ++ [l]) → 0 ≤ off → (length (ds ++ [l]) ≤ fuel)%nat →
  ∃ fuel', add_in_block fuel off needed child ft name block =
           add_in_block (S fuel') (off + recs ds) needed child ft name block.
Proof.
  revert fuel off. induction ds as [|d ds IH]; intros fuel off Hl Ho Hf.
  { destruct fuel as [|fuel]; simpl in Hf; [lia|]. exists fuel. by rewrite Z.add_0_r. }
  destruct fuel as [|fuel]; simpl in Hf; [lia|]. destruct Hl as (Hok & Hh & Hl).
  destruct (dent_fields _ _ _ Hok Hh) as (_ & E2 & E3 & _).
  destruct (dent_fits _ _ _ Hok Hh) as [? ?].
  pose proof (layout_recs _ _ _ Hl). pose proof (recs_pos _ _ _ Hl).
  rewrite length_app in *. simpl in *.
  destruct (IH fuel (off + dn_rec d) Hl) as [fuel' E]; [lia|lia|]. exists fuel'.
  change (recs (d :: ds)) with (dn_rec d + recs ds). rewrite Z.add_assoc, <-E.
  destruct (Z.ltb_spec (zlen block) (off + 8)); [lia|]. rewrite E2, E3. cbn [mbind outcome_bind].
  destruct (Z.ltb_spec (dn_rec d) 8); [lia|]. destruct (Z.leb_spec (zlen block) (off + dn_rec d)); [lia|done].
Qed.

Lemma recs_nonneg block off ds1 ds2 : layout block off (ds1 ++ ds2) → 0 ≤ recs ds1.
Proof.
  revert off. induction ds1 as [|d ds1 IH]; intros off; simpl; [lia|]. intros (Hok & Hh & Hl).
  pose proof (dent_fits _ _ _ Hok Hh). specialize (IH _ Hl). lia.
Qed.

(** The last record shrunk to [act] bytes, and [new] in the room it leaves. *)
Lemma layout_add block ds l new :
  let o := 0 + recs ds in
  let act := entry_size (zlen (dn_name l)) in
  layout block 0 (ds ++ [l]) → dent_ok new → dn_rec new = dn_rec l - act →
  let block' := zsplice (zsplice block (o + 4) (to_le 2 act)) (o + act) (encode_dent new) in
  zlen block' = zlen block ∧ layout block' 0 (ds ++ [with_rec act l; new]).
Proof.
  intros o act Hl Hnew Hrn. pose proof (layout_recs _ _ _ Hl) as Hrec. rewrite recs_app in Hrec.
  pose proof (recs_nonneg _ _ _ _ Hl). simpl in Hrec.
  destruct (layout_suffix _ _ _ _ Hl) as (Hok & Hh & _). fold o in Hh. destruct Hok as (Hi & Hnl & Ht & Hr).
  assert (0 ≤ o ∧ o + dn_rec l = zlen block) as [Ho Hend] by lia.
  pose proof (zlen_nonneg (dn_name l)). pose proof (zlen_nonneg (dn_name new)).
  pose proof (entry_size_spec (zlen (dn_name l)) ltac:(done)) as Hact. fold act in Hr, Hact.
  destruct Hnew as (Hin & Hnn & Htn & Hrnew).
  pose proof (entry_size_spec (zlen (dn_name new)) ltac:(done)).
  pose proof (zlen_encode_dent new) as Hzn.
  set (b1 := zsplice block (o + 4) (to_le 2 act)).
  assert (zlen b1 = zlen block) as Hb1 by (subst b1; rewrite zlen_zsplice; rewrite ?zlen_to_le; lia).
  intros block'. assert (zlen block' = zlen block) as Hb' by (subst block'; rewrite zlen_zsplice; lia).
  split; [done|]. apply layout_prefix with block [l]; [done| |].
  - intros o' bytes Hh' Hle. fold o in Hle.
    apply holds_splice_other; [apply holds_splice_other|..]; rewrite ?zlen_to_le; [done|lia..].
  - fold o. split; [split_and!; [done|done|done|simpl; fold act; lia|simpl; lia]|]. split.
    { apply holds_splice_other; [by apply holds_with_rec|lia|lia|]. rewrite !zlen_encode_dent. simpl. lia. }
    simpl. split; [split_and!; [done|done|done|lia|lia]|]. split; [apply holds_splice_same; lia|]. lia.
Qed.

Lemma add_in_block_spec block ds l child ft name :
  let act := entry_size (zlen (dn_name l)) in
  layout block 0 (ds ++ [l]) → zlen block < 2 ^ 16 → zlen name < 2 ^ 8 → is_uint 32 child → is_uint 8 ft →
  ∃ r, add_in_block (S (length block)) 0 (entry_size (zlen name)) child ft name block = Done r ∧
    match r with
    | None => dn_rec l < act + entry_size (zlen name)
    | Some block' => zlen block' = zlen block ∧
        layout block' 0 (ds ++ [with_rec act l; mkDent child (dn_rec l - act) ft name])
    end.
Proof.
  intros act Hl Hb Hn Hc Hft. pose proof (layout_recs _ _ _ Hl) as Hrec. pose proof (recs_pos _ _ _ Hl).
  destruct (add_in_block_walk (S (length block)) block 0 ds l (entry_size (zlen name)) child ft name)
    as [fuel ->]; [done|lia|unfold zlen in *; lia|].
  rewrite recs_app in Hrec. pose proof (recs_nonneg _ _ _ _ Hl). simpl in Hrec.
  destruct (layout_suffix _ _ _ _ Hl) as (Hok & Hh & _).
  destruct (dent_fields _ _ _ Hok Hh) as (_ & E2 & E3 & _). destruct (dent_fits _ _ _ Hok Hh) as [? ?].
  pose proof Hok as (_ & _ & _ & Hr). pose proof (zlen_nonneg (dn_name l)). pose proof (zlen_nonneg name).
  pose proof (entry_size_spec (zlen (dn_name l)) ltac:(done)).
  pose proof (entry_size_spec (zlen name) ltac:(done)). fold act in Hr, H4.
  cbn [add_in_block]. destruct (Z.ltb_spec (zlen block) (0 + recs ds + 8)); [lia|].
  rewrite E2, E3. cbn [mbind outcome_bind]. destruct (Z.ltb_spec (dn_rec l) 8); [lia|].
  destruct (Z.leb_spec (zlen block) (0 + recs ds + dn_rec l)); [|lia]. fold act.
  rewrite (wrap_small 64 (dn_rec l - _)) by (unfold is_uint; lia).
  destruct (Z.leb_spec (entry_size (zlen name)) (dn_rec l - act)); [|eexists; split; [done|simpl; lia]].
  rewrite !(wrap_small 16), (wrap_small 8) by (unfold is_uint; lia).
  rewrite put_le_Done by lia. cbn [mbind outcome_bind].
  set (new := mkDent child (dn_rec l - act) ft name).
  destruct (layout_add block ds l new) as [Hz Hl']; [done|split_and!; done || (simpl; lia)|done|].
  pose proof (zlen_encode_dent new) as Hzn. simpl in Hzn.
  pose proof (write_dir_entry_spec (zsplice block (0 + recs ds + 4) (to_le 2 act)) (0 + recs ds + act) new) as Hw.
  rewrite zlen_zsplice in Hw by (rewrite ?zlen_to_le; lia). rewrite Hzn in Hw. simpl in Hw.
  rewrite Hw by lia. by eexists.
Qed.

Definition is_entry (name : list Z) (d : dent) : bool :=
  negb (dn_ino d =? 0) && bool_decide (dn_name d = name).

(** The search of the removal: the first live record of the name, and the
    record before it. *)
Lemma find_with_prev_spec name ds : ∀ off prev,
  (find_with_prev prev name (dirents_of off ds) = None ∧ dents_lookup name ds = None) ∨
  (∃ ds1 c ds2 prev', ds = ds1 ++ c :: ds2 ∧ dents_lookup name ds1 = None ∧ is_entry name c = true ∧
     find_with_prev prev name (dirents_of off ds) = Some (off + recs ds1, prev', dn_rec c) ∧
     ((ds1 = [] ∧ prev' = prev) ∨ (∃ ds0 p, ds1 = ds0 ++ [p] ∧ prev' = Some (off + recs ds0)))).
Proof.
  induction ds as [|d ds IH]; intros off prev; [by left|]. simpl. fold (is_entry name d).
  destruct (is_entry name d) eqn:E.
  { right. exists [], d, ds, prev. rewrite Z.add_0_r. split_and!; try done. by left. }
  destruct (IH (off + dn_rec d) (Some off)) as [[-> ->]|(ds1 & c & ds2 & prev' & -> & E1 & Ec & -> & Hp)]; [by left|].
  right. exists (d :: ds1), c, ds2, prev'. simpl. rewrite Z.add_assoc.
  fold (is_entry name d). rewrite E. split_and!; try done. right. destruct Hp as [[-> ->]|(ds0 & p & -> & ->)].
  - exists [], d. by rewrite Z.add_0_r.
  - exists (d :: ds0), p. simpl. by rewrite Z.add_assoc.
Qed.

(** The records after the removal: the first record of the block stays, with
    inode 0; any other is absorbed by the one before it. *)
Inductive removed (name : list Z) : list dent → list dent → Prop :=
  | removed_first c ds : is_entry name c = true → removed name (c :: ds) (with_ino 0 c :: ds)
  | removed_merge ds0 p c ds :
      dents_lookup name (ds0 ++ [p]) = None → is_entry name c = true →
      removed name (ds0 ++ p :: c :: ds) (ds0 ++ with_rec (dn_rec p + dn_rec c) p :: ds).

Lemma layout_remove_first block c ds :
  layout block 0 (c :: ds) →
  let block' := zsplice block 0 (to_le 4 0) in
  zlen block' = zlen block ∧ layout block' 0 (with_ino 0 c :: ds).
Proof.
  intros (Hok & Hh & Hl). pose proof (layout_bound _ _ _ Hl). pose proof Hok as (_ & Hn & Ht & Hr).
  destruct (dent_fits _ _ _ Hok Hh). simpl in *.
  assert (zlen (zsplice block 0 (to_le 4 0)) = zlen block) as Hz
    by (rewrite zlen_zsplice; rewrite ?zlen_to_le; lia).
  split; [done|]. split; [refine (conj _ (conj Hn (conj Ht Hr))); unfold is_uint; simpl; lia|]. split; [by apply holds_with_ino|].
  apply layout_rest with block; [done..|]. intros o bytes Hb Ho.
  apply holds_splice_other; rewrite ?zlen_to_le; [done|lia..].
Qed.

Lemma layout_remove_merge block ds0 p c ds :
  let po := 0 + recs ds0 in
  layout block 0 (ds0 ++ p :: c :: ds) → zlen block < 2 ^ 16 →
  let block' := zsplice (zsplice block (po + dn_rec p) (to_le 4 0)) (po + 4) (to_le 2 (dn_rec p + dn_rec c)) in
  zlen block' = zlen block ∧ layout block' 0 (ds0 ++ with_rec (dn_rec p + dn_rec c) p :: ds).
Proof.
  intros po Hl Hb. pose proof (recs_nonneg _ _ _ _ Hl).
  destruct (layout_suffix _ _ _ _ Hl) as (Hok & Hh & Hokc & Hhc & Hrest). fold po in Hh, Hhc, Hrest.
  pose proof (layout_bound _ _ _ Hrest). pose proof Hok as (Hi & Hn & Ht & Hr).
  destruct (dent_fits _ _ _ Hok Hh), (dent_fits _ _ _ Hokc Hhc).
  set (b1 := zsplice block (po + dn_rec p) (to_le 4 0)).
  assert (zlen b1 = zlen block) as Hb1 by (subst b1; rewrite zlen_zsplice; rewrite ?zlen_to_le; lia).
  intros block'. assert (zlen block' = zlen block) as Hb'
    by (subst block'; rewrite zlen_zsplice; rewrite ?zlen_to_le; lia).
  pose proof (zlen_encode_dent p). split; [done|]. apply layout_prefix with block (p :: c :: ds); [done| |].
  - intros o bytes Hob Hle. fold po in Hle.
    apply holds_splice_other; [apply holds_splice_other|..]; rewrite ?zlen_to_le; [done|lia..].
  - fold po. split; [split_and!; [done..|simpl; lia|simpl; lia]|]. split.
    { apply holds_with_rec, holds_splice_other; rewrite ?zlen_to_le; [done|lia..]. }
    apply layout_rest with block; [by simpl; rewrite Z.add_assoc|done|]. simpl. intros o bytes Hob Hle.
    apply holds_splice_other; [apply holds_splice_other|..]; rewrite ?zlen_to_le; [done|lia..].
Qed.

Lemma remove_in_block_spec block ds name :
  layout block 0 ds → zlen block < 2 ^ 16 →
  ∃ r, remove_in_block name block = Done r ∧
    match r with
    | None => dents_lookup name ds = None
    | Some block' => zlen block' = zlen block ∧ ∃ ds', removed name ds ds' ∧ layout block' 0 ds'
    end.
Proof.
  intros Hl Hb. unfold remove_in_block, dir_entries.
  rewrite (dir_entries_layout _ _ _ ds) by (done || unfold zlen; lia). cbn [mbind outcome_bind].
  destruct (find_with_prev_spec name ds 0 None)
    as [[-> ?]|(ds1 & c & ds2 & prev & -> & E1 & Ec & -> & Hp)]; [by eexists|].
  destruct (layout_suffix _ _ _ _ Hl) as (Hok & Hh & Hrest). pose proof (layout_bound _ _ _ Hrest).
  pose proof (recs_nonneg _ _ _ _ Hl). destruct (dent_fits _ _ _ Hok Hh).
  rewrite put_le_Done by lia. cbn [mbind outcome_bind]. destruct Hp as [[-> ->]|(ds0 & p & -> & ->)].
  { destruct (layout_remove_first block c ds2 Hl) as [Hz Hl']. eexists; split; [done|]. split; [done|].
    eexists; split; [by constructor|done]. }
  rewrite <-(assoc_L (++)) in Hl. simpl in Hl. rewrite recs_app in *. simpl in *.
  destruct (layout_suffix _ _ _ _ Hl) as (Hokp & Hhp & _). destruct (dent_fits _ _ _ Hokp Hhp).
  pose proof (recs_nonneg _ _ _ _ Hl).
  replace (0 + (recs ds0 + (dn_rec p + 0))) with (0 + recs ds0 + dn_rec p) in * by lia.
  assert (holds (zsplice block (0 + recs ds0 + dn_rec p) (to_le 4 0)) (0 + recs ds0) (encode_dent p)) as Hhp'.
  { apply holds_splice_other; rewrite ?zlen_to_le, ?zlen_encode_dent; [done|lia..]. }
  destruct (dent_fields _ _ _ Hokp Hhp') as (_ & -> & _). cbn [mbind outcome_bind].
  rewrite (wrap_small 16) by (unfold is_uint; lia).
  rewrite put_le_Done by (rewrite ?zlen_zsplice; rewrite ?zlen_to_le; lia). cbn [mbind outcome_bind].
  destruct (layout_remove_merge block ds0 p c ds2 Hl Hb) as [Hz Hl']. eexists; split; [done|]. split; [done|].
  eexists; split; [|done]. rewrite <-(assoc_L (++)). by apply removed_merge.
Qed.

(** The live names. *)
Definition live (ds : list dent) : list (list Z) := dn_name <$> filter (λ d, dn_ino d ≠ 0) ds.

Lemma live_app ds1 ds2 : live (ds1 ++ ds2) = live ds1 ++ live ds2.
Proof. unfold live. by rewrite filter_app, fmap_app. Qed.

Lemma live_cons d ds : live (d :: ds) = (if decide (dn_ino d ≠ 0) then [dn_name d] else []) ++ live ds.
Proof. unfold live. rewrite filter_cons. by destruct (decide _). Qed.

Lemma is_entry_true name d : is_entry name d = true ↔ dn_ino d ≠ 0 ∧ dn_name d = name.
Proof.
  unfold is_entry. rewrite andb_true_iff, bool_decide_eq_true, negb_true_iff, Z.eqb_neq. done.
Qed.

Lemma dents_lookup_cons name d ds :
  dents_lookup name (d :: ds) = if is_entry name d then Some (dn_ino d) else dents_lookup name ds.
Proof. done. Qed.

Lemma dents_lookup_app name ds1 ds2 :
  dents_lookup name (ds1 ++ ds2) =
    match dents_lookup name ds1 with Some i => Some i | None => dents_lookup name ds2 end.
Proof.
  induction ds1 as [|d ds1 IH]; [done|]. rewrite <-app_comm_cons, !dents_lookup_cons, IH.
  by destruct (is_entry name d).
Qed.

Lemma dents_lookup_None name ds : dents_lookup name ds = None ↔ name ∉ live ds.
Proof.
  induction ds as [|d ds IH]; [by split; [intros _ ?%elem_of_nil|]|].
  rewrite dents_lookup_cons, live_cons, not_elem_of_app, <-IH.
  destruct (is_entry name d) eqn:E.
  - apply is_entry_true in E as [Hi <-]. rewrite decide_True by done. set_solver.
  - assert (¬ (dn_ino d ≠ 0 ∧ dn_name d = name)) as Hno by (rewrite <-is_entry_true; congruence).
    destruct (decide _); set_solver.
Qed.

(** Shrinking or growing a record does not change the names. *)
Lemma live_with_rec r d ds : live (with_rec r d :: ds) = live (d :: ds).
Proof. by rewrite !live_cons. Qed.

Lemma lookup_with_rec n r d ds : dents_lookup n (with_rec r d :: ds) = dents_lookup n (d :: ds).
Proof. done. Qed.

Lemma add_lookup ds l child r ft name act n :
  child ≠ 0 → dents_lookup name (ds ++ [l]) = None →
  dents_lookup n (ds ++ [with_rec act l; mkDent child r ft name]) =
    if decide (n = name) then Some child else dents_lookup n (ds ++ [l]).
Proof.
  intros Hc Hno. rewrite dents_lookup_app, lookup_with_rec.
  change [l; ?d] with ([l] ++ [d]). rewrite (dents_lookup_app n [l]), (dents_lookup_app n ds).
  destruct (decide (n = name)) as [->|Hne].
  - rewrite dents_lookup_app in Hno. destruct (dents_lookup name ds); [done|]. rewrite Hno.
    rewrite dents_lookup_cons. by rewrite (proj2 (is_entry_true name _)).
  - destruct (dents_lookup n ds), (dents_lookup n [l]); try done. rewrite dents_lookup_cons.
    destruct (is_entry n _) eqn:E; [|done]. apply is_entry_true in E as [_ E]. by simpl in E.
Qed.

Lemma add_live ds l child r ft name act :
  child ≠ 0 → live (ds ++ [with_rec act l; mkDent child r ft name]) = live (ds ++ [l]) ++ [name].
Proof.
  intros Hc. rewrite !live_app, live_with_rec. change [l; ?d] with ([l] ++ [d]).
  rewrite (live_app [l]), <-(assoc_L (++)). f_equal. f_equal. by rewrite live_cons, decide_True.
Qed.

Lemma removed_lookup name ds ds' n :
  removed name ds ds' → NoDup (live ds) →
  NoDup (live ds') ∧ dents_lookup n ds' = if decide (n = name) then None else dents_lookup n ds.
Proof.
  assert (∀ d ds2, is_entry name d = true → NoDup (live (d :: ds2)) →
    NoDup (live ds2) ∧ dents_lookup name ds2 = None) as Htail.
  { intros d ds2 [Hi Hn]%is_entry_true Hnd. rewrite live_cons, decide_True in Hnd by done.
    apply NoDup_cons in Hnd as [Hnot Hnd]. rewrite Hn in Hnot. by rewrite dents_lookup_None. }
  assert (∀ d ds2, is_entry name d = true → n ≠ name → dents_lookup n (d :: ds2) = dents_lookup n ds2) as Hskip.
  { intros d ds2 [_ Hn]%is_entry_true Hne. rewrite dents_lookup_cons.
    destruct (is_entry n d) eqn:E; [|done]. apply is_entry_true in E as [_ E]. congruence. }
  intros [c ds2 Hc|ds0 p c ds2 Hno Hc] Hnd.
  - destruct (Htail _ _ Hc Hnd) as [Hnd' Hnone]. rewrite live_cons. split; [done|].
    change (dents_lookup n (with_ino 0 c :: ds2)) with (dents_lookup n ds2).
    destruct (decide (n = name)) as [->|]; [done|].
    by rewrite Hskip.
  - assert (∀ x l, ds0 ++ x :: l = (ds0 ++ [x]) ++ l) as Hs by (intros; by rewrite <-(assoc_L (++))).
    rewrite (Hs p) in Hnd |- *. rewrite (Hs (with_rec _ p)).
    assert (∀ r, live (ds0 ++ [with_rec r p]) = live (ds0 ++ [p])) as Hsame
      by (intros; by rewrite !live_app, live_with_rec).
    rewrite live_app in Hnd. rewrite live_app, Hsame.
    apply NoDup_app in Hnd as (Hnd0 & Hdisj & Hndc). destruct (Htail _ _ Hc Hndc) as [Hnd' Hnone]. split.
    + apply NoDup_app. split_and!; [done| |done]. intros x Hx Hx'. apply (Hdisj x Hx).
      rewrite live_cons. set_solver.
    + rewrite (dents_lookup_app n (_ ++ [with_rec _ p])), (dents_lookup_app n ds0), lookup_with_rec,
        <-dents_lookup_app, (dents_lookup_app n (ds0 ++ [p]) (c :: ds2)).
      destruct (decide (n = name)) as [->|]; [by rewrite Hno, Hnone|]. by rewrite Hskip.
Qed.

Lemma layout_last block ds : layout block 0 ds → 0 < zlen block → ∃ ds0 l, ds = ds0 ++ [l].
Proof. intros Hl Hb. destruct ds as [|l ds0 _] using rev_ind; [simpl in Hl; lia|eauto]. Qed.

(** C14: a directory block implements a finite map from names to inodes.  On a
    block of less than 64 KiB that is a chain of records ending at the block's end,
    with no name alive twice: a lookup finds exactly the live names; inserting a
    fresh name of less than 256 bytes (the record's length field has 8 bits) for an
    inode other than 0 either leaves the block alone, because the last record has not enough
    slack, or yields a block with the same shape in which that name has that
    inode and every other name what it had; removing a name yields a block in
    which it is gone and every other name keeps its inode, and fails only when
    the name was not there.  None of them panics. *)
Theorem dir_block_is_map (block : list Z) (ds : list dent) :
  layout block 0 ds → NoDup (live ds) → 0 < zlen block < 2 ^ 16 →
  (∀ name, block_lookup name block = Done (dents_lookup name ds)) ∧
  (∀ name child ft, dents_lookup name ds = None → zlen name < 2 ^ 8 → 0 < child < 2 ^ 32 → is_uint 8 ft →
     ∃ r, add_in_block (S (length block)) 0 (wrap 16 (entry_size (zlen name))) child ft name block = Done r ∧
       match r with
       | None => ∃ ds0 l, ds = ds0 ++ [l] ∧
           dn_rec l < entry_size (zlen (dn_name l)) + entry_size (zlen name)
       | Some block' => zlen block' = zlen block ∧ ∃ ds', layout block' 0 ds' ∧ NoDup (live ds') ∧
           ∀ n, block_lookup n block' = Done (if decide (n = name) then Some child else dents_lookup n ds)
       end) ∧
  (∀ name, ∃ r, remove_in_block name block = Done r ∧
       match r with
       | None => dents_lookup name ds = None
       | Some block' => zlen block' = zlen block ∧ ∃ ds', layout block' 0 ds' ∧ NoDup (live ds') ∧
           ∀ n, block_lookup n block' = Done (if decide (n = name) then None else dents_lookup n ds)
       end).
Proof.
  intros Hl Hnd Hb. split; [intros; by apply block_lookup_layout|]. split.
  - intros name child ft Hno Hn Hc Hft. destruct (layout_last block ds Hl) as (ds0 & l & ->); [lia|].
    pose proof (entry_size_spec (zlen name) (zlen_nonneg _)). pose proof (zlen_nonneg name).
    rewrite wrap_small by (unfold is_uint; lia).
    destruct (add_in_block_spec block ds0 l child ft name) as (r & -> & Hr); [done|lia|done|unfold is_uint; lia|done|].
    eexists; split; [done|]. destruct r as [block'|]; [|by eauto]. destruct Hr as [Hz Hl'].
    split; [done|]. eexists. split; [done|]. split.
    + rewrite add_live by lia. apply NoDup_app. apply dents_lookup_None in Hno.
      split_and!; [done|set_solver|apply NoDup_singleton].
    + intros n. rewrite (block_lookup_layout _ _ _ Hl'). by rewrite add_lookup by (done || lia).
  - intros name. destruct (remove_in_block_spec block ds name) as (r & -> & Hr); [done|lia|].
    eexists; split; [done|]. destruct r as [block'|]; [|done]. destruct Hr as (Hz & ds' & Hrm & Hl').
    split; [done|]. exists ds'. split; [done|]. split; [by apply (removed_lookup name ds ds' name)|].
    intros n. rewrite (block_lookup_layout _ _ _ Hl'). by rewrite (proj2 (removed_lookup name ds ds' n Hrm Hnd)).
Qed.
End dents.

(** The block [new_dir_block] writes for an empty directory of inode 12 under
    inode 2, with 64-byte blocks. *)
Definition sample_dents : list dent := [mkDent 12 12 2 [46]; mkDent 2 52 2 [46; 46]].
Definition sample_block : list Z :=
  encode_dent (mkDent 12 12 2 [46]) ++ zrep 3 0 ++ encode_dent (mkDent 2 52 2 [46; 46]) ++ zrep 42 0.

Lemma dir_block_is_map_witness :
  layout sample_block 0 sample_dents ∧ NoDup (live sample_dents) ∧
  ∃ block', add_in_block (S (length sample_block)) 0 (wrap 16 (entry_size 3)) 13 1 [97; 46; 99] sample_block
              = Done (Some block') ∧
    block_lookup [97; 46; 99] block' = Done (Some 13) ∧ block_lookup [46] block' = Done (Some 12).
Proof.
  assert (layout sample_block 0 sample_dents) as Hl.
  { unfold layout, sample_dents. split_and!; by vm_compute. }
  assert (NoDup (live sample_dents)) as Hnd by (apply (bool_decide_unpack _); by vm_compute).
  split; [done|]. split; [done|].
  destruct (dir_block_is_map sample_block sample_dents Hl Hnd) as (_ & Hadd & _); [by vm_compute|].
  destruct (Hadd [97; 46; 99] 13 1) as (r & E & Hr); [by vm_compute..|]. change (zlen [97; 46; 99]) with 3 in E.
  destruct r as [block'|].
  - destruct Hr as (_ & ds' & _ & _ & Hlk). exists block'. split; [done|]. by rewrite !Hlk.
  - exfalso. revert E. by vm_compute.
Defined.

(** C16: walking a directory block ends.  Whatever bytes the disk hands over,
    corrupt record lengths included, the walk stops after at most one record per
    eight bytes (more turns change nothing), without panicking; the records it
    reports follow one another and lie, with their names, inside the block. *)
Theorem dir_walk_terminates (block : list Z) :
  bytes_ok block →
  ∃ es, in_block block 0 es ∧ 8 * zlen es ≤ zlen block ∧ dir_entries block = Done es ∧
    ∀ fuel, zlen block < 8 * Z.of_nat fuel → dir_entries_from fuel 0 block = Done es.
Proof.
  intros Hb. pose proof (zlen_nonneg block).
  destruct (dir_entries_from_ends (Z.to_nat (zlen block `div` 8 + 1)) block 0 Hb) as (es & Hin & Hl & Hrun); [lia| |].
  { Z.to_euclidean_division_equations. lia. }
  exists es. split_and!; [done|lia|..].
  - apply Hrun. unfold zlen in *. Z.to_euclidean_division_equations. lia.
  - intros fuel Hf. apply Hrun. Z.to_euclidean_division_equations. lia.
Qed.

(** A record length of three ends the walk of this block at once. *)
Lemma dir_walk_terminates_witness :
  dir_entries [1; 0; 0; 0; 3; 0; 1; 1; 97; 0; 0; 0] = Done [].
Proof.
  destruct (dir_walk_terminates [1; 0; 0; 0; 3; 0; 1; 1; 97; 0; 0; 0]) as (es & _ & _ & E & _).
  - repeat constructor; lia.
  - rewrite E. vm_compute in E. by rewrite <-E.
Defined.
