(* ===== verification/Ext2Sample.v ===== *)
(** * A small ext2 volume

    Sixteen blocks of 2 KiB on the in-memory disk: superblock in block 0,
    descriptors in block 1, bitmaps in 2 and 3, sixteen inodes in block 4, the
    root directory in block 5; blocks 6 to 15 and inodes 12 to 16 are free.
    The theorems on ext2 are applied to it. *)

From S2P Require Import Prelude BlockDev Vfs Ext2 Ext2Disk Ext2Alloc Ext2Dir.

Definition sample_sb : Superblock := mkSuperblock 16 16 10 5 0 1 16384 16 EXT2_MAGIC 128 11.
Definition sample_bg : BgDesc := mkBgDesc 2 3 4 10 5 1.

Definition sample_sb_bytes : list Z :=
  to_le 4 16 ++ to_le 4 16 ++ zrep 4 0 ++ to_le 4 10 ++ to_le 4 5 ++ to_le 4 0 ++ to_le 4 1 ++ zrep 4 0 ++
  to_le 4 16384 ++ zrep 4 0 ++ to_le 4 16 ++ zrep 12 0 ++ to_le 2 EXT2_MAGIC ++ zrep 26 0 ++ to_le 4 11 ++
  to_le 2 128 ++ zrep 422 0.

(** The root inode: a directory of one block. *)
Definition root_inode_bytes : list Z :=
  to_le 2 16877 ++ zrep 2 0 ++ to_le 4 2048 ++ zrep 18 0 ++ to_le 2 2 ++ to_le 4 4 ++ zrep 8 0 ++
  to_le 4 5 ++ zrep 84 0.

Definition root_dir_bytes : list Z :=
  encode_dent (mkDent 2 12 2 [46]) ++ zrep 3 0 ++ encode_dent (mkDent 2 2036 2 [46; 46]) ++ zrep 490 0.

Definition sample_disk : memdisk :=
  <[2 := sample_sb_bytes]>
  (<[4 := bg_bytes sample_bg ++ zrep 494 0]>
  (<[8 := 63 :: 0 :: zrep 510 255]> (<[9 := zrep 512 255]> (<[10 := zrep 512 255]> (<[11 := zrep 512 255]>
  (<[12 := 255 :: 7 :: zrep 510 255]> (<[13 := zrep 512 255]> (<[14 := zrep 512 255]> (<[15 := zrep 512 255]>
  (<[16 := zrep 128 0 ++ root_inode_bytes ++ zrep 256 0]>
  (<[20 := root_dir_bytes]> ∅))))))))))).

Definition sample_fs : ext2 memdisk := mkExt2 sample_disk sample_sb [sample_bg].

Lemma sample_mounts : ext2_mount sample_disk = Done (Some (Ext2DirINode 2, sample_fs)).
Proof. vm_compute. reflexivity. Qed.

Lemma sample_group g bg : zget (e_bgdt sample_fs) g = Some bg → g = 0 ∧ bg = sample_bg.
Proof.
  intros Hg. pose proof (zget_Some_range _ _ _ Hg) as Hr. change (zlen (e_bgdt sample_fs)) with 1 in Hr.
  assert (g = 0) as -> by lia. vm_compute in Hg. by injection Hg.
Qed.

Lemma sample_blk b :
  0 ≤ b < 16 → blk sample_fs b = read_fs_block sample_sb b sample_disk.
Proof.
  intros Hb. symmetry. apply (read_fs_block_spec sample_fs); [unfold geom; simpl; lia|].
  change (nblk sample_fs) with 16. done.
Qed.

Lemma sample_nfree k : k_cnt k sample_bg = nfree (blk sample_fs (k_map k sample_bg)).
Proof.
  rewrite sample_blk by (by destruct k).
  destruct k; [set (bm := 63 :: 0 :: zrep 2046 255)|set (bm := 255 :: 7 :: zrep 2046 255)];
    assert (read_fs_block sample_sb (k_map _ sample_bg) sample_disk = bm) as -> by (vm_compute; reflexivity);
    subst bm; rewrite !nfree_cons, nfree_ones by lia; vm_compute; reflexivity.
Qed.

Lemma sample_bytes : bytes_ok (disk sample_disk).
Proof.
  apply md_bytes_ok. unfold sample_disk.
  repeat (apply map_Forall_insert_2; [apply (bool_decide_unpack _); vm_compute; reflexivity|]).
  apply map_Forall_empty.
Qed.

Lemma sample_wf : wf sample_fs.
Proof.
  constructor.
  - vm_compute. split; discriminate.
  - apply sample_bytes.
  - vm_compute. reflexivity.
  - vm_compute. reflexivity.
  - change (nblk sample_fs) with 16. vm_compute. split_and!; [discriminate|discriminate|reflexivity].
  - repeat constructor; vm_compute; (reflexivity || discriminate).
  - split; [apply (bool_decide_unpack (NoDup (maps sample_fs))); vm_compute; reflexivity|].
    change (maps sample_fs) with [2; 3]. change (nblk sample_fs) with 16.
    unfold system. change (block_size (e_sb sample_fs)) with 2048. change (bgdt_block (e_sb sample_fs)) with 1.
    change ((zlen (e_bgdt sample_fs) * 32) `div` 2048) with 0.
    intros b [->|[->|[]%elem_of_nil]%elem_of_cons]%elem_of_cons; lia.
  - vm_compute. reflexivity.
  - intros g bg [-> ->]%sample_group. vm_compute. split_and!; (reflexivity || discriminate).
  - intros g bg k [-> ->]%sample_group. apply sample_nfree.
Qed.

Lemma sample_layout : layout_ok sample_fs.
Proof.
  constructor; [reflexivity|vm_compute; split; [reflexivity|discriminate]|].
  change (inodes_per_group (e_sb sample_fs)) with 16. change (group_bits sample_fs) with 16384.
  intros g i Hi. unfold taken. destruct (zget (e_bgdt sample_fs) g) as [bg|] eqn:Hg; [|done].
  apply sample_group in Hg as [-> ->]. rewrite sample_blk by done.
  assert (read_fs_block sample_sb (k_map Inodes sample_bg) sample_disk = [255; 7] ++ zrep 2046 255) as ->
    by (vm_compute; reflexivity).
  unfold bit. rewrite zget_app_r by (change (zlen [255; 7]) with 2; Z.to_euclidean_division_equations; lia).
  rewrite zget_zrep by (change (zlen [255; 7]) with 2; Z.to_euclidean_division_equations; lia).
  change 255 with (Z.ones 8). apply Z.ones_spec_low, Z.mod_pos_bound. lia.
Qed.

