(* ===== verification/Executor.v ===== *)
(** * Asynchronous tasks and the cooperative scheduler
      (task/src/{executor,async_task,waker,yield_now,lib}.rs)

    Futures are state machines [poll : F → bool * F] (finished or not, and the
    future afterwards); the waker the executors pass does nothing, so a poll
    has no other effect.  Two executors exist: the one of executor.rs keeps an
    index into its queue, the one of lib.rs rotates the queue.  The cooperative
    [Scheduler] of lib.rs picks the next ready task of a ring.

    Shown here: both executors poll every task exactly once per pass, in the
    same order, and drop exactly those that finish, so that tasks which need
    at most n polls are gone after n passes; the scheduler picks the nearest
    ready task after the current one. *)

From S2P Require Import Prelude Task.

Section executor.
Context {F : Type} (poll : F → bool * F).

(** The stored waker is the dummy one. *)
Record AsyncTask := mkAsyncTask {
  at_future : F;
  at_waker : option unit;
}.

Definition AsyncTask_new (future : F) : AsyncTask := mkAsyncTask future None.

Definition AsyncTask_poll (t : AsyncTask) : bool * AsyncTask :=
  let '(ready, future) := poll (at_future t) in
  (ready, mkAsyncTask future (if ready then at_waker t else Some tt)).

(* ------------------------------------------------------------------ *)
(** ** executor.rs *)

Record Executor := mkExecutor {
  ex_tasks : list AsyncTask;
  ex_current : Z;
}.

Definition Executor_new : Executor := mkExecutor [] 0.

Definition spawn (task : AsyncTask) (e : Executor) : Executor :=
  mkExecutor (ex_tasks e ++ [task]) (ex_current e).

(** [VecDeque::remove]. *)
Definition remove_at {A} (i : Z) (l : list A) : list A := ztake i l ++ zdrop (i + 1) l.

Definition poll_next_task (e : Executor) : Executor :=
  match ex_tasks e with
  | [] => e
  | _ =>
      match zget (ex_tasks e) (ex_current e) with
      | None => e
      | Some task =>
          let '(ready, task) := AsyncTask_poll task in
          let tasks := zset (ex_tasks e) (ex_current e) task in
          if ready then
            let tasks := remove_at (ex_current e) tasks in
            mkExecutor tasks
              (if (zlen tasks <=? ex_current e) && negb (zlen tasks =? 0) then 0 else ex_current e)
          else mkExecutor tasks ((ex_current e + 1) `mod` zlen tasks)
      end
  end.

(** [for _ in 0..count { poll_next_task(); if empty { break } }] *)
Fixpoint poll_times (count : nat) (e : Executor) : Executor :=
  match count with
  | O => e
  | S count =>
      let e := poll_next_task e in
      match ex_tasks e with [] => e | _ => poll_times count e end
  end.

Definition poll_all (e : Executor) : Executor := poll_times (length (ex_tasks e)) e.

Definition Executor_task_yield (e : Executor) : Executor :=
  match ex_tasks e with
  | [] => e
  | _ => mkExecutor (ex_tasks e) ((ex_current e + 1) `mod` zlen (ex_tasks e))
  end.

(* ------------------------------------------------------------------ *)
(** ** The executor of lib.rs, over the same record *)

Fixpoint lib_poll_times (len : nat) (tasks : list AsyncTask) : list AsyncTask :=
  match len with
  | O => tasks
  | S len =>
      match tasks with
      | [] => lib_poll_times len []
      | task :: tasks =>
          let '(ready, task) := AsyncTask_poll task in
          lib_poll_times len (if ready then tasks else tasks ++ [task])
      end
  end.

Definition lib_poll_all (e : Executor) : Executor :=
  mkExecutor (lib_poll_times (length (ex_tasks e)) (ex_tasks e)) (ex_current e).

(** The global executor, absent before [init_executor]. *)
Definition init_executor (_ : option Executor) : option Executor := Some Executor_new.
Definition spawn_task (future : F) (g : option Executor) : option Executor :=
  match g with Some e => Some (spawn (AsyncTask_new future) e) | None => None end.
Definition poll_executor (g : option Executor) : option Executor :=
  match g with Some e => Some (lib_poll_all e) | None => None end.
Definition preempt_executor (g : option Executor) : option Executor :=
  match g with Some e => Some (Executor_task_yield e) | None => None end.
End executor.
Arguments AsyncTask F : clear implicits.
Arguments Executor F : clear implicits.

(** The future of [yield_now]: pending once; waking the dummy waker is a no-op. *)
Definition YieldNow_new : bool := false.
Definition YieldNow_poll (yielded : bool) : bool * bool := if yielded then (true, yielded) else (false, true).

(* ------------------------------------------------------------------ *)
(** ** The cooperative scheduler (lib.rs) *)

Record Scheduler := mkScheduler {
  sc_tasks : list TaskCB;
  sc_current : Z;
}.

Definition Scheduler_new : Scheduler := mkScheduler [] 0.
Definition add_task (task : TaskCB) (s : Scheduler) : Scheduler :=
  mkScheduler (sc_tasks s ++ [task]) (sc_current s).
Definition task_count (s : Scheduler) : Z := zlen (sc_tasks s).

(** The loop [for i in 1..=count], from [i] on. *)
Fixpoint next_ready_from (fuel : nat) (i : Z) (s : Scheduler) : outcome (option Z) :=
  match fuel with
  | O => Done None
  | S fuel =>
      let k := (sc_current s ⊞ i) `mod` zlen (sc_tasks s) in
      t ← idx (sc_tasks s) k;
      if bool_decide (t_state t = Ready) then Done (Some k) else next_ready_from fuel (i + 1) s
  end.

Definition next_ready_task (s : Scheduler) : outcome (option Z) :=
  next_ready_from (length (sc_tasks s)) 1 s.

Definition pick_next (s : Scheduler) : outcome (option Z * Scheduler) :=
  t ← idx (sc_tasks s) (sc_current s);
  let s := if bool_decide (t_state t = Running)
           then mkScheduler (zset (sc_tasks s) (sc_current s) (set_state Ready t)) (sc_current s) else s in
  o ← next_ready_task s;
  match o with
  | Some k =>
      t ← idx (sc_tasks s) k;
      Done (Some k, mkScheduler (zset (sc_tasks s) k (set_state Running t)) (sc_current s))
  | None => Done (None, s)
  end.

(* ------------------------------------------------------------------ *)
(** ** The executors as queues *)

Section queue.
Context {F : Type} (poll : F → bool * F).
Implicit Types (e : Executor F).

(** One poll of one task: [None] when it finished. *)
Definition polled (t : AsyncTask F) : option (AsyncTask F) :=
  let '(ready, t) := AsyncTask_poll poll t in if ready then None else Some t.

(** The order in which the tasks are polled. *)
Definition rotation e : list (AsyncTask F) := zdrop (ex_current e) (ex_tasks e) ++ ztake (ex_current e) (ex_tasks e).

Definition exec_ok e : Prop :=
  0 ≤ ex_current e ∧ (ex_current e < zlen (ex_tasks e) ∨ ex_tasks e = [] ∧ ex_current e = 0).

Lemma rotation_at (A B : list (AsyncTask F)) : rotation (mkExecutor (A ++ B) (zlen A)) = B ++ A.
Proof.
  unfold rotation, zdrop, ztake, zlen. simpl. rewrite Nat2Z.id, drop_app_length, take_app_length. done.
Qed.

Lemma rotation_0 (A : list (AsyncTask F)) : rotation (mkExecutor A 0) = A.
Proof. unfold rotation, zdrop, ztake. simpl. apply app_nil_r. Qed.

Lemma rotation_split e t q :
  exec_ok e → rotation e = t :: q →
  ∃ A B, e = mkExecutor (A ++ t :: B) (zlen A) ∧ q = B ++ A.
Proof.
  intros [H0 Hc] Hr. destruct e as [ts c]. simpl in *. unfold rotation in Hr. simpl in Hr.
  destruct Hc as [Hc|[-> ->]]; [|done].
  assert (zlen (ztake c ts) = c) as HA by (apply zlen_ztake; lia).
  destruct (zdrop c ts) as [|x B] eqn:E.
  { assert (zlen (zdrop c ts) = zlen ts - c) by (apply zlen_zdrop; lia). rewrite E, zlen_nil in *. lia. }
  simpl in Hr. injection Hr as -> <-. exists (ztake c ts), B. split; [|done]. rewrite HA, <-E.
  f_equal. unfold ztake, zdrop. by rewrite take_drop.
Qed.

(** Either executor is a queue: poll the first, put it last if it is pending. *)
Lemma poll_next_rotation e t q :
  exec_ok e → rotation e = t :: q →
  exec_ok (poll_next_task poll e) ∧
  rotation (poll_next_task poll e) = q ++ option_list (polled t).
Proof.
  intros Hok Hr. destruct (rotation_split e t q Hok Hr) as (A & B & -> & ->). clear Hok Hr.
  pose proof (zlen_nonneg A). pose proof (zlen_nonneg B).
  assert (poll_next_task poll (mkExecutor (A ++ t :: B) (zlen A)) =
    let '(ready, t) := AsyncTask_poll poll t in
    if ready then mkExecutor (A ++ B) (if (zlen B =? 0) && negb (zlen A + zlen B =? 0) then 0 else zlen A)
    else mkExecutor (A ++ t :: B) ((zlen A + 1) `mod` (zlen A + zlen B + 1))) as ->.
  { unfold poll_next_task. simpl ex_tasks. simpl ex_current.
    assert (zget (A ++ t :: B) (zlen A) = Some t) as -> by (rewrite zget_app_r, Z.sub_diag by lia; done).
    assert (∀ x, zset (A ++ t :: B) (zlen A) x = A ++ x :: B) as Hset.
    { intros x. unfold zset, zlen. rewrite (proj2 (Z.leb_le _ _)), Nat2Z.id by lia.
      replace (length A) with (length A + 0)%nat by lia. by rewrite insert_app_r. }
    assert (∀ (X : Type) (l : list (AsyncTask F)) (x y : X), l ≠ [] → match l with [] => x | _ :: _ => y end = y)
      as Hm by (by intros ? []). rewrite Hm by (by destruct A). destruct (AsyncTask_poll poll t) as [ready t'].
    rewrite Hset. destruct ready.
    - assert (remove_at (zlen A) (A ++ t' :: B) = A ++ B) as ->.
      { unfold remove_at, ztake, zdrop, zlen. rewrite Nat2Z.id, take_app_length.
        replace (Z.to_nat (Z.of_nat (length A) + 1)) with (length A + 1)%nat by lia.
        by rewrite <-drop_drop, drop_app_length. }
      rewrite zlen_app. f_equal. destruct (Z.leb_spec (zlen A + zlen B) (zlen A)), (Z.eqb_spec (zlen B) 0); done || lia.
    - rewrite zlen_app, zlen_cons. do 2 f_equal. lia. }
  unfold polled. destruct (AsyncTask_poll poll t) as [ready t']. destruct ready; simpl.
  - rewrite app_nil_r. destruct B as [|b B].
    + change (zlen [] =? 0) with true. rewrite zlen_nil, Z.add_0_r, app_nil_r. simpl.
      destruct (Z.eqb_spec (zlen A) 0) as [E|]; simpl.
      * rewrite E, rotation_0. split; [|done]. split; [simpl; lia|]. right. simpl.
        destruct A; [done|]. rewrite zlen_cons in E. pose proof (zlen_nonneg A). lia.
      * rewrite rotation_0. split; [|done]. split; [simpl; lia|]. left. simpl. lia.
    + rewrite zlen_cons in *. destruct (Z.eqb_spec (zlen B + 1) 0); [pose proof (zlen_nonneg B); lia|]. simpl.
      rewrite rotation_at. split; [|done]. split; [done|]. left. simpl. rewrite zlen_app, zlen_cons.
      pose proof (zlen_nonneg B). lia.
  - destruct B as [|b B].
    + rewrite zlen_nil, Z.add_0_r, Z.mod_same, rotation_0 by lia. split; [|done]. split; [simpl; lia|].
      left. simpl. rewrite zlen_app, zlen_cons. pose proof (zlen_nonneg (@nil (AsyncTask F))). lia.
    + rewrite zlen_cons in *. pose proof (zlen_nonneg B). rewrite Z.mod_small by lia.
      replace (A ++ t' :: b :: B) with ((A ++ [t']) ++ b :: B) by (by rewrite <-(assoc_L (++))).
      replace (zlen A + 1) with (zlen (A ++ [t'])) by (by rewrite zlen_app).
      rewrite rotation_at. split; [|by rewrite (assoc_L (++))]. split; [apply zlen_nonneg|]. left. simpl.
      rewrite (zlen_app (A ++ [t'])), zlen_cons. lia.
Qed.

Lemma exec_empty e : exec_ok e → rotation e = [] → ex_tasks e = [].
Proof.
  intros _ Hr. unfold rotation in Hr. apply app_eq_nil in Hr as [H1 H2].
  rewrite <-(take_drop (Z.to_nat (ex_current e)) (ex_tasks e)). unfold ztake, zdrop in *. by rewrite H1, H2.
Qed.

Lemma rotation_length e : exec_ok e → length (rotation e) = length (ex_tasks e).
Proof.
  intros [H0 Hc]. unfold rotation. rewrite length_app. unfold zdrop, ztake. rewrite length_drop, length_take. lia.
Qed.

Lemma poll_times_rotation l : ∀ e r,
  exec_ok e → rotation e = l ++ r →
  exec_ok (poll_times poll (length l) e) ∧ rotation (poll_times poll (length l) e) = r ++ omap polled l.
Proof.
  induction l as [|t l IH]; intros e r Hok Hr; cbn [length poll_times]; [by rewrite app_nil_r|].
  destruct (poll_next_rotation e t (l ++ r) Hok Hr) as [Hok' Hr']. rewrite <-(assoc_L (++)) in Hr'.
  destruct (IH _ _ Hok' Hr') as [Hok'' Hr''].
  assert (r ++ omap polled (t :: l) = (r ++ option_list (polled t)) ++ omap polled l) as ->.
  { rewrite <-(assoc_L (++)). simpl. by destruct (polled t). }
  destruct (ex_tasks (poll_next_task poll e)) eqn:E; [|done]. split; [done|].
  destruct (l ++ r ++ option_list (polled t)) eqn:El; [|pose proof (rotation_length _ Hok') as Hl; by rewrite Hr', E in Hl].
  apply app_eq_nil in El as [-> El]. by rewrite Hr', El.
Qed.

Lemma lib_poll_times_queue l : ∀ r,
  lib_poll_times poll (length l) (l ++ r) = r ++ omap polled l.
Proof.
  induction l as [|t l IH]; intros r; simpl; [by rewrite app_nil_r|]. unfold polled at 1.
  destruct (AsyncTask_poll poll t) as [[] t']; [by rewrite IH|]. by rewrite <-(assoc_L (++)), IH, <-(assoc_L (++)).
Qed.

Lemma poll_all_rotation e :
  exec_ok e → exec_ok (poll_all poll e) ∧ rotation (poll_all poll e) = omap polled (rotation e).
Proof.
  intros Hok. unfold poll_all. rewrite <-rotation_length by done.
  by apply (poll_times_rotation (rotation e) e []); [|rewrite app_nil_r].
Qed.

(** The number of polls a future takes, at most. *)
Fixpoint done_within (n : nat) (f : F) : Prop :=
  match n with
  | O => False
  | S n => let '(ready, f) := poll f in ready = true ∨ done_within n f
  end.

Lemma polled_within n t :
  done_within (S n) (at_future t) → match polled t with None => True | Some t => done_within n (at_future t) end.
Proof.
  unfold polled, AsyncTask_poll. simpl. destruct (poll (at_future t)) as [ready f].
  by destruct ready; intros [|].
Qed.

Lemma poll_passes n : ∀ e,
  exec_ok e → Forall (λ t, done_within n (at_future t)) (rotation e) → ex_tasks (Nat.iter n (poll_all poll) e) = [].
Proof.
  induction n as [|n IH]; intros e Hok Hall.
  { simpl. apply exec_empty; [done|]. destruct (rotation e); [done|]. by apply Forall_cons in Hall as [[] _]. }
  rewrite Nat.iter_succ_r. destruct (poll_all_rotation e Hok) as [Hok' Hr]. apply IH; [done|]. rewrite Hr.
  clear -Hall. induction (rotation e) as [|t q IHq]; [done|]. apply Forall_cons in Hall as [Ht Hq].
  simpl. apply polled_within in Ht. destruct (polled t); [constructor|]; auto.
Qed.
End queue.

(** The two executors do the same: a pass over the tasks polls each of
    them exactly once, in queue order from the current one, keeps exactly the
    pending ones, in that order and with their new state; the executor that
    works with an index and removals and the one that rotates its queue agree.
    Hence tasks that finish within n polls, whatever they do in between, are
    all gone after n passes. *)
Theorem executors_agree {F} (poll : F → bool * F) (e : Executor F) :
  exec_ok e →
  exec_ok (poll_all poll e) ∧
  rotation (poll_all poll e) = omap (polled poll) (rotation e) ∧
  ex_tasks (lib_poll_all poll (mkExecutor (rotation e) 0)) = rotation (poll_all poll e) ∧
  (∀ n, Forall (λ t, done_within poll n (at_future t)) (ex_tasks e) → ex_tasks (Nat.iter n (poll_all poll) e) = []).
Proof.
  intros Hok. destruct (poll_all_rotation poll e Hok) as [Hok' Hr]. split_and!; [done|done| |].
  { rewrite Hr. simpl. pose proof (lib_poll_times_queue poll (rotation e) []) as Hl. by rewrite app_nil_r in Hl. }
  intros n Hall. apply poll_passes; [done|].
  unfold rotation, zdrop, ztake. apply Forall_app. split; [by apply Forall_drop|by apply Forall_take].
Qed.

(** Two tasks that yield once, on an executor that is in the middle of a pass. *)
Lemma executors_agree_witness :
  ex_tasks (Nat.iter 2 (poll_all YieldNow_poll)
    (mkExecutor [AsyncTask_new YieldNow_new; AsyncTask_new true] 1)) = [].
Proof.
  apply (executors_agree YieldNow_poll (mkExecutor [AsyncTask_new YieldNow_new; AsyncTask_new true] 1)).
  - split; [simpl; lia|]. left. vm_compute. reflexivity.
  - apply Forall_cons. split; [right; left; reflexivity|]. apply Forall_cons. split; [left; reflexivity|]. apply Forall_nil_2.
Defined.

(* ------------------------------------------------------------------ *)
(** ** The ring of the cooperative scheduler *)

Section ring.
Implicit Types (s : Scheduler).

Definition state_at s (k : Z) : option TaskState := t_state <$> zget (sc_tasks s) k.

Lemma next_ready_from_spec s fuel : ∀ i,
  0 ≤ sc_current s < zlen (sc_tasks s) → 1 ≤ i → zlen (sc_tasks s) < 2 ^ 63 → i + Z.of_nat fuel ≤ zlen (sc_tasks s) + 1 →
  let at_ j := (sc_current s + j) `mod` zlen (sc_tasks s) in
  ∃ o, next_ready_from fuel i s = Done o ∧
    match o with
    | Some k => ∃ j, i ≤ j < i + Z.of_nat fuel ∧ k = at_ j ∧ state_at s k = Some Ready ∧
                     ∀ j', i ≤ j' < j → state_at s (at_ j') ≠ Some Ready
    | None => ∀ j', i ≤ j' < i + Z.of_nat fuel → state_at s (at_ j') ≠ Some Ready
    end.
Proof.
  induction fuel as [|fuel IH]; intros i Hc Hi Hl Hf at_.
  { exists None. split; [done|]. intros j' Hj. simpl in *. lia. }
  cbn [next_ready_from]. rewrite wrap_small by (unfold is_uint; lia). fold (at_ i).
  destruct (zget_is_Some (sc_tasks s) (at_ i)) as [t Ht]; [apply Z.mod_pos_bound; lia|].
  rewrite (proj2 (idx_Done _ _ _) Ht). cbn [mbind outcome_bind].
  assert (state_at s (at_ i) = Some (t_state t)) as Hst by (unfold state_at; by rewrite Ht).
  case_bool_decide as Hr.
  - exists (Some (at_ i)). split; [done|]. exists i. rewrite Hst, Hr. split_and!; [lia|lia|done|done|]. intros; lia.
  - destruct (IH (i + 1)) as (o & -> & Ho); [done|lia|done|lia|]. exists o. split; [done|].
    assert (state_at s (at_ i) ≠ Some Ready) as Hne by (rewrite Hst; congruence).
    destruct o as [k|].
    + destruct Ho as (j & Hj & -> & Hk & Hlt). exists j. split_and!; [lia|lia|done|done|].
      intros j' Hj'. destruct (decide (j' = i)) as [->|]; [done|]. apply Hlt. lia.
    + intros j' Hj'. destruct (decide (j' = i)) as [->|]; [done|]. apply Ho. lia.
Qed.

(** A demoted current task, and the rest as they were. *)
Definition demoted (st : TaskState) : TaskState := match st with Running => Ready | st => st end.

(** The cooperative scheduler picks the nearest ready task after the current
    one, the current one last, and marks it running; it finds none only when
    no task is ready and the current one was not running. *)
Lemma pick_next_nearest s :
  0 ≤ sc_current s < zlen (sc_tasks s) → zlen (sc_tasks s) < 2 ^ 63 →
  let at_ j := (sc_current s + j) `mod` zlen (sc_tasks s) in
  let ready k := (if decide (k = sc_current s) then demoted <$> state_at s k else state_at s k) = Some Ready in
  ∃ o s', pick_next s = Done (o, s') ∧ sc_current s' = sc_current s ∧
    match o with
    | Some k => ∃ j, 1 ≤ j ≤ zlen (sc_tasks s) ∧ k = at_ j ∧ ready k ∧ (∀ j', 1 ≤ j' < j → ¬ ready (at_ j')) ∧
                     state_at s' k = Some Running
    | None => ∀ j, 1 ≤ j ≤ zlen (sc_tasks s) → ¬ ready (at_ j)
    end.
Proof.
  intros Hc Hl at_ ready. unfold pick_next. destruct (zget_is_Some _ _ Hc) as [t Ht].
  rewrite (proj2 (idx_Done _ _ _) Ht). cbn [mbind outcome_bind].
  set (s1 := if bool_decide _ then _ else s).
  assert (sc_current s1 = sc_current s ∧ zlen (sc_tasks s1) = zlen (sc_tasks s) ∧
    ∀ k, state_at s1 k = if decide (k = sc_current s) then demoted <$> state_at s k else state_at s k) as (Ec & El & Est).
  { subst s1. case_bool_decide as Hr; simpl; rewrite ?zlen_zset; (split; [done|split; [done|]]); intros k; unfold state_at; simpl;
      destruct (decide (k = sc_current s)) as [->|]; try done.
    - rewrite zget_zset_eq, Ht by done. simpl. by rewrite Hr.
    - by rewrite zget_zset_ne.
    - rewrite Ht. simpl. by destruct (t_state t). }
  destruct (next_ready_from_spec s1 (length (sc_tasks s1)) 1) as (o & E & Ho);
    [lia|lia|lia|unfold zlen; lia|]. unfold next_ready_task. rewrite E. cbn [mbind outcome_bind].
  rewrite Ec, El in Ho. fold (zlen (sc_tasks s1)) in Ho. rewrite El in Ho.
  assert (∀ k, state_at s1 k = Some Ready ↔ ready k) as Hready by (intros k; unfold ready; by rewrite Est).
  destruct o as [k|].
  - destruct Ho as (j & Hj & -> & Hk & Hlt).
    assert (0 ≤ (sc_current s + j) `mod` zlen (sc_tasks s) < zlen (sc_tasks s1)) as Hin
      by (rewrite El; apply Z.mod_pos_bound; lia).
    destruct (zget_is_Some _ _ Hin) as [t' Ht']. rewrite (proj2 (idx_Done _ _ _) Ht'). cbn [mbind outcome_bind].
    eexists _, _. split; [done|]. split; [done|]. exists j. rewrite <-Hready. split_and!; [lia|lia|done|done| |].
    + intros j' Hj'. rewrite <-Hready. by apply Hlt.
    + unfold state_at. simpl. by rewrite zget_zset_eq.
  - eexists _, _. split; [done|]. split; [done|]. intros j Hj. rewrite <-Hready. apply Ho. lia.
Qed.
End ring.
