(* ===== verification/Coop.v ===== *)
(** * Building tasks and starting the cooperative scheduler (task/src/lib.rs)

    [TaskBuilder] and the entry of the cooperative scheduler, on the ring of tasks of
    Executor: [start] saves the caller's registers in the current task and loads
    the next one's.

    Shown here: with two tasks or more, [start] runs the next one where its builder
    put it, and the caller is resumed by a switch to the current one; with a single
    task it returns to its caller, which panics; every task that is built has the
    same stack. *)

From S2P Require Import Prelude Task Executor.

Record TaskBuilder := mkTaskBuilder {
  tb_name : string;
  tb_sched_class : SchedClass;
  tb_stack_size : Z;
}.

Definition TaskBuilder_new (name : string) : TaskBuilder := mkTaskBuilder name SchedClass_default 8192.
Definition TaskBuilder_sched_class (sched_class : SchedClass) (b : TaskBuilder) : TaskBuilder :=
  mkTaskBuilder (tb_name b) sched_class (tb_stack_size b).
Definition TaskBuilder_stack_size (size : Z) (b : TaskBuilder) : TaskBuilder :=
  mkTaskBuilder (tb_name b) (tb_sched_class b) size.

Definition BUILDER_STACK_BASE : Z := 0xFFFFFF8000000000.

(** [VirtAddr_new] checks an address, as in Process. *)
Definition build_kernel_task (VirtAddr_new : Z → outcome Z) (entry_point : Z) (b : TaskBuilder) (s : sched)
    : outcome (TaskCB * sched) :=
  stack_base ← VirtAddr_new BUILDER_STACK_BASE;
  stack_top ← VirtAddr_new (stack_base + tb_stack_size b);
  Done (TaskCB_new (tb_name b) entry_point stack_top (tb_sched_class b) s).

(** The global scheduler, a [Once]. *)
Definition Scheduler_init_global (g : option Scheduler) : option Scheduler :=
  match g with Some s => Some s | None => Some Scheduler_new end.
Definition Scheduler_global (g : option Scheduler) : outcome Scheduler := unwrap g.

Definition set_task_state (i : Z) (st : TaskState) (tasks : list TaskCB) : outcome (list TaskCB) :=
  t ← idx tasks i; Done (zset tasks i (set_state st t)).

(** Up to the switch: the scheduler, and the registers after it.  [c] are the
    caller's, with the address behind the switch in RIP; an execution that comes
    back there panics. *)
Definition Scheduler_start (g : option Scheduler) (c : cpu) : outcome (Scheduler * cpu) :=
  scheduler ← Scheduler_global g;
  if bool_decide (sc_tasks scheduler = []) then Panic
  else
    let current_idx := sc_current scheduler in
    let next_idx := (current_idx ⊞ 1) `mod` zlen (sc_tasks scheduler) in
    tasks ← set_task_state current_idx Ready (sc_tasks scheduler);
    tasks ← set_task_state next_idx Running tasks;
    old ← idx tasks current_idx;
    let tasks := zset tasks current_idx (set_context (save_context c (t_context old)) old) in
    new ← idx tasks next_idx;
    Done (mkScheduler tasks next_idx, load_context (t_context new) c).

(* ------------------------------------------------------------------ *)
(** ** What starting does *)

(** Loading what was just saved changes nothing. *)
Lemma save_load c x : load_context (save_context c x) c = c.
Proof. destruct c. unfold load_context, save_context. simpl. by destruct (Z.eqb_spec c_cr3 0); subst. Qed.

Lemma set_task_state_Done i st tasks t :
  zget tasks i = Some t → set_task_state i st tasks = Done (zset tasks i (set_state st t)).
Proof. intros Ht. unfold set_task_state. by rewrite (proj2 (idx_Done _ _ _) Ht). Qed.

(** [start] panics on an empty list of tasks.  With several it makes the one after
    the current one, round the ring, the running one, and the CPU continues from that
    task's context; the current task is left ready, and a later switch to it gives
    the caller its registers back. *)
Lemma start_runs_next scheduler c :
  0 ≤ sc_current scheduler < zlen (sc_tasks scheduler) → 2 ≤ zlen (sc_tasks scheduler) < 2 ^ 63 →
  let next := (sc_current scheduler + 1) `mod` zlen (sc_tasks scheduler) in
  ∃ old new s' c' old', zget (sc_tasks scheduler) (sc_current scheduler) = Some old ∧ zget (sc_tasks scheduler) next = Some new ∧
    Scheduler_start (Some scheduler) c = Done (s', c') ∧ c' = load_context (t_context new) c ∧
    sc_current s' = next ∧ zlen (sc_tasks s') = zlen (sc_tasks scheduler) ∧
    zget (sc_tasks s') next = Some (set_state Running new) ∧
    zget (sc_tasks s') (sc_current scheduler) = Some old' ∧ t_state old' = Ready ∧
    (∀ c2, c_cr3 c ≠ 0 → load_context (t_context old') c2 = c) ∧
    ∀ i, i ≠ sc_current scheduler → i ≠ next → zget (sc_tasks s') i = zget (sc_tasks scheduler) i.
Proof.
  destruct scheduler as [tasks cur]. cbn [sc_tasks sc_current]. intros Hc Hl. set (next := (cur + 1) `mod` zlen tasks).
  assert (0 ≤ next < zlen tasks) as Hn by (apply Z.mod_pos_bound; lia).
  assert (next ≠ cur) as Hne.
  { unfold next. destruct (decide (cur + 1 = zlen tasks)) as [E|]; [rewrite E, Z_mod_same_full; lia|rewrite Z.mod_small; lia]. }
  destruct (zget_is_Some _ _ Hc) as [old Ho]. destruct (zget_is_Some _ _ Hn) as [new Hw].
  exists old, new. unfold Scheduler_start. cbn [Scheduler_global unwrap mbind outcome_bind sc_tasks sc_current].
  rewrite bool_decide_eq_false_2 by (intros ->; unfold zlen in *; simpl in *; lia).
  rewrite wrap_small by (split; lia). fold next. rewrite (set_task_state_Done _ _ _ old Ho). cbn [mbind outcome_bind].
  rewrite (set_task_state_Done next Running _ new) by (by rewrite zget_zset_ne). cbn [mbind outcome_bind].
  rewrite (proj2 (idx_Done _ cur (set_state Ready old))) by (by rewrite zget_zset_ne, zget_zset_eq).
  cbn [mbind outcome_bind].
  rewrite (proj2 (idx_Done _ next (set_state Running new))) by (rewrite zget_zset_ne, zget_zset_eq by (by rewrite ?zlen_zset); done).
  cbn [mbind outcome_bind]. eexists _, _, _. split; [done|]. split; [done|]. split; [done|]. cbn [sc_tasks sc_current].
  split; [done|]. split; [done|]. rewrite !zlen_zset. split; [done|].
  split; [rewrite zget_zset_ne, zget_zset_eq by (by rewrite ?zlen_zset); done|].
  split; [rewrite zget_zset_eq by (by rewrite !zlen_zset); done|]. split; [done|]. split.
  - intros c2 Hz. destruct c. unfold load_context, save_context. simpl in *. by destruct (Z.eqb_spec c_cr3 0).
  - intros i Hi Hi'. by rewrite !zget_zset_ne.
Qed.

(** With a single task the switch goes from its context to itself: [start] returns to
    its caller, with every register as it was, and panics. *)
Lemma start_single_returns t c :
  ∃ s', Scheduler_start (Some (add_task t Scheduler_new)) c = Done (s', c).
Proof.
  eexists. transitivity (Done (mkScheduler [set_context (save_context c (t_context t)) (set_state Running (set_state Ready t))] 0,
    load_context (save_context c (t_context t)) c)); [reflexivity|]. by rewrite save_load.
Qed.

(** All tasks that are built with one stack size have one stack. *)
Lemma built_tasks_share_stack VirtAddr_new e1 e2 b1 b2 s t1 s1 t2 s2 :
  build_kernel_task VirtAddr_new e1 b1 s = Done (t1, s1) → build_kernel_task VirtAddr_new e2 b2 s1 = Done (t2, s2) →
  tb_stack_size b1 = tb_stack_size b2 → x_rsp (t_context t1) = x_rsp (t_context t2) ∧ t_kstack t1 = t_kstack t2.
Proof.
  unfold build_kernel_task. intros E1 E2 Hs. rewrite Hs in E1.
  destruct (VirtAddr_new BUILDER_STACK_BASE); [|done]. cbn [mbind outcome_bind] in *.
  destruct (VirtAddr_new _); [|done]. cbn [mbind outcome_bind] in *. unfold TaskCB_new in *.
  destruct (TaskId_new s), (TaskId_new s1). by simplify_eq/=.
Qed.
