(* ===== verification/Capability.v ===== *)
(** * Capabilities (capability/src/{types,store}.rs)

    Handles are 128-bit keys drawn from a xorshift generator seeded with the
    timestamp counter; the store maps keys to capabilities.

    Shown here: different timestamps give different keys, although the second
    half of a key is a function of the first; a stored capability is returned,
    unchanged, until its own key is removed. *)

From S2P Require Import Prelude.

Inductive CapabilityType := CapTask | MemoryRegion | IODevice | FileDescriptor.

Record CapabilityHandle := mkHandle { h_key : list Z }.

Record Capability := mkCapability {
  cap_type : CapabilityType;
  cap_handle : CapabilityHandle;
}.

Definition CapabilityHandle_new (key : list Z) : CapabilityHandle := mkHandle key.

(** [*s ^= *s << 13; *s ^= *s >> 17; *s ^= *s << 5]. *)
Definition shl_step (k s : Z) : Z := Z.lxor s (wrap 64 (Z.shiftl s k)).
Definition shr_step (k s : Z) : Z := Z.lxor s (Z.shiftr s k).
Definition rng (s : Z) : Z := shl_step 5 (shr_step 17 (shl_step 13 s)).

(** [seed] is the value of the timestamp counter. *)
Definition generate (seed : Z) : outcome CapabilityHandle :=
  '(_, key) ← for_each (seqZ 0 2)
    (λ i '(s, key),
      let s := rng s in
      let bytes := to_le 8 s in
      key ← for_each (seqZ 0 8) (λ j key, b ← idx bytes j; upd key (i * 8 + j) b) key;
      Done (s, key)) (seed, zrep 16 0);
  Done (mkHandle key).

(** The map behind the mutex. *)
Definition CapabilityStore : Type := gmap (list Z) Capability.
Definition CapabilityStore_new : CapabilityStore := ∅.

Definition add_capability (cap : Capability) (s : CapabilityStore) : bool * CapabilityStore :=
  if bool_decide (is_Some ((s : gmap (list Z) Capability) !! h_key (cap_handle cap))) then (false, s)
  else (true, <[h_key (cap_handle cap) := cap]> (s : gmap (list Z) Capability)).

Definition get_capability (key : list Z) (s : CapabilityStore) : option Capability :=
  (s : gmap (list Z) Capability) !! key.

Definition remove_capability (key : list Z) (s : CapabilityStore) : bool * CapabilityStore :=
  (bool_decide (is_Some ((s : gmap (list Z) Capability) !! key)), delete key (s : gmap (list Z) Capability)).

(* ------------------------------------------------------------------ *)
(** ** The generator is injective *)

Section rng.
(** A word is its low bits. *)
Lemma uint_bits w a b : 0 ≤ w → is_uint w a → is_uint w b → (∀ n, 0 ≤ n < w → Z.testbit a n = Z.testbit b n) → a = b.
Proof.
  intros Hw Ha Hb Hbits. rewrite <-(wrap_small w a), <-(wrap_small w b) by done. unfold wrap.
  apply Z.bits_inj'. intros n Hn. destruct (decide (n < w)).
  - rewrite !Z.mod_pow2_bits_low by lia. by apply Hbits.
  - by rewrite !Z.mod_pow2_bits_high by lia.
Qed.

Lemma lxor_uint a b : is_uint 64 a → is_uint 64 b → is_uint 64 (Z.lxor a b).
Proof.
  intros [? ?] [? ?]. split; [by apply Z.lxor_nonneg|].
  destruct (decide (Z.lxor a b = 0)) as [->|]; [lia|].
  assert (0 ≤ Z.lxor a b) by (by apply Z.lxor_nonneg).
  apply Z.log2_lt_pow2; [lia|]. pose proof (Z.log2_lxor a b ltac:(done) ltac:(done)).
  assert (∀ x, 0 ≤ x < 2 ^ 64 → Z.log2 x < 64) as Hlog.
  { intros x Hx. destruct (decide (x = 0)) as [->|]; [simpl; lia|]. apply Z.log2_lt_pow2; lia. }
  pose proof (Hlog a ltac:(lia)). pose proof (Hlog b ltac:(lia)). lia.
Qed.

Lemma shl_step_uint k s : is_uint 64 s → is_uint 64 (shl_step k s).
Proof. intros. apply lxor_uint; [done|]. apply wrap_range. lia. Qed.

Lemma shr_step_uint k s : 0 ≤ k → is_uint 64 s → is_uint 64 (shr_step k s).
Proof.
  intros Hk Hs. apply lxor_uint; [done|]. rewrite Z.shiftr_div_pow2 by done. destruct Hs.
  split; [apply Z.div_pos; lia|]. apply Z.le_lt_trans with s; [|done].
  apply Z.div_le_upper_bound; [lia|]. nia.
Qed.

Lemma shl_step_bit k s n :
  0 < k → 0 ≤ n < 64 → Z.testbit (shl_step k s) n = xorb (Z.testbit s n) (if n <? k then false else Z.testbit s (n - k)).
Proof.
  intros Hk Hn. unfold shl_step, wrap. rewrite Z.lxor_spec, Z.mod_pow2_bits_low, Z.shiftl_spec by lia.
  f_equal. destruct (Z.ltb_spec n k); [|done]. apply Z.testbit_neg_r. lia.
Qed.

Lemma shl_step_inj k a b : 0 < k → is_uint 64 a → is_uint 64 b → shl_step k a = shl_step k b → a = b.
Proof.
  intros Hk Ha Hb E. apply (uint_bits 64); [lia|done|done|]. intros n. 
  destruct (decide (0 ≤ n)) as [Hn|]; [|lia]. revert n Hn. apply (Zlt_0_ind (λ n, 0 ≤ n < 64 → _)).
  intros n IH _ Hn. assert (Z.testbit (shl_step k a) n = Z.testbit (shl_step k b) n) as Eb by (by rewrite E).
  rewrite !shl_step_bit in Eb by done. destruct (Z.ltb_spec n k).
  - by rewrite !xorb_false_r in Eb.
  - rewrite (IH (n - k)) in Eb by lia. by apply xorb_move_l_r_2 in Eb; rewrite xorb_assoc, xorb_nilpotent, xorb_false_r in Eb.
Qed.

Lemma shr_step_inj k a b : 0 < k → is_uint 64 a → is_uint 64 b → shr_step k a = shr_step k b → a = b.
Proof.
  intros Hk Ha Hb E. apply (uint_bits 64); [lia|done|done|]. intros n Hn.
  assert (∀ x n, is_uint 64 x → 64 ≤ n → Z.testbit x n = false) as Hhigh.
  { intros x m Hx Hm. rewrite <-(wrap_small 64 x) by done. unfold wrap. apply Z.mod_pow2_bits_high. lia. }
  assert (∀ m i, 0 ≤ i → 64 - i ≤ Z.of_nat m → Z.testbit a i = Z.testbit b i) as Hall; [|by apply (Hall 64%nat); lia].
  induction m as [|m IH]; intros i Hi Him; [by rewrite !Hhigh by (done || lia)|].
  assert (Z.testbit (shr_step k a) i = Z.testbit (shr_step k b) i) as Eb by (by rewrite E).
  unfold shr_step in Eb. rewrite !Z.lxor_spec, !Z.shiftr_spec, (IH (i + k)) in Eb by lia.
  by apply xorb_move_l_r_2 in Eb; rewrite xorb_assoc, xorb_nilpotent, xorb_false_r in Eb.
Qed.

Lemma rng_uint s : is_uint 64 s → is_uint 64 (rng s).
Proof. intros. unfold rng. apply shl_step_uint, shr_step_uint, shl_step_uint; [lia|done]. Qed.

Lemma rng_inj a b : is_uint 64 a → is_uint 64 b → rng a = rng b → a = b.
Proof.
  intros Ha Hb E. unfold rng in E.
  apply shl_step_inj in E; [|lia|apply shr_step_uint, shl_step_uint; [lia|done]..].
  apply shr_step_inj in E; [|lia|by apply shl_step_uint..]. by apply shl_step_inj in E.
Qed.

Lemma to_le_inj n a b : 0 ≤ n → is_uint (n * 8) a → is_uint (n * 8) b → to_le n a = to_le n b → a = b.
Proof. intros Hn Ha Hb E. rewrite <-(from_le_to_le n a), <-(from_le_to_le n b) by done. by rewrite E. Qed.

(** The loops write the two words one after the other. *)
Lemma copy_word (i : Z) (bytes key : list Z) :
  zlen bytes = 8 → 0 ≤ i → i * 8 + 8 ≤ zlen key →
  for_each (seqZ 0 8) (λ j key, b ← idx bytes j; upd key (i * 8 + j) b) key = Done (zsplice key (i * 8) bytes).
Proof.
  intros Hb Hi Hk.
  assert (∀ m, 0 ≤ m → m ≤ 8 → for_each (seqZ 0 m) (λ j key, b ← idx bytes j; upd key (i * 8 + j) b) key =
    Done (zsplice key (i * 8) (ztake m bytes))) as Hm.
  { apply (natlike_ind (λ m, m ≤ 8 → _)).
    - intros _. change (ztake 0 bytes) with (@nil Z). by rewrite zsplice_nil.
    - intros m Hm IH Hle. rewrite <-Z.add_1_r, seqZ_snoc, for_each_app, IH, Z.add_0_l by lia.
      cbn [mbind outcome_bind for_each]. destruct (zget_is_Some bytes m) as [b Eb]; [lia|].
      rewrite (proj2 (idx_Done _ _ _) Eb). cbn [mbind outcome_bind].
      assert (zlen (ztake m bytes) = m) as Hz by (apply zlen_ztake; lia).
      rewrite upd_Done by (rewrite zlen_zsplice; lia). cbn [mbind outcome_bind]. f_equal.
      rewrite zset_splice by (rewrite zlen_zsplice; lia).
      rewrite zsplice_next by (rewrite ?Hz, ?zlen_cons, ?zlen_nil; lia). f_equal.
      unfold ztake, zget in *. rewrite (proj2 (Z.leb_le 0 m)) in Eb by done.
      replace (Z.to_nat (m + 1)) with (S (Z.to_nat m)) by lia. by rewrite (take_S_r _ _ b). }
  rewrite Hm by lia. unfold ztake. rewrite <-Hb. unfold zlen. by rewrite Nat2Z.id, firstn_all.
Qed.

Lemma generate_key seed : generate seed = Done (mkHandle (to_le 8 (rng seed) ++ to_le 8 (rng (rng seed)))).
Proof.
  unfold generate. change (seqZ 0 2) with [0; 1]. cbn [for_each].
  assert (∀ s, zlen (to_le 8 s) = 8) as Hl by (intros; apply zlen_to_le; lia).
  assert (zlen (zrep 16 0) = 16) as Hz by (apply zlen_zrep; lia).
  rewrite copy_word by (rewrite ?Hl, ?Hz; lia). cbn [mbind outcome_bind].
  rewrite copy_word by (rewrite ?zlen_zsplice; rewrite ?Hl, ?Hz; lia). cbn [mbind outcome_bind].
  rewrite zsplice_next by (rewrite ?Hl, ?Hz; lia).
  by rewrite zsplice_full by (rewrite zlen_app, !Hl, Hz; lia).
Qed.
End rng.

(** Handles do not collide: two calls of [generate] at different values of
    the timestamp counter give different keys, both 16 bytes long.  But a key
    carries the entropy of one word: its second half is a fixed function of its
    first half, whatever the seed. *)
Theorem handles_distinct (s1 s2 : Z) :
  is_uint 64 s1 → is_uint 64 s2 →
  ∃ k1 k2, generate s1 = Done (mkHandle k1) ∧ generate s2 = Done (mkHandle k2) ∧
    zlen k1 = 16 ∧ (k1 = k2 → s1 = s2) ∧
    zdrop 8 k1 = to_le 8 (rng (from_le (ztake 8 k1))).
Proof.
  intros H1 H2. rewrite !generate_key. eexists _, _. split; [done|]. split; [done|].
  assert (∀ s, zlen (to_le 8 s) = 8) as Hl by (intros; apply zlen_to_le; lia).
  assert (∀ s, length (to_le 8 s) = 8%nat) as Hn by (intros s; specialize (Hl s); unfold zlen in Hl; lia).
  split; [by rewrite zlen_app, !Hl|]. split.
  - intros E. apply app_inj_1 in E as [E _]; [|by rewrite !Hn].
    apply to_le_inj in E; [|lia|by apply rng_uint..]. by apply rng_inj in E.
  - unfold zdrop, ztake. change (Z.to_nat 8) with 8%nat.
    rewrite drop_app_length', take_app_length' by (by rewrite Hn).
    by rewrite from_le_to_le by (lia || by apply rng_uint).
Qed.

Lemma handles_distinct_witness :
  ∃ k1 k2, generate 1 = Done (mkHandle k1) ∧ generate 2 = Done (mkHandle k2) ∧ (k1 = k2 → 1 = 2).
Proof.
  destruct (handles_distinct 1 2) as (k1 & k2 & E1 & E2 & _ & Hne & _); [vm_compute; split; [discriminate|reflexivity]..|].
  exists k1, k2. split; [exact E1|]. split; [exact E2|exact Hne].
Defined.

(* ------------------------------------------------------------------ *)
(** ** The store *)

Inductive cap_op := CapAdd (c : Capability) | CapGet (k : list Z) | CapRemove (k : list Z).

Definition cap_do (s : CapabilityStore) (op : cap_op) : CapabilityStore :=
  match op with
  | CapAdd c => (add_capability c s).2
  | CapGet _ => s
  | CapRemove k => (remove_capability k s).2
  end.

(** The store keeps what it was given.  Adding succeeds exactly for a key
    that is not in use, and then a lookup returns that capability; it keeps
    doing so through any further operations that do not remove that key, in
    particular additions under the same key; removing reports whether the key
    was there, and afterwards it is not.  Every capability in the store is
    filed under the key of its own handle. *)
Theorem capability_store_keeps (ops0 ops : list cap_op) (cap : Capability) :
  let key := h_key (cap_handle cap) in
  let s := foldl cap_do CapabilityStore_new ops0 in
  (∀ k c, get_capability k s = Some c → h_key (cap_handle c) = k) ∧
  ((add_capability cap s).1 = false ↔ is_Some (get_capability key s)) ∧
  ((add_capability cap s).1 = true → CapRemove key ∉ ops →
     get_capability key (foldl cap_do (add_capability cap s).2 ops) = Some cap) ∧
  ((remove_capability key s).1 = true ↔ is_Some (get_capability key s)) ∧
  get_capability key (remove_capability key s).2 = None.
Proof.
  intros key s. unfold get_capability, CapabilityStore in *. split.
  { assert (∀ ops (m : gmap (list Z) Capability), (∀ k c, m !! k = Some c → h_key (cap_handle c) = k) →
      ∀ k c, (foldl cap_do m ops : gmap (list Z) Capability) !! k = Some c → h_key (cap_handle c) = k) as Hinv.
    { clear. induction ops as [|op ops IH]; intros m Hm; [done|]. apply IH. intros k c. destruct op as [c0|k0|k0]; simpl.
      - unfold add_capability. case_bool_decide; [apply Hm|]. simpl. rewrite lookup_insert_Some.
        intros [[<- <-]|[_ ?]]; [done|by apply Hm].
      - apply Hm.
      - rewrite lookup_delete_Some. intros [_ ?]. by apply Hm. }
    apply Hinv. unfold CapabilityStore_new. intros k c Hk.
    assert ((∅ : gmap (list Z) Capability) !! k = Some c) as Hk' by exact Hk. by rewrite lookup_empty in Hk'. }
  split. { unfold add_capability. case_bool_decide; simpl; naive_solver. }
  split.
  { unfold add_capability. case_bool_decide as Hs; [done|]. simpl. intros _ Hno. fold key.
    assert (∀ (m : gmap (list Z) Capability), m !! key = Some cap →
      (foldl cap_do m ops : gmap (list Z) Capability) !! key = Some cap) as Hk; [|apply Hk, lookup_insert_eq].
    clear -Hno. induction ops as [|op ops IH]; intros m Hm; [done|]. apply not_elem_of_cons in Hno as [Hop Hno].
    apply IH; [done|]. destruct op as [c0|k0|k0]; simpl; [|done|].
    - unfold add_capability. case_bool_decide as Hd; [done|]. simpl. rewrite lookup_insert_ne; [done|].
      intros E. apply Hd. rewrite E, Hm. eauto.
    - rewrite lookup_delete_ne; [done|]. by intros ->. }
  split; [unfold remove_capability; simpl; apply bool_decide_eq_true|]. simpl. apply lookup_delete_eq.
Qed.

Lemma capability_store_keeps_witness :
  let cap := mkCapability CapTask (mkHandle [7]) in
  get_capability [7] (foldl cap_do (add_capability cap CapabilityStore_new).2
    [CapAdd (mkCapability IODevice (mkHandle [7])); CapRemove [8]]) = Some cap.
Proof.
  intros cap.
  destruct (capability_store_keeps [] [CapAdd (mkCapability IODevice (mkHandle [7])); CapRemove [8]] cap)
    as (_ & _ & Hk & _).
  apply Hk; [reflexivity|]. intros Hin. apply elem_of_cons in Hin as [Hin|Hin]; [discriminate Hin|].
  apply elem_of_cons in Hin as [Hin|Hin]; [discriminate Hin|]. by apply elem_of_nil in Hin.
Defined.
