(* ===== verification/Fat32.v ===== *)
(** * FAT32 (fs/src/fat32/mod.rs)

    The driver as it is written: the BIOS parameter block, the allocation
    table, directory scanning and creation with long names, file access, and
    the nodes the VFS sees.  The driver reaches the global VirtIO device
    itself and ignores the result of every transfer: a failed read leaves the
    buffer as it was.  The size of an open file lives in the node
    ([Mutex<u32>]): two nodes of one file have two sizes.

    Loops over the table have no bound in the code.  A chain still going after
    [2^28] clusters has revisited one and grows its vector until the heap is
    exhausted; that run is a [Panic] here ([loop_end]).  The theorems are in
    Fat32Table, Fat32File and Fat32Dir. *)

From S2P Require Import Prelude BlockDev Vfs.

Definition SECTOR_SIZE : Z := 512.
Definition FAT32_EOC : Z := 0x0FFFFFF8.
Definition FAT32_FREE : Z := 0.
Definition FAT32_MASK : Z := 0x0FFFFFFF.
Definition DIR_ENTRY_SIZE : Z := 32.
Definition ATTR_READ_ONLY : Z := 1.
Definition ATTR_HIDDEN : Z := 2.
Definition ATTR_SYSTEM : Z := 4.
Definition ATTR_VOLUME_ID : Z := 8.
Definition ATTR_DIRECTORY : Z := 16.
Definition ATTR_ARCHIVE : Z := 32.
Definition ATTR_LFN : Z :=
  Z.lor (Z.lor (Z.lor ATTR_READ_ONLY ATTR_HIDDEN) ATTR_SYSTEM) ATTR_VOLUME_ID.

(** The bytes of ["FAT32   "]. *)
Definition FAT32_SIGNATURE : list Z := [70; 65; 84; 51; 50; 32; 32; 32].
Definition FAT_DOT : Z := 46.
Definition SPACE : Z := 32.

(** Time and date words from the timer's tick count. *)
Definition fat32_timestamp (ticks : Z) : Z * Z :=
  let secs := ticks `div` 625 in
  let hours := (secs `div` 3600) `mod` 24 in
  let minutes := (secs `div` 60) `mod` 60 in
  let two_secs := (secs `mod` 60) `div` 2 in
  (wrap 16 (Z.lor (Z.lor (hours ≪ 11) (minutes ≪ 5)) two_secs), Z.lor (Z.lor (0 ≪ 9) (1 ≪ 5)) 1).

(* ------------------------------------------------------------------ *)
(** ** The BIOS parameter block *)

Record Bpb := mkBpb {
  bytes_per_sector : Z;
  sectors_per_cluster : Z;
  reserved_sectors : Z;
  fat_count : Z;
  total_sectors : Z;
  sectors_per_fat : Z;
  root_cluster : Z;
}.

Definition Bpb_parse (buf : list Z) : outcome (option Bpb) :=
  b510 ← idx buf 510;
  b511 ← idx buf 511;
  if negb (b510 =? 0x55) || negb (b511 =? 0xAA) then Done None
  else
    bytes_per_sector ← le_at 2 buf 11;
    sectors_per_cluster ← idx buf 13;
    reserved_sectors ← le_at 2 buf 14;
    fat_count ← idx buf 16;
    total_sectors_16 ← le_at 2 buf 19;
    sectors_per_fat_16 ← le_at 2 buf 22;
    total_sectors_32 ← le_at 4 buf 32;
    sectors_per_fat_32 ← le_at 4 buf 36;
    root_cluster ← le_at 4 buf 44;
    let sectors_per_fat := if sectors_per_fat_16 =? 0 then sectors_per_fat_32 else sectors_per_fat_16 in
    let total_sectors := if total_sectors_16 =? 0 then total_sectors_32 else total_sectors_16 in
    if (bytes_per_sector =? 0) || (sectors_per_cluster =? 0) || (fat_count =? 0) || (sectors_per_fat =? 0)
    then Done None
    else
      signature ← slice buf 82 90;
      if negb (bool_decide (signature = FAT32_SIGNATURE)) then Done None
      else Done (Some (mkBpb bytes_per_sector sectors_per_cluster reserved_sectors fat_count
                             total_sectors sectors_per_fat root_cluster)).

(** 64-bit arithmetic on narrower fields; only [cluster - 2] can wrap. *)
Definition fat_start_sector (b : Bpb) : Z := reserved_sectors b.
Definition data_start_sector (b : Bpb) : Z := reserved_sectors b + fat_count b * sectors_per_fat b.
Definition cluster_to_sector (b : Bpb) (cluster : Z) : Z :=
  data_start_sector b ⊞ ((cluster ⊟ 2) ⊠ sectors_per_cluster b).
Definition cluster_size_bytes (b : Bpb) : Z := sectors_per_cluster b * SECTOR_SIZE.
Definition fat_sector_for (b : Bpb) (cluster : Z) : Z :=
  fat_start_sector b + (cluster * 4) `div` SECTOR_SIZE.
Definition fat_offset_in_sector (cluster : Z) : Z := (cluster * 4) `mod` SECTOR_SIZE.

(* ------------------------------------------------------------------ *)
(** ** Names *)

(** [trim_end_matches(' ')]. *)
Definition trim_spaces (s : str) : str :=
  reverse ((fix go l := match l with c :: l' => if c =? SPACE then go l' else l | [] => [] end) (reverse s)).

Definition lfn_positions : list Z := [1; 3; 5; 7; 9; 14; 16; 18; 20; 22; 24; 28; 30].

Definition read_lfn_chars (raw : list Z) : outcome (list Z) :=
  for_each lfn_positions (λ off chars, c ← le_at 2 raw off; Done (chars ++ [c])) [].

Definition parse_sfn (raw : list Z) : outcome str :=
  n ← slice raw 0 8;
  e ← slice raw 8 11;
  let name := trim_spaces (if utf8_valid n then n else []) in
  let ext := trim_spaces (if utf8_valid e then e else []) in
  Done (if bool_decide (ext = []) then name else name ++ [FAT_DOT] ++ ext).

(** [rfind('.')]: the parts before and after the last dot. *)
Fixpoint split_last_dot (s : str) : option (str * str) :=
  match s with
  | [] => None
  | c :: s =>
      match split_last_dot s with
      | Some (base, ext) => Some (c :: base, ext)
      | None => if c =? FAT_DOT then Some ([], s) else None
      end
  end.

(** The characters a short name may not hold: space, dot, and
    the other punctuation of the list, all of them ASCII. *)
Definition sfn_invalid (c : Z) : bool :=
  bool_decide (c ∈ [32; 46; 34; 42; 43; 44; 47; 58; 59; 60; 61; 62; 63; 91; 92; 93; 124]).

Definition build_sfn (name : str) : option (list Z) :=
  let '(base, ext) := match split_last_dot name with Some p => p | None => (name, []) end in
  if bool_decide (base = []) || (8 <? zlen base) || (3 <? zlen ext) then None
  else if existsb sfn_invalid base || existsb sfn_invalid ext then None
  else Some (zsplice (zsplice (zrep 11 SPACE) 0 (map ascii_upper base)) 8 (map ascii_upper ext)).

Definition sfn_checksum (sfn : list Z) : Z :=
  foldl (λ sum b, wrap 8 (wrap 8 ((sum ≫ 1) + wrap 8 (sum ≪ 7)) + b)) 0 sfn.

Record DirEntry := mkDirEntry {
  de_fname : str;
  de_attr : Z;
  de_first_cluster : Z;
  de_size : Z;
  de_sector : Z;
  de_offset : Z;
  de_lfn_sector : Z;
  de_lfn_offset : Z;
}.

Definition is_dir (e : DirEntry) : bool := negb (Z.land (de_attr e) ATTR_DIRECTORY =? 0).

(** [advance_dir_slot]. *)
Definition advance_dir_slot (p : Z * Z) : Z * Z :=
  let '(sector, offset) := p in
  let offset := offset + DIR_ENTRY_SIZE in
  if SECTOR_SIZE <=? offset then (sector ⊞ 1, 0) else (sector, offset).

(** What [read_dir_entries] carries from slot to slot: the entries found, the
    long name being collected and where it started. *)
Record scan := mkScan {
  sn_entries : list DirEntry;
  sn_lfn : list Z;
  sn_start : option (Z * Z);
}.

(** [String] of the collected UTF-16 units: surrogates are dropped. *)
Definition lfn_string (units : list Z) : str :=
  concat (map encode_utf8 (omap char_from_u32 (take_while (λ c, negb (c =? 0)) units))).

(** One 32-byte slot; [inr] is the [return] at the end marker. *)
Definition scan_slot (sector offset : Z) (raw : list Z) (st : scan) : outcome (scan + list DirEntry) :=
  b0 ← idx raw 0;
  if b0 =? 0 then Done (inr (sn_entries st))
  else if b0 =? 0xE5 then Done (inl (mkScan (sn_entries st) [] None))
  else
    attr ← idx raw 11;
    if attr =? ATTR_LFN then
      let is_last := negb (Z.land b0 0x40 =? 0) in
      let st := if is_last then mkScan (sn_entries st) [] (Some (sector, offset)) else st in
      chars ← read_lfn_chars raw;
      let chunk := take_while (λ c, negb (c =? 0)) chars in
      Done (inl (mkScan (sn_entries st) (chunk ++ sn_lfn st) (sn_start st)))
    else if negb (Z.land attr ATTR_VOLUME_ID =? 0) && (Z.land attr ATTR_DIRECTORY =? 0) then
      Done (inl (mkScan (sn_entries st) [] None))
    else
      sfn_bytes ← slice raw 0 11;
      sfn_name ← parse_sfn sfn_bytes;
      let name := if negb (bool_decide (sn_lfn st = [])) then lfn_string (sn_lfn st) else sfn_name in
      fc_hi ← le_at 2 raw 20;
      fc_lo ← le_at 2 raw 26;
      let first_cluster := Z.lor (fc_hi ≪ 16) fc_lo in
      size ← le_at 4 raw 28;
      if bool_decide (name = [FAT_DOT]) || bool_decide (name = [FAT_DOT; FAT_DOT]) then
        Done (inl (mkScan (sn_entries st) [] None))
      else
        let '(ls, lo) := default (sector, offset) (sn_start st) in
        Done (inl (mkScan (sn_entries st ++ [mkDirEntry name attr first_cluster size sector offset ls lo])
                          [] None)).

(* ------------------------------------------------------------------ *)
(** ** The device *)

Section device.
Context {D : Type} `{BlockDev D}.
Implicit Types (dev : option D).

(** The global VirtIO device, if there is one; results are ignored. *)
Definition read_sector (sector : Z) (buf : list Z) dev : list Z :=
  match dev with Some blk => (read_block sector buf blk).2 | None => buf end.

Definition write_sector (sector : Z) (buf : list Z) dev : option D :=
  match dev with Some blk => Some (write_block sector buf blk).2 | None => None end.

(** ** The allocation table *)

Definition fat_read_entry (b : Bpb) (cluster : Z) dev : outcome Z :=
  let buf := read_sector (fat_sector_for b cluster) (zrep 512 0) dev in
  v ← le_at 4 buf (fat_offset_in_sector cluster);
  Done (Z.land v FAT32_MASK).

(** The entry in one copy of the table; its upper four bits stay. *)
Definition fat_write_copy (b : Bpb) (cluster value fat_num : Z) dev : outcome (option D) :=
  let fat_base := reserved_sectors b + fat_num * sectors_per_fat b in
  let sector := fat_base + (cluster * 4) `div` SECTOR_SIZE in
  let offset := (cluster * 4) `mod` SECTOR_SIZE in
  let buf := read_sector sector (zrep 512 0) dev in
  let bytes := to_le 4 (Z.land value FAT32_MASK) in
  b0 ← idx bytes 0; b1 ← idx bytes 1; b2 ← idx bytes 2; b3 ← idx bytes 3;
  buf ← upd buf offset b0;
  buf ← upd buf (offset + 1) b1;
  buf ← upd buf (offset + 2) b2;
  top ← idx buf (offset + 3);
  buf ← upd buf (offset + 3) (Z.lor (Z.land top 0xF0) b3);
  Done (write_sector sector buf dev).

Definition fat_write_entry (b : Bpb) (cluster value : Z) dev : outcome (option D) :=
  for_each (seqZ 0 (fat_count b)) (fat_write_copy b cluster value) dev.

(** One past the last cluster, in 32-bit arithmetic. *)
Definition max_cluster (b : Bpb) : Z :=
  wrap 32 (wrap 32 (total_sectors b - wrap 32 (data_start_sector b)) `div` sectors_per_cluster b + 2).

(** [for cluster in 2..max_cluster], from [cluster] for [n] clusters. *)
Fixpoint alloc_from (b : Bpb) (n : nat) (cluster : Z) dev : outcome (option Z * option D) :=
  match n with
  | O => Done (None, dev)
  | S n =>
      v ← fat_read_entry b cluster dev;
      if v =? FAT32_FREE then
        dev ← fat_write_entry b cluster FAT32_EOC dev;
        Done (Some cluster, dev)
      else alloc_from b n (cluster + 1) dev
  end.

Definition fat_alloc_cluster (b : Bpb) dev : outcome (option Z * option D) :=
  alloc_from b (Z.to_nat (max_cluster b - 2)) 2 dev.

(** The [while] loop of [cluster_chain], on the chain so far and the cursor. *)
Definition chain_step (b : Bpb) dev (st : list Z * Z) : outcome (list Z * Z + list Z) :=
  let '(chain, cur) := st in
  if (2 <=? cur) && (cur <? FAT32_EOC) then
    let chain := chain ++ [cur] in
    next ← fat_read_entry b cur dev;
    if (FAT32_EOC <=? next) || (next <? 2) then Done (inr chain) else Done (inl (chain, next))
  else Done (inr chain).

(** Every cursor after the first is a table entry, below [2^28]. *)
Definition MAX_CHAIN : positive := 268435456.

Definition cluster_chain (b : Bpb) (first_cluster : Z) dev : outcome (list Z) :=
  loop_end MAX_CHAIN (chain_step b dev) ([], first_cluster).

(* ------------------------------------------------------------------ *)
(** ** Directories *)

Definition sector_slots : list Z := seqZ 0 (SECTOR_SIZE `div` DIR_ENTRY_SIZE).

Definition scan_sector (b : Bpb) dev (start_sector s : Z) (st : scan) : outcome (scan + list DirEntry) :=
  let sector := start_sector ⊞ s in
  let sector_buf := read_sector sector (zrep 512 0) dev in
  for_until sector_slots (λ entry_idx st,
    let offset := entry_idx * DIR_ENTRY_SIZE in
    raw ← slice sector_buf offset (offset + 32);
    scan_slot sector offset raw st) st.

Definition scan_cluster (b : Bpb) dev (cluster : Z) (st : scan) : outcome (scan + list DirEntry) :=
  for_until (seqZ 0 (sectors_per_cluster b)) (scan_sector b dev (cluster_to_sector b cluster)) st.

Definition read_dir_entries (b : Bpb) (first_cluster : Z) dev : outcome (list DirEntry) :=
  chain ← cluster_chain b first_cluster dev;
  r ← for_until chain (scan_cluster b dev) (mkScan [] [] None);
  Done (match r with inl st => sn_entries st | inr entries => entries end).

Definition find_entry_in_dir (b : Bpb) (dir_cluster : Z) (name : str) dev : outcome (option DirEntry) :=
  entries ← read_dir_entries b dir_cluster dev;
  Done (List.find (λ e, eq_ignore_case (de_fname e) name) entries).

(** The run of free slots so far: how many, and where the first one is. *)
Record freerun := mkRun { fr_count : Z; fr_first : Z * Z }.

Definition free_slot (needed : Z) (sector : Z) (buf : list Z) (entry_idx : Z) (r : freerun)
    : outcome (freerun + Z * Z) :=
  let off := entry_idx * DIR_ENTRY_SIZE in
  first_byte ← idx buf off;
  if (first_byte =? 0) || (first_byte =? 0xE5) then
    let first := if fr_count r =? 0 then (sector, off) else fr_first r in
    let consecutive := fr_count r + 1 in
    if needed <=? consecutive then Done (inr first) else Done (inl (mkRun consecutive first))
  else Done (inl (mkRun 0 (fr_first r))).

Definition free_cluster_slots (b : Bpb) (needed : Z) dev (cl : Z) (r : freerun) : outcome (freerun + Z * Z) :=
  for_until (seqZ 0 (sectors_per_cluster b)) (λ s r,
    let sector := cluster_to_sector b cl ⊞ s in
    let buf := read_sector sector (zrep 512 0) dev in
    for_until sector_slots (free_slot needed sector buf) r) r.

(** [for s in 0..sectors_per_cluster { write_sector(start + s, zero) }]. *)
Definition zero_cluster (b : Bpb) (cl : Z) dev : option D :=
  foldl (λ dev s, write_sector (cluster_to_sector b cl ⊞ s) (zrep 512 0) dev) dev
        (seqZ 0 (sectors_per_cluster b)).

(** [if let Some(&last) = chain.last() { fat_write_entry(last, new) }]. *)
Definition link_last (b : Bpb) (chain : list Z) (new_cl : Z) dev : outcome (option D) :=
  match last chain with Some l => fat_write_entry b l new_cl dev | None => Done dev end.

Definition find_free_dir_slots (b : Bpb) (dir_cluster needed : Z) dev
    : outcome (option (Z * Z) * option D) :=
  chain ← cluster_chain b dir_cluster dev;
  r ← for_until chain (free_cluster_slots b needed dev) (mkRun 0 (0, 0));
  match r with
  | inr slot => Done (Some slot, dev)
  | inl _ =>
      '(new_cl, dev) ← fat_alloc_cluster b dev;
      match new_cl with
      | None => Done (None, dev)
      | Some new_cl =>
          dev ← link_last b chain new_cl dev;
          let dev := zero_cluster b new_cl dev in
          Done (Some (cluster_to_sector b new_cl, 0), dev)
      end
  end.

Definition fat_write_dir_entry (p : Z * Z) (entry : list Z) dev : outcome (option D) :=
  let '(sector, offset) := p in
  let buf := read_sector sector (zrep 512 0) dev in
  buf ← copy_into buf offset (offset + 32) entry;
  Done (write_sector sector buf dev).
End device.

(* ------------------------------------------------------------------ *)
(** ** New directory entries *)

(** A slot of a long name: sequence byte, attribute, checksum and 13 units. *)
Definition lfn_entry (flag checksum : Z) (chunk : list Z) : outcome (list Z) :=
  entry ← upd (zrep 32 0) 0 flag;
  entry ← upd entry 11 ATTR_LFN;
  entry ← upd entry 12 0;
  entry ← upd entry 13 checksum;
  entry ← upd entry 26 0;
  entry ← upd entry 27 0;
  for_each (zenum lfn_positions) (λ '(i, pos) entry, c ← idx chunk i; put_le 2 entry pos c) entry.

(** The first cluster of an entry, as four bytes in two places. *)
Definition put_cluster (entry : list Z) (cluster : Z) : outcome (list Z) :=
  entry ← upd entry 20 (Z.land (cluster ≫ 16) 0xFF);
  entry ← upd entry 21 (Z.land (cluster ≫ 24) 0xFF);
  entry ← upd entry 26 (Z.land cluster 0xFF);
  upd entry 27 (Z.land (cluster ≫ 8) 0xFF).

(** The short entry, with creation and write time. *)
Definition sfn_entry (sfn : list Z) (attr first_cluster ticks : Z) : outcome (list Z) :=
  entry ← copy_into (zrep 32 0) 0 11 sfn;
  entry ← upd entry 11 attr;
  let '(time_word, date_word) := fat32_timestamp ticks in
  entry ← put_le 2 entry 14 time_word;
  entry ← put_le 2 entry 16 date_word;
  entry ← put_le 2 entry 22 time_word;
  entry ← put_le 2 entry 24 date_word;
  put_cluster entry first_cluster.

(** The entries ["."] and [".."] of a new directory: the name, the time once. *)
Definition dot_entry (name : list Z) (cluster ticks : Z) : outcome (list Z) :=
  entry ← copy_into (zrep 32 0) 0 8 name;
  entry ← copy_into entry 8 11 (zrep 3 SPACE);
  entry ← upd entry 11 ATTR_DIRECTORY;
  let '(time_word, date_word) := fat32_timestamp ticks in
  entry ← put_le 2 entry 14 time_word;
  entry ← put_le 2 entry 16 date_word;
  put_cluster entry cluster.

Definition name_utf16 (name : str) : list Z := concat (map encode_utf16 (chars name)).

(** A terminating zero and filler up to a multiple of 13. *)
Definition pad_lfn (units : list Z) : list Z :=
  if zlen units `mod` 13 =? 0 then units
  else let padded := units ++ [0] in padded ++ zrep ((- zlen padded) `mod` 13) 0xFFFF.

Section create.
Context {D : Type} `{BlockDev D}.
Implicit Types (dev : option D).

Definition write_lfn (padded : list Z) (checksum lfn_count lfn_idx : Z) (st : Z * Z * option D)
    : outcome (Z * Z * option D) :=
  let '(p, dev) := st in
  let seq_num := wrap 8 (wrap 8 lfn_idx + 1) in
  let is_last := lfn_idx =? lfn_count - 1 in
  let flag := if is_last then Z.lor seq_num 0x40 else seq_num in
  chunk ← slice padded (lfn_idx * 13) ((lfn_idx + 1) * 13);
  entry ← lfn_entry flag checksum chunk;
  dev ← fat_write_dir_entry p entry dev;
  Done (advance_dir_slot p, dev).

Definition create_dir_entry (b : Bpb) (dir_cluster : Z) (name : str) (attr first_cluster ticks : Z) dev
    : outcome (option (Z * Z) * option D) :=
  match build_sfn name with
  | None => Done (None, dev)
  | Some sfn =>
      let checksum := sfn_checksum sfn in
      let units := name_utf16 name in
      let lfn_count := (zlen units + 12) `div` 13 in
      let total_entries := lfn_count + 1 in
      '(slot, dev) ← find_free_dir_slots b dir_cluster total_entries dev;
      match slot with
      | None => Done (None, dev)
      | Some first =>
          let padded := pad_lfn units in
          '(p, dev) ← for_each (reverse (seqZ 0 lfn_count)) (write_lfn padded checksum lfn_count) (first, dev);
          entry ← sfn_entry sfn attr first_cluster ticks;
          dev ← fat_write_dir_entry p entry dev;
          Done (Some p, dev)
      end
  end.

(* ------------------------------------------------------------------ *)
(** ** File contents *)

(** What the copy loops carry: position in the file, bytes done, the caller's
    buffer and the sector buffer. *)
Record rd := mkRd { rd_pos : Z; rd_done : Z; rd_buf : list Z; rd_sector : list Z }.

Definition read_one (offset readable start_sector : Z) dev (s : Z) (r : rd) : outcome rd :=
  let sec_start := rd_pos r in
  let sec_end := rd_pos r + SECTOR_SIZE in
  if (sec_end <=? offset) || (offset + readable <=? sec_start) then
    Done (mkRd (rd_pos r + SECTOR_SIZE) (rd_done r) (rd_buf r) (rd_sector r))
  else
    let sector_buf := read_sector (start_sector ⊞ s) (rd_sector r) dev in
    let from := if sec_start <? offset then offset - sec_start else 0 in
    let to := Z.min SECTOR_SIZE (offset + readable - sec_start) in
    let buf_start := sec_start + from - offset in
    let copy_len := to - from in
    src ← slice sector_buf from to;
    buf ← copy_into (rd_buf r) buf_start (buf_start + copy_len) src;
    Done (mkRd (rd_pos r + SECTOR_SIZE) (rd_done r + copy_len) buf sector_buf).

Definition read_cluster (b : Bpb) (offset readable : Z) dev (cl : Z) (r : rd) : outcome (rd + rd) :=
  let cl_end := rd_pos r + cluster_size_bytes b in
  if cl_end <=? offset then Done (inl (mkRd cl_end (rd_done r) (rd_buf r) (rd_sector r)))
  else if offset + readable <=? rd_pos r then Done (inr r)
  else
    r ← for_each (seqZ 0 (sectors_per_cluster b)) (read_one offset readable (cluster_to_sector b cl) dev) r;
    Done (inl r).

Definition fat_file_read (b : Bpb) (cluster file_size offset : Z) (buf : list Z) dev
    : outcome (Z * list Z) :=
  if (file_size <=? offset) || bool_decide (buf = []) then Done (0, buf)
  else
    let readable := Z.min (zlen buf) (file_size - offset) in
    chain ← cluster_chain b cluster dev;
    r ← for_until chain (read_cluster b offset readable dev) (mkRd 0 0 buf (zrep 512 0));
    let r := match r with inl r => r | inr r => r end in
    Done (rd_done r, rd_buf r).

(** [while chain.len() < clusters_needed]: [n] is how many are missing. *)
Fixpoint extend_chain (b : Bpb) (n : nat) (chain : list Z) dev : outcome (list Z * option D) :=
  match n with
  | O => Done (chain, dev)
  | S n =>
      '(new_cl, dev) ← fat_alloc_cluster b dev;
      match new_cl with
      | None => Done (chain, dev)
      | Some new_cl =>
          dev ← link_last b chain new_cl dev;
          extend_chain b n (chain ++ [new_cl]) dev
      end
  end.

Record wr := mkWr { wr_pos : Z; wr_done : Z; wr_sector : list Z; wr_dev : option D }.

(** [end_] is [offset + data.len()], in 64-bit arithmetic. *)
Definition write_one (offset end_ : Z) (data : list Z) (start_sector s : Z) (w : wr) : outcome wr :=
  let sec_start := wr_pos w in
  let sec_end := wr_pos w + SECTOR_SIZE in
  if (sec_end <=? offset) || (end_ <=? sec_start) then
    Done (mkWr (wr_pos w + SECTOR_SIZE) (wr_done w) (wr_sector w) (wr_dev w))
  else
    let sector_buf := read_sector (start_sector ⊞ s) (wr_sector w) (wr_dev w) in
    let from := if sec_start <? offset then offset - sec_start else 0 in
    let to := Z.min SECTOR_SIZE (end_ - sec_start) in
    let data_start := sec_start + from - offset in
    let copy_len := to ⊟ from in
    src ← slice data data_start (data_start ⊞ copy_len);
    sector_buf ← copy_into sector_buf from to src;
    Done (mkWr (wr_pos w + SECTOR_SIZE) (wr_done w + copy_len) sector_buf
               (write_sector (start_sector ⊞ s) sector_buf (wr_dev w))).

Definition write_cluster (b : Bpb) (offset end_ : Z) (data : list Z) (cl : Z) (w : wr) : outcome wr :=
  for_each (seqZ 0 (sectors_per_cluster b)) (write_one offset end_ data (cluster_to_sector b cl)) w.

(** The size field of the directory entry. *)
Definition put_size (entry_sector entry_offset new_size : Z) dev : outcome (option D) :=
  let buf := read_sector entry_sector (zrep 512 0) dev in
  buf ← put_le 4 buf (entry_offset + 28) new_size;
  Done (write_sector entry_sector buf dev).

Definition fat_file_write (b : Bpb) (first_cluster old_size offset : Z) (data : list Z)
    (entry_sector entry_offset : Z) dev : outcome (Z * option D) :=
  if bool_decide (data = []) then Done (0, dev)
  else
    let cluster_size := cluster_size_bytes b in
    let needed_size := offset ⊞ zlen data in
    chain ← cluster_chain b first_cluster dev;
    let clusters_needed := (needed_size ⊞ cluster_size ⊟ 1) `div` cluster_size in
    '(chain, dev) ← extend_chain b (Z.to_nat (clusters_needed - zlen chain)) chain dev;
    w ← for_each chain (write_cluster b offset needed_size data) (mkWr 0 0 (zrep 512 0) dev);
    let new_size := wrap 32 (Z.max old_size needed_size) in
    dev ← (if negb (new_size =? old_size) then put_size entry_sector entry_offset new_size (wr_dev w)
           else Done (wr_dev w));
    Done (wr_done w, dev).
End create.

(* ------------------------------------------------------------------ *)
(** ** The nodes *)

Inductive fat_node :=
  | FatDirINode (cluster : Z)
  | FatFileINode (first_cluster : Z) (size : loc) (entry_sector entry_offset : Z).

(** The device, the global parameter block ([Once]), the sizes of the file
    nodes, and the timer's tick count. *)
Record fatfs (D : Type) := mkFatfs {
  ff_dev : option D;
  ff_bpb : option Bpb;
  ff_sizes : gmap loc Z;
  ff_ticks : Z;
}.
Arguments mkFatfs {D} _ _ _ _.
Arguments ff_dev {D} _.
Arguments ff_bpb {D} _.
Arguments ff_sizes {D} _.
Arguments ff_ticks {D} _.

Section nodes.
Context {D : Type} `{BlockDev D}.
Implicit Types (f : fatfs D).

Definition set_fdev (dev : option D) f : fatfs D := mkFatfs dev (ff_bpb f) (ff_sizes f) (ff_ticks f).
Definition set_size (l : loc) (size : Z) f : fatfs D :=
  mkFatfs (ff_dev f) (ff_bpb f) (<[l := size]> (ff_sizes f)) (ff_ticks f).

(** [Arc::new(FatFileINode { .. })]: a node with a size cell of its own. *)
Definition new_file (first_cluster size entry_sector entry_offset : Z) f : fat_node * fatfs D :=
  let l := fresh (dom (ff_sizes f)) in
  (FatFileINode first_cluster l entry_sector entry_offset, set_size l size f).

Definition FatDirINode_root f : fat_node :=
  FatDirINode (match ff_bpb f with Some b => root_cluster b | None => 2 end).

Definition fat_dir_lookup (cluster : Z) (name : str) f : outcome (option fat_node * fatfs D) :=
  match ff_bpb f with
  | None => Done (None, f)
  | Some b =>
      entry ← find_entry_in_dir b cluster name (ff_dev f);
      match entry with
      | None => Done (None, f)
      | Some e =>
          if is_dir e then Done (Some (FatDirINode (de_first_cluster e)), f)
          else
            let '(n, f) := new_file (de_first_cluster e) (de_size e) (de_sector e) (de_offset e) f in
            Done (Some n, f)
      end
  end.

Definition fat_dir_insert (cluster : Z) (name : str) (_ : fat_node) f : outcome (result unit * fatfs D) :=
  match ff_bpb f with
  | None => Done (Err "fs not mounted", f)
  | Some b =>
      found ← find_entry_in_dir b cluster name (ff_dev f);
      if found is Some _ then Done (Err "file exists", f)
      else
        '(c, dev) ← fat_alloc_cluster b (ff_dev f);
        match c with
        | None => Done (Err "disk full", set_fdev dev f)
        | Some new_cluster =>
            '(slot, dev) ← create_dir_entry b cluster name ATTR_ARCHIVE new_cluster (ff_ticks f) dev;
            match slot with
            | None => Done (Err "dir entry creation failed", set_fdev dev f)
            | Some _ => Done (Ok (), set_fdev dev f)
            end
        end
  end.

Definition fat_dir_create_file (cluster : Z) (name : str) f : outcome (result fat_node * fatfs D) :=
  match ff_bpb f with
  | None => Done (Err "fs not mounted", f)
  | Some b =>
      found ← find_entry_in_dir b cluster name (ff_dev f);
      if found is Some _ then Done (Err "file exists", f)
      else
        '(c, dev) ← fat_alloc_cluster b (ff_dev f);
        match c with
        | None => Done (Err "disk full", set_fdev dev f)
        | Some new_cluster =>
            '(slot, dev) ← create_dir_entry b cluster name ATTR_ARCHIVE new_cluster (ff_ticks f) dev;
            match slot with
            | None => Done (Err "dir entry creation failed", set_fdev dev f)
            | Some (es, eo) =>
                let '(n, f) := new_file new_cluster 0 es eo (set_fdev dev f) in
                Done (Ok n, f)
            end
        end
  end.

Definition fat_dir_mkdir (cluster : Z) (name : str) f : outcome (result unit * fatfs D) :=
  match ff_bpb f with
  | None => Done (Err "fs not mounted", f)
  | Some b =>
      found ← find_entry_in_dir b cluster name (ff_dev f);
      if found is Some _ then Done (Err "file exists", f)
      else
        '(c, dev) ← fat_alloc_cluster b (ff_dev f);
        match c with
        | None => Done (Err "disk full", set_fdev dev f)
        | Some new_cluster =>
            let start_sector := cluster_to_sector b new_cluster in
            let dev := zero_cluster b new_cluster dev in
            dot ← dot_entry (FAT_DOT :: zrep 7 SPACE) new_cluster (ff_ticks f);
            dev ← fat_write_dir_entry (start_sector, 0) dot dev;
            dotdot ← dot_entry (FAT_DOT :: FAT_DOT :: zrep 6 SPACE) cluster (ff_ticks f);
            dev ← fat_write_dir_entry (start_sector, 32) dotdot dev;
            '(slot, dev) ← create_dir_entry b cluster name ATTR_DIRECTORY new_cluster (ff_ticks f) dev;
            match slot with
            | None => Done (Err "dir entry creation failed", set_fdev dev f)
            | Some _ => Done (Ok (), set_fdev dev f)
            end
        end
  end.

(** The [loop] of [unlink], from the first slot of the name to its last. *)
Definition erase_step (last : Z * Z) (st : Z * Z * option D) : outcome (Z * Z * option D + option D) :=
  let '((sector, offset), dev) := st in
  let buf := read_sector sector (zrep 512 0) dev in
  buf ← upd buf offset 0xE5;
  let dev := write_sector sector buf dev in
  if (sector =? last.1) && (offset =? last.2) then Done (inr dev)
  else Done (inl (advance_dir_slot (sector, offset), dev)).

(** [2^68] slots are more than the sector numbers have. *)
Definition MAX_SLOTS : positive := 295147905179352825856.

Definition fat_dir_unlink (cluster : Z) (name : str) f : outcome (result unit * fatfs D) :=
  match ff_bpb f with
  | None => Done (Err "fs not mounted", f)
  | Some b =>
      entry ← find_entry_in_dir b cluster name (ff_dev f);
      match entry with
      | None => Done (Err "not found", f)
      | Some e =>
          chain ← cluster_chain b (de_first_cluster e) (ff_dev f);
          dev ← for_each chain (λ cl dev, fat_write_entry b cl FAT32_FREE dev) (ff_dev f);
          dev ← loop_end MAX_SLOTS (erase_step (de_sector e, de_offset e))
                         ((de_lfn_sector e, de_lfn_offset e), dev);
          Done (Ok (), set_fdev dev f)
      end
  end.

Definition fat_dir_readdir (cluster : Z) f : outcome (option (list (str * FileType)) * fatfs D) :=
  match ff_bpb f with
  | None => Done (None, f)
  | Some b =>
      entries ← read_dir_entries b cluster (ff_dev f);
      Done (Some (map (λ e, (de_fname e, if is_dir e then Directory else File)) entries), f)
  end.

Definition size_of (l : loc) f : Z := default 0 (ff_sizes f !! l).

Definition fat_node_read (first_cluster : Z) (size : loc) (offset : Z) (buf : list Z) f
    : outcome (Z * list Z * fatfs D) :=
  match ff_bpb f with
  | None => Done (0, buf, f)
  | Some b =>
      '(n, buf) ← fat_file_read b first_cluster (size_of size f) offset buf (ff_dev f);
      Done (n, buf, f)
  end.

Definition fat_node_write (first_cluster : Z) (size : loc) (es eo offset : Z) (buf : list Z) f
    : outcome (Z * fatfs D) :=
  match ff_bpb f with
  | None => Done (0, f)
  | Some b =>
      let old := size_of size f in
      '(written, dev) ← fat_file_write b first_cluster old offset buf es eo (ff_dev f);
      Done (written, set_size size (wrap 32 (Z.max old (offset ⊞ written))) (set_fdev dev f))
  end.

(* ------------------------------------------------------------------ *)
(** ** The driver *)

Definition fat32_probe (dev : D) : outcome bool :=
  let buf := (read_block 0 (zrep 512 0) dev).2 in
  b510 ← idx buf 510;
  b511 ← idx buf 511;
  signature ← slice buf 82 90;
  Done ((b510 =? 0x55) && (b511 =? 0xAA) && bool_decide (signature = FAT32_SIGNATURE)).

(** [mount] reads the global device, not its argument, and only the first
    mount sets the parameter block. *)
Definition fat32_mount (_ : D) f : outcome (option fat_node * fatfs D) :=
  let sector0 := read_sector 0 (zrep 512 0) (ff_dev f) in
  bpb ← Bpb_parse sector0;
  match bpb with
  | None => Done (None, f)
  | Some b =>
      let f := mkFatfs (ff_dev f) (match ff_bpb f with Some b' => Some b' | None => Some b end)
                       (ff_sizes f) (ff_ticks f) in
      Done (Some (FatDirINode_root f), f)
  end.
End nodes.

#[global] Instance fat_INode {D} `{BlockDev D} : INode fat_node (fatfs D) := {
  inode_read n offset buf f :=
    match n with
    | FatDirINode _ => Done (0, buf, f)
    | FatFileINode c l _ _ => fat_node_read c l offset buf f
    end;
  inode_write n offset buf f :=
    match n with
    | FatDirINode _ => Done (0, f)
    | FatFileINode c l es eo => fat_node_write c l es eo offset buf f
    end;
  inode_metadata n _ := match n with FatDirINode _ => Directory | FatFileINode _ _ _ _ => File end;
  inode_lookup n name f :=
    match n with FatDirINode c => fat_dir_lookup c name f | _ => default_lookup n name f end;
  inode_insert n name m f :=
    match n with FatDirINode c => fat_dir_insert c name m f | _ => default_insert n name m f end;
  inode_create_file n name f :=
    match n with FatDirINode c => fat_dir_create_file c name f | _ => default_create_file n name f end;
  inode_mkdir n name f :=
    match n with FatDirINode c => fat_dir_mkdir c name f | _ => default_mkdir n name f end;
  inode_unlink n name f :=
    match n with FatDirINode c => fat_dir_unlink c name f | _ => default_unlink n name f end;
  inode_size n f :=
    match n with FatDirINode _ => default_size n f | FatFileINode _ l _ _ => Done (size_of l f) end;
  inode_readdir n f :=
    match n with FatDirINode c => fat_dir_readdir c f | _ => default_readdir n f end;
}.
