(* ===== verification/Fat32Table.v ===== *)
(** * FAT32: the allocation table and cluster chains

    On a working disk ([Disk]) with a sound geometry ([geo_ok]) the table is a
    function [fat] from clusters to 28-bit entries.  Shown here: reading and
    writing an entry are lookup and update of that function, in every copy of
    the table and without touching anything else; allocation takes the lowest
    free cluster and marks it; the chain walk returns exactly the chain of a
    well-formed file, and never loops on one. *)

From S2P Require Import Prelude BlockDev Vfs Fat32.

(* ------------------------------------------------------------------ *)
(** ** Bytes of an entry *)

Lemma land_mask v : Z.land v FAT32_MASK = v `mod` 2 ^ 28.
Proof. change FAT32_MASK with (Z.ones 28). by apply Z.land_ones. Qed.

Lemma lor_shiftl k x y : 0 ≤ k → is_uint k x → Z.lor x (y ≪ k) = x + 2 ^ k * y.
Proof.
  intros Hk Hx. unfold is_uint in *.
  assert (Z.land x (y ≪ k) = 0) as Hd.
  { apply Z.bits_inj'. intros i Hi. rewrite Z.land_spec, Z.shiftl_spec, Z.bits_0 by done.
    destruct (decide (i < k)).
    - by rewrite (Z.testbit_neg_r _ (i - k)), andb_false_r by lia.
    - rewrite <-(Z.mod_small x (2 ^ k)), Z.mod_pow2_bits_high by lia. done. }
  rewrite <-Z.lxor_lor, <-Z.add_nocarry_lxor, Z.shiftl_mul_pow2 by done. lia.
Qed.

Lemma from_le_cons x l : byte_ok x → from_le (x :: l) = x + 256 * from_le l.
Proof. intros Hx. unfold from_le. simpl. by rewrite lor_shiftl. Qed.

Lemma keep_top top b3 :
  0 ≤ b3 < 16 → ∃ h, 0 ≤ h < 16 ∧ Z.lor (Z.land top 0xF0) b3 = b3 + 16 * h.
Proof.
  intros Hb.
  assert (Z.land (Z.land top 0xF0) b3 = 0) as Hd.
  { rewrite <-Z.land_assoc. rewrite <-(Z.mod_small b3 (2 ^ 4)), <-Z.land_ones by lia.
    rewrite (Z.land_comm b3), (Z.land_assoc 240). change (Z.land 240 (Z.ones 4)) with 0.
    by rewrite Z.land_0_l, Z.land_0_r. }
  assert (Z.land top 0xF0 = 16 * (Z.land (top ≫ 4) 15)) as Hh.
  { replace (16 * _) with (Z.land (top ≫ 4) 15 ≪ 4) by (rewrite Z.shiftl_mul_pow2; lia).
    apply Z.bits_inj'. intros i Hi. change 240 with (15 ≪ 4).
    rewrite Z.shiftl_spec, !Z.land_spec, Z.shiftl_spec by done. destruct (decide (i < 4)).
    - by rewrite !(Z.testbit_neg_r _ (i - 4)), !andb_false_r by lia.
    - rewrite Z.shiftr_spec by lia. by replace (i - 4 + 4) with i by lia. }
  exists (Z.land (top ≫ 4) 15). change 15 with (Z.ones 4). rewrite Z.land_ones by lia.
  split; [apply Z.mod_pos_bound; lia|].
  rewrite <-Z.lxor_lor, <-Z.add_nocarry_lxor, Hh by done. change 15 with (Z.ones 4).
  rewrite Z.land_ones by lia. lia.
Qed.

Lemma entry_bytes v top :
  0 ≤ v ≤ FAT32_MASK →
  ∃ b0 b1 b2 b3, to_le 4 v = [b0; b1; b2; b3] ∧
    Z.land (from_le [b0; b1; b2; Z.lor (Z.land top 0xF0) b3]) FAT32_MASK = v.
Proof.
  intros Hv. pose proof (zlen_to_le 4 v ltac:(lia)) as Hl.
  pose proof (bytes_ok_to_le 4 v ltac:(lia)) as Hb.
  assert (from_le (to_le 4 v) = v) as Hf
    by (apply from_le_to_le; [lia|]; unfold is_uint, FAT32_MASK in *; lia).
  destruct (to_le 4 v) as [|b0 [|b1 [|b2 [|b3 [|]]]]]; try (unfold zlen in Hl; simpl in Hl; lia).
  exists b0, b1, b2, b3. split; [done|].
  apply Forall_cons in Hb as [H0 Hb]. apply Forall_cons in Hb as [H1 Hb].
  apply Forall_cons in Hb as [H2 Hb]. apply Forall_cons in Hb as [H3 _].
  rewrite !from_le_cons in Hf by done. change (from_le []) with 0 in Hf.
  unfold byte_ok, FAT32_MASK in *.
  destruct (keep_top top b3) as (h & Hh & ->); [lia|].
  rewrite land_mask, !from_le_cons; [|unfold byte_ok; lia..]. change (from_le []) with 0.
  rewrite <-(Z.mod_small v (2 ^ 28)), <-(Z.mod_add v h) by lia. f_equal. lia.
Qed.

(* ------------------------------------------------------------------ *)
(** ** Sectors *)

Section table.
Context {D : Type} `{Disk D}.
Implicit Types (d : D) (b : Bpb).

Definition sec d (s : Z) : list Z := zslice (disk d) (SECTOR * s) (SECTOR * s + SECTOR).

Lemma zlen_sec d s : 0 ≤ s < sector_count d → zlen (sec d s) = 512.
Proof. intros. unfold sec. rewrite zlen_zslice; rewrite ?disk_len; unfold SECTOR; lia. Qed.

Lemma read_sector_sec d s buf :
  0 ≤ s < sector_count d → zlen buf = 512 → read_sector s buf (Some d) = sec d s.
Proof. intros. unfold read_sector. by rewrite disk_read. Qed.

(** [d'] is [d] with sector [s] replaced. *)
Definition sec_set (s : Z) (data : list Z) d d' : Prop :=
  sector_count d' = sector_count d ∧ ∀ t, 0 ≤ t → sec d' t = if decide (t = s) then data else sec d t.

Lemma write_sector_sec d s data :
  0 ≤ s < sector_count d → zlen data = 512 →
  ∃ d', write_sector s data (Some d) = Some d' ∧ sec_set s data d d'.
Proof.
  intros Hs Hd. destruct (disk_write d s data Hs Hd) as (d' & E & Ed & Ec).
  exists d'. unfold write_sector. rewrite E. split; [done|]. split; [done|].
  intros t Ht. unfold sec. rewrite Ed. pose proof (disk_len d). unfold SECTOR in *.
  case_decide as Hts; [subst; by apply zslice_zsplice_same; lia|].
  apply zslice_zsplice_disjoint; lia.
Qed.

(* ------------------------------------------------------------------ *)
(** ** Geometry *)

(** One past the last cluster. *)
Definition ncl b : Z := (total_sectors b - data_start_sector b) `div` sectors_per_cluster b + 2.

Record geo_ok b d : Prop := {
  g_spc : 1 ≤ sectors_per_cluster b ≤ 255;
  g_fats : 1 ≤ fat_count b ≤ 255;
  g_reserved : 0 ≤ reserved_sectors b < 2 ^ 16;
  g_spf : 1 ≤ sectors_per_fat b;
  g_data : data_start_sector b ≤ total_sectors b < 2 ^ 32;
  g_disk : total_sectors b ≤ sector_count d;
  g_cover : ncl b ≤ 128 * sectors_per_fat b;
  g_eoc : ncl b ≤ FAT32_EOC;
}.

Definition cluster_ok b (c : Z) : Prop := 2 ≤ c < ncl b.

Lemma geo_sec_set b d d' s data : geo_ok b d → sec_set s data d d' → geo_ok b d'.
Proof. intros [] [E _]. constructor; try done. by rewrite E. Qed.

Lemma max_cluster_eq b d : geo_ok b d → max_cluster b = ncl b.
Proof.
  intros []. unfold max_cluster, ncl, data_start_sector, FAT32_EOC in *.
  assert (0 ≤ fat_count b * sectors_per_fat b) by nia.
  rewrite (wrap_small 32 (reserved_sectors b + _)) by (unfold is_uint; lia).
  rewrite (wrap_small 32 (total_sectors b - _)) by (unfold is_uint; lia).
  apply wrap_small. unfold is_uint. split; [|lia].
  assert (0 ≤ (total_sectors b - (reserved_sectors b + fat_count b * sectors_per_fat b)) `div` sectors_per_cluster b);
    [|lia]. apply Z.div_pos; lia.
Qed.

Lemma cluster_sector b d c :
  geo_ok b d → cluster_ok b c →
  cluster_to_sector b c = data_start_sector b + (c - 2) * sectors_per_cluster b ∧
  (c - 1) * sectors_per_cluster b ≤ total_sectors b - data_start_sector b.
Proof.
  intros [] [Hc1 Hc2]. unfold ncl in Hc2.
  pose proof (Z.mul_div_le (total_sectors b - data_start_sector b) (sectors_per_cluster b) ltac:(lia)).
  assert ((c - 1) * sectors_per_cluster b ≤ total_sectors b - data_start_sector b) by nia.
  split; [|done]. unfold cluster_to_sector.
  assert (0 ≤ data_start_sector b) by (unfold data_start_sector; nia).
  rewrite (wrap_small 64 (c - 2)) by (unfold is_uint, FAT32_EOC in *; unfold ncl in *; lia).
  rewrite (wrap_small 64 ((c - 2) * _)) by (unfold is_uint; nia).
  apply wrap_small. unfold is_uint. nia.
Qed.

(* ------------------------------------------------------------------ *)
(** ** Entries *)

Definition in_table b (c : Z) : Prop := 0 ≤ c < 128 * sectors_per_fat b.

Definition entry_sector b (k c : Z) : Z :=
  reserved_sectors b + k * sectors_per_fat b + (c * 4) `div` SECTOR_SIZE.
Definition entry_at (c : Z) (s : list Z) : Z :=
  Z.land (from_le (zslice s (fat_offset_in_sector c) (fat_offset_in_sector c + 4))) FAT32_MASK.

(** Entry [c] of copy [k], and of the copy the driver reads. *)
Definition fatk b d (k c : Z) : Z := entry_at c (sec d (entry_sector b k c)).
Definition fat b d (c : Z) : Z := fatk b d 0 c.

Lemma fat_range b d c : 0 ≤ fat b d c < 2 ^ 28.
Proof. unfold fat, fatk, entry_at. rewrite land_mask. by apply Z.mod_pos_bound. Qed.

Lemma cluster_in_table b d c : geo_ok b d → cluster_ok b c → in_table b c.
Proof. intros [] []. split; lia. Qed.

Lemma entry_sector_range b d k c :
  geo_ok b d → 0 ≤ k < fat_count b → in_table b c →
  reserved_sectors b + k * sectors_per_fat b ≤ entry_sector b k c <
    reserved_sectors b + (k + 1) * sectors_per_fat b ∧
  reserved_sectors b ≤ entry_sector b k c < data_start_sector b ∧
  0 ≤ fat_offset_in_sector c ≤ 508 ∧ fat_offset_in_sector c `mod` 4 = 0 ∧
  c = 128 * ((c * 4) `div` SECTOR_SIZE) + fat_offset_in_sector c `div` 4.
Proof.
  intros [] Hk [Hc1 Hc2]. unfold entry_sector, fat_offset_in_sector, data_start_sector, SECTOR_SIZE in *.
  assert (0 ≤ (c * 4) `div` 512 < sectors_per_fat b ∧ 0 ≤ (c * 4) `mod` 512 ≤ 508 ∧
    ((c * 4) `mod` 512) `mod` 4 = 0 ∧ c = 128 * ((c * 4) `div` 512) + ((c * 4) `mod` 512) `div` 4)
    as (? & ? & ? & ?) by (Z.to_euclidean_division_equations; lia).
  repeat split; nia.
Qed.

Lemma fat_read_entry_fat b d c :
  geo_ok b d → in_table b c → fat_read_entry b c (Some d) = Done (fat b d c).
Proof.
  intros Hg Hc. pose proof (g_fats _ _ Hg).
  destruct (entry_sector_range b d 0 c Hg) as (? & ? & ? & _); [lia|done|].
  pose proof (g_data _ _ Hg). pose proof (g_disk _ _ Hg). pose proof (g_reserved _ _ Hg).
  unfold fat_read_entry.
  replace (fat_sector_for b c) with (entry_sector b 0 c)
    by (unfold entry_sector, fat_sector_for, fat_start_sector; lia).
  rewrite read_sector_sec, le_at_Done; [done|lia|lia|rewrite zlen_sec; lia|lia|by apply zlen_zrep].
Qed.

(** One copy of the table with entry [c] set to [v]. *)
Lemma fat_write_copy_spec b d c v k :
  geo_ok b d → 0 ≤ k < fat_count b → in_table b c → 0 ≤ v ≤ FAT32_MASK →
  ∃ d' data, fat_write_copy b c v k (Some d) = Done (Some d') ∧
    sec_set (entry_sector b k c) data d d' ∧ entry_at c data = v ∧
    ∀ c', in_table b c' → c' ≠ c → entry_sector b k c' = entry_sector b k c →
      entry_at c' data = entry_at c' (sec d (entry_sector b k c)).
Proof.
  intros Hg Hk Hc Hv. pose proof (entry_sector_range b d k c Hg Hk Hc) as (? & ? & ? & Hm & Hq).
  pose proof (g_data _ _ Hg). pose proof (g_disk _ _ Hg). pose proof (g_reserved _ _ Hg).
  unfold fat_write_copy. fold (entry_sector b k c). fold (fat_offset_in_sector c).
  set (o := fat_offset_in_sector c) in *.
  rewrite read_sector_sec by (lia || by apply zlen_zrep).
  pose proof (zlen_sec d (entry_sector b k c) ltac:(lia)) as Hl. set (buf := sec d _) in *.
  assert (Z.land v FAT32_MASK = v) as -> by (rewrite land_mask; apply Z.mod_small; unfold FAT32_MASK in *; lia).
  destruct (zget_is_Some buf (o + 3)) as [top Htop]; [lia|].
  destruct (entry_bytes v top Hv) as (b0 & b1 & b2 & b3 & -> & Hval).
  change (idx [b0; b1; b2; b3] 0) with (Done b0). change (idx [b0; b1; b2; b3] 1) with (Done b1).
  change (idx [b0; b1; b2; b3] 2) with (Done b2). change (idx [b0; b1; b2; b3] 3) with (Done b3).
  cbn [mbind outcome_bind].
  rewrite upd_Done by lia. cbn [mbind outcome_bind]. rewrite upd_Done by (rewrite zlen_zset; lia).
  cbn [mbind outcome_bind]. rewrite upd_Done by (rewrite !zlen_zset; lia). cbn [mbind outcome_bind].
  rewrite (proj2 (idx_Done _ (o + 3) top)) by (rewrite !zget_zset_ne by lia; done). cbn [mbind outcome_bind].
  rewrite upd_Done by (rewrite !zlen_zset; lia). cbn [mbind outcome_bind].
  set (e := [b0; b1; b2; Z.lor (Z.land top 0xF0) b3]) in *.
  assert (zset (zset (zset (zset buf o b0) (o + 1) b1) (o + 2) b2) (o + 3) (Z.lor (Z.land top 0xF0) b3) =
          zsplice buf o e) as ->.
  { rewrite !zset_splice by (rewrite ?zlen_zset; zlen_solve). rewrite !zsplice_next by (zlen_solve). done. }
  assert (zlen e = 4) as He by done.
  destruct (write_sector_sec d (entry_sector b k c) (zsplice buf o e)) as (d' & -> & Hs);
    [lia|rewrite zlen_zsplice; lia|].
  exists d', (zsplice buf o e). split; [done|]. split; [done|]. unfold entry_at. fold o. split.
  - by rewrite zslice_zsplice_same by lia.
  - intros c' Hc' Hne Es.
    pose proof (entry_sector_range b d k c' Hg Hk Hc') as (_ & _ & ? & Hm' & Hq').
    set (o' := fat_offset_in_sector c') in *. unfold entry_sector in Es.
    assert (o ≠ o') by (intros <-; lia).
    do 2 f_equal. apply zslice_zsplice_disjoint; [lia|lia|lia|]. Z.to_euclidean_division_equations; lia.
Qed.

(** [d'] is [d] with entry [c] set to [v] in every copy of the table, and
    nothing else changed. *)
Record fat_set b (c v : Z) d d' : Prop := {
  fs_count : sector_count d' = sector_count d;
  fs_other : ∀ s, 0 ≤ s → s < reserved_sectors b ∨ data_start_sector b ≤ s → sec d' s = sec d s;
  fs_entry : ∀ k c', 0 ≤ k < fat_count b → in_table b c' →
    fatk b d' k c' = if decide (c' = c) then v else fatk b d k c';
}.

Lemma geo_count b d d' : geo_ok b d → sector_count d' = sector_count d → geo_ok b d'.
Proof. intros [] E. constructor; try done. by rewrite E. Qed.

Lemma fat_write_entry_spec b d c v :
  geo_ok b d → in_table b c → 0 ≤ v ≤ FAT32_MASK →
  ∃ d', fat_write_entry b c v (Some d) = Done (Some d') ∧ fat_set b c v d d'.
Proof.
  intros Hg Hc Hv. unfold fat_write_entry.
  assert (∀ n, 0 ≤ n → n ≤ fat_count b →
    ∃ d', for_each (seqZ 0 n) (fat_write_copy b c v) (Some d) = Done (Some d') ∧
      sector_count d' = sector_count d ∧
      (∀ s, 0 ≤ s → s < reserved_sectors b ∨ reserved_sectors b + n * sectors_per_fat b ≤ s → sec d' s = sec d s) ∧
      (∀ k c', 0 ≤ k < n → in_table b c' → fatk b d' k c' = if decide (c' = c) then v else fatk b d k c'))
    as Hn.
  { apply (natlike_ind (λ n, n ≤ fat_count b → _)).
    - intros _. exists d. split; [done|]. split; [done|]. split; [done|]. lia.
    - intros n Hn IH Hle. destruct IH as (d1 & E1 & Hc1 & Ho1 & He1); [lia|].
      pose proof (geo_count _ _ _ Hg Hc1) as Hg1.
      destruct (fat_write_copy_spec b d1 c v n Hg1) as (d2 & data & E2 & [Hc2 Hs2] & Hd & Hd'); [lia|done|done|].
      pose proof (entry_sector_range b d n c Hg ltac:(lia) Hc) as (Hr & Hr' & _).
      pose proof (g_spf _ _ Hg). pose proof (g_reserved _ _ Hg).
      exists d2. rewrite <-Z.add_1_r, seqZ_snoc, for_each_app, E1, Z.add_0_l by done. simpl. rewrite E2. simpl.
      split; [done|]. split; [lia|]. split.
      + intros s Hs Hs'. rewrite Hs2 by done. rewrite decide_False by lia. apply Ho1; [done|]. nia.
      + intros k c' Hk Hc'. pose proof (entry_sector_range b d k c' Hg ltac:(lia) Hc') as (Hr1 & Hr2 & _).
        unfold fatk at 1. rewrite Hs2 by lia. destruct (decide (k = n)) as [->|Hkn].
        * assert (sec d1 (entry_sector b n c') = sec d (entry_sector b n c')) as Ek by (apply Ho1; lia).
          case_decide as Es; [|rewrite decide_False by congruence; by rewrite Ek].
          destruct (decide (c' = c)) as [->|Hcc]; [done|].
          rewrite Hd' by done. unfold fatk. by rewrite <-Es, Ek.
        * rewrite decide_False; [apply He1; [lia|done]|]. nia. }
  destruct (Hn (fat_count b)) as (d' & E & E1 & E2 & E3); [pose proof (g_fats _ _ Hg); lia|lia|].
  exists d'. split; [done|]. constructor; done.
Qed.

(* ------------------------------------------------------------------ *)
(** ** Allocation *)

Definition alloc_result b d (r : option Z) d' : Prop :=
  match r with
  | Some c => cluster_ok b c ∧ fat b d c = FAT32_FREE ∧
              (∀ c', 2 ≤ c' < c → fat b d c' ≠ FAT32_FREE) ∧ fat_set b c FAT32_EOC d d'
  | None => d' = d ∧ ∀ c, cluster_ok b c → fat b d c ≠ FAT32_FREE
  end.

Lemma alloc_from_spec b d n c :
  geo_ok b d → 2 ≤ c → c + Z.of_nat n = ncl b → (∀ c', 2 ≤ c' < c → fat b d c' ≠ FAT32_FREE) →
  ∃ r d', alloc_from b n c (Some d) = Done (r, Some d') ∧ alloc_result b d r d'.
Proof.
  intros Hg. revert c. induction n as [|n IH]; intros c Hc Hn Hused; simpl.
  - exists None, d. split; [done|]. split; [done|]. intros c' [? ?]. apply Hused. lia.
  - assert (cluster_ok b c) as Hok by (split; lia).
    pose proof (cluster_in_table b d c Hg Hok) as Ht.
    rewrite (fat_read_entry_fat b d c Hg Ht). cbn [mbind outcome_bind].
    destruct (Z.eqb_spec (fat b d c) FAT32_FREE) as [Hf|Hf].
    + destruct (fat_write_entry_spec b d c FAT32_EOC Hg Ht) as (d' & -> & Hset);
        [unfold FAT32_EOC, FAT32_MASK; lia|].
      by exists (Some c), d'.
    + apply IH; [lia|lia|]. intros c' ?. destruct (decide (c' = c)) as [->|]; [done|]. apply Hused. lia.
Qed.

Lemma fat_alloc_cluster_spec b d :
  geo_ok b d → ∃ r d', fat_alloc_cluster b (Some d) = Done (r, Some d') ∧ alloc_result b d r d'.
Proof.
  intros Hg. unfold fat_alloc_cluster. rewrite (max_cluster_eq b d Hg).
  assert (2 ≤ ncl b).
  { destruct Hg. unfold ncl.
    assert (0 ≤ (total_sectors b - data_start_sector b) `div` sectors_per_cluster b); [|lia].
    apply Z.div_pos; lia. }
  apply alloc_from_spec; [done|lia|lia|lia].
Qed.

(* ------------------------------------------------------------------ *)
(** ** Chains *)

(** The clusters of a well-formed file: allocated, linked, marked at the end. *)
Inductive is_chain b d : Z → list Z → Prop :=
  | chain_last c : cluster_ok b c → FAT32_EOC ≤ fat b d c → is_chain b d c [c]
  | chain_more c l : cluster_ok b c → is_chain b d (fat b d c) l → is_chain b d c (c :: l).

Lemma is_chain_head b d c l : is_chain b d c l → cluster_ok b c ∧ ∃ k, l = c :: k.
Proof. destruct 1; eauto. Qed.

Lemma is_chain_ok b d c l x : is_chain b d c l → x ∈ l → cluster_ok b x ∧ fat b d x ≠ FAT32_FREE.
Proof.
  induction 1 as [c Hc He|c l Hc Hl IH]; intros Hx; apply elem_of_cons in Hx as [->|Hx].
  - split; [done|]. unfold FAT32_EOC, FAT32_FREE in *. lia.
  - by apply elem_of_nil in Hx.
  - split; [done|]. apply is_chain_head in Hl as [[? ?] _]. unfold FAT32_FREE. lia.
  - by apply IH.
Qed.

Lemma is_chain_det b d c l1 l2 : geo_ok b d → is_chain b d c l1 → is_chain b d c l2 → l1 = l2.
Proof.
  intros Hg Hc1. pose proof (g_eoc _ _ Hg). revert l2.
  induction Hc1 as [c Hc He|c l Hc Hl IH]; intros l2 Hc2; inversion Hc2 as [? ? He2|? l' ? Hl2]; subst.
  - done.
  - apply is_chain_head in Hl2 as [[? ?] _]. lia.
  - apply is_chain_head in Hl as [[? ?] _]. lia.
  - f_equal. by apply IH.
Qed.

Lemma is_chain_suffix b d c l x :
  is_chain b d c l → x ∈ l → ∃ k, is_chain b d x k ∧ (length k ≤ length l)%nat.
Proof.
  induction 1 as [c Hc He|c l Hc Hl IH]; intros Hx; apply elem_of_cons in Hx as [->|Hx].
  - exists [c]. split; [by constructor|done].
  - by apply elem_of_nil in Hx.
  - exists (c :: l). split; [by constructor|done].
  - destruct (IH Hx) as (k & ? & ?). exists k. split; [done|]. simpl. lia.
Qed.

Lemma is_chain_NoDup b d c l : geo_ok b d → is_chain b d c l → NoDup l.
Proof.
  intros Hg. induction 1 as [c Hc He|c l Hc Hl IH]; [apply NoDup_singleton|].
  apply NoDup_cons. split; [|done]. intros Hx.
  destruct (is_chain_suffix _ _ _ _ _ Hl Hx) as (k & Hk & Hlen).
  assert (k = c :: l) as -> by (eapply is_chain_det; [done|done|by constructor]). simpl in Hlen. lia.
Qed.

Lemma clusters_bound b (l : list Z) : NoDup l → (∀ x, x ∈ l → cluster_ok b x) → zlen l ≤ Z.max 0 (ncl b - 2).
Proof.
  intros Hnd Hok.
  assert (l ⊆+ seqZ 2 (ncl b - 2)) as Hs.
  { apply NoDup_submseteq; [done|]. intros x Hx%Hok. apply elem_of_seqZ. unfold cluster_ok in Hx. lia. }
  apply submseteq_length in Hs. rewrite length_seqZ in Hs. unfold zlen. lia.
Qed.

Lemma chain_turns b d c l acc :
  geo_ok b d → is_chain b d c l → turns (length l) (chain_step b (Some d)) (acc, c) = Done (inr (acc ++ l)).
Proof.
  intros Hg Hc. pose proof (g_eoc _ _ Hg). revert acc.
  induction Hc as [c Hc He|c l Hc Hl IH]; intros acc; simpl;
    (rewrite (proj2 (Z.leb_le 2 c)) by (destruct Hc; lia));
    (rewrite (proj2 (Z.ltb_lt c FAT32_EOC)) by (destruct Hc; lia));
    rewrite (fat_read_entry_fat b d c Hg) by (by eapply cluster_in_table); cbn [mbind outcome_bind andb].
  - by rewrite (proj2 (Z.leb_le _ _) He).
  - apply is_chain_head in Hl as [[? ?] _].
    rewrite (proj2 (Z.leb_gt _ _)), (proj2 (Z.ltb_ge _ _)) by lia. cbn [orb mbind outcome_bind].
    rewrite IH. by rewrite <-app_assoc.
Qed.

Lemma cluster_chain_spec b d c l :
  geo_ok b d → is_chain b d c l → cluster_chain b c (Some d) = Done l.
Proof.
  intros Hg Hc. unfold cluster_chain. eapply loop_end_turns; [by apply (chain_turns b d c l [])|].
  pose proof (clusters_bound b l (is_chain_NoDup _ _ _ _ Hg Hc)
    (λ x Hx, proj1 (is_chain_ok _ _ _ _ x Hc Hx))) as Hb.
  pose proof (g_eoc _ _ Hg). unfold FAT32_EOC, zlen in *. apply Nat2Z.inj_le.
  rewrite positive_nat_Z. unfold MAX_CHAIN. lia.
Qed.

Lemma is_chain_frame b d d' c l :
  is_chain b d c l → (∀ x, x ∈ l → fat b d' x = fat b d x) → is_chain b d' c l.
Proof.
  induction 1 as [c Hc He|c l Hc Hl IH]; intros Hf; constructor; try done.
  - rewrite Hf; [done|by left].
  - rewrite Hf by (by left). apply IH. intros. apply Hf. by right.
Qed.

(** Linking a chain to the end of another. *)
Lemma is_chain_app b d d' c l z n k :
  is_chain b d c l → NoDup l → last l = Some z → (∀ x, x ∈ l → x ≠ z → fat b d' x = fat b d x) →
  fat b d' z = n → is_chain b d' n k → is_chain b d' c (l ++ k).
Proof.
  intros Hc. induction Hc as [c Hc He|c l Hc Hl IH]; intros Hnd Hz Hf En Hk; simpl.
  - injection Hz as ->. subst n. by constructor.
  - apply NoDup_cons in Hnd as [Hcl Hnd]. destruct (is_chain_head _ _ _ _ Hl) as [_ [k' ->]].
    rewrite last_cons_cons in Hz.
    assert (c ≠ z) by (intros ->; apply Hcl; by apply last_Some_elem_of).
    constructor; [done|]. rewrite Hf by (done || by left). apply IH; try done.
    intros. apply Hf; [by right|done].
Qed.
End table.
