(* ===== verification/Fat32File.v ===== *)
(** * FAT32: file contents

    The sectors of a file are the sectors of its chain, in order; [ct] is their
    contents.  Shown here: reading copies the addressed bytes of the contents,
    a write overwrites exactly the addressed bytes, extending the chain by
    free clusters when it must, and what was written is read back; files with
    other chains keep their chain and their bytes; a write on a full disk is
    cut short at the clusters there are. *)

From S2P Require Import Prelude BlockDev Vfs Fat32 Fat32Table.

Lemma for_each_concat {A S} (ls : list (list A)) (body : A → S → outcome S) s :
  for_each (concat ls) body s = for_each ls (λ l, for_each l body) s.
Proof.
  revert s. induction ls as [|l ls IH]; intros s; simpl; [done|].
  rewrite for_each_app. destruct (for_each l body s); simpl; [apply IH|done].
Qed.

Section file.
Context {D : Type} `{Disk D}.
Implicit Types (d : D) (b : Bpb).

(** The sectors of a cluster and of a chain. *)
Definition csecs b (c : Z) : list Z := seqZ (cluster_to_sector b c) (sectors_per_cluster b).
Definition fsecs b (l : list Z) : list Z := concat (map (csecs b) l).
Definition ct b d (l : list Z) : list Z := concat (map (sec d) (fsecs b l)).

Definition clusters_ok b (l : list Z) : Prop := NoDup l ∧ ∀ c, c ∈ l → cluster_ok b c.

Lemma is_chain_clusters b d c l : geo_ok b d → is_chain b d c l → clusters_ok b l.
Proof. intros Hg Hc. split; [by eapply is_chain_NoDup|]. intros x Hx. by eapply is_chain_ok in Hx as [? _]. Qed.

Lemma csecs_range b d c s :
  geo_ok b d → cluster_ok b c → s ∈ csecs b c →
  data_start_sector b + (c - 2) * sectors_per_cluster b ≤ s <
    data_start_sector b + (c - 1) * sectors_per_cluster b ∧
  data_start_sector b ≤ s < total_sectors b ∧ 0 ≤ s < sector_count d.
Proof.
  intros Hg Hc Hs. destruct (cluster_sector b d c Hg Hc) as [E Hle]. unfold csecs in Hs.
  rewrite E in Hs. apply elem_of_seqZ in Hs. destruct Hg, Hc.
  assert (0 ≤ data_start_sector b) by (unfold data_start_sector; nia).
  assert (0 ≤ (c - 2) * sectors_per_cluster b) by nia. lia.
Qed.

Lemma csecs_inj b d c1 c2 s :
  geo_ok b d → cluster_ok b c1 → cluster_ok b c2 → s ∈ csecs b c1 → s ∈ csecs b c2 → c1 = c2.
Proof.
  intros Hg Hk1 Hk2 Hs1%(csecs_range b d c1 s Hg Hk1) Hs2%(csecs_range b d c2 s Hg Hk2).
  pose proof (g_spc _ _ Hg). nia.
Qed.

Lemma elem_of_fsecs b l s : s ∈ fsecs b l ↔ ∃ c, c ∈ l ∧ s ∈ csecs b c.
Proof.
  unfold fsecs. induction l as [|c l IH]; simpl.
  - split; [intros ?%elem_of_nil; done|]. intros (? & ?%elem_of_nil & _). done.
  - rewrite elem_of_app, IH. setoid_rewrite elem_of_cons. naive_solver.
Qed.

Lemma fsecs_range b d l s :
  geo_ok b d → clusters_ok b l → s ∈ fsecs b l →
  data_start_sector b ≤ s < total_sectors b ∧ 0 ≤ s < sector_count d.
Proof. intros Hg [_ Hl] (c & Hc & Hs)%elem_of_fsecs. by apply (csecs_range b d c s Hg (Hl c Hc)). Qed.

Lemma fsecs_NoDup b d l : geo_ok b d → clusters_ok b l → NoDup (fsecs b l).
Proof.
  intros Hg [Hnd Hl]. induction l as [|c l IH]; [apply NoDup_nil_2|].
  apply NoDup_cons in Hnd as [Hc Hnd]. unfold fsecs. simpl. apply NoDup_app. split; [|split].
  - apply NoDup_seqZ.
  - intros s Hs (c' & Hc' & Hs')%elem_of_fsecs.
    assert (c = c') as ->; [|done]. eapply csecs_inj; [done| | |done|done]; apply Hl; [by left|by right].
  - apply IH; [done|]. intros. apply Hl. by right.
Qed.

Lemma zlen_fsecs b d l : geo_ok b d → zlen (fsecs b l) = sectors_per_cluster b * zlen l.
Proof.
  intros Hg. pose proof (g_spc _ _ Hg). unfold fsecs. rewrite (zlen_concat (sectors_per_cluster b)).
  - unfold zlen. by rewrite length_map.
  - apply List.Forall_forall. intros x (c & <- & _)%in_map_iff. unfold csecs, zlen. rewrite length_seqZ. lia.
Qed.

Lemma secs_len b d l : geo_ok b d → clusters_ok b l → Forall (λ x, zlen x = 512) (map (sec d) (fsecs b l)).
Proof.
  intros Hg Hl. apply List.Forall_forall. intros x (s & <- & Hs)%in_map_iff.
  apply zlen_sec. eapply (fsecs_range b d l); [done|done|]. by apply list_elem_of_In.
Qed.

Lemma zlen_ct b d l : geo_ok b d → clusters_ok b l → zlen (ct b d l) = cluster_size_bytes b * zlen l.
Proof.
  intros Hg Hl. unfold ct. rewrite (zlen_concat 512) by (by apply secs_len).
  unfold cluster_size_bytes, SECTOR_SIZE, zlen at 1. rewrite length_map. fold (zlen (fsecs b l)).
  rewrite (zlen_fsecs b d l Hg). lia.
Qed.

(** The sector at a position of the file. *)
Lemma ct_sector b d l k s :
  geo_ok b d → clusters_ok b l → zget (fsecs b l) k = Some s →
  zslice (ct b d l) (512 * k) (512 * k + 512) = sec d s.
Proof.
  intros Hg Hl Hk. pose proof (zget_Some_range _ _ _ Hk) as Hr.
  replace k with (Z.of_nat (Z.to_nat k)) by lia. apply (zslice_concat 512); [by apply secs_len|].
  unfold zget in Hk. rewrite (proj2 (Z.leb_le 0 k)) in Hk by lia.
  rewrite list_lookup_fmap, Hk. done.
Qed.

(** Writing one sector of the file overwrites that part of the contents. *)
Lemma ct_write b d d' l k s data :
  geo_ok b d → clusters_ok b l → zget (fsecs b l) k = Some s → zlen data = 512 →
  sec_set s data d d' → ct b d' l = zsplice (ct b d l) (512 * k) data.
Proof.
  intros Hg Hl Hk Hd [_ Hs]. pose proof (zget_Some_range _ _ _ Hk) as Hr.
  unfold zget in Hk. rewrite (proj2 (Z.leb_le 0 k)) in Hk by lia. unfold ct.
  replace (512 * k) with (512 * Z.of_nat (Z.to_nat k)) by lia.
  rewrite (zsplice_concat 512 _ _ (sec d s)); [|by apply secs_len|by rewrite list_lookup_fmap, Hk|done].
  f_equal. apply list_eq. intros j. rewrite list_lookup_fmap.
  pose proof (fsecs_NoDup b d l Hg Hl) as Hnd.
  destruct (decide (j = Z.to_nat k)) as [->|Hne].
  - rewrite Hk. rewrite list_lookup_insert_eq
      by (apply lookup_lt_Some in Hk; rewrite length_map; done). simpl.
    assert (s ∈ fsecs b l) by (by eapply list_elem_of_lookup_2).
    rewrite Hs by (eapply (fsecs_range b d l); eauto). by rewrite decide_True.
  - rewrite list_lookup_insert_ne, list_lookup_fmap by done.
    destruct (fsecs b l !! j) as [t|] eqn:Ht; [|done]. simpl. f_equal.
    assert (t ∈ fsecs b l) by (by eapply list_elem_of_lookup_2).
    rewrite Hs by (eapply (fsecs_range b d l); eauto). rewrite decide_False; [done|].
    intros ->. apply Hne. by eapply NoDup_lookup.
Qed.

Lemma fsecs_app b l1 l2 : fsecs b (l1 ++ l2) = fsecs b l1 ++ fsecs b l2.
Proof. unfold fsecs. by rewrite map_app, concat_app. Qed.

Lemma ct_app b d l1 l2 : ct b d (l1 ++ l2) = ct b d l1 ++ ct b d l2.
Proof. unfold ct. by rewrite fsecs_app, map_app, concat_app. Qed.

(** Sector [s] of the cluster after the clusters [p]. *)
Lemma fsecs_get b d p c q s :
  geo_ok b d → clusters_ok b (p ++ c :: q) → 0 ≤ s < sectors_per_cluster b →
  zget (fsecs b (p ++ c :: q)) (sectors_per_cluster b * zlen p + s) = Some (cluster_to_sector b c ⊞ s) ∧
  0 ≤ cluster_to_sector b c ⊞ s < sector_count d.
Proof.
  intros Hg Hl Hs.
  assert (cluster_to_sector b c + s ∈ csecs b c) as Hin by (apply elem_of_seqZ; lia).
  destruct (csecs_range b d c _ Hg (proj2 Hl c ltac:(set_solver)) Hin) as (_ & _ & Hr).
  pose proof (disk_size d). rewrite wrap_small by (unfold is_uint; lia). split; [|done].
  rewrite fsecs_app, zget_app_r; rewrite (zlen_fsecs b d p Hg); [|lia].
  change (fsecs b (c :: q)) with (csecs b c ++ fsecs b q).
  rewrite zget_app_l by (unfold csecs, zlen; rewrite length_seqZ; lia).
  unfold csecs, zget. rewrite (proj2 (Z.leb_le _ _)) by lia. rewrite lookup_seqZ_lt by lia. f_equal. lia.
Qed.

(* ------------------------------------------------------------------ *)
(** ** Reading *)

(** How much of an access of [n] bytes at [offset] lies in the first [k]
    sectors. *)
Definition upto (offset n k : Z) : Z := Z.max 0 (Z.min n (512 * k - offset)).

Section reading.
Context (b : Bpb) (d : D) (l : list Z) (offset readable : Z) (buf : list Z).
Hypothesis Hg : geo_ok b d.
Hypothesis Hl : clusters_ok b l.
Hypothesis Ho : 0 ≤ offset.
Hypothesis Hr : 0 < readable ≤ zlen buf.

Definition rd_inv (k : Z) (r : rd) : Prop :=
  rd_pos r = 512 * k ∧ rd_done r = upto offset readable k ∧ zlen (rd_sector r) = 512 ∧
  rd_buf r = zsplice buf 0 (zslice (ct b d l) offset (offset + upto offset readable k)).

Lemma read_one_spec k start s r :
  zget (fsecs b l) k = Some (start ⊞ s) → 0 ≤ start ⊞ s < sector_count d → rd_inv k r →
  ∃ r', read_one offset readable start (Some d) s r = Done r' ∧ rd_inv (k + 1) r'.
Proof.
  intros Hk Hs (Ep & Ed & Hsl & Eb). pose proof (zget_Some_range _ _ _ Hk) as Hkr.
  unfold read_one. rewrite Ep. unfold SECTOR_SIZE.
  destruct (Z.leb_spec (512 * k + 512) offset), (Z.leb_spec (offset + readable) (512 * k)); cbn [orb];
    try (assert (upto offset readable (k + 1) = upto offset readable k) as Eu by (unfold upto; lia);
         eexists; split; [done|]; unfold rd_inv; rewrite Eu; simpl;
         refine (conj _ (conj Ed (conj Hsl Eb))); lia).
  rewrite read_sector_sec by done. pose proof (zlen_sec d _ Hs) as Hsec.
  set (from := if 512 * k <? offset then offset - 512 * k else 0).
  set (to := Z.min 512 (offset + readable - 512 * k)).
  assert (0 ≤ from ∧ from < to ∧ to ≤ 512 ∧ 512 * k + from - offset = upto offset readable k ∧
          upto offset readable (k + 1) = upto offset readable k + (to - from) ∧
          512 * k + from = offset + upto offset readable k) as (? & ? & ? & Eu & Eu' & Ef)
    by (unfold from, to, upto; destruct (Z.ltb_spec (512 * k) offset); lia).
  rewrite slice_Done by lia. cbn [mbind outcome_bind].
  pose proof (zlen_ct b d l Hg Hl) as Hct. pose proof (zlen_fsecs b d l Hg) as Hfs.
  unfold cluster_size_bytes, SECTOR_SIZE in Hct.
  assert (upto offset readable (k + 1) ≤ readable) by (unfold upto; lia).
  assert (0 ≤ upto offset readable k) by (unfold upto; lia).
  assert (zlen (zslice (ct b d l) offset (offset + upto offset readable k)) = upto offset readable k) as Hz.
  { rewrite zlen_zslice; [lia|lia|]. nia. }
  rewrite Eu, copy_into_Done; [|lia|rewrite Eb, zlen_zsplice; lia|rewrite zlen_zslice; lia].
  cbn [mbind outcome_bind]. eexists. split; [done|]. split; [simpl; lia|]. split; [simpl; lia|].
  split; [done|]. simpl. rewrite Eb, <-(ct_sector b d l k _ Hg Hl Hk).
  rewrite zslice_zslice by nia.
  rewrite zsplice_next; [|lia|lia|rewrite Hz, zlen_zslice; lia].
  f_equal. rewrite <-(zslice_app _ offset (offset + upto offset readable k) (offset + upto offset readable (k + 1))) by lia.
  do 2 f_equal; lia.
Qed.

Lemma read_sectors_loop p c q n r :
  l = p ++ c :: q → 0 ≤ n → n ≤ sectors_per_cluster b → rd_inv (sectors_per_cluster b * zlen p) r →
  ∃ r', for_each (seqZ 0 n) (read_one offset readable (cluster_to_sector b c) (Some d)) r = Done r' ∧
        rd_inv (sectors_per_cluster b * zlen p + n) r'.
Proof.
  intros El Hn. revert n Hn. apply (natlike_ind (λ n, n ≤ _ → _ → _)).
  - intros _ Hi. exists r. by rewrite Z.add_0_r.
  - intros n Hn IH Hle Hi. destruct IH as (r1 & E1 & Hi1); [lia|done|].
    destruct (fsecs_get b d p c q n Hg) as [Hk Hs]; [by rewrite <-El|lia|]. rewrite <-El in Hk.
    destruct (read_one_spec _ _ _ _ Hk Hs Hi1) as (r2 & E2 & Hi2).
    exists r2. rewrite <-Z.add_1_r, seqZ_snoc, for_each_app, E1, Z.add_0_l by done. simpl. rewrite E2. simpl.
    split; [done|]. by rewrite Z.add_assoc.
Qed.

Lemma read_clusters_loop p q r :
  l = p ++ q → rd_inv (sectors_per_cluster b * zlen p) r →
  ∃ r' broke, for_until q (read_cluster b offset readable (Some d)) r =
                Done (if broke : bool then inr r' else inl r') ∧
    rd_done r' = upto offset readable (zlen (fsecs b l)) ∧
    rd_buf r' = zsplice buf 0 (zslice (ct b d l) offset (offset + upto offset readable (zlen (fsecs b l)))).
Proof.
  revert p r. induction q as [|c q IH]; intros p r El Hi; simpl.
  - exists r, false. split; [done|]. rewrite (zlen_fsecs b d l Hg). rewrite app_nil_r in El. subst p.
    by destruct Hi as (_ & ? & _ & ?).
  - pose proof (g_spc _ _ Hg). pose proof (zlen_nonneg p). pose proof (zlen_nonneg q).
    pose proof Hi as (Ep & Ed & Hsl & Eb). 
    remember (for_until q (read_cluster b offset readable (Some d))) as rest eqn:Erest.
    unfold read_cluster, cluster_size_bytes, SECTOR_SIZE.
    assert (El' : l = (p ++ [c]) ++ q) by (by rewrite <-app_assoc).
    assert (zlen (p ++ [c]) = zlen p + 1) as Hzp by (rewrite zlen_app; done).
    destruct (Z.leb_spec (rd_pos r + sectors_per_cluster b * 512) offset);
      [|destruct (Z.leb_spec (offset + readable) (rd_pos r))]; cbn [mbind outcome_bind].
    + apply (IH (p ++ [c])); [done|]. rewrite Hzp.
      assert (upto offset readable (sectors_per_cluster b * (zlen p + 1)) =
              upto offset readable (sectors_per_cluster b * zlen p)) as Eu by (unfold upto; lia).
      unfold rd_inv. rewrite Eu. simpl. refine (conj _ (conj Ed (conj Hsl Eb))). lia.
    + exists r, true. split; [done|].
      assert (upto offset readable (zlen (fsecs b l)) = upto offset readable (sectors_per_cluster b * zlen p))
        as ->; [|done].
      rewrite (zlen_fsecs b d l Hg), El, zlen_app, zlen_cons. unfold upto. nia.
    + destruct (read_sectors_loop p c q (sectors_per_cluster b) r El) as (r1 & -> & Hi1); [lia|lia|done|].
      cbn [mbind outcome_bind]. apply (IH (p ++ [c])); [done|]. rewrite Hzp.
      by replace (sectors_per_cluster b * (zlen p + 1)) with
        (sectors_per_cluster b * zlen p + sectors_per_cluster b) by lia.
Qed.
End reading.

(** The bytes a read delivers: as many as the buffer, the size and the
    chain allow. *)
Definition readable_at (size len offset n : Z) : Z := Z.max 0 (Z.min (Z.min n (size - offset)) (len - offset)).

Lemma fat_file_read_spec b d c l size offset buf :
  geo_ok b d → is_chain b d c l → 0 ≤ offset →
  let n := readable_at size (zlen (ct b d l)) offset (zlen buf) in
  fat_file_read b c size offset buf (Some d) =
    Done (n, zsplice buf 0 (zslice (ct b d l) offset (offset + n))).
Proof.
  intros Hg Hc Ho n. pose proof (zlen_nonneg buf).
  pose proof (is_chain_clusters b d c l Hg Hc) as Hl. unfold fat_file_read.
  destruct (Z.leb_spec size offset); cbn [orb].
  { assert (n = 0) as -> by (unfold n, readable_at; lia). by rewrite zslice_nil, zsplice_nil by lia. }
  case_bool_decide as Hb.
  { subst buf. assert (n = 0) as -> by (unfold n, readable_at; change (zlen []) with 0; lia).
    by rewrite zslice_nil, zsplice_nil by lia. }
  assert (0 < zlen buf) by (destruct buf; [done|]; rewrite zlen_cons in *; pose proof (zlen_nonneg buf); lia).
  rewrite (cluster_chain_spec b d c l Hg Hc). cbn [mbind outcome_bind].
  destruct (read_clusters_loop b d l offset (Z.min (zlen buf) (size - offset)) buf Hg Hl Ho ltac:(lia)
    [] l (mkRd 0 0 buf (zrep 512 0))) as (r & broke & -> & Ed & Eb); [done| |].
  { rewrite zlen_nil, Z.mul_0_r.
    assert (upto offset (Z.min (zlen buf) (size - offset)) 0 = 0) as Eu by (unfold upto; lia).
    unfold rd_inv. rewrite Eu. simpl. split_and!; [done|done|done|].
    by rewrite zslice_nil, zsplice_nil by lia. }
  assert (upto offset (Z.min (zlen buf) (size - offset)) (zlen (fsecs b l)) = n) as En.
  { unfold n, readable_at, upto. rewrite (zlen_ct b d l Hg Hl), (zlen_fsecs b d l Hg).
    unfold cluster_size_bytes, SECTOR_SIZE. lia. }
  rewrite En in *. destruct broke; cbn [mbind outcome_bind]; by rewrite Ed, Eb.
Qed.

(* ------------------------------------------------------------------ *)
(** ** Writing *)

Section writing.
Context (b : Bpb) (d : D) (l : list Z) (offset : Z) (data : list Z).
Hypothesis Hg : geo_ok b d.
Hypothesis Hl : clusters_ok b l.
Hypothesis Ho : 0 ≤ offset.
Hypothesis Hmax : offset + zlen data < 2 ^ 63.

Notation done k := (upto offset (zlen data) k).

(** [dk] is [d] with the first [n] bytes of the data written. *)
Definition written (n : Z) dk : Prop :=
  sector_count dk = sector_count d ∧ ct b dk l = zsplice (ct b d l) offset (ztake n data) ∧
  ∀ t, 0 ≤ t → t ∉ fsecs b l → sec dk t = sec d t.

Definition wr_inv (k : Z) (w : wr) : Prop :=
  wr_pos w = 512 * k ∧ wr_done w = done k ∧ zlen (wr_sector w) = 512 ∧
  ∃ dk, wr_dev w = Some dk ∧ written (done k) dk.

Lemma write_one_spec k start s w :
  zget (fsecs b l) k = Some (start ⊞ s) → 0 ≤ start ⊞ s < sector_count d → wr_inv k w →
  ∃ w', write_one offset (offset + zlen data) data start s w = Done w' ∧ wr_inv (k + 1) w'.
Proof.
  intros Hk Hs (Ep & Ed & Hsl & dk & Ew & Hc & Ect & Hout).
  pose proof (zget_Some_range _ _ _ Hk) as Hkr. pose proof (zlen_nonneg data).
  unfold write_one. rewrite Ep, Ew. unfold SECTOR_SIZE.
  destruct (Z.leb_spec (512 * k + 512) offset), (Z.leb_spec (offset + zlen data) (512 * k)); cbn [orb];
    try (assert (done (k + 1) = done k) as Eu by (unfold upto; lia);
         eexists; split; [done|]; unfold wr_inv; rewrite Eu; simpl;
         refine (conj _ (conj Ed (conj Hsl (ex_intro _ dk (conj eq_refl (conj Hc (conj Ect Hout))))))); lia).
  pose proof (geo_count _ _ _ Hg Hc) as Hgk. rewrite read_sector_sec by (rewrite ?Hc; done).
  pose proof (zlen_sec dk (start ⊞ s) ltac:(rewrite Hc; done)) as Hsec.
  set (from := if 512 * k <? offset then offset - 512 * k else 0).
  set (to := Z.min 512 (offset + zlen data - 512 * k)).
  assert (0 ≤ from ∧ from ≤ to ∧ to ≤ 512 ∧ 512 * k + from - offset = done k ∧
          done (k + 1) = done k + (to - from) ∧ 512 * k + from = offset + done k ∧
          0 ≤ done k ∧ done (k + 1) ≤ zlen data) as (? & ? & ? & Eu & Eu' & Ef & ? & ?)
    by (unfold from, to, upto; destruct (Z.ltb_spec (512 * k) offset); lia).
  rewrite Eu, (wrap_small 64 (to - from)) by (unfold is_uint; lia).
  rewrite (wrap_small 64 (done k + _)) by (unfold is_uint; lia).
  rewrite slice_Done by lia. cbn [mbind outcome_bind].
  set (src := zslice data (done k) (done k + (to - from))).
  assert (zlen src = to - from) as Hsrc by (unfold src; rewrite zlen_zslice; lia).
  rewrite copy_into_Done by lia. cbn [mbind outcome_bind].
  assert (zlen (zsplice (sec dk (start ⊞ s)) from src) = 512) as Hnew by (rewrite zlen_zsplice; lia).
  destruct (write_sector_sec dk (start ⊞ s) (zsplice (sec dk (start ⊞ s)) from src)) as (d' & -> & Hset);
    [by rewrite Hc|done|].
  pose proof (zlen_ct b d l Hg Hl) as Hct. pose proof (zlen_fsecs b d l Hg) as Hfs.
  pose proof (zlen_ct b dk l Hgk Hl) as Hctk. unfold cluster_size_bytes, SECTOR_SIZE in Hct, Hctk.
  eexists. split; [done|]. split; [simpl; lia|]. split; [simpl; lia|].
  split; [done|]. exists d'. split; [done|]. destruct Hset as [Hc' Hs'].
  split; [congruence|]. split.
  - rewrite (ct_write b dk d' l k _ _ Hgk Hl Hk Hnew (conj Hc' Hs')).
    rewrite <-(ct_sector b dk l k _ Hgk Hl Hk).
    rewrite zsplice_zslice_part by nia. rewrite Ef, Ect.
    rewrite zsplice_next; [|lia|rewrite zlen_ztake; lia|rewrite zlen_ztake, Hsrc; nia].
    f_equal. rewrite Eu'. unfold src.
    replace (ztake (done k) data) with (zslice data 0 (done k))
      by (unfold zslice; by rewrite Z.sub_0_r).
    rewrite zslice_app by lia. unfold zslice. by rewrite Z.sub_0_r.
  - intros t Ht Htn. rewrite Hs', decide_False by (try lia; intros ->; apply Htn;
      unfold zget in Hk; rewrite (proj2 (Z.leb_le _ _)) in Hk by lia; by eapply list_elem_of_lookup_2).
    by apply Hout.
Qed.

Lemma write_sectors_loop p c q n w :
  l = p ++ c :: q → 0 ≤ n → n ≤ sectors_per_cluster b → wr_inv (sectors_per_cluster b * zlen p) w →
  ∃ w', for_each (seqZ 0 n) (write_one offset (offset + zlen data) data (cluster_to_sector b c)) w = Done w' ∧
        wr_inv (sectors_per_cluster b * zlen p + n) w'.
Proof.
  intros El Hn. revert n Hn. apply (natlike_ind (λ n, n ≤ _ → _ → _)).
  - intros _ Hi. exists w. by rewrite Z.add_0_r.
  - intros n Hn IH Hle Hi. destruct IH as (w1 & E1 & Hi1); [lia|done|].
    destruct (fsecs_get b d p c q n Hg) as [Hk Hs]; [by rewrite <-El|lia|]. rewrite <-El in Hk.
    destruct (write_one_spec _ _ _ _ Hk Hs Hi1) as (w2 & E2 & Hi2).
    exists w2. rewrite <-Z.add_1_r, seqZ_snoc, for_each_app, E1, Z.add_0_l by done. simpl. rewrite E2. simpl.
    split; [done|]. by rewrite Z.add_assoc.
Qed.

Lemma write_clusters_loop p q w :
  l = p ++ q → wr_inv (sectors_per_cluster b * zlen p) w →
  ∃ w', for_each q (write_cluster b offset (offset + zlen data) data) w = Done w' ∧
        wr_inv (zlen (fsecs b l)) w'.
Proof.
  revert p w. induction q as [|c q IH]; intros p w El Hi; simpl.
  - exists w. split; [done|]. rewrite (zlen_fsecs b d l Hg). rewrite app_nil_r in El. by subst p.
  - pose proof (g_spc _ _ Hg).
    destruct (write_sectors_loop p c q (sectors_per_cluster b) w El) as (w1 & E1 & Hi1); [lia|lia|done|].
    fold (write_cluster b offset (offset + zlen data) data c w) in E1. rewrite E1. cbn [mbind outcome_bind].
    apply (IH (p ++ [c])); [by rewrite <-app_assoc|]. rewrite zlen_app, zlen_cons, zlen_nil.
    by replace (sectors_per_cluster b * (zlen p + (0 + 1))) with
      (sectors_per_cluster b * zlen p + sectors_per_cluster b) by lia.
Qed.

Lemma write_loop_spec :
  let n := Z.max 0 (Z.min (zlen data) (zlen (ct b d l) - offset)) in
  ∃ w d', for_each l (write_cluster b offset (offset + zlen data) data) (mkWr 0 0 (zrep 512 0) (Some d)) = Done w ∧
    wr_done w = n ∧ wr_dev w = Some d' ∧ written n d'.
Proof.
  intros n. destruct (write_clusters_loop [] l (mkWr 0 0 (zrep 512 0) (Some d))) as (w & E & _ & Ed & _ & d' & Ew & Hw).
  - done.
  - rewrite zlen_nil, Z.mul_0_r. assert (done 0 = 0) as Eu by (unfold upto; lia).
    unfold wr_inv. rewrite Eu. simpl. split; [done|]. split; [done|]. split; [done|].
    exists d. split; [done|]. split; [done|]. split; [|done].
    change (ztake 0 data) with (@nil Z). by rewrite zsplice_nil.
  - assert (done (zlen (fsecs b l)) = n) as En.
    { unfold n, upto. rewrite (zlen_ct b d l Hg Hl), (zlen_fsecs b d l Hg).
      unfold cluster_size_bytes, SECTOR_SIZE. lia. }
    rewrite En in *. by exists w, d'.
Qed.
End writing.

(* ------------------------------------------------------------------ *)
(** ** Extending a chain *)

(** [d'] is [d] with the chain [l] at [c] extended by the free clusters [new]. *)
Record extended b d c l new d' : Prop := {
  ext_count : sector_count d' = sector_count d;
  ext_sec : ∀ s, 0 ≤ s → s < reserved_sectors b ∨ data_start_sector b ≤ s → sec d' s = sec d s;
  ext_chain : is_chain b d' c (l ++ new);
  ext_free : ∀ x, x ∈ new → cluster_ok b x ∧ fat b d x = FAT32_FREE;
  ext_fat : ∀ k x, 0 ≤ k < fat_count b → in_table b x → x ∉ l → x ∉ new → fatk b d' k x = fatk b d k x;
}.

Lemma fat_set_fat b c v d d' x :
  geo_ok b d → fat_set b c v d d' → in_table b x → fat b d' x = if decide (x = c) then v else fat b d x.
Proof. intros Hg Hs Hx. apply (fs_entry _ _ _ _ _ Hs); [|done]. pose proof (g_fats _ _ Hg). lia. Qed.

(** One turn: a free cluster [n] marked and linked behind the last one [z]. *)
Lemma extended_one b d d1 d2 c l z n :
  geo_ok b d → is_chain b d c l → last l = Some z → cluster_ok b n → fat b d n = FAT32_FREE →
  fat_set b n FAT32_EOC d d1 → fat_set b z n d1 d2 → extended b d c l [n] d2.
Proof.
  intros Hg Hc Hz Hn Hf Hs1 Hs2. pose proof (geo_count _ _ _ Hg (fs_count _ _ _ _ _ Hs1)) as Hg1.
  pose proof (geo_count _ _ _ Hg1 (fs_count _ _ _ _ _ Hs2)) as Hg2.
  assert (z ∈ l) as Hzl by (by apply last_Some_elem_of).
  destruct (is_chain_ok _ _ _ _ _ Hc Hzl) as [Hzok Hzf].
  assert (z ≠ n) by congruence.
  assert (∀ x, in_table b x → fat b d2 x = if decide (x = z) then n else if decide (x = n) then FAT32_EOC else fat b d x)
    as Hfat.
  { intros x Hx. rewrite (fat_set_fat b z n d1 d2 x Hg1 Hs2 Hx). case_decide; [done|].
    by apply fat_set_fat. }
  constructor.
  - by rewrite (fs_count _ _ _ _ _ Hs2), (fs_count _ _ _ _ _ Hs1).
  - intros s Hs Hr. by rewrite (fs_other _ _ _ _ _ Hs2), (fs_other _ _ _ _ _ Hs1).
  - apply (is_chain_app b d d2 c l z n); [done|by apply (is_chain_NoDup b d c)|done| | |].
    + intros x Hx Hxz. destruct (is_chain_ok _ _ _ _ _ Hc Hx) as [Hxok Hxf].
      assert (x ≠ n) by (by intros ->). rewrite Hfat by (by eapply cluster_in_table).
      by rewrite !decide_False.
    + rewrite Hfat by (by eapply cluster_in_table). by rewrite decide_True.
    + constructor; [done|]. rewrite Hfat by (by eapply cluster_in_table).
      rewrite decide_False, decide_True by done. done.
  - intros x ->%list_elem_of_singleton. done.
  - intros k x Hk Hx Hxl Hxn. assert (x ≠ z) by (by intros ->). assert (x ≠ n) by set_solver.
    rewrite (fs_entry _ _ _ _ _ Hs2), decide_False, (fs_entry _ _ _ _ _ Hs1), decide_False by done. done.
Qed.

Lemma extended_trans b d d1 d2 c l n1 n2 :
  geo_ok b d → extended b d c l n1 d1 → extended b d1 c (l ++ n1) n2 d2 → extended b d c l (n1 ++ n2) d2.
Proof.
  intros Hg E1 E2. pose proof (g_fats _ _ Hg). constructor.
  - by rewrite (ext_count _ _ _ _ _ _ E2), (ext_count _ _ _ _ _ _ E1).
  - intros s Hs Hr. by rewrite (ext_sec _ _ _ _ _ _ E2), (ext_sec _ _ _ _ _ _ E1).
  - rewrite app_assoc. apply (ext_chain _ _ _ _ _ _ E2).
  - intros x [Hx|Hx]%elem_of_app; [by apply (ext_free _ _ _ _ _ _ E1)|].
    destruct (ext_free _ _ _ _ _ _ E2 x Hx) as [Hok Hf]. split; [done|].
    assert (x ∉ l ++ n1) as Hni.
    { intros Hin. by destruct (is_chain_ok _ _ _ _ x (ext_chain _ _ _ _ _ _ E1) Hin). }
    rewrite <-Hf. symmetry. apply (ext_fat _ _ _ _ _ _ E1); [lia|by eapply cluster_in_table|set_solver..].
  - intros k x Hk Hx Hl Hn. rewrite (ext_fat _ _ _ _ _ _ E2), (ext_fat _ _ _ _ _ _ E1) by set_solver. done.
Qed.

Lemma extended_nil b d c l : is_chain b d c l → extended b d c l [] d.
Proof. intros. constructor; [done|done|by rewrite app_nil_r|set_solver|done]. Qed.

Lemma extend_chain_spec b n d c l :
  geo_ok b d → is_chain b d c l →
  ∃ new d', extend_chain b n l (Some d) = Done (l ++ new, Some d') ∧ extended b d c l new d' ∧
    (length new ≤ n)%nat ∧ (length new = n ∨ ∀ x, cluster_ok b x → fat b d' x ≠ FAT32_FREE).
Proof.
  revert d l. induction n as [|n IH]; intros d l Hg Hc; simpl.
  - exists [], d. rewrite app_nil_r. split; [done|]. split; [by apply extended_nil|]. naive_solver.
  - destruct (fat_alloc_cluster_spec b d Hg) as ([nc|] & d1 & -> & Ha); cbn [mbind outcome_bind].
    + destruct Ha as (Hnc & Hf & _ & Hs1).
      destruct (is_chain_head _ _ _ _ Hc) as [_ [k Ek]].
      destruct (last l) as [z|] eqn:Hz; [|by rewrite Ek, last_cons in Hz; destruct (last k)].
      assert (z ∈ l) as Hzl by (by apply last_Some_elem_of).
      destruct (is_chain_ok _ _ _ _ _ Hc Hzl) as [Hzok _].
      pose proof (geo_count _ _ _ Hg (fs_count _ _ _ _ _ Hs1)) as Hg1. unfold link_last. rewrite Hz.
      destruct (fat_write_entry_spec b d1 z nc Hg1) as (d2 & -> & Hs2);
        [by eapply cluster_in_table|destruct Hnc; pose proof (g_eoc _ _ Hg); unfold FAT32_EOC, FAT32_MASK in *; lia|].
      cbn [mbind outcome_bind]. pose proof (extended_one b d d1 d2 c l z nc Hg Hc Hz Hnc Hf Hs1 Hs2) as E1.
      pose proof (geo_count _ _ _ Hg (ext_count _ _ _ _ _ _ E1)) as Hg2.
      destruct (IH d2 (l ++ [nc]) Hg2 (ext_chain _ _ _ _ _ _ E1)) as (new & d' & -> & E2 & Hlen & Hor).
      exists ([nc] ++ new), d'. rewrite <-app_assoc. split; [done|]. split; [by eapply extended_trans|].
      simpl. split; [lia|]. destruct Hor as [->|]; [by left|by right].
    + destruct Ha as [-> Hfull]. exists [], d. rewrite app_nil_r. split; [done|].
      split; [by apply extended_nil|]. simpl. split; [lia|by right].
Qed.

(* ------------------------------------------------------------------ *)
(** ** The whole write *)

(** The sector of the directory entry: in a cluster in use, outside [l]. *)
Definition elsewhere b d (l : list Z) (es : Z) : Prop :=
  ∃ ce, cluster_ok b ce ∧ es ∈ csecs b ce ∧ ce ∉ l ∧ fat b d ce ≠ FAT32_FREE.

Definition size_field d (es eo : Z) : Z := from_le (zslice (sec d es) (eo + 28) (eo + 32)).

Lemma put_size_spec d es eo size :
  0 ≤ es < sector_count d → 0 ≤ eo ≤ 480 →
  ∃ d', put_size es eo size (Some d) = Done (Some d') ∧
        sec_set es (zsplice (sec d es) (eo + 28) (to_le 4 size)) d d'.
Proof.
  intros Hes Heo. unfold put_size. rewrite read_sector_sec by (done || by apply zlen_zrep).
  pose proof (zlen_sec d es Hes). rewrite put_le_Done by lia. cbn [mbind outcome_bind].
  destruct (write_sector_sec d es (zsplice (sec d es) (eo + 28) (to_le 4 size))) as (d' & -> & Hs);
    [done|rewrite zlen_zsplice; rewrite ?zlen_to_le; lia|]. by exists d'.
Qed.

Lemma ct_frame b d d' l :
  geo_ok b d → clusters_ok b l → (∀ s, s ∈ fsecs b l → sec d' s = sec d s) → ct b d' l = ct b d l.
Proof. intros Hg Hl Hs. unfold ct. f_equal. apply map_ext_in. intros s Hs'%list_elem_of_In. by apply Hs. Qed.

Lemma elsewhere_not_in b d l l' es :
  geo_ok b d → elsewhere b d l es → clusters_ok b (l ++ l') → (∀ x, x ∈ l' → fat b d x = FAT32_FREE) →
  es ∉ fsecs b (l ++ l') ∧ data_start_sector b ≤ es ∧ 0 ≤ es < sector_count d.
Proof.
  intros Hg (ce & Hce & Hes & Hnl & Hnf) [_ Hok] Hfree.
  destruct (csecs_range b d ce es Hg Hce Hes) as (_ & ? & ?). split; [|lia].
  intros (x & Hx & Hes')%elem_of_fsecs.
  assert (x = ce) as -> by (eapply csecs_inj; eauto).
  apply elem_of_app in Hx as [?|Hx]; [done|]. by apply Hnf, Hfree.
Qed.

(** What a write leaves on the disk, [n] bytes of the data having found room. *)
Record file_written b d c l (size offset : Z) (data : list Z) (es eo : Z) (n : Z) new d' : Prop := {
  fw_count : sector_count d' = sector_count d;
  fw_chain : is_chain b d' c (l ++ new);
  fw_free : ∀ x, x ∈ new → cluster_ok b x ∧ fat b d x = FAT32_FREE;
  fw_bytes : n = Z.max 0 (Z.min (zlen data) (zlen (ct b d (l ++ new)) - offset));
  fw_ct : ct b d' (l ++ new) = zsplice (ct b d (l ++ new)) offset (ztake n data);
  fw_fat : ∀ k x, 0 ≤ k < fat_count b → in_table b x → x ∉ l → x ∉ new → fatk b d' k x = fatk b d k x;
  fw_sec : ∀ s, 0 ≤ s → s < reserved_sectors b ∨ data_start_sector b ≤ s →
    s ∉ fsecs b (l ++ new) → s ≠ es → sec d' s = sec d s;
  fw_entry : let new_size := wrap 32 (Z.max size (offset + zlen data)) in
    sec d' es = if new_size =? size then sec d es else zsplice (sec d es) (eo + 28) (to_le 4 new_size);
}.

Definition clusters_for b (n : Z) : Z := (n + cluster_size_bytes b - 1) `div` cluster_size_bytes b.

(** Sectors of the data area do not hold the table. *)
Lemma fatk_frame b d d' k x :
  geo_ok b d → 0 ≤ k < fat_count b → in_table b x →
  (∀ s, 0 ≤ s < data_start_sector b → sec d' s = sec d s) → fatk b d' k x = fatk b d k x.
Proof.
  intros Hg Hk Hx Hs. destruct (entry_sector_range b d k x Hg Hk Hx) as (_ & ? & _).
  pose proof (g_reserved _ _ Hg). unfold fatk. by rewrite Hs by lia.
Qed.

Lemma file_written_intro b d c l size offset data es eo n new d1 d2 d3 :
  geo_ok b d → extended b d c l new d1 → clusters_ok b (l ++ new) → ct b d1 (l ++ new) = ct b d (l ++ new) →
  written b d1 (l ++ new) offset data n d2 →
  n = Z.max 0 (Z.min (zlen data) (zlen (ct b d (l ++ new)) - offset)) →
  es ∉ fsecs b (l ++ new) → data_start_sector b ≤ es → 0 ≤ es →
  (let new_size := wrap 32 (Z.max size (offset + zlen data)) in
   sec_set es (if new_size =? size then sec d2 es else zsplice (sec d2 es) (eo + 28) (to_le 4 new_size)) d2 d3) →
  file_written b d c l size offset data es eo n new d3.
Proof.
  intros Hg Hext Hl Ect1 (Hw1 & Hw2 & Hw3) Hn Hne Hda Hes [Hc3 Hs3]. rewrite Ect1 in Hw2.
  pose proof (geo_count _ _ _ Hg (ext_count _ _ _ _ _ _ Hext)) as Hg1.
  assert (∀ s, s ∈ fsecs b (l ++ new) → data_start_sector b ≤ s ∧ 0 ≤ s) as Hr.
  { intros s Hs. destruct (fsecs_range b d _ s Hg Hl Hs). lia. }
  assert (∀ s, 0 ≤ s → s ∉ fsecs b (l ++ new) → s ≠ es → sec d3 s = sec d1 s) as Hs31.
  { intros s Hs Hns Hse. rewrite Hs3 by done. rewrite decide_False by done. by apply Hw3. }
  assert (∀ k x, 0 ≤ k < fat_count b → in_table b x → fatk b d3 k x = fatk b d1 k x) as Hfat.
  { intros k x Hk Hx. apply fatk_frame; [done..|]. intros s Hs. apply Hs31; [lia| |lia].
    intros Hin%Hr. lia. }
  pose proof (g_fats _ _ Hg). constructor.
  - by rewrite Hc3, Hw1, (ext_count _ _ _ _ _ _ Hext).
  - eapply is_chain_frame; [apply (ext_chain _ _ _ _ _ _ Hext)|]. intros x Hx.
    apply Hfat; [lia|]. eapply cluster_in_table; [done|]. by apply Hl.
  - apply (ext_free _ _ _ _ _ _ Hext).
  - done.
  - rewrite <-Hw2. pose proof (geo_count _ _ _ Hg1 Hw1). apply ct_frame; [done..|].
    intros s Hs. destruct (Hr s Hs). rewrite Hs3 by done. rewrite decide_False; [done|]. by intros ->.
  - intros k x Hk Hx Hxl Hxn. rewrite Hfat by done. by apply (ext_fat _ _ _ _ _ _ Hext).
  - intros s Hs Hrg Hns Hse. rewrite Hs31 by done. by apply (ext_sec _ _ _ _ _ _ Hext).
  - simpl. rewrite Hs3 by done. rewrite decide_True by done.
    rewrite Hw3 by done. by rewrite (ext_sec _ _ _ _ _ _ Hext) by auto.
Qed.

Lemma fat_file_write_spec b d c l size offset data es eo :
  geo_ok b d → is_chain b d c l → elsewhere b d l es → 0 ≤ eo ≤ 480 →
  data ≠ [] → 0 ≤ offset → offset + zlen data < 2 ^ 63 →
  ∃ n new d', fat_file_write b c size offset data es eo (Some d) = Done (n, Some d') ∧
    file_written b d c l size offset data es eo n new d' ∧
    (clusters_for b (offset + zlen data) ≤ zlen (l ++ new) ∨
     ∀ x, cluster_ok b x → x ∉ l → x ∉ new → fat b d x ≠ FAT32_FREE).
Proof.
  intros Hg Hc Hes Heo Hd Ho Hmax. pose proof (zlen_nonneg data). pose proof (g_spc _ _ Hg).
  unfold fat_file_write. rewrite bool_decide_eq_false_2 by done.
  assert (512 ≤ cluster_size_bytes b ≤ 2 ^ 20) by (unfold cluster_size_bytes, SECTOR_SIZE; lia).
  rewrite (wrap_small 64 (offset + _)) by (unfold is_uint; lia).
  rewrite (wrap_small 64 (offset + zlen data + _)) by (unfold is_uint; lia).
  rewrite (wrap_small 64 (_ - 1)) by (unfold is_uint; lia). fold (clusters_for b (offset + zlen data)).
  rewrite (cluster_chain_spec b d c l Hg Hc). cbn [mbind outcome_bind].
  destruct (extend_chain_spec b (Z.to_nat (clusters_for b (offset + zlen data) - zlen l)) d c l Hg Hc)
    as (new & d1 & -> & Hext & _ & Hor). cbn [mbind outcome_bind].
  pose proof (geo_count _ _ _ Hg (ext_count _ _ _ _ _ _ Hext)) as Hg1.
  pose proof (is_chain_clusters _ _ _ _ Hg1 (ext_chain _ _ _ _ _ _ Hext)) as Hl1.
  destruct (write_loop_spec b d1 (l ++ new) offset data Hg1 Hl1 Ho Hmax) as (w & d2 & -> & Ew & Ed & Hw).
  cbn [mbind outcome_bind]. rewrite Ew, Ed.
  set (new_size := wrap 32 (Z.max size (offset + zlen data))).
  destruct (elsewhere_not_in b d l new es Hg Hes Hl1) as (Hne & Hda & Hrange);
    [intros x Hx; by apply (ext_free _ _ _ _ _ _ Hext)|].
  assert (ct b d1 (l ++ new) = ct b d (l ++ new)) as Ect1.
  { apply ct_frame; [done|done|]. intros s Hs. destruct (fsecs_range b d _ s Hg Hl1 Hs).
    apply (ext_sec _ _ _ _ _ _ Hext); lia. }
  rewrite Ect1 in *. set (n := Z.max 0 _) in *.
  assert (∃ d3, (if negb (new_size =? size) then put_size es eo new_size (Some d2) else Done (Some d2)) = Done (Some d3) ∧
    sec_set es (if new_size =? size then sec d2 es else zsplice (sec d2 es) (eo + 28) (to_le 4 new_size)) d2 d3)
    as (d3 & -> & Hd3).
  { destruct (new_size =? size); simpl.
    - exists d2. split; [done|]. split; [done|]. intros s Hs. case_decide; [by subst|done].
    - apply put_size_spec; [|done]. destruct Hw as [-> _]. by rewrite (ext_count _ _ _ _ _ _ Hext). }
  cbn [mbind outcome_bind]. exists n, new, d3. split; [done|].
  split; [by eapply file_written_intro; eauto; lia|].
  rewrite zlen_app. destruct Hor as [Hn|Hfull]; [left; unfold zlen in *; lia|right].
  intros x Hx Hxl Hxn. pose proof (g_fats _ _ Hg). change (fat b d x) with (fatk b d 0 x).
  rewrite <-(ext_fat _ _ _ _ _ _ Hext 0 x) by (done || lia || by eapply cluster_in_table). by apply Hfull.
Qed.

(* ------------------------------------------------------------------ *)
(** ** Through the node *)

Definition free_clusters b d : list Z := filter (λ x, fat b d x = FAT32_FREE) (seqZ 2 (ncl b - 2)).

Lemma room_enough b d c l new n :
  geo_ok b d → is_chain b d c l → n ≤ zlen l + zlen (free_clusters b d) →
  (n ≤ zlen (l ++ new) ∨ ∀ x, cluster_ok b x → x ∉ l → x ∉ new → fat b d x ≠ FAT32_FREE) →
  n ≤ zlen (l ++ new).
Proof.
  intros Hg Hc Hn [?|Hall]; [done|]. rewrite zlen_app.
  assert (free_clusters b d ⊆+ new) as Hsub.
  { apply NoDup_submseteq; [apply NoDup_filter, NoDup_seqZ|].
    intros x [Hf Hx]%list_elem_of_filter. apply elem_of_seqZ in Hx.
    destruct (decide (x ∈ new)) as [|Hxn]; [done|]. exfalso. apply (Hall x); [split; lia| |done|done].
    intros Hxl. by destruct (is_chain_ok _ _ _ _ _ Hc Hxl). }
  apply submseteq_length in Hsub. unfold zlen in *. lia.
Qed.

Lemma written_all b d l n :
  geo_ok b d → clusters_ok b l → 0 ≤ n → clusters_for b n ≤ zlen l → n ≤ zlen (ct b d l).
Proof.
  intros Hg Hl Hn Hc. rewrite (zlen_ct b d l Hg Hl). pose proof (g_spc _ _ Hg).
  unfold clusters_for in Hc. assert (0 < cluster_size_bytes b) by (unfold cluster_size_bytes, SECTOR_SIZE; lia).
  pose proof (Z.mul_succ_div_gt (n + cluster_size_bytes b - 1) (cluster_size_bytes b) ltac:(lia)). nia.
Qed.

(** Other files keep their chain and their bytes. *)
Lemma other_file_kept b d c l size offset data es eo n new d' c2 l2 :
  geo_ok b d → file_written b d c l size offset data es eo n new d' → is_chain b d c2 l2 →
  (∀ x, x ∈ l2 → x ∉ l) → is_chain b d' c2 l2 ∧ (es ∉ fsecs b l2 → ct b d' l2 = ct b d l2).
Proof.
  intros Hg Hw Hc2 Hdisj. pose proof (is_chain_clusters _ _ _ _ Hg Hc2) as Hl2.
  pose proof (geo_count _ _ _ Hg (fw_count _ _ _ _ _ _ _ _ _ _ _ _ Hw)) as Hg'.
  assert (∀ x, x ∈ l2 → x ∉ new) as Hnew.
  { intros x Hx Hn. destruct (fw_free _ _ _ _ _ _ _ _ _ _ _ _ Hw x Hn).
    by destruct (is_chain_ok _ _ _ _ _ Hc2 Hx). }
  pose proof (g_fats _ _ Hg). split.
  - eapply is_chain_frame; [done|]. intros x Hx.
    apply (fw_fat _ _ _ _ _ _ _ _ _ _ _ _ Hw); [lia| |by apply Hdisj|by apply Hnew].
    eapply cluster_in_table; [done|]. by apply Hl2.
  - intros Hes. apply ct_frame; [done..|]. intros s Hs. destruct (fsecs_range b d l2 s Hg Hl2 Hs) as [? ?].
    apply (fw_sec _ _ _ _ _ _ _ _ _ _ _ _ Hw); [lia|lia| |by intros ->].
    intros (x & Hx & Hsx)%elem_of_fsecs. apply elem_of_fsecs in Hs as (y & Hy & Hsy).
    assert (x = y) as <-.
    { eapply (csecs_inj b d x y s); [done| | |done|done].
      - pose proof (is_chain_clusters _ _ _ _ Hg' (fw_chain _ _ _ _ _ _ _ _ _ _ _ _ Hw)) as [_ Hok]. by apply Hok.
      - by apply Hl2. }
    apply elem_of_app in Hx as [Hx|Hx]; [by eapply Hdisj|by eapply Hnew].
Qed.

Lemma entry_kept b d c l size offset data es eo n new d' :
  geo_ok b d → file_written b d c l size offset data es eo n new d' → elsewhere b d l es →
  0 ≤ eo ≤ 480 → size_field d es eo = size →
  elsewhere b d' (l ++ new) es ∧ size_field d' es eo = wrap 32 (Z.max size (offset + zlen data)).
Proof.
  intros Hg Hw (ce & Hce & Hes & Hnl & Hnf) Heo Hrec. pose proof (g_fats _ _ Hg).
  destruct (csecs_range b d ce es Hg Hce Hes) as (_ & _ & Hr).
  assert (ce ∉ new) as Hnn by (intros Hn; by destruct (fw_free _ _ _ _ _ _ _ _ _ _ _ _ Hw ce Hn)).
  split.
  - exists ce. split; [done|]. split; [done|]. split; [set_solver|].
    change (fat b d' ce) with (fatk b d' 0 ce).
    rewrite (fw_fat _ _ _ _ _ _ _ _ _ _ _ _ Hw); [done|lia|by eapply cluster_in_table|done|done].
  - unfold size_field. rewrite (fw_entry _ _ _ _ _ _ _ _ _ _ _ _ Hw). cbv zeta.
    destruct (Z.eqb_spec (wrap 32 (Z.max size (offset + zlen data))) size) as [->|_]; [done|].
    pose proof (zlen_sec d es Hr).
    rewrite zslice_zsplice_same by (rewrite ?zlen_to_le; lia).
    apply from_le_to_le; [lia|]. apply wrap_range. lia.
Qed.
End file.

(** What a node over the volume [b] on the disk [d] is. *)
Definition mounted_on {D} `{Disk D} (f : fatfs D) (b : Bpb) (d : D) : Prop :=
  ff_bpb f = Some b ∧ ff_dev f = Some d ∧ geo_ok b d.

(** A node of the file with chain [l] whose size is the recorded one. *)
Record open_file {D} `{Disk D} (b : Bpb) (d : D) (f : fatfs D) (c : Z) (l : list Z) (sz : loc) (es eo : Z) : Prop := {
  of_chain : is_chain b d c l;
  of_entry : elsewhere b d l es;
  of_offset : 0 ≤ eo ≤ 480;
  of_size : 0 ≤ size_of sz f < 2 ^ 32 ∧ size_of sz f ≤ zlen (ct b d l);
  of_recorded : size_field d es eo = size_of sz f;
}.

(** C17: on a FAT32 volume, take a file whose chain ends and starts at a real
    cluster, whose directory entry lies in another chain, and a node of it that
    holds the size the entry records.  A write of at least one byte that ends below
    2^32 and for which there are free clusters stores all of its bytes, grows the
    chain by free clusters only, and records the new size in the directory entry;
    the node then is such a node again, and every read through it returns the bytes
    of the old contents with the data written over them, up to the new size; every
    file with another chain keeps its chain and, when the directory entry is not
    part of it, its bytes.  Not covered, and shown to fail in Fat32Sample: a first
    cluster of 0 ([fat_first_cluster_zero]), and a second node that holds an older
    size ([fat_stale_size]). *)
Theorem fat_write_read {D} `{Disk D} (f : fatfs D) b d c l sz es eo offset data :
  mounted_on f b d → open_file b d f c l sz es eo →
  data ≠ [] → 0 ≤ offset → offset + zlen data < 2 ^ 32 →
  clusters_for b (offset + zlen data) ≤ zlen l + zlen (free_clusters b d) →
  let node := FatFileINode c sz es eo in
  let size := Z.max (size_of sz f) (offset + zlen data) in
  ∃ f' d' new,
    inode_write node offset data f = Done (zlen data, f') ∧ mounted_on f' b d' ∧
    open_file b d' f' c (l ++ new) sz es eo ∧ size_of sz f' = size ∧
    (∀ x, x ∈ new → fat b d x = FAT32_FREE) ∧
    (∀ o buf, 0 ≤ o →
       let n := Z.max 0 (Z.min (zlen buf) (size - o)) in
       inode_read node o buf f' =
         Done (n, zsplice buf 0 (zslice (zsplice (ct b d (l ++ new)) offset data) o (o + n)), f')) ∧
    (∀ c2 l2, is_chain b d c2 l2 → (∀ x, x ∈ l2 → x ∉ l) →
       is_chain b d' c2 l2 ∧ (es ∉ fsecs b l2 → ct b d' l2 = ct b d l2)).
Proof.
  intros (Eb & Ed & Hg) Hof Hd Ho Hmax Hroom node size. pose proof (zlen_nonneg data).
  destruct Hof as [Hc Hes Heo Hsz Hrec].
  destruct (fat_file_write_spec b d c l (size_of sz f) offset data es eo Hg Hc Hes Heo Hd Ho ltac:(lia))
    as (n & new & d' & Ew & Hw & Hor).
  apply (room_enough b d c l new _ Hg Hc Hroom) in Hor.
  pose proof (geo_count _ _ _ Hg (fw_count _ _ _ _ _ _ _ _ _ _ _ _ Hw)) as Hg'.
  pose proof (is_chain_clusters _ _ _ _ Hg' (fw_chain _ _ _ _ _ _ _ _ _ _ _ _ Hw)) as Hl'.
  pose proof (written_all b d (l ++ new) (offset + zlen data) Hg Hl' ltac:(lia) Hor) as Hall.
  assert (n = zlen data) as -> by (rewrite (fw_bytes _ _ _ _ _ _ _ _ _ _ _ _ Hw); lia).
  assert (wrap 32 size = size) as Esz by (apply wrap_small; unfold is_uint, size; lia).
  destruct (entry_kept _ _ _ _ _ _ _ _ _ _ _ _ Hg Hw Hes Heo Hrec) as [Hes' Hrec']. fold size in Hrec'.
  pose proof (fw_ct _ _ _ _ _ _ _ _ _ _ _ _ Hw) as Ect.
  replace (ztake (zlen data) data) with data in Ect
    by (unfold ztake, zlen; by rewrite Nat2Z.id, take_ge).
  assert (zlen (ct b d' (l ++ new)) = zlen (ct b d (l ++ new))) as Elen by (by rewrite !zlen_ct).
  assert (size ≤ zlen (ct b d' (l ++ new))) as Hszle.
  { rewrite Elen. unfold size. rewrite ct_app, zlen_app in *. pose proof (zlen_nonneg (ct b d new)). lia. }
  exists (set_size sz size (set_fdev (Some d') f)), d', new.
  assert (size_of sz (set_size sz size (set_fdev (Some d') f)) = size) as Es
    by (unfold size_of; simpl; by rewrite lookup_insert_eq).
  split. { simpl. unfold fat_node_write. rewrite Eb, Ed, Ew. simpl.
    rewrite (wrap_small 64) by (unfold is_uint; lia). by fold size; rewrite Esz. }
  split; [done|]. split; [|split; [done|split; [|split]]].
  - constructor; [apply (fw_chain _ _ _ _ _ _ _ _ _ _ _ _ Hw)|done|done| |congruence].
    rewrite Es. unfold size in *. lia.
  - intros x Hx. by apply (fw_free _ _ _ _ _ _ _ _ _ _ _ _ Hw).
  - intros o buf Hob n. simpl. unfold fat_node_read. simpl. rewrite Eb, Es.
    rewrite (fat_file_read_spec b d' c (l ++ new) size o buf Hg' (fw_chain _ _ _ _ _ _ _ _ _ _ _ _ Hw) Hob).
    simpl. rewrite Ect, <-Ect.
    assert (readable_at size (zlen (ct b d' (l ++ new))) o (zlen buf) = n) as ->
      by (unfold readable_at, n; lia). by rewrite Ect.
  - intros c2 l2. by eapply other_file_kept.
Qed.
