(* ===== verification/Fat32Dir.v ===== *)
(** * FAT32: directories

    A directory is the list of the 32-byte slots of its chain ([dslots]); the
    nested loops of the driver run over that list.  Shown here: creating a
    file writes a long-name slot and a short slot that read back as exactly
    the entry meant, in the first two free slots; afterwards the directory
    lists what it listed before plus the new entry, and the name is found. *)

From S2P Require Import Prelude BlockDev Vfs Fat32 Fat32Table Fat32File.

(* ------------------------------------------------------------------ *)
(** ** Loops over nested lists *)

Lemma for_until_app {A S R} (l1 l2 : list A) (body : A → S → outcome (S + R)) s :
  for_until (l1 ++ l2) body s =
  (r ← for_until l1 body s; match r with inl s => for_until l2 body s | inr r => Done (inr r) end).
Proof.
  revert s. induction l1 as [|x l1 IH]; intros s; simpl; [done|].
  destruct (body x s) as [[s'|r]|]; simpl; [apply IH|done..].
Qed.

Lemma for_until_concat {A S R} (ls : list (list A)) (body : A → S → outcome (S + R)) s :
  for_until (concat ls) body s = for_until ls (λ l, for_until l body) s.
Proof.
  revert s. induction ls as [|l ls IH]; intros s; simpl; [done|].
  rewrite for_until_app. destruct (for_until l body s) as [[s'|r]|]; simpl; [apply IH|done..].
Qed.

Lemma for_until_map {A B S R} (g : A → B) (l : list A) (body : B → S → outcome (S + R)) s :
  for_until (map g l) body s = for_until l (λ x, body (g x)) s.
Proof.
  revert s. induction l as [|x l IH]; intros s; simpl; [done|].
  destruct (body (g x) s) as [[s'|r]|]; simpl; [apply IH|done..].
Qed.

Lemma for_until_ext {A S R} (l : list A) (body body' : A → S → outcome (S + R)) s :
  (∀ x s, x ∈ l → body x s = body' x s) → for_until l body s = for_until l body' s.
Proof.
  revert s. induction l as [|x l IH]; intros s Hb; simpl; [done|]. rewrite Hb by (by left).
  destruct (body' x s) as [[s'|r]|]; simpl; [|done..]. apply IH. intros. apply Hb. by right.
Qed.

(* ------------------------------------------------------------------ *)
(** ** Slots *)

Section slots.
Context {D : Type} `{Disk D}.
Implicit Types (d : D) (b : Bpb) (p : Z * Z).

Definition slots_of (s : Z) : list (Z * Z) := map (λ i, (s, i * 32)) sector_slots.
Definition dslots b (l : list Z) : list (Z * Z) := concat (map slots_of (fsecs b l)).
Definition raw d p : list Z := zslice (sec d p.1) p.2 (p.2 + 32).

Lemma elem_of_slots s p : p ∈ slots_of s ↔ p.1 = s ∧ 0 ≤ p.2 ≤ 480 ∧ p.2 `mod` 32 = 0.
Proof.
  unfold slots_of, sector_slots. change (SECTOR_SIZE `div` DIR_ENTRY_SIZE) with 16.
  rewrite list_elem_of_fmap. destruct p as [t o]. simpl. split.
  - intros (i & [= -> ->] & Hi%elem_of_seqZ). split; [done|]. rewrite Z.mod_mul by lia. lia.
  - intros (-> & Ho & Hm). exists (o `div` 32). rewrite elem_of_seqZ.
    split; [f_equal|]; Z.to_euclidean_division_equations; lia.
Qed.

Lemma elem_of_dslots b l p : p ∈ dslots b l ↔ p.1 ∈ fsecs b l ∧ 0 ≤ p.2 ≤ 480 ∧ p.2 `mod` 32 = 0.
Proof.
  unfold dslots. generalize (fsecs b l) as ss. induction ss as [|s ss IH]; cbn [map concat].
  - split; [intros ?%elem_of_nil; done|intros [?%elem_of_nil _]; done].
  - rewrite elem_of_app, IH, elem_of_slots, elem_of_cons. naive_solver.
Qed.

Lemma zlen_raw b d l p : geo_ok b d → clusters_ok b l → p ∈ dslots b l → zlen (raw d p) = 32.
Proof.
  intros Hg Hl (Hs & Ho & _)%elem_of_dslots. destruct (fsecs_range b d l _ Hg Hl Hs) as [_ Hr].
  pose proof (zlen_sec d _ Hr). unfold raw. rewrite zlen_zslice; lia.
Qed.

(** The three nested loops of a directory scan are one loop over the slots. *)
Lemma over_slots {S R} b d l (body : Z * Z → list Z → S → outcome (S + R)) st :
  geo_ok b d → clusters_ok b l →
  for_until l (λ c, for_until (seqZ 0 (sectors_per_cluster b)) (λ s,
    let sector := cluster_to_sector b c ⊞ s in
    let buf := read_sector sector (zrep 512 0) (Some d) in
    for_until sector_slots (λ i, body (sector, i * 32) buf))) st =
  for_until (dslots b l) (λ p, body p (sec d p.1)) st.
Proof.
  intros Hg Hl. unfold dslots, fsecs. rewrite for_until_concat, for_until_map, for_until_concat, for_until_map.
  apply for_until_ext. intros c s Hc. unfold csecs.
  replace (seqZ (cluster_to_sector b c) (sectors_per_cluster b))
    with (map (λ s, cluster_to_sector b c + s) (seqZ 0 (sectors_per_cluster b)))
    by (etrans; [apply fmap_add_seqZ|by rewrite Z.add_0_r]).
  rewrite for_until_map. apply for_until_ext. intros t s' Ht%elem_of_seqZ.
  assert (cluster_to_sector b c + t ∈ csecs b c) as Hin by (apply elem_of_seqZ; lia).
  destruct (csecs_range b d c _ Hg (proj2 Hl c Hc) Hin) as (_ & _ & Hr). pose proof (disk_size d).
  cbv zeta. rewrite wrap_small by (unfold is_uint; lia).
  rewrite read_sector_sec by (done || by apply zlen_zrep).
  unfold slots_of. by rewrite for_until_map.
Qed.
End slots.

(* ------------------------------------------------------------------ *)
(** ** Names *)

Definition ascii_name (name : str) : Prop := Forall (λ c, 0 < c < 128) name.

Lemma split_last_dot_Some s base ext : split_last_dot s = Some (base, ext) → s = base ++ FAT_DOT :: ext.
Proof.
  revert base ext. induction s as [|c s IH]; intros base ext; simpl; [done|].
  destruct (split_last_dot s) as [[bs ex]|].
  - intros [= <- <-]. simpl. f_equal. by apply IH.
  - destruct (Z.eqb_spec c FAT_DOT) as [->|]; [|done]. by intros [= <- <-].
Qed.

Lemma build_sfn_Some name sfn :
  build_sfn name = Some sfn →
  1 ≤ zlen name ≤ 12 ∧ name ≠ [FAT_DOT] ∧ name ≠ [FAT_DOT; FAT_DOT] ∧ zlen sfn = 11 ∧
  (ascii_name name → ∃ c, zget sfn 0 = Some c ∧ 0 < c < 128).
Proof.
  intros Hb. split; [|split; [by intros ->|split; [by intros ->|]]].
  all: unfold build_sfn in Hb.
  all: assert (∃ base ext, match split_last_dot name with Some p => p | None => (name, []) end = (base, ext) ∧
    (name = base ++ FAT_DOT :: ext ∨ name = base ∧ ext = [])) as (base & ext & E & Hn)
    by (destruct (split_last_dot name) as [[base ext]|] eqn:Es;
        [exists base, ext; split; [done|left; by apply split_last_dot_Some]|by eauto 10]).
  all: rewrite E in Hb; case_bool_decide as Hbase; [done|]; simpl in Hb.
  all: destruct (Z.ltb_spec 8 (zlen base)), (Z.ltb_spec 3 (zlen ext)); simpl in Hb; try done.
  all: destruct (existsb _ base || existsb _ ext); [done|]; injection Hb as <-.
  all: pose proof (zlen_nonneg ext); destruct base as [|c base]; [done|]; rewrite zlen_cons in *;
    pose proof (zlen_nonneg base).
  - destruct Hn as [-> | [-> ->]]; rewrite ?zlen_app, ?zlen_cons; lia.
  - assert (∀ l : list Z, zlen (map ascii_upper l) = zlen l) as Hm
      by (intros l; unfold zlen; by rewrite length_map).
    assert (zlen (zsplice (zrep 11 SPACE) 0 (map ascii_upper (c :: base))) = 11) as H11.
    { rewrite zlen_zsplice; rewrite ?zlen_zrep, ?Hm, ?zlen_cons; lia. }
    split; [rewrite zlen_zsplice; rewrite ?H11, ?Hm; lia|].
    intros Ha. exists (ascii_upper c). split.
    + rewrite zget_zsplice_out; rewrite ?H11, ?Hm; [|lia..].
      rewrite zget_zsplice_in; rewrite ?zlen_zrep, ?Hm, ?zlen_cons; [done|lia..].
    + assert (0 < c < 128) as Hc by (destruct Hn as [-> | [-> _]]; by inversion Ha).
      unfold ascii_upper. destruct (_ && _) eqn:Eu; [|done]. apply andb_prop in Eu as [? ?].
      rewrite ?Z.leb_le in *. lia.
Qed.

Section ascii.
Context (name : str) (Ha : ascii_name name).

Lemma name_utf16_ascii : name_utf16 name = name.
Proof.
  unfold name_utf16. induction Ha as [|c l Hc Hl IH]; [done|]. simpl.
  rewrite (proj2 (Z.ltb_lt c 0x80)) by lia. simpl. rewrite IH by done. unfold encode_utf16.
  by rewrite (proj2 (Z.ltb_lt c 0x10000)) by lia.
Qed.

Lemma take_name_units k : take_while (λ c, negb (c =? 0)) (name ++ 0 :: k) = name.
Proof.
  induction Ha as [|c l Hc Hl IH]; [done|]. simpl. rewrite (proj2 (Z.eqb_neq c 0)) by lia. simpl. by rewrite IH.
Qed.

Lemma lfn_string_ascii : lfn_string name = name.
Proof.
  assert (take_while (λ c, negb (c =? 0)) name = name) as E1.
  { induction Ha as [|c l Hc Hl IH]; [done|]. cbn [take_while].
    rewrite (proj2 (Z.eqb_neq c 0)) by lia. simpl. by rewrite IH. }
  assert (omap char_from_u32 name = name) as E2.
  { clear E1. induction Ha as [|c l Hc Hl IH]; [done|].
    transitivity (match char_from_u32 c with Some y => y :: omap char_from_u32 l | None => omap char_from_u32 l end);
      [done|]. rewrite IH by done. unfold char_from_u32. by rewrite (proj2 (Z.ltb_lt c 0xD800)) by lia. }
  unfold lfn_string. rewrite E1, E2. clear E1 E2. induction Ha as [|c l Hc Hl IH]; [done|].
  cbn [map concat]. rewrite IH by done. unfold encode_utf8. by rewrite (proj2 (Z.ltb_lt c 0x80)) by lia.
Qed.
End ascii.

(* ------------------------------------------------------------------ *)
(** ** New slots read back *)

Lemma map_le2_id cs : Forall (is_uint 16) cs → map (λ c, from_le (to_le 2 c)) cs = cs.
Proof. induction 1 as [|c cs Hc _ IH]; [done|]. cbn [map]. rewrite IH. f_equal. by apply from_le_to_le. Qed.

Lemma lfn_entry_spec flag checksum cs :
  zlen cs = 13 → Forall (is_uint 16) cs →
  ∃ e, lfn_entry flag checksum cs = Done e ∧ zlen e = 32 ∧ idx e 0 = Done flag ∧
    idx e 11 = Done ATTR_LFN ∧ read_lfn_chars e = Done cs.
Proof.
  intros Hl Hcs.
  do 14 (destruct cs as [|? cs]; [try (by unfold zlen in Hl; simpl in Hl; lia)|]);
    [|unfold zlen in Hl; simpl in Hl; lia].
  eexists. split; [cbv -[Z.land Z.shiftr Z.ones]; reflexivity|].
  split; [done|]. split; [done|]. split; [done|].
  match goal with |- read_lfn_chars _ = Done ?cs =>
    transitivity (Done (map (λ c, from_le (to_le 2 c)) cs)); [reflexivity|] end.
  f_equal. by apply map_le2_id.
Qed.

(** The two halves of the first cluster. *)
Lemma cluster_halves c :
  is_uint 32 c →
  Z.lor (from_le [Z.land (c ≫ 16) 0xFF; Z.land (c ≫ 24) 0xFF] ≪ 16)
        (from_le [Z.land c 0xFF; Z.land (c ≫ 8) 0xFF]) = c.
Proof.
  intros Hc. unfold is_uint in Hc. change 0xFF with (Z.ones 8). rewrite !Z.land_ones by lia.
  rewrite !Z.shiftr_div_pow2 by lia.
  rewrite !from_le_cons by (apply Z.mod_pos_bound; lia). change (from_le []) with 0.
  rewrite Z.lor_comm, lor_shiftl; [|lia|unfold is_uint]; Z.to_euclidean_division_equations; lia.
Qed.

Lemma sfn_entry_spec sfn attr c ticks :
  zlen sfn = 11 → is_uint 32 c →
  ∃ e, sfn_entry sfn attr c ticks = Done e ∧ zlen e = 32 ∧ slice e 0 11 = Done sfn ∧ idx e 0 = idx sfn 0 ∧
    idx e 11 = Done attr ∧ le_at 4 e 28 = Done 0 ∧
    ∃ hi lo, le_at 2 e 20 = Done hi ∧ le_at 2 e 26 = Done lo ∧ Z.lor (hi ≪ 16) lo = c.
Proof.
  intros Hl Hc. unfold sfn_entry. destruct (fat32_timestamp ticks) as [tw dw].
  do 12 (destruct sfn as [|? sfn]; [try (by unfold zlen in Hl; simpl in Hl; lia)|]);
    [|unfold zlen in Hl; simpl in Hl; lia].
  eexists. split; [cbv -[Z.land Z.shiftr Z.ones]; reflexivity|].
  do 5 (split; [reflexivity|]). eexists _, _. split; [reflexivity|]. split; [reflexivity|].
  by apply cluster_halves.
Qed.

Lemma pad_lfn_spec name :
  ascii_name name → 1 ≤ zlen name ≤ 12 →
  pad_lfn name = name ++ 0 :: zrep (12 - zlen name) 0xFFFF ∧ zlen (pad_lfn name) = 13 ∧
  Forall (is_uint 16) (pad_lfn name).
Proof.
  intros Ha Hl.
  assert (pad_lfn name = name ++ 0 :: zrep (12 - zlen name) 0xFFFF) as E.
  { unfold pad_lfn. rewrite Z.mod_small, (proj2 (Z.eqb_neq _ _)) by lia.
    cbv zeta. rewrite <-app_assoc. simpl. do 3 f_equal. rewrite zlen_app. change (zlen [0]) with 1.
    rewrite <-(Z.mod_add _ 1), Z.mod_small by lia. lia. }
  split; [done|]. rewrite E. split.
  - rewrite zlen_app, zlen_cons, zlen_zrep by lia. lia.
  - apply Forall_app. split; [eapply Forall_impl; [done|]; intros c Hc; simpl in Hc; unfold is_uint; lia|].
    apply Forall_cons. split; [done|]. apply Forall_replicate. done.
Qed.

(** The entry that a created name reads back as. *)
Definition created (name : str) (attr c : Z) (p1 p2 : Z * Z) : DirEntry :=
  mkDirEntry name attr c 0 p2.1 p2.2 p1.1 p1.2.

Lemma scan_created name sfn attr c ticks e1 e2 p1 p2 st :
  ascii_name name → build_sfn name = Some sfn → is_uint 32 c → attr = ATTR_ARCHIVE ∨ attr = ATTR_DIRECTORY →
  lfn_entry 0x41 (sfn_checksum sfn) (pad_lfn name) = Done e1 → sfn_entry sfn attr c ticks = Done e2 →
  (r ← scan_slot p1.1 p1.2 e1 st;
   match r with inl st => scan_slot p2.1 p2.2 e2 st | inr r => Done (inr r) end) =
  Done (inl (mkScan (sn_entries st ++ [created name attr c p1 p2]) [] None)).
Proof.
  intros Ha Hb Hc Hattr E1 E2. destruct (build_sfn_Some name sfn Hb) as (Hl & Hd1 & Hd2 & H11 & Hh).
  destruct (Hh Ha) as (h & Hh0 & Hhr). destruct (pad_lfn_spec name Ha Hl) as (Ep & Hp13 & Hpu).
  destruct (lfn_entry_spec 0x41 (sfn_checksum sfn) (pad_lfn name) Hp13 Hpu) as (e & E & _ & F0 & F11 & Fr).
  rewrite E1 in E. injection E as <-.
  destruct (sfn_entry_spec sfn attr c ticks H11 Hc) as (e & E & _ & G1 & G0 & G11 & G28 & hi & lo & Ghi & Glo & Gc).
  rewrite E2 in E. injection E as <-.
  assert (scan_slot p1.1 p1.2 e1 st = Done (inl (mkScan (sn_entries st) name (Some (p1.1, p1.2))))) as ->.
  { unfold scan_slot. rewrite F0. cbn [mbind outcome_bind].
    change (0x41 =? 0) with false. change (0x41 =? 0xE5) with false. cbv iota. rewrite F11. cbn [mbind outcome_bind].
    change (ATTR_LFN =? ATTR_LFN) with true. change (negb (Z.land 0x41 0x40 =? 0)) with true. cbv iota zeta.
    rewrite Fr. cbn [mbind outcome_bind]. rewrite Ep, take_name_units by done. by rewrite app_nil_r. }
  cbn [mbind outcome_bind].
  unfold scan_slot. rewrite G0, (proj2 (idx_Done _ _ _) Hh0). cbn [mbind outcome_bind].
  rewrite !(proj2 (Z.eqb_neq h _)) by lia. rewrite G11. cbn [mbind outcome_bind].
  assert ((attr =? ATTR_LFN) = false ∧
    negb (Z.land attr ATTR_VOLUME_ID =? 0) && (Z.land attr ATTR_DIRECTORY =? 0) = false) as [-> ->]
    by (by destruct Hattr as [-> | ->]).
  rewrite G1. cbn [mbind outcome_bind].
  assert (∃ s, parse_sfn sfn = Done s) as [s ->].
  { unfold parse_sfn. rewrite !slice_Done by lia. simpl. by eexists. }
  cbn [mbind outcome_bind]. rewrite Ghi. cbn [mbind outcome_bind]. rewrite Glo. cbn [mbind outcome_bind].
  rewrite G28. cbn [mbind outcome_bind sn_lfn sn_start sn_entries].
  assert (name ≠ []) by (intros ->; change (zlen []) with 0 in Hl; lia).
  rewrite (bool_decide_eq_false_2 (name = [])) by done. cbn [negb]. rewrite lfn_string_ascii by done.
  rewrite !bool_decide_eq_false_2 by done. cbn [orb]. rewrite Gc. done.
Qed.

(* ------------------------------------------------------------------ *)
(** ** Listing *)

Definition listing (rw : Z * Z → list Z) (ps : list (Z * Z)) (st : scan) : outcome (scan + list DirEntry) :=
  for_until ps (λ p, scan_slot p.1 p.2 (rw p)) st.
Definition entries_of (r : scan + list DirEntry) : list DirEntry :=
  match r with inl st => sn_entries st | inr es => es end.

(** The first byte tells the free slots from the used ones. *)
Definition first_byte (r : list Z) : Z := default 0 (zget r 0).
Definition slot_free (r : list Z) : Prop := first_byte r = 0 ∨ first_byte r = 0xE5.

Lemma idx_first r : zlen r = 32 → idx r 0 = Done (first_byte r).
Proof.
  intros Hl. destruct (zget_is_Some r 0) as [x Hx]; [lia|]. unfold first_byte. rewrite Hx.
  by apply idx_Done.
Qed.

Lemma scan_slot_erased s o r st :
  zlen r = 32 → first_byte r = 0xE5 → scan_slot s o r st = Done (inl (mkScan (sn_entries st) [] None)).
Proof. intros Hl Hf. unfold scan_slot. rewrite idx_first, Hf by done. done. Qed.

Lemma scan_slot_end s o r st :
  zlen r = 32 → first_byte r = 0 → scan_slot s o r st = Done (inr (sn_entries st)).
Proof. intros Hl Hf. unfold scan_slot. rewrite idx_first, Hf by done. done. Qed.

Lemma read_lfn_chars_total r : zlen r = 32 → ∃ cs, read_lfn_chars r = Done cs.
Proof.
  intros Hl. unfold read_lfn_chars.
  destruct (for_each_total (λ _ : list Z, True) lfn_positions (λ off chars, c ← le_at 2 r off; Done (chars ++ [c])) [])
    as (cs & E & _); [|done|by exists cs].
  intros x s Hx _. rewrite le_at_Done; [simpl; by eexists|lia| |]; unfold lfn_positions in Hx; set_solver by lia.
Qed.

Lemma scan_slot_total s o r st :
  zlen r = 32 → ∃ res, scan_slot s o r st = Done res ∧ (first_byte r ≠ 0 → ∃ st', res = inl st').
Proof.
  intros Hl. unfold scan_slot. rewrite idx_first by done. cbn [mbind outcome_bind].
  destruct (Z.eqb_spec (first_byte r) 0); [by eexists|]. case_match; [naive_solver|].
  destruct (zget_is_Some r 11) as [a Ha]; [lia|]. rewrite (proj2 (idx_Done _ _ _) Ha). cbn [mbind outcome_bind].
  destruct (a =? ATTR_LFN).
  { destruct (read_lfn_chars_total r Hl) as [cs ->]. cbn [mbind outcome_bind]. naive_solver. }
  destruct (_ && _); [naive_solver|]. rewrite slice_Done by lia. cbn [mbind outcome_bind].
  assert (∃ n, parse_sfn (zslice r 0 11) = Done n) as [nm ->].
  { unfold parse_sfn. rewrite !slice_Done by (rewrite ?zlen_zslice; lia). simpl. by eexists. }
  cbn [mbind outcome_bind]. rewrite !le_at_Done by lia. cbn [mbind outcome_bind].
  destruct (_ || _); [naive_solver|]. destruct (default _ _). naive_solver.
Qed.

(** Scanning only appends: entries found before do not matter. *)
Definition add_entries (E : list DirEntry) (st : scan) : scan := mkScan (E ++ sn_entries st) (sn_lfn st) (sn_start st).
Definition add_result (E : list DirEntry) (r : scan + list DirEntry) : scan + list DirEntry :=
  match r with inl st => inl (add_entries E st) | inr es => inr (E ++ es) end.

Lemma scan_slot_add E s o r st :
  scan_slot s o r (add_entries E st) = (x ← scan_slot s o r st; Done (add_result E x)).
Proof.
  unfold scan_slot. destruct (idx r 0) as [b0|]; cbn [mbind outcome_bind]; [|done].
  destruct (b0 =? 0); [done|]. destruct (b0 =? 0xE5); [done|].
  destruct (idx r 11) as [a|]; cbn [mbind outcome_bind]; [|done].
  destruct (a =? ATTR_LFN).
  { destruct (read_lfn_chars r) as [cs|]; cbn [mbind outcome_bind]; [|done]. by destruct (negb _). }
  destruct (_ && _); [done|].
  destruct (slice r 0 11) as [s11|]; cbn [mbind outcome_bind]; [|done].
  destruct (parse_sfn s11) as [n|]; cbn [mbind outcome_bind]; [|done].
  destruct (le_at 2 r 20) as [hi|]; cbn [mbind outcome_bind]; [|done].
  destruct (le_at 2 r 26) as [lo|]; cbn [mbind outcome_bind]; [|done].
  destruct (le_at 4 r 28) as [sz|]; cbn [mbind outcome_bind]; [|done].
  simpl sn_lfn. simpl sn_start. simpl sn_entries. destruct (_ || _); [done|].
  destruct (default _ _). simpl. by rewrite <-app_assoc.
Qed.

Lemma listing_add E rw ps st : listing rw ps (add_entries E st) = (x ← listing rw ps st; Done (add_result E x)).
Proof.
  unfold listing. revert st. induction ps as [|p ps IH]; intros st; cbn [for_until]; [done|].
  rewrite scan_slot_add.
  destruct (scan_slot p.1 p.2 (rw p) st) as [[st'|es]|]; cbn [mbind outcome_bind add_result]; [apply IH|done..].
Qed.

Lemma listing_zero rw ps st :
  (∀ p, p ∈ ps → zlen (rw p) = 32 ∧ first_byte (rw p) = 0) →
  ∃ r, listing rw ps st = Done r ∧ entries_of r = sn_entries st.
Proof.
  intros Hp. unfold listing. destruct ps as [|p ps]; [by eexists|]. cbn [for_until]. destruct (Hp p) as [? ?]; [by left|].
  rewrite scan_slot_end by done. simpl. by eexists.
Qed.

Lemma listing_app rw ps1 ps2 st :
  listing rw (ps1 ++ ps2) st =
  (r ← listing rw ps1 st; match r with inl st => listing rw ps2 st | inr r => Done (inr r) end).
Proof. apply for_until_app. Qed.

Lemma listing_frame rw rw' ps st : (∀ p, p ∈ ps → rw' p = rw p) → listing rw' ps st = listing rw ps st.
Proof. intros Hp. apply for_until_ext. intros p s Hps. by rewrite Hp. Qed.

Lemma listing_total rw ps st :
  (∀ p, p ∈ ps → zlen (rw p) = 32) → ∃ r, listing rw ps st = Done r ∧
    ((∀ p, p ∈ ps → first_byte (rw p) ≠ 0) → ∃ st', r = inl st').
Proof.
  unfold listing. revert st. induction ps as [|p ps IH]; intros st Hp; cbn [for_until]; [naive_solver|].
  destruct (scan_slot_total p.1 p.2 (rw p) st) as (r & -> & Hr); [apply Hp; by left|]. cbn [mbind outcome_bind].
  destruct r as [st'|es].
  - destruct (IH st') as (r & -> & Hr'); [intros; apply Hp; by right|]. exists r. split; [done|].
    intros Hnz. apply Hr'. intros. apply Hnz. by right.
  - exists (inr es). split; [done|]. intros Hnz. apply Hr, Hnz. by left.
Qed.

(** Filling two free slots inserts one entry into the listing. *)
Lemma listing_insert rw rw' P1 p1 p2 P2 name attr c :
  (∀ p, p ∈ P1 ++ p1 :: p2 :: P2 → zlen (rw p) = 32) →
  (∀ p, p ∈ P1 → first_byte (rw p) ≠ 0) → slot_free (rw p1) → slot_free (rw p2) →
  (first_byte (rw p1) = 0 ∨ first_byte (rw p2) = 0 → ∀ p, p ∈ P2 → first_byte (rw p) = 0) →
  (∀ p, p ∈ P1 ++ P2 → rw' p = rw p) →
  (∀ st, (r ← scan_slot p1.1 p1.2 (rw' p1) st;
          match r with inl st => scan_slot p2.1 p2.2 (rw' p2) st | inr r => Done (inr r) end) =
         Done (inl (mkScan (sn_entries st ++ [created name attr c p1 p2]) [] None))) →
  ∃ r r' E1 E2, listing rw (P1 ++ p1 :: p2 :: P2) (mkScan [] [] None) = Done r ∧
    listing rw' (P1 ++ p1 :: p2 :: P2) (mkScan [] [] None) = Done r' ∧
    entries_of r = E1 ++ E2 ∧ entries_of r' = E1 ++ created name attr c p1 p2 :: E2.
Proof.
  intros Hlen Hnz Hf1 Hf2 Hz Hfr Hnew.
  destruct (listing_total rw P1 (mkScan [] [] None)) as (r1 & HP1 & Hr1); [set_solver|].
  destruct (Hr1 Hnz) as [st1 ->]. rewrite !listing_app.
  rewrite (listing_frame rw rw' P1) by set_solver. rewrite HP1. cbn [mbind outcome_bind].
  assert (∀ st, listing rw' (p1 :: p2 :: P2) st =
    listing rw P2 (add_entries (sn_entries st ++ [created name attr c p1 p2]) (mkScan [] [] None))) as Enew.
  { intros st. rewrite <-(listing_frame rw rw' P2) by set_solver. specialize (Hnew st). revert Hnew.
    unfold listing, add_entries. cbn [for_until sn_entries sn_lfn sn_start]. rewrite app_nil_r.
    destruct (scan_slot p1.1 p1.2 (rw' p1) st) as [[s'|]|]; cbn [mbind outcome_bind]; [|done..].
    by intros ->. }
  rewrite Enew, listing_add.
  destruct (listing_total rw P2 (mkScan [] [] None)) as (r2 & HP2 & _); [set_solver|].
  rewrite HP2. cbn [mbind outcome_bind].
  assert (∃ r, listing rw (p1 :: p2 :: P2) st1 = Done r ∧ entries_of r = sn_entries st1 ++ entries_of r2)
    as (r & -> & Er).
  { assert (zlen (rw p1) = 32) as H1 by (apply Hlen; set_solver).
    assert (zlen (rw p2) = 32) as H2 by (apply Hlen; set_solver).
    assert (first_byte (rw p1) = 0 ∨ first_byte (rw p2) = 0 → entries_of r2 = []) as Hr2.
    { intros Hor. destruct (listing_zero rw P2 (mkScan [] [] None)) as (r & E & Er); [set_solver|].
      rewrite HP2 in E. injection E as <-. done. }
    unfold listing. cbn [for_until]. destruct Hf1 as [Hf1|Hf1].
    { rewrite scan_slot_end by done. eexists. split; [done|]. rewrite Hr2 by auto. by rewrite app_nil_r. }
    rewrite scan_slot_erased by done. cbn [mbind outcome_bind]. destruct Hf2 as [Hf2|Hf2].
    { rewrite scan_slot_end by done. eexists. split; [done|]. rewrite Hr2 by auto. by rewrite app_nil_r. }
    rewrite scan_slot_erased by done. cbn [mbind outcome_bind sn_entries].
    fold (listing rw P2 (mkScan (sn_entries st1) [] None)).
    replace (mkScan (sn_entries st1) [] None) with (add_entries (sn_entries st1) (mkScan [] [] None))
      by (unfold add_entries; simpl; by rewrite app_nil_r).
    rewrite listing_add, HP2. simpl. eexists. split; [done|]. by destruct r2. }
  eexists _, _, (sn_entries st1), (entries_of r2). split; [done|]. split; [done|]. split; [done|].
  destruct r2; simpl; by rewrite <-app_assoc.
Qed.

(* ------------------------------------------------------------------ *)
(** ** Free slots *)

Section runs.
Context (free : Z * Z → Prop).

(** No two neighbouring slots are free. *)
Fixpoint no_run (ps : list (Z * Z)) : Prop :=
  match ps with
  | x :: (y :: _) as t => ¬ (free x ∧ free y) ∧ no_run t
  | _ => True
  end.

Lemma no_run_app A x y B : no_run (A ++ x :: y :: B) → ¬ (free x ∧ free y).
Proof. induction A as [|a A IH]; [by intros [? _]|]. destruct A as [|a' A]; intros [_ Hn]; by apply IH. Qed.

Lemma no_run_skip x ps : ¬ free x → no_run ps → no_run (x :: ps).
Proof. intros Hx Hp. destruct ps; [done|]. split; [naive_solver|done]. Qed.
End runs.

(** [free_slot] on a slot rather than an index. *)
Definition free_at (needed : Z) (p : Z * Z) (buf : list Z) (r : freerun) : outcome (freerun + Z * Z) :=
  fb ← idx buf p.2;
  if (fb =? 0) || (fb =? 0xE5) then
    let first := if fr_count r =? 0 then p else fr_first r in
    let consecutive := fr_count r + 1 in
    if needed <=? consecutive then Done (inr first) else Done (inl (mkRun consecutive first))
  else Done (inl (mkRun 0 (fr_first r))).

Definition run_state (pend : option (Z * Z)) (r : freerun) : Prop :=
  match pend with None => fr_count r = 0 | Some q => fr_count r = 1 ∧ fr_first r = q end.

Section find.
Context {D : Type} `{Disk D}.
Implicit Types (d : D) (b : Bpb).

Definition free_in d (p : Z * Z) : Prop := slot_free (raw d p).

Lemma idx_raw b d l p :
  geo_ok b d → clusters_ok b l → p ∈ dslots b l → idx (sec d p.1) p.2 = Done (first_byte (raw d p)).
Proof.
  intros Hg Hl Hp. pose proof (zlen_raw b d l p Hg Hl Hp) as Hr. pose proof Hp as (Hs & Ho & _)%elem_of_dslots.
  pose proof (idx_first _ Hr) as E. rewrite <-E. unfold idx, raw. f_equal. rewrite zget_zslice by lia. f_equal. lia.
Qed.

Lemma free_at_spec b d l p r :
  geo_ok b d → clusters_ok b l → p ∈ dslots b l →
  (free_in d p ∧ free_at 2 p (sec d p.1) r =
     Done (let first := if fr_count r =? 0 then p else fr_first r in
           if 2 <=? fr_count r + 1 then inr first else inl (mkRun (fr_count r + 1) first))) ∨
  (¬ free_in d p ∧ free_at 2 p (sec d p.1) r = Done (inl (mkRun 0 (fr_first r)))).
Proof.
  intros Hg Hl Hp. unfold free_at. rewrite (idx_raw b d l p Hg Hl Hp). cbn [mbind outcome_bind].
  unfold free_in, slot_free.
  destruct (Z.eqb_spec (first_byte (raw d p)) 0); [left|destruct (Z.eqb_spec (first_byte (raw d p)) 0xE5)];
    cbn [orb];
    [split; [by left|by destruct (2 <=? fr_count r + 1)]|
     left; split; [by right|by destruct (2 <=? fr_count r + 1)]|right; split; [naive_solver|done]].
Qed.

Lemma find_run b d l ps pend r :
  geo_ok b d → clusters_ok b l → (∀ p, p ∈ ps → p ∈ dslots b l) → run_state pend r →
  (∀ q, pend = Some q → free_in d q) →
  ∃ res, for_until ps (λ p, free_at 2 p (sec d p.1)) r = Done res ∧
    match res with
    | inr q => ∃ P1 p2 P2, option_list pend ++ ps = P1 ++ q :: p2 :: P2 ∧ free_in d q ∧ free_in d p2 ∧
                           no_run (free_in d) (P1 ++ [q])
    | inl _ => no_run (free_in d) (option_list pend ++ ps)
    end.
Proof.
  intros Hg Hl. revert pend r. induction ps as [|p ps IH]; intros pend r Hps Hr Hpend; cbn [for_until].
  { eexists. split; [done|]. by destruct pend. }
  assert (∀ q, q ∈ ps → q ∈ dslots b l) as Hps' by set_solver.
  destruct (free_at_spec b d l p r Hg Hl) as [[Hf ->] | [Hf ->]]; [set_solver|..]; cbn [mbind outcome_bind].
  - destruct pend as [q|]; simpl in Hr.
    + destruct Hr as [-> ->]. simpl. eexists. split; [done|]. exists [], p, ps. naive_solver.
    + rewrite Hr. change (0 =? 0) with true. change (2 <=? 0 + 1) with false. cbv zeta iota.
      destruct (IH (Some p) (mkRun (0 + 1) p)) as (res & -> & Hres); [done|done|naive_solver|]. by exists res.
  - destruct (IH None (mkRun 0 (fr_first r))) as (res & -> & Hres); [done|done|done|]. exists res. split; [done|].
    destruct res as [r'|q].
    + destruct pend as [q|]; simpl in *; [|by apply no_run_skip]. split; [naive_solver|by apply no_run_skip].
    + destruct Hres as (P1 & p2 & P2 & Eps & Hq & Hp2 & Hn). simpl in Eps. subst ps.
      exists (option_list pend ++ p :: P1), p2, P2. split; [by rewrite <-app_assoc|]. split; [done|]. split; [done|].
      destruct pend as [q'|]; simpl; [|by apply no_run_skip]. split; [naive_solver|by apply no_run_skip].
Qed.

(* ------------------------------------------------------------------ *)
(** ** Directories the driver handles *)

(** After an end marker there are only end markers; neighbouring slots are
    neighbours on the disk; the end marker is not the very last slot. *)
Record dir_ok b d (dc : Z) (l : list Z) : Prop := {
  do_chain : is_chain b d dc l;
  do_zeros : ∀ P p Q, dslots b l = P ++ p :: Q → first_byte (raw d p) = 0 → ∀ q, q ∈ Q → first_byte (raw d q) = 0;
  do_contig : ∀ P p q Q, dslots b l = P ++ p :: q :: Q → advance_dir_slot p = q;
  do_no_gap : no_run (free_in d) (dslots b l) → ∀ p, p ∈ dslots b l → first_byte (raw d p) ≠ 0;
}.

(** The end marker is not before the first free run. *)
Lemma no_zero_before b d dc l P1 q p2 P2 :
  dir_ok b d dc l → dslots b l = P1 ++ q :: p2 :: P2 → no_run (free_in d) (P1 ++ [q]) →
  ∀ p, p ∈ P1 → first_byte (raw d p) ≠ 0.
Proof.
  intros Hdo E Hn p (A & B & ->)%list_elem_of_split Hz. rewrite <-app_assoc in E. simpl in E.
  pose proof (do_zeros _ _ _ _ Hdo _ _ _ E Hz) as Hz'.
  assert (∃ y C, B ++ [q] = y :: C) as (y & C & EB) by (destruct B; simpl; eauto).
  assert (first_byte (raw d y) = 0) as Hy.
  { apply Hz'. assert (y ∈ B ++ [q]) as Hin by (rewrite EB; by left). set_solver. }
  rewrite <-app_assoc in Hn. simpl in Hn. rewrite EB in Hn.
  apply (no_run_app _ _ _ _ _ Hn). split; by left.
Qed.

(* ------------------------------------------------------------------ *)
(** ** Making room *)

Lemma zero_cluster_spec b d c :
  geo_ok b d → cluster_ok b c →
  ∃ d', zero_cluster b c (Some d) = Some d' ∧ sector_count d' = sector_count d ∧
    ∀ s, 0 ≤ s → sec d' s = if decide (s ∈ csecs b c) then zrep 512 0 else sec d s.
Proof.
  intros Hg Hc. unfold zero_cluster.
  assert (∀ n, 0 ≤ n → n ≤ sectors_per_cluster b →
    ∃ d', foldl (λ dev s, write_sector (cluster_to_sector b c ⊞ s) (zrep 512 0) dev) (Some d) (seqZ 0 n) = Some d' ∧
      sector_count d' = sector_count d ∧
      ∀ s, 0 ≤ s → sec d' s = if decide (s ∈ seqZ (cluster_to_sector b c) n) then zrep 512 0 else sec d s) as Hn.
  { apply (natlike_ind (λ n, n ≤ sectors_per_cluster b → _)).
    - intros _. exists d. split; [done|]. split; [done|]. intros s Hs.
      rewrite decide_False; [done|]. rewrite elem_of_seqZ. lia.
    - intros n Hn IH Hle. destruct IH as (d1 & E1 & Hc1 & Hs1); [lia|].
      rewrite <-Z.add_1_r, seqZ_snoc, foldl_app, E1 by done. cbn [foldl]. rewrite Z.add_0_l.
      assert (cluster_to_sector b c + n ∈ csecs b c) as Hin by (apply elem_of_seqZ; lia).
      destruct (csecs_range b d c _ Hg Hc Hin) as (_ & _ & Hr). pose proof (disk_size d).
      rewrite wrap_small by (unfold is_uint; lia).
      destruct (write_sector_sec d1 (cluster_to_sector b c + n) (zrep 512 0)) as (d2 & -> & Hc2 & Hs2);
        [lia|by apply zlen_zrep|].
      exists d2. split; [done|]. split; [lia|]. intros s Hs. rewrite Hs2, Hs1, seqZ_snoc by done.
      repeat case_decide; set_solver. }
  destruct (Hn (sectors_per_cluster b)) as (d' & E & Hcnt & Hs); [pose proof (g_spc _ _ Hg); lia|lia|].
  exists d'. done.
Qed.

Lemma dslots_app b l1 l2 : dslots b (l1 ++ l2) = dslots b l1 ++ dslots b l2.
Proof. unfold dslots. by rewrite fsecs_app, map_app, concat_app. Qed.

Lemma dslots_cluster b d c :
  geo_ok b d → ∃ P2, dslots b [c] = (cluster_to_sector b c, 0) :: (cluster_to_sector b c, 32) :: P2.
Proof.
  intros Hg. pose proof (g_spc _ _ Hg). unfold dslots, fsecs, csecs. cbn [map concat]. rewrite app_nil_r.
  rewrite seqZ_cons by lia. cbn [map concat]. unfold slots_of, sector_slots.
  change (seqZ 0 (SECTOR_SIZE `div` DIR_ENTRY_SIZE)) with ([0; 1] ++ seqZ 2 14). by eexists.
Qed.

(** [d2] is [d] with room for a name at [p1], [p2] in the directory [dc],
    which lists what it did. *)
Record room b d (dc : Z) (l new : list Z) d2 (P1 : list (Z * Z)) (p1 p2 : Z * Z) (P2 : list (Z * Z)) : Prop := {
  rm_count : sector_count d2 = sector_count d;
  rm_chain : is_chain b d2 dc (l ++ new);
  rm_free : ∀ x, x ∈ new → cluster_ok b x ∧ fat b d x = FAT32_FREE;
  rm_fat : ∀ x, in_table b x → x ∉ l → x ∉ new → fat b d2 x = fat b d x;
  rm_sec : ∀ s, data_start_sector b ≤ s → s ∉ fsecs b new → sec d2 s = sec d s;
  rm_slots : dslots b (l ++ new) = P1 ++ p1 :: p2 :: P2;
  rm_next : advance_dir_slot p1 = p2;
  rm_free1 : free_in d2 p1;
  rm_free2 : free_in d2 p2;
  rm_before : ∀ p, p ∈ P1 → first_byte (raw d2 p) ≠ 0;
  rm_after : first_byte (raw d2 p1) = 0 ∨ first_byte (raw d2 p2) = 0 → ∀ p, p ∈ P2 → first_byte (raw d2 p) = 0;
  rm_listing : ∃ r r2, listing (raw d) (dslots b l) (mkScan [] [] None) = Done r ∧
    listing (raw d2) (dslots b (l ++ new)) (mkScan [] [] None) = Done r2 ∧ entries_of r = entries_of r2;
}.

Lemma room_here b d dc l P1 p1 p2 P2 :
  geo_ok b d → dir_ok b d dc l → dslots b l = P1 ++ p1 :: p2 :: P2 → free_in d p1 → free_in d p2 →
  no_run (free_in d) (P1 ++ [p1]) → room b d dc l [] d P1 p1 p2 P2.
Proof.
  intros Hg Hdo E Hf1 Hf2 Hn. pose proof (is_chain_clusters _ _ _ _ Hg (do_chain _ _ _ _ Hdo)) as Hl.
  constructor; rewrite ?app_nil_r; try done.
  - apply (do_chain _ _ _ _ Hdo).
  - set_solver.
  - by apply (do_contig _ _ _ _ Hdo _ _ _ _ E).
  - by eapply no_zero_before.
  - intros Hz p Hp. destruct Hz as [Hz|Hz].
    + apply (do_zeros _ _ _ _ Hdo _ _ _ E Hz). by right.
    + apply (do_zeros _ _ _ _ Hdo (P1 ++ [p1]) p2 P2); [by rewrite <-app_assoc|done|done].
  - destruct (listing_total (raw d) (dslots b l) (mkScan [] [] None)) as (r & -> & _);
      [intros p Hp; by apply (zlen_raw b d l)|]. eauto.
Qed.

Lemma raw_frame d d' p : sec d' p.1 = sec d p.1 → raw d' p = raw d p.
Proof. unfold raw. by intros ->. Qed.

(** A new, zeroed cluster at the end of a directory without free run. *)
Lemma room_grown b d dc l nc d2 d3 :
  geo_ok b d → dir_ok b d dc l → no_run (free_in d) (dslots b l) → extended b d dc l [nc] d2 →
  sector_count d3 = sector_count d2 →
  (∀ s, 0 ≤ s → sec d3 s = if decide (s ∈ csecs b nc) then zrep 512 0 else sec d2 s) →
  ∃ P2, room b d dc l [nc] d3 (dslots b l) (cluster_to_sector b nc, 0) (cluster_to_sector b nc, 32) P2.
Proof.
  intros Hg Hdo Hn Hext Hc3 Hs3. pose proof (ext_chain _ _ _ _ _ _ Hext) as Hch.
  pose proof (geo_count _ _ _ Hg (ext_count _ _ _ _ _ _ Hext)) as Hg2.
  pose proof (geo_count _ _ _ Hg2 Hc3) as Hg3. pose proof (g_fats _ _ Hg).
  pose proof (is_chain_clusters _ _ _ _ Hg2 Hch) as Hl2.
  pose proof (is_chain_clusters _ _ _ _ Hg (do_chain _ _ _ _ Hdo)) as Hl.
  destruct (ext_free _ _ _ _ _ _ Hext nc) as [Hnc Hncf]; [by left|].
  assert (∀ x, in_table b x → fat b d3 x = fat b d2 x) as Hfat.
  { intros x Hx. apply fatk_frame; [done|lia|done|]. intros s Hs. rewrite Hs3, decide_False; [done| |lia].
    intros Hin. destruct (csecs_range b d nc s Hg Hnc Hin). lia. }
  assert (∀ p, p ∈ dslots b l → raw d3 p = raw d p) as Hraw.
  { intros p (Hp & _)%elem_of_dslots. apply raw_frame. destruct (fsecs_range b d l _ Hg Hl Hp) as [? ?].
    rewrite Hs3, decide_False; [apply (ext_sec _ _ _ _ _ _ Hext); lia| |lia].
    intros Hin. apply elem_of_fsecs in Hp as (x & Hx & Hpx).
    assert (x = nc) as -> by (eapply csecs_inj; [exact Hg|by apply Hl|exact Hnc|exact Hpx|exact Hin]).
    by destruct (is_chain_ok _ _ _ _ _ (do_chain _ _ _ _ Hdo) Hx). }
  assert (∀ p, p ∈ dslots b [nc] → zlen (raw d3 p) = 32 ∧ first_byte (raw d3 p) = 0) as Hz.
  { intros p (Hp & Ho & _)%elem_of_dslots. apply elem_of_fsecs in Hp as (x & ->%list_elem_of_singleton & Hp).
    destruct (csecs_range b d nc _ Hg Hnc Hp) as (_ & _ & ?). unfold raw, first_byte.
    rewrite Hs3, decide_True by (done || lia). rewrite zget_zslice, zget_zrep by lia.
    split; [|done]. rewrite zlen_zslice; rewrite ?zlen_zrep; lia. }
  destruct (dslots_cluster b d nc Hg) as [P2 EP2]. exists P2. rewrite EP2 in Hz.
  pose proof (do_no_gap _ _ _ _ Hdo Hn) as Hnz.
  constructor.
  - by rewrite Hc3, (ext_count _ _ _ _ _ _ Hext).
  - eapply is_chain_frame; [done|]. intros x Hx. apply Hfat. eapply cluster_in_table; [done|]. by apply Hl2.
  - apply (ext_free _ _ _ _ _ _ Hext).
  - intros x Hx Hxl Hxn. rewrite Hfat by done. apply (ext_fat _ _ _ _ _ _ Hext); [lia|done..].
  - intros s Hs Hns. assert (0 ≤ s) by (pose proof (g_reserved _ _ Hg); unfold data_start_sector in Hs;
      pose proof (g_spf _ _ Hg); nia).
    rewrite Hs3, decide_False; [apply (ext_sec _ _ _ _ _ _ Hext); lia| |done].
    intros Hin. apply Hns, elem_of_fsecs. exists nc. split; [by left|done].
  - by rewrite dslots_app, EP2.
  - done.
  - left. by apply Hz; left.
  - left. by apply Hz; right; left.
  - intros p Hp. rewrite Hraw by done. by apply Hnz.
  - intros _ p Hp. by apply Hz; right; right.
  - destruct (listing_total (raw d) (dslots b l) (mkScan [] [] None)) as (r & Er & Hr);
      [intros p Hp; by apply (zlen_raw b d l)|]. destruct (Hr Hnz) as [st ->].
    rewrite dslots_app, listing_app, (listing_frame (raw d) (raw d3)), Er, EP2 by done. cbn [mbind outcome_bind].
    destruct (listing_zero (raw d3) _ st Hz) as (r2 & -> & E2). eexists _, _. split; [done|]. split; [done|].
    by rewrite E2.
Qed.

Lemma find_free_dir_slots_spec b d dc l :
  geo_ok b d → dir_ok b d dc l → (∃ x, cluster_ok b x ∧ fat b d x = FAT32_FREE) →
  ∃ new d2 P1 p1 p2 P2, find_free_dir_slots b dc 2 (Some d) = Done (Some p1, Some d2) ∧
    room b d dc l new d2 P1 p1 p2 P2.
Proof.
  intros Hg Hdo (x & Hx & Hxf). pose proof (do_chain _ _ _ _ Hdo) as Hc.
  pose proof (is_chain_clusters _ _ _ _ Hg Hc) as Hl.
  unfold find_free_dir_slots. rewrite (cluster_chain_spec b d dc l Hg Hc). cbn [mbind outcome_bind].
  assert (for_until l (free_cluster_slots b 2 (Some d)) (mkRun 0 (0, 0)) =
          for_until (dslots b l) (λ p, free_at 2 p (sec d p.1)) (mkRun 0 (0, 0))) as ->
    by exact (over_slots b d l (free_at 2) (mkRun 0 (0, 0)) Hg Hl).
  destruct (find_run b d l (dslots b l) None (mkRun 0 (0, 0)) Hg Hl) as (res & -> & Hres); [done|done|done|].
  cbn [mbind outcome_bind]. destruct res as [r|p1]; simpl in Hres.
  - destruct (fat_alloc_cluster_spec b d Hg) as ([nc|] & d1 & -> & Ha); [|by destruct Ha as [_ Ha]; destruct (Ha x)].
    cbn [mbind outcome_bind]. destruct Ha as (Hnc & Hf & _ & Hs1).
    destruct (is_chain_head _ _ _ _ Hc) as [_ [k Ek]].
    destruct (last l) as [z|] eqn:Hz; [|by rewrite Ek, last_cons in Hz; destruct (last k)].
    assert (z ∈ l) as Hzl by (by apply last_Some_elem_of).
    destruct (is_chain_ok _ _ _ _ _ Hc Hzl) as [Hzok _].
    pose proof (geo_count _ _ _ Hg (fs_count _ _ _ _ _ Hs1)) as Hg1. unfold link_last. rewrite Hz.
    destruct (fat_write_entry_spec b d1 z nc Hg1) as (d2 & -> & Hs2);
      [by eapply cluster_in_table|destruct Hnc; pose proof (g_eoc _ _ Hg); unfold FAT32_EOC, FAT32_MASK in *; lia|].
    cbn [mbind outcome_bind]. pose proof (extended_one b d d1 d2 dc l z nc Hg Hc Hz Hnc Hf Hs1 Hs2) as Hext.
    pose proof (geo_count _ _ _ Hg (ext_count _ _ _ _ _ _ Hext)) as Hg2.
    destruct (zero_cluster_spec b d2 nc Hg2 Hnc) as (d3 & -> & Hc3 & Hs3).
    destruct (room_grown b d dc l nc d2 d3) as [P2 Hr]; [done..|]. eauto 10.
  - destruct Hres as (P1 & p2 & P2 & E & Hf1 & Hf2 & Hn).
    exists [], d, P1, p1, p2, P2. split; [done|]. by apply room_here.
Qed.

Lemma read_dir_listing b d dc l r :
  geo_ok b d → is_chain b d dc l → listing (raw d) (dslots b l) (mkScan [] [] None) = Done r →
  read_dir_entries b dc (Some d) = Done (entries_of r).
Proof.
  intros Hg Hc Hr. pose proof (is_chain_clusters _ _ _ _ Hg Hc) as Hl.
  unfold read_dir_entries. rewrite (cluster_chain_spec b d dc l Hg Hc). cbn [mbind outcome_bind].
  assert (for_until l (scan_cluster b (Some d)) (mkScan [] [] None) =
          for_until (dslots b l) (λ p st, raw ← slice (sec d p.1) p.2 (p.2 + 32); scan_slot p.1 p.2 raw st)
            (mkScan [] [] None)) as ->
    by exact (over_slots b d l (λ p buf st, raw ← slice buf p.2 (p.2 + 32); scan_slot p.1 p.2 raw st) _ Hg Hl).
  rewrite (for_until_ext _ _ (λ p, scan_slot p.1 p.2 (raw d p))).
  - fold (listing (raw d) (dslots b l) (mkScan [] [] None)). rewrite Hr. simpl. by destruct r.
  - intros p st (Hp & Ho & _)%elem_of_dslots. destruct (fsecs_range b d l _ Hg Hl Hp) as [_ Hrg].
    pose proof (zlen_sec d _ Hrg). by rewrite slice_Done by lia.
Qed.

Lemma write_slot_spec b d l p e :
  geo_ok b d → clusters_ok b l → p ∈ dslots b l → zlen e = 32 →
  ∃ d', fat_write_dir_entry p e (Some d) = Done (Some d') ∧ sector_count d' = sector_count d ∧
    (∀ s, 0 ≤ s → s ≠ p.1 → sec d' s = sec d s) ∧ raw d' p = e ∧
    ∀ q, q ∈ dslots b l → q ≠ p → raw d' q = raw d q.
Proof.
  intros Hg Hl Hp He. pose proof Hp as (Hs & Ho & Hm)%elem_of_dslots.
  destruct (fsecs_range b d l _ Hg Hl Hs) as [_ Hr]. pose proof (zlen_sec d _ Hr) as Hlen.
  unfold fat_write_dir_entry. destruct p as [s o]. cbn [fst snd] in *.
  rewrite read_sector_sec by (done || by apply zlen_zrep).
  rewrite copy_into_Done by lia. cbn [mbind outcome_bind].
  destruct (write_sector_sec d s (zsplice (sec d s) o e)) as (d' & -> & Hc' & Hs'); [done|rewrite zlen_zsplice; lia|].
  exists d'. split; [done|]. split; [done|]. split; [|split].
  - intros t Ht Hne. by rewrite Hs', decide_False.
  - unfold raw. simpl. rewrite Hs', decide_True by (done || lia). apply zslice_zsplice_same; lia.
  - intros [t u] Hq Hne. pose proof Hq as (Ht & Hu & Hmu)%elem_of_dslots. simpl in *.
    destruct (fsecs_range b d l _ Hg Hl Ht) as [_ Hrt]. unfold raw. simpl. rewrite Hs' by lia.
    case_decide as Hts; [|done]. subst t. apply zslice_zsplice_disjoint; [lia..|].
    assert (o ≠ u) by congruence. Z.to_euclidean_division_equations; lia.
Qed.

Lemma dslots_NoDup b d l : geo_ok b d → clusters_ok b l → NoDup (dslots b l).
Proof.
  intros Hg Hl. pose proof (fsecs_NoDup b d l Hg Hl) as Hnd. unfold dslots.
  induction Hnd as [|s ss Hs Hnd IH]; cbn [map concat]; [apply NoDup_nil_2|].
  apply NoDup_app. split; [|split; [|done]].
  - unfold slots_of. apply NoDup_fmap; [intros i j; intros [= E]; lia|apply NoDup_seqZ].
  - intros p (Ep & _)%elem_of_slots Hp. apply Hs. rewrite <-Ep.
    clear -Hp. induction ss as [|s ss IH]; cbn [map concat] in Hp; [by apply elem_of_nil in Hp|].
    apply elem_of_app in Hp as [(-> & _)%elem_of_slots|Hp]; [by left|right; by apply IH].
Qed.

(* ------------------------------------------------------------------ *)
(** ** Creating an entry *)

(** [d4] is [d] with the entry [created name attr c p1 p2] in directory [dc]. *)
Record inserted b d (dc : Z) (l : list Z) (name : str) (attr c : Z) new (p1 p2 : Z * Z) E1 E2 d4 : Prop := {
  in_count : sector_count d4 = sector_count d;
  in_chain : is_chain b d4 dc (l ++ new);
  in_free : ∀ x, x ∈ new → cluster_ok b x ∧ fat b d x = FAT32_FREE;
  in_fat : ∀ x, in_table b x → x ∉ l → x ∉ new → fat b d4 x = fat b d x;
  in_sec : ∀ s, data_start_sector b ≤ s → s ∉ fsecs b (l ++ new) → sec d4 s = sec d s;
  in_slot : p2 ∈ dslots b (l ++ new);
  in_size : size_field d4 p2.1 p2.2 = 0;
  in_old : read_dir_entries b dc (Some d) = Done (E1 ++ E2);
  in_new : read_dir_entries b dc (Some d4) = Done (E1 ++ created name attr c p1 p2 :: E2);
}.

Lemma inserted_intro b d d2 d3 d4 dc l new P1 p1 p2 P2 name sfn attr c ticks e1 e2 :
  geo_ok b d → is_chain b d dc l → room b d dc l new d2 P1 p1 p2 P2 →
  ascii_name name → build_sfn name = Some sfn → is_uint 32 c → attr = ATTR_ARCHIVE ∨ attr = ATTR_DIRECTORY →
  lfn_entry 0x41 (sfn_checksum sfn) (pad_lfn name) = Done e1 → sfn_entry sfn attr c ticks = Done e2 →
  sector_count d4 = sector_count d2 →
  (∀ s, 0 ≤ s → s ≠ p1.1 → s ≠ p2.1 → sec d4 s = sec d2 s) → raw d4 p1 = e1 → raw d4 p2 = e2 →
  (∀ q, q ∈ dslots b (l ++ new) → q ≠ p1 → q ≠ p2 → raw d4 q = raw d2 q) →
  ∃ E1 E2, inserted b d dc l name attr c new p1 p2 E1 E2 d4.
Proof.
  intros Hg Hc Hr Ha Hb Hu Hattr He1 He2 Hc4 Hs4 Hr1 Hr2 Hrq.
  pose proof (geo_count _ _ _ Hg (rm_count _ _ _ _ _ _ _ _ _ _ Hr)) as Hg2.
  pose proof (geo_count _ _ _ Hg2 Hc4) as Hg4. pose proof (rm_slots _ _ _ _ _ _ _ _ _ _ Hr) as Esl.
  pose proof (is_chain_clusters _ _ _ _ Hg2 (rm_chain _ _ _ _ _ _ _ _ _ _ Hr)) as Hl2.
  pose proof (dslots_NoDup b d (l ++ new) Hg Hl2) as Hnd. rewrite Esl in Hnd.
  assert (p1 ∈ dslots b (l ++ new) ∧ p2 ∈ dslots b (l ++ new)) as [Hp1 Hp2] by (rewrite Esl; set_solver).
  assert (∀ p, p ∈ dslots b (l ++ new) → data_start_sector b ≤ p.1 ∧ p.1 ∈ fsecs b (l ++ new)) as Hps.
  { intros p (Hp & _)%elem_of_dslots. destruct (fsecs_range b d _ _ Hg Hl2 Hp). split; [lia|done]. }
  destruct (listing_insert (raw d2) (raw d4) P1 p1 p2 P2 name attr c) as (r & r' & E1 & E2 & Lr & Lr' & Er & Er').
  { intros p Hp. apply (zlen_raw b d2 (l ++ new)); [done|done|by rewrite Esl]. }
  { apply (rm_before _ _ _ _ _ _ _ _ _ _ Hr). }
  { apply (rm_free1 _ _ _ _ _ _ _ _ _ _ Hr). }
  { apply (rm_free2 _ _ _ _ _ _ _ _ _ _ Hr). }
  { apply (rm_after _ _ _ _ _ _ _ _ _ _ Hr). }
  { intros p Hp. apply NoDup_app in Hnd as (_ & Hnd1 & Hnd2). apply NoDup_cons in Hnd2 as [Hn1 Hnd2].
    apply NoDup_cons in Hnd2 as [Hn2 _]. clear -Hp Hrq Esl Hnd1 Hn1 Hn2.
    apply elem_of_app in Hp as [Hp|Hp]; apply Hrq; try (rewrite Esl; set_solver).
    - intros ->. apply (Hnd1 _ Hp). by left.
    - intros ->. apply (Hnd1 _ Hp). right. by left.
    - intros ->. apply Hn1. by right.
    - by intros ->. }
  { intros st. rewrite Hr1, Hr2. by eapply scan_created. }
  destruct (rm_listing _ _ _ _ _ _ _ _ _ _ Hr) as (r0 & r2 & L0 & L2 & E02).
  rewrite Esl, Lr in L2. injection L2 as <-.
  assert (is_chain b d4 dc (l ++ new)) as Hc4'.
  { eapply is_chain_frame; [apply (rm_chain _ _ _ _ _ _ _ _ _ _ Hr)|]. intros x Hx. pose proof (g_fats _ _ Hg).
    apply fatk_frame; [done|lia|eapply cluster_in_table; [done|by apply Hl2]|].
    intros s Hs. destruct (Hps p1 Hp1), (Hps p2 Hp2). apply Hs4; lia. }
  exists E1, E2. constructor.
  - by rewrite Hc4, (rm_count _ _ _ _ _ _ _ _ _ _ Hr).
  - done.
  - apply (rm_free _ _ _ _ _ _ _ _ _ _ Hr).
  - intros x Hx Hxl Hxn. rewrite <-(rm_fat _ _ _ _ _ _ _ _ _ _ Hr x) by done. pose proof (g_fats _ _ Hg).
    apply fatk_frame; [done|lia|done|]. intros s Hs. destruct (Hps p1 Hp1), (Hps p2 Hp2). apply Hs4; lia.
  - intros s Hs Hns. rewrite Hs4.
    + apply (rm_sec _ _ _ _ _ _ _ _ _ _ Hr); [done|]. intros Hin. apply Hns.
      rewrite fsecs_app. apply elem_of_app. by right.
    + pose proof (g_reserved _ _ Hg). pose proof (g_spf _ _ Hg). pose proof (g_fats _ _ Hg).
      unfold data_start_sector in Hs. nia.
    + intros ->. by apply Hns, Hps.
    + intros ->. by apply Hns, Hps.
  - done.
  - destruct (build_sfn_Some name sfn Hb) as (_ & _ & _ & H11 & _).
    destruct (sfn_entry_spec sfn attr c ticks H11 Hu) as (e & E & Hl32 & _ & _ & _ & G28 & _).
    rewrite He2 in E. injection E as <-. rewrite le_at_Done in G28 by lia. injection G28 as G28.
    rewrite <-G28, <-Hr2. unfold size_field, raw. pose proof Hp2 as (Hin & Ho & _)%elem_of_dslots.
    destruct (fsecs_range b d4 _ _ Hg4 Hl2 Hin) as [_ Hrg]. pose proof (zlen_sec d4 _ Hrg).
    rewrite zslice_zslice by lia. done.
  - rewrite (read_dir_listing b d dc l r0 Hg Hc L0). by rewrite E02, Er.
  - rewrite (read_dir_listing b d4 dc (l ++ new) r' Hg4 Hc4'); [by rewrite Er'|by rewrite Esl].
Qed.

Lemma create_dir_entry_spec b d dc l name sfn attr c ticks :
  geo_ok b d → dir_ok b d dc l → ascii_name name → build_sfn name = Some sfn → is_uint 32 c →
  attr = ATTR_ARCHIVE ∨ attr = ATTR_DIRECTORY → (∃ x, cluster_ok b x ∧ fat b d x = FAT32_FREE) →
  ∃ new p1 p2 E1 E2 d4, create_dir_entry b dc name attr c ticks (Some d) = Done (Some p2, Some d4) ∧
    inserted b d dc l name attr c new p1 p2 E1 E2 d4.
Proof.
  intros Hg Hdo Ha Hb Hu Hattr Hfree. unfold create_dir_entry. rewrite Hb, (name_utf16_ascii name Ha).
  destruct (build_sfn_Some name sfn Hb) as (Hl & _ & _ & H11 & _).
  replace ((zlen name + 12) `div` 13) with 1 by (Z.to_euclidean_division_equations; lia).
  destruct (find_free_dir_slots_spec b d dc l Hg Hdo Hfree) as (new & d2 & P1 & p1 & p2 & P2 & E & Hr).
  cbv zeta. change (1 + 1) with 2. rewrite E. cbn [mbind outcome_bind].
  pose proof (geo_count _ _ _ Hg (rm_count _ _ _ _ _ _ _ _ _ _ Hr)) as Hg2.
  pose proof (is_chain_clusters _ _ _ _ Hg2 (rm_chain _ _ _ _ _ _ _ _ _ _ Hr)) as Hl2.
  pose proof (dslots_NoDup b d (l ++ new) Hg Hl2) as Hnd. pose proof (rm_slots _ _ _ _ _ _ _ _ _ _ Hr) as Esl.
  assert (p1 ∈ dslots b (l ++ new) ∧ p2 ∈ dslots b (l ++ new)) as [Hp1 Hp2] by (rewrite Esl; set_solver).
  assert (p1 ≠ p2) as Hne.
  { rewrite Esl in Hnd. apply NoDup_app in Hnd as (_ & _ & Hnd). apply NoDup_cons in Hnd as [Hnd _]. set_solver. }
  destruct (pad_lfn_spec name Ha Hl) as (_ & Hp13 & Hpu).
  destruct (lfn_entry_spec 0x41 (sfn_checksum sfn) (pad_lfn name) Hp13 Hpu) as (e1 & He1 & Hl1 & _).
  destruct (sfn_entry_spec sfn attr c ticks H11 Hu) as (e2 & He2 & Hle2 & _).
  destruct (write_slot_spec b d2 (l ++ new) p1 e1 Hg2 Hl2 Hp1 Hl1) as (d3 & W3 & Hc3 & Hs3 & Hr3 & Hq3).
  pose proof (geo_count _ _ _ Hg2 Hc3) as Hg3.
  destruct (write_slot_spec b d3 (l ++ new) p2 e2 Hg3 Hl2 Hp2 Hle2) as (d4 & W4 & Hc4 & Hs4 & Hr4 & Hq4).
  assert (for_each (reverse (seqZ 0 1)) (write_lfn (pad_lfn name) (sfn_checksum sfn) 1) (p1, Some d2) =
    Done (p2, Some d3)) as ->.
  { change (reverse (seqZ 0 1)) with [0]. cbn [for_each]. unfold write_lfn.
    change (0 =? 1 - 1) with true. change (Z.lor (wrap 8 (wrap 8 0 + 1)) 0x40) with 0x41. cbv iota zeta.
    change (0 * 13) with 0. change ((0 + 1) * 13) with 13. rewrite slice_Done by lia. cbn [mbind outcome_bind].
    rewrite <-Hp13 at 1. rewrite zslice_full, He1. cbn [mbind outcome_bind]. rewrite W3. cbn [mbind outcome_bind].
    by rewrite (rm_next _ _ _ _ _ _ _ _ _ _ Hr). }
  cbn [mbind outcome_bind]. rewrite He2. cbn [mbind outcome_bind]. rewrite W4. cbn [mbind outcome_bind].
  destruct (inserted_intro b d d2 d3 d4 dc l new P1 p1 p2 P2 name sfn attr c ticks e1 e2) as (E1 & E2 & Hin);
    try done.
  - apply (do_chain _ _ _ _ Hdo).
  - by rewrite Hc4.
  - intros s Hs H1 H2. rewrite Hs4, Hs3 by done. done.
  - rewrite Hq4 by done. done.
  - intros q Hq H1 H2. rewrite Hq4, Hq3 by done. done.
  - exists new, p1, p2, E1, E2, d4. done.
Qed.

Lemma no_run_ext (f g : Z * Z → Prop) ps : (∀ p, p ∈ ps → f p ↔ g p) → no_run f ps → no_run g ps.
Proof.
  induction ps as [|x ps IH]; intros Hfg; [done|]. destruct ps as [|y ps]; [done|].
  intros [Hn Hr]. split; [|apply IH; set_solver]. rewrite <-!Hfg by set_solver. done.
Qed.

Lemma dir_ok_frame b d d1 dc l :
  dir_ok b d dc l → is_chain b d1 dc l → (∀ p, p ∈ dslots b l → raw d1 p = raw d p) → dir_ok b d1 dc l.
Proof.
  intros Hdo Hc Hr. constructor; [done| |apply (do_contig _ _ _ _ Hdo)|].
  - intros P p Q E Hz q Hq. rewrite Hr by (rewrite E; set_solver).
    eapply (do_zeros _ _ _ _ Hdo); [done| |done]. rewrite <-Hr; [done|rewrite E; set_solver].
  - intros Hn p Hp. rewrite Hr by done. apply (do_no_gap _ _ _ _ Hdo); [|done].
    eapply no_run_ext; [|done]. intros q Hq. unfold free_in. by rewrite Hr.
Qed.

(** Marking a free cluster leaves a directory as it is. *)
Lemma dir_ok_alloc b d d1 dc l c v :
  geo_ok b d → dir_ok b d dc l → fat b d c = FAT32_FREE → fat_set b c v d d1 →
  dir_ok b d1 dc l ∧ read_dir_entries b dc (Some d1) = read_dir_entries b dc (Some d).
Proof.
  intros Hg Hdo Hf Hs. pose proof (do_chain _ _ _ _ Hdo) as Hc.
  pose proof (is_chain_clusters _ _ _ _ Hg Hc) as Hl.
  pose proof (geo_count _ _ _ Hg (fs_count _ _ _ _ _ Hs)) as Hg1.
  assert (is_chain b d1 dc l) as Hc1.
  { eapply is_chain_frame; [done|]. intros x Hx. rewrite (fat_set_fat b c v d d1 x Hg Hs).
    - rewrite decide_False; [done|]. intros ->. by destruct (is_chain_ok _ _ _ _ _ Hc Hx).
    - eapply cluster_in_table; [done|by apply Hl]. }
  assert (∀ p, p ∈ dslots b l → raw d1 p = raw d p) as Hr.
  { intros p (Hp & _)%elem_of_dslots. apply raw_frame. destruct (fsecs_range b d l _ Hg Hl Hp).
    apply (fs_other _ _ _ _ _ Hs); lia. }
  split; [by eapply dir_ok_frame|].
  destruct (listing_total (raw d) (dslots b l) (mkScan [] [] None)) as (r & Er & _);
    [intros p Hp; by apply (zlen_raw b d l)|].
  rewrite (read_dir_listing b d dc l r), (read_dir_listing b d1 dc l r); try done.
  by rewrite (listing_frame (raw d) (raw d1)).
Qed.

(** The new file, and the files the creation must not touch. *)
Section after_create.
Context b d d1 d4 (dc : Z) (l : list Z) (name : str) (attr c : Z) (new : list Z) (p1 p2 : Z * Z).
Context (E1 E2 : list DirEntry).
Hypothesis Hg : geo_ok b d.
Hypothesis Hc : cluster_ok b c.
Hypothesis Hcf : fat b d c = FAT32_FREE.
Hypothesis Hs1 : fat_set b c FAT32_EOC d d1.
Hypothesis Hdc : is_chain b d dc l.
Hypothesis Hin : inserted b d1 dc l name attr c new p1 p2 E1 E2 d4.

Lemma create_fat x : cluster_ok b x → x ≠ c → fat b d1 x = fat b d x.
Proof.
  intros Hx Hxc. rewrite (fat_set_fat b c FAT32_EOC d d1 x Hg Hs1) by (by eapply cluster_in_table).
  by rewrite decide_False.
Qed.

Lemma create_new_file : is_chain b d4 c [c] ∧ elsewhere b d4 [c] p2.1 ∧ 0 ≤ p2.2 ≤ 480.
Proof.
  pose proof (geo_count _ _ _ Hg (fs_count _ _ _ _ _ Hs1)) as Hg1.
  pose proof (geo_count _ _ _ Hg1 (in_count _ _ _ _ _ _ _ _ _ _ _ _ _ Hin)) as Hg4.
  pose proof (in_chain _ _ _ _ _ _ _ _ _ _ _ _ _ Hin) as Hch.
  pose proof (is_chain_clusters _ _ _ _ Hg4 Hch) as [_ Hok4].
  assert (in_table b c) as Ht by (by eapply cluster_in_table).
  assert (fat b d1 c = FAT32_EOC) as Hc1.
  { rewrite (fat_set_fat b c FAT32_EOC d d1 c Hg Hs1 Ht). by rewrite decide_True. }
  assert (c ∉ l) as Hcl by (intros Hx; by destruct (is_chain_ok _ _ _ _ _ Hdc Hx)).
  assert (c ∉ new) as Hcn.
  { intros Hx. destruct (in_free _ _ _ _ _ _ _ _ _ _ _ _ _ Hin c Hx) as [_ E]. by rewrite Hc1 in E. }
  split; [|pose proof (in_slot _ _ _ _ _ _ _ _ _ _ _ _ _ Hin) as (Hp & Ho & _)%elem_of_dslots; split; [|done]].
  - constructor; [done|]. rewrite (in_fat _ _ _ _ _ _ _ _ _ _ _ _ _ Hin), Hc1 by done. done.
  - apply elem_of_fsecs in Hp as (x & Hx & Hpx). exists x. split; [by apply Hok4|]. split; [done|].
    split; [|by eapply is_chain_ok]. intros ->%list_elem_of_singleton. set_solver.
Qed.

Lemma create_keeps c2 l2 :
  is_chain b d c2 l2 → (∀ x, x ∈ l2 → x ∉ l) → is_chain b d4 c2 l2 ∧ ct b d4 l2 = ct b d l2.
Proof.
  intros Hc2 Hdisj. pose proof (geo_count _ _ _ Hg (fs_count _ _ _ _ _ Hs1)) as Hg1.
  pose proof (geo_count _ _ _ Hg1 (in_count _ _ _ _ _ _ _ _ _ _ _ _ _ Hin)) as Hg4.
  pose proof (is_chain_clusters _ _ _ _ Hg4 (in_chain _ _ _ _ _ _ _ _ _ _ _ _ _ Hin)) as [_ Hok4].
  pose proof (is_chain_clusters _ _ _ _ Hg Hc2) as Hl2.
  assert (∀ x, x ∈ l2 → x ≠ c ∧ x ∉ l ++ new ∧ fat b d1 x = fat b d x) as Hx2.
  { intros x Hx. destruct (is_chain_ok _ _ _ _ _ Hc2 Hx) as [Hxok Hxf].
    assert (x ≠ c) by (by intros ->). assert (fat b d1 x = fat b d x) as E by (by apply create_fat).
    split; [done|]. split; [|done]. intros [Hl|Hn]%elem_of_app; [by apply (Hdisj x)|].
    destruct (in_free _ _ _ _ _ _ _ _ _ _ _ _ _ Hin x Hn) as [_ E']. congruence. }
  split.
  - eapply is_chain_frame; [done|]. intros x Hx. destruct (Hx2 x Hx) as (? & Hn & <-).
    apply (in_fat _ _ _ _ _ _ _ _ _ _ _ _ _ Hin); [eapply cluster_in_table; [done|by apply Hl2]|set_solver..].
  - apply ct_frame; [done..|]. intros s Hs. destruct (fsecs_range b d l2 s Hg Hl2 Hs).
    rewrite (in_sec _ _ _ _ _ _ _ _ _ _ _ _ _ Hin), (fs_other _ _ _ _ _ Hs1); [done|lia|lia|lia|].
    intros (x & Hx & Hsx)%elem_of_fsecs. apply elem_of_fsecs in Hs as (y & Hy & Hsy).
    assert (x = y) as <- by (eapply (csecs_inj b d x y s); [done|by apply Hok4|by apply Hl2|done|done]).
    by apply (Hx2 x Hy).
Qed.
End after_create.

Lemma another_free b d c :
  2 ≤ zlen (free_clusters b d) → ∃ x, cluster_ok b x ∧ fat b d x = FAT32_FREE ∧ x ≠ c.
Proof.
  intros Hl. assert (NoDup (free_clusters b d)) as Hnd by apply NoDup_filter, NoDup_seqZ.
  assert (∀ x, x ∈ free_clusters b d → cluster_ok b x ∧ fat b d x = FAT32_FREE) as Hin.
  { intros x [Hf Hx%elem_of_seqZ]%list_elem_of_filter. split; [split; lia|done]. }
  destruct (free_clusters b d) as [|x [|y ?]]; [unfold zlen in Hl; simpl in Hl; lia..|].
  apply NoDup_cons in Hnd as [Hxy _].
  destruct (decide (x = c)) as [->|]; [exists y|exists x]; (split; [apply Hin; set_solver|split; [apply Hin; set_solver|set_solver]]).
Qed.
End find.

Lemma find_insert {A} (f : A → bool) l1 x l2 :
  List.find f (l1 ++ l2) = None → f x = true → List.find f (l1 ++ x :: l2) = Some x.
Proof.
  induction l1 as [|y l1 IH]; simpl; [by intros _ ->|]. destruct (f y); [done|]. apply IH.
Qed.

Lemma find_insert_other {A} (f : A → bool) l1 x l2 :
  f x = false → List.find f (l1 ++ x :: l2) = List.find f (l1 ++ l2).
Proof. intros Hx. induction l1 as [|y l1 IH]; simpl; [by rewrite Hx|]. by rewrite IH. Qed.

(** C18: creating a file in a FAT32 directory.  The directory's clusters are adjacent
    on the disk, everything behind its end marker is zero, and when it has no two
    adjacent free slots it has no end marker either ([dir_ok]); the name is ASCII,
    has an 8.3 form, and is not in the directory; two clusters are free.  Then the
    call succeeds: the directory lists exactly what it listed before and the new
    entry, the name resolves to the new file, all other names resolve as before, the
    new file is an empty open file with a cluster of its own, and no other file is
    touched.  With one free slot left, the end marker, the file is created but not
    found (Fat32Sample: [fat_create_behind_marker]). *)
Theorem fat_create_lookup {D} `{Disk D} (f : fatfs D) b d dc l name sfn :
  mounted_on f b d → dir_ok b d dc l → ascii_name name → build_sfn name = Some sfn →
  2 ≤ zlen (free_clusters b d) → find_entry_in_dir b dc name (Some d) = Done None →
  ∃ f' d' c sz es eo E1 e E2,
    inode_create_file (FatDirINode dc) name f = Done (Ok (FatFileINode c sz es eo), f') ∧
    mounted_on f' b d' ∧ open_file b d' f' c [c] sz es eo ∧ size_of sz f' = 0 ∧ fat b d c = FAT32_FREE ∧
    read_dir_entries b dc (Some d) = Done (E1 ++ E2) ∧
    read_dir_entries b dc (Some d') = Done (E1 ++ e :: E2) ∧
    de_fname e = name ∧ de_first_cluster e = c ∧ de_size e = 0 ∧
    find_entry_in_dir b dc name (Some d') = Done (Some e) ∧
    (∃ f'' sz', inode_lookup (FatDirINode dc) name f' = Done (Some (FatFileINode c sz' es eo), f'')) ∧
    (∀ name2, eq_ignore_case name name2 = false →
       find_entry_in_dir b dc name2 (Some d') = find_entry_in_dir b dc name2 (Some d)) ∧
    (∀ c2 l2, is_chain b d c2 l2 → (∀ x, x ∈ l2 → x ∉ l) → is_chain b d' c2 l2 ∧ ct b d' l2 = ct b d l2).
Proof.
  intros (Eb & Ed & Hg) Hdo Ha Hb Hfree Hnone.
  destruct (fat_alloc_cluster_spec b d Hg) as ([c|] & d1 & Ealloc & Hal).
  2:{ destruct Hal as [_ Hal]. destruct (another_free b d 0 Hfree) as (x & Hx & Hxf & _). by destruct (Hal x Hx). }
  destruct Hal as (Hc & Hcf & _ & Hs1). pose proof (geo_count _ _ _ Hg (fs_count _ _ _ _ _ Hs1)) as Hg1.
  destruct (dir_ok_alloc b d d1 dc l c FAT32_EOC Hg Hdo Hcf Hs1) as [Hdo1 Eread].
  pose proof (do_chain _ _ _ _ Hdo) as Hdc.
  assert (is_uint 32 c) as Hu by (destruct Hc; pose proof (g_eoc _ _ Hg); unfold is_uint, FAT32_EOC in *; lia).
  destruct (create_dir_entry_spec b d1 dc l name sfn ATTR_ARCHIVE c (ff_ticks f) Hg1 Hdo1 Ha Hb Hu) as
    (new & p1 & p2 & E1 & E2 & d4 & Ecreate & Hin); [by left| |].
  { destruct (another_free b d c Hfree) as (x & Hx & Hxf & Hxc). exists x. split; [done|].
    by rewrite (create_fat b d d1 c Hg Hs1 x Hx Hxc). }
  pose proof (create_new_file b d d1 d4 dc l name ATTR_ARCHIVE c new p1 p2 E1 E2 Hg Hc Hcf Hs1 Hdc Hin) as (Hch & Hel & Heo).
  pose proof (geo_count _ _ _ Hg1 (in_count _ _ _ _ _ _ _ _ _ _ _ _ _ Hin)) as Hg4.
  pose proof (in_old _ _ _ _ _ _ _ _ _ _ _ _ _ Hin) as Hold. rewrite Eread in Hold.
  pose proof (in_new _ _ _ _ _ _ _ _ _ _ _ _ _ Hin) as Hnew.
  set (e := created name ATTR_ARCHIVE c p1 p2) in *.
  set (sz := fresh (dom (ff_sizes f))). set (f' := set_size sz 0 (set_fdev (Some d4) f)).
  assert (size_of sz f' = 0) as Hsz by (unfold size_of, f'; simpl; by rewrite lookup_insert_eq).
  assert (find_entry_in_dir b dc name (Some d4) = Done (Some e)) as Hfind.
  { revert Hnone. unfold find_entry_in_dir. rewrite Hold, Hnew. cbn [mbind outcome_bind]. intros [= Hn].
    f_equal. apply find_insert; [done|]. by apply bool_decide_eq_true_2. }
  exists f', d4, c, sz, p2.1, p2.2, E1, e, E2. split.
  { simpl. unfold fat_dir_create_file. rewrite Eb, Ed, Hnone. cbn [mbind outcome_bind].
    rewrite Ealloc. cbn [mbind outcome_bind]. rewrite Ecreate. cbn [mbind outcome_bind]. by destruct p2. }
  split; [done|]. split.
  { constructor; [done|done|done|rewrite Hsz; pose proof (zlen_nonneg (ct b d4 [c])); lia|].
    rewrite Hsz. apply (in_size _ _ _ _ _ _ _ _ _ _ _ _ _ Hin). }
  do 8 (split; [done|]). split.
  { simpl. unfold fat_dir_lookup. change (ff_bpb f') with (ff_bpb f). change (ff_dev f') with (Some d4).
    rewrite Eb, Hfind. cbn [mbind outcome_bind]. change (is_dir e) with false. cbv iota. by eexists _, _. }
  split; [|intros c2 l2; by eapply create_keeps].
  intros name2 Hne. unfold find_entry_in_dir. rewrite Hold, Hnew. cbn [mbind outcome_bind]. f_equal.
  by apply find_insert_other.
Qed.
