(* ===== verification/Fat32Sample.v ===== *)
(** * A small FAT32 volume

    The in-memory disk of 64 sectors with one sector per cluster: boot sector,
    two copies of the table in sectors 1 and 2, clusters from sector 3 on; the
    root directory is cluster 2, empty; cluster 3 is an empty file.  The
    theorems on FAT32 are applied to it, and three flaws of the driver are shown
    on variants of it. *)

From S2P Require Import Prelude BlockDev Vfs Fat32 Fat32Table Fat32File Fat32Dir.

Definition fat_bpb : Bpb := mkBpb 512 1 1 2 64 1 2.

Definition boot_sector : list Z :=
  zrep 11 0 ++ to_le 2 512 ++ [1] ++ to_le 2 1 ++ [2] ++ zrep 2 0 ++ to_le 2 64 ++ [0] ++ to_le 2 1 ++
  zrep 20 0 ++ to_le 4 2 ++ zrep 34 0 ++ FAT32_SIGNATURE ++ zrep 420 0 ++ [0x55; 0xAA].

Definition table_sector : list Z :=
  to_le 4 0x0FFFFFF8 ++ to_le 4 0x0FFFFFFF ++ to_le 4 0x0FFFFFFF ++ to_le 4 0x0FFFFFFF ++ zrep 496 0.

Definition fat_disk : memdisk :=
  <[0 := boot_sector]> (<[1 := table_sector]> (<[2 := table_sector]> ∅)).

Definition fat_sample : fatfs memdisk := mkFatfs (Some fat_disk) (Some fat_bpb) {[ 0%nat := 0 ]} 0.

Lemma fat_sample_mounts :
  fat32_probe fat_disk = Done true ∧
  fat32_mount fat_disk (mkFatfs (Some fat_disk) None {[ 0%nat := 0 ]} 0) = Done (Some (FatDirINode 2), fat_sample).
Proof. split; vm_compute; reflexivity. Qed.

Lemma sec_md (d : memdisk) s : 0 ≤ s < 64 → sec d s = md_sector d s.
Proof.
  intros Hs. unfold sec. pose proof (disk_read d s (zrep 512 0) Hs ltac:(by apply zlen_zrep)) as E.
  simpl in E. rewrite (proj2 (Z.ltb_lt _ _)) in E by (unfold memdisk_sectors; lia). symmetry. injection E as E. exact E.
Qed.

Lemma fat_sample_geo : geo_ok fat_bpb fat_disk.
Proof. constructor; vm_compute; try done; split; congruence. Qed.

Lemma fat_sample_fat c : 0 ≤ c < 128 → fat fat_bpb fat_disk c = entry_at c table_sector.
Proof.
  intros Hc. unfold fat, fatk, entry_sector. simpl reserved_sectors. simpl sectors_per_fat. unfold SECTOR_SIZE.
  replace (1 + 0 * 1 + (c * 4) `div` 512) with 1 by (Z.to_euclidean_division_equations; lia).
  rewrite sec_md by lia. f_equal.
Qed.

Lemma fat_sample_mounted : mounted_on fat_sample fat_bpb fat_disk.
Proof. split; [done|]. split; [done|]. apply fat_sample_geo. Qed.

Lemma fat_sample_chain c : c = 2 ∨ c = 3 → is_chain fat_bpb fat_disk c [c].
Proof.
  intros Hc. constructor; [split; destruct Hc as [-> | ->]; vm_compute; congruence|].
  rewrite fat_sample_fat by lia. destruct Hc as [-> | ->]; vm_compute; congruence.
Qed.

Lemma fat_sample_open : open_file fat_bpb fat_disk fat_sample 3 [3] 0%nat 3 32.
Proof.
  constructor.
  - apply fat_sample_chain. lia.
  - exists 2. split; [split; vm_compute; congruence|]. split; [apply elem_of_seqZ; vm_compute; split; congruence|].
    split; [by intros [=]%list_elem_of_singleton|]. rewrite fat_sample_fat by lia. vm_compute. congruence.
  - lia.
  - change (size_of 0%nat fat_sample) with 0. split; [lia|]. apply zlen_nonneg.
  - unfold size_field. rewrite sec_md by lia. vm_compute. reflexivity.
Qed.

(** Neighbours in a list of slots that follow each other on the disk. *)
Fixpoint adjacent (ps : list (Z * Z)) : bool :=
  match ps with
  | p :: (q :: _) as t => bool_decide (advance_dir_slot p = q) && adjacent t
  | _ => true
  end.

Lemma adjacent_spec ps P p q Q : adjacent ps = true → ps = P ++ p :: q :: Q → advance_dir_slot p = q.
Proof.
  intros Ha ->. induction P as [|x P IH]; cbn [app adjacent] in Ha.
  - apply andb_prop in Ha as [Ha _]. by apply bool_decide_eq_true in Ha.
  - apply IH. destruct P; simpl in *; by apply andb_prop in Ha as [_ Ha].
Qed.

Lemma fat_sample_dir : dir_ok fat_bpb fat_disk 2 [2].
Proof.
  assert (∀ p, p ∈ dslots fat_bpb [2] → first_byte (raw fat_disk p) = 0) as Hz.
  { intros p (Hp & Ho & _)%elem_of_dslots.
    assert (fsecs fat_bpb [2] = [3]) as E by (vm_compute; reflexivity).
    rewrite E in Hp. apply list_elem_of_singleton in Hp. unfold raw, first_byte. rewrite Hp, sec_md by lia.
    assert (md_sector fat_disk 3 = zrep 512 0) as -> by (vm_compute; reflexivity).
    rewrite zget_zslice, zget_zrep by lia. done. }
  constructor.
  - apply fat_sample_chain. lia.
  - intros P p Q E _ q Hq. apply Hz. rewrite E. set_solver.
  - intros P p q Q. apply adjacent_spec. vm_compute. reflexivity.
  - intros Hn. assert (dslots fat_bpb [2] = [] ++ (3, 0) :: (3, 32) :: drop 2 (dslots fat_bpb [2])) as E
      by (vm_compute; reflexivity).
    rewrite E in Hn. destruct (no_run_app _ _ _ _ _ Hn). split; left; apply Hz; rewrite E; set_solver.
Qed.

Lemma fat_write_read_witness :
  ∃ f' d' new,
    inode_write (FatFileINode 3 0%nat 3 32) 3 [7; 8; 9] fat_sample = Done (3, f') ∧ mounted_on f' fat_bpb d' ∧
    size_of 0%nat f' = 6 ∧ is_chain fat_bpb d' 3 ([3] ++ new).
Proof.
  destruct (fat_write_read fat_sample fat_bpb fat_disk 3 [3] 0%nat 3 32 3 [7; 8; 9]) as
    (f' & d' & new & Hw & Hm & Ho & Hs & _);
    [apply fat_sample_mounted|apply fat_sample_open|done|lia|vm_compute; reflexivity| |].
  - pose proof (zlen_nonneg (free_clusters fat_bpb fat_disk)).
    change (clusters_for fat_bpb (3 + zlen [7; 8; 9])) with 1. change (zlen [3]) with 1. lia.
  - exists f', d', new. split; [exact Hw|]. split; [exact Hm|]. split; [exact Hs|]. by apply of_chain in Ho.
Defined.

(** ["Ab.txt"]. *)
Definition sample_name : str := [65; 98; 46; 116; 120; 116].

Lemma fat_sample_free : 2 ≤ zlen (free_clusters fat_bpb fat_disk).
Proof.
  assert ([4; 5] ⊆+ free_clusters fat_bpb fat_disk) as Hs.
  { apply NoDup_submseteq; [apply NoDup_cons; split; [set_solver|apply NoDup_singleton]|].
    intros x Hx. apply list_elem_of_filter. rewrite elem_of_seqZ. change (ncl fat_bpb) with 63.
    assert (x = 4 ∨ x = 5) as Hx' by set_solver. split; [|lia]. rewrite fat_sample_fat by lia.
    destruct Hx' as [-> | ->]; vm_compute; reflexivity. }
  apply submseteq_length in Hs. unfold zlen. simpl in Hs. lia.
Qed.

Lemma fat_create_lookup_witness :
  ∃ f' d' c sz es eo,
    inode_create_file (FatDirINode 2) sample_name fat_sample = Done (Ok (FatFileINode c sz es eo), f') ∧
    mounted_on f' fat_bpb d' ∧ open_file fat_bpb d' f' c [c] sz es eo.
Proof.
  destruct (fat_create_lookup fat_sample fat_bpb fat_disk 2 [2] sample_name [65; 66; 32; 32; 32; 32; 32; 32; 84; 88; 84])
    as (f' & d' & c & sz & es & eo & E1 & e & E2 & Hc & Hm & Ho & _);
    [apply fat_sample_mounted|apply fat_sample_dir|repeat constructor|vm_compute; reflexivity|
     apply fat_sample_free|vm_compute; reflexivity|].
  exists f', d', c, sz, es, eo. exact (conj Hc (conj Hm Ho)).
Defined.

(* ------------------------------------------------------------------ *)
(** ** Two flaws *)

(** A root directory with fifteen slots in use and the end marker in the last. *)
Definition used_slot : list Z := 65 :: zrep 10 SPACE ++ [ATTR_ARCHIVE] ++ zrep 20 0.
Definition gap_sample : fatfs memdisk :=
  mkFatfs (Some (<[3 := concat (replicate 15 used_slot) ++ zrep 32 0]> fat_disk)) (Some fat_bpb) ∅ 0.

Definition created_then_found (f : fatfs memdisk) : outcome (bool * bool) :=
  '(r, f) ← inode_create_file (FatDirINode 2) sample_name f;
  '(n, _) ← inode_lookup (FatDirINode 2) sample_name f;
  Done (match r with Ok _ => true | Err _ => false end, match n with Some _ => true | None => false end).

(** The two slots of the name do not fit, so they go to a new cluster, behind
    the end marker: the file is created but never found. *)
Example fat_create_behind_marker :
  created_then_found gap_sample = Done (true, false) ∧ created_then_found fat_sample = Done (true, true).
Proof. split; vm_compute; reflexivity. Qed.

(** The size recorded in the directory entry at offset 32 of sector 3. *)
Definition recorded_size (f : fatfs memdisk) : outcome Z :=
  le_at 4 (read_sector 3 (zrep 512 0) (ff_dev f)) 60.

(** Two nodes of one file have a size each: the second writer, whose size is
    still 0, records the end of its own write and cuts off the first one's. *)
Example fat_stale_size :
  ('(_, f) ← inode_write (FatFileINode 3 0%nat 3 32) 0 (zrep 10 1) (set_size 1%nat 0 fat_sample);
   s1 ← recorded_size f;
   '(_, f) ← inode_write (FatFileINode 3 1%nat 3 32) 0 (zrep 2 1) f;
   s2 ← recorded_size f;
   Done (s1, s2)) = Done (10, 2).
Proof. vm_compute. reflexivity. Qed.

(** A file whose first cluster is 0, as other systems leave an empty one: the write
    reports its byte and a size of 1, but the clusters it allocated hang on nothing,
    and a read returns no byte. *)
Example fat_first_cluster_zero :
  ('(n, f) ← inode_write (FatFileINode 0 0%nat 3 32) 0 [7] fat_sample;
   '(m, buf, _) ← inode_read (FatFileINode 0 0%nat 3 32) 0 [9] f;
   Done (n, size_of 0%nat f, m, buf)) = Done (1, 1, 0, [9]).
Proof. vm_compute. reflexivity. Qed.
