(* ===== verification/Console.v ===== *)
(** * The framebuffer consoles (graphics/src/console/mod.rs, graphics/src/lib.rs)

    Two text consoles draw an 8x16 bitmap font into the framebuffer: [Tty], the
    one the kernel prints to, and [FramebufferConsole].  The framebuffer is the
    list of the bytes behind its base pointer; the code writes it through raw
    pointers, so an access outside of the list is undefined behaviour, a panic
    here.

    [Tty] refines a terminal of character cells: after any text of printable
    characters, newlines and backspaces every cell of the screen shows the
    glyph of the cell's character. *)

From S2P Require Import Prelude Vfs.

(* ------------------------------------------------------------------ *)
(** ** The font *)

(** The 128 glyphs of font8x16.bin, 16 rows of 8 pixels each. *)
Definition FONT_8X16 : list Z :=
  [0; 0; 0; 0; 0; 0; 0; 0; 0; 0; 0; 0; 0; 0; 0; 0;
   0; 0; 0; 0; 0; 0; 0; 0; 0; 0; 0; 0; 0; 0; 0; 0;
   0; 0; 0; 0; 0; 0; 0; 0; 0; 0; 0; 0; 0; 0; 0; 0;
   0; 0; 0; 0; 0; 0; 0; 0; 0; 0; 0; 0; 0; 0; 0; 0;
   0; 0; 0; 0; 0; 0; 0; 0; 0; 0; 0; 0; 0; 0; 0; 0;
   0; 0; 0; 0; 0; 0; 0; 0; 0; 0; 0; 0; 0; 0; 0; 0;
   0; 0; 0; 0; 0; 0; 0; 0; 0; 0; 0; 0; 0; 0; 0; 0;
   0; 0; 0; 0; 0; 0; 0; 0; 0; 0; 0; 0; 0; 0; 0; 0;
   0; 0; 0; 0; 0; 0; 0; 0; 0; 0; 0; 0; 0; 0; 0; 0;
   0; 0; 0; 0; 0; 0; 0; 0; 0; 0; 0; 0; 0; 0; 0; 0;
   0; 0; 0; 0; 0; 0; 0; 0; 0; 0; 0; 0; 0; 0; 0; 0;
   0; 0; 0; 0; 0; 0; 0; 0; 0; 0; 0; 0; 0; 0; 0; 0;
   0; 0; 0; 0; 0; 0; 0; 0; 0; 0; 0; 0; 0; 0; 0; 0;
   0; 0; 0; 0; 0; 0; 0; 0; 0; 0; 0; 0; 0; 0; 0; 0;
   0; 0; 0; 0; 0; 0; 0; 0; 0; 0; 0; 0; 0; 0; 0; 0;
   0; 0; 0; 0; 0; 0; 0; 0; 0; 0; 0; 0; 0; 0; 0; 0;
   0; 0; 0; 0; 0; 0; 0; 0; 0; 0; 0; 0; 0; 0; 0; 0;
   0; 0; 0; 0; 0; 0; 0; 0; 0; 0; 0; 0; 0; 0; 0; 0;
   0; 0; 0; 0; 0; 0; 0; 0; 0; 0; 0; 0; 0; 0; 0; 0;
   0; 0; 0; 0; 0; 0; 0; 0; 0; 0; 0; 0; 0; 0; 0; 0;
   0; 0; 0; 0; 0; 0; 0; 0; 0; 0; 0; 0; 0; 0; 0; 0;
   0; 0; 0; 0; 0; 0; 0; 0; 0; 0; 0; 0; 0; 0; 0; 0;
   0; 0; 0; 0; 0; 0; 0; 0; 0; 0; 0; 0; 0; 0; 0; 0;
   0; 0; 0; 0; 0; 0; 0; 0; 0; 0; 0; 0; 0; 0; 0; 0;
   0; 0; 0; 0; 0; 0; 0; 0; 0; 0; 0; 0; 0; 0; 0; 0;
   0; 0; 0; 0; 0; 0; 0; 0; 0; 0; 0; 0; 0; 0; 0; 0;
   0; 0; 0; 0; 0; 0; 0; 0; 0; 0; 0; 0; 0; 0; 0; 0;
   0; 0; 0; 0; 0; 0; 0; 0; 0; 0; 0; 0; 0; 0; 0; 0;
   0; 0; 0; 0; 0; 0; 0; 0; 0; 0; 0; 0; 0; 0; 0; 0;
   0; 0; 0; 0; 0; 0; 0; 0; 0; 0; 0; 0; 0; 0; 0; 0;
   0; 0; 0; 0; 0; 0; 0; 0; 0; 0; 0; 0; 0; 0; 0; 0;
   0; 0; 0; 0; 0; 0; 0; 0; 0; 0; 0; 0; 0; 0; 0; 0;
   0; 0; 0; 0; 0; 0; 0; 0; 0; 0; 0; 0; 0; 0; 0; 0;
   0; 0; 0; 24; 24; 24; 24; 24; 24; 0; 0; 24; 24; 0; 0; 0;
   0; 0; 0; 20; 20; 20; 0; 0; 0; 0; 0; 0; 0; 0; 0; 0;
   0; 0; 0; 36; 36; 255; 36; 36; 36; 36; 255; 36; 36; 0; 0; 0;
   0; 0; 0; 24; 126; 153; 152; 126; 25; 153; 126; 24; 24; 0; 0; 0;
   0; 0; 0; 97; 146; 100; 4; 8; 16; 16; 38; 73; 134; 0; 0; 0;
   0; 0; 0; 56; 68; 68; 60; 80; 136; 133; 134; 69; 56; 0; 0; 0;
   0; 0; 0; 16; 16; 0; 0; 0; 0; 0; 0; 0; 0; 0; 0; 0;
   0; 0; 0; 8; 24; 48; 32; 64; 64; 32; 48; 24; 8; 0; 0; 0;
   0; 0; 0; 16; 24; 12; 4; 2; 2; 4; 12; 24; 16; 0; 0; 0;
   0; 0; 0; 0; 16; 146; 84; 56; 84; 146; 16; 0; 0; 0; 0; 0;
   0; 0; 0; 0; 0; 8; 8; 8; 127; 8; 8; 8; 0; 0; 0; 0;
   0; 0; 0; 0; 0; 0; 0; 0; 0; 0; 0; 48; 48; 32; 96; 0;
   0; 0; 0; 0; 0; 0; 0; 60; 60; 0; 0; 0; 0; 0; 0; 0;
   0; 0; 0; 0; 0; 0; 0; 0; 0; 0; 0; 96; 96; 0; 0; 0;
   0; 0; 0; 0; 2; 4; 4; 8; 16; 32; 32; 64; 0; 0; 0; 0;
   0; 0; 0; 60; 66; 66; 133; 137; 145; 161; 66; 66; 60; 0; 0; 0;
   0; 0; 0; 24; 40; 72; 8; 8; 8; 8; 8; 8; 127; 0; 0; 0;
   0; 0; 0; 60; 66; 66; 2; 4; 8; 16; 32; 64; 126; 0; 0; 0;
   0; 0; 0; 24; 100; 2; 2; 62; 4; 2; 2; 68; 56; 0; 0; 0;
   0; 0; 0; 12; 20; 20; 36; 36; 68; 132; 255; 4; 4; 0; 0; 0;
   0; 0; 0; 32; 62; 32; 32; 60; 2; 1; 1; 66; 60; 0; 0; 0;
   0; 0; 0; 8; 8; 16; 32; 88; 132; 130; 130; 68; 56; 0; 0; 0;
   0; 0; 0; 62; 66; 4; 4; 4; 4; 8; 8; 8; 8; 0; 0; 0;
   0; 0; 0; 60; 66; 66; 66; 60; 66; 66; 66; 66; 60; 0; 0; 0;
   0; 0; 0; 28; 34; 65; 35; 29; 2; 2; 4; 4; 8; 0; 0; 0;
   0; 0; 0; 0; 0; 24; 24; 0; 0; 24; 24; 0; 0; 0; 0; 0;
   0; 0; 0; 0; 0; 24; 24; 0; 0; 24; 24; 48; 0; 0; 0; 0;
   0; 0; 0; 0; 0; 8; 16; 32; 64; 32; 16; 8; 0; 0; 0; 0;
   0; 0; 0; 0; 0; 0; 124; 0; 0; 124; 0; 0; 0; 0; 0; 0;
   0; 0; 0; 0; 0; 32; 16; 8; 4; 8; 16; 32; 0; 0; 0; 0;
   0; 0; 0; 28; 34; 65; 2; 4; 8; 8; 8; 0; 8; 0; 0; 0;
   0; 0; 0; 0; 0; 0; 60; 66; 154; 164; 152; 66; 60; 0; 0; 0;
   0; 0; 0; 16; 40; 40; 68; 68; 68; 124; 68; 68; 68; 0; 0; 0;
   0; 0; 0; 120; 68; 66; 68; 120; 68; 66; 66; 66; 124; 0; 0; 0;
   0; 0; 0; 60; 66; 64; 128; 128; 128; 128; 64; 66; 60; 0; 0; 0;
   0; 0; 0; 112; 76; 68; 66; 66; 66; 66; 66; 68; 120; 0; 0; 0;
   0; 0; 0; 126; 64; 64; 64; 126; 64; 64; 64; 64; 126; 0; 0; 0;
   0; 0; 0; 126; 64; 64; 64; 126; 64; 64; 64; 64; 64; 0; 0; 0;
   0; 0; 0; 28; 34; 64; 64; 64; 78; 66; 66; 66; 62; 2; 0; 0;
   0; 0; 0; 66; 66; 66; 66; 126; 66; 66; 66; 66; 66; 0; 0; 0;
   0; 0; 0; 124; 16; 16; 16; 16; 16; 16; 16; 16; 124; 0; 0; 0;
   0; 0; 0; 2; 2; 2; 2; 2; 2; 2; 2; 68; 56; 0; 0; 0;
   0; 0; 0; 68; 72; 72; 80; 96; 80; 72; 72; 68; 68; 0; 0; 0;
   0; 0; 0; 64; 64; 64; 64; 64; 64; 64; 64; 64; 126; 0; 0; 0;
   0; 0; 0; 130; 198; 170; 170; 146; 146; 130; 130; 130; 130; 0; 0; 0;
   0; 0; 0; 66; 98; 82; 82; 82; 74; 74; 74; 70; 66; 0; 0; 0;
   0; 0; 0; 62; 65; 65; 65; 65; 65; 65; 65; 65; 62; 0; 0; 0;
   0; 0; 0; 120; 68; 68; 68; 120; 64; 64; 64; 64; 64; 0; 0; 0;
   0; 0; 0; 124; 130; 130; 130; 130; 130; 130; 146; 138; 126; 3; 0; 0;
   0; 0; 0; 248; 132; 132; 132; 248; 160; 144; 136; 132; 132; 0; 0; 0;
   0; 0; 0; 60; 66; 64; 32; 16; 8; 4; 2; 66; 60; 0; 0; 0;
   0; 0; 0; 254; 16; 16; 16; 16; 16; 16; 16; 16; 16; 0; 0; 0;
   0; 0; 0; 66; 66; 66; 66; 66; 66; 66; 66; 66; 60; 0; 0; 0;
   0; 0; 0; 130; 130; 130; 68; 68; 68; 40; 40; 40; 16; 0; 0; 0;
   0; 0; 0; 130; 130; 130; 130; 130; 130; 146; 170; 198; 130; 0; 0; 0;
   0; 0; 0; 130; 68; 68; 40; 16; 40; 40; 68; 68; 130; 0; 0; 0;
   0; 0; 0; 130; 68; 68; 40; 16; 16; 16; 16; 16; 16; 0; 0; 0;
   0; 0; 0; 254; 2; 4; 8; 16; 16; 32; 64; 128; 254; 0; 0; 0;
   0; 0; 0; 30; 16; 16; 16; 16; 16; 16; 16; 16; 30; 0; 0; 0;
   0; 0; 0; 0; 64; 32; 32; 16; 8; 4; 4; 2; 0; 0; 0; 0;
   0; 0; 0; 120; 8; 8; 8; 8; 8; 8; 8; 8; 120; 0; 0; 0;
   0; 0; 0; 16; 40; 68; 0; 0; 0; 0; 0; 0; 0; 0; 0; 0;
   0; 0; 0; 0; 0; 0; 0; 0; 0; 0; 0; 0; 126; 0; 0; 0;
   0; 0; 0; 64; 32; 16; 0; 0; 0; 0; 0; 0; 0; 0; 0; 0;
   0; 0; 0; 0; 0; 0; 0; 112; 136; 136; 136; 136; 124; 0; 0; 0;
   0; 0; 0; 128; 128; 128; 128; 240; 136; 136; 136; 136; 240; 0; 0; 0;
   0; 0; 0; 0; 0; 0; 0; 120; 132; 128; 128; 132; 120; 0; 0; 0;
   0; 0; 0; 8; 8; 8; 8; 120; 136; 136; 136; 136; 120; 0; 0; 0;
   0; 0; 0; 0; 0; 0; 0; 112; 136; 248; 128; 136; 112; 0; 0; 0;
   0; 0; 0; 24; 36; 32; 32; 248; 32; 32; 32; 32; 32; 0; 0; 0;
   0; 0; 0; 0; 0; 0; 0; 120; 136; 136; 136; 120; 8; 8; 8; 240;
   0; 0; 0; 128; 128; 128; 128; 240; 136; 136; 136; 136; 136; 0; 0; 0;
   0; 0; 0; 0; 0; 32; 0; 0; 32; 32; 32; 32; 32; 0; 0; 0;
   0; 0; 0; 0; 0; 32; 0; 32; 32; 32; 32; 32; 32; 32; 160; 64;
   0; 0; 0; 128; 128; 128; 128; 136; 176; 192; 160; 144; 136; 0; 0; 0;
   0; 0; 0; 32; 32; 32; 32; 32; 32; 32; 32; 32; 48; 0; 0; 0;
   0; 0; 0; 0; 0; 0; 0; 108; 146; 146; 146; 146; 146; 0; 0; 0;
   0; 0; 0; 0; 0; 0; 0; 240; 136; 136; 136; 136; 136; 0; 0; 0;
   0; 0; 0; 0; 0; 0; 0; 120; 132; 132; 132; 132; 120; 0; 0; 0;
   0; 0; 0; 0; 0; 0; 0; 112; 136; 136; 136; 240; 128; 128; 128; 128;
   0; 0; 0; 0; 0; 0; 0; 112; 136; 136; 136; 120; 8; 8; 8; 8;
   0; 0; 0; 0; 0; 0; 0; 176; 200; 128; 128; 128; 128; 0; 0; 0;
   0; 0; 0; 0; 0; 0; 0; 112; 128; 112; 8; 136; 112; 0; 0; 0;
   0; 0; 0; 0; 0; 32; 32; 248; 32; 32; 32; 40; 16; 0; 0; 0;
   0; 0; 0; 0; 0; 0; 0; 136; 136; 136; 136; 136; 112; 0; 0; 0;
   0; 0; 0; 0; 0; 0; 0; 136; 136; 136; 80; 80; 32; 0; 0; 0;
   0; 0; 0; 0; 0; 0; 0; 130; 146; 146; 146; 146; 108; 0; 0; 0;
   0; 0; 0; 0; 0; 0; 0; 136; 80; 32; 80; 80; 136; 0; 0; 0;
   0; 0; 0; 0; 0; 0; 0; 136; 136; 136; 136; 120; 8; 8; 8; 240;
   0; 0; 0; 0; 0; 0; 0; 252; 8; 16; 32; 64; 252; 0; 0; 0;
   0; 0; 0; 0; 12; 16; 16; 32; 16; 16; 12; 0; 0; 0; 0; 0;
   0; 0; 0; 32; 32; 32; 32; 32; 32; 32; 32; 32; 32; 32; 0; 0;
   0; 0; 0; 0; 24; 4; 4; 2; 4; 4; 24; 0; 0; 0; 0; 0;
   0; 0; 0; 96; 146; 12; 0; 0; 0; 0; 0; 0; 0; 0; 0; 0;
   0; 0; 0; 0; 0; 0; 0; 0; 0; 0; 0; 0; 0; 0; 0; 0].

Definition FONT_WIDTH : Z := 8.
Definition FONT_HEIGHT : Z := 16.

(* ------------------------------------------------------------------ *)
(** ** The kernel terminal *)

Record Tty := mkTty {
  fb_base : list Z;
  fb_width : Z;
  fb_height : Z;
  fb_pitch : Z;
  cols : Z;
  rows : Z;
  tty_x : Z;
  tty_y : Z;
  color_fg : Z;
  color_bg : Z;
}.

Definition set_fb (fb : list Z) (t : Tty) : Tty :=
  mkTty fb (fb_width t) (fb_height t) (fb_pitch t) (cols t) (rows t) (tty_x t) (tty_y t) (color_fg t) (color_bg t).
Definition set_cursor (x y : Z) (t : Tty) : Tty :=
  mkTty (fb_base t) (fb_width t) (fb_height t) (fb_pitch t) (cols t) (rows t) x y (color_fg t) (color_bg t).

(** [ptr::write_bytes(base + off, 0, n)] and [ptr::copy(base + src, base + dst, n)]. *)
Definition write_zeros (fb : list Z) (off n : Z) : outcome (list Z) := copy_into fb off (off + n) (zrep n 0).
Definition ptr_copy (fb : list Z) (src dst n : Z) : outcome (list Z) :=
  bytes ← slice fb src (src + n);
  copy_into fb dst (dst + n) bytes.

Definition Tty_clear (t : Tty) : outcome Tty :=
  let total_bytes := fb_pitch t ⊠ fb_height t in
  fb ← write_zeros (fb_base t) 0 total_bytes;
  Done (set_cursor 0 0 (set_fb fb t)).

Definition Tty_scroll (t : Tty) : outcome Tty :=
  let line_size := fb_pitch t ⊠ FONT_HEIGHT in
  let total_size := line_size ⊠ rows t in
  fb ← ptr_copy (fb_base t) line_size 0 (total_size ⊟ line_size);
  fb ← write_zeros fb (total_size ⊟ line_size) line_size;
  Done (set_fb fb t).

Definition Tty_new_line (t : Tty) : outcome Tty :=
  let t := set_cursor 0 (tty_y t ⊞ 1) t in
  if rows t <=? tty_y t then
    t ← Tty_scroll t;
    Done (set_cursor (tty_x t) (rows t ⊟ 1) t)
  else Done t.

Definition Tty_draw_char (cx cy c : Z) (t : Tty) : outcome Tty :=
  let glyph_index := if (32 <=? c) && (c <=? 126) then c else 0xFE in
  let screen_x := cx ⊠ FONT_WIDTH in
  let screen_y := cy ⊠ FONT_HEIGHT in
  glyph ← slice FONT_8X16 (glyph_index * 16) ((glyph_index + 1) * 16);
  fb ← for_each (seqZ 0 FONT_HEIGHT) (λ row fb,
    bits ← idx glyph row;
    for_each (seqZ 0 FONT_WIDTH) (λ col fb,
      let offset := (screen_y ⊞ row) ⊠ fb_pitch t ⊞ (screen_x ⊞ col) ⊠ 4 in
      let color := if negb (Z.land bits (1 ≪ (7 - col)) =? 0) then color_fg t else color_bg t in
      put_le 4 fb offset color) fb) (fb_base t);
  Done (set_fb fb t).

Definition Tty_write_char (c : Z) (t : Tty) : outcome Tty :=
  if c =? 10 then Tty_new_line t
  else if c =? 8 then
    if 0 <? tty_x t then
      let t := set_cursor (tty_x t - 1) (tty_y t) t in
      Tty_draw_char (tty_x t) (tty_y t) 32 t
    else Done t
  else
    t ← (if cols t <=? tty_x t then Tty_new_line t else Done t);
    t ← Tty_draw_char (tty_x t) (tty_y t) c t;
    Done (set_cursor (tty_x t ⊞ 1) (tty_y t) t).

Definition Tty_write_str (s : str) (t : Tty) : outcome Tty := for_each (chars s) Tty_write_char t.

Definition init_console (base : list Z) (width height pitch : Z) : outcome Tty :=
  Tty_clear (mkTty base width height pitch (width `div` FONT_WIDTH) (height `div` FONT_HEIGHT) 0 0 0x00AAAAAA 0).

(** [KERNEL_TTY]: nothing is printed before [init_console]. *)
Definition console_print (s : str) (tty : option Tty) : outcome (option Tty) :=
  match tty with
  | Some t => t ← Tty_write_str s t; Done (Some t)
  | None => Done None
  end.

(* ------------------------------------------------------------------ *)
(** ** The other console *)

Record FramebufferConsole := mkFramebufferConsole {
  framebuffer : list Z;
  con_width : Z;
  con_height : Z;
  con_pitch : Z;
  cursor_x : Z;
  cursor_y : Z;
}.

Definition FramebufferConsole_new (fb : list Z) (width height pitch : Z) : FramebufferConsole :=
  mkFramebufferConsole fb width height pitch 0 0.

Definition con_fb (fb : list Z) (f : FramebufferConsole) : FramebufferConsole :=
  mkFramebufferConsole fb (con_width f) (con_height f) (con_pitch f) (cursor_x f) (cursor_y f).
Definition con_cursor (x y : Z) (f : FramebufferConsole) : FramebufferConsole :=
  mkFramebufferConsole (framebuffer f) (con_width f) (con_height f) (con_pitch f) x y.

Definition scroll_up (f : FramebufferConsole) : outcome FramebufferConsole :=
  let pitch := con_pitch f in
  let height_bytes := con_height f ⊠ pitch in
  fb ← ptr_copy (framebuffer f) (16 ⊠ pitch) 0 (height_bytes ⊟ (16 ⊠ pitch));
  let clear_start := height_bytes ⊟ (16 ⊠ pitch) in
  fb ← for_each (seqZ 0 (16 ⊠ pitch)) (λ i fb, upd fb (clear_start ⊞ i) 0) fb;
  Done (con_fb fb f).

Definition scroll_if_needed (f : FramebufferConsole) : outcome FramebufferConsole :=
  let max_lines := con_height f `div` 16 in
  if max_lines <=? cursor_y f then
    f ← scroll_up f;
    Done (con_cursor (cursor_x f) (max_lines ⊟ 1) f)
  else Done f.

Definition con_draw_char (c x_char y_char : Z) (f : FramebufferConsole) : outcome FramebufferConsole :=
  let c := wrap 8 c in
  let g := if (c <? 32) || (127 <? c) then 63 - 32 else c - 32 in
  tail ← slice FONT_8X16 (g * 16) (zlen FONT_8X16);
  glyph ← slice tail 0 16;
  let pitch := con_pitch f in
  let x_pixel := x_char ⊠ 8 in
  let y_pixel := y_char ⊠ 16 in
  fb ← for_each (zenum glyph) (λ '(row, bits) fb,
    for_each (seqZ 0 8) (λ bit fb,
      let pixel_on := negb (Z.land bits (1 ≪ (7 - bit)) =? 0) in
      let pixel := if pixel_on then [0xFF; 0xFF; 0xFF; 0x00] else [0x00; 0x00; 0x00; 0x00] in
      let offset := (y_pixel ⊞ row) ⊠ pitch ⊞ (x_pixel ⊞ bit) ⊠ 4 in
      for_each (seqZ 0 4) (λ p fb, v ← idx pixel p; upd fb (offset ⊞ p) v) fb) fb) (framebuffer f);
  Done (con_fb fb f).

Definition put_char (c : Z) (f : FramebufferConsole) : outcome FramebufferConsole :=
  if c =? 10 then scroll_if_needed (con_cursor 0 (cursor_y f ⊞ 1) f)
  else if c =? 13 then Done (con_cursor 0 (cursor_y f) f)
  else
    f ← con_draw_char c (cursor_x f) (cursor_y f) f;
    let f := con_cursor (cursor_x f ⊞ 1) (cursor_y f) f in
    if con_width f <=? cursor_x f ⊠ 8 then scroll_if_needed (con_cursor 0 (cursor_y f ⊞ 1) f)
    else Done f.

Definition write_string (s : str) (f : FramebufferConsole) : outcome FramebufferConsole :=
  for_each (chars s) put_char f.

(** [ConsoleGuard]: the console of [fb_print!], when there is one. *)
Definition ConsoleGuard_write_str (s : str) (global : option FramebufferConsole)
    : outcome (bool * option FramebufferConsole) :=
  match global with
  | Some con => con ← write_string s con; Done (true, Some con)
  | None => Done (false, None)
  end.

(* ------------------------------------------------------------------ *)
(** ** The boot picture (lib.rs) *)

(** The kinds of memory-map entries the picture tells apart. *)
Inductive EntryType := USABLE | BOOTLOADER_RECLAIMABLE | OTHER_ENTRY.

Definition write_pixel (fb : list Z) (offset : Z) (color : list Z) : outcome (list Z) :=
  copy_into fb offset (offset + 4) color.

Definition fill_screen_blue (width height pitch bpp : Z) (fb : list Z) : outcome (list Z) :=
  for_each (seqZ 0 height) (λ y fb,
    for_each (seqZ 0 width) (λ x fb,
      write_pixel fb (y ⊠ pitch ⊞ x ⊠ (bpp `div` 8)) [0xFF; 0x00; 0x00; 0x00]) fb) fb.

Definition entry_color (e : EntryType) : list Z :=
  match e with
  | USABLE => [0x00; 0xFF; 0x00; 0x00]
  | BOOTLOADER_RECLAIMABLE => [0xFF; 0xFF; 0x00; 0x00]
  | OTHER_ENTRY => [0x80; 0x80; 0x80; 0x00]
  end.

Definition draw_memory_map (width height pitch bpp : Z) (entries : list EntryType) (fb : list Z)
    : outcome (list Z) :=
  let count := zlen entries in
  let max_count := Z.min width count in
  let bar_width := width `div` Z.max max_count 1 in
  for_each (zenum (ztake max_count entries)) (λ '(i, e) fb,
    let color := entry_color e in
    let x_start := i ⊠ bar_width in
    let x_end := Z.min (x_start ⊞ bar_width) width in
    for_each (seqZ x_start (x_end - x_start)) (λ x fb,
      for_each (seqZ (height ⊟ 40) (height - (height ⊟ 40))) (λ y fb,
        write_pixel fb (y ⊠ pitch ⊞ x ⊠ (bpp `div` 8)) color) fb) fb) fb.

(* ------------------------------------------------------------------ *)
(** ** Pixels *)

Section pixels.
Context (pitch width height : Z).

(** A framebuffer of [height] scanlines of [pitch] bytes, [width] pixels each. *)
Definition screen_ok (fb : list Z) : Prop :=
  0 ≤ width ∧ 0 ≤ height ∧ 4 * width ≤ pitch ∧ zlen fb = pitch * height ∧ pitch * height < 2 ^ 62.

Definition pixel_offset (x y : Z) : Z := y * pitch + x * 4.

(** The four bytes of a pixel. *)
Definition pixel (fb : list Z) (x y : Z) : list Z := zslice fb (pixel_offset x y) (pixel_offset x y + 4).

Definition on_screen (x y : Z) : Prop := 0 ≤ x < width ∧ 0 ≤ y < height.

Lemma offset_range fb x y :
  screen_ok fb → on_screen x y → 0 ≤ y * pitch ∧ 0 ≤ pixel_offset x y ∧ pixel_offset x y + 4 ≤ zlen fb.
Proof. intros (? & ? & ? & -> & ?) [??]. unfold pixel_offset. nia. Qed.

Lemma offset_disjoint x y x' y' :
  4 * width ≤ pitch → on_screen x y → on_screen x' y' → (x, y) ≠ (x', y') →
  pixel_offset x y + 4 ≤ pixel_offset x' y' ∨ pixel_offset x' y' + 4 ≤ pixel_offset x y.
Proof.
  intros Hp [??] [??] Hne. unfold pixel_offset. destruct (Z.lt_trichotomy y y') as [?|[->|?]]; [nia| |nia].
  assert (x ≠ x') by congruence. nia.
Qed.

(** Storing one pixel changes that pixel only. *)
Lemma pixel_store fb x y v :
  screen_ok fb → on_screen x y → zlen v = 4 →
  let fb' := zsplice fb (pixel_offset x y) v in
  screen_ok fb' ∧
  ∀ x' y', on_screen x' y' → pixel fb' x' y' = if decide ((x', y') = (x, y)) then v else pixel fb x' y'.
Proof.
  intros Hs Hxy Hv fb'. destruct (offset_range fb x y Hs Hxy) as (_ & Ho & Hl).
  split; [unfold screen_ok, fb'; rewrite zlen_zsplice by lia; exact Hs|].
  intros x' y' Hxy'. unfold pixel, fb'. case_decide as E.
  - simplify_eq. apply zslice_zsplice_same; lia.
  - apply zslice_zsplice_disjoint; [lia|lia|destruct (offset_range fb x' y' Hs Hxy'); lia|].
    destruct (offset_disjoint x' y' x y) as [?|?]; [apply Hs|done|done|done|lia|lia].
Qed.

(** The address computation of both consoles does not overflow. *)
Lemma offset_wraps fb x0 y0 dx dy :
  screen_ok fb → 0 ≤ x0 → 0 ≤ dx → 0 ≤ y0 → 0 ≤ dy → on_screen (x0 + dx) (y0 + dy) →
  (y0 ⊞ dy) ⊠ pitch ⊞ (x0 ⊞ dx) ⊠ 4 = pixel_offset (x0 + dx) (y0 + dy).
Proof.
  intros Hs ???? Hxy. destruct (offset_range fb _ _ Hs Hxy) as (? & Ho & Hl). destruct Hs as (? & ? & ? & Hz & ?).
  destruct Hxy as [[??] [??]]. unfold pixel_offset in *.
  assert (y0 + dy ≤ pitch * height) by nia.
  rewrite (wrap_small 64 (y0 + dy)), (wrap_small 64 (x0 + dx)) by (split; lia).
  rewrite (wrap_small 64 ((y0 + dy) * pitch)), (wrap_small 64 ((x0 + dx) * 4)) by (split; lia).
  apply wrap_small. split; lia.
Qed.

(** A cell of 8x16 pixels, drawn row by row. *)
Lemma draw_cell x0 y0 (color : Z → Z → list Z) (outer : Z → list Z → outcome (list Z))
    (body : Z → Z → list Z → outcome (list Z)) fb :
  screen_ok fb → 0 ≤ x0 → x0 + 8 ≤ width → 0 ≤ y0 → y0 + 16 ≤ height →
  (∀ row col, 0 ≤ row < 16 → 0 ≤ col < 8 → zlen (color row col) = 4) →
  (∀ row fb, 0 ≤ row < 16 → outer row fb = for_each (seqZ 0 8) (body row) fb) →
  (∀ row col fb, 0 ≤ row < 16 → 0 ≤ col < 8 → screen_ok fb →
    body row col fb = Done (zsplice fb (pixel_offset (x0 + col) (y0 + row)) (color row col))) →
  ∃ fb', for_each (seqZ 0 16) outer fb = Done fb' ∧ screen_ok fb' ∧
    ∀ x y, on_screen x y → pixel fb' x y =
      if decide (x0 ≤ x < x0 + 8 ∧ y0 ≤ y < y0 + 16) then color (y - y0) (x - x0) else pixel fb x y.
Proof.
  intros Hs Hx0 Hx1 Hy0 Hy1 Hcl Houter Hbody.
  destruct (for_range (λ r fb', screen_ok fb' ∧ ∀ x y, on_screen x y → pixel fb' x y =
      if decide (x0 ≤ x < x0 + 8 ∧ y0 ≤ y < y0 + r) then color (y - y0) (x - x0) else pixel fb x y) 16
      outer fb) as (fb' & E & Hok & Hp); [lia| | |by eauto].
  { split; [done|]. intros x y _. case_decide; [lia|done]. }
  intros row fb1 Hrow [Hok1 Hp1]. rewrite Houter by done.
  destruct (for_range (λ k fb', screen_ok fb' ∧ ∀ x y, on_screen x y → pixel fb' x y =
      if decide (x0 ≤ x < x0 + k ∧ y = y0 + row) then color row (x - x0) else pixel fb1 x y) 8 (body row) fb1)
    as (fb2 & E2 & Hok2 & Hp2); [lia| | |].
  { split; [done|]. intros x y _. case_decide; [lia|done]. }
  - intros col fb2 Hcol [Hok2 Hp2]. rewrite Hbody by done.
    assert (on_screen (x0 + col) (y0 + row)) as Hxy by (split; lia).
    destruct (pixel_store fb2 _ _ (color row col) Hok2 Hxy) as [Hok3 Hp3]; [by apply Hcl|].
    eexists. split; [done|]. split; [done|]. intros x y Hon. rewrite Hp3, Hp2 by done.
    repeat case_decide; simplify_eq; try lia; try done; [f_equal; lia|].
    exfalso. match goal with Hne : (x, _) ≠ _ |- _ => apply Hne end. f_equal; lia.
  - exists fb2. split; [done|]. split; [done|]. intros x y Hon. rewrite Hp2, Hp1 by done.
    repeat case_decide; try lia; try done. f_equal; lia.
Qed.
End pixels.

(* ------------------------------------------------------------------ *)
(** ** Specification: a terminal of character cells *)

Record term := mkTerm {
  g_cells : list (list Z);
  g_x : Z;
  g_y : Z;
}.

Definition term_blank (ncols nrows : Z) : term := mkTerm (zrep nrows (zrep ncols 32)) 0 0.

Definition cell (g : term) (cy cx : Z) : option Z :=
  match zget (g_cells g) cy with Some line => zget line cx | None => None end.

Definition term_new_line (ncols nrows : Z) (g : term) : term :=
  if g_y g + 1 <? nrows then mkTerm (g_cells g) 0 (g_y g + 1)
  else mkTerm (zdrop 1 (g_cells g) ++ [zrep ncols 32]) 0 (nrows - 1).

Definition term_put (c cx cy : Z) (g : term) : list (list Z) :=
  match zget (g_cells g) cy with
  | Some line => zset (g_cells g) cy (zset line cx c)
  | None => g_cells g
  end.

Definition term_char (ncols nrows c : Z) (g : term) : term :=
  if c =? 10 then term_new_line ncols nrows g
  else if c =? 8 then
    if 0 <? g_x g then mkTerm (term_put 32 (g_x g - 1) (g_y g) g) (g_x g - 1) (g_y g) else g
  else
    let g := if g_x g <? ncols then g else term_new_line ncols nrows g in
    mkTerm (term_put c (g_x g) (g_y g) g) (g_x g + 1) (g_y g).

Definition term_write (ncols nrows : Z) (cs : list Z) (g : term) : term :=
  foldl (λ g c, term_char ncols nrows c g) g cs.

(** The characters that the terminal can show. *)
Definition showable (c : Z) : Prop := 32 ≤ c ≤ 126.

(** A framebuffer cell shows a character. *)
Definition glyph_color (fg bg c row col : Z) : Z :=
  if negb (Z.land (default 0 (zget FONT_8X16 (c * 16 + row))) (1 ≪ (7 - col)) =? 0) then fg else bg.

Definition cell_shows (t : Tty) (cx cy c : Z) : Prop :=
  ∀ row col, 0 ≤ row < 16 → 0 ≤ col < 8 →
    pixel (fb_pitch t) (fb_base t) (cx * 8 + col) (cy * 16 + row) =
    to_le 4 (glyph_color (color_fg t) (color_bg t) c row col).

(** The geometry of a terminal that [init_console] has set up. *)
Record tty_geo (t : Tty) : Prop := {
  tg_screen : screen_ok (fb_pitch t) (fb_width t) (fb_height t) (fb_base t);
  tg_cols : cols t = fb_width t `div` 8;
  tg_rows : rows t = fb_height t `div` 16;
  tg_cols_pos : 0 < cols t;
  tg_rows_pos : 0 < rows t;
  tg_bg : color_bg t = 0;
}.

Record shows (t : Tty) (g : term) : Prop := {
  sh_geo : tty_geo t;
  sh_x : tty_x t = g_x g;
  sh_y : tty_y t = g_y g;
  sh_x_range : 0 ≤ g_x g ≤ cols t;
  sh_y_range : 0 ≤ g_y g < rows t;
  sh_rows : zlen (g_cells g) = rows t;
  sh_cols : Forall (λ line, zlen line = cols t) (g_cells g);
  sh_cells : ∀ cx cy, 0 ≤ cx < cols t → 0 ≤ cy < rows t →
    ∃ c, cell g cy cx = Some c ∧ showable c ∧ cell_shows t cx cy c;
}.

Lemma font_len : zlen FONT_8X16 = 2048.
Proof. reflexivity. Qed.

(** A space is blank. *)
Lemma glyph_space fg bg row col : 0 ≤ row < 16 → glyph_color fg bg 32 row col = bg.
Proof.
  intros Hr. unfold glyph_color.
  assert (default 0 (zget FONT_8X16 (32 * 16 + row)) = 0) as ->; [|done].
  change (32 * 16) with 512. rewrite <-(zget_zslice FONT_8X16 512 528 row) by lia.
  change (zslice FONT_8X16 512 528) with (zrep 16 0). by rewrite zget_zrep.
Qed.

Lemma glyph_row c row :
  showable c → 0 ≤ row < 16 →
  idx (zslice FONT_8X16 (c * 16) ((c + 1) * 16)) row = Done (default 0 (zget FONT_8X16 (c * 16 + row))).
Proof.
  intros [??] Hr. apply idx_Done. rewrite zget_zslice by lia.
  destruct (zget_is_Some FONT_8X16 (c * 16 + row)) as [b ->]; [rewrite font_len; lia|done].
Qed.

Section tty.
Implicit Types (t : Tty) (g : term).

Lemma cells_fit t : tty_geo t → cols t * 8 ≤ fb_width t ∧ rows t * 16 ≤ fb_height t.
Proof. intros [_ -> -> _ _ _]. Z.to_euclidean_division_equations. lia. Qed.

Lemma geo_small t : tty_geo t → fb_width t < 2 ^ 62 ∧ fb_height t < 2 ^ 62 ∧ 4 ≤ fb_pitch t < 2 ^ 62.
Proof.
  intros Hg. pose proof (cells_fit t Hg). destruct Hg as [(? & ? & ? & ? & ?) _ _ ? ? _]. nia.
Qed.

Lemma Tty_draw_char_spec t cx cy c :
  tty_geo t → 0 ≤ cx < cols t → 0 ≤ cy < rows t → showable c →
  ∃ fb, Tty_draw_char cx cy c t = Done (set_fb fb t) ∧ tty_geo (set_fb fb t) ∧
    cell_shows (set_fb fb t) cx cy c ∧
    ∀ cx' cy' c', 0 ≤ cx' < cols t → 0 ≤ cy' < rows t → (cx', cy') ≠ (cx, cy) →
      cell_shows t cx' cy' c' → cell_shows (set_fb fb t) cx' cy' c'.
Proof.
  intros Hg Hcx Hcy Hc. pose proof Hc as [Hc1 Hc2]. destruct (cells_fit t Hg) as [Hw Hh]. pose proof (geo_small t Hg) as Hsm.
  unfold Tty_draw_char. rewrite (proj2 (Z.leb_le 32 c)), (proj2 (Z.leb_le c 126)) by lia. cbn [andb].
  rewrite slice_Done by (rewrite ?font_len; lia). cbn [mbind outcome_bind].
  unfold FONT_WIDTH, FONT_HEIGHT. rewrite (wrap_small 64 (cx * 8)), (wrap_small 64 (cy * 16)) by (split; lia).
  set (color row col := glyph_color (color_fg t) (color_bg t) c row col).
  destruct (draw_cell (fb_pitch t) (fb_width t) (fb_height t) (cx * 8) (cy * 16) (λ row col, to_le 4 (color row col))
    (λ row fb, bits ← idx (zslice FONT_8X16 (c * 16) ((c + 1) * 16)) row;
      for_each (seqZ 0 8) (λ col fb,
        put_le 4 fb ((cy * 16 ⊞ row) ⊠ fb_pitch t ⊞ (cx * 8 ⊞ col) ⊠ 4)
          (if negb (Z.land bits (1 ≪ (7 - col)) =? 0) then color_fg t else color_bg t)) fb)
    (λ row col fb, put_le 4 fb ((cy * 16 ⊞ row) ⊠ fb_pitch t ⊞ (cx * 8 ⊞ col) ⊠ 4) (color row col)) (fb_base t))
    as (fb & E & Hok & Hp); [apply Hg|lia..| | | |].
  { intros. by apply zlen_to_le. }
  { intros row fb Hrow. by rewrite glyph_row. }
  { intros row col fb Hrow Hcol Hok.
    assert (on_screen (fb_width t) (fb_height t) (cx * 8 + col) (cy * 16 + row)) as Hon by (split; lia).
    rewrite (offset_wraps _ (fb_width t) (fb_height t) fb) by (done || lia).
    destruct (offset_range _ _ _ fb _ _ Hok Hon) as (_ & ? & ?). by rewrite put_le_Done by lia. }
  exists fb. rewrite E. split; [done|]. split; [by destruct Hg; split|]. split.
  - intros row col Hrow Hcol. simpl. rewrite Hp by (split; lia). rewrite decide_True by lia.
    do 2 f_equal; lia.
  - intros cx' cy' c' Hx' Hy' Hne Hsh row col Hrow Hcol. simpl. rewrite Hp by (split; lia).
    rewrite decide_False; [by apply Hsh|]. intros [??]. apply Hne. f_equal; lia.
Qed.

(** The first [total] bytes moved up by [line], with zeros behind them. *)
Definition scrolled (fb : list Z) (line total : Z) : list Z :=
  zsplice (zsplice fb 0 (zslice fb line total)) (total - line) (zrep line 0).

Lemma scrolled_len fb line total :
  0 ≤ line ≤ total → total ≤ zlen fb → zlen (scrolled fb line total) = zlen fb.
Proof.
  intros. unfold scrolled. assert (zlen (zslice fb line total) = total - line) by (rewrite zlen_zslice; lia).
  assert (zlen (zsplice fb 0 (zslice fb line total)) = zlen fb) by (rewrite zlen_zsplice; lia).
  rewrite zlen_zsplice; rewrite ?zlen_zrep; lia.
Qed.

Lemma scrolled_get fb line total i :
  0 ≤ line ≤ total → total ≤ zlen fb → 0 ≤ i < total →
  zget (scrolled fb line total) i = if i <? total - line then zget fb (line + i) else Some 0.
Proof.
  intros ? ? ?. unfold scrolled.
  assert (zlen (zslice fb line total) = total - line) by (rewrite zlen_zslice; lia).
  assert (zlen (zsplice fb 0 (zslice fb line total)) = zlen fb) by (rewrite zlen_zsplice; lia).
  destruct (Z.ltb_spec i (total - line)).
  - rewrite zget_zsplice_out by (rewrite ?zlen_zrep; lia).
    rewrite zget_zsplice_in, zget_zslice by lia. f_equal. lia.
  - rewrite zget_zsplice_in, zget_zrep by (rewrite ?zlen_zrep; lia). done.
Qed.

Lemma Tty_scroll_Done t :
  tty_geo t →
  Tty_scroll t = Done (set_fb (scrolled (fb_base t) (fb_pitch t * 16) (fb_pitch t * 16 * rows t)) t).
Proof.
  intros Hg. destruct (cells_fit t Hg) as [_ Hh]. pose proof (geo_small t Hg) as Hsm.
  destruct Hg as [(_ & _ & _ & Hlen & Hs5) _ _ _ Hr0 _].
  unfold Tty_scroll, FONT_HEIGHT, scrolled. set (p := fb_pitch t) in *. set (r := rows t) in *.
  assert (p * 16 * r ≤ zlen (fb_base t)) as Htot by nia. assert (p * 16 ≤ p * 16 * r) by nia.
  rewrite (wrap_small 64 (p * 16)) by (split; lia). rewrite (wrap_small 64 (p * 16 * r)) by (split; lia).
  rewrite (wrap_small 64 (p * 16 * r - p * 16)) by (split; lia).
  unfold ptr_copy, write_zeros. replace (p * 16 + (p * 16 * r - p * 16)) with (p * 16 * r) by lia.
  rewrite slice_Done by lia. cbn [mbind outcome_bind].
  rewrite copy_into_Done by (rewrite ?zlen_zslice; lia). cbn [mbind outcome_bind].
  rewrite copy_into_Done; [done|lia| |rewrite zlen_zrep; lia].
  rewrite zlen_zsplice; rewrite ?zlen_zslice; lia.
Qed.

(** Scrolling moves every line of cells one up and blanks the last one. *)
Lemma Tty_scroll_spec t :
  tty_geo t →
  ∃ fb, Tty_scroll t = Done (set_fb fb t) ∧ tty_geo (set_fb fb t) ∧
    (∀ cx cy c, 0 ≤ cx < cols t → 0 ≤ cy < rows t - 1 → cell_shows t cx (cy + 1) c →
      cell_shows (set_fb fb t) cx cy c) ∧
    (∀ cx, 0 ≤ cx < cols t → cell_shows (set_fb fb t) cx (rows t - 1) 32).
Proof.
  intros Hg. destruct (cells_fit t Hg) as [Hw Hh]. pose proof (geo_small t Hg) as Hsm.
  rewrite Tty_scroll_Done by done.
  destruct Hg as [(Hs1 & Hs2 & Hs3 & Hlen & Hs5) Hgc Hgr Hc0 Hr0 Hbg].
  set (p := fb_pitch t) in *. set (r := rows t) in *.
  assert (0 ≤ p * 16 ≤ p * 16 * r ∧ p * 16 * r ≤ zlen (fb_base t)) as [? ?] by nia.
  eexists. split; [done|]. split; [|split].
  - split; simpl; try done. split_and!; try done. by rewrite scrolled_len.
  - intros cx cy c Hcx Hcy Hsh row col Hrow Hcol. simpl. rewrite <-(Hsh row col Hrow Hcol). fold p. unfold pixel.
    pose proof (Z.mul_le_mono_nonneg_r (cy * 16 + row + 17) (r * 16) p ltac:(lia) ltac:(lia)).
    apply zlist_eq. intros i Hi. destruct (decide (i < 4)); [|unfold zslice; by rewrite !zget_ztake_ge by lia].
    unfold pixel_offset. rewrite !zget_zslice, scrolled_get by lia. rewrite (proj2 (Z.ltb_lt _ _)) by lia.
    f_equal. lia.
  - intros cx Hcx row col Hrow Hcol. rewrite glyph_space by done. simpl. rewrite Hbg. fold p. unfold pixel.
    assert (0 ≤ ((r - 1) * 16 + row) * p - (p * 16 * r - p * 16) ≤ 15 * p) by nia.
    change (to_le 4 0) with (zrep 4 0).
    apply zlist_eq. intros i Hi. destruct (decide (i < 4)).
    + unfold pixel_offset. rewrite zget_zslice, scrolled_get, zget_zrep by lia. by rewrite (proj2 (Z.ltb_ge _ _)) by lia.
    + unfold zslice, zrep. rewrite zget_ztake_ge by lia. rewrite zget_None; [done|]. change (zlen _) with 4. lia.
Qed.

Lemma cell_shows_cursor x y t cx cy c : cell_shows (set_cursor x y t) cx cy c ↔ cell_shows t cx cy c.
Proof. done. Qed.

Lemma geo_cursor x y t : tty_geo t → tty_geo (set_cursor x y t).
Proof. by intros []; split. Qed.

Lemma Tty_new_line_shows t g :
  shows t g → ∃ t', Tty_new_line t = Done t' ∧ shows t' (term_new_line (cols t) (rows t) g) ∧
    cols t' = cols t ∧ rows t' = rows t.
Proof.
  intros Hs. pose proof Hs as [Hg Hx Hy Hxr Hyr Hgr Hgc Hcells]. pose proof (geo_small t Hg) as Hsm.
  pose proof (cells_fit t Hg). unfold Tty_new_line, term_new_line.
  rewrite (wrap_small 64 (tty_y t + 1)) by (split; lia). rewrite <-Hy. simpl.
  destruct (Z.leb_spec (rows t) (tty_y t + 1)), (Z.ltb_spec (tty_y t + 1) (rows t)); try lia.
  - destruct (Tty_scroll_spec (set_cursor 0 (tty_y t + 1) t)) as (fb & -> & Hg' & Hup & Hlast);
      [by apply geo_cursor|]. simpl in *. rewrite (wrap_small 64 (rows t - 1)) by (split; lia).
    eexists. split; [done|]. split; [|done].
    assert (zlen (zdrop 1 (g_cells g)) = rows t - 1) as Hzd by (rewrite zlen_zdrop; lia).
    split; simpl; try lia; [by apply geo_cursor| | |].
    + rewrite zlen_app, Hzd. change (zlen [_]) with 1. lia.
    + apply Forall_app. split; [by apply Forall_drop|]. apply Forall_singleton. rewrite zlen_zrep; lia.
    + intros cx cy Hcx Hcy. unfold cell. simpl. destruct (decide (cy < rows t - 1)).
      * rewrite zget_app_l, zget_zdrop by lia. destruct (Hcells cx (1 + cy)) as (c & Hc & Hsh & Hd); [lia..|].
        exists c. split; [done|]. split; [done|]. apply Hup; [done|lia|].
        by replace (cy + 1) with (1 + cy) by lia.
      * assert (cy = rows t - 1) as -> by lia. rewrite zget_app_r by lia. rewrite Hzd, Z.sub_diag.
        change (zget [zrep (cols t) 32] 0) with (Some (zrep (cols t) 32)). simpl. rewrite zget_zrep by lia.
        exists 32. split; [done|]. split; [unfold showable; lia|]. by apply Hlast.
  - eexists. split; [done|]. split; [|done]. split; simpl; try lia; try done. by apply geo_cursor.
Qed.

(** One cell drawn at the cursor or left of it. *)
Lemma Tty_draw_shows t g c cx x' :
  shows t g → showable c → 0 ≤ cx < cols t → 0 ≤ x' ≤ cols t →
  ∃ t', Tty_draw_char cx (tty_y t) c t = Done t' ∧
    shows (set_cursor x' (tty_y t) t') (mkTerm (term_put c cx (g_y g) g) x' (g_y g)) ∧
    tty_x t' = tty_x t ∧ tty_y t' = tty_y t ∧ cols t' = cols t ∧ rows t' = rows t.
Proof.
  intros Hs Hc Hcx Hx'. pose proof Hs as [Hg Hx Hy Hxr Hyr Hgr Hgc Hcells].
  destruct (Tty_draw_char_spec t cx (tty_y t) c) as (fb & -> & Hg' & Hd & Ho); [done|done|lia|done|].
  eexists. split; [done|]. split; [|done].
  destruct (zget_is_Some (g_cells g) (g_y g)) as [line Hline]; [lia|].
  assert (zlen line = cols t) as Hll.
  { rewrite Forall_forall in Hgc. apply Hgc. unfold zget in Hline. case_match; [|done].
    by eapply list_elem_of_lookup_2. }
  unfold term_put. rewrite Hline. split; simpl; try lia; [by apply geo_cursor|by rewrite zlen_zset| |].
  - unfold zset at 1. case_match; [|done]. apply Forall_insert; [done|]. by rewrite zlen_zset.
  - intros cx' cy' Hcx' Hcy'. unfold cell. simpl. destruct (decide (cy' = g_y g)) as [->|Hne].
    + rewrite zget_zset_eq by lia. destruct (decide (cx' = cx)) as [->|Hnx].
      * rewrite zget_zset_eq by lia. exists c. rewrite <-Hy. done.
      * rewrite zget_zset_ne by done. destruct (Hcells cx' (g_y g)) as (c' & Hc' & Hsh & Hd'); [lia..|].
        unfold cell in Hc'. rewrite Hline in Hc'. exists c'. split; [done|]. split; [done|].
        apply cell_shows_cursor, Ho; [lia..| |done]. naive_solver.
    + rewrite zget_zset_ne by done. destruct (Hcells cx' cy') as (c' & Hc' & Hsh & Hd'); [lia..|].
      exists c'. split; [done|]. split; [done|]. apply cell_shows_cursor, Ho; [lia..| |done]. naive_solver.
Qed.

(** What [write_char] accepts: printable ASCII, newline and backspace. *)
Definition printable (c : Z) : Prop := showable c ∨ c = 10 ∨ c = 8.

Lemma Tty_write_char_shows t g c :
  shows t g → printable c →
  ∃ t', Tty_write_char c t = Done t' ∧ shows t' (term_char (cols t) (rows t) c g) ∧
    cols t' = cols t ∧ rows t' = rows t.
Proof.
  intros Hs Hc. pose proof Hs as [Hg Hx Hy Hxr Hyr _ _ _]. unfold Tty_write_char, term_char.
  destruct (Z.eqb_spec c 10); [by apply Tty_new_line_shows|].
  destruct (Z.eqb_spec c 8).
  { rewrite Hx. destruct (Z.ltb_spec 0 (g_x g)); [|by exists t].
    assert (shows (set_cursor (g_x g - 1) (tty_y t) t) (mkTerm (g_cells g) (g_x g - 1) (g_y g))) as Hs'.
    { destruct Hs as [Hgeo' ? ? ? ? ? ? ?]. split; simpl; try lia; try done. by apply geo_cursor. }
    destruct (Tty_draw_shows _ _ 32 (g_x g - 1) (g_x g - 1) Hs') as (t' & E & Hsh & Ex & Ey & Ec & Er);
      [unfold showable; lia|simpl; lia..|]. simpl in *. rewrite E. exists t'. split; [done|]. split; [|done].
    destruct t'; simpl in *; by subst. }
  assert (showable c) as Hshow by (destruct Hc as [?|[?|?]]; done).
  assert (∃ t1, (if cols t <=? tty_x t then Tty_new_line t else Done t) = Done t1 ∧
    shows t1 (if g_x g <? cols t then g else term_new_line (cols t) (rows t) g) ∧
    cols t1 = cols t ∧ rows t1 = rows t ∧ tty_x t1 < cols t1) as (t1 & -> & Hs1 & Ec1 & Er1 & Hx1).
  { rewrite Hx. destruct (Z.leb_spec (cols t) (g_x g)), (Z.ltb_spec (g_x g) (cols t)); try lia.
    - destruct (Tty_new_line_shows t g Hs) as (t1 & E & Hs1 & Ec & Er). exists t1. split_and!; try done.
      rewrite (sh_x _ _ Hs1), Ec. unfold term_new_line. destruct Hg. by destruct (_ <? _).
    - exists t. split_and!; [done..|]. lia. }
  cbn [mbind outcome_bind]. set (g1 := if g_x g <? cols t then _ else _) in *.
  pose proof (sh_x _ _ Hs1) as Ex1. pose proof (sh_x_range _ _ Hs1). pose proof (geo_small t1 (sh_geo _ _ Hs1)).
  pose proof (cells_fit t1 (sh_geo _ _ Hs1)).
  destruct (Tty_draw_shows t1 g1 c (tty_x t1) (tty_x t1 + 1) Hs1 Hshow) as (t2 & -> & Hs2 & Ex & Ey & Ec & Er); [lia..|].
  cbn [mbind outcome_bind]. rewrite Ex, Ey, (wrap_small 64 (tty_x t1 + 1)) by (split; lia).
  eexists. split; [done|]. rewrite <-Ex1. split; [done|]. simpl. by rewrite Ec, Er.
Qed.

Lemma Tty_write_chars_shows cs t g :
  shows t g → Forall printable cs →
  ∃ t', for_each cs Tty_write_char t = Done t' ∧ shows t' (term_write (cols t) (rows t) cs g) ∧
    cols t' = cols t ∧ rows t' = rows t.
Proof.
  intros Hs Hcs. revert t g Hs. induction Hcs as [|c cs Hc Hcs IH]; intros t g Hs; simpl; [by exists t|].
  destruct (Tty_write_char_shows t g c Hs Hc) as (t1 & -> & Hs1 & Ec & Er). cbn [mbind outcome_bind].
  destruct (IH t1 _ Hs1) as (t2 & -> & Hs2 & Ec2 & Er2). rewrite Ec, Er in *. by exists t2.
Qed.

Lemma init_console_shows base width height pitch :
  8 ≤ width → 16 ≤ height → 4 * width ≤ pitch → zlen base = pitch * height → pitch * height < 2 ^ 62 →
  ∃ t, init_console base width height pitch = Done t ∧
    shows t (term_blank (width `div` 8) (height `div` 16)) ∧
    cols t = width `div` 8 ∧ rows t = height `div` 16.
Proof.
  intros Hw Hh Hp Hl Hb. unfold init_console, Tty_clear, write_zeros. simpl.
  assert (0 < width `div` 8 ∧ 0 < height `div` 16) as [??]
    by (Z.to_euclidean_division_equations; lia).
  assert (0 ≤ pitch * height) by nia. rewrite wrap_small by (split; lia). rewrite copy_into_Done by (rewrite ?zlen_zrep; lia).
  cbn [mbind outcome_bind]. rewrite zsplice_full by (rewrite zlen_zrep; lia).
  eexists. split; [done|]. split; [|done]. unfold FONT_WIDTH, FONT_HEIGHT.
  split; simpl; try lia; try done.
  - split; simpl; try lia; try done. split_and!; try lia. rewrite zlen_zrep; lia.
  - apply zlen_zrep. lia.
  - apply Forall_replicate, zlen_zrep. lia.
  - intros cx cy Hcx Hcy. unfold cell. simpl. rewrite zget_zrep by lia. rewrite zget_zrep by lia.
    exists 32. split; [done|]. split; [unfold showable; lia|]. intros row col Hrow Hcol. simpl.
    rewrite glyph_space by done. unfold pixel. change (to_le 4 0) with (zrep 4 0).
    assert (on_screen width height (cx * 8 + col) (cy * 16 + row)) as Hon.
    { split; Z.to_euclidean_division_equations; lia. }
    destruct (offset_range pitch width height base (cx * 8 + col) (cy * 16 + row)) as (_ & ? & ?); [split_and!; lia|exact Hon|].
    apply zlist_eq. intros i Hi. destruct (decide (i < 4)).
    + rewrite zget_zslice, !zget_zrep by lia. done.
    + rewrite !zget_None; [done| |]; rewrite ?zlen_zslice; rewrite ?zlen_zrep; lia.
Qed.

Lemma Tty_write_char_panics t g c : shows t g → ¬ printable c → Tty_write_char c t = Panic.
Proof.
  intros Hs Hc. unfold Tty_write_char.
  destruct (Z.eqb_spec c 10) as [->|]; [destruct Hc; unfold printable; lia|].
  destruct (Z.eqb_spec c 8) as [->|]; [destruct Hc; unfold printable; lia|].
  assert (∃ t1, (if cols t <=? tty_x t then Tty_new_line t else Done t) = Done t1) as [t1 ->].
  { destruct (_ <=? _); [|by eauto]. destruct (Tty_new_line_shows t g Hs) as (t1 & E & _). by eauto. }
  cbn [mbind outcome_bind]. unfold Tty_draw_char.
  destruct (Z.leb_spec 32 c), (Z.leb_spec c 126); [destruct Hc; left; unfold showable; lia|done..].
Qed.

Lemma Tty_write_chars_panic t g cs : shows t g → ¬ Forall printable cs → for_each cs Tty_write_char t = Panic.
Proof.
  intros Hs Hn. revert t g Hs. induction cs as [|c cs IH]; intros t g Hs; [by destruct Hn|].
  simpl. assert (Decision (printable c)) as [Hc|Hc] by (unfold printable, showable; apply _).
  - destruct (Tty_write_char_shows t g c Hs Hc) as (t1 & -> & Hs1 & _). cbn [mbind outcome_bind].
    apply (IH (λ Hf, Hn (Forall_cons_2 _ _ _ Hc Hf)) t1 _ Hs1).
  - by rewrite (Tty_write_char_panics t g c).
Qed.
End tty.

(* ------------------------------------------------------------------ *)
(** ** The other console: lemmas *)

(** [for (i, x) in l.iter().enumerate()] is a counted loop. *)
Lemma for_each_zenum {A S} (l : list A) (f : Z * A → S → outcome S) s :
  for_each (zenum l) f s = for_each (seqZ 0 (zlen l)) (λ i s, x ← idx l i; f (i, x) s) s.
Proof.
  revert s. induction l as [|x l IH] using rev_ind; intros s; [done|].
  unfold zenum in *. rewrite zlen_app. change (zlen [x]) with 1. pose proof (zlen_nonneg l).
  rewrite seqZ_snoc by lia. rewrite zip_with_app by (unfold zlen; rewrite length_seqZ; lia).
  rewrite !for_each_app, IH. f_equal; [|].
  - f_equal. simpl. rewrite Z.add_0_l.
    assert (idx (l ++ [x]) (zlen l) = Done x) as ->; [|done].
    apply idx_Done. rewrite zget_app_r, Z.sub_diag by lia. done.
  - apply for_each_ext. intros i s' Hi. apply elem_of_seqZ in Hi. unfold idx. by rewrite zget_app_l by lia.
Qed.

(** Bytes stored one by one are stored as a slice. *)
Lemma store_bytes (v : list Z) (off n : Z) (body : Z → list Z → outcome (list Z)) fb :
  zlen v = n → 0 ≤ off → off + n ≤ zlen fb →
  (∀ i fb, 0 ≤ i < n → body i fb = (x ← idx v i; upd fb (off + i) x)) →
  for_each (seqZ 0 n) body fb = Done (zsplice fb off v).
Proof.
  intros Hv Ho Hl Hb. pose proof (zlen_nonneg v).
  destruct (for_range (λ i fb', fb' = zsplice fb off (ztake i v)) n body fb) as (fb' & -> & ->); [lia| | |].
  - symmetry. apply zsplice_nil.
  - intros i fb' Hi ->. destruct (zget_is_Some v i) as [x Hx]; [lia|].
    rewrite Hb, (proj2 (idx_Done v i x) Hx) by done. cbn [mbind outcome_bind].
    assert (zlen (ztake i v) = i) as Hti by (rewrite zlen_ztake; lia).
    rewrite upd_Done by (rewrite zlen_zsplice; lia). eexists. split; [done|].
    rewrite zset_splice by (rewrite zlen_zsplice; lia).
    rewrite zsplice_next; [|lia|lia|rewrite Hti; change (zlen [x]) with 1; lia]. f_equal.
    unfold ztake. replace (Z.to_nat (i + 1)) with (S (Z.to_nat i)) by lia. symmetry. apply take_S_r.
    unfold zget in Hx. by case_match.
  - unfold ztake. rewrite take_ge; [done|]. unfold zlen in Hv. lia.
Qed.

(** The geometry that keeps [FramebufferConsole] inside its framebuffer: no cell is cut off on the right. *)
Record con_ok (f : FramebufferConsole) : Prop := {
  ck_screen : screen_ok (con_pitch f) (con_width f) (con_height f) (framebuffer f);
  ck_width : con_width f `mod` 8 = 0;
  ck_height : 16 ≤ con_height f;
  ck_x : 0 ≤ cursor_x f ∧ cursor_x f * 8 < con_width f;
  ck_y : 0 ≤ cursor_y f < con_height f `div` 16;
}.

Lemma con_small f : con_ok f → con_width f < 2 ^ 60 ∧ con_height f < 2 ^ 60 ∧ 4 ≤ con_pitch f < 2 ^ 60 ∧
  16 * con_pitch f ≤ con_height f * con_pitch f ∧ con_height f * con_pitch f = zlen (framebuffer f).
Proof. intros [(? & ? & ? & -> & ?) ? ? ? ?]. nia. Qed.

Lemma con_draw_char_spec f c :
  con_ok f → ∃ fb, con_draw_char c (cursor_x f) (cursor_y f) f = Done (con_fb fb f) ∧
    screen_ok (con_pitch f) (con_width f) (con_height f) fb.
Proof.
  intros Hf. pose proof (con_small f Hf) as Hsm. destruct Hf as [Hs Hw Hh [Hx0 Hx] Hy].
  assert (cursor_x f * 8 + 8 ≤ con_width f) by (Z.to_euclidean_division_equations; lia).
  assert (cursor_y f * 16 + 16 ≤ con_height f) by (Z.to_euclidean_division_equations; lia).
  unfold con_draw_char. set (g := if _ || _ then 63 - 32 else _).
  assert (0 ≤ g ≤ 95) as Hgr.
  { unfold g. destruct (wrap 8 c <? 32) eqn:?, (127 <? wrap 8 c) eqn:?; simpl; zbool; lia. }
  rewrite slice_Done by (rewrite ?font_len; lia). cbn [mbind outcome_bind].
  set (tail := zslice FONT_8X16 (g * 16) (zlen FONT_8X16)).
  assert (16 ≤ zlen tail) as Htl by (unfold tail; rewrite zlen_zslice; rewrite ?font_len; lia).
  rewrite slice_Done by lia. cbn [mbind outcome_bind]. set (glyph := zslice tail 0 16).
  assert (zlen glyph = 16) as Hgl by (unfold glyph; rewrite zlen_zslice; lia).
  rewrite for_each_zenum, Hgl.
  rewrite (wrap_small 64 (cursor_x f * 8)), (wrap_small 64 (cursor_y f * 16)) by (split; lia).
  set (on row col := negb (Z.land (default 0 (zget glyph row)) (1 ≪ (7 - col)) =? 0)).
  set (px row col := if on row col then [0xFF; 0xFF; 0xFF; 0x00] else [0x00; 0x00; 0x00; 0x00]).
  destruct (draw_cell (con_pitch f) (con_width f) (con_height f) (cursor_x f * 8) (cursor_y f * 16) px
    (λ row fb, bits ← idx glyph row;
      for_each (seqZ 0 8) (λ bit fb,
        for_each (seqZ 0 4) (λ p fb,
          v ← idx (if negb (Z.land bits (1 ≪ (7 - bit)) =? 0)
                   then [0xFF; 0xFF; 0xFF; 0x00] else [0x00; 0x00; 0x00; 0x00]) p;
          upd fb ((cursor_y f * 16 ⊞ row) ⊠ con_pitch f ⊞ (cursor_x f * 8 ⊞ bit) ⊠ 4 ⊞ p) v) fb) fb)
    (λ row bit fb,
        for_each (seqZ 0 4) (λ p fb, v ← idx (px row bit) p;
          upd fb ((cursor_y f * 16 ⊞ row) ⊠ con_pitch f ⊞ (cursor_x f * 8 ⊞ bit) ⊠ 4 ⊞ p) v) fb)
    (framebuffer f)) as (fb & E & Hok & _); [exact Hs|lia..| | | |].
  - intros row col _ _. unfold px. by destruct (on row col).
  - intros row fb Hrow. destruct (zget_is_Some glyph row) as [b Hb]; [lia|]. unfold px, on.
    by rewrite (proj2 (idx_Done glyph row b) Hb), Hb.
  - intros row col fb Hrow Hcol Hok.
    assert (on_screen (con_width f) (con_height f) (cursor_x f * 8 + col) (cursor_y f * 16 + row)) as Hon
      by (split; lia).
    rewrite (offset_wraps _ (con_width f) (con_height f) fb) by (done || lia).
    destruct (offset_range _ _ _ fb _ _ Hok Hon) as (_ & ? & ?). destruct Hok as (_ & _ & _ & ? & ?).
    apply store_bytes; [unfold px; by destruct (on row col)|lia|lia|].
    intros i fb' Hi. by rewrite wrap_small by (split; lia).
  - exists fb. by rewrite E.
Qed.

Lemma scroll_up_spec f :
  screen_ok (con_pitch f) (con_width f) (con_height f) (framebuffer f) → 16 ≤ con_height f →
  ∃ fb, scroll_up f = Done (con_fb fb f) ∧ screen_ok (con_pitch f) (con_width f) (con_height f) fb.
Proof.
  intros Hs Hh. pose proof Hs as (? & ? & ? & Hl & ?). unfold scroll_up. set (p := con_pitch f) in *.
  set (h := con_height f) in *.
  assert (16 * p ≤ h * p) by nia.
  rewrite (wrap_small 64 (16 * p)), (wrap_small 64 (h * p)) by (split; lia).
  rewrite (wrap_small 64 (h * p - 16 * p)) by (split; lia). unfold ptr_copy.
  rewrite slice_Done by lia. cbn [mbind outcome_bind].
  assert (zlen (zslice (framebuffer f) (16 * p) (16 * p + (h * p - 16 * p))) = h * p - 16 * p) as Hz
    by (rewrite zlen_zslice; lia).
  rewrite copy_into_Done by lia. cbn [mbind outcome_bind].
  rewrite (store_bytes (zrep (16 * p) 0) (h * p - 16 * p)); [|rewrite zlen_zrep; lia|lia| |].
  - eexists. split; [done|]. split_and!; try done. by rewrite !zlen_zsplice by (rewrite ?zlen_zsplice, ?zlen_zrep; lia).
  - rewrite zlen_zsplice; lia.
  - intros i fb Hi. unfold idx. rewrite zget_zrep by lia. simpl. by rewrite wrap_small by (split; lia).
Qed.

(** The cursor after a line feed. *)
Lemma scroll_if_needed_ok f y :
  con_ok f → y = cursor_y f + 1 → ∃ f', scroll_if_needed (con_cursor 0 y f) = Done f' ∧ con_ok f'.
Proof.
  intros Hf ->. pose proof (con_small f Hf). destruct Hf as [Hs Hw Hh [Hx0 Hx] Hy]. unfold scroll_if_needed. simpl.
  destruct (Z.leb_spec (con_height f `div` 16) (cursor_y f + 1)).
  - destruct (scroll_up_spec (con_cursor 0 (cursor_y f + 1) f)) as (fb & -> & Hok); [done..|]. simpl in *.
    rewrite wrap_small by (split; Z.to_euclidean_division_equations; lia).
    eexists. split; [done|]. split; simpl; try done; lia.
  - eexists. split; [done|]. split; simpl; try done; lia.
Qed.

Lemma put_char_ok c f : con_ok f → ∃ f', put_char c f = Done f' ∧ con_ok f'.
Proof.
  intros Hf. pose proof (con_small f Hf). pose proof Hf as [Hs Hw Hh [Hx0 Hx] Hy]. unfold put_char.
  assert (con_height f `div` 16 ≤ con_height f) by (Z.to_euclidean_division_equations; lia).
  destruct (Z.eqb_spec c 10).
  { apply scroll_if_needed_ok; [done|]. rewrite wrap_small by (split; lia). done. }
  destruct (Z.eqb_spec c 13); [eexists; split; [done|]; split; simpl; try done; lia|].
  destruct (con_draw_char_spec f c Hf) as (fb & -> & Hok). cbn [mbind outcome_bind]. simpl.
  rewrite (wrap_small 64 (cursor_x f + 1)), (wrap_small 64 ((cursor_x f + 1) * 8)),
    (wrap_small 64 (cursor_y f + 1)) by (split; lia).
  destruct (Z.leb_spec (con_width f) ((cursor_x f + 1) * 8)).
  - apply (scroll_if_needed_ok (con_fb fb f)); [by split|done].
  - eexists. split; [done|]. split; simpl; try done; lia.
Qed.

(* ------------------------------------------------------------------ *)
(** ** The boot picture: lemmas *)

Section picture.
Context (pitch width height : Z).

(** A loop over a range that does not start at zero. *)
Lemma for_from {S} (P : Z → S → Prop) a b (body : Z → S → outcome S) s :
  a ≤ b → P a s → (∀ i s, a ≤ i < b → P i s → ∃ s', body i s = Done s' ∧ P (i + 1) s') →
  ∃ s', for_each (seqZ a (b - a)) body s = Done s' ∧ P b s'.
Proof.
  intros Hab Ha Hstep.
  destruct (for_range (λ i, P (a + i)) (b - a) (λ i, body (a + i)) s) as (s' & E & Hp); [lia| | |].
  - by rewrite Z.add_0_r.
  - intros i s1 Hi Hp. destruct (Hstep (a + i) s1) as (s2 & ? & ?); [lia|done|]. exists s2.
    by rewrite (Z.add_assoc a i 1).
  - exists s'. replace (a + (b - a)) with b in Hp by lia. split; [|done]. rewrite <-E. clear.
    unfold seqZ. induction (seq 0 (Z.to_nat (b - a))) as [|k l IH] in s |- *; simpl; [done|].
    replace (a + (Z.of_nat k + 0)) with (Z.of_nat k + a) by lia. destruct (body _ s); simpl; [apply IH|done].
Qed.

(** One pixel, and a run of them in a scanline. *)
Lemma paint_pixel x y color fb :
  screen_ok pitch width height fb → on_screen width height x y → zlen color = 4 →
  ∃ fb', write_pixel fb (y ⊠ pitch ⊞ x ⊠ 4) color = Done fb' ∧ screen_ok pitch width height fb' ∧
    ∀ x' y', on_screen width height x' y' → pixel pitch fb' x' y' =
      if decide (x' = x ∧ y' = y) then color else pixel pitch fb x' y'.
Proof.
  intros Hok Hon Hc. pose proof (offset_wraps pitch width height fb x y 0 0 Hok) as Hw. rewrite !Z.add_0_r in Hw.
  destruct (offset_range _ _ _ fb x y Hok Hon) as (_ & ? & ?). pose proof Hok as (? & ? & ? & ? & ?).
  assert (y ≤ pitch * height ∧ x ≤ pitch * height) by (destruct Hon; nia).
  rewrite (wrap_small 64 x), (wrap_small 64 y) in Hw by (destruct Hon; split; lia).
  unfold write_pixel. rewrite Hw by (destruct Hon; lia || done). rewrite copy_into_Done by lia. eexists. split; [done|].
  destruct (pixel_store pitch width height fb x y color Hok Hon Hc) as [Hok3 Hp3]. split; [done|].
  intros x' y' Hon'. rewrite Hp3 by done. repeat case_decide; simplify_eq; try done; naive_solver.
Qed.

Lemma paint_row y x0 x1 color fb :
  screen_ok pitch width height fb → 0 ≤ x0 ≤ x1 → x1 ≤ width → 0 ≤ y < height → zlen color = 4 →
  ∃ fb', for_each (seqZ x0 (x1 - x0)) (λ x fb, write_pixel fb (y ⊠ pitch ⊞ x ⊠ 4) color) fb = Done fb' ∧
    screen_ok pitch width height fb' ∧
    ∀ x' y', on_screen width height x' y' → pixel pitch fb' x' y' =
      if decide (x0 ≤ x' < x1 ∧ y' = y) then color else pixel pitch fb x' y'.
Proof.
  intros Hs Hx Hx1 Hy Hc.
  destruct (for_from (λ k fb', screen_ok pitch width height fb' ∧ ∀ x' y', on_screen width height x' y' →
      pixel pitch fb' x' y' = if decide (x0 ≤ x' < k ∧ y' = y) then color else pixel pitch fb x' y') x0 x1
      (λ x fb, write_pixel fb (y ⊠ pitch ⊞ x ⊠ 4) color) fb) as (fb' & E & Hok & Hp); [lia| | |by eauto].
  { split; [done|]. intros x' y' _. case_decide; [lia|done]. }
  intros x fb1 Hxr [Hok1 Hp1]. destruct (paint_pixel x y color fb1 Hok1) as (fb2 & E2 & Hok2 & Hp2); [split; lia|done|].
  exists fb2. split; [done|]. split; [done|]. intros x' y' Hon. rewrite Hp2, Hp1 by done.
  repeat case_decide; try lia; done.
Qed.

(** Painting a rectangle by columns. *)
Lemma paint_rect x0 x1 y0 y1 color fb :
  screen_ok pitch width height fb → 0 ≤ x0 ≤ x1 → x1 ≤ width → 0 ≤ y0 ≤ y1 → y1 ≤ height → zlen color = 4 →
  ∃ fb', for_each (seqZ x0 (x1 - x0)) (λ x fb,
      for_each (seqZ y0 (y1 - y0)) (λ y fb, write_pixel fb (y ⊠ pitch ⊞ x ⊠ 4) color) fb) fb = Done fb' ∧
    screen_ok pitch width height fb' ∧
    ∀ x y, on_screen width height x y → pixel pitch fb' x y =
      if decide (x0 ≤ x < x1 ∧ y0 ≤ y < y1) then color else pixel pitch fb x y.
Proof.
  intros Hs Hx Hx1 Hy Hy1 Hc.
  destruct (for_from (λ k fb', screen_ok pitch width height fb' ∧ ∀ x y, on_screen width height x y →
      pixel pitch fb' x y = if decide (x0 ≤ x < k ∧ y0 ≤ y < y1) then color else pixel pitch fb x y) x0 x1
      (λ x fb, for_each (seqZ y0 (y1 - y0)) (λ y fb, write_pixel fb (y ⊠ pitch ⊞ x ⊠ 4) color) fb) fb)
    as (fb' & E & Hok & Hp); [lia| | |by eauto].
  { split; [done|]. intros x y _. case_decide; [lia|done]. }
  intros x fb1 Hxr [Hok1 Hp1].
  destruct (for_from (λ k fb', screen_ok pitch width height fb' ∧ ∀ x' y, on_screen width height x' y →
      pixel pitch fb' x' y = if decide (x' = x ∧ y0 ≤ y < k) then color else pixel pitch fb1 x' y) y0 y1
      (λ y fb, write_pixel fb (y ⊠ pitch ⊞ x ⊠ 4) color) fb1) as (fb2 & E2 & Hok2 & Hp2); [lia| | |].
  { split; [done|]. intros x' y _. case_decide; [lia|done]. }
  - intros y fb2 Hyr [Hok2 Hp2]. destruct (paint_pixel x y color fb2 Hok2) as (fb3 & E3 & Hok3 & Hp3); [split; lia|done|].
    exists fb3. split; [done|]. split; [done|]. intros x' y' Hon. rewrite Hp3, Hp2 by done.
    repeat case_decide; try lia; done.
  - exists fb2. split; [done|]. split; [done|]. intros x' y' Hon. rewrite Hp2, Hp1 by done.
    repeat case_decide; try lia; done.
Qed.

(** The whole screen is painted. *)
Lemma fill_screen_blue_spec fb :
  screen_ok pitch width height fb →
  ∃ fb', fill_screen_blue width height pitch 32 fb = Done fb' ∧ screen_ok pitch width height fb' ∧
    ∀ x y, on_screen width height x y → pixel pitch fb' x y = [0xFF; 0x00; 0x00; 0x00].
Proof.
  intros Hs. pose proof Hs as (Hw & Hh & _). unfold fill_screen_blue. change (32 `div` 8) with 4.
  destruct (for_range (λ k fb', screen_ok pitch width height fb' ∧ ∀ x y, on_screen width height x y → y < k →
      pixel pitch fb' x y = [0xFF; 0x00; 0x00; 0x00]) height
      (λ y fb, for_each (seqZ 0 width) (λ x fb, write_pixel fb (y ⊠ pitch ⊞ x ⊠ 4) [0xFF; 0x00; 0x00; 0x00]) fb) fb)
    as (fb' & E & Hok & Hp); [lia| | |].
  { split; [done|]. intros x y [_ ?] ?. lia. }
  - intros y fb1 Hy [Hok1 Hp1].
    destruct (paint_row y 0 width [0xFF; 0x00; 0x00; 0x00] fb1) as (fb2 & E2 & Hok2 & Hp2); [done|lia|lia|lia|done|].
    rewrite Z.sub_0_r in E2. exists fb2. split; [done|]. split; [done|]. intros x y' Hon Hlt. rewrite Hp2 by done.
    case_decide; [done|]. apply Hp1; [done|]. destruct Hon. lia.
  - exists fb'. split; [done|]. split; [done|]. intros x y Hon. apply Hp; [done|]. destruct Hon. lia.
Qed.

(** The memory map: the last 40 scanlines are divided into bars of equal width, one for each entry in order (as
    many as fit), in the colour of its kind; nothing else of the picture changes. *)
Lemma draw_memory_map_spec entries fb :
  screen_ok pitch width height fb → 0 < width → 40 ≤ height →
  let n := Z.min width (zlen entries) in
  let bar := width `div` Z.max n 1 in
  ∃ fb', draw_memory_map width height pitch 32 entries fb = Done fb' ∧ screen_ok pitch width height fb' ∧
    ∀ x y, on_screen width height x y → pixel pitch fb' x y =
      match zget entries (x `div` bar) with
      | Some e => if decide (x < n * bar ∧ height - 40 ≤ y) then entry_color e else pixel pitch fb x y
      | None => pixel pitch fb x y
      end.
Proof.
  intros Hs Hw Hh n bar. pose proof Hs as (_ & _ & Hp & _ & Hb). pose proof (zlen_nonneg entries).
  assert (0 < bar) as Hbar by (apply Z.div_str_pos; lia).
  assert (n * bar ≤ width) as Hnb.
  { unfold bar. destruct (decide (n = 0)) as [->|]; [lia|]. rewrite (Z.max_l n 1) by lia.
    apply Z.mul_div_le. lia. }
  unfold draw_memory_map. fold n bar. rewrite for_each_zenum.
  assert (zlen (ztake n entries) = n) as Hn by (rewrite zlen_ztake; lia). rewrite Hn.
  rewrite (wrap_small 64 (height - 40)) by (split; nia). change (32 `div` 8) with 4.
  match goal with |- ∃ _, for_each _ ?b _ = _ ∧ _ => set (body := b) end.
  destruct (for_range (λ i fb', screen_ok pitch width height fb' ∧ ∀ x y, on_screen width height x y →
      pixel pitch fb' x y =
      match zget entries (x `div` bar) with
      | Some e => if decide (x < i * bar ∧ height - 40 ≤ y) then entry_color e else pixel pitch fb x y
      | None => pixel pitch fb x y
      end) n body fb) as (fb' & E & Hok & Hpx); [lia| | |by eauto].
  { split; [done|]. intros x y [??]. case_match; [|done]. case_decide; [lia|done]. }
  intros i fb1 Hi [Hok1 Hpx1]. unfold body. destruct (zget_is_Some entries i) as [e He]; [lia|].
  rewrite (proj2 (idx_Done (ztake n entries) i e)) by (by rewrite zget_ztake by lia). cbn [mbind outcome_bind].
  assert (0 ≤ i * bar ∧ (i + 1) * bar ≤ width ∧ width < 2 ^ 62) as (? & ? & ?) by nia.
  rewrite (wrap_small 64 (i * bar)) by (split; lia).
  replace (i * bar + bar) with ((i + 1) * bar) by lia. rewrite (wrap_small 64 ((i + 1) * bar)) by (split; lia).
  rewrite Z.min_l by lia.
  destruct (paint_rect (i * bar) ((i + 1) * bar) (height - 40) height (entry_color e) fb1) as (fb2 & -> & Hok2 & Hpx2);
    [done|lia..|by destruct e|].
  eexists. split; [done|]. split; [done|]. intros x y Hon. rewrite Hpx2, Hpx1 by done. pose proof Hon as [[??] ?].
  case_decide as E1.
  - replace (x `div` bar) with i by (apply Z.div_unique with (x - i * bar); lia). rewrite He. by rewrite decide_True by lia.
  - destruct (zget entries (x `div` bar)); [|done]. repeat case_decide; try done; lia.
Qed.
End picture.

(** [FramebufferConsole] accepts every text: on a screen whose width is a whole number of cells it never
    indexes the font out of range, never touches a byte outside the framebuffer, and its cursor stays on the
    screen. *)
Theorem console_write_safe f s :
  con_ok f → ∃ f', write_string s f = Done f' ∧ con_ok f'.
Proof. intros Hf. apply for_each_total; [|done]. intros c f1 _. apply put_char_ok. Qed.

Lemma console_write_safe_witness :
  ∃ f', write_string [9; 65; 195; 169; 10] (FramebufferConsole_new (zrep 512 7) 8 16 32) = Done f' ∧ con_ok f'.
Proof.
  apply (console_write_safe (FramebufferConsole_new (zrep 512 7) 8 16 32) [9; 65; 195; 169; 10]).
  split; simpl; try done; try lia.
Defined.

(** The two consoles index the font differently: what one draws for an ['A'] the other draws for a ['!']. *)
Example console_font_shifted :
  framebuffer <$> con_draw_char 65 0 0 (FramebufferConsole_new (zrep 512 0) 8 16 32) =
  fb_base <$> Tty_draw_char 0 0 33 (mkTty (zrep 512 0) 8 16 32 1 1 0 0 0xFFFFFF 0).
Proof. vm_compute. reflexivity. Qed.

(** A last column cut off by the edge of the screen is drawn past the end of the framebuffer. *)
Example console_cut_column : write_string [65; 66] (FramebufferConsole_new (zrep 768 0) 12 16 48) = Panic.
Proof. vm_compute. reflexivity. Qed.

(** C11: the kernel terminal is a terminal: on every framebuffer with room for a cell, after [init_console] and
    any text of printable ASCII, newlines and backspaces, no byte outside the framebuffer has been touched, and
    the pixels of every cell are the glyph of the character that a grid of cells with wrapping lines, erasing
    backspace and scrolling holds there; the cursor is where the grid's is. *)
Theorem tty_refines_terminal base width height pitch :
  8 ≤ width → 16 ≤ height → 4 * width ≤ pitch → zlen base = pitch * height → pitch * height < 2 ^ 62 →
  ∃ t0, init_console base width height pitch = Done t0 ∧
    ∀ s, Forall printable (chars s) →
    ∃ t, Tty_write_str s t0 = Done t ∧
      shows t (term_write (width `div` 8) (height `div` 16) (chars s)
                 (term_blank (width `div` 8) (height `div` 16))).
Proof.
  intros. destruct (init_console_shows base width height pitch) as (t0 & E & Hs & Ec & Er); [done..|].
  exists t0. split; [done|]. intros s Hp.
  destruct (Tty_write_chars_shows (chars s) t0 _ Hs Hp) as (t & Et & Hs' & _). rewrite Ec, Er in Hs'. by exists t.
Qed.

Lemma tty_refines_terminal_witness :
  ∃ t0, init_console (zrep 1024 7) 16 16 64 = Done t0 ∧
    ∃ t, Tty_write_str [104; 105; 10; 33; 8] t0 = Done t ∧
      shows t (mkTerm [[32; 32]] 0 0).
Proof.
  destruct (tty_refines_terminal (zrep 1024 7) 16 16 64) as (t0 & E & Hw); [lia..|done|lia|].
  exists t0. split; [exact E|]. apply (Hw [104; 105; 10; 33; 8]).
  repeat constructor; unfold printable, showable; lia.
Defined.

(** Any other character, a tab, a carriage return or a letter outside ASCII, indexes the font past its end:
    printing a text with one of them panics, wherever it stands in the text. *)
Theorem tty_other_chars_panic t g s :
  shows t g → ¬ Forall printable (chars s) → Tty_write_str s t = Panic.
Proof.
  apply Tty_write_chars_panic.
Qed.

Lemma tty_other_chars_panic_witness :
  ∃ t, init_console (zrep 1024 0) 16 16 64 = Done t ∧ Tty_write_str [104; 9] t = Panic.
Proof.
  destruct (init_console_shows (zrep 1024 0) 16 16 64) as (t & E & Hs & _); [lia..|done|lia|].
  exists t. split; [exact E|]. apply (tty_other_chars_panic t _ [104; 9] Hs).
  intros Hf. apply Forall_cons in Hf as [_ Hf]. apply Forall_cons in Hf as [Hc _]. unfold printable, showable in Hc. lia.
Defined.
