(* ===== verification/Serial.v ===== *)
(** * The serial port (hal/src/serial.rs)

    The driver of COM1.  The UART is hardware: a type [U] with the port reads
    and writes of hal/src/io.rs, and the class [Uart16550] stating what a 16550
    documents of the registers the driver uses.  [Once<Mutex<SerialPort>>] is
    an option: nothing is printed before [init_serial].

    Shown here: after [init_serial] the line runs at 115200 baud with 8N1
    frames, and whatever is printed, in however many pieces, appears on the
    line byte by byte in order, the driver waiting for the transmitter before
    every byte. *)

From S2P Require Import Prelude Vfs.

Definition COM1 : Z := 0x3F8.
Definition DATA_REG : Z := 0.
Definition INT_EN_REG : Z := 1.
Definition FIFO_REG : Z := 2.
Definition LINE_CTRL_REG : Z := 3.
Definition MODEM_CTRL_REG : Z := 4.
Definition LINE_STATUS_REG : Z := 5.

(** [inb] and [outb] (hal/src/io.rs): the [in] and [out] instructions. *)
Class Ports (U : Type) := {
  inb : Z → U → Z * U;
  outb : Z → Z → U → U;
}.

Section serial.
Context {U : Type} `{Ports U}.

Record SerialPort := mkSerialPort { sp_base : Z }.

Definition SerialPort_init (p : SerialPort) (u : U) : U :=
  let u := outb (sp_base p + INT_EN_REG) 0x00 u in
  let u := outb (sp_base p + LINE_CTRL_REG) 0x80 u in
  let u := outb (sp_base p + DATA_REG) 0x01 u in
  let u := outb (sp_base p + INT_EN_REG) 0x0 u in
  let u := outb (sp_base p + LINE_CTRL_REG) 0x3 u in
  let u := outb (sp_base p + FIFO_REG) 0xC7 u in
  outb (sp_base p + MODEM_CTRL_REG) 0x0B u.

Definition SerialPort_new (u : U) : SerialPort * U :=
  let port := mkSerialPort COM1 in (port, SerialPort_init port u).

Definition is_data_ready (p : SerialPort) (u : U) : bool * U :=
  let '(v, u) := inb (sp_base p + LINE_STATUS_REG) u in (negb (Z.land v 0x01 =? 0), u).

Definition read_byte (p : SerialPort) (u : U) : Z * U := inb (sp_base p + DATA_REG) u.

Definition is_transmit_empty (p : SerialPort) (u : U) : bool * U :=
  let '(v, u) := inb (sp_base p + LINE_STATUS_REG) u in (negb (Z.land v 0x20 =? 0), u).

(** One turn of the loop that waits for the transmitter. *)
Definition transmit_turn (p : SerialPort) (u : U) : outcome (U + U) :=
  let '(empty, u) := is_transmit_empty p u in Done (if empty then inr u else inl u).

Definition write_byte (p : SerialPort) (byte : Z) (u : U) : outcome U :=
  u ← loop_end SPIN_TURNS (transmit_turn p) u;
  Done (outb (sp_base p + DATA_REG) byte u).

Definition serial_write_str (p : SerialPort) (s : str) (u : U) : outcome U := for_each s (write_byte p) u.

(** [SERIAL_PORT] and the UART behind it. *)
Record serial := mkSerial {
  SERIAL_PORT : option SerialPort;
  uart : U;
}.

Definition init_serial (s : serial) : serial :=
  match SERIAL_PORT s with
  | Some _ => s
  | None => let '(p, u) := SerialPort_new (uart s) in mkSerial (Some p) u
  end.

Definition serial_print (text : str) (s : serial) : outcome serial :=
  match SERIAL_PORT s with
  | Some p => u ← serial_write_str p text (uart s); Done (mkSerial (Some p) u)
  | None => Done s
  end.

Definition serial_read_byte (s : serial) : option Z * serial :=
  match SERIAL_PORT s with
  | Some p =>
      let '(ready, u) := is_data_ready p (uart s) in
      if ready then let '(b, u) := read_byte p u in (Some b, mkSerial (Some p) u)
      else (None, mkSerial (Some p) u)
  | None => (None, s)
  end.
End serial.
Arguments serial U : clear implicits.

(* ------------------------------------------------------------------ *)
(** ** The UART *)

(** What the driver relies on of a 16550 at [COM1]: the divisor latch bit of
    the line control register selects what the first two registers are; a byte
    put in the data register when the transmitter is empty goes out on the
    line; a transmitter that is busy empties after finitely many polls; and
    the other registers do not send. *)
Class Uart16550 (U : Type) `{Ports U} := {
  line : U → list Z;
  rxq : U → list Z;
  lcr : U → Z;
  dll : U → Z;
  dlm : U → Z;
  busy : U → nat;
  lsr_ready : ∀ u, Z.land (inb (COM1 + LINE_STATUS_REG) u).1 0x20 ≠ 0 ↔ busy u = 0%nat;
  lsr_data : ∀ u, Z.land (inb (COM1 + LINE_STATUS_REG) u).1 0x01 ≠ 0 ↔ rxq u ≠ [];
  lsr_poll : ∀ u, let u' := (inb (COM1 + LINE_STATUS_REG) u).2 in
    line u' = line u ∧ rxq u' = rxq u ∧ lcr u' = lcr u ∧ dll u' = dll u ∧ dlm u' = dlm u ∧ busy u' = Nat.pred (busy u);
  data_in : ∀ u b q, Z.testbit (lcr u) 7 = false → rxq u = b :: q →
    let '(v, u') := inb (COM1 + DATA_REG) u in v = b ∧ rxq u' = q ∧ line u' = line u ∧ lcr u' = lcr u;
  data_out : ∀ u b, Z.testbit (lcr u) 7 = false → busy u = 0%nat →
    let u' := outb (COM1 + DATA_REG) b u in
    line u' = line u ++ [b] ∧ rxq u' = rxq u ∧ lcr u' = lcr u ∧ dll u' = dll u ∧ dlm u' = dlm u ∧
    Z.of_nat (busy u') < 2 ^ 64;
  divisor_out : ∀ u b, Z.testbit (lcr u) 7 = true →
    (let u' := outb (COM1 + DATA_REG) b u in
     line u' = line u ∧ lcr u' = lcr u ∧ dll u' = b ∧ dlm u' = dlm u ∧ busy u' = busy u) ∧
    (let u' := outb (COM1 + INT_EN_REG) b u in
     line u' = line u ∧ lcr u' = lcr u ∧ dll u' = dll u ∧ dlm u' = b ∧ busy u' = busy u);
  lcr_out : ∀ u b, let u' := outb (COM1 + LINE_CTRL_REG) b u in
    line u' = line u ∧ lcr u' = b ∧ dll u' = dll u ∧ dlm u' = dlm u ∧ busy u' = busy u;
  int_out : ∀ u b, Z.testbit (lcr u) 7 = false →
    let u' := outb (COM1 + INT_EN_REG) b u in
    line u' = line u ∧ lcr u' = lcr u ∧ dll u' = dll u ∧ dlm u' = dlm u ∧ busy u' = busy u;
  other_out : ∀ u b r, r = FIFO_REG ∨ r = MODEM_CTRL_REG →
    let u' := outb (COM1 + r) b u in
    line u' = line u ∧ lcr u' = lcr u ∧ dll u' = dll u ∧ dlm u' = dlm u ∧ (busy u' ≤ busy u)%nat;
}.

Section laws.
Context {U : Type} `{Uart16550 U}.
Implicit Types (u : U).

(** Ready to send with [write_byte]. *)
Definition sends (u : U) : Prop := Z.testbit (lcr u) 7 = false ∧ Z.of_nat (busy u) < 2 ^ 64.

(** The line settings: 115200 baud is the divisor 1, 8N1 the line control 3. *)
Definition settings (u : U) : Z * Z * Z := (dll u, dlm u, lcr u).

Lemma wait_empty n u :
  busy u = n →
  ∃ u', turns (S n) (transmit_turn (mkSerialPort COM1)) u = Done (inr u') ∧
    line u' = line u ∧ settings u' = settings u ∧ busy u' = 0%nat.
Proof.
  revert u. induction n as [|n IH]; intros u Hn;
    destruct (lsr_poll u) as (El & _ & Ec & E1 & E2 & Hb); pose proof (lsr_ready u) as Hr.
  - simpl. unfold transmit_turn, is_transmit_empty. simpl. destruct (inb _ u) as [v u']. simpl in *. exists u'.
    rewrite (proj2 (Z.eqb_neq _ _)) by (by apply Hr). simpl. unfold settings. rewrite Hn in Hb. by rewrite El, Ec, E1, E2.
  - change (turns (S (S n)) ?f u) with (r ← f u; match r with inl s => turns (S n) f s | inr r => Done (inr r) end).
    assert (transmit_turn (mkSerialPort COM1) u = Done (inl (inb (COM1 + LINE_STATUS_REG) u).2)) as ->.
    { unfold transmit_turn, is_transmit_empty. simpl sp_base. destruct (inb _ u) as [v u']. simpl in *.
      destruct (Z.eqb_spec (Z.land v 0x20) 0) as [E0|Hne]; [done|]. apply Hr in Hne. lia. }
    cbn [mbind outcome_bind]. set (u' := (inb _ u).2) in *.
    destruct (IH u') as (u2 & -> & E3 & E4 & E5); [rewrite Hb, Hn; done|].
    exists u2. split; [done|]. unfold settings in *. split_and!; congruence.
Qed.

Lemma write_byte_spec b u :
  sends u → ∃ u', write_byte (mkSerialPort COM1) b u = Done u' ∧ sends u' ∧
    line u' = line u ++ [b] ∧ settings u' = settings u.
Proof.
  intros [Hl Hb]. unfold write_byte. destruct (wait_empty (busy u) u eq_refl) as (u1 & E & El & Es & Eb).
  unfold settings in Es. simplify_eq.
  rewrite (loop_end_turns _ _ _ _ _ E); [|unfold SPIN_TURNS; lia]. cbn [mbind outcome_bind].
  eexists. split; [done|]. destruct (data_out u1 b) as (E1 & _ & E3 & E4 & E5 & E6); [congruence|done|].
  unfold sends, settings. cbn [sp_base]. split_and!; congruence.
Qed.

Lemma write_str_spec s u :
  sends u → ∃ u', serial_write_str (mkSerialPort COM1) s u = Done u' ∧ sends u' ∧
    line u' = line u ++ s ∧ settings u' = settings u.
Proof.
  revert u. induction s as [|b s IH]; intros u Hu.
  - exists u. by rewrite app_nil_r.
  - unfold serial_write_str in *. cbn [for_each]. destruct (write_byte_spec b u Hu) as (u1 & -> & Hu1 & E1 & E2).
    cbn [mbind outcome_bind]. destruct (IH u1 Hu1) as (u2 & -> & Hu2 & E4 & E5). exists u2.
    split; [done|]. split; [done|]. by rewrite E4, E5, E1, E2, <-app_assoc.
Qed.

(** A serial port that prints. *)
Definition printing (s : serial U) : Prop := SERIAL_PORT s = Some (mkSerialPort COM1) ∧ sends (uart s).

Lemma serial_print_spec text s :
  printing s → ∃ s', serial_print text s = Done s' ∧ printing s' ∧
    line (uart s') = line (uart s) ++ text ∧ settings (uart s') = settings (uart s).
Proof.
  intros [Hp Hu]. unfold serial_print. rewrite Hp. destruct (write_str_spec text _ Hu) as (u' & -> & Hu' & E).
  eexists. split; [done|]. by split.
Qed.

Lemma init_serial_spec u :
  sends u →
  let s := init_serial (mkSerial None u) in
  printing s ∧ line (uart s) = line u ∧ settings (uart s) = (1, 0, 3).
Proof.
  intros [Hl Hbusy]. unfold init_serial. simpl. unfold SerialPort_init. simpl.
  destruct (int_out u 0 Hl) as (A1 & A2 & A3 & A4 & A5). set (u1 := outb (COM1 + INT_EN_REG) 0 u) in *.
  destruct (lcr_out u1 0x80) as (B1 & B2 & B3 & B4 & B5). set (u2 := outb _ 0x80 u1) in *.
  destruct (proj1 (divisor_out u2 1 ltac:(rewrite B2; done))) as (C1 & C2 & C3 & C4 & C5).
  set (u3 := outb _ 1 u2) in *.
  destruct (proj2 (divisor_out u3 0 ltac:(rewrite C2, B2; done))) as (D1 & D2 & D3 & D4 & D5).
  set (u4 := outb _ 0 u3) in *.
  destruct (lcr_out u4 3) as (E1 & E2 & E3 & E4 & E5). set (u5 := outb _ 3 u4) in *.
  destruct (other_out u5 0xC7 FIFO_REG (or_introl eq_refl)) as (F1 & F2 & F3 & F4 & F5). set (u6 := outb _ 0xC7 u5) in *.
  destruct (other_out u6 0x0B MODEM_CTRL_REG (or_intror eq_refl)) as (G1 & G2 & G3 & G4 & G5).
  set (u7 := outb _ 0x0B u6) in *.
  assert (lcr u7 = 3) as Hlcr by congruence. unfold printing, sends, settings. simpl. rewrite Hlcr.
  split_and!; [done|done|lia|congruence|]. do 2 f_equal; congruence.
Qed.
End laws.

(* ------------------------------------------------------------------ *)
(** ** A UART *)

(** A 16550 that needs [tx_delay] polls for a byte. *)
Record uart_model := mkUart {
  um_line : list Z; um_rx : list Z; um_lcr : Z; um_dll : Z; um_dlm : Z; um_busy : nat;
}.

#[global] Instance uart_model_ports : Ports uart_model := {
  inb port u :=
    if port =? COM1 + LINE_STATUS_REG then
      ((if um_busy u is O then 0x20 else 0) + (if um_rx u is [] then 0 else 1),
       mkUart (um_line u) (um_rx u) (um_lcr u) (um_dll u) (um_dlm u) (Nat.pred (um_busy u)))
    else if port =? COM1 + DATA_REG then
      match um_rx u with
      | b :: q => (b, mkUart (um_line u) q (um_lcr u) (um_dll u) (um_dlm u) (um_busy u))
      | [] => (0, u)
      end
    else (0, u);
  outb port b u :=
    if port =? COM1 + DATA_REG then
      if Z.testbit (um_lcr u) 7 then mkUart (um_line u) (um_rx u) (um_lcr u) b (um_dlm u) (um_busy u)
      else mkUart (um_line u ++ [b]) (um_rx u) (um_lcr u) (um_dll u) (um_dlm u) 3
    else if (port =? COM1 + INT_EN_REG) && Z.testbit (um_lcr u) 7 then
      mkUart (um_line u) (um_rx u) (um_lcr u) (um_dll u) b (um_busy u)
    else if port =? COM1 + LINE_CTRL_REG then
      mkUart (um_line u) (um_rx u) b (um_dll u) (um_dlm u) (um_busy u)
    else if port =? COM1 + FIFO_REG then
      mkUart (um_line u) (um_rx u) (um_lcr u) (um_dll u) (um_dlm u) 0
    else u;
}.

#[global, refine] Instance uart_model_16550 : Uart16550 uart_model := {
  line := um_line; rxq := um_rx; lcr := um_lcr; dll := um_dll; dlm := um_dlm; busy := um_busy;
}.
Proof.
  - intros [l q c a b [|n]]; simpl; destruct q; simpl; split; by intros.
  - intros [l q c a b [|n]]; simpl; destruct q; simpl; split; by intros.
  - by intros [l q c a b n].
  - intros [l q c a d n] b q' Hl Hq. simpl in *. by subst.
  - intros [l q c a d n] b Hl Hb. cbn in *. by rewrite Hl.
  - intros [l q c a d n] b Hl. cbn in *. by rewrite Hl.
  - intros [l q c a d n] b. cbn. by destruct (Z.testbit c 7).
  - intros [l q c a d n] b Hl. cbn in *. by rewrite Hl.
  - intros [l q c a d n] b r [-> | ->]; cbv [outb uart_model_ports]; simpl; split_and!; try done; simpl; lia.
Defined.

(** After [init_serial] the line is set to 115200 baud, 8N1, and what is printed appears on it exactly: the
    bytes of every text, in order, none dropped because the transmitter was still busy. *)
Theorem serial_prints {U : Type} `{Uart16550 U} (u : U) (texts : list str) :
  sends u →
  ∃ s, for_each texts serial_print (init_serial (mkSerial None u)) = Done s ∧
    line (uart s) = line u ++ concat texts ∧ settings (uart s) = (1, 0, 3).
Proof.
  intros Hu. destruct (init_serial_spec u Hu) as (Hp & El & Es). cbv zeta in *. rewrite <-El.
  revert Es Hp. generalize (init_serial (mkSerial None u)) as s. clear El Hu u.
  induction texts as [|text texts IH]; intros s Es Hp.
  - exists s. by rewrite app_nil_r.
  - cbn [for_each]. destruct (serial_print_spec text s Hp) as (s1 & -> & Hp1 & E1 & E2). cbn [mbind outcome_bind].
    destruct (IH s1) as (s2 & -> & E3 & E4); [by rewrite E2|done|]. exists s2. split; [done|].
    rewrite E3, E1, <-app_assoc. done.
Qed.

Lemma serial_prints_witness :
  ∃ s, for_each [[72; 105]; [10]] serial_print (init_serial (mkSerial None (mkUart [] [] 0 12 0 5))) = Done s ∧
    line (uart s) = [72; 105; 10] ∧ settings (uart s) = (1, 0, 3).
Proof.
  destruct (serial_prints (mkUart [] [] 0 12 0 5) [[72; 105]; [10]]) as (s & E & El & Es); [by split|].
  exists s. exact (conj E (conj El Es)).
Defined.
