(* ===== verification/Syscall.v ===== *)
(** * System calls (kernel/src/syscall.rs)

    [syscall_dispatcher] over the whole kernel state: scheduler, descriptors,
    nodes, IPC ports, the async executor, address spaces and the user memory
    of the caller.  A call returns a value, blocks, or never returns; a blocked
    call has given up the CPU inside its loop and [resume]s there when its task
    is next scheduled.

    User memory is a total function from addresses to bytes: the pages the
    caller passes are mapped.  (The code checks the range of an address, not
    that it is mapped; an unmapped one faults in the kernel, which halts.)

    Shown here: the address check; that no system call writes user memory
    outside the buffer it was given, nor any above the user half; error codes
    leave the descriptors alone; directory listing as a byte format that reads
    back to the entries; write, seek and read through descriptors. *)

From S2P Require Import Prelude Pipe Task Ipc Vfs RamFs Fd Memory Loader Process Executor.

(* ------------------------------------------------------------------ *)
(** ** Numbers *)

Definition SYS_EXIT : Z := 0.
Definition SYS_YIELD : Z := 1.
Definition SYS_GETPID : Z := 2.
Definition SYS_GETPPID : Z := 3.
Definition SYS_SPAWN : Z := 4.
Definition SYS_WAIT : Z := 5.
Definition SYS_OPEN : Z := 10.
Definition SYS_CLOSE : Z := 11.
Definition SYS_READ : Z := 12.
Definition SYS_WRITE : Z := 13.
Definition SYS_SEEK : Z := 14.
Definition SYS_DUP : Z := 15.
Definition SYS_DUP2 : Z := 16.
Definition SYS_PIPE : Z := 17.
Definition SYS_GETDENTS : Z := 18.
Definition SYS_MKDIR : Z := 20.
Definition SYS_UNLINK : Z := 21.
Definition SYS_SEND : Z := 30.
Definition SYS_RECV : Z := 31.
Definition SYS_RECV_BLOCK : Z := 32.

Definition ERRNO_EBADF : Z := U64_MAX - 8.
Definition ERRNO_ECHILD : Z := U64_MAX - 9.
Definition ERRNO_EAGAIN : Z := U64_MAX - 11.
Definition ERRNO_ENOMEM : Z := U64_MAX - 11.
Definition ERRNO_EFAULT : Z := U64_MAX - 13.
Definition ERRNO_ENOENT : Z := U64_MAX - 2.
Definition ERRNO_EINVAL : Z := U64_MAX - 21.
Definition ERRNO_ENOTDIR : Z := U64_MAX - 19.
Definition ERRNO_EPIPE : Z := U64_MAX - 31.

Definition USER_SPACE_START : Z := 0.
Definition USER_SPACE_END : Z := 0x800000000000.

Definition is_user_accessible (ptr len : Z) : bool :=
  let end_addr := saturating_add64 ptr len in
  (USER_SPACE_START <=? ptr) && (end_addr <=? USER_SPACE_END) && (ptr <? end_addr) && negb (ptr =? 0).

(** [as i32] and [as i64]. *)
Definition as_signed (w x : Z) : Z := let y := wrap w x in if y <? 2 ^ (w - 1) then y else y - 2 ^ w.

(* ------------------------------------------------------------------ *)
(** ** User memory *)

Definition umem : Type := Z → Z.

(** [slice::from_raw_parts] and the effect of writing through such a slice. *)
Definition mem_read (ptr len : Z) (m : umem) : list Z := map m (seqZ ptr len).
Definition mem_write (ptr : Z) (bytes : list Z) (m : umem) : umem :=
  λ a, match zget bytes (a - ptr) with Some v => v | None => m a end.

(* ------------------------------------------------------------------ *)
(** ** Paths *)

Definition parent_and_name (path : str) : str * str :=
  match rfind_slash path with
  | Some ([], name) => ([SLASH], name)
  | Some (pre, name) => (pre, name)
  | None => ([SLASH], path)
  end.

(* ------------------------------------------------------------------ *)
(** ** Directory entries *)

(** One record of [getdents]: a slot filled with zeros, then its fields. *)
Definition dirent64 (index : Z) (name : str) (ft : FileType) : outcome (list Z) :=
  let base := 19 + zlen name in
  let reclen := align_up 3 base in
  let d_type := match ft with Directory => 4 | _ => 8 end in
  let slot := zrep reclen 0 in
  slot ← copy_into slot 0 8 (to_le 8 (index ⊞ 1));
  slot ← copy_into slot 8 16 (to_le 8 (index ⊞ 1));
  slot ← copy_into slot 16 18 (to_le 2 (wrap 16 reclen));
  slot ← upd slot 18 d_type;
  copy_into slot 19 (19 + zlen name) name.

(** [while index < entries.len()], on the entries from [index] on. *)
Fixpoint getdents_loop (es : list (str * FileType)) (index written : Z) (buf : list Z)
    : outcome (Z * Z * list Z) :=
  match es with
  | [] => Done (index, written, buf)
  | (name, ft) :: es =>
      let reclen := align_up 3 (19 + zlen name) in
      if zlen buf <? written + reclen then Done (index, written, buf)
      else
        slot ← dirent64 index name ft;
        buf ← copy_into buf written (written + reclen) slot;
        getdents_loop es (index + 1) (written + reclen) buf
  end.

(* ------------------------------------------------------------------ *)
(** ** The kernel's state *)

(** Whether a read returns now, puts the task to sleep (an empty pipe), or
    polls with interrupts enabled (no key pressed). *)
Inductive read_wait := ReadReady | ReadSleeps | ReadSpins.

(** What the nodes need of the kernel, beyond the VFS trait: a read may wait,
    asleep on a list of tasks; operations wake tasks; the last descriptor of a
    node drops it; [create_pipe] makes two nodes. *)
Class KernelNodes (N S : Type) `{INode N S} := {
  node_eq_dec :: EqDecision N;
  read_waits : N → S → read_wait;
  add_reader : loc → N → S → S;
  node_drop : N → S → S;
  take_woken : S → list loc * S;
  pipe_new : S → N * N * S;
}.

(** [k_mem] is the user memory that the address space of the running task
    shows.  Address spaces are not indexed by task: a theorem about several
    tasks puts an arbitrary memory in this field where another task runs. *)
Record kernel (PT N S F : Type) := mkKernel {
  k_sys : proc_sys PT N S;
  k_ipc : IpcSpace;
  k_exec : option (Executor F);
  k_mem : umem;
}.
Arguments mkKernel {PT N S F} _ _ _ _.
Arguments k_sys {PT N S F} _.
Arguments k_ipc {PT N S F} _.
Arguments k_exec {PT N S F} _.
Arguments k_mem {PT N S F} _.

(** Where a blocked call goes on. *)
Inductive pending :=
  | PendRead (file : loc) (ptr len : Z)
  | PendWait (pid status_ptr : Z)
  | PendRecv (port : loc) (out_ptr : Z).

Inductive sysret := Ret (rax : Z) | Blocks (p : pending) | NoReturn.

Section dispatcher.
Context {PT : Type} `{Mapper PT}.
Context {N S : Type} `{KernelNodes N S}.
Context {F : Type}.
Context (VirtAddr_new : Z → outcome Z) (heap_fits : Z → bool).
Context (create_mapper : Z → gmap Z (list Z) → PT) (user_entry_trampoline : Z).
Context (mounts : list (MountEntry N)) (stdin stdout stderr : N).

Notation kern := (kernel PT N S F).
Implicit Types (k : kern).

Definition k_store k : S := ps_store (k_sys k).
Definition k_fds k : fds N := ps_fds (k_sys k).
Definition k_sched k : sched := ps_sched (k_sys k).

Definition set_sys (p : proc_sys PT N S) k : kern := mkKernel p (k_ipc k) (k_exec k) (k_mem k).
Definition set_ipc (i : IpcSpace) k : kern := mkKernel (k_sys k) i (k_exec k) (k_mem k).
Definition set_exec (e : option (Executor F)) k : kern := mkKernel (k_sys k) (k_ipc k) e (k_mem k).
Definition set_mem (m : umem) k : kern := mkKernel (k_sys k) (k_ipc k) (k_exec k) m.
Definition set_store (s : S) k : kern :=
  let p := k_sys k in
  set_sys (mkProcSys s (ps_fds p) (ps_sched p) (ps_page_alloc p) (ps_tables p) (ps_phys p) (ps_spaces p)
             (ps_kstack p)) k.
Definition set_fds (f : fds N) k : kern :=
  let p := k_sys k in
  set_sys (mkProcSys (ps_store p) f (ps_sched p) (ps_page_alloc p) (ps_tables p) (ps_phys p) (ps_spaces p)
             (ps_kstack p)) k.
Definition set_sched (sc : sched) k : kern :=
  let p := k_sys k in
  set_sys (mkProcSys (ps_store p) (ps_fds p) sc (ps_page_alloc p) (ps_tables p) (ps_phys p) (ps_spaces p)
             (ps_kstack p)) k.

(** The tasks the last operation on nodes has woken. *)
Definition settle k : outcome kern :=
  let '(woken, s) := take_woken (k_store k) in
  sc ← for_each woken wake_task (k_sched k);
  Done (set_sched sc (set_store s k)).

(** The nodes descriptors refer to. *)
Definition live (f : fds N) : list N :=
  omap (λ e : Z * Z * loc, match fd_files f !! e.2 with Some o => Some (of_inode o) | None => None end)
       (map_to_list (fd_table f)).

(** New descriptors; the nodes that only the old ones referred to are dropped. *)
Definition release (f : fds N) k : outcome kern :=
  let gone := filter (λ n, n ∉ live f) (remove_dups (live (k_fds k))) in
  settle (set_store (foldr node_drop (k_store k) gone) (set_fds f k)).

Definition ret (rax : Z) k : outcome (sysret * kern) := Done (Ret rax, k).

(* ------------------------------------------------------------------ *)
(** ** Files *)

(** The part of SYS_READ that a blocked reader repeats.  The code holds the lock
    of the file's offset while the reader sleeps; only descriptors of the same
    task share an [OpenFile] ([clone_for_task] makes new ones), and that task
    runs no other call meanwhile, so the offset read after waking is the one
    read before. *)
Definition read_turn (l : loc) (ptr len : Z) k : outcome (sysret * kern) :=
  file ← unwrap (fd_files (k_fds k) !! l);
  match read_waits (of_inode file) (k_store k) with
  | ReadSleeps =>
      cur ← current_task_arc (k_sched k);
      let s := match cur with
               | Some t => add_reader t (of_inode file) (k_store k)
               | None => k_store k
               end in
      sc ← block_current_and_switch (k_sched k);
      Done (Blocks (PendRead l ptr len), set_sched sc (set_store s k))
  | ReadSpins => Done (Blocks (PendRead l ptr len), k)
  | ReadReady =>
      let off := of_offset file in
      '(n, buf, s) ← inode_read (of_inode file) off (mem_read ptr len (k_mem k)) (k_store k);
      k ← settle (set_store s (set_mem (mem_write ptr buf (k_mem k)) k));
      ret n (set_fds (set_offset l (off ⊞ n) (k_fds k)) k)
  end.

Definition sys_read (fd ptr len : Z) k : outcome (sysret * kern) :=
  if len =? 0 then ret 0 k
  else if negb (is_user_accessible ptr len) then ret ERRNO_EFAULT k
  else
    match get (current_task_id (k_sched k)) fd (k_fds k) with
    | Some l => read_turn l ptr len k
    | None => ret ERRNO_EBADF k
    end.

Definition sys_write (fd ptr len : Z) k : outcome (sysret * kern) :=
  if negb (is_user_accessible ptr len) then ret ERRNO_EFAULT k
  else
    match get (current_task_id (k_sched k)) fd (k_fds k) with
    | Some l =>
        file ← unwrap (fd_files (k_fds k) !! l);
        let off := of_offset file in
        '(n, s) ← inode_write (of_inode file) off (mem_read ptr len (k_mem k)) (k_store k);
        k ← settle (set_store s k);
        ret n (set_fds (set_offset l (off ⊞ n) (k_fds k)) k)
    | None => ret ERRNO_EBADF k
    end.

(** [from_raw_parts] and [from_utf8] of a path argument, then the call. *)
Definition with_path (ptr len : Z) k (body : str → outcome (sysret * kern)) : outcome (sysret * kern) :=
  if negb (is_user_accessible ptr len) then ret ERRNO_EFAULT k
  else
    let path := mem_read ptr len (k_mem k) in
    if utf8_valid path then body path else ret ERRNO_EINVAL k.

Definition sys_open (ptr len : Z) k : outcome (sysret * kern) :=
  with_path ptr len k (λ path,
    '(o, f, s) ← open mounts (current_task_id (k_sched k)) path (k_fds k) (k_store k);
    k ← release f (set_store s k);
    match o with Some fd => ret fd k | None => ret ERRNO_ENOENT k end).

Definition sys_close (fd : Z) k : outcome (sysret * kern) :=
  let '(ok, f) := close (current_task_id (k_sched k)) fd (k_fds k) in
  k ← release f k;
  ret (if ok : bool then 0 else ERRNO_EBADF) k.

Definition sys_seek (fd offset : Z) k : outcome (sysret * kern) :=
  let '(ok, f) := seek (current_task_id (k_sched k)) fd offset (k_fds k) in
  ret (if ok : bool then 0 else ERRNO_EBADF) (set_fds f k).

Definition sys_dup (fd : Z) k : outcome (sysret * kern) :=
  match dup (current_task_id (k_sched k)) fd (k_fds k) with
  | Some (new_fd, f) => ret new_fd (set_fds f k)
  | None => ret ERRNO_EBADF k
  end.

Definition sys_dup2 (old_fd new_fd : Z) k : outcome (sysret * kern) :=
  let '(o, f) := dup2 (current_task_id (k_sched k)) old_fd new_fd (k_fds k) in
  k ← release f k;
  match o with Some fd => ret fd k | None => ret ERRNO_EBADF k end.

Definition sys_pipe (ptr : Z) k : outcome (sysret * kern) :=
  if negb (is_user_accessible ptr 16) then ret ERRNO_EFAULT k
  else
    let '(read_end, write_end, s) := pipe_new (k_store k) in
    '(rfd, wfd, f) ← unwrap (create_pipe (current_task_id (k_sched k)) read_end write_end (k_fds k));
    let m := mem_write (ptr + 8) (to_le 8 wfd) (mem_write ptr (to_le 8 rfd) (k_mem k)) in
    ret 0 (set_mem m (set_fds f (set_store s k))).

Definition sys_getdents (fd ptr len : Z) k : outcome (sysret * kern) :=
  if (len =? 0) || negb (is_user_accessible ptr len) then ret ERRNO_EFAULT k
  else
    match get (current_task_id (k_sched k)) fd (k_fds k) with
    | None => ret ERRNO_EBADF k
    | Some l =>
        file ← unwrap (fd_files (k_fds k) !! l);
        '(o, s) ← inode_readdir (of_inode file) (k_store k);
        let k := set_store s k in
        match o with
        | None => ret ERRNO_ENOTDIR k
        | Some entries =>
            let start_index := of_offset file in
            if zlen entries <=? start_index then ret 0 k
            else
              '(index, written, buf) ← getdents_loop (zdrop start_index entries) start_index 0
                                         (mem_read ptr len (k_mem k));
              ret written (set_fds (set_offset l index (k_fds k)) (set_mem (mem_write ptr buf (k_mem k)) k))
        end
    end.

Definition sys_mkdir (ptr len : Z) k : outcome (sysret * kern) :=
  with_path ptr len k (λ path,
    let '(parent_path, name) := parent_and_name path in
    '(dir, s) ← lookup_path mounts parent_path (k_store k);
    match dir with
    | Some dir =>
        '(r, s) ← inode_mkdir dir name s;
        ret (match r with Ok _ => 0 | Err _ => ERRNO_EINVAL end) (set_store s k)
    | None => ret ERRNO_ENOENT (set_store s k)
    end).

Definition sys_unlink (ptr len : Z) k : outcome (sysret * kern) :=
  with_path ptr len k (λ path,
    let '(parent_path, name) := parent_and_name path in
    '(dir, s) ← lookup_path mounts parent_path (k_store k);
    match dir with
    | Some dir =>
        '(r, s) ← inode_unlink dir name s;
        ret (match r with Ok _ => 0 | Err _ => ERRNO_ENOENT end) (set_store s k)
    | None => ret ERRNO_ENOENT (set_store s k)
    end).

(* ------------------------------------------------------------------ *)
(** ** Processes *)

Definition sys_exit (arg1 : Z) k : outcome (sysret * kern) :=
  let status := as_signed 32 arg1 in
  '(cur, sc) ← exit_mark status (k_sched k);
  let k := set_sched sc k in
  match cur with
  | None => Done (NoReturn, k)
  | Some old =>
      t ← task_at old (k_sched k);
      k ← release (cleanup (t_id t) (k_fds k)) k;
      sc ← exit_wake_parent old (k_sched k);
      sc ← exit_switch old sc;
      Done (NoReturn, set_sched sc k)
  end.

Definition sys_getppid k : outcome (sysret * kern) :=
  cur ← current_task_arc (k_sched k);
  match cur with
  | Some l => t ← task_at l (k_sched k); ret (t_parent_id t) k
  | None => ret 0 k
  end.

(** The loop of SYS_WAIT; a wait that does not hang never blocks. *)
Definition wait_turn (pid status_ptr : Z) (wnohang : bool) k : outcome (sysret * kern) :=
  '(r, sc) ← wait_reap (current_task_id (k_sched k)) pid (k_sched k);
  let k := set_sched sc k in
  match r with
  | Some (child_pid, exit_status) =>
      let m := if negb (status_ptr =? 0) && is_user_accessible status_ptr 4
               then mem_write status_ptr (to_le 4 (Z.land exit_status 0xFF ≪ 8)) (k_mem k)
               else k_mem k in
      ret child_pid (set_mem m k)
  | None =>
      if wnohang then ret 0 k
      else
        sc ← wait_block (k_sched k);
        Done (Blocks (PendWait pid status_ptr), set_sched sc k)
  end.

Definition sys_wait (arg1 status_ptr arg3 : Z) k : outcome (sysret * kern) :=
  let pid := as_signed 64 arg1 in
  let wnohang := negb (Z.land arg3 1 =? 0) in
  cur ← current_task_arc (k_sched k);
  children ← match cur with
             | Some l => t ← task_at l (k_sched k); Done (Some (t_children t))
             | None => Done None
             end;
  let child := match children with
               | Some cs => if 0 <? pid then bool_decide (wrap 64 pid ∈ cs) else negb (bool_decide (cs = []))
               | None => false
               end in
  if negb child then ret ERRNO_ECHILD k else wait_turn pid status_ptr wnohang k.

Definition sys_spawn (ptr len : Z) k : outcome (sysret * kern) :=
  with_path ptr len k (λ path,
    '(r, p) ← spawn_user_process VirtAddr_new heap_fits create_mapper user_entry_trampoline mounts
                stdin stdout stderr path (current_task_id (k_sched k)) (k_sys k);
    let k := set_sys p k in
    match r with Ok child_id => ret child_id k | Err _ => ret ERRNO_ENOENT k end).

(* ------------------------------------------------------------------ *)
(** ** Messages *)

Definition port_at (l : loc) k : outcome Port := unwrap (sp_heap (k_ipc k) !! l).
Definition set_port (l : loc) (p : Port) k : kern :=
  set_ipc (mkIpcSpace (sp_ports (k_ipc k)) (<[l := p]> (sp_heap (k_ipc k)))) k.

Definition sys_send (port_id msg_type ptr len : Z) k : outcome (sysret * kern) :=
  if MAX_MSG_SIZE <? len then ret ERRNO_EINVAL k
  else if negb (is_user_accessible ptr len) then ret ERRNO_EFAULT k
  else
    data ← copy_into (zrep MAX_MSG_SIZE 0) 0 len (mem_read ptr len (k_mem k));
    let msg := mkMessage (current_task_id (k_sched k)) msg_type len data in
    match IpcSpace_get_port port_id (k_ipc k) with
    | None => ret ERRNO_ENOENT k
    | Some l =>
        p ← port_at l k;
        let '(ok, p, woken) := Port_send msg p in
        let k := set_port l p k in
        sc ← match woken with Some t => wake_task t (k_sched k) | None => Done (k_sched k) end;
        ret (if ok : bool then 0 else ERRNO_EAGAIN) (set_sched sc k)
    end.

(** The copy of a received message; [len] bytes of its 128. *)
Definition deliver (out_ptr : Z) (msg : Message) k : outcome (sysret * kern) :=
  let len := msg_len msg in
  if negb (is_user_accessible out_ptr len) then ret ERRNO_EFAULT k
  else
    bytes ← slice (msg_data msg) 0 len;
    ret (msg_id msg) (set_mem (mem_write out_ptr bytes (k_mem k)) k).

Definition sys_recv (port_id out_ptr : Z) k : outcome (sysret * kern) :=
  match IpcSpace_get_port port_id (k_ipc k) with
  | None => ret ERRNO_ENOENT k
  | Some l =>
      p ← port_at l k;
      let '(m, p) := Port_receive p in
      let k := set_port l p k in
      match m with Some msg => deliver out_ptr msg k | None => ret ERRNO_EAGAIN k end
  end.

(** The loop of [receive_blocking], then the copy. *)
Definition recv_turn_at (l : loc) (out_ptr : Z) k : outcome (sysret * kern) :=
  p ← port_at l k;
  cur ← current_task_arc (k_sched k);
  let '(r, p) := Port_receive_blocking cur p in
  let k := set_port l p k in
  match r with
  | RecvGot msg => deliver out_ptr msg k
  | RecvBlocks =>
      sc ← block_current_and_switch (k_sched k);
      Done (Blocks (PendRecv l out_ptr), set_sched sc k)
  | RecvSpins => Done (Blocks (PendRecv l out_ptr), k)
  end.

Definition sys_recv_block (port_id out_ptr : Z) k : outcome (sysret * kern) :=
  match IpcSpace_get_port port_id (k_ipc k) with
  | None => ret ERRNO_ENOENT k
  | Some l => recv_turn_at l out_ptr k
  end.

(* ------------------------------------------------------------------ *)
(** ** The dispatcher *)

Definition syscall_dispatcher (nr arg1 arg2 arg3 arg4 : Z) k : outcome (sysret * kern) :=
  if nr =? SYS_READ then sys_read arg1 arg2 arg3 k
  else if nr =? SYS_WRITE then sys_write arg1 arg2 arg3 k
  else if nr =? SYS_EXIT then sys_exit arg1 k
  else if nr =? SYS_GETPID then ret (current_task_id (k_sched k)) k
  else if nr =? SYS_GETPPID then sys_getppid k
  else if nr =? SYS_WAIT then sys_wait arg1 arg2 arg3 k
  else if nr =? SYS_SPAWN then sys_spawn arg1 arg2 k
  else if nr =? SYS_OPEN then sys_open arg1 arg2 k
  else if nr =? SYS_CLOSE then sys_close arg1 k
  else if nr =? SYS_SEEK then sys_seek arg1 arg2 k
  else if nr =? SYS_YIELD then ret 0 (set_exec (preempt_executor (k_exec k)) k)
  else if nr =? SYS_SEND then sys_send arg1 arg2 arg3 arg4 k
  else if nr =? SYS_RECV then sys_recv arg1 arg2 k
  else if nr =? SYS_RECV_BLOCK then sys_recv_block arg1 arg2 k
  else if nr =? SYS_DUP then sys_dup arg1 k
  else if nr =? SYS_DUP2 then sys_dup2 arg1 arg2 k
  else if nr =? SYS_PIPE then sys_pipe arg1 k
  else if nr =? SYS_GETDENTS then sys_getdents arg1 arg2 arg3 k
  else if nr =? SYS_MKDIR then sys_mkdir arg1 arg2 k
  else if nr =? SYS_UNLINK then sys_unlink arg1 arg2 k
  else ret ERRNO_EINVAL k.

(** What a blocked call does when its task runs again. *)
Definition resume (p : pending) k : outcome (sysret * kern) :=
  match p with
  | PendRead l ptr len => read_turn l ptr len k
  | PendWait pid status_ptr => wait_turn pid status_ptr false k
  | PendRecv l out_ptr => recv_turn_at l out_ptr k
  end.
End dispatcher.

(* ------------------------------------------------------------------ *)
(** ** User addresses *)

Lemma is_user_accessible_spec ptr len :
  0 ≤ ptr → 0 ≤ len → is_user_accessible ptr len = true ↔ 0 < ptr ∧ 0 < len ∧ ptr + len ≤ 2 ^ 47.
Proof.
  intros Hp Hl. unfold is_user_accessible, saturating_add64, USER_SPACE_START, USER_SPACE_END, U64_MAX.
  rewrite !andb_true_iff, negb_true_iff, !Z.leb_le, Z.ltb_lt, Z.eqb_neq. lia.
Qed.

Lemma zlen_mem_read ptr len m : 0 ≤ len → zlen (mem_read ptr len m) = len.
Proof. intros. unfold mem_read, zlen. rewrite length_map, length_seqZ. lia. Qed.

Lemma zget_mem_read ptr len m i : 0 ≤ i < len → zget (mem_read ptr len m) i = Some (m (ptr + i)).
Proof.
  intros Hi. unfold mem_read, zget. rewrite (proj2 (Z.leb_le 0 i)) by lia.
  rewrite list_lookup_fmap, lookup_seqZ_lt by lia. simpl. do 2 f_equal. lia.
Qed.

Lemma mem_write_out ptr bytes m a : ¬ (ptr ≤ a < ptr + zlen bytes) → mem_write ptr bytes m a = m a.
Proof. intros Ha. unfold mem_write. by rewrite zget_None by lia. Qed.

Lemma mem_write_in ptr bytes m i v : zget bytes i = Some v → mem_write ptr bytes m (ptr + i) = v.
Proof. intros Hv. unfold mem_write. replace (ptr + i - ptr) with i by lia. by rewrite Hv. Qed.

(** What is written is read back. *)
Lemma mem_read_write ptr bytes m : mem_read ptr (zlen bytes) (mem_write ptr bytes m) = bytes.
Proof.
  apply zlist_eq. intros i Hi. destruct (decide (i < zlen bytes)) as [Hlt|Hge].
  - rewrite zget_mem_read by lia. destruct (zget_is_Some bytes i) as [v Hv]; [lia|].
    rewrite Hv. f_equal. by apply mem_write_in.
  - rewrite !zget_None; [done|lia|]. rewrite zlen_mem_read by apply zlen_nonneg. lia.
Qed.

Lemma mem_read_write_prefix ptr bytes rest m :
  mem_read ptr (zlen bytes) (mem_write ptr (bytes ++ rest) m) = bytes.
Proof.
  apply zlist_eq. intros i Hi. destruct (decide (i < zlen bytes)) as [Hlt|Hge].
  - rewrite zget_mem_read by lia. destruct (zget_is_Some bytes i) as [v Hv]; [lia|].
    rewrite Hv. f_equal. apply mem_write_in. by rewrite zget_app_l by lia.
  - rewrite !zget_None; [done|lia|]. rewrite zlen_mem_read by apply zlen_nonneg. lia.
Qed.

(* ------------------------------------------------------------------ *)
(** ** Directory entries: the format *)

Definition d_reclen (name : str) : Z := align_up 3 (19 + zlen name).
Definition d_type (ft : FileType) : Z := match ft with Directory => 4 | _ => 8 end.

(** The record of an entry, field by field. *)
Definition dirent_bytes (index : Z) (e : str * FileType) : list Z :=
  to_le 8 (index ⊞ 1) ++ to_le 8 (index ⊞ 1) ++ to_le 2 (wrap 16 (d_reclen e.1)) ++ [d_type e.2] ++ e.1 ++
  zrep (d_reclen e.1 - 19 - zlen e.1) 0.

Fixpoint dirent_records (index : Z) (es : list (str * FileType)) : list Z :=
  match es with
  | [] => []
  | e :: es => dirent_bytes index e ++ dirent_records (index + 1) es
  end.

(** How a program reads the buffer: records of the length they state, names up
    to a NUL or the end of their record. *)
Fixpoint read_dirents (fuel : nat) (bs : list Z) : list (str * Z) :=
  match fuel with
  | O => []
  | S fuel =>
      if zlen bs <? 19 then []
      else
        let reclen := from_le (zslice bs 16 18) in
        (take_while (λ b, negb (b =? 0)) (zslice bs 19 reclen), default 0 (zget bs 18))
          :: read_dirents fuel (zdrop reclen bs)
  end.

(** How many entries fit into [room] bytes. *)
Fixpoint fitting (room : Z) (es : list (str * FileType)) : nat :=
  match es with
  | [] => 0
  | e :: es => if room <? d_reclen e.1 then 0 else S (fitting (room - d_reclen e.1) es)
  end.

Definition entry_ok (e : str * FileType) : Prop := Forall (λ b, b ≠ 0) e.1 ∧ zlen e.1 < 2 ^ 16 - 32.

Lemma d_reclen_range name : 19 + zlen name ≤ d_reclen name < 27 + zlen name.
Proof. unfold d_reclen. destruct (align_up_spec 3 (19 + zlen name)) as [? _]; lia. Qed.

Lemma zlen_dirent_bytes index e : zlen (dirent_bytes index e) = d_reclen e.1.
Proof.
  pose proof (d_reclen_range e.1). unfold dirent_bytes.
  rewrite !zlen_app, !zlen_to_le, zlen_zrep by lia. change (zlen [_]) with 1. lia.
Qed.

Lemma dirent64_spec index name ft : dirent64 index name ft = Done (dirent_bytes index (name, ft)).
Proof.
  pose proof (d_reclen_range name) as Hr. pose proof (zlen_nonneg name).
  unfold dirent64, dirent_bytes. fold (d_reclen name). fold (d_type ft). simpl fst. simpl snd.
  set (r := d_reclen name) in *. set (a := to_le 8 (index ⊞ 1)). set (c := to_le 2 (wrap 16 r)).
  assert (zlen a = 8) as Ha by (by apply zlen_to_le). assert (zlen c = 2) as Hc by (by apply zlen_to_le).
  assert (zlen (zrep r 0) = r) as Hz by (apply zlen_zrep; lia).
  rewrite copy_into_Done by lia. cbn [mbind outcome_bind].
  rewrite copy_into_Done by (rewrite ?zlen_zsplice; lia). cbn [mbind outcome_bind].
  rewrite zsplice_next by lia.
  assert (zlen (a ++ a) = 16) as Haa by (rewrite zlen_app; lia).
  rewrite copy_into_Done by (rewrite ?zlen_zsplice; lia). cbn [mbind outcome_bind].
  rewrite zsplice_next by lia.
  assert (zlen ((a ++ a) ++ c) = 18) as Hac by (rewrite zlen_app; lia).
  rewrite upd_Done by (rewrite zlen_zsplice; lia). cbn [mbind outcome_bind].
  rewrite zset_splice by (rewrite zlen_zsplice; lia).
  assert (zlen [d_type ft] = 1) as Ht by done. rewrite zsplice_next by lia.
  assert (zlen (((a ++ a) ++ c) ++ [d_type ft]) = 19) as Hact by (rewrite zlen_app; lia).
  rewrite copy_into_Done by (rewrite ?zlen_zsplice; lia). rewrite zsplice_next by lia.
  set (rec := _ ++ name). assert (zlen rec = 19 + zlen name) as Hrec by (unfold rec; rewrite zlen_app; lia).
  assert (zsplice (zrep r 0) 0 rec = rec ++ zrep (r - 19 - zlen name) 0) as ->.
  { unfold zsplice. rewrite Hrec. change (ztake 0 (zrep r 0)) with (@nil Z). rewrite app_nil_l. f_equal.
    unfold zdrop, zrep. rewrite drop_replicate. f_equal. lia. }
  unfold rec. by rewrite <-!app_assoc.
Qed.

Lemma fitting_le room es : (fitting room es ≤ length es)%nat.
Proof. revert room. induction es as [|e es IH]; intros room; simpl; [lia|]. cases; [lia|]. by apply le_n_S. Qed.

Lemma zlen_records_fit index room es :
  0 ≤ room → 0 ≤ zlen (dirent_records index (take (fitting room es) es)) ≤ room.
Proof.
  revert index room. induction es as [|e es IH]; intros index room Hr; cbn [fitting].
  { simpl. unfold zlen. simpl. lia. }
  pose proof (d_reclen_range e.1). pose proof (zlen_nonneg e.1).
  destruct (Z.ltb_spec room (d_reclen e.1)); cbn [take dirent_records]; [unfold zlen; simpl; lia|].
  rewrite zlen_app, zlen_dirent_bytes. specialize (IH (index + 1) (room - d_reclen e.1) ltac:(lia)). lia.
Qed.

(** The loop writes the records of the longest prefix that fits. *)
Lemma getdents_loop_spec es index written buf :
  0 ≤ written ≤ zlen buf →
  let n := fitting (zlen buf - written) es in
  let recs := dirent_records index (take n es) in
  getdents_loop es index written buf =
    Done (index + Z.of_nat n, written + zlen recs, zsplice buf written recs).
Proof.
  revert index written buf. induction es as [|[name ft] es IH]; intros index written buf Hw;
    cbn [getdents_loop fitting].
  - cbn [take dirent_records]. change (zlen []) with 0. change (Z.of_nat 0) with 0. by rewrite !Z.add_0_r, zsplice_nil.
  - cbv zeta. cbn [fst]. fold (d_reclen name). pose proof (d_reclen_range name). pose proof (zlen_nonneg name).
    destruct (Z.ltb_spec (zlen buf) (written + d_reclen name)), (Z.ltb_spec (zlen buf - written) (d_reclen name));
      try lia; cbn [take dirent_records fst].
    + change (Z.of_nat 0) with 0. change (zlen []) with 0. by rewrite !Z.add_0_r, zsplice_nil.
    + rewrite dirent64_spec. cbn [mbind outcome_bind].
      pose proof (zlen_dirent_bytes index (name, ft)) as Hb. simpl in Hb.
      rewrite copy_into_Done by lia. cbn [mbind outcome_bind].
      assert (zlen (zsplice buf written (dirent_bytes index (name, ft))) = zlen buf) as Hz by (rewrite zlen_zsplice; lia).
      rewrite IH by lia. cbv zeta. rewrite Hz. cbn [take dirent_records].
      replace (zlen buf - (written + d_reclen name)) with (zlen buf - written - d_reclen name) by lia.
      set (n := fitting _ es).
      pose proof (zlen_records_fit (index + 1) (zlen buf - written - d_reclen name) es ltac:(lia)) as Hf. fold n in Hf.
      rewrite zlen_app, Hb. rewrite zsplice_next by lia. do 2 f_equal. f_equal; lia.
Qed.

Lemma take_while_app_all {A} (f : A → bool) (l k : list A) :
  Forall (λ x, f x = true) l → take_while f (l ++ k) = l ++ take_while f k.
Proof. induction 1 as [|x l Hx Hl IH]; simpl; [done|]. by rewrite Hx, IH. Qed.

Lemma take_while_zeros n : take_while (λ b, negb (b =? 0)) (zrep n 0) = [].
Proof. unfold zrep. by destruct (Z.to_nat n). Qed.

Lemma read_dirent_one index e rest fuel :
  entry_ok e →
  read_dirents (S fuel) (dirent_bytes index e ++ rest) = (e.1, d_type e.2) :: read_dirents fuel rest.
Proof.
  intros [Hn Hl]. pose proof (d_reclen_range e.1) as Hr. pose proof (zlen_nonneg e.1). pose proof (zlen_nonneg rest).
  pose proof (zlen_dirent_bytes index e) as Hb. cbn [read_dirents].
  destruct (Z.ltb_spec (zlen (dirent_bytes index e ++ rest)) 19) as [Hlt|_]; [rewrite zlen_app in Hlt; lia|].
  pose proof (holds_prefix (dirent_bytes index e) rest) as Hh.
  unfold dirent_bytes in Hh at 2. do 2 apply holds_app_r in Hh.
  rewrite !zlen_to_le in Hh by lia. change (0 + 8 + 8) with 16 in Hh.
  assert (from_le (zslice (dirent_bytes index e ++ rest) 16 18) = d_reclen e.1) as ->.
  { pose proof (holds_app_l _ _ _ _ Hh) as (_ & _ & E). rewrite zlen_to_le in E by lia. change (16 + 2) with 18 in E.
    rewrite E, from_le_to_le; [apply wrap_small; split; lia|lia|apply wrap_range; lia]. }
  apply holds_app_r in Hh. rewrite zlen_to_le in Hh by lia. change (16 + 2) with 18 in Hh.
  apply holds_byte in Hh as [Hty Hh]. apply idx_Done in Hty. rewrite Hty. cbn [default].
  destruct Hh as (_ & _ & Hname). rewrite zlen_app, zlen_zrep in Hname by lia.
  replace (18 + 1 + (zlen e.1 + (d_reclen e.1 - 19 - zlen e.1))) with (d_reclen e.1) in Hname by lia.
  change (18 + 1) with 19 in Hname. rewrite Hname.
  rewrite take_while_app_all, take_while_zeros, app_nil_r.
  - by rewrite <-Hb, zdrop_app.
  - eapply Forall_impl; [exact Hn|]. intros b ?. simpl. by rewrite (proj2 (Z.eqb_neq b 0)).
Qed.

Lemma length_records index es : Z.of_nat (length es) ≤ zlen (dirent_records index es).
Proof.
  revert index. induction es as [|e es IH]; intros index; cbn [dirent_records length]; [apply zlen_nonneg|].
  rewrite zlen_app, zlen_dirent_bytes. pose proof (d_reclen_range e.1). pose proof (zlen_nonneg e.1).
  specialize (IH (index + 1)). lia.
Qed.

(** Reading the records back gives the entries. *)
Lemma read_dirents_records index es fuel :
  Forall entry_ok es → (length es ≤ fuel)%nat →
  read_dirents fuel (dirent_records index es) = (λ e, (e.1, d_type e.2)) <$> es.
Proof.
  intros He. revert index fuel. induction He as [|e es He Hes IH]; intros index fuel Hf.
  - by destruct fuel.
  - destruct fuel as [|fuel]; [simpl in Hf; lia|]. cbn [dirent_records]. rewrite read_dirent_one by done.
    simpl. rewrite IH; [done|simpl in Hf; lia].
Qed.

(** A [&mut [u8]] keeps its length. *)
Class ReadLaw (N S : Type) `{INode N S} := {
  read_len : ∀ n off buf s r buf' s', inode_read n off buf s = Done (r, buf', s') → zlen buf' = zlen buf;
}.

(** The user buffer a call may write. *)
Definition out_buffer (nr arg1 arg2 arg3 : Z) : option (Z * Z) :=
  if (nr =? SYS_READ) || (nr =? SYS_GETDENTS) then Some (arg2, arg3)
  else if nr =? SYS_WAIT then Some (arg2, 4)
  else if nr =? SYS_PIPE then Some (arg1, 16)
  else if (nr =? SYS_RECV) || (nr =? SYS_RECV_BLOCK) then Some (arg2, MAX_MSG_SIZE)
  else None.

Definition out_pending (p : pending) : Z * Z :=
  match p with
  | PendRead _ ptr len => (ptr, len)
  | PendWait _ ptr => (ptr, 4)
  | PendRecv _ ptr => (ptr, MAX_MSG_SIZE)
  end.

(** Memory changed inside the user half and inside [o] only. *)
Definition mem_within (o : option (Z * Z)) (m m' : umem) : Prop :=
  ∀ a, m' a ≠ m a → 0 < a < 2 ^ 47 ∧ match o with Some (ptr, len) => ptr ≤ a < ptr + len | None => False end.

Section safety.
Context {PT : Type} `{Mapper PT}.
Context {N S : Type} `{KernelNodes N S} `{!ReadLaw N S}.
Context {F : Type}.
Context (VirtAddr_new : Z → outcome Z) (heap_fits : Z → bool).
Context (create_mapper : Z → gmap Z (list Z) → PT) (user_entry_trampoline : Z).
Context (mounts : list (MountEntry N)) (stdin stdout stderr : N).

Notation kern := (kernel PT N S F).
Implicit Types (k : kern).

Lemma mem_within_refl o m : mem_within o m m.
Proof. by intros a []. Qed.

Lemma mem_within_write o m ptr bytes :
  0 ≤ ptr → 0 < ptr ∧ ptr + zlen bytes ≤ 2 ^ 47 →
  (∀ a, ptr ≤ a < ptr + zlen bytes → match o with Some (p, l) => p ≤ a < p + l | None => False end) →
  mem_within o m (mem_write ptr bytes m).
Proof.
  intros Hp Hr Ho a Ha. destruct (decide (ptr ≤ a < ptr + zlen bytes)); [split; [lia|by apply Ho]|].
  by rewrite mem_write_out in Ha.
Qed.

(** Neither user memory nor the ports change. *)
Definition kept k k' : Prop := k_mem k' = k_mem k ∧ k_ipc k' = k_ipc k.

Lemma settle_kept k k' : settle k = Done k' → kept k k'.
Proof. unfold settle. destruct (take_woken _). intros Hs. run_in Hs. by simplify_eq. Qed.

Lemma release_kept f k k' : release f k = Done k' → kept k k'.
Proof. unfold release. intros Hs. by apply settle_kept in Hs. Qed.

(** ... and the call does not block. *)
Definition quiet k (r : sysret) k' : Prop := kept k k' ∧ ∀ p, r ≠ Blocks p.

Lemma with_path_quiet ptr len k body r k' :
  with_path ptr len k body = Done (r, k') →
  (∀ path r k', body path = Done (r, k') → quiet k r k') → quiet k r k'.
Proof.
  unfold with_path, ret. intros Hs Hb. destruct (negb _); [by simplify_eq|].
  destruct (utf8_valid _); [by eapply Hb|by simplify_eq].
Qed.

(** Every message waiting in a port is as [send] made it. *)
Definition msg_ok (m : Message) : Prop := zlen (msg_data m) = MAX_MSG_SIZE ∧ 0 < msg_len m ≤ MAX_MSG_SIZE.
Definition ipc_ok (i : IpcSpace) : Prop :=
  map_Forall (λ _ p, Forall msg_ok (port_queue p)) (sp_heap i).

Lemma ipc_ok_set l p k : ipc_ok (k_ipc k) → Forall msg_ok (port_queue p) → ipc_ok (k_ipc (set_port l p k)).
Proof. intros Hi Hp. by apply map_Forall_insert_2. Qed.

Lemma read_turn_safe l ptr len k r k' :
  read_turn l ptr len k = Done (r, k') → is_user_accessible ptr len = true → 0 ≤ ptr → 0 ≤ len →
  mem_within (Some (ptr, len)) (k_mem k) (k_mem k') ∧ k_ipc k' = k_ipc k.
Proof.
  intros Hr Ha Hp Hl. apply is_user_accessible_spec in Ha; [|done..]. unfold read_turn in Hr. run_in Hr.
  destruct (read_waits _ _); run_in Hr.
  2,3: simplify_eq; split; [apply mem_within_refl|done].
  - destruct r1 as [[n buf] s]. run_in Hr. unfold ret in Hr. simplify_eq.
    match goal with E : settle _ = Done _ |- _ => apply settle_kept in E as [Em Ei] end. simpl in *.
    rewrite Em. split; [|done].
    match goal with E : inode_read _ _ _ _ = Done _ |- _ => apply read_len in E end.
    rewrite zlen_mem_read in * by done. apply mem_within_write; [done|lia|]. intros a ?. lia.
Qed.

Lemma deliver_safe out_ptr m k r k' :
  deliver out_ptr m k = Done (r, k') → msg_ok m → 0 ≤ out_ptr →
  mem_within (Some (out_ptr, MAX_MSG_SIZE)) (k_mem k) (k_mem k') ∧ k_ipc k' = k_ipc k.
Proof.
  unfold deliver, ret. intros Hd [Hz Hl] Hp. destruct (is_user_accessible out_ptr (msg_len m)) eqn:Ha; simpl in Hd;
    [|simplify_eq; split; [apply mem_within_refl|done]].
  apply is_user_accessible_spec in Ha; [|lia..]. run_in Hd. simplify_eq. split; [|done]. simpl.
  match goal with E : slice _ _ _ = Done _ |- _ => apply slice_len in E end.
  apply mem_within_write; [done|lia|]. intros a ?. lia.
Qed.

Lemma wait_turn_safe pid ptr wnohang k r k' :
  wait_turn pid ptr wnohang k = Done (r, k') → 0 ≤ ptr →
  mem_within (Some (ptr, 4)) (k_mem k) (k_mem k') ∧ k_ipc k' = k_ipc k.
Proof.
  unfold wait_turn, ret. intros Hw Hp. run_in Hw. destruct r0 as [o sc]. destruct o as [[child st]|].
  - simplify_eq. split; [|done]. simpl. destruct (negb _ && _) eqn:Ha; [|apply mem_within_refl].
    apply andb_prop in Ha as [_ Ha]. apply is_user_accessible_spec in Ha; [|lia..].
    apply mem_within_write; rewrite ?zlen_to_le by lia; [done|lia|]. intros a ?. lia.
  - destruct wnohang; [simplify_eq; split; [apply mem_within_refl|done]|]. run_in Hw. simplify_eq.
    split; [apply mem_within_refl|done].
Qed.

Definition pend_ok (p : pending) : Prop :=
  match p with
  | PendRead _ ptr len => is_user_accessible ptr len = true ∧ 0 ≤ ptr ∧ 0 ≤ len
  | PendWait _ ptr | PendRecv _ ptr => 0 ≤ ptr
  end.

(** A turn of a call that may write the buffer [o]. *)
Definition turn_safe (o : option (Z * Z)) k (r : sysret) k' : Prop :=
  mem_within o (k_mem k) (k_mem k') ∧ ipc_ok (k_ipc k') ∧
  ∀ p, r = Blocks p → pend_ok p ∧ o = Some (out_pending p).

Lemma kept_safe o k k' rax : ipc_ok (k_ipc k) → kept k k' → turn_safe o k (Ret rax) k'.
Proof. intros Hi [Em Ei]. split; [rewrite Em; apply mem_within_refl|]. split; [by rewrite Ei|done]. Qed.

Lemma read_turn_turn l ptr len k r k' :
  ipc_ok (k_ipc k) → pend_ok (PendRead l ptr len) → read_turn l ptr len k = Done (r, k') →
  turn_safe (Some (ptr, len)) k r k'.
Proof.
  intros Hi (Ha & Hp & Hl) Hr. destruct (read_turn_safe _ _ _ _ _ _ Hr Ha Hp Hl) as [Hm Ei].
  split; [done|]. split; [by rewrite Ei|]. intros p ->. unfold read_turn, ret in Hr. run_in Hr.
  destruct (read_waits _ _); run_in Hr; [|by simplify_eq..].
  destruct r0 as [[n buf] s]. run_in Hr. by simplify_eq.
Qed.

Lemma wait_turn_turn pid ptr wnohang k r k' :
  ipc_ok (k_ipc k) → 0 ≤ ptr → wait_turn pid ptr wnohang k = Done (r, k') → turn_safe (Some (ptr, 4)) k r k'.
Proof.
  intros Hi Hp Hw. destruct (wait_turn_safe _ _ _ _ _ _ Hw Hp) as [Hm Ei].
  split; [done|]. split; [by rewrite Ei|]. intros p ->. unfold wait_turn, ret in Hw. run_in Hw.
  destruct r as [[[child st]|] sc]; [done|]. destruct wnohang; [done|]. run_in Hw. by simplify_eq.
Qed.

Lemma recv_turn_turn l ptr k r k' :
  ipc_ok (k_ipc k) → 0 ≤ ptr → recv_turn_at l ptr k = Done (r, k') → turn_safe (Some (ptr, MAX_MSG_SIZE)) k r k'.
Proof.
  intros Hi Hp Hr. unfold recv_turn_at, port_at in Hr. run_in Hr. rename r0 into p.
  assert (Forall msg_ok (port_queue p)) as Hq.
  { destruct (sp_heap (k_ipc k) !! l) eqn:Hl; [|done]. simplify_eq/=. by apply (Hi l). }
  unfold Port_receive_blocking in Hr. destruct (port_queue p) as [|m q] eqn:Eq.
  - destruct r1 as [t|]; simpl in Hr; [run_in Hr|]; simplify_eq.
    + split; [apply mem_within_refl|]. split; [by apply ipc_ok_set|]. by intros ? [= <-].
    + split; [apply mem_within_refl|]. split; [by apply ipc_ok_set; rewrite ?Eq|]. by intros ? [= <-].
  - apply Forall_cons in Hq as [Hm Hq]. destruct (deliver_safe _ _ _ _ _ Hr Hm Hp) as [Hw Ei].
    split; [done|]. split; [rewrite Ei; by apply ipc_ok_set|]. intros ? ->.
    unfold deliver, ret in Hr. destruct (negb _); [done|]. run_in Hr. done.
Qed.

Lemma sys_recv_turn port_id ptr k r k' :
  ipc_ok (k_ipc k) → 0 ≤ ptr → sys_recv port_id ptr k = Done (r, k') → turn_safe (Some (ptr, MAX_MSG_SIZE)) k r k'.
Proof.
  intros Hi Hp Hr. unfold sys_recv in Hr. destruct (IpcSpace_get_port _ _) as [l|];
    [|unfold ret in Hr; simplify_eq; by apply kept_safe].
  unfold port_at in Hr. run_in Hr. rename r0 into p.
  assert (Forall msg_ok (port_queue p)) as Hq.
  { destruct (sp_heap (k_ipc k) !! l) eqn:Hl; [|done]. simplify_eq/=. by apply (Hi l). }
  unfold Port_receive in Hr. destruct (port_queue p) as [|m q] eqn:Eq.
  - unfold ret in Hr. simplify_eq. split; [apply mem_within_refl|]. split; [by apply ipc_ok_set; rewrite ?Eq|done].
  - apply Forall_cons in Hq as [Hm Hq]. destruct (deliver_safe _ _ _ _ _ Hr Hm Hp) as [Hw Ei].
    split; [done|]. split; [rewrite Ei; by apply ipc_ok_set|]. intros ? ->.
    unfold deliver, ret in Hr. destruct (negb _); [done|]. run_in Hr. done.
Qed.

Lemma sys_send_turn port_id ty ptr len k r k' :
  ipc_ok (k_ipc k) → 0 ≤ ptr → 0 ≤ len → sys_send port_id ty ptr len k = Done (r, k') → turn_safe None k r k'.
Proof.
  intros Hi Hp Hl Hs. unfold sys_send, ret in Hs. destruct (Z.ltb_spec MAX_MSG_SIZE len);
    [simplify_eq; by apply kept_safe|].
  destruct (is_user_accessible ptr len) eqn:Ha; simpl in Hs; [|simplify_eq; by apply kept_safe].
  apply is_user_accessible_spec in Ha; [|lia..].
  destruct (copy_into _ _ _ _) as [data|] eqn:E; [|done]. cbn [mbind outcome_bind] in Hs.
  apply copy_into_len in E. rewrite zlen_zrep in E by (unfold MAX_MSG_SIZE; lia).
  destruct (IpcSpace_get_port _ _) as [l|]; [|simplify_eq; by apply kept_safe].
  destruct (port_at l k) as [p|] eqn:Ep; [|done]. cbn [mbind outcome_bind] in Hs.
  assert (Forall msg_ok (port_queue p)) as Hq.
  { unfold port_at in Ep. destruct (sp_heap (k_ipc k) !! l) eqn:El; [|done]. simplify_eq/=. by apply (Hi l). }
  destruct (Port_send _ p) as [[ok p'] woken] eqn:Esend. run_in Hs. simplify_eq.
  split; [apply mem_within_refl|]. split; [|done]. apply ipc_ok_set; [done|].
  unfold Port_send in Esend. destruct (_ <=? _); [by simplify_eq|].
  assert (Forall msg_ok (port_queue p ++ [mkMessage (current_task_id (k_sched k)) ty len data])).
  { apply Forall_app. split; [done|]. apply Forall_singleton. split; simpl; lia. }
  destruct (port_waiting_receivers p); by simplify_eq.
Qed.

Lemma getdents_loop_len es index written buf i w buf' :
  getdents_loop es index written buf = Done (i, w, buf') → zlen buf' = zlen buf.
Proof.
  revert index written buf. induction es as [|[name ft] es IH]; intros index written buf Hg; simpl in Hg;
    [by simplify_eq|].
  destruct (_ <? _); [by simplify_eq|]. run_in Hg. apply IH in Hg. rewrite Hg. by eapply copy_into_len.
Qed.

Lemma sys_getdents_turn fd ptr len k r k' :
  ipc_ok (k_ipc k) → 0 ≤ ptr → 0 ≤ len → sys_getdents fd ptr len k = Done (r, k') →
  turn_safe (Some (ptr, len)) k r k'.
Proof.
  intros Hi Hp Hl Hs. unfold sys_getdents, ret in Hs.
  destruct (is_user_accessible ptr len) eqn:Ha; rewrite ?orb_true_r in Hs; [|simplify_eq; by apply kept_safe].
  apply is_user_accessible_spec in Ha; [|lia..].
  rewrite (proj2 (Z.eqb_neq len 0)) in Hs by lia. simpl in Hs.
  destruct (get _ _ _) as [l|]; [|simplify_eq; by apply kept_safe]. run_in Hs.
  destruct r1 as [[entries|] s]; [|simplify_eq; by apply kept_safe].
  destruct (_ <=? _); [simplify_eq; by apply kept_safe|]. run_in Hs. destruct r1 as [[index written] buf].
  simplify_eq. match goal with E : getdents_loop _ _ _ _ = _ |- _ => apply getdents_loop_len in E end. simpl in *.
  rewrite zlen_mem_read in * by lia. split; [|split; [done|done]]. simpl.
  apply mem_within_write; [done|lia|]. intros a ?. lia.
Qed.

Lemma quiet_safe k r k' : ipc_ok (k_ipc k) → quiet k r k' → turn_safe None k r k'.
Proof.
  intros Hi [[Em Ei] Hr]. split; [rewrite Em; apply mem_within_refl|]. split; [by rewrite Ei|].
  intros p Ep. by destruct (Hr p).
Qed.

Lemma sys_write_quiet fd ptr len k r k' : sys_write fd ptr len k = Done (r, k') → quiet k r k'.
Proof.
  unfold sys_write, ret. intros Hs. destruct (negb _); [by simplify_eq|].
  destruct (get _ _ _) as [l|]; [|by simplify_eq]. run_in Hs. destruct r1 as [n s]. run_in Hs. simplify_eq.
  match goal with E : settle _ = Done _ |- _ => by apply settle_kept in E end.
Qed.

Lemma sys_open_quiet ptr len k r k' : sys_open mounts ptr len k = Done (r, k') → quiet k r k'.
Proof.
  intros Hs. eapply with_path_quiet; [exact Hs|]. clear Hs r k'. intros path r k' Hs. unfold ret in Hs. run_in Hs.
  destruct r0 as [[o f] s]. run_in Hs; simplify_eq;
    match goal with E : release _ _ = Done _ |- _ => by apply release_kept in E end.
Qed.

Lemma release_quiet f k r k' (g : kern → Z) :
  (k ← release f k; Done (Ret (g k), k)) = Done (r, k') → quiet k r k'.
Proof.
  intros Hs. run_in Hs. simplify_eq. match goal with E : release _ _ = Done _ |- _ => by apply release_kept in E end.
Qed.

Lemma sys_close_quiet fd k r k' : sys_close fd k = Done (r, k') → quiet k r k'.
Proof. unfold sys_close. destruct (close _ _ _) as [ok f]. apply release_quiet. Qed.

Lemma sys_dup2_quiet fd fd' k r k' : sys_dup2 fd fd' k = Done (r, k') → quiet k r k'.
Proof.
  unfold sys_dup2. destruct (dup2 _ _ _ _) as [o f]. intros Hs.
  destruct o; by eapply (release_quiet _ _ _ _ (λ _, _)).
Qed.

Lemma sys_exit_quiet st k r k' : sys_exit st k = Done (r, k') → quiet k r k'.
Proof.
  unfold sys_exit. intros Hs. run_in Hs. destruct r0 as [[old|] sc]; [|by simplify_eq]. run_in Hs. simplify_eq.
  match goal with E : release _ _ = Done _ |- _ => by apply release_kept in E end.
Qed.

Lemma sys_getppid_quiet k r k' : sys_getppid k = Done (r, k') → quiet k r k'.
Proof. unfold sys_getppid, ret. intros Hs. run_in Hs; by simplify_eq. Qed.

Lemma sys_spawn_quiet ptr len k r k' :
  sys_spawn VirtAddr_new heap_fits create_mapper user_entry_trampoline mounts stdin stdout stderr ptr len k
    = Done (r, k') → quiet k r k'.
Proof.
  intros Hs. eapply with_path_quiet; [exact Hs|]. clear Hs r k'. intros path r k' Hs. unfold ret in Hs. run_in Hs.
  destruct r0 as [[c|e] p]; by simplify_eq.
Qed.

Lemma sys_mkdir_quiet ptr len k r k' : sys_mkdir mounts ptr len k = Done (r, k') → quiet k r k'.
Proof.
  intros Hs. eapply with_path_quiet; [exact Hs|]. clear Hs r k'. intros path r k' Hs.
  cbv beta in Hs. destruct (parent_and_name path) as [pp name]. unfold ret in Hs. run_in Hs. destruct r0 as [[dir|] s]; [|by simplify_eq].
  run_in Hs. destruct r0. by simplify_eq.
Qed.

Lemma sys_unlink_quiet ptr len k r k' : sys_unlink mounts ptr len k = Done (r, k') → quiet k r k'.
Proof.
  intros Hs. eapply with_path_quiet; [exact Hs|]. clear Hs r k'. intros path r k' Hs.
  cbv beta in Hs. destruct (parent_and_name path) as [pp name]. unfold ret in Hs. run_in Hs. destruct r0 as [[dir|] s]; [|by simplify_eq].
  run_in Hs. destruct r0. by simplify_eq.
Qed.

Lemma sys_pipe_turn ptr k r k' :
  ipc_ok (k_ipc k) → 0 ≤ ptr → sys_pipe ptr k = Done (r, k') → turn_safe (Some (ptr, 16)) k r k'.
Proof.
  intros Hi Hp Hs. unfold sys_pipe, ret in Hs.
  destruct (is_user_accessible ptr 16) eqn:Ha; simpl in Hs; [|simplify_eq; by apply kept_safe].
  apply is_user_accessible_spec in Ha; [|lia..]. destruct (pipe_new _) as [[re we] s]. run_in Hs.
  destruct r0 as [[rfd wfd] f]. simplify_eq. split; [|split; [done|done]]. simpl.
  intros a Ha'. destruct (decide (ptr ≤ a < ptr + 16)); [lia|].
  rewrite !mem_write_out in Ha' by (rewrite zlen_to_le; lia). done.
Qed.

Lemma sys_read_turn fd ptr len k r k' :
  ipc_ok (k_ipc k) → 0 ≤ ptr → 0 ≤ len → sys_read fd ptr len k = Done (r, k') → turn_safe (Some (ptr, len)) k r k'.
Proof.
  intros Hi Hp Hl Hs. unfold sys_read, ret in Hs. destruct (len =? 0); [simplify_eq; by apply kept_safe|].
  destruct (is_user_accessible ptr len) eqn:Ha; simpl in Hs; [|simplify_eq; by apply kept_safe].
  destruct (get _ _ _) as [l|]; [by eapply read_turn_turn|simplify_eq; by apply kept_safe].
Qed.

Lemma sys_wait_turn arg1 ptr arg3 k r k' :
  ipc_ok (k_ipc k) → 0 ≤ ptr → sys_wait arg1 ptr arg3 k = Done (r, k') → turn_safe (Some (ptr, 4)) k r k'.
Proof.
  intros Hi Hp Hs. unfold sys_wait in Hs. destruct (current_task_arc _) as [cur|]; [|done].
  cbn [mbind outcome_bind] in Hs. match type of Hs with mbind _ ?m = _ => destruct m as [cs|]; [|done] end.
  cbn [mbind outcome_bind] in Hs. destruct (negb _); [unfold ret in Hs; simplify_eq; by apply kept_safe|].
  by eapply wait_turn_turn.
Qed.

Lemma sys_recv_block_turn port_id ptr k r k' :
  ipc_ok (k_ipc k) → 0 ≤ ptr → sys_recv_block port_id ptr k = Done (r, k') →
  turn_safe (Some (ptr, MAX_MSG_SIZE)) k r k'.
Proof.
  intros Hi Hp Hs. unfold sys_recv_block, ret in Hs.
  destruct (IpcSpace_get_port _ _); [by eapply recv_turn_turn|simplify_eq; by apply kept_safe].
Qed.

Lemma sys_seek_quiet fd off k r k' : sys_seek fd off k = Done (r, k') → quiet k r k'.
Proof. unfold sys_seek, ret. destruct (seek _ _ _ _). intros. by simplify_eq. Qed.

Lemma sys_dup_quiet fd k r k' : sys_dup fd k = Done (r, k') → quiet k r k'.
Proof. unfold sys_dup, ret. destruct (dup _ _ _) as [[]|]; intros; by simplify_eq. Qed.

Lemma ret_quiet rax k k' r k'' : kept k k' → ret rax k' = Done (r, k'') → quiet k r k''.
Proof. unfold ret. intros ? [= <- <-]. by split. Qed.

Create HintDb sysc.
Local Hint Resolve sys_read_turn sys_wait_turn sys_recv_turn sys_recv_block_turn sys_send_turn sys_pipe_turn
  sys_getdents_turn sys_write_quiet sys_open_quiet sys_close_quiet sys_seek_quiet sys_dup_quiet sys_dup2_quiet
  sys_exit_quiet sys_getppid_quiet sys_spawn_quiet sys_mkdir_quiet sys_unlink_quiet : sysc.

Lemma resume_turn p k r k' :
  ipc_ok (k_ipc k) → pend_ok p → resume p k = Done (r, k') → turn_safe (Some (out_pending p)) k r k'.
Proof. destruct p; simpl; eauto using read_turn_turn, wait_turn_turn, recv_turn_turn. Qed.

Notation syscall := (syscall_dispatcher VirtAddr_new heap_fits create_mapper user_entry_trampoline mounts
                       stdin stdout stderr).

(** C2: no system call, whatever its number and arguments, and whether it returns, fails or blocks, changes
    memory outside the buffer its arguments name, nor anything at or above the end of the user half; and the ports
    keep only well-formed messages, which is what makes the copy of the next receive stay inside. A call that
    blocks leaves behind a continuation on the buffer the arguments named, and every turn of such a continuation
    is as safe. *)
Theorem syscall_memory_safe :
  (∀ nr arg1 arg2 arg3 arg4 k r k',
    0 ≤ arg1 → 0 ≤ arg2 → 0 ≤ arg3 → 0 ≤ arg4 → ipc_ok (k_ipc k) →
    syscall nr arg1 arg2 arg3 arg4 k = Done (r, k') → turn_safe (out_buffer nr arg1 arg2 arg3) k r k') ∧
  (∀ p k r k', ipc_ok (k_ipc k) → pend_ok p → resume p k = Done (r, k') → turn_safe (Some (out_pending p)) k r k').
Proof.
  split; [|apply resume_turn].
  intros nr arg1 arg2 arg3 arg4 k r k' Hn1 Hn2 Hn3 Hn4 Hi Hs. unfold syscall_dispatcher in Hs. unfold out_buffer.
  repeat match type of Hs with
  | (if nr =? ?c then _ else _) = _ => destruct (Z.eqb_spec nr c) as [->|?]; [simpl|]
  end; cbn [orb]; first [by eauto 2 with sysc | apply quiet_safe; [done|]; eauto 2 with sysc].
  all: by eapply ret_quiet; [|exact Hs].
Qed.

(* ------------------------------------------------------------------ *)
(** ** Refused calls *)

Definition syscall_numbers : list Z :=
  [SYS_EXIT; SYS_YIELD; SYS_GETPID; SYS_GETPPID; SYS_SPAWN; SYS_WAIT; SYS_OPEN; SYS_CLOSE; SYS_READ; SYS_WRITE;
   SYS_SEEK; SYS_DUP; SYS_DUP2; SYS_PIPE; SYS_GETDENTS; SYS_MKDIR; SYS_UNLINK; SYS_SEND; SYS_RECV; SYS_RECV_BLOCK].

(** The buffer a call must be given: data, a path, or room for results. *)
Definition needs_buffer (nr arg1 arg2 arg3 arg4 : Z) : option (Z * Z) :=
  if nr =? SYS_READ then (if arg3 =? 0 then None else Some (arg2, arg3))
  else if (nr =? SYS_WRITE) || (nr =? SYS_GETDENTS) then Some (arg2, arg3)
  else if (nr =? SYS_OPEN) || (nr =? SYS_SPAWN) || (nr =? SYS_MKDIR) || (nr =? SYS_UNLINK) then Some (arg1, arg2)
  else if nr =? SYS_PIPE then Some (arg1, 16)
  else if nr =? SYS_SEND then (if arg4 <=? MAX_MSG_SIZE then Some (arg3, arg4) else None)
  else None.

Definition in_user_half (ptr len : Z) : Prop := 0 < ptr ∧ 0 < len ∧ ptr + len ≤ 2 ^ 47.

Lemma accessible_in_half ptr len : 0 ≤ ptr → 0 ≤ len → in_user_half ptr len → is_user_accessible ptr len = true.
Proof. intros. by apply is_user_accessible_spec. Qed.

Lemma accessible_not_half ptr len : 0 ≤ ptr → 0 ≤ len → ¬ in_user_half ptr len → is_user_accessible ptr len = false.
Proof. intros Hp Hl Hb. apply not_true_iff_false. by rewrite is_user_accessible_spec. Qed.

Section refused.
Context (arg1 arg2 arg3 arg4 : Z) (Hn1 : 0 ≤ arg1) (Hn2 : 0 ≤ arg2) (Hn3 : 0 ≤ arg3) (Hn4 : 0 ≤ arg4).

Lemma refuse_number nr k : nr ∉ syscall_numbers → syscall nr arg1 arg2 arg3 arg4 k = Done (Ret ERRNO_EINVAL, k).
Proof.
  intros Hn. unfold syscall_dispatcher.
  repeat match goal with
  | |- (if nr =? ?c then _ else _) = _ =>
      destruct (Z.eqb_spec nr c) as [->|?]; [destruct Hn; by apply (bool_decide_unpack _)|]
  end. done.
Qed.

Lemma with_path_fault ptr len k body :
  0 ≤ ptr → 0 ≤ len → ¬ in_user_half ptr len → with_path ptr len k body = Done (Ret ERRNO_EFAULT, k).
Proof. intros. unfold with_path. by rewrite accessible_not_half. Qed.

Lemma refuse_buffer nr ptr len k :
  needs_buffer nr arg1 arg2 arg3 arg4 = Some (ptr, len) → ¬ in_user_half ptr len →
  syscall nr arg1 arg2 arg3 arg4 k = Done (Ret ERRNO_EFAULT, k).
Proof.
  unfold needs_buffer. intros Hb Hbad.
  repeat match type of Hb with
  | context [nr =? ?c] => destruct (Z.eqb_spec nr c) as [->|?]; cbn [orb] in Hb
  end; try done.
  - destruct (Z.eqb_spec arg3 0); [done|]. simplify_eq. change (sys_read arg1 ptr len k = Done (Ret ERRNO_EFAULT, k)).
    unfold sys_read. by rewrite (proj2 (Z.eqb_neq len 0)), accessible_not_half.
  - simplify_eq. change (sys_write arg1 ptr len k = Done (Ret ERRNO_EFAULT, k)). unfold sys_write.
    by rewrite accessible_not_half.
  - simplify_eq. change (sys_getdents arg1 ptr len k = Done (Ret ERRNO_EFAULT, k)). unfold sys_getdents.
    by rewrite accessible_not_half, orb_true_r.
  - simplify_eq. by apply with_path_fault.
  - simplify_eq. by apply with_path_fault.
  - simplify_eq. by apply with_path_fault.
  - simplify_eq. by apply with_path_fault.
  - simplify_eq. change (sys_pipe ptr k = Done (Ret ERRNO_EFAULT, k)). unfold sys_pipe. by rewrite accessible_not_half.
  - destruct (Z.leb_spec arg4 MAX_MSG_SIZE); [|done]. simplify_eq.
    change (sys_send arg1 arg2 ptr len k = Done (Ret ERRNO_EFAULT, k)). unfold sys_send.
    by rewrite (proj2 (Z.ltb_ge MAX_MSG_SIZE len)), accessible_not_half.
Qed.

Notation buf_ok nr :=
  (match needs_buffer nr arg1 arg2 arg3 arg4 with Some (p, l) => in_user_half p l | None => True end).

Lemma refuse_fd nr k :
  nr ∈ [SYS_READ; SYS_WRITE; SYS_GETDENTS; SYS_DUP] → buf_ok nr → (nr = SYS_READ → arg3 ≠ 0) →
  get (current_task_id (k_sched k)) arg1 (k_fds k) = None →
  syscall nr arg1 arg2 arg3 arg4 k = Done (Ret ERRNO_EBADF, k).
Proof.
  intros Hn Hb Hz Hg. repeat (apply elem_of_cons in Hn as [->|Hn]); [..|by apply elem_of_nil in Hn]; unfold needs_buffer in Hb.
  - specialize (Hz eq_refl). simpl in Hb. change (sys_read arg1 arg2 arg3 k = Done (Ret ERRNO_EBADF, k)).
    rewrite (proj2 (Z.eqb_neq arg3 0)) in Hb by done. unfold sys_read.
    by rewrite (proj2 (Z.eqb_neq arg3 0)), accessible_in_half, Hg.
  - change (sys_write arg1 arg2 arg3 k = Done (Ret ERRNO_EBADF, k)). unfold sys_write.
    by rewrite accessible_in_half, Hg.
  - change (sys_getdents arg1 arg2 arg3 k = Done (Ret ERRNO_EBADF, k)). unfold sys_getdents.
    rewrite accessible_in_half, Hg by done. by rewrite (proj2 (Z.eqb_neq arg3 0)) by (destruct Hb; lia).
  - change (sys_dup arg1 k = Done (Ret ERRNO_EBADF, k)). unfold sys_dup, dup, get in *. by rewrite Hg.
Qed.

(** Descriptors left as they are: nothing is dropped. *)
Lemma release_same k : settle k = Done k → release (k_fds k) k = Done k.
Proof.
  intros Hs. unfold release. replace (filter _ _) with (@nil N).
  - destruct k as [[] ? ? ?]. exact Hs.
  - symmetry. apply filter_none. intros n Hn Hno. by rewrite elem_of_remove_dups in Hn.
Qed.

Lemma refuse_fd_change nr k :
  nr ∈ [SYS_CLOSE; SYS_SEEK; SYS_DUP2] → get (current_task_id (k_sched k)) arg1 (k_fds k) = None → settle k = Done k →
  syscall nr arg1 arg2 arg3 arg4 k = Done (Ret ERRNO_EBADF, k).
Proof.
  intros Hn Hg Hs. repeat (apply elem_of_cons in Hn as [->|Hn]); [..|by apply elem_of_nil in Hn]; unfold get in Hg.
  - change (sys_close arg1 k = Done (Ret ERRNO_EBADF, k)). unfold sys_close, close. rewrite Hg, delete_id by done.
    replace (set_table _ _) with (k_fds k) by (by destruct (k_fds k)). by rewrite release_same.
  - change (sys_seek arg1 arg2 k = Done (Ret ERRNO_EBADF, k)). unfold sys_seek, seek, get. rewrite Hg.
    by destruct k as [[] ? ? ?].
  - change (sys_dup2 arg1 arg2 k = Done (Ret ERRNO_EBADF, k)). unfold sys_dup2, dup2. rewrite Hg.
    by destruct (arg1 =? arg2); rewrite release_same.
Qed.

(** A received message whose buffer is bad is gone. *)
Lemma recv_bad_buffer l p p' msg k :
  IpcSpace_get_port arg1 (k_ipc k) = Some l → port_at l k = Done p → Port_receive p = (Some msg, p') →
  0 ≤ msg_len msg → ¬ in_user_half arg2 (msg_len msg) →
  syscall SYS_RECV arg1 arg2 arg3 arg4 k = Done (Ret ERRNO_EFAULT, set_port l p' k).
Proof.
  intros Hp Hat Hr Hl Hb. change (sys_recv arg1 arg2 k = Done (Ret ERRNO_EFAULT, set_port l p' k)).
  unfold sys_recv. rewrite Hp, Hat. cbn [mbind outcome_bind]. rewrite Hr. unfold deliver. by rewrite accessible_not_half.
Qed.

Lemma refuse_path nr k :
  nr ∈ [SYS_OPEN; SYS_SPAWN; SYS_MKDIR; SYS_UNLINK] → buf_ok nr → utf8_valid (mem_read arg1 arg2 (k_mem k)) = false →
  syscall nr arg1 arg2 arg3 arg4 k = Done (Ret ERRNO_EINVAL, k).
Proof.
  intros Hn Hb Hu.
  assert (∀ body, in_user_half arg1 arg2 → with_path arg1 arg2 k body = Done (Ret ERRNO_EINVAL, k)) as Hw.
  { intros. unfold with_path. by rewrite accessible_in_half, Hu. }
  repeat (apply elem_of_cons in Hn as [->|Hn]); [..|by apply elem_of_nil in Hn]; by apply Hw.
Qed.

Lemma refuse_port nr k :
  nr ∈ [SYS_SEND; SYS_RECV; SYS_RECV_BLOCK] → buf_ok nr → (nr = SYS_SEND → arg4 ≤ MAX_MSG_SIZE) →
  IpcSpace_get_port arg1 (k_ipc k) = None → syscall nr arg1 arg2 arg3 arg4 k = Done (Ret ERRNO_ENOENT, k).
Proof.
  intros Hn Hb Hl Hp. repeat (apply elem_of_cons in Hn as [->|Hn]); [..|by apply elem_of_nil in Hn].
  - specialize (Hl eq_refl). unfold needs_buffer in Hb. simpl in Hb.
    rewrite (proj2 (Z.leb_le arg4 MAX_MSG_SIZE)) in Hb by done.
    change (sys_send arg1 arg2 arg3 arg4 k = Done (Ret ERRNO_ENOENT, k)).
    unfold sys_send. rewrite (proj2 (Z.ltb_ge MAX_MSG_SIZE arg4)), accessible_in_half by done. cbn [negb].
    rewrite copy_into_Done; [|lia| |by rewrite zlen_mem_read; lia]; cbn [mbind outcome_bind]; [by rewrite Hp|].
    rewrite zlen_zrep; [done|]. unfold MAX_MSG_SIZE. lia.
  - change (sys_recv arg1 arg2 k = Done (Ret ERRNO_ENOENT, k)). unfold sys_recv. by rewrite Hp.
  - change (sys_recv_block arg1 arg2 k = Done (Ret ERRNO_ENOENT, k)). unfold sys_recv_block. by rewrite Hp.
Qed.
End refused.


(** C22: a directory listing round-trips: SYS_GETDENTS on a descriptor of a directory writes the records of the
    longest run of entries that fits, starting at the descriptor's cursor; a program that reads the returned
    number of bytes record by record finds exactly those names and types; and the cursor moves past them, so that
    the next call goes on with the first entry that did not fit. *)
Theorem getdents_roundtrip fd ptr len arg4 k l file entries s :
  0 ≤ ptr → 0 ≤ len → in_user_half ptr len →
  get (current_task_id (k_sched k)) fd (k_fds k) = Some l → fd_files (k_fds k) !! l = Some file →
  inode_readdir (of_inode file) (k_store k) = Done (Some entries, s) →
  0 ≤ of_offset file < zlen entries → Forall entry_ok entries →
  let rest := zdrop (of_offset file) entries in
  let n := fitting len rest in
  ∃ w k', syscall SYS_GETDENTS fd ptr len arg4 k = Done (Ret w, k') ∧ 0 ≤ w ≤ len ∧
    read_dirents (Z.to_nat w) (mem_read ptr w (k_mem k')) = (λ e, (e.1, d_type e.2)) <$> take n rest ∧
    fd_files (k_fds k') !! l = Some (mkOpenFile (of_inode file) (of_offset file + Z.of_nat n)).
Proof.
  intros Hp Hl Hu Hg Hf Hrd Hoff Hes rest n.
  change (syscall SYS_GETDENTS fd ptr len arg4 k) with (sys_getdents fd ptr len k). unfold sys_getdents.
  rewrite accessible_in_half by done. rewrite (proj2 (Z.eqb_neq len 0)) by (destruct Hu; lia). cbn [orb negb].
  rewrite Hg, Hf. cbn [unwrap mbind outcome_bind]. rewrite Hrd. cbn [mbind outcome_bind].
  rewrite (proj2 (Z.leb_gt _ _)) by lia. fold rest.
  pose proof (zlen_mem_read ptr len (k_mem k) Hl) as Hz. change (k_mem (set_store s k)) with (k_mem k).
  rewrite getdents_loop_spec by lia. cbv zeta. rewrite Hz, Z.sub_0_r. fold n. cbn [mbind outcome_bind].
  pose proof (zlen_records_fit (of_offset file) len rest Hl) as Hfit. fold n in Hfit.
  set (recs := dirent_records (of_offset file) (take n rest)) in *.
  eexists (0 + zlen recs), _. split; [done|]. split; [lia|]. rewrite Z.add_0_l. split.
  - simpl. unfold zsplice. change (ztake 0 _) with (@nil Z). rewrite app_nil_l, mem_read_write_prefix.
    apply read_dirents_records; [by apply Forall_take, Forall_drop|].
    pose proof (length_records (of_offset file) (take n rest)) as Hlen. fold recs in Hlen. lia.
  - cbn. rewrite lookup_alter_eq. unfold k_fds in Hf. by rewrite Hf.
Qed.
End safety.
