(* ===== verification/Devices.v ===== *)
(** * The nodes of the running kernel
      (kernel/src/stdio.rs, drivers/src/console.rs, kernel/src/pipe.rs)

    The device nodes a descriptor can refer to besides files and directories:
    the standard streams, [/dev/console] and the two ends of pipes, over the
    keyboard ring, the serial port, the kernel terminal and the table of
    pipes.  Together with the RAM file system they are the nodes that the
    system calls work on: this file discharges the interface [KernelNodes] of
    Syscall.v and its law. *)

From S2P Require Import Prelude Pipe Keyboard Task Ipc Vfs RamFs.
From S2P Require Import Fd Console Serial Memory Loader Process Executor Syscall.

Inductive dev :=
  | Stdin
  | Stdout
  | Stderr
  | ConsoleDevice
  | PipeRead (l : loc)
  | PipeWrite (l : loc).

#[global] Instance dev_eq_dec : EqDecision dev.
Proof. solve_decision. Defined.
#[global] Instance node_eq_dec' : EqDecision (node dev).
Proof. solve_decision. Defined.

Section devices.
Context {U : Type} `{Ports U}.

Record devs := mkDevs {
  d_kbd : RingBuffer;
  d_serial : serial U;
  d_tty : option Tty;
  d_pipes : gmap loc PipeInner;
  d_next : loc;
  d_woken : list loc;
}.

Implicit Types (d : dev) (s : devs).

Definition set_kbd (r : RingBuffer) s : devs := mkDevs r (d_serial s) (d_tty s) (d_pipes s) (d_next s) (d_woken s).
Definition set_serial (p : serial U) s : devs := mkDevs (d_kbd s) p (d_tty s) (d_pipes s) (d_next s) (d_woken s).
Definition set_tty (t : option Tty) s : devs := mkDevs (d_kbd s) (d_serial s) t (d_pipes s) (d_next s) (d_woken s).
(** A pipe after an operation that woke some tasks. *)
Definition set_pipe (l : loc) (p : PipeInner) (woken : list loc) s : devs :=
  mkDevs (d_kbd s) (d_serial s) (d_tty s) (<[l := p]> (d_pipes s)) (d_next s) (d_woken s ++ woken).

(* ------------------------------------------------------------------ *)
(** ** The standard streams *)

(** A turn of the polling loop that finds a key; without one the loop goes on
    (see [dev_waits]), which is not a result. *)
Definition StdinINode_read (buf : list Z) s : outcome (Z * list Z * devs) :=
  if zlen buf =? 0 then Done (0, buf, s)
  else
    '(r, key) ← pop_key (d_kbd s);
    match key with
    | Some b => buf ← upd buf 0 b; Done (1, buf, set_kbd r s)
    | None => Panic
    end.

Definition StdoutINode_write (buf : list Z) s : outcome (Z * devs) :=
  if utf8_valid buf then
    p ← serial_print buf (d_serial s);
    t ← console_print buf (d_tty s);
    Done (zlen buf, set_tty t (set_serial p s))
  else Done (0, s).

Definition StderrINode_write (buf : list Z) s : outcome (Z * devs) :=
  if utf8_valid buf then
    p ← serial_print buf (d_serial s);
    Done (zlen buf, set_serial p s)
  else Done (0, s).

(** [serial_println!]: the text, then the newline. *)
Definition ConsoleDevice_write (buf : list Z) s : outcome (Z * devs) :=
  if utf8_valid buf then
    p ← serial_print buf (d_serial s);
    p ← serial_print [10] p;
    Done (zlen buf, set_serial p s)
  else Done (0, s).

(* ------------------------------------------------------------------ *)
(** ** The trait *)

Definition dev_read d (off : Z) (buf : list Z) s : outcome (Z * list Z * devs) :=
  match d with
  | Stdin => StdinINode_read buf s
  | Stdout | Stderr | ConsoleDevice => Done (0, buf, s)
  | PipeRead l =>
      p ← unwrap (d_pipes s !! l);
      '(p, buf, n) ← PipeReadEnd_read None p buf;
      match n with Some n => Done (n, buf, set_pipe l p [] s) | None => Panic end
  | PipeWrite l =>
      p ← unwrap (d_pipes s !! l);
      Done (PipeWriteEnd_read p buf, buf, s)
  end.

Definition dev_write d (off : Z) (buf : list Z) s : outcome (Z * devs) :=
  match d with
  | Stdin => Done (0, s)
  | Stdout => StdoutINode_write buf s
  | Stderr => StderrINode_write buf s
  | ConsoleDevice => ConsoleDevice_write buf s
  | PipeRead l =>
      p ← unwrap (d_pipes s !! l);
      Done (PipeReadEnd_write p buf, s)
  | PipeWrite l =>
      p ← unwrap (d_pipes s !! l);
      '(p, woken, n) ← PipeWriteEnd_write p buf;
      Done (n, set_pipe l p woken s)
  end.

Definition dev_metadata d s : FileType :=
  match d with
  | Stdin | Stdout | Stderr | ConsoleDevice => Device
  | PipeRead _ | PipeWrite _ => File
  end.

Definition dev_size d s : outcome Z :=
  match d with
  | PipeRead l => p ← unwrap (d_pipes s !! l); Done (PipeReadEnd_size p)
  | _ => default_size d s
  end.

#[global] Instance dev_INode : INode dev devs := {
  inode_read := dev_read;
  inode_write := dev_write;
  inode_metadata := dev_metadata;
  inode_lookup := default_lookup;
  inode_insert := default_insert;
  inode_create_file := default_create_file;
  inode_mkdir := default_mkdir;
  inode_unlink := default_unlink;
  inode_size := dev_size;
  inode_readdir := default_readdir;
}.

(* ------------------------------------------------------------------ *)
(** ** What the system calls need of the nodes *)

Definition dev_waits d s : read_wait :=
  match d with
  | Stdin => if rb_head (d_kbd s) =? rb_tail (d_kbd s) then ReadSpins else ReadReady
  | PipeRead l =>
      match d_pipes s !! l with
      | Some p => if (0 <? pi_count p) || pi_write_closed p then ReadReady else ReadSleeps
      | None => ReadReady
      end
  | _ => ReadReady
  end.

Definition dev_add_reader (t : loc) d s : devs :=
  match d with
  | PipeRead l =>
      match d_pipes s !! l with
      | Some p =>
          match PipeReadEnd_read (Some t) p [] with
          | Done (p, _, None) => set_pipe l p [] s
          | _ => s
          end
      | None => s
      end
  | _ => s
  end.

Definition dev_drop d s : devs :=
  match d with
  | PipeRead l =>
      match d_pipes s !! l with Some p => set_pipe l (PipeReadEnd_drop p) [] s | None => s end
  | PipeWrite l =>
      match d_pipes s !! l with
      | Some p => let '(p, woken) := PipeWriteEnd_drop p in set_pipe l p woken s
      | None => s
      end
  | _ => s
  end.

(** The shared state of a new pipe, behind the two ends of [create_pipe]. *)
Definition dev_pipe_new s : loc * devs :=
  (d_next s,
   mkDevs (d_kbd s) (d_serial s) (d_tty s) (<[d_next s := PipeInner_new]> (d_pipes s)) (S (d_next s)) (d_woken s)).

Notation nodes := (store dev devs).

#[global] Instance dev_KernelNodes : KernelNodes (node dev) nodes := {
  read_waits n (s : nodes) := match n with Dev d => dev_waits d (st_dev s) | Ram _ => ReadReady end;
  add_reader t n (s : nodes) :=
    match n with Dev d => mkStore (st_heap s) (dev_add_reader t d (st_dev s)) | Ram _ => s end;
  node_drop n (s : nodes) :=
    match n with Dev d => mkStore (st_heap s) (dev_drop d (st_dev s)) | Ram _ => s end;
  take_woken (s : nodes) :=
    let d := st_dev s in
    (d_woken d, mkStore (st_heap s) (mkDevs (d_kbd d) (d_serial d) (d_tty d) (d_pipes d) (d_next d) []));
  pipe_new (s : nodes) :=
    let '(l, d) := dev_pipe_new (st_dev s) in
    (Dev (PipeRead l), Dev (PipeWrite l), mkStore (st_heap s) d);
}.
End devices.
Arguments devs U : clear implicits.

(* ------------------------------------------------------------------ *)
(** ** The law *)

Section law.
Context {U : Type} `{Ports U}.

Lemma PipeInner_pop_len p dst p' dst' n : PipeInner_pop p dst = Done (p', dst', n) → zlen dst' = zlen dst.
Proof.
  unfold PipeInner_pop. intros Hp. run_in Hp. simplify_eq.
  eapply (for_each_inv (λ d, zlen d = zlen dst)); [|done|done].
  intros i d1 d2 _ <- Hd. unfold pop_byte in Hd. run_in Hd. apply upd_inv in Hd as [_ ->]. apply zlen_zset.
Qed.

Lemma dev_read_len (d : dev) off buf (s : devs U) n buf' s' :
  dev_read d off buf s = Done (n, buf', s') → zlen buf' = zlen buf.
Proof.
  destruct d as [| | | |l|l]; cbn [dev_read]; intros Hr; try by simplify_eq.
  - unfold StdinINode_read in Hr. run_in Hr; [by simplify_eq|]. destruct r as [r [b|]]; [|done].
    run_in Hr. simplify_eq. by match goal with E : upd _ _ _ = Done _ |- _ => apply upd_inv in E as [_ ->]; apply zlen_zset end.
  - destruct (d_pipes s !! l) as [p|]; [|done]. cbn in Hr.
    unfold PipeReadEnd_read in Hr. destruct (0 <? pi_count p).
    + destruct (PipeInner_pop p buf) as [[[p' b'] k]|] eqn:E; [|done]. cbn in Hr. simplify_eq.
      by apply PipeInner_pop_len in E.
    + destruct (pi_write_closed p); cbn in Hr; by simplify_eq.
  - run_in Hr. by simplify_eq.
Qed.

#[global] Instance dev_ReadLaw : ReadLaw (node dev) (store dev (devs U)).
Proof.
  split. intros [l|d] off buf s n buf' s' Hr; cbn [inode_read ram_INode ram_read] in Hr.
  - run_in Hr. destruct r as [nm data|nm cs]; [|by simplify_eq]. run_in Hr. destruct r as [k b]. simplify_eq.
    unfold RamFile_read in *. destruct (_ <=? _); [by simplify_eq|].
    match goal with E : _ = Done (n, buf') |- _ => run_in E; simplify_eq end.
    by match goal with E : copy_into _ _ _ _ = Done _ |- _ => apply copy_into_len in E end.
  - unfold on_dev in Hr. run_in Hr. destruct r as [[k b] sd]. simplify_eq. match goal with E : inode_read _ _ _ _ = Done _ |- _ => exact (dev_read_len _ _ _ _ _ _ _ E) end.
Qed.
End law.
