(* ===== verification/KernelFiles.v ===== *)
(** * System calls on the kernel's files, pipes and streams

    The dispatcher of Syscall.v over the nodes of Devices.v: what a program
    sees of a file, a pipe and the standard output through descriptors.

    Shown here: bytes written to a file and read back after a seek are the
    same, whatever the buffers; a task that reads an empty pipe sleeps, the
    write of another task wakes it, and its read returns the bytes written;
    a program that prints a tab stops the kernel. *)

From S2P Require Import Prelude Pipe Keyboard Task Sched Ipc Vfs RamFs.
From S2P Require Import Fd Console Serial Memory Loader Process Executor Syscall Devices.

Section files.
Context {PT : Type} `{Mapper PT}.
Context {U : Type} `{Ports U}.
Context {F : Type}.
Context (VirtAddr_new : Z → outcome Z) (heap_fits : Z → bool).
Context (create_mapper : Z → gmap Z (list Z) → PT) (user_entry_trampoline : Z).
Notation N := (node dev).
Notation St := (store dev (devs U)).
Context (mounts : list (MountEntry N)) (stdin stdout stderr : N).

Notation kern := (kernel PT N St F).
Notation syscall := (syscall_dispatcher VirtAddr_new heap_fits create_mapper user_entry_trampoline mounts
                       stdin stdout stderr).
Implicit Types (k : kern).

Definition k_devs k : devs U := st_dev (k_store k).

(** A descriptor of the current task. *)
Definition opened k (fd : Z) (l : loc) (file : OpenFile N) : Prop :=
  get (current_task_id (k_sched k)) fd (k_fds k) = Some l ∧ fd_files (k_fds k) !! l = Some file.

Lemma opened_offset k k' fd l file off :
  opened k fd l file → k_fds k' = set_offset l off (k_fds k) →
  current_task_id (k_sched k') = current_task_id (k_sched k) → opened k' fd l (mkOpenFile (of_inode file) off).
Proof.
  intros [Hg Hf] Ef Ec. split; [by rewrite Ec, Ef|]. rewrite Ef. unfold set_offset. cbn [fd_files].
  by rewrite lookup_alter_eq, Hf.
Qed.

(** Nothing to wake: [settle] changes nothing. *)
Lemma settle_none k : d_woken (k_devs k) = [] → settle k = Done k.
Proof.
  destruct k as [[[hp [kb se tt pp nx wk]] f sc pa tb ph sp ks] ip ex me]. unfold k_devs. simpl. intros ->. done.
Qed.

(* ------------------------------------------------------------------ *)
(** ** Files *)

Definition set_ram (rl : loc) (x : ramnode dev) k : kern :=
  set_store (mkStore (<[rl := x]> (st_heap (k_store k))) (k_devs k)) k.

Lemma ram_write_call fd l rl nm data off ptr len arg4 k :
  0 ≤ ptr → 0 ≤ len → in_user_half ptr len → opened k fd l (mkOpenFile (Ram rl) off) →
  st_heap (k_store k) !! rl = Some (RamFile nm data) → 0 ≤ off → off + len < 2 ^ 64 → d_woken (k_devs k) = [] →
  ∃ data', RamFile_write data off (mem_read ptr len (k_mem k)) = Done (len, data') ∧
    syscall SYS_WRITE fd ptr len arg4 k =
      Done (Ret len, set_fds (set_offset l (off + len) (k_fds k)) (set_ram rl (RamFile nm data') k)).
Proof.
  intros Hp Hl Hu [Hg Hf] Hr Ho Hlt Hw.
  pose proof (zlen_mem_read ptr len (k_mem k) Hl) as Hz.
  destruct (write_spec data off (mem_read ptr len (k_mem k)) Ho) as (data' & E & _); [lia|]. rewrite Hz in E.
  exists data'. split; [done|].
  change (syscall SYS_WRITE fd ptr len arg4 k) with (sys_write fd ptr len k). unfold sys_write.
  rewrite accessible_in_half by done. rewrite Hg, Hf. cbn [negb unwrap mbind outcome_bind of_inode of_offset].
  cbn [inode_write ram_INode ram_write]. unfold ram_at. rewrite Hr. cbn [unwrap mbind outcome_bind]. rewrite E.
  cbn [mbind outcome_bind]. rewrite settle_none by done. cbn [mbind outcome_bind].
  rewrite (wrap_small 64 (off + len)) by (split; lia). done.
Qed.

Lemma ram_read_call fd l rl nm data off ptr len arg4 k :
  0 ≤ ptr → 0 ≤ len → in_user_half ptr len → opened k fd l (mkOpenFile (Ram rl) off) →
  st_heap (k_store k) !! rl = Some (RamFile nm data) → 0 ≤ off → d_woken (k_devs k) = [] →
  ∀ n buf, RamFile_read data off (mem_read ptr len (k_mem k)) = Done (n, buf) →
  syscall SYS_READ fd ptr len arg4 k =
    Done (Ret n, set_fds (set_offset l (off ⊞ n) (k_fds k)) (set_mem (mem_write ptr buf (k_mem k)) k)).
Proof.
  intros Hp Hl Hu [Hg Hf] Hr Ho Hw n buf E.
  change (syscall SYS_READ fd ptr len arg4 k) with (sys_read fd ptr len k). unfold sys_read.
  rewrite (proj2 (Z.eqb_neq len 0)), accessible_in_half by (done || destruct Hu; lia). rewrite Hg. cbn [negb].
  unfold read_turn. rewrite Hf. cbn [unwrap mbind outcome_bind of_inode of_offset read_waits dev_KernelNodes].
  cbn [inode_read ram_INode ram_read]. unfold ram_at. rewrite Hr. cbn [unwrap mbind outcome_bind]. rewrite E.
  cbn [mbind outcome_bind]. rewrite settle_none by done. cbn [mbind outcome_bind]. unfold ret.
  destruct k as [[[hp dd] f sc pa tb ph sp ks] ip ex me]. done.
Qed.


(* ------------------------------------------------------------------ *)
(** ** Pipes *)

Definition k_pipe k (p : loc) : option PipeInner := d_pipes (k_devs k) !! p.
Definition queued k : list loc := match s_rq (k_sched k) with Some rq => rq_queue rq | None => [] end.
Definition running k : option loc := match s_rq (k_sched k) with Some rq => rq_current rq | None => None end.

(** A new, empty pipe that task [a] may wait on. *)
Definition empty_pipe (pipe : PipeInner) (waiters : list loc) : Prop :=
  pipe_inv pipe ∧ pi_count pipe = 0 ∧ pi_write_closed pipe = false ∧ pi_read_closed pipe = false ∧
  pi_waiters pipe = waiters.

(** Reading an empty pipe: the task is put on the wait list and switched out. *)
Lemma pipe_read_blocks fd l p off pipe ptr len arg4 k h b q a zs ct ni hk ks r ta tb :
  0 ≤ ptr → 0 ≤ len → in_user_half ptr len → opened k fd l (mkOpenFile (Dev (PipeRead p)) off) →
  k_pipe k p = Some pipe → empty_pipe pipe [] → d_woken (k_devs k) = [] →
  k_sched k = mkSched h (Some (mkRunQueue (b :: q) (Some a) zs)) ct ni hk ks r →
  h !! a = Some ta → h !! b = Some tb → a ≠ b →
  ∃ k1, syscall SYS_READ fd ptr len arg4 k = Done (Blocks (PendRead l ptr len), k1) ∧
    k_mem k1 = k_mem k ∧ k_fds k1 = k_fds k ∧ d_woken (k_devs k1) = [] ∧
    (∃ pipe1, k_pipe k1 p = Some pipe1 ∧ empty_pipe pipe1 [a]) ∧
    k_sched k1 = switched (<[b := set_state Running tb]> (<[a := set_state Blocked ta]> h)) q zs ni ks hk r a b
                   (set_state Blocked ta) (set_state Running tb).
Proof.
  intros Hp Hl Hu [Hg Hf] Hpi (Hinv & Hc & Hwc & Hrc & Hw) Hwk Hs Ha Hb Hne.
  change (syscall SYS_READ fd ptr len arg4 k) with (sys_read fd ptr len k). unfold sys_read.
  rewrite (proj2 (Z.eqb_neq len 0)), accessible_in_half by (done || destruct Hu; lia). rewrite Hg. cbn [negb].
  unfold read_turn. rewrite Hf. cbn [unwrap mbind outcome_bind of_inode read_waits dev_KernelNodes dev_waits].
  unfold k_pipe in Hpi. unfold k_devs in Hpi at 1. rewrite Hpi, Hc, Hwc. cbn [Z.ltb Z.compare orb].
  rewrite Hs. unfold current_task_arc. cbn [global s_rq unwrap mbind outcome_bind rq_current].
  rewrite (block_eq _ _ _ _ _ _ _ _ a ta b tb) by done. cbn [mbind outcome_bind].
  eexists. split; [done|]. cbn [add_reader dev_KernelNodes dev_add_reader]. rewrite Hpi.
  unfold PipeReadEnd_read. rewrite Hc, Hwc, Hw. cbn [Z.ltb Z.compare app].
  split; [done|]. split; [done|]. split; [simpl; unfold k_devs in Hwk; by rewrite Hwk|]. split; [|done].
  eexists. split; [unfold k_pipe; simpl; by rewrite lookup_insert_eq|].
  destruct Hinv as [? ? ? ?]. split_and!; try done.
Qed.

(** A write into a pipe a task waits on: the bytes go in, the task is queued. *)
Lemma pipe_write_wakes fd l p off pipe ptr len arg4 a k h q c zs ct ni hk ks r ta :
  0 ≤ ptr → 0 ≤ len → in_user_half ptr len → opened k fd l (mkOpenFile (Dev (PipeWrite p)) off) →
  k_pipe k p = Some pipe → empty_pipe pipe [a] → d_woken (k_devs k) = [] →
  k_sched k = mkSched h (Some (mkRunQueue q c zs)) ct ni hk ks r → h !! a = Some ta →
  let w := Z.min len PIPE_BUFSZ in
  ∃ k2 pipe2, syscall SYS_WRITE fd ptr len arg4 k = Done (Ret w, k2) ∧
    k_mem k2 = k_mem k ∧ k_fds k2 = set_offset l (off ⊞ w) (k_fds k) ∧ d_woken (k_devs k2) = [] ∧
    k_pipe k2 p = Some pipe2 ∧ pipe_inv pipe2 ∧ pi_count pipe2 = w ∧
    pipe_contents pipe2 = ztake w (mem_read ptr len (k_mem k)) ∧
    k_sched k2 = mkSched (<[a := set_state Ready ta]> h) (Some (mkRunQueue (q ++ [a]) c zs)) ct ni hk ks r.
Proof.
  intros Hp Hl Hu [Hg Hf] Hpi (Hinv & Hc & Hwc & Hrc & Hw) Hwk Hs Ha w.
  change (syscall SYS_WRITE fd ptr len arg4 k) with (sys_write fd ptr len k). unfold sys_write.
  rewrite accessible_in_half by (done || lia). rewrite Hg, Hf. cbn [negb unwrap mbind outcome_bind of_inode of_offset].
  cbn [inode_write ram_INode ram_write dev_INode]. unfold on_dev. cbn [inode_write dev_INode dev_write].
  unfold k_pipe in Hpi. unfold k_devs in Hpi at 1. rewrite Hpi. cbn [unwrap mbind outcome_bind].
  pose proof (zlen_mem_read ptr len (k_mem k) ltac:(lia)) as Hz. set (bytes := mem_read ptr len (k_mem k)) in *.
  destruct (push_spec pipe bytes Hinv) as (p2 & Epush & Hl2 & Hp2 & Hc2 & Hwc2 & Hrc2 & Hw2 & Hct).
  unfold PipeInner_space in *. rewrite Hz, Hc, Z.sub_0_r in Epush, Hc2, Hct. fold w in Epush, Hc2, Hct.
  unfold PipeWriteEnd_write. rewrite Hrc, Epush. cbn [mbind outcome_bind].
  unfold settle. cbn [take_woken dev_KernelNodes]. simpl. unfold k_devs in Hwk. rewrite Hwk, Hw2, Hw.
  match goal with |- context [for_each _ wake_task (k_sched ?x)] => change (k_sched x) with (k_sched k) end.
  rewrite Hs. simpl. rewrite (wake_eq _ _ _ _ _ _ _ _ _ a ta) by done. simpl.
  eexists _, _. split; [done|]. do 3 (split; [done|]). split; [unfold k_pipe; simpl; by rewrite lookup_insert_eq|].
  destruct Hinv. split; [split; simpl; [done|lia|lia|done]|]. split; [simpl; lia|]. split; [|done].
  transitivity (pipe_contents p2); [done|]. rewrite Hct. unfold pipe_contents. by rewrite Hc.
Qed.

(** Reading a pipe that holds bytes. *)
Lemma pipe_read_turn l p off pipe ptr len k :
  0 ≤ len → fd_files (k_fds k) !! l = Some (mkOpenFile (Dev (PipeRead p)) off) → k_pipe k p = Some pipe →
  pipe_inv pipe → 0 < pi_count pipe → d_woken (k_devs k) = [] →
  let n := Z.min len (pi_count pipe) in
  ∃ k3, read_turn l ptr len k = Done (Ret n, k3) ∧
    mem_read ptr n (k_mem k3) = ztake n (pipe_contents pipe) ∧
    ∀ x, ¬ (ptr ≤ x < ptr + n) → k_mem k3 x = k_mem k x.
Proof.
  intros Hl Hf Hpi Hinv Hc Hwk n.
  unfold read_turn. rewrite Hf. cbn [unwrap mbind outcome_bind of_inode of_offset read_waits dev_KernelNodes dev_waits].
  unfold k_pipe in Hpi. unfold k_devs in Hpi at 1. rewrite Hpi. rewrite (proj2 (Z.ltb_lt 0 (pi_count pipe))) by done.
  cbn [orb]. cbn [inode_read ram_INode ram_read]. unfold on_dev. cbn [inode_read dev_INode dev_read]. rewrite Hpi.
  cbn [unwrap mbind outcome_bind]. unfold PipeReadEnd_read. rewrite (proj2 (Z.ltb_lt 0 (pi_count pipe))) by done.
  pose proof (zlen_mem_read ptr len (k_mem k) Hl) as Hz. set (buf := mem_read ptr len (k_mem k)) in *.
  pose proof (zlen_contents pipe Hinv) as Hlc.
  destruct (pop_spec pipe buf Hinv) as (p' & dst & -> & _ & _ & _ & _ & _ & _ & -> & _).
  cbn [mbind outcome_bind]. rewrite Hz. fold n. rewrite settle_none by (simpl; unfold k_devs in Hwk; by rewrite Hwk).
  cbn [mbind outcome_bind]. eexists. split; [done|]. simpl.
  set (got := ztake n (pipe_contents pipe)). assert (zlen got = n) as Hgl by (unfold got; rewrite zlen_ztake; lia).
  split.
  - unfold zsplice. change (ztake 0 buf) with (@nil Z). rewrite app_nil_l, <-Hgl. apply mem_read_write_prefix.
  - intros x Hx. unfold mem_write. destruct (decide (ptr ≤ x < ptr + len)).
    + rewrite zget_zsplice_out by lia. unfold buf. rewrite zget_mem_read by lia. f_equal. lia.
    + rewrite zget_None; [done|]. rewrite zlen_zsplice by lia. lia.
Qed.

(** C6: a pipe between two tasks, as the handlers of the system calls carry it out.  A task [a] that reads an empty
    pipe, open for writing, on which no task waits, sleeps and the CPU goes to the next ready task [b].  A write of
    [len'] bytes by [b], whose memory may be another, into the pipe accepts them up to its capacity of 4096 bytes,
    and puts [a] back on the run queue.  When [a] is resumed with the pipe and the descriptors as the write left
    them, its read returns the first bytes accepted, as many as its buffer holds, in its buffer.  The GS bases, which
    the entry code of a system call swaps, are not part of the handlers' state; the lemma
    [unswapped_switch_uses_null_page] of X86 shows what this path does to them. *)
Theorem pipe_sleep_wake_read fd l p off pipe ptr len arg4 k h b q a zs ct ni hk ks r ta tb :
  0 ≤ ptr → 0 ≤ len → in_user_half ptr len → opened k fd l (mkOpenFile (Dev (PipeRead p)) off) →
  k_pipe k p = Some pipe → empty_pipe pipe [] → d_woken (k_devs k) = [] →
  k_sched k = mkSched h (Some (mkRunQueue (b :: q) (Some a) zs)) ct ni hk ks r →
  h !! a = Some ta → h !! b = Some tb → a ≠ b →
  ∃ k1, syscall SYS_READ fd ptr len arg4 k = Done (Blocks (PendRead l ptr len), k1) ∧ running k1 = Some b ∧
    ∀ mem fd' l' off' ptr' len', 0 ≤ ptr' → in_user_half ptr' len' →
      opened k1 fd' l' (mkOpenFile (Dev (PipeWrite p)) off') →
    let w := Z.min len' PIPE_BUFSZ in
    ∃ k2, syscall SYS_WRITE fd' ptr' len' 0 (set_mem mem k1) = Done (Ret w, k2) ∧ queued k2 = q ++ [a] ∧
      ∀ k', k_store k' = k_store k2 → k_fds k' = k_fds k2 →
      let n := Z.min len w in
      ∃ k3, resume (PendRead l ptr len) k' = Done (Ret n, k3) ∧
        mem_read ptr n (k_mem k3) = ztake n (mem_read ptr' len' mem).
Proof.
  intros Hp Hl Hu Hop Hpi He Hwk Hs Ha Hb Hne.
  destruct (pipe_read_blocks fd l p off pipe ptr len arg4 k h b q a zs ct ni hk ks r ta tb)
    as (k1 & E1 & Em1 & Ef1 & Ew1 & (pipe1 & Hpi1 & He1) & Es1); [done..|].
  exists k1. split; [exact E1|]. split; [unfold running; by rewrite Es1|].
  intros mem fd' l' off' ptr' len' Hp' Hu' Hop' w. assert (0 < len') by (destruct Hu'; lia).
  destruct (pipe_write_wakes fd' l' p off' pipe1 ptr' len' 0 a (set_mem mem k1) _ q (Some b) zs _ _ _ _ _ _ Hp' ltac:(lia) Hu' Hop'
    Hpi1 He1 Ew1 Es1 (lookup_insert_eq _ _ _)) as (k2 & pipe2 & E2 & Em2 & Ef2 & Ew2 & Hpi2 & Hinv2 & Hc2 & Hct2 & Es2).
  change (k_fds (set_mem mem k1)) with (k_fds k1) in Ef2. change (k_mem (set_mem mem k1)) with mem in Hct2.
  exists k2. split; [exact E2|]. split; [unfold queued; by rewrite Es2|]. intros k' Est Efd. cbv zeta.
  destruct Hop as [_ Hf]. destruct Hop' as [_ Hf']. rewrite Ef1 in Hf'.
  destruct (pipe_read_turn l p off pipe2 ptr len k') as (k3 & E3 & Hm & _); [done| | |done|unfold PIPE_BUFSZ in *; lia| |].
  - rewrite Efd, Ef2, Ef1. unfold set_offset. cbn [fd_files]. rewrite lookup_alter_ne; [done|]. congruence.
  - unfold k_pipe, k_devs. by rewrite Est.
  - unfold k_devs. by rewrite Est.
  - exists k3. rewrite Hc2, Hct2 in *. subst w. split; [done|]. rewrite Hm. unfold ztake. rewrite take_take. f_equal. lia.
Qed.
End files.

(* ------------------------------------------------------------------ *)
(** ** Standard output *)

Section stdout.
Context {PT : Type} `{Mapper PT}.
Context {U : Type} `{Uart16550 U}.
Context {F : Type}.
Context (VirtAddr_new : Z → outcome Z) (heap_fits : Z → bool).
Context (create_mapper : Z → gmap Z (list Z) → PT) (user_entry_trampoline : Z).
Notation N := (node dev).
Notation St := (store dev (devs U)).
Context (mounts : list (MountEntry N)) (stdin stdout stderr : N).
Notation kern := (kernel PT N St F).
Notation syscall := (syscall_dispatcher VirtAddr_new heap_fits create_mapper user_entry_trampoline mounts
                       stdin stdout stderr).
Implicit Types (k : kern).

(** The kernel with other devices. *)
Definition put_devs (d : devs U) k : kern := set_store (mkStore (st_heap (k_store k)) d) k.

(** Text the terminal can show. *)
Lemma stdout_write_call fd l off ptr len arg4 k t g :
  0 ≤ ptr → 0 ≤ len → in_user_half ptr len → opened k fd l (mkOpenFile (Dev Stdout) off) →
  d_woken (k_devs k) = [] → d_tty (k_devs k) = Some t → shows t g → printing (d_serial (k_devs k)) →
  let text := mem_read ptr len (k_mem k) in
  utf8_valid text = true → Forall printable (chars text) →
  ∃ p' t', syscall SYS_WRITE fd ptr len arg4 k =
      Done (Ret len, set_fds (set_offset l (off ⊞ len) (k_fds k))
                       (put_devs (set_tty (Some t') (set_serial p' (k_devs k))) k)) ∧
    printing p' ∧ line (uart p') = line (uart (d_serial (k_devs k))) ++ text ∧
    shows t' (term_write (cols t) (rows t) (chars text) g) ∧ cols t' = cols t ∧ rows t' = rows t.
Proof.
  intros Hp Hl Hu [Hg Hf] Hw Ht Hs Hpr text Hutf Hprint.
  change (syscall SYS_WRITE fd ptr len arg4 k) with (sys_write fd ptr len k). unfold sys_write.
  rewrite accessible_in_half by done. rewrite Hg, Hf. cbn [negb unwrap mbind outcome_bind of_inode of_offset].
  cbn [inode_write ram_INode ram_write]. unfold on_dev. cbn [inode_write dev_INode dev_write]. fold text.
  unfold StdoutINode_write. change (st_dev (k_store k)) with (k_devs k).
  assert (zlen text = len) as Hz by (by apply zlen_mem_read). rewrite Hutf.
  destruct (serial_print_spec text _ Hpr) as (p' & -> & Hpr' & El & _). cbn [mbind outcome_bind].
  unfold console_print. rewrite Ht. unfold Tty_write_str.
  destruct (Tty_write_chars_shows (chars text) t g Hs Hprint) as (t' & -> & Hs' & Hc & Hr). cbn [mbind outcome_bind].
  rewrite settle_none by done. cbn [mbind outcome_bind]. rewrite Hz. by exists p', t'.
Qed.

(** A key that has been typed ahead. *)
Lemma stdin_read_call fd l off ptr arg4 k c q :
  0 ≤ ptr → in_user_half ptr 1 → opened k fd l (mkOpenFile (Dev Stdin) off) → d_woken (k_devs k) = [] →
  rb_inv (d_kbd (k_devs k)) → rb_contents (d_kbd (k_devs k)) = c :: q →
  ∃ r, rb_inv r ∧ rb_contents r = q ∧
    syscall SYS_READ fd ptr 1 arg4 k =
      Done (Ret 1, set_fds (set_offset l (off ⊞ 1) (k_fds k))
                     (set_mem (mem_write ptr [c] (k_mem k)) (put_devs (set_kbd r (k_devs k)) k))).
Proof.
  intros Hp Hu [Hg Hf] Hw Hi Hc.
  change (syscall SYS_READ fd ptr 1 arg4 k) with (sys_read fd ptr 1 k). unfold sys_read.
  rewrite accessible_in_half by (done || lia). rewrite Hg. cbn [Z.eqb negb].
  unfold read_turn. rewrite Hf. cbn [unwrap mbind outcome_bind of_inode of_offset read_waits dev_KernelNodes dev_waits].
  change (st_dev (k_store k)) with (k_devs k).
  destruct (pop_refines (d_kbd (k_devs k)) Hi) as (r & Epop & Hir & Hcr). rewrite Hc in *.
  assert (rb_head (d_kbd (k_devs k)) =? rb_tail (d_kbd (k_devs k)) = false) as ->.
  { unfold RingBuffer_pop in Epop. by destruct (_ =? _). }
  cbn [inode_read ram_INode ram_read]. unfold on_dev. cbn [inode_read dev_INode dev_read].
  change (st_dev (k_store k)) with (k_devs k). unfold StdinINode_read, pop_key. rewrite Epop.
  rewrite zlen_mem_read by lia. cbn [Z.eqb mbind outcome_bind head]. rewrite upd_Done by (rewrite zlen_mem_read; lia).
  cbn [mbind outcome_bind]. rewrite settle_none by done. cbn [mbind outcome_bind]. exists r. by split_and!.
Qed.

(** C23: SYS_WRITE to the standard output: text that is not UTF-8 writes nothing and returns 0; text of printable
    ASCII, newlines and backspaces goes out on the serial line byte for byte and onto the screen as the terminal
    shows it, and the call returns its length; any other text, a tab or an accented letter in it, stops the
    kernel with a panic. *)
Theorem stdout_write fd l off ptr len k t g :
  0 ≤ ptr → 0 ≤ len → in_user_half ptr len → opened k fd l (mkOpenFile (Dev Stdout) off) →
  d_woken (k_devs k) = [] → d_tty (k_devs k) = Some t → shows t g → printing (d_serial (k_devs k)) →
  let text := mem_read ptr len (k_mem k) in
  let r := syscall SYS_WRITE fd ptr len 0 k in
  (utf8_valid text = false → ∃ k', r = Done (Ret 0, k') ∧ k_devs k' = k_devs k) ∧
  (utf8_valid text = true → Forall printable (chars text) → ∃ k' t', r = Done (Ret len, k') ∧
     line (uart (d_serial (k_devs k'))) = line (uart (d_serial (k_devs k))) ++ text ∧
     d_tty (k_devs k') = Some t' ∧ shows t' (term_write (cols t) (rows t) (chars text) g)) ∧
  (utf8_valid text = true → ¬ Forall printable (chars text) → r = Panic).
Proof.
  intros Hp Hl Hu Hop Hw Ht Hs Hpr text r. split_and!.
  2: { intros Hutf Hprint.
       destruct (stdout_write_call fd l off ptr len 0 k t g) as (p' & t' & E & _ & El & Hs' & _); [done..|].
       eexists _, t'. split; [exact E|]. done. }
  all: destruct Hop as [Hg Hf]; intros Hutf; unfold r.
  all: change (syscall SYS_WRITE fd ptr len 0 k) with (sys_write fd ptr len k); unfold sys_write.
  all: rewrite accessible_in_half by done; rewrite Hg, Hf; cbn [negb unwrap mbind outcome_bind of_inode of_offset].
  all: cbn [inode_write ram_INode ram_write]; unfold on_dev; cbn [inode_write dev_INode dev_write]; fold text.
  all: unfold StdoutINode_write; change (st_dev (k_store k)) with (k_devs k); rewrite Hutf.
  - cbn [mbind outcome_bind]. rewrite settle_none by done. cbn [mbind outcome_bind]. by eexists.
  - intros Hprint. destruct (serial_print_spec text _ Hpr) as (p' & -> & _). cbn [mbind outcome_bind].
    unfold console_print. rewrite Ht. unfold Tty_write_str. by rewrite (Tty_write_chars_panic t g).
Qed.
End stdout.
