(* ===== verification/KernelSample.v ===== *)
(** * A kernel with two tasks

    A concrete state of the whole kernel (two tasks, a file, a directory, a
    pipe between the tasks, a terminal of one cell and a UART), on which the
    theorems about system calls are applied. *)

From S2P Require Import Prelude Pipe Keyboard Task Sched Ipc Vfs RamFs Fd.
From S2P Require Import Console Serial Memory Loader Process Executor Syscall Devices KernelFiles.

Definition sample_tcb (id : Z) (st : TaskState) : TaskCB :=
  mkTaskCB id st SchedClass_default CPUContext_default 8192 None "t" 0 None None [] false.

Definition sample_heap : gmap loc TaskCB := {[1%nat := sample_tcb 7 Running; 2%nat := sample_tcb 8 Ready]}.
Definition sample_sched : sched :=
  mkSched sample_heap (Some (mkRunQueue [2%nat] (Some 1%nat) [])) 7 9 false 0 (mkCpu 0 0 0 0 0 0 0 0 4096).

(** The root directory 0 holds the file 5, [/a], and a directory. *)
Definition sample_ram : gmap loc (ramnode dev) :=
  {[0%nat := RamDir [] [([97], Ram 5%nat); ([98; 99], Ram 6%nat)];
    5%nat := RamFile [97] [1; 2]; 6%nat := RamDir [98; 99] []]}.

Definition sample_tty : Tty := mkTty (zrep 512 0) 8 16 32 1 1 0 0 0xAAAAAA 0.
Definition sample_devs : devs uart_model :=
  mkDevs RingBuffer_new (mkSerial (Some (mkSerialPort COM1)) (mkUart [] [] 3 1 0 2)) (Some sample_tty)
    {[0%nat := PipeInner_new]} 1 [].

(** Task 7 has the file, the read end, the output and the directory open, task 8 the write end. *)
Definition sample_fds : fds (node dev) :=
  mkFds {[(7, 0) := 0%nat; (7, 1) := 1%nat; (7, 3) := 3%nat; (7, 4) := 4%nat; (8, 3) := 5%nat]}
    {[0%nat := mkOpenFile (Ram 5%nat) 2; 1%nat := mkOpenFile (Dev Stdout) 0;
      3%nat := mkOpenFile (Dev (PipeRead 0%nat)) 0; 4%nat := mkOpenFile (Ram 0%nat) 0;
      5%nat := mkOpenFile (Dev (PipeWrite 0%nat)) 0]} 9.

(** A port 2 with no messages. *)
Definition sample_ipc : IpcSpace := mkIpcSpace {[2 := 0%nat]} {[0%nat := Port_new 2]}.

(** User memory: a tab at 8192, letters elsewhere. *)
Definition sample_mem : umem := λ a, if a =? 8192 then 9 else 65 + a `mod` 26.

Definition sample_kernel : kernel (gmap Z Z) (node dev) (store dev (devs uart_model)) unit :=
  mkKernel (mkProcSys (mkStore sample_ram sample_devs) sample_fds sample_sched None ∅ ∅ ∅ KSTACK_VA_START)
    sample_ipc None sample_mem.

Notation sample_syscall :=
  (syscall_dispatcher demo_VirtAddr_new (λ n, n <? 2 ^ 20) (λ _ _, ∅) 0xFFFFFFFF80001000
     [mkMountEntry [SLASH] (Ram 0%nat)] (Dev Stdin) (Dev Stdout) (Dev Stderr)).

Lemma sample_ipc_ok : ipc_ok (k_ipc sample_kernel).
Proof. apply map_Forall_singleton. constructor. Qed.

Lemma sample_shows : shows sample_tty (term_blank 1 1).
Proof.
  destruct (init_console_shows (zrep 512 0) 8 16 32) as (t & E & Hs & _); [lia..|done|lia|].
  assert (t = sample_tty) as <-; [|done]. vm_compute in E. by injection E as <-.
Qed.

Ltac sample_goal := first [lia | done | vm_compute; split; discriminate || done | by vm_compute].

(** Reading 100 bytes into the middle of the user half. *)
Lemma syscall_memory_safe_witness :
  ∃ r k', sample_syscall SYS_READ 0 4096 100 0 sample_kernel = Done (r, k') ∧
    turn_safe (Some (4096, 100)) sample_kernel r k'.
Proof.
  destruct (sample_syscall SYS_READ 0 4096 100 0 sample_kernel) as [[r k']|] eqn:E;
    [|vm_compute in E; discriminate E].
  exists r, k'. split; [reflexivity|].
  apply (proj1 (syscall_memory_safe demo_VirtAddr_new (λ n, n <? 2 ^ 20) (λ _ _, ∅) 0xFFFFFFFF80001000
     [mkMountEntry [SLASH] (Ram 0%nat)] (Dev Stdin) (Dev Stdout) (Dev Stderr)) SYS_READ 0 4096 100 0);
    [lia..|exact sample_ipc_ok|exact E].
Defined.


(** Room for the first of two entries. *)
Lemma getdents_roundtrip_witness :
  ∃ w k', sample_syscall SYS_GETDENTS 4 4096 40 0 sample_kernel = Done (Ret w, k') ∧
    read_dirents (Z.to_nat w) (mem_read 4096 w (k_mem k')) = [([97], 8)].
Proof.
  destruct (getdents_roundtrip demo_VirtAddr_new (λ n, n <? 2 ^ 20) (λ _ _, ∅) 0xFFFFFFFF80001000
    [mkMountEntry [SLASH] (Ram 0%nat)] (Dev Stdin) (Dev Stdout) (Dev Stderr) 4 4096 40 0 sample_kernel 4%nat
    (mkOpenFile (Ram 0%nat) 0) [([97], File); ([98; 99], Directory)] (mkStore sample_ram sample_devs))
    as (w & k' & E & _ & Hr & _); [lia|lia|by split_and!|reflexivity|reflexivity|vm_compute; reflexivity|
    vm_compute; split; discriminate || reflexivity|repeat constructor; done|].
  exists w, k'. split; [exact E|]. exact Hr.
Defined.


(** Task 7 reads, task 8 writes five bytes of its own memory, task 7 gets two in its memory. *)
Lemma pipe_sleep_wake_read_witness :
  ∃ k1, sample_syscall SYS_READ 3 8000 2 0 sample_kernel = Done (Blocks (PendRead 3%nat 8000 2), k1) ∧
    ∃ k2, sample_syscall SYS_WRITE 3 4096 5 0 (set_mem (λ _, 66) k1) = Done (Ret 5, k2) ∧ queued k2 = [1%nat] ∧
    ∃ k3, resume (PendRead 3%nat 8000 2) (set_mem sample_mem k2) = Done (Ret 2, k3) ∧
      mem_read 8000 2 (k_mem k3) = [66; 66].
Proof.
  destruct (pipe_sleep_wake_read demo_VirtAddr_new (λ n, n <? 2 ^ 20) (λ _ _, ∅) 0xFFFFFFFF80001000
    [mkMountEntry [SLASH] (Ram 0%nat)] (Dev Stdin) (Dev Stdout) (Dev Stderr) 3 3%nat 0%nat 0 PipeInner_new 8000 2 0
    sample_kernel sample_heap 2%nat [] 1%nat [] 7 9 false 0 (mkCpu 0 0 0 0 0 0 0 0 4096)
    (sample_tcb 7 Running) (sample_tcb 8 Ready)) as (k1 & E1 & Hrun & Hw);
    [lia|lia|by split_and!|by split|reflexivity|split; [apply pipe_inv_new|done]|reflexivity|reflexivity|reflexivity|
     reflexivity|done|].
  exists k1. split; [exact E1|].
  destruct (Hw (λ _, 66) 3 5%nat 0 4096 5) as (k2 & E2 & Hq & Hres); [lia|by split_and!| |].
  { vm_compute in E1. injection E1 as <-. by split. }
  exists k2. split; [exact E2|]. split; [exact Hq|].
  destruct (Hres (set_mem sample_mem k2)) as (k3 & E3 & Hm); [reflexivity..|]. exists k3. exact (conj E3 Hm).
Defined.

(** A program that prints a tab. *)
Lemma stdout_write_witness : sample_syscall SYS_WRITE 1 8191 3 0 sample_kernel = Panic.
Proof.
  destruct (stdout_write demo_VirtAddr_new (λ n, n <? 2 ^ 20) (λ _ _, ∅) 0xFFFFFFFF80001000
    [mkMountEntry [SLASH] (Ram 0%nat)] (Dev Stdin) (Dev Stdout) (Dev Stderr) 1 1%nat 0 8191 3 sample_kernel
    sample_tty (term_blank 1 1)) as (_ & _ & Hp);
    [lia|lia|by split_and!|by split|reflexivity|reflexivity|exact sample_shows|split; [reflexivity|by split]|].
  apply Hp; [vm_compute; reflexivity|].
  intros Hf. vm_compute in Hf. apply Forall_cons in Hf as [_ Hf].
  apply Forall_cons in Hf as [Hc _]. destruct Hc as [[Hc _]|[Hc|Hc]]; [by destruct Hc|discriminate..].
Defined.
