(* ===== verification/Pci.v ===== *)
(** * The PCI bus (drivers/src/pci.rs)

    Configuration space is reached through two ports: an address is written to
    one, the double word it selects appears at the other.  The bus is hardware:
    a type [X] with the 32-bit port instructions of hal/src/io.rs and the class
    [PciBus] stating what the PCI specification documents of the mechanism.

    Shown here: the address arithmetic selects the addressed function and
    register for every bus, device, function and offset, so that byte, word and
    double-word reads return the bytes of that function's configuration space;
    base addresses are decoded from it, also 64-bit ones; the capability search
    returns the first matching entry of the list; the scan of the bus lists
    exactly the functions that are present. *)

From S2P Require Import Prelude.

Definition CONFIG_ADDRESS : Z := 0xCF8.
Definition CONFIG_DATA : Z := 0xCFC.
Definition REG_COMMAND : Z := 0x04.
Definition REG_HEADER_TYPE : Z := 0x0E.
Definition REG_BAR0 : Z := 0x10.
Definition REG_CAP_PTR : Z := 0x34.

(** [inl] and [outl] (hal/src/io.rs). *)
Class Ports32 (X : Type) := {
  port_inl : Z → X → Z * X;
  port_outl : Z → Z → X → X;
}.

Record PciDevice := mkPciDevice {
  bus : Z;
  device : Z;
  function : Z;
  vendor_id : Z;
  device_id : Z;
}.

Section pci.
Context {X : Type} `{Ports32 X}.
Implicit Types (d : PciDevice) (x : X).

(** The address both reads and writes put together. *)
Definition config_address d (offset : Z) : Z :=
  Z.lor (Z.lor (Z.lor (Z.lor 0x80000000 (bus d ≪ 16)) (device d ≪ 11)) (function d ≪ 8)) (Z.land offset 0xFC).

Definition pci_read_u8 d (offset : Z) x : Z * X :=
  let x := port_outl CONFIG_ADDRESS (config_address d offset) x in
  let '(val, x) := port_inl CONFIG_DATA x in
  (Z.land (val ≫ (Z.land offset 3 * 8)) 0xFF, x).

Definition pci_read_u16 d (offset : Z) x : Z * X :=
  let x := port_outl CONFIG_ADDRESS (config_address d offset) x in
  let '(val, x) := port_inl CONFIG_DATA x in
  (Z.land (val ≫ (Z.land offset 2 * 8)) 0xFFFF, x).

Definition pci_read_u32 d (offset : Z) x : Z * X :=
  let x := port_outl CONFIG_ADDRESS (config_address d offset) x in
  port_inl CONFIG_DATA x.

Definition get_bar d (index : Z) x : option (Z * Z) * X :=
  if 5 <? index then (None, x)
  else
    let offset := REG_BAR0 + index * 4 in
    let '(bar_low, x) := pci_read_u32 d offset x in
    if negb (Z.land bar_low 1 =? 0) then (None, x)
    else
      let bar_type := Z.land (bar_low ≫ 1) 0x3 in
      let address := Z.land bar_low 0xFFFFFFF0 in
      if bar_type =? 0x2 then
        let '(bar_high, x) := pci_read_u32 d (offset + 4) x in
        (Some (Z.lor address (bar_high ≪ 32), 0), x)
      else (Some (address, 0), x).

Definition pci_write_u16 d (offset value : Z) x : X :=
  let x := port_outl CONFIG_ADDRESS (config_address d offset) x in
  let '(current, x) := port_inl CONFIG_DATA x in
  let shift := Z.land offset 2 * 8 in
  let mask := 0xFFFF ≪ shift in
  let new_val := Z.lor (Z.land current (Z.lxor 0xFFFFFFFF mask)) (value ≪ shift) in
  port_outl CONFIG_DATA new_val x.

Definition enable_bus_master d x : X :=
  let '(cmd, x) := pci_read_u16 d REG_COMMAND x in
  pci_write_u16 d REG_COMMAND (Z.lor cmd 0x06) x.

Definition interrupt_line d x : Z * X := pci_read_u8 d 0x3C x.
Definition interrupt_pin d x : Z * X := pci_read_u8 d 0x3D x.

(** More turns than entries of a capability list that ends: one per byte of
    configuration space. *)
Definition CAP_TURNS : positive := 256.

(** One turn of the search, at a pointer that is not null. *)
Definition cap_turn d (cap_id : Z) (st : Z * X) : outcome (sum (Z * X) (option Z * X)) :=
  let '(ptr, x) := st in
  if ptr =? 0 then Done (inr (None, x))
  else
    let '(id, x) := pci_read_u8 d ptr x in
    if id =? cap_id then Done (inr (Some ptr, x))
    else
      let '(ptr, x) := pci_read_u8 d (wrap 8 (ptr + 1)) x in
      Done (inl (ptr, x)).

Definition find_capability d (cap_id : Z) x : outcome (option Z * X) :=
  let '(status, x) := pci_read_u16 d 0x06 x in
  if Z.land status 0x10 =? 0 then Done (None, x)
  else
    let '(ptr, x) := pci_read_u8 d REG_CAP_PTR x in
    loop_end CAP_TURNS (cap_turn d cap_id) (ptr, x).

(** A function of a slot, and a slot, of the scan. *)
Definition scan_function (b s func : Z) (st : list PciDevice * X) : list PciDevice * X :=
  let '(devices, x) := st in
  let dev := mkPciDevice b s func 0 0 in
  let '(vendor, x) := pci_read_u16 dev 0 x in
  if negb (vendor =? 0xFFFF) then
    let '(device_id, x) := pci_read_u16 dev 2 x in
    (devices ++ [mkPciDevice b s func vendor device_id], x)
  else (devices, x).

Definition scan_pci_slot (b s : Z) (st : list PciDevice * X) : list PciDevice * X :=
  let '(devices, x) := st in
  let dummy := mkPciDevice b s 0 0 0 in
  let '(vendor, x) := pci_read_u16 dummy 0 x in
  if vendor =? 0xFFFF then (devices, x)
  else
    let '(header_type, x) := pci_read_u8 dummy REG_HEADER_TYPE x in
    let func_count := if negb (Z.land header_type 0x80 =? 0) then 8 else 1 in
    foldl (λ st func, scan_function b s func st) (devices, x) (seqZ 0 func_count).

Definition enumerate_pci x : list PciDevice * X :=
  foldl (λ st b, foldl (λ st s, scan_pci_slot b s st) st (seqZ 0 32)) ([], x) (seqZ 0 256).
End pci.

(* ------------------------------------------------------------------ *)
(** ** The bus *)

(** Configuration mechanism #1: the latched address selects a double word of
    a function's 256 bytes. *)
Definition bus_address (b d f r : Z) : Z := 2 ^ 31 + b * 2 ^ 16 + d * 2 ^ 11 + f * 2 ^ 8 + 4 * r.

Class PciBus (X : Type) `{Ports32 X} := {
  space : X → Z → Z → Z → list Z;
  latch : X → Z;
  space_len : ∀ x b d f, zlen (space x b d f) = 256 ∧ bytes_ok (space x b d f);
  out_address : ∀ a x, latch (port_outl CONFIG_ADDRESS a x) = a ∧ space (port_outl CONFIG_ADDRESS a x) = space x;
  in_data : ∀ x b d f r, 0 ≤ b < 256 → 0 ≤ d < 32 → 0 ≤ f < 8 → 0 ≤ r < 64 → latch x = bus_address b d f r →
    (port_inl CONFIG_DATA x).1 = from_le (zslice (space x b d f) (4 * r) (4 * r + 4)) ∧
    space (port_inl CONFIG_DATA x).2 = space x ∧ latch (port_inl CONFIG_DATA x).2 = latch x;
  (* what the function keeps of the four bytes written is its own affair *)
  out_data : ∀ x b d f r v, 0 ≤ b < 256 → 0 ≤ d < 32 → 0 ≤ f < 8 → 0 ≤ r < 64 → latch x = bus_address b d f r →
    let x' := port_outl CONFIG_DATA v x in
    (∀ o, 0 ≤ o < 256 → ¬ (4 * r ≤ o < 4 * r + 4) → zget (space x' b d f) o = zget (space x b d f) o) ∧
    (∀ b' d' f', (b', d', f') ≠ (b, d, f) → space x' b' d' f' = space x b' d' f') ∧ latch x' = latch x;
}.

Definition pci_ok (d : PciDevice) : Prop := 0 ≤ bus d < 256 ∧ 0 ≤ device d < 32 ∧ 0 ≤ function d < 8.

(* ------------------------------------------------------------------ *)
(** ** Addresses *)

Lemma lor_disjoint_add a b n : 0 ≤ n → a `mod` 2 ^ n = 0 → 0 ≤ b < 2 ^ n → Z.lor a b = a + b.
Proof.
  intros Hn Ha Hb. pose proof (Z.add_lor_land a b). enough (Z.land a b = 0) by lia.
  destruct (decide (b = 0)) as [->|Hb0]; [apply Z.land_0_r|].
  apply Z.bits_inj'. intros i Hi. rewrite Z.land_spec, Z.bits_0. destruct (decide (i < n)).
  - assert (Z.testbit a i = false) as ->; [|done].
    rewrite <-(Z.mod_pow2_bits_low a n i) by lia. by rewrite Ha, Z.bits_0.
  - rewrite (Z.bits_above_log2 b i), andb_false_r; [done|lia|].
    apply Z.log2_lt_pow2; [lia|].
    assert (2 ^ n ≤ 2 ^ i) by (apply Z.pow_le_mono_r; lia). lia.
Qed.

(** Clearing the low bits. *)
Lemma land_high o n k : 0 ≤ n → 0 ≤ k → 0 ≤ o < 2 ^ (n + k) → Z.land o (Z.ones k ≪ n) = o `div` 2 ^ n * 2 ^ n.
Proof.
  intros Hn Hk Ho. rewrite <-Z.shiftr_div_pow2, <-Z.shiftl_mul_pow2 by lia.
  apply Z.bits_inj'. intros i Hi. rewrite Z.land_spec, !Z.shiftl_spec by lia.
  destruct (decide (i < n)); [rewrite !(Z.testbit_neg_r _ (i - n)), andb_false_r by lia; done|].
  rewrite Z.shiftr_spec by lia. replace (i - n + n) with i by lia.
  destruct (decide (i < n + k)); [rewrite Z.ones_spec_low, andb_true_r by lia; done|].
  rewrite Z.ones_spec_high, andb_false_r by lia. symmetry. destruct (decide (o = 0)) as [->|]; [apply Z.bits_0|].
  apply Z.bits_above_log2; [lia|]. apply Z.log2_lt_pow2; [lia|].
  assert (2 ^ (n + k) ≤ 2 ^ i) by (apply Z.pow_le_mono_r; lia). lia.
Qed.

Lemma land_fc o : 0 ≤ o < 256 → Z.land o 0xFC = 4 * (o `div` 4).
Proof. intros Ho. change 0xFC with (Z.ones 6 ≪ 2). rewrite land_high; [change (2 ^ 2) with 4; lia|lia|lia|exact Ho]. Qed.

Lemma config_address_spec d o :
  pci_ok d → 0 ≤ o < 256 → config_address d o = bus_address (bus d) (device d) (function d) (o `div` 4).
Proof.
  intros (Hb & Hd & Hf) Ho. unfold config_address, bus_address. rewrite !Z.shiftl_mul_pow2, land_fc by lia.
  assert (0 ≤ o `div` 4 < 64) by (Z.to_euclidean_division_equations; lia).
  change 0x80000000 with (2 ^ 31).
  rewrite (lor_disjoint_add _ (bus d * 2 ^ 16) 31); [|lia|by apply Z.mod_same|lia].
  rewrite (lor_disjoint_add _ (device d * 2 ^ 11) 16); [|lia|Z.to_euclidean_division_equations; lia|lia].
  rewrite (lor_disjoint_add _ (function d * 2 ^ 8) 11); [|lia|Z.to_euclidean_division_equations; lia|lia].
  rewrite (lor_disjoint_add _ _ 8); [done|lia|Z.to_euclidean_division_equations; lia|lia].
Qed.

(* ------------------------------------------------------------------ *)
(** ** Reads *)

Lemma from_le_bit l k :
  bytes_ok l → 0 ≤ k →
  Z.testbit (from_le l) k = match zget l (k `div` 8) with Some b => Z.testbit b (k `mod` 8) | None => false end.
Proof.
  intros Hl Hk. destruct (zget l (k `div` 8)) as [b|] eqn:E.
  - unfold zget in E. destruct (Z.leb_spec 0 (k `div` 8)); [|done].
    unfold from_le. by eapply little_endian_to_Z_spec; [lia|lia|exact Hl|].
  - pose proof (from_le_range l Hl) as [? Hr]. destruct (decide (from_le l = 0)) as [->|]; [apply Z.bits_0|].
    apply Z.bits_above_log2; [lia|]. apply Z.log2_lt_pow2; [lia|].
    assert (zlen l ≤ k `div` 8).
    { destruct (decide (zlen l ≤ k `div` 8)); [done|].
      destruct (zget_is_Some l (k `div` 8)) as [? ?]; [Z.to_euclidean_division_equations; lia|congruence]. }
    assert (zlen l * 8 ≤ k) by (Z.to_euclidean_division_equations; lia).
    assert (2 ^ (zlen l * 8) ≤ 2 ^ k) by (apply Z.pow_le_mono_r; lia). lia.
Qed.

(** A field of a little-endian word. *)
Lemma from_le_field l i n :
  bytes_ok l → 0 ≤ i → 0 ≤ n → i + n ≤ zlen l →
  Z.land (from_le l ≫ (i * 8)) (Z.ones (n * 8)) = from_le (zslice l i (i + n)).
Proof.
  intros Hl Hi Hn Hz. apply Z.bits_inj'. intros k Hk.
  rewrite Z.land_spec, Z.shiftr_spec, !from_le_bit by (auto with serix; lia).
  replace ((k + i * 8) `div` 8) with (i + k `div` 8) by (Z.to_euclidean_division_equations; lia).
  replace ((k + i * 8) `mod` 8) with (k `mod` 8) by (Z.to_euclidean_division_equations; lia).
  destruct (decide (k < n * 8)).
  - rewrite Z.ones_spec_low, andb_true_r by lia.
    rewrite zget_zslice by (Z.to_euclidean_division_equations; lia). done.
  - rewrite Z.ones_spec_high, andb_false_r by lia.
    rewrite zget_None; [done|]. rewrite zlen_zslice by lia. Z.to_euclidean_division_equations. lia.
Qed.

Definition cfg `{PciBus X} (d : PciDevice) (x : X) : list Z := space x (bus d) (device d) (function d).

(** An [n]-byte field of a configuration space. *)
Definition field (n : Z) (s : list Z) (o : Z) : Z := from_le (zslice s o (o + n)).

Section reads.
Context {X : Type} `{PciBus X}.
Implicit Types (d : PciDevice) (x : X).

Lemma pci_read d o x :
  pci_ok d → 0 ≤ o < 256 →
  ∃ x', pci_read_u32 d o x = (field 4 (cfg d x) (4 * (o `div` 4)), x') ∧ space x' = space x.
Proof.
  intros Hd Ho. unfold pci_read_u32. rewrite config_address_spec by done.
  set (a := bus_address _ _ _ _). destruct (out_address a x) as [Hl Hs].
  destruct Hd as (? & ? & ?). assert (0 ≤ o `div` 4 < 64) by (Z.to_euclidean_division_equations; lia).
  destruct (in_data (port_outl CONFIG_ADDRESS a x) (bus d) (device d) (function d) (o `div` 4)) as (Hv & Hs' & _); [done..|].
  rewrite (surjective_pairing (port_inl _ _)), Hv, Hs. eexists. split; [done|]. by rewrite Hs', Hs.
Qed.

Lemma field_field n s o i k :
  bytes_ok s → 0 ≤ o → 0 ≤ i → 0 ≤ k → i + k ≤ n → o + n ≤ zlen s →
  Z.land (field n s o ≫ (i * 8)) (Z.ones (k * 8)) = field k s (o + i).
Proof.
  intros. unfold field. rewrite from_le_field; [|auto with serix|lia|lia|rewrite zlen_zslice; lia].
  rewrite zslice_zslice by lia. f_equal. f_equal; lia.
Qed.

Lemma pci_read_u8_spec d o x :
  pci_ok d → 0 ≤ o < 256 → ∃ x', pci_read_u8 d o x = (field 1 (cfg d x) o, x') ∧ space x' = space x.
Proof.
  intros Hd Ho. destruct (pci_read d o x Hd Ho) as (x' & E & Hs). unfold pci_read_u32 in E.
  unfold pci_read_u8. rewrite E. exists x'. split; [|done]. f_equal.
  change 3 with (Z.ones 2). rewrite Z.land_ones by lia. change (2 ^ 2) with 4. change 0xFF with (Z.ones (1 * 8)).
  destruct (space_len x (bus d) (device d) (function d)) as [Hl Hb].
  rewrite field_field; [f_equal|done|..]; unfold cfg; rewrite ?Hl; Z.to_euclidean_division_equations; lia.
Qed.

Lemma pci_read_u16_spec d o x :
  pci_ok d → 0 ≤ o < 256 → o `mod` 2 = 0 →
  ∃ x', pci_read_u16 d o x = (field 2 (cfg d x) o, x') ∧ space x' = space x.
Proof.
  intros Hd Ho H2. destruct (pci_read d o x Hd Ho) as (x' & E & Hs). unfold pci_read_u32 in E.
  unfold pci_read_u16. rewrite E. exists x'. split; [|done]. f_equal.
  assert (Z.land o 2 = o `mod` 4) as ->.
  { change 4 with (2 ^ 2). rewrite <-(Z.land_ones o 2) by lia. change (Z.ones 2) with (Z.lor 2 1). rewrite Z.land_lor_distr_r.
    change 1 with (Z.ones 1). rewrite Z.land_ones by lia. change (2 ^ 1) with 2. by rewrite H2, Z.lor_0_r. }
  change 0xFFFF with (Z.ones (2 * 8)).
  destruct (space_len x (bus d) (device d) (function d)) as [Hl Hb].
  rewrite field_field; [f_equal|done|..]; unfold cfg; rewrite ?Hl; Z.to_euclidean_division_equations; lia.
Qed.

Lemma pci_read_u32_spec d o x :
  pci_ok d → 0 ≤ o < 256 → o `mod` 4 = 0 →
  ∃ x', pci_read_u32 d o x = (field 4 (cfg d x) o, x') ∧ space x' = space x.
Proof.
  intros Hd Ho H4. destruct (pci_read d o x Hd Ho) as (x' & -> & Hs). exists x'. split; [|done].
  do 2 f_equal. Z.to_euclidean_division_equations. lia.
Qed.

Lemma field_range n x d o : 0 ≤ o → 0 ≤ n → o + n ≤ 256 → is_uint (n * 8) (field n (cfg d x) o).
Proof.
  intros. destruct (space_len x (bus d) (device d) (function d)) as [Hl Hb]. unfold field, cfg.
  pose proof (from_le_range (zslice (space x (bus d) (device d) (function d)) o (o + n))) as Hr.
  rewrite zlen_zslice in Hr by lia. replace (o + n - o) with n in Hr by lia. auto with serix.
Qed.
End reads.

(* ------------------------------------------------------------------ *)
(** ** Base addresses, capabilities *)

(** A memory base address of a configuration space: the 32 or 64 bits of it. *)
Definition bar_of (s : list Z) (index : Z) : option Z :=
  let low := field 4 s (0x10 + 4 * index) in
  if low `mod` 2 =? 1 then None
  else Some (low `div` 16 * 16 +
             if low `div` 2 `mod` 4 =? 2 then field 4 s (0x14 + 4 * index) * 2 ^ 32 else 0).

(** The pointers of a capability list that ends within [n] entries. *)
Fixpoint cap_list (n : nat) (s : list Z) (ptr : Z) : option (list Z) :=
  if ptr =? 0 then Some []
  else match n with
       | O => None
       | S n => rest ← cap_list n s (field 1 s (wrap 8 (ptr + 1))); Some (ptr :: rest)
       end.

(** The first entry with the id looked for. *)
Definition first_cap (s : list Z) (id : Z) (l : list Z) : option Z := head (filter (λ p, field 1 s p = id) l).

Section caps.
Context {X : Type} `{PciBus X}.
Implicit Types (d : PciDevice) (x : X).

Lemma get_bar_spec d index x :
  pci_ok d → 0 ≤ index ≤ 5 →
  ∃ x', get_bar d index x = ((., 0) <$> bar_of (cfg d x) index, x') ∧ space x' = space x.
Proof.
  intros Hd Hi. unfold get_bar. destruct (Z.ltb_spec 5 index); [lia|]. unfold REG_BAR0, bar_of.
  destruct (pci_read_u32_spec d (16 + index * 4) x) as (x1 & E & Hs1);
    [done|lia|Z.to_euclidean_division_equations; lia|].
  rewrite E. replace (16 + index * 4) with (16 + 4 * index) by lia.
  pose proof (field_range 4 x d (16 + 4 * index) ltac:(lia) ltac:(lia) ltac:(lia)) as Hlow.
  set (low := field 4 (cfg d x) (16 + 4 * index)) in *. unfold is_uint in Hlow.
  change 1 with (Z.ones 1) at 1. rewrite Z.land_ones by lia. change (2 ^ 1) with 2.
  assert (negb (low `mod` 2 =? 0) = (low `mod` 2 =? 1)) as ->.
  { pose proof (Z.mod_pos_bound low 2). destruct (Z.eqb_spec (low `mod` 2) 0), (Z.eqb_spec (low `mod` 2) 1); done || lia. }
  destruct (low `mod` 2 =? 1); [by exists x1|].
  change 0x3 with (Z.ones 2). rewrite Z.land_ones, Z.shiftr_div_pow2 by lia. change (2 ^ 1) with 2. change (2 ^ 2) with 4.
  change 0xFFFFFFF0 with (Z.ones 28 ≪ 4). rewrite land_high; [change (2 ^ 4) with 16|lia|lia|exact Hlow].
  destruct (low `div` 2 `mod` 4 =? 2).
  - destruct (pci_read_u32_spec d (16 + 4 * index + 4) x1) as (x2 & E2 & Hs2);
      [done|lia|Z.to_euclidean_division_equations; lia|].
    rewrite E2. exists x2. split; [|congruence]. unfold cfg. rewrite Hs1. simpl. do 3 f_equal.
    replace (16 + 4 * index + 4) with (20 + 4 * index) by lia.
    rewrite Z.shiftl_mul_pow2 by lia. rewrite Z.lor_comm, (lor_disjoint_add _ _ 32); [lia|lia| |].
    + by apply Z.mod_mul.
    + Z.to_euclidean_division_equations. lia.
  - exists x1. simpl. rewrite Z.add_0_r. done.
Qed.

Lemma cap_turns d id n : ∀ ptr x l,
  pci_ok d → 0 ≤ ptr < 256 → cap_list n (cfg d x) ptr = Some l →
  ∃ x', turns (S n) (cap_turn d id) (ptr, x) = Done (inr (first_cap (cfg d x) id l, x')) ∧ space x' = space x.
Proof.
  induction n as [|n IH]; intros ptr x l Hd Hp Hl; simpl cap_list in Hl;
    destruct (Z.eqb_spec ptr 0) as [->|Hne]; simplify_eq/=; [by exists x..|].
  rewrite (proj2 (Z.eqb_neq ptr 0) Hne).
  apply bind_Some in Hl as (rest & Hr & [= <-]).
  destruct (pci_read_u8_spec d ptr x Hd Hp) as (x1 & -> & Hs1). unfold first_cap. rewrite filter_cons.
  destruct (Z.eqb_spec (field 1 (cfg d x) ptr) id) as [Hid|Hid].
  - rewrite decide_True by done. simpl. by exists x1.
  - rewrite decide_False by done.
    pose proof (wrap_range 8 (ptr + 1) ltac:(lia)) as Hw.
    destruct (pci_read_u8_spec d (wrap 8 (ptr + 1)) x1 Hd Hw) as (x2 & -> & Hs2).
    assert (cfg d x1 = cfg d x) as E1 by (unfold cfg; by rewrite Hs1).
    assert (cfg d x2 = cfg d x) as E2 by (unfold cfg; by rewrite Hs2, Hs1).
    destruct (IH (field 1 (cfg d x1) (wrap 8 (ptr + 1))) x2 rest Hd) as (x3 & E & Hs3).
    + unfold is_uint in Hw. apply (field_range 1 x1 d); lia.
    + by rewrite E1, E2.
    + exists x3. rewrite E2 in E. split; [exact E|congruence].
Qed.

(** The search returns the first entry of the list with the id, for every list
    that ends: one that does has at most 255 entries. *)
Lemma find_capability_spec d id x l :
  pci_ok d → (Z.land (field 2 (cfg d x) 0x06) 0x10 =? 0) = false →
  cap_list 255 (cfg d x) (field 1 (cfg d x) REG_CAP_PTR) = Some l →
  ∃ x', find_capability d id x = Done (first_cap (cfg d x) id l, x') ∧ space x' = space x.
Proof.
  intros Hd Hst Hl. unfold find_capability.
  destruct (pci_read_u16_spec d 6 x Hd) as (x1 & -> & Hs1); [lia|done|]. rewrite Hst.
  destruct (pci_read_u8_spec d REG_CAP_PTR x1 Hd) as (x2 & -> & Hs2); [done|].
  assert (cfg d x1 = cfg d x) as E1 by (unfold cfg; by rewrite Hs1).
  assert (cfg d x2 = cfg d x) as E2 by (unfold cfg; by rewrite Hs2, Hs1).
  destruct (cap_turns d id 255 (field 1 (cfg d x1) REG_CAP_PTR) x2 l Hd) as (x3 & E & Hs3).
  - exact (field_range 1 x1 d REG_CAP_PTR ltac:(done) ltac:(lia) ltac:(done)).
  - by rewrite E1, E2.
  - exists x3. rewrite E2 in E. split; [|congruence]. eapply loop_end_turns; [exact E|]. done.
Qed.
End caps.

(** What no port access touches, no configuration access does. *)
Section closed.
Context {X : Type} `{Ports32 X} (P : X → Prop).
Hypothesis out_closed : ∀ p v x, P x → P (port_outl p v x).
Hypothesis in_closed : ∀ p x, P x → P (port_inl p x).2.
Implicit Types (d : PciDevice) (x : X).

Lemma pci_read_u32_closed d o x : P x → P (pci_read_u32 d o x).2.
Proof. intros. unfold pci_read_u32. auto. Qed.

Lemma pci_read_u16_closed d o x : P x → P (pci_read_u16 d o x).2.
Proof.
  intros Hx. apply (pci_read_u32_closed d o) in Hx. unfold pci_read_u32 in Hx. unfold pci_read_u16.
  by destruct (port_inl _ _).
Qed.

Lemma pci_read_u8_closed d o x : P x → P (pci_read_u8 d o x).2.
Proof.
  intros Hx. apply (pci_read_u32_closed d o) in Hx. unfold pci_read_u32 in Hx. unfold pci_read_u8.
  by destruct (port_inl _ _).
Qed.

Lemma get_bar_closed d i x : P x → P (get_bar d i x).2.
Proof.
  intros Hx. unfold get_bar. cbv zeta. destruct (5 <? i); [done|]. apply (pci_read_u32_closed d (REG_BAR0 + i * 4)) in Hx.
  destruct (pci_read_u32 d _ x) as [low x1]. simpl in Hx. destruct (negb _); [done|]. destruct (_ =? 2); [|done].
  apply (pci_read_u32_closed d (REG_BAR0 + i * 4 + 4)) in Hx. by destruct (pci_read_u32 d _ x1).
Qed.

Lemma enable_bus_master_closed d x : P x → P (enable_bus_master d x).
Proof.
  intros Hx. unfold enable_bus_master. apply (pci_read_u16_closed d REG_COMMAND) in Hx.
  destruct (pci_read_u16 d _ x) as [cmd x1]. simpl in Hx. unfold pci_write_u16.
  apply (pci_read_u32_closed d REG_COMMAND) in Hx. unfold pci_read_u32 in Hx. destruct (port_inl _ _). auto.
Qed.

Lemma find_capability_closed d id x r x' : P x → find_capability d id x = Done (r, x') → P x'.
Proof.
  intros Hx. unfold find_capability. apply (pci_read_u16_closed d 6) in Hx.
  destruct (pci_read_u16 d 6 x) as [st x1]. simpl in Hx. destruct (_ =? 0); [by intros; simplify_eq|].
  apply (pci_read_u8_closed d REG_CAP_PTR) in Hx. destruct (pci_read_u8 d _ x1) as [ptr x2]. intros E.
  apply (loop_end_inv (λ s, P s.2) (λ r, P r.2) _ _ _ (r, x')) in E; [exact E|..|exact Hx].
  - intros [p s] [p' s'] Hs Eb. simpl in Hs. unfold cap_turn in Eb. destruct (p =? 0); [done|].
    apply (pci_read_u8_closed d p) in Hs. destruct (pci_read_u8 d p s) as [i s1]. simpl in Hs. destruct (i =? id); [done|].
    apply (pci_read_u8_closed d (wrap 8 (p + 1))) in Hs. destruct (pci_read_u8 d _ s1). by simplify_eq.
  - intros [p s] [r' s'] Hs Eb. simpl in Hs. unfold cap_turn in Eb. destruct (p =? 0); [by simplify_eq|].
    apply (pci_read_u8_closed d p) in Hs. destruct (pci_read_u8 d p s) as [i s1]. simpl in Hs. destruct (i =? id); [by simplify_eq|].
    by destruct (pci_read_u8 d _ s1).
Qed.

Lemma foldl_closed {A B} (step : B * X → A → B * X) (l : list A) :
  (∀ a st, P st.2 → P (step st a).2) → ∀ st, P st.2 → P (foldl step st l).2.
Proof. intros Hs. induction l as [|a l IH]; intros st Hst; simpl; auto. Qed.

Lemma enumerate_pci_closed x : P x → P (enumerate_pci x).2.
Proof.
  intros Hx. unfold enumerate_pci. apply foldl_closed; [|done]. intros b st Hst.
  apply foldl_closed; [|done]. clear st Hst. intros s [ds y] Hy. simpl in Hy. unfold scan_pci_slot.
  apply (pci_read_u16_closed (mkPciDevice b s 0 0 0) 0) in Hy. destruct (pci_read_u16 _ 0 y) as [v y1]. simpl in Hy.
  destruct (v =? _); [done|].
  apply (pci_read_u8_closed (mkPciDevice b s 0 0 0) REG_HEADER_TYPE) in Hy.
  destruct (pci_read_u8 _ _ y1) as [h y2]. simpl in Hy. apply foldl_closed; [|done].
  clear -out_closed in_closed. intros f [ds y] Hy. simpl in Hy. unfold scan_function.
  apply (pci_read_u16_closed (mkPciDevice b s f 0 0) 0) in Hy. destruct (pci_read_u16 _ 0 y) as [v y1]. simpl in Hy.
  destruct (negb _); [|done].
  apply (pci_read_u16_closed (mkPciDevice b s f 0 0) 2) in Hy. by destruct (pci_read_u16 _ 2 y1).
Qed.
End closed.

(* ------------------------------------------------------------------ *)
(** ** Enumeration *)

(** What a bus holds: the functions of a slot, when function 0 answers; the
    others only on a multi-function device. *)
Definition found (sp : Z → Z → Z → list Z) (b s f : Z) : list PciDevice :=
  if field 2 (sp b s f) 0 =? 0xFFFF then []
  else [mkPciDevice b s f (field 2 (sp b s f) 0) (field 2 (sp b s f) 2)].

Definition slot_functions (sp : Z → Z → Z → list Z) (b s : Z) : list PciDevice :=
  if field 2 (sp b s 0) 0 =? 0xFFFF then []
  else seqZ 0 (if negb (Z.land (field 1 (sp b s 0) REG_HEADER_TYPE) 0x80 =? 0) then 8 else 1) ≫= found sp b s.

Section enumeration.
Context {X : Type} `{PciBus X}.
Implicit Types (d : PciDevice) (x : X).

Lemma foldl_appends (step : list PciDevice * X → Z → list PciDevice * X) g l :
  (∀ i ds x, i ∈ l → ∃ x', step (ds, x) i = (ds ++ g (space x) i, x') ∧ space x' = space x) →
  ∀ ds x, ∃ x', foldl step (ds, x) l = (ds ++ (l ≫= g (space x)), x') ∧ space x' = space x.
Proof.
  induction l as [|i l IH]; intros Hs ds x; simpl.
  - exists x. by rewrite app_nil_r.
  - destruct (Hs i ds x) as (x1 & -> & Hs1); [left|].
    destruct (IH (λ j ds x Hj, Hs j ds x (list_elem_of_further _ _ _ Hj)) (ds ++ g (space x) i) x1) as (x2 & -> & Hs2).
    exists x2. rewrite Hs1, (assoc_L (++)). split; [done|congruence].
Qed.

Lemma scan_function_spec b s f ds x :
  pci_ok (mkPciDevice b s f 0 0) →
  ∃ x', scan_function b s f (ds, x) = (ds ++ found (space x) b s f, x') ∧ space x' = space x.
Proof.
  intros Hd. unfold scan_function, found.
  destruct (pci_read_u16_spec _ 0 x Hd) as (x1 & -> & Hs1); [lia|done|]. unfold cfg. simpl.
  destruct (_ =? 65535); simpl; [rewrite app_nil_r; by exists x1|].
  destruct (pci_read_u16_spec _ 2 x1 Hd) as (x2 & -> & Hs2); [lia|done|]. exists x2. unfold cfg. simpl.
  rewrite Hs1. split; [done|congruence].
Qed.

Lemma scan_pci_slot_spec b s ds x :
  0 ≤ b < 256 → 0 ≤ s < 32 →
  ∃ x', scan_pci_slot b s (ds, x) = (ds ++ slot_functions (space x) b s, x') ∧ space x' = space x.
Proof.
  intros Hb Hs. unfold scan_pci_slot, slot_functions.
  assert (pci_ok (mkPciDevice b s 0 0 0)) as Hd by (unfold pci_ok; simpl; lia).
  destruct (pci_read_u16_spec _ 0 x Hd) as (x1 & -> & Hs1); [lia|done|]. unfold cfg. simpl.
  destruct (_ =? 65535); [rewrite app_nil_r; by exists x1|].
  destruct (pci_read_u8_spec _ REG_HEADER_TYPE x1 Hd) as (x2 & -> & Hs2); [done|]. unfold cfg. simpl.
  rewrite Hs1. set (n := if negb _ then 8 else 1).
  destruct (foldl_appends (λ st func, scan_function b s func st) (λ sp, found sp b s) (seqZ 0 n)) with ds x2
    as (x3 & E & Hs3).
  - intros f ds' x' [? ?]%elem_of_seqZ. apply scan_function_spec. unfold pci_ok. simpl.
    assert (n = 8 ∨ n = 1) by (subst n; destruct (negb _); auto). lia.
  - exists x3. rewrite E, Hs2, Hs1. split; [done|congruence].
Qed.

Lemma enumerate_pci_list x :
  ∃ x', enumerate_pci x = (seqZ 0 256 ≫= λ b, seqZ 0 32 ≫= slot_functions (space x) b, x') ∧ space x' = space x.
Proof.
  unfold enumerate_pci.
  destruct (foldl_appends (λ st b, foldl (λ st s, scan_pci_slot b s st) st (seqZ 0 32))
    (λ sp b, seqZ 0 32 ≫= slot_functions sp b) (seqZ 0 256)) with (@nil PciDevice) x as (x' & E & Hs).
  - intros b ds x' [? ?]%elem_of_seqZ.
    apply (foldl_appends (λ st s, scan_pci_slot b s st) (λ sp, slot_functions sp b)).
    intros s ds' x'' [? ?]%elem_of_seqZ. apply scan_pci_slot_spec; lia.
  - rewrite app_nil_l in E. exists x'. exact (conj E Hs).
Qed.
End enumeration.

Lemma slot_functions_in sp b s d :
  d ∈ slot_functions sp b s ↔
  bus d = b ∧ device d = s ∧ 0 ≤ function d < 8 ∧ field 2 (sp b s 0) 0 ≠ 0xFFFF ∧
  (function d = 0 ∨ Z.land (field 1 (sp b s 0) REG_HEADER_TYPE) 0x80 ≠ 0) ∧
  field 2 (sp b s (function d)) 0 ≠ 0xFFFF ∧
  vendor_id d = field 2 (sp b s (function d)) 0 ∧ device_id d = field 2 (sp b s (function d)) 2.
Proof.
  unfold slot_functions. destruct (Z.eqb_spec (field 2 (sp b s 0) 0) 0xFFFF) as [|H0].
  { rewrite elem_of_nil. naive_solver. }
  rewrite list_elem_of_bind. unfold found. split.
  - intros (f & Hin & [? ?]%elem_of_seqZ).
    destruct (Z.eqb_spec (field 2 (sp b s f) 0) 0xFFFF); [by apply elem_of_nil in Hin|].
    apply list_elem_of_singleton in Hin as ->. simpl.
    destruct (Z.eqb_spec (Z.land (field 1 (sp b s 0) REG_HEADER_TYPE) 128) 0); simpl in *;
      split_and!; try done; lia.
  - intros (Hb & Hs & Hf & _ & Hm & Hp & Hv & Hi). exists (function d).
    rewrite (proj2 (Z.eqb_neq _ _) Hp). split.
    + apply list_elem_of_singleton. destruct d; simpl in *. by subst.
    + apply elem_of_seqZ. destruct (Z.eqb_spec (Z.land (field 1 (sp b s 0) REG_HEADER_TYPE) 128) 0); simpl; [|lia].
      destruct Hm; [lia|done].
Qed.

Lemma bind_nodup_key {A} (key : A → Z) (g : Z → list A) l :
  NoDup l → (∀ i, i ∈ l → NoDup (g i)) → (∀ i a, a ∈ g i → key a = i) → NoDup (l ≫= g).
Proof.
  induction 1 as [|i l Hi Hl IH]; intros Hg Hk; simpl; [constructor|].
  apply NoDup_app. split_and!.
  - apply Hg. left.
  - intros a Ha (j & Hj & Hjl)%list_elem_of_bind. apply Hk in Ha, Hj. congruence.
  - apply IH; [|done]. intros j Hj. apply Hg. by right.
Qed.

Lemma enumerate_nodup sp : NoDup (seqZ 0 256 ≫= λ b, seqZ 0 32 ≫= slot_functions sp b).
Proof.
  apply (bind_nodup_key bus); [apply NoDup_seqZ| |].
  + intros b _. apply (bind_nodup_key device); [apply NoDup_seqZ| |].
    * intros s _. unfold slot_functions. destruct (_ =? 65535); [constructor|].
      apply (bind_nodup_key function); [apply NoDup_seqZ| |].
      -- intros f _. unfold found. destruct (_ =? 65535); [constructor|apply NoDup_singleton].
      -- intros f d. unfold found. destruct (_ =? 65535); [by intros ?%elem_of_nil|].
         by intros ->%list_elem_of_singleton.
    * by intros s d (_ & ? & _)%slot_functions_in.
  + by intros b d (s & (? & _)%slot_functions_in & _)%list_elem_of_bind.
Qed.

Lemma enumerated_in sp d :
  d ∈ (seqZ 0 256 ≫= λ b, seqZ 0 32 ≫= slot_functions sp b) ↔
  pci_ok d ∧ field 2 (sp (bus d) (device d) 0) 0 ≠ 0xFFFF ∧
  (function d = 0 ∨ Z.land (field 1 (sp (bus d) (device d) 0) REG_HEADER_TYPE) 0x80 ≠ 0) ∧
  field 2 (sp (bus d) (device d) (function d)) 0 ≠ 0xFFFF ∧
  vendor_id d = field 2 (sp (bus d) (device d) (function d)) 0 ∧
  device_id d = field 2 (sp (bus d) (device d) (function d)) 2.
Proof.
  rewrite list_elem_of_bind. setoid_rewrite list_elem_of_bind.
  setoid_rewrite slot_functions_in. setoid_rewrite elem_of_seqZ. unfold pci_ok. split.
  - intros (b & (s & (<- & <- & ?) & ?) & ?). naive_solver lia.
  - intros ((? & ? & ?) & ?). exists (bus d). split; [|lia]. exists (device d). split; [|lia]. naive_solver.
Qed.

(* ------------------------------------------------------------------ *)
(** ** A bus *)

(** Functions with their configuration spaces; an address where nothing is
    plugged in reads as ones, and writes store what they are given. *)
Record pci_model := mkPciModel { pm_spaces : gmap (Z * Z * Z) (list Z); pm_latch : Z }.

Definition pm_space (m : gmap (Z * Z * Z) (list Z)) (b d f : Z) : list Z :=
  match m !! (b, d, f) with
  | Some l => if bool_decide (zlen l = 256 ∧ bytes_ok l) then l else zrep 256 0xFF
  | None => zrep 256 0xFF
  end.

Definition pm_select (a : Z) : Z * Z * Z * Z :=
  (a `div` 2 ^ 16 `mod` 256, a `div` 2 ^ 11 `mod` 32, a `div` 2 ^ 8 `mod` 8, a `div` 4 `mod` 64).

#[global] Instance pci_model_ports : Ports32 pci_model := {
  port_inl port m :=
    let '(b, d, f, r) := pm_select (pm_latch m) in
    (if port =? CONFIG_DATA then field 4 (pm_space (pm_spaces m) b d f) (4 * r) else 0, m);
  port_outl port v m :=
    if port =? CONFIG_ADDRESS then mkPciModel (pm_spaces m) v
    else if port =? CONFIG_DATA then
      let '(b, d, f, r) := pm_select (pm_latch m) in
      mkPciModel (<[(b, d, f) := zsplice (pm_space (pm_spaces m) b d f) (4 * r) (to_le 4 v)]> (pm_spaces m)) (pm_latch m)
    else m;
}.

Lemma pm_space_ok m b d f : zlen (pm_space m b d f) = 256 ∧ bytes_ok (pm_space m b d f).
Proof.
  assert (zlen (zrep 256 0xFF) = 256 ∧ bytes_ok (zrep 256 0xFF)) by (split; [done|by apply bytes_ok_zrep]).
  unfold pm_space. destruct (m !! (b, d, f)); [|done]. by case_bool_decide.
Qed.

Lemma pm_select_address b d f r :
  0 ≤ b < 256 → 0 ≤ d < 32 → 0 ≤ f < 8 → 0 ≤ r < 64 → pm_select (bus_address b d f r) = (b, d, f, r).
Proof. intros. unfold pm_select, bus_address. repeat f_equal; Z.to_euclidean_division_equations; lia. Qed.

#[global, refine] Instance pci_model_bus : PciBus pci_model := {
  space m := pm_space (pm_spaces m); latch := pm_latch;
}.
Proof.
  - intros m b d f. apply pm_space_ok.
  - done.
  - intros m b d f r Hb Hd Hf Hr Hl. unfold port_inl, pci_model_ports. rewrite Hl, pm_select_address by done. done.
  - intros m b d f r v Hb Hd Hf Hr Hl. unfold port_outl, pci_model_ports.
    change (CONFIG_DATA =? CONFIG_ADDRESS) with false.
    rewrite Z.eqb_refl, Hl, pm_select_address by done. cbn zeta. cbn [pm_spaces pm_latch].
    destruct (pm_space_ok (pm_spaces m) b d f) as [Hlen Hok]. set (s := pm_space (pm_spaces m) b d f) in *.
    assert (zlen (zsplice s (4 * r) (to_le 4 v)) = 256) by (rewrite zlen_zsplice; rewrite ?zlen_to_le; lia).
    assert (pm_space (<[(b, d, f) := zsplice s (4 * r) (to_le 4 v)]> (pm_spaces m)) b d f = zsplice s (4 * r) (to_le 4 v)) as E.
    { unfold pm_space. rewrite lookup_insert_eq. rewrite bool_decide_eq_true_2; [done|].
      split; [done|]. apply bytes_ok_zsplice; [done|]. by apply bytes_ok_to_le. }
    split_and!; [|intros b' d' f' Hne|done].
    + intros o Ho Hout. rewrite E. apply zget_zsplice_out; rewrite ?zlen_to_le; lia.
    + unfold pm_space. by rewrite lookup_insert_ne.
Defined.

(** C26: The scan of the bus is complete and exact.  On any bus that answers
    configuration cycles, [enumerate_pci] returns, once each, exactly the
    functions that are present, by their addresses and with the identifiers of
    their own configuration space (function 0 of every slot; functions 1 to 7
    of slots whose function 0 is present and says it has several functions),
    and leaves every configuration space as it was. *)
Theorem enumerate_pci_exact {X} `{PciBus X} (x : X) :
  let '(devices, x') := enumerate_pci x in
  NoDup devices ∧ space x' = space x ∧
  ∀ d, d ∈ devices ↔
    pci_ok d ∧
    field 2 (space x (bus d) (device d) 0) 0 ≠ 0xFFFF ∧
    (function d = 0 ∨ Z.land (field 1 (space x (bus d) (device d) 0) REG_HEADER_TYPE) 0x80 ≠ 0) ∧
    field 2 (cfg d x) 0 ≠ 0xFFFF ∧
    vendor_id d = field 2 (cfg d x) 0 ∧ device_id d = field 2 (cfg d x) 2.
Proof.
  destruct (enumerate_pci_list x) as (x' & -> & Hs). split_and!; [apply enumerate_nodup|done|].
  - apply enumerated_in.
Qed.

(** A bridge and a disk with two functions. *)
Definition sample_bus : pci_model :=
  mkPciModel {[ (0, 0, 0) := to_le 4 0x12378086 ++ zrep 252 0;
                (0, 4, 0) := zsplice (to_le 4 0x10421AF4 ++ zrep 252 0) 0x0E [0x80];
                (0, 4, 3) := to_le 4 0x10001AF4 ++ zrep 252 0 ]} 0.

Lemma enumerate_pci_exact_witness :
  let '(devices, x') := enumerate_pci sample_bus in
  NoDup devices ∧ mkPciDevice 0 4 3 0x1AF4 0x1000 ∈ devices ∧ mkPciDevice 0 0 3 0xFFFF 0xFFFF ∉ devices.
Proof.
  pose proof (enumerate_pci_exact sample_bus) as Hx. destruct (enumerate_pci sample_bus) as [devices x'].
  destruct Hx as (Hn & _ & Hd). split_and!; [exact Hn| |].
  - apply Hd. cbn [bus device function vendor_id device_id]. unfold pci_ok, cfg. cbn [bus device function].
    split_and!; try done. by right.
  - intros (_ & _ & _ & Hv & _)%Hd. by apply Hv.
Defined.
