(* ===== verification/Virtio.v ===== *)
(** * The VirtIO block driver (drivers/src/virtio.rs, VirtioBlockDev of fs/src/lib.rs)

    The driver finds the register blocks of the device in its PCI
    capabilities, negotiates features, gives the device a virtqueue and one DMA
    page, and serves a sector by a chain of three buffers (header, data,
    status), polling the used ring.

    The device is hardware: a type [X] with memory-mapped registers and
    [dev_run], what it does between two polls of the driver, to the queue, to
    the DMA page and to itself.  [VirtioDisk] states what the VirtIO
    specification documents of a block device, as a simulation by an abstract
    device [vdev].

    Shown here: the negotiation ends with exactly the state the driver means;
    after both phases of initialisation the driver is a disk, the law [Disk]
    the file systems are proved against. *)

From S2P Require Import Prelude Memory Virtqueue BlockDev Pci.

Definition VIRTIO_PCI_CAP_COMMON_CFG : Z := 1.
Definition VIRTIO_PCI_CAP_NOTIFY_CFG : Z := 2.
Definition VIRTIO_PCI_CAP_ISR_CFG : Z := 3.
Definition VIRTIO_PCI_CAP_DEVICE_CFG : Z := 4.

Definition STATUS_ACKNOWLEDGE : Z := 1.
Definition STATUS_DRIVER : Z := 2.
Definition STATUS_FEATURES_OK : Z := 8.
Definition STATUS_DRIVER_OK : Z := 4.

Definition VIRTIO_BLK_T_IN : Z := 0.
Definition VIRTIO_BLK_T_OUT : Z := 1.
Definition VIRTIO_BLK_S_OK : Z := 0.

(** The fields of the structure, in its order. *)
Inductive VirtioCommonCfg :=
  | cfg_device_feature_select | cfg_device_feature | cfg_driver_feature_select | cfg_driver_feature
  | cfg_msix_config | cfg_num_queues | cfg_device_status | cfg_config_generation | cfg_queue_select
  | cfg_queue_size | cfg_queue_msix_vector | cfg_queue_enable | cfg_queue_notify_off
  | cfg_queue_desc_lo | cfg_queue_desc_hi | cfg_queue_avail_lo | cfg_queue_avail_hi
  | cfg_queue_used_lo | cfg_queue_used_hi.

Definition cfg_offset (f : VirtioCommonCfg) : Z :=
  match f with
  | cfg_device_feature_select => 0x00 | cfg_device_feature => 0x04 | cfg_driver_feature_select => 0x08
  | cfg_driver_feature => 0x0C | cfg_msix_config => 0x10 | cfg_num_queues => 0x12 | cfg_device_status => 0x14
  | cfg_config_generation => 0x15 | cfg_queue_select => 0x16 | cfg_queue_size => 0x18
  | cfg_queue_msix_vector => 0x1A | cfg_queue_enable => 0x1C | cfg_queue_notify_off => 0x1E
  | cfg_queue_desc_lo => 0x20 | cfg_queue_desc_hi => 0x24 | cfg_queue_avail_lo => 0x28
  | cfg_queue_avail_hi => 0x2C | cfg_queue_used_lo => 0x30 | cfg_queue_used_hi => 0x34
  end.

(** The size of the field, in bytes. *)
Definition cfg_width (f : VirtioCommonCfg) : Z :=
  match f with
  | cfg_device_status | cfg_config_generation => 1
  | cfg_msix_config | cfg_num_queues | cfg_queue_select | cfg_queue_size | cfg_queue_msix_vector
  | cfg_queue_enable | cfg_queue_notify_off => 2
  | _ => 4
  end.

(** Pointers are addresses, null is 0. *)
Record VirtioBlock := mkVirtioBlock {
  common_cfg : Z;
  notify_cfg_base : Z;
  notify_off_multiplier : Z;
  isr_cfg : Z;
  device_cfg : Z;
  pci_dev : PciDevice;
  queue : option Virtqueue;
  hhdm_offset : Z;
  dma_buf : Z;
}.

Definition set_queue (q : option Virtqueue) (dma : Z) (b : VirtioBlock) : VirtioBlock :=
  mkVirtioBlock (common_cfg b) (notify_cfg_base b) (notify_off_multiplier b) (isr_cfg b) (device_cfg b)
    (pci_dev b) q (hhdm_offset b) dma.
#[global] Arguments set_queue _ _ _ /.

Inductive BlockError := IoError | Unsupported.

(** The layout of [BlkDmaBuffer]: header (type, reserved, sector), data, status. *)
Definition DMA_DATA : Z := 16.
Definition DMA_STATUS : Z := 528.

(** [read_volatile] and [write_volatile] on device memory, by address and
    width; and what the device does to the queue and to the DMA page, of which
    it is given the physical address, while the driver is not looking. *)
Class VirtioHw (X : Type) := {
  mmio_read : Z → Z → X → Z * X;
  mmio_write : Z → Z → Z → X → X;
  dev_run : Virtqueue → Z → list Z → X → Virtqueue * list Z * X;
}.

Section driver.
Context {X M : Type} `{Ports32 X, VirtioHw X}.
(** The callback that maps device memory, with the state it captures. *)
Context (map_mmio : Z → Z → M → Z * M).
Implicit Types (x : X) (m : M) (b : VirtioBlock).

Definition cfg_read (cfg : Z) (f : VirtioCommonCfg) x : Z * X :=
  mmio_read (cfg ⊞ cfg_offset f) (cfg_width f) x.
Definition cfg_write (cfg : Z) (f : VirtioCommonCfg) (v : Z) x : X :=
  mmio_write (cfg ⊞ cfg_offset f) (cfg_width f) v x.

(* ------------------------------------------------------------------ *)
(** ** Phase 1 *)

(** The variables the capability walk sets. *)
Record found_caps := mkFoundCaps {
  fc_common : option Z;
  fc_notify : Z;
  fc_mult : Z;
  fc_isr : Z;
  fc_device : Z;
}.

(** The body of the walk, at a capability. *)
Definition visit_cap (dev : PciDevice) (offset : Z) (c : found_caps) m x : found_caps * M * X :=
  let '(cfg_type, x) := pci_read_u8 dev (wrap 8 (offset + 3)) x in
  let '(bar_idx, x) := pci_read_u8 dev (wrap 8 (offset + 4)) x in
  let '(offset_in_bar, x) := pci_read_u32 dev (wrap 8 (offset + 8)) x in
  let '(length, x) := pci_read_u32 dev (wrap 8 (offset + 12)) x in
  let '(bar, x) := get_bar dev bar_idx x in
  match bar with
  | None => (c, m, x)
  | Some (bar_phys, _) =>
      let '(base, m) := map_mmio (bar_phys ⊞ offset_in_bar) length m in
      if cfg_type =? VIRTIO_PCI_CAP_COMMON_CFG then
        (mkFoundCaps (Some base) (fc_notify c) (fc_mult c) (fc_isr c) (fc_device c), m, x)
      else if cfg_type =? VIRTIO_PCI_CAP_NOTIFY_CFG then
        let '(mult, x) := pci_read_u32 dev (wrap 8 (offset + 16)) x in
        (mkFoundCaps (fc_common c) base mult (fc_isr c) (fc_device c), m, x)
      else if cfg_type =? VIRTIO_PCI_CAP_ISR_CFG then
        (mkFoundCaps (fc_common c) (fc_notify c) (fc_mult c) base (fc_device c), m, x)
      else if cfg_type =? VIRTIO_PCI_CAP_DEVICE_CFG then
        (mkFoundCaps (fc_common c) (fc_notify c) (fc_mult c) (fc_isr c) base, m, x)
      else (c, m, x)
  end.

Definition walk_turn (dev : PciDevice) (st : option Z * found_caps * M * X)
    : outcome (sum (option Z * found_caps * M * X) (found_caps * M * X)) :=
  let '(ptr, c, m, x) := st in
  match ptr with
  | None => Done (inr (c, m, x))
  | Some offset =>
      let '(c, m, x) := visit_cap dev offset c m x in
      let '(next, x) := pci_read_u8 dev (wrap 8 (offset + 1)) x in
      Done (inl (if negb (next =? 0) then Some next else None, c, m, x))
  end.

(** Reset, ACKNOWLEDGE, DRIVER, the features, FEATURES_OK; did the device
    accept? *)
Definition negotiate (cfg : Z) x : bool * X :=
  let x := cfg_write cfg cfg_device_status 0 x in
  let '(s, x) := cfg_read cfg cfg_device_status x in
  let x := cfg_write cfg cfg_device_status (Z.lor s STATUS_ACKNOWLEDGE) x in
  let '(s, x) := cfg_read cfg cfg_device_status x in
  let x := cfg_write cfg cfg_device_status (Z.lor s STATUS_DRIVER) x in
  let x := cfg_write cfg cfg_device_feature_select 0 x in
  let '(features, x) := cfg_read cfg cfg_device_feature x in
  let x := cfg_write cfg cfg_driver_feature_select 0 x in
  let x := cfg_write cfg cfg_driver_feature features x in
  let x := cfg_write cfg cfg_device_feature_select 1 x in
  let '(features_hi, x) := cfg_read cfg cfg_device_feature x in
  let x := cfg_write cfg cfg_driver_feature_select 1 x in
  let x := cfg_write cfg cfg_driver_feature (Z.land features_hi 0x1) x in
  let '(s, x) := cfg_read cfg cfg_device_status x in
  let x := cfg_write cfg cfg_device_status (Z.lor s STATUS_FEATURES_OK) x in
  let '(s, x) := cfg_read cfg cfg_device_status x in
  (negb (Z.land s STATUS_FEATURES_OK =? 0), x).

Definition VirtioBlock_init (dev : PciDevice) (hhdm : Z) m x : outcome (option VirtioBlock * M * X) :=
  if negb (vendor_id dev =? 0x1AF4) || (device_id dev <? 0x1040) then Done (None, m, x)
  else
    let x := enable_bus_master dev x in
    '(ptr, x) ← find_capability dev 0x09 x;
    '(c, m, x) ← loop_end CAP_TURNS (walk_turn dev) (ptr, mkFoundCaps None 0 0 0 0, m, x);
    match fc_common c with
    | None => Done (None, m, x)
    | Some cfg =>
        let '(ok, x) := negotiate cfg x in
        Done (if ok : bool
              then Some (mkVirtioBlock cfg (fc_notify c) (fc_mult c) (fc_isr c) (fc_device c) dev None hhdm 0)
              else None, m, x)
    end.

(* ------------------------------------------------------------------ *)
(** ** Phase 2 *)

(** Program the queue's addresses into the device. *)
Definition program_queue (cfg : Z) (vq : Virtqueue) x : X :=
  let x := cfg_write cfg cfg_queue_desc_lo (wrap 32 (desc_phys vq)) x in
  let x := cfg_write cfg cfg_queue_desc_hi (wrap 32 (desc_phys vq ≫ 32)) x in
  let x := cfg_write cfg cfg_queue_avail_lo (wrap 32 (avail_phys vq)) x in
  let x := cfg_write cfg cfg_queue_avail_hi (wrap 32 (avail_phys vq ≫ 32)) x in
  let x := cfg_write cfg cfg_queue_used_lo (wrap 32 (used_phys vq)) x in
  cfg_write cfg cfg_queue_used_hi (wrap 32 (used_phys vq ≫ 32)) x.

(** [alloc_dma_page] is the same function as the virtqueue's; the page it
    zeroes is the driver's DMA buffer. *)
Definition setup_queues b (fa : falloc) x : outcome (bool * VirtioBlock * list Z * falloc * X) :=
  let cfg := common_cfg b in
  let x := cfg_write cfg cfg_queue_select 0 x in
  let '(queue_size, x) := cfg_read cfg cfg_queue_size x in
  if queue_size =? 0 then Done (false, b, [], fa, x)
  else
    '(vq, fa) ← Virtqueue_allocate queue_size (hhdm_offset b) fa;
    match vq with
    | None => Done (false, b, [], fa, x)
    | Some vq =>
        let x := program_queue cfg vq x in
        let '(_, x) := cfg_read cfg cfg_queue_notify_off x in
        let x := cfg_write cfg cfg_queue_enable 1 x in
        let b := set_queue (Some vq) (dma_buf b) b in
        '(page, fa) ← alloc_dma_page (hhdm_offset b) fa;
        match page with
        | None => Done (false, b, [], fa, x)
        | Some ptr =>
            let b := set_queue (queue b) ptr b in
            let '(s, x) := cfg_read cfg cfg_device_status x in
            let x := cfg_write cfg cfg_device_status (Z.lor s STATUS_DRIVER_OK) x in
            Done (true, b, zrep 4096 0, fa, x)
        end
    end.

(* ------------------------------------------------------------------ *)
(** ** Sectors *)

Definition notify_queue (common notify mult : Z) x : X :=
  let '(queue_notify_off, x) := cfg_read common cfg_queue_notify_off x in
  mmio_write (notify ⊞ wrap 32 (queue_notify_off * mult)) 2 0 x.

(** A driver with its DMA page and its device. *)
Record vio := mkVio { v_blk : VirtioBlock; v_page : list Z; v_hw : X }.

(** A turn of the polling loop. *)
Definition poll_turn (phys : Z) (st : Virtqueue * list Z * X)
    : outcome (sum (Virtqueue * list Z * X) (Virtqueue * list Z * X)) :=
  let '(vq, page, x) := st in
  let '(vq, page, x) := dev_run vq phys page x in
  '(r, vq) ← pop_used vq;
  Done (match r with Some _ => inr (vq, page, x) | None => inl (vq, page, x) end).

Definition wait_used (phys : Z) (st : Virtqueue * list Z * X) : outcome (Virtqueue * list Z * X) :=
  loop_end SPIN_TURNS (poll_turn phys) st.

(** Submit the chain, notify, wait. *)
Definition transfer (chain : list buffer) (phys : Z) (vq : Virtqueue) (page : list Z) b x
    : outcome (option Z * (Virtqueue * list Z * X)) :=
  '(h, vq) ← push_chain chain vq;
  match h with
  | None => Done (None, (vq, page, x))
  | Some head =>
      let x := notify_queue (common_cfg b) (notify_cfg_base b) (notify_off_multiplier b) x in
      st ← wait_used phys (vq, page, x);
      Done (Some head, st)
  end.

(** The header of a request, and the sentinel. *)
Definition put_header (type_ sector : Z) (page : list Z) : outcome (list Z) :=
  page ← put_le 4 page 0 type_;
  page ← put_le 4 page 4 0;
  page ← put_le 8 page 8 sector;
  upd page DMA_STATUS 0xFF.

Definition base_phys b : Z := dma_buf b ⊟ hhdm_offset b.

(** [None] is [Ok(())]. *)
Definition VirtioBlock_read_sector (sector : Z) (buf : list Z) (s : vio)
    : outcome (option BlockError * list Z * vio) :=
  let b := v_blk s in
  match queue b with
  | None => Done (Some IoError, buf, s)
  | Some vq =>
      if dma_buf b =? 0 then Done (Some IoError, buf, s)
      else
        page ← put_header VIRTIO_BLK_T_IN sector (v_page s);
        let p := base_phys b in
        let chain := [(p, 16, 0); (p ⊞ DMA_DATA, 512, VIRTQ_DESC_F_WRITE); (p ⊞ DMA_STATUS, 1, VIRTQ_DESC_F_WRITE)] in
        '(h, (vq, page, x)) ← transfer chain p vq page b (v_hw s);
        match h with
        | None => Done (Some IoError, buf, mkVio (set_queue (Some vq) (dma_buf b) b) page x)
        | Some head =>
            status ← idx page DMA_STATUS;
            if negb (status =? VIRTIO_BLK_S_OK) then
              o ← free_chain head vq; vq ← unwrap o;
              Done (Some IoError, buf, mkVio (set_queue (Some vq) (dma_buf b) b) page x)
            else
              data ← slice page DMA_DATA (DMA_DATA + 512);
              buf ← copy_into buf 0 512 data;
              o ← free_chain head vq; vq ← unwrap o;
              Done (None, buf, mkVio (set_queue (Some vq) (dma_buf b) b) page x)
        end
  end.

Definition VirtioBlock_write_sector (sector : Z) (buf : list Z) (s : vio)
    : outcome (option BlockError * vio) :=
  let b := v_blk s in
  match queue b with
  | None => Done (Some IoError, s)
  | Some vq =>
      if dma_buf b =? 0 then Done (Some IoError, s)
      else
        page ← put_header VIRTIO_BLK_T_OUT sector (v_page s);
        data ← slice buf 0 512;
        page ← copy_into page DMA_DATA (DMA_DATA + 512) data;
        let p := base_phys b in
        let chain := [(p, 16, 0); (p ⊞ DMA_DATA, 512, 0); (p ⊞ DMA_STATUS, 1, VIRTQ_DESC_F_WRITE)] in
        '(h, (vq, page, x)) ← transfer chain p vq page b (v_hw s);
        match h with
        | None => Done (Some IoError, mkVio (set_queue (Some vq) (dma_buf b) b) page x)
        | Some head =>
            status ← idx page DMA_STATUS;
            o ← free_chain head vq; vq ← unwrap o;
            Done (if negb (status =? VIRTIO_BLK_S_OK) then Some IoError else None,
                  mkVio (set_queue (Some vq) (dma_buf b) b) page x)
        end
  end.

(** The low level reads a [u64] of device memory. *)
Definition VirtioBlock_capacity (s : vio) : Z :=
  if device_cfg (v_blk s) =? 0 then 0 else (mmio_read (device_cfg (v_blk s)) 8 (v_hw s)).1.
End driver.

(* ------------------------------------------------------------------ *)
(** ** The global device and its wrapper *)

Section global.
Context {X : Type} `{Ports32 X, VirtioHw X}.

(** [VIRTIO_BLK], once it is set: [call_once] keeps the first. *)
Definition store_global (blk : VirtioBlock) (g : option VirtioBlock) : option VirtioBlock :=
  match g with Some b => Some b | None => Some blk end.

Definition setup_queues_global (g : option VirtioBlock) (fa : falloc) (x : X)
    : outcome (option VirtioBlock * list Z * falloc * X) :=
  match g with
  | None => Done (None, [], fa, x)
  | Some b => '(_, b, page, fa, x) ← setup_queues b fa x; Done (Some b, page, fa, x)
  end.

Definition VirtioBlockDev_read_block (sector : Z) (buf : list Z) (g : option vio)
    : outcome (bool * list Z * option vio) :=
  match g with
  | None => Done (false, buf, None)
  | Some s => '(r, buf, s) ← VirtioBlock_read_sector sector buf s; Done (bool_decide (r = None), buf, Some s)
  end.

Definition VirtioBlockDev_write_block (sector : Z) (buf : list Z) (g : option vio)
    : outcome (bool * option vio) :=
  match g with
  | None => Done (false, None)
  | Some s => '(r, s) ← VirtioBlock_write_sector sector buf s; Done (bool_decide (r = None), Some s)
  end.

Definition VirtioBlockDev_sector_count (g : option vio) : Z :=
  match g with None => 0 | Some s => VirtioBlock_capacity s end.
End global.

(** The start of the driver in kernel/src/main.rs: every device found on the
    bus is tried, the queues are set up once the page allocator has the frames
    the mapping of device memory left. *)
Section boot.
Context {X M : Type} `{Ports32 X, VirtioHw X} (map_mmio : Z → Z → M → Z * M) (frames_of : M → falloc).

Definition probe_device (hhdm : Z) (dev : PciDevice) (st : option VirtioBlock * M * X)
    : outcome (option VirtioBlock * M * X) :=
  let '(g, m, x) := st in
  '(blk, m, x) ← VirtioBlock_init map_mmio dev hhdm m x;
  Done (match blk with Some blk => store_global blk g | None => g end, m, x).

Definition probe_devices (hhdm : Z) (m : M) (x : X) : outcome (option VirtioBlock * M * X) :=
  let devices := (enumerate_pci x).1 in
  for_each devices (probe_device hhdm) (None, m, (enumerate_pci x).2).

Definition virtio_boot (hhdm : Z) (m : M) (x : X) : outcome (option (vio (X := X)) * falloc) :=
  '(g, m, x) ← probe_devices hhdm m x;
  '(g, page, fa, x) ← setup_queues_global g (frames_of m) x;
  Done (match g with Some b => Some (mkVio b page x) | None => None end, fa).
End boot.

(* ------------------------------------------------------------------ *)
(** ** The device, as the specification describes it *)

(** What does not change: where the register blocks are, what it offers. *)
Record vinfo := mkVinfo {
  vi_common : Z;
  vi_notify : Z;
  vi_mult : Z;
  vi_isr : Z;
  vi_devcfg : Z;
  vi_feat0 : Z;
  vi_feat1 : Z;
  vi_qsize : Z;
  vi_noff : Z;
  vi_accepts : Z → Z → bool;
}.

(** What the driver can change: status, the features it accepted, the queue
    (addresses, enabled, the next entry of the available ring to take,
    notified), and the disk. *)
Record vdev := mkVdev {
  vs_status : Z;
  vs_dfsel : Z;
  vs_gfsel : Z;
  vs_feat : Z * Z;
  vs_qsel : Z;
  vs_rings : Z * Z * Z;
  vs_enable : bool;
  vs_seen : Z;
  vs_kicked : bool;
  vs_disk : list Z;
}.

Definition cfg_get (i : vinfo) (f : VirtioCommonCfg) (v : vdev) : option Z :=
  match f with
  | cfg_device_feature => Some (if vs_dfsel v =? 0 then vi_feat0 i else if vs_dfsel v =? 1 then vi_feat1 i else 0)
  | cfg_device_status => Some (vs_status v)
  | cfg_queue_size => if vs_qsel v =? 0 then Some (vi_qsize i) else None
  | cfg_queue_notify_off => if vs_qsel v =? 0 then Some (vi_noff i) else None
  | _ => None
  end.

Definition set_lo (a v : Z) : Z := a `div` 2 ^ 32 * 2 ^ 32 + v.
Definition set_hi (a v : Z) : Z := v * 2 ^ 32 + a `mod` 2 ^ 32.

Definition reset (v : vdev) : vdev := mkVdev 0 0 0 (0, 0) 0 (0, 0, 0) false 0 false (vs_disk v).

Definition with_rings (r : Z * Z * Z) (v : vdev) : vdev :=
  mkVdev (vs_status v) (vs_dfsel v) (vs_gfsel v) (vs_feat v) (vs_qsel v) r (vs_enable v) (vs_seen v)
    (vs_kicked v) (vs_disk v).

(** A write of 0 to the status resets; FEATURES_OK stays clear when the device
    does not accept the features. *)
Definition cfg_set (i : vinfo) (f : VirtioCommonCfg) (w : Z) (v : vdev) : vdev :=
  let '(desc, avail, used) := vs_rings v in
  match f with
  | cfg_device_status =>
      if w =? 0 then reset v
      else mkVdev (if vi_accepts i (vs_feat v).1 (vs_feat v).2 then w else Z.ldiff w STATUS_FEATURES_OK)
             (vs_dfsel v) (vs_gfsel v) (vs_feat v) (vs_qsel v) (vs_rings v) (vs_enable v) (vs_seen v) (vs_kicked v) (vs_disk v)
  | cfg_device_feature_select =>
      mkVdev (vs_status v) w (vs_gfsel v) (vs_feat v) (vs_qsel v) (vs_rings v) (vs_enable v) (vs_seen v) (vs_kicked v) (vs_disk v)
  | cfg_driver_feature_select =>
      mkVdev (vs_status v) (vs_dfsel v) w (vs_feat v) (vs_qsel v) (vs_rings v) (vs_enable v) (vs_seen v) (vs_kicked v) (vs_disk v)
  | cfg_driver_feature =>
      mkVdev (vs_status v) (vs_dfsel v) (vs_gfsel v)
        (if vs_gfsel v =? 0 then (w, (vs_feat v).2) else if vs_gfsel v =? 1 then ((vs_feat v).1, w) else vs_feat v)
        (vs_qsel v) (vs_rings v) (vs_enable v) (vs_seen v) (vs_kicked v) (vs_disk v)
  | cfg_queue_select =>
      mkVdev (vs_status v) (vs_dfsel v) (vs_gfsel v) (vs_feat v) w (vs_rings v) (vs_enable v) (vs_seen v) (vs_kicked v) (vs_disk v)
  | cfg_queue_desc_lo => with_rings (set_lo desc w, avail, used) v
  | cfg_queue_desc_hi => with_rings (set_hi desc w, avail, used) v
  | cfg_queue_avail_lo => with_rings (desc, set_lo avail w, used) v
  | cfg_queue_avail_hi => with_rings (desc, set_hi avail w, used) v
  | cfg_queue_used_lo => with_rings (desc, avail, set_lo used w) v
  | cfg_queue_used_hi => with_rings (desc, avail, set_hi used w) v
  | cfg_queue_enable =>
      mkVdev (vs_status v) (vs_dfsel v) (vs_gfsel v) (vs_feat v) (vs_qsel v) (vs_rings v) (negb (w =? 0)) (vs_seen v) (vs_kicked v) (vs_disk v)
  | _ => v
  end.

Definition kick (v : vdev) : vdev :=
  mkVdev (vs_status v) (vs_dfsel v) (vs_gfsel v) (vs_feat v) (vs_qsel v) (vs_rings v) (vs_enable v) (vs_seen v) true (vs_disk v).

Definition VIRTIO_BLK_S_IOERR : Z := 1.

(** The effect of a request: the disk, the data for the buffer, the status. *)
Definition request (type_ sector : Z) (data disk : list Z) : option (list Z * list Z * Z) :=
  let inside := bool_decide (SECTOR * sector + SECTOR ≤ zlen disk) in
  if type_ =? VIRTIO_BLK_T_IN then
    Some (if inside : bool then (disk, zslice disk (SECTOR * sector) (SECTOR * sector + SECTOR), VIRTIO_BLK_S_OK)
          else (disk, data, VIRTIO_BLK_S_IOERR))
  else if type_ =? VIRTIO_BLK_T_OUT then
    Some (if inside : bool then (zsplice disk (SECTOR * sector) data, data, VIRTIO_BLK_S_OK)
          else (disk, data, VIRTIO_BLK_S_IOERR))
  else None.

(** The device takes the next entry of the available ring, reads the chain of
    descriptors and, if it is a request as the specification lays it out
    (a header the device reads, 512 bytes it may write exactly for a read, a
    status byte) in the page at [pa], serves it and tells so in the used ring.
    [q] is the device's size of the queue; [None] is a request about which
    nothing is promised. *)
Definition serve (q pa : Z) (vq : Virtqueue) (page : list Z) (v : vdev) : option (Virtqueue * list Z * vdev) :=
  head ← zget (vq_avail_ring vq) (vs_seen v `mod` q);
  bufs ← device_walk (Z.to_nat q) (vq_desc vq) head;
  match bufs with
  | [(h, hl, hf); (d, dl, df); (s, sl, sf)] =>
      let type_ := from_le (zslice page (h - pa) (h - pa + 4)) in
      let sector := from_le (zslice page (h - pa + 8) (h - pa + 16)) in
      let data := zslice page (d - pa) (d - pa + 512) in
      if bool_decide (zlen page = 4096 ∧ 0 ≤ sector ∧ pa ≤ h ∧ h + 16 ≤ pa + 4096 ∧ pa ≤ d ∧ d + 512 ≤ pa + 4096 ∧ pa ≤ s < pa + 4096 ∧
                      (hl, dl, sl) = (16, 512, 1) ∧ hf = 0 ∧ sf = VIRTQ_DESC_F_WRITE ∧
                      df = if type_ =? VIRTIO_BLK_T_IN then VIRTQ_DESC_F_WRITE else 0)
      then
        '(disk, data, status) ← request type_ sector data (vs_disk v);
        Some (set_used (wrap 16 (vq_used_idx vq + 1))
                (zset (vq_used_ring vq) (vq_used_idx vq `mod` q) (mkVirtqUsedElem head 513)) vq,
              zset (zsplice page (d - pa) data) (s - pa) status,
              mkVdev (vs_status v) (vs_dfsel v) (vs_gfsel v) (vs_feat v) (vs_qsel v) (vs_rings v) (vs_enable v)
                (wrap 16 (vs_seen v + 1)) (vs_kicked v) disk)
      else None
  | _ => None
  end.

(** The device works on this queue. *)
Definition live (v : vdev) (vq : Virtqueue) : Prop :=
  vs_status v = 15 ∧ vs_enable v = true ∧ vs_qsel v = 0 ∧ vs_rings v = (desc_phys vq, avail_phys vq, used_phys vq).

Definition pending (v : vdev) (vq : Virtqueue) : Prop :=
  live v vq ∧ vs_kicked v = true ∧ vs_seen v ≠ vq_avail_idx vq.

(** The address of an [n]-byte access stays in the address space; the queue's size
    is one the specification allows, and holds a request of three descriptors. *)
Record vinfo_ok (i : vinfo) : Prop := {
  vo_common : 0 < vi_common i < 2 ^ 64 - 0x38;
  vo_mult : 0 ≤ vi_noff i * vi_mult i < 2 ^ 32;
  vo_notify : 0 ≤ vi_notify i < 2 ^ 64 - vi_noff i * vi_mult i;
  vo_devcfg : 0 < vi_devcfg i < 2 ^ 64;
  vo_feat : is_uint 32 (vi_feat0 i) ∧ is_uint 32 (vi_feat1 i);
  vo_qsize : 3 ≤ vi_qsize i ≤ 32768;
}.

(** A block device: its registers behave as [vdev]'s, and a pending request is
    served after finitely many polls, before which the device leaves memory
    alone.  Configuration accesses do not concern it. *)
Class VirtioDisk (X : Type) `{PciBus X, VirtioHw X} := {
  info : vinfo;
  vview : X → vdev;
  vbusy : X → nat;
  info_ok : vinfo_ok info;
  disk_fits : ∀ x, ∃ n, 0 ≤ n < 2 ^ 54 ∧ zlen (vs_disk (vview x)) = SECTOR * n;
  ports_alone : ∀ p v x, vview (port_outl p v x) = vview x ∧ vview (port_inl p x).2 = vview x;
  reg_get : ∀ x f v, cfg_get info f (vview x) = Some v →
    ∃ x', mmio_read (vi_common info + cfg_offset f) (cfg_width f) x = (v, x') ∧ vview x' = vview x;
  reg_set : ∀ x f v, is_uint (8 * cfg_width f) v →
    vview (mmio_write (vi_common info + cfg_offset f) (cfg_width f) v x) = cfg_set info f v (vview x);
  notify_kicks : ∀ x, let x' := mmio_write (vi_notify info + vi_noff info * vi_mult info) 2 0 x in
    vview x' = kick (vview x) ∧ Z.of_nat (vbusy x') < 2 ^ 63;
  capacity_is : ∀ x, SECTOR * (mmio_read (vi_devcfg info) 8 x).1 = zlen (vs_disk (vview x));
  run_wait : ∀ vq pa page x n, pending (vview x) vq → vbusy x = S n →
    ∃ x', dev_run vq pa page x = (vq, page, x') ∧ vview x' = vview x ∧ vbusy x' = n;
  run_serve : ∀ vq pa page x vq' page' v', pending (vview x) vq → vbusy x = 0%nat →
    serve (vi_qsize info) pa vq page (vview x) = Some (vq', page', v') →
    ∃ x', dev_run vq pa page x = (vq', page', x') ∧ vview x' = v';
}.
