(* ===== verification/VirtioDisk.v ===== *)
(** * The VirtIO driver is a disk

    Theorems about the driver of Virtio.v on any device that behaves as the
    specification says ([VirtioDisk]): feature negotiation and queue setup
    bring driver and device into agreement, and from then on reading and
    writing sectors is reading and writing the device's bytes, however long
    the device takes for a request. *)

From S2P Require Import Prelude Memory Virtqueue BlockDev Pci Virtio.

Section requests.
Context {X : Type} `{VirtioDisk X}.
Implicit Types (x : X) (vq : Virtqueue) (b : VirtioBlock) (page : list Z).

(** Driver and device agree on an idle queue. *)
Record ready vq x : Prop := {
  rd_inv : ∃ free, vq_inv vq [] free [];
  rd_size : queue_size vq = vi_qsize info;
  rd_live : live (vview x) vq;
  rd_seen : vs_seen (vview x) = vq_avail_idx vq ∧ is_uint 16 (vq_avail_idx vq);
  rd_used : last_used_idx vq = vq_used_idx vq ∧ is_uint 16 (vq_used_idx vq);
}.

(** The pointers are the device's. *)
Definition points b : Prop :=
  common_cfg b = vi_common info ∧ notify_cfg_base b = vi_notify info ∧ notify_off_multiplier b = vi_mult info ∧
  device_cfg b = vi_devcfg info.

Lemma cfg_address f : vi_common info ⊞ cfg_offset f = vi_common info + cfg_offset f.
Proof.
  pose proof (vo_common _ info_ok). apply wrap_small. destruct f; unfold is_uint; simpl; lia.
Qed.

Lemma notify_spec b x :
  points b → vs_qsel (vview x) = 0 →
  let x' := notify_queue (common_cfg b) (notify_cfg_base b) (notify_off_multiplier b) x in
  vview x' = kick (vview x) ∧ Z.of_nat (vbusy x') < 2 ^ 63.
Proof.
  intros (-> & -> & -> & _) Hq. unfold notify_queue, cfg_read. rewrite cfg_address.
  destruct (reg_get x cfg_queue_notify_off (vi_noff info)) as (x1 & -> & <-); [simpl; by rewrite Hq|].
  destruct info_ok as [_ Hm Hn _ _ _]. rewrite (wrap_small 32) by exact Hm.
  rewrite wrap_small by (split; lia). apply notify_kicks.
Qed.

(** The three buffers of a request in the page at [p]. *)
Definition req_chain (p df : Z) : list buffer :=
  [(p, 16, 0); (p + 16, 512, df); (p + 528, 1, VIRTQ_DESC_F_WRITE)].

(** The page holds a request. *)
Definition req_page (type_ sector : Z) page : Prop :=
  zlen page = 4096 ∧ from_le (zslice page 0 4) = type_ ∧ from_le (zslice page 8 16) = sector ∧ 0 ≤ sector.

Lemma serve_spec p vq h l free df page type_ sector v disk data status :
  vq_inv vq [(h, req_chain p df)] free [l] → queue_size vq = vi_qsize info →
  zget (vq_avail_ring vq) (vs_seen v `mod` queue_size vq) = Some h →
  req_page type_ sector page → df = (if type_ =? VIRTIO_BLK_T_IN then VIRTQ_DESC_F_WRITE else 0) →
  request type_ sector (zslice page 16 528) (vs_disk v) = Some (disk, data, status) →
  ∃ v', serve (vi_qsize info) p vq page v =
    Some (set_used (wrap 16 (vq_used_idx vq + 1))
            (zset (vq_used_ring vq) (vq_used_idx vq `mod` queue_size vq) (mkVirtqUsedElem h 513)) vq,
          zset (zsplice page 16 data) 528 status, v') ∧
    vs_disk v' = disk ∧ vs_seen v' = wrap 16 (vs_seen v + 1) ∧ (live v vq → live v' vq).
Proof.
  intros Hv Hq Hh (Hlen & Ht & Hs & H0s) Hdf Hr. unfold serve. rewrite <-Hq, Hh. cbn [mbind option_bind].
  pose proof (vi_chains _ _ _ _ Hv) as Hc. apply Forall2_cons in Hc as [[Hhd Hc] _]. simpl in Hhd, Hc.
  destruct (chain_length _ _ _ Hc) as [Hll _]. pose proof (vo_qsize _ info_ok).
  rewrite (chain_walk _ _ _ (Z.to_nat (queue_size vq)) h Hc Hhd) by (rewrite Hll; simpl; lia).
  cbn [mbind option_bind req_chain fmap list_fmap strip fst snd].
  assert (Z.land df (Z.lxor 65535 VIRTQ_DESC_F_NEXT) = df) as -> by (rewrite Hdf; by destruct (_ =? _)).
  rewrite Z.sub_diag. replace (p + 16 - p) with 16 by lia. replace (p + 528 - p) with 528 by lia.
  change (0 + 4) with 4. change (0 + 8) with 8. change (0 + 16) with 16. change (16 + 512) with 528.
  rewrite Ht, Hs, bool_decide_eq_true_2 by (split_and!; done || lia || by rewrite Hdf).
  rewrite Hr. cbn [mbind option_bind]. eexists. split; [done|]. split_and!; [done|done|by intros].
Qed.
(** Polling: the device takes its time, then serves, and the driver sees it. *)
Lemma poll_spec n : ∀ p vq page x vq' page' v' e vq'',
  pending (vview x) vq → vbusy x = n → last_used_idx vq = vq_used_idx vq →
  serve (vi_qsize info) p vq page (vview x) = Some (vq', page', v') → pop_used vq' = Done (Some e, vq'') →
  ∃ x', turns (S n) (poll_turn p) (vq, page, x) = Done (inr (vq'', page', x')) ∧ vview x' = v'.
Proof.
  induction n as [|n IH]; intros p vq page x vq' page' v' e vq'' Hp Hb Hu Hs Epop.
  - destruct (run_serve _ _ _ _ _ _ _ Hp Hb Hs) as (x' & E & Hv). exists x'. split; [|done].
    simpl. by rewrite E, Epop.
  - destruct (run_wait vq p page x n Hp Hb) as (x1 & E & Hv1 & Hb1).
    destruct (IH p vq page x1 vq' page' v' e vq'') as (x' & Hrun & Hv); [by rewrite Hv1|done|done|by rewrite Hv1|done|].
    exists x'. split; [|done].
    assert (poll_turn p (vq, page, x) = Done (inl (vq, page, x1))) as Et.
    { unfold poll_turn. rewrite E. unfold pop_used. by rewrite Hu, Z.eqb_refl. }
    change (turns (S (S n)) ?f ?st) with (r ← f st; match r with inl st' => turns (S n) f st' | inr r' => Done (inr r') end).
    rewrite Et. exact Hrun.
Qed.

Lemma wait_spec p vq page x vq' page' v' e vq'' :
  pending (vview x) vq → Z.of_nat (vbusy x) < 2 ^ 63 → last_used_idx vq = vq_used_idx vq →
  serve (vi_qsize info) p vq page (vview x) = Some (vq', page', v') → pop_used vq' = Done (Some e, vq'') →
  ∃ x', wait_used p (vq, page, x) = Done (vq'', page', x') ∧ vview x' = v'.
Proof.
  intros Hp Hb Hl Hs Hpop. destruct (poll_spec _ _ _ _ _ _ _ _ _ _ Hp eq_refl Hl Hs Hpop) as (x' & Hrun & Hv).
  exists x'. split; [|done]. eapply loop_end_turns; [exact Hrun|]. unfold SPIN_TURNS. lia.
Qed.

Lemma transfer_eq chain p vq page b x h v1 st :
  push_chain chain vq = Done (Some h, v1) →
  wait_used p (v1, page, notify_queue (common_cfg b) (notify_cfg_base b) (notify_off_multiplier b) x) = Done st →
  transfer chain p vq page b x = Done (Some h, st).
Proof. unfold transfer. generalize (@wait_used X _ p). intros w Hp Hw. rewrite Hp. cbn [mbind outcome_bind]. by rewrite Hw. Qed.

Lemma pop_served vq h :
  last_used_idx vq = vq_used_idx vq → is_uint 16 (vq_used_idx vq) → zlen (vq_used_ring vq) = USED_PER_PAGE →
  1 ≤ queue_size vq ≤ DESC_PER_PAGE →
  pop_used (set_used (wrap 16 (vq_used_idx vq + 1)) (zset (vq_used_ring vq) (vq_used_idx vq `mod` queue_size vq) h) vq) =
  Done (Some (u_id h, u_len h),
    set_last_used (wrap 16 (vq_used_idx vq + 1))
      (set_used (wrap 16 (vq_used_idx vq + 1)) (zset (vq_used_ring vq) (vq_used_idx vq `mod` queue_size vq) h) vq)).
Proof.
  intros Hu Hr Hl Hq. unfold pop_used. simpl. unfold is_uint, wrap, USED_PER_PAGE, DESC_PER_PAGE in *. rewrite Hu.
  destruct (Z.eqb_spec (vq_used_idx vq) ((vq_used_idx vq + 1) `mod` 2 ^ 16)) as [E|_].
  { exfalso. Z.to_euclidean_division_equations. lia. }
  destruct (Z.eqb_spec (queue_size vq) 0); [lia|]. simpl.
  pose proof (Z.mod_pos_bound (vq_used_idx vq) (queue_size vq) ltac:(lia)).
  erewrite (proj2 (idx_Done _ _ _)); [done|]. apply zget_zset_eq. lia.
Qed.

Lemma transfer_spec vq page b x p type_ sector disk data status df :
  ready vq x → points b → 0 ≤ p → p + 4096 ≤ 2 ^ 64 → req_page type_ sector page →
  df = (if type_ =? VIRTIO_BLK_T_IN then VIRTQ_DESC_F_WRITE else 0) →
  request type_ sector (zslice page 16 528) (vs_disk (vview x)) = Some (disk, data, status) →
  ∃ h vq' vq'' x',
    transfer [(p, 16, 0); (p ⊞ DMA_DATA, 512, df); (p ⊞ DMA_STATUS, 1, VIRTQ_DESC_F_WRITE)] p vq page b x =
      Done (Some h, (vq', zset (zsplice page 16 data) 528 status, x')) ∧
    free_chain h vq' = Done (Some vq'') ∧ ready vq'' x' ∧ vs_disk (vview x') = disk.
Proof.
  intros [[free Hinv] Hsz Hlive [Hseen Ha] [Hlast Hu]] Hpt Hp Hp' Hpage Hdf Hreq.
  unfold DMA_DATA, DMA_STATUS. rewrite !wrap_small by (split; lia). fold (req_chain p df).
  pose proof (vo_qsize _ info_ok) as Hqs.
  destruct (push_idle vq free (req_chain p df) Hinv) as (h & v1 & free1 & l & Hpush & Hv1 & Hh & Hrg & Hav);
    [done|by change (zlen (req_chain p df)) with 3; lia| |].
  { rewrite Hdf. apply Forall_forall. intros c Hc. unfold req_chain in Hc. rewrite !elem_of_cons, elem_of_nil in Hc.
    destruct Hc as [->|[->|[->|[]]]]; [done| |done]. by destruct (_ =? _). }
  unfold rings in Hrg. injection Hrg as Hui Hur Hd1 Hd2 Hd3 Hq1 Hl1.
  destruct Hlive as (Hst & Hen & Hqsel & Hrings).
  destruct (notify_spec b x Hpt Hqsel) as [Hk Hbz]. set (x1 := notify_queue _ _ _ x) in *.
  assert (pending (vview x1) v1) as Hpend.
  { rewrite Hk. split_and!; [|done|].
    { unfold live. simpl. by rewrite Hst, Hen, Hqsel, Hrings, Hd1, Hd2, Hd3. }
    simpl. rewrite Hseen, Hav.
    unfold wrap, is_uint in *. intros E. Z.to_euclidean_division_equations. lia. }
  destruct (serve_spec p v1 h l free1 df page type_ sector (vview x1) disk data status Hv1) as (v' & Hs & Hdk & Hsn & Hlv);
    [congruence|rewrite Hk; simpl; by rewrite Hseen, Hq1|done|done|by rewrite Hk|].
  assert (queue_size v1 = vi_qsize info) as Hq1' by congruence.
  pose proof (vi_qs _ _ _ _ Hv1) as Hqs1. rewrite Hq1' in Hqs1.
  destruct (wait_spec p v1 page x1 _ _ _ _ _ Hpend Hbz ltac:(congruence) Hs
    (pop_served v1 _ ltac:(congruence) ltac:(by rewrite Hui) (vi_used _ _ _ _ Hv1) ltac:(lia))) as (x' & Hrun & Hx').
  pose proof (transfer_eq (req_chain p df) p vq page b x h v1 _ Hpush Hrun) as Htr. clear Hrun.
  set (v2 := set_last_used _ _) in Htr.
  assert (vq_inv v2 [(h, req_chain p df)] free1 [l]) as Hv2.
  { destruct Hv1. split; simpl; try done; [by rewrite zlen_zset|by apply wrap_range]. }
  destruct (free_inv _ _ _ _ 0%nat h (req_chain p df) Hv2 eq_refl) as (v3 & free3 & Hfr & Hv3).
  destruct (free_chain_rings _ _ _ Hfr) as (Hr3 & Ha3 & _). unfold rings in Hr3.
  injection Hr3 as E1 E2 E3 E4 E5 E6 E7. exists h, v2, v3, x'. split_and!; [done|done| |by rewrite Hx'].
  split; [by exists free3|subst v2; simpl in *; congruence| | |].
  - rewrite Hx'. destruct (Hlv (proj1 Hpend)) as (? & ? & ? & Hr'). split_and!; [done..|].
    rewrite Hr', E3, E4, E5. done.
  - rewrite Hx', Hsn, Hk, Ha3. simpl. rewrite Hav, Hseen. split; [done|]. by apply wrap_range.
  - rewrite E7, E1. simpl. split; [done|]. by apply wrap_range.
Qed.

(* ------------------------------------------------------------------ *)
(** ** Sectors *)

(** The state between two calls. *)
Record vio_inv (s : vio (X := X)) : Prop := {
  vv_queue : ∃ vq, queue (v_blk s) = Some vq ∧ ready vq (v_hw s);
  vv_points : points (v_blk s);
  vv_dma : dma_buf (v_blk s) ≠ 0 ∧ base_phys (v_blk s) + 4096 ≤ 2 ^ 64;
  vv_page : zlen (v_page s) = 4096;
}.

Definition vdisk (s : vio (X := X)) : list Z := vs_disk (vview (v_hw s)).

Lemma put_header_spec type_ sector page :
  is_uint 32 type_ → is_uint 64 sector → zlen page = 4096 →
  ∃ page', put_header type_ sector page = Done page' ∧ req_page type_ sector page'.
Proof.
  intros Ht Hs Hl. unfold put_header, put_le.
  do 3 (rewrite copy_into_Done by zlen_solve; cbn [mbind outcome_bind]).
  assert (zlen [255] = 1) as H1' by done.
  unfold DMA_STATUS. rewrite upd_Done by zlen_solve. eexists. split; [done|].
  rewrite zset_splice by zlen_solve. split_and!.
  - zlen_solve.
  - do 3 (rewrite zslice_zsplice_disjoint by zlen_solve). rewrite zslice_zsplice_same by zlen_solve. by apply from_le_to_le.
  - rewrite zslice_zsplice_disjoint, zslice_zsplice_same by zlen_solve. by apply from_le_to_le.
  - apply Hs.
Qed.

(** The end of both calls: the queue is idle again. *)
Lemma vio_next s vq page x :
  vio_inv s → ready vq x → zlen page = 4096 →
  vio_inv (mkVio (set_queue (Some vq) (dma_buf (v_blk s)) (v_blk s)) page x).
Proof. intros [_ Hp Hd _] Hr Hl. split; [by exists vq|done|done|done]. Qed.

Lemma base_phys_nonneg b : 0 ≤ base_phys b.
Proof. unfold base_phys. by apply wrap_range. Qed.

Lemma read_sector_spec s sector buf :
  vio_inv s → is_uint 64 sector → zlen buf = SECTOR →
  ∃ s', vio_inv s' ∧ vdisk s' = vdisk s ∧
    VirtioBlock_read_sector sector buf s =
      Done (if bool_decide (SECTOR * sector + SECTOR ≤ zlen (vdisk s))
            then (None, zslice (vdisk s) (SECTOR * sector) (SECTOR * sector + SECTOR), s')
            else (Some IoError, buf, s')).
Proof.
  intros Hs Hsec Hbuf. destruct (vv_queue _ Hs) as (vq & Hq & Hrd). destruct (vv_dma _ Hs) as [Hd0 Hd1].
  unfold VirtioBlock_read_sector. rewrite Hq, (proj2 (Z.eqb_neq _ _) Hd0).
  destruct (put_header_spec VIRTIO_BLK_T_IN sector (v_page s)) as (page & -> & Hpg); [done|done|apply Hs|].
  cbn [mbind outcome_bind]. pose proof (proj1 Hpg) as Hlen. unfold SECTOR, is_uint in *.
  set (data := if bool_decide (512 * sector + 512 ≤ zlen (vdisk s))
               then zslice (vdisk s) (512 * sector) (512 * sector + 512) else zslice page 16 528).
  set (status := if bool_decide (512 * sector + 512 ≤ zlen (vdisk s)) then 0 else 1).
  assert (zlen data = 512) as Hdl by (subst data; case_bool_decide; rewrite zlen_zslice; lia).
  destruct (transfer_spec vq page (v_blk s) (v_hw s) (base_phys (v_blk s)) VIRTIO_BLK_T_IN sector
    (vdisk s) data status VIRTQ_DESC_F_WRITE) as (h & vq' & vq'' & x' & -> & Hfree & Hrd' & Hdk);
    [done|apply Hs|apply base_phys_nonneg|done|done|done| |].
  { fold (vdisk s). unfold request, SECTOR. subst data status. simpl. by destruct (bool_decide _). }
  cbn [mbind outcome_bind]. assert (zlen (zset (zsplice page 16 data) 528 status) = 4096) as Hl' by zlen_solve.
  unfold DMA_STATUS, DMA_DATA. erewrite (proj2 (idx_Done _ _ _)) by (apply zget_zset_eq; zlen_solve). cbn [mbind outcome_bind].
  exists (mkVio (set_queue (Some vq'') (dma_buf (v_blk s)) (v_blk s)) (zset (zsplice page 16 data) 528 status) x').
  split; [by apply vio_next|]. split; [done|]. subst status. unfold VIRTIO_BLK_S_OK.
  case_bool_decide; cbn [Z.eqb negb]; [|by rewrite Hfree].
  rewrite slice_Done by zlen_solve. cbn [mbind outcome_bind].
  assert (zslice (zset (zsplice page 16 data) 528 0) 16 (16 + 512) = data) as ->.
  { assert (zlen [0] = 1) by done. rewrite zset_splice, zslice_zsplice_disjoint by zlen_solve.
    apply zslice_zsplice_same; zlen_solve. }
  rewrite copy_into_Done by lia. cbn [mbind outcome_bind]. rewrite Hfree. cbn [mbind outcome_bind unwrap].
  by rewrite zsplice_full by lia.
Qed.

Lemma write_sector_spec s sector buf :
  vio_inv s → is_uint 64 sector → zlen buf = SECTOR →
  ∃ s', vio_inv s' ∧
    if bool_decide (SECTOR * sector + SECTOR ≤ zlen (vdisk s))
    then VirtioBlock_write_sector sector buf s = Done (None, s') ∧ vdisk s' = zsplice (vdisk s) (SECTOR * sector) buf
    else VirtioBlock_write_sector sector buf s = Done (Some IoError, s') ∧ vdisk s' = vdisk s.
Proof.
  intros Hs Hsec Hbuf. destruct (vv_queue _ Hs) as (vq & Hq & Hrd). destruct (vv_dma _ Hs) as [Hd0 Hd1].
  unfold VirtioBlock_write_sector. rewrite Hq, (proj2 (Z.eqb_neq _ _) Hd0).
  destruct (put_header_spec VIRTIO_BLK_T_OUT sector (v_page s)) as (page & -> & Hpg); [done|done|apply Hs|].
  cbn [mbind outcome_bind]. destruct Hpg as (Hlen & Ht & Hse & H0s). unfold SECTOR, is_uint in *.
  rewrite slice_Done by lia. cbn [mbind outcome_bind]. rewrite <-Hbuf, zslice_full, Hbuf.
  rewrite copy_into_Done by (unfold DMA_DATA; lia). cbn [mbind outcome_bind].
  set (page1 := zsplice page DMA_DATA buf).
  assert (req_page VIRTIO_BLK_T_OUT sector page1 ∧ zslice page1 16 528 = buf) as [Hpg Hdata].
  { subst page1. unfold DMA_DATA. split; [split_and!|apply zslice_zsplice_same; lia].
    - rewrite zlen_zsplice; lia.
    - by rewrite zslice_zsplice_disjoint by lia.
    - by rewrite zslice_zsplice_disjoint by lia.
    - done. }
  set (ok := bool_decide (512 * sector + 512 ≤ zlen (vdisk s))).
  destruct (transfer_spec vq page1 (v_blk s) (v_hw s) (base_phys (v_blk s)) VIRTIO_BLK_T_OUT sector
    (if ok then zsplice (vdisk s) (512 * sector) buf else vdisk s) buf (if ok then 0 else 1) 0)
    as (h & vq' & vq'' & x' & -> & Hfree & Hrd' & Hdk); [done|apply Hs|apply base_phys_nonneg|done|done|done| |].
  { fold (vdisk s). unfold request, SECTOR. rewrite Hdata. simpl. fold ok. by destruct ok. }
  cbn [mbind outcome_bind]. pose proof (proj1 Hpg) as Hl1.
  assert (zlen (zset (zsplice page1 16 buf) 528 (if ok then 0 else 1)) = 4096) as Hl' by zlen_solve.
  unfold DMA_STATUS. erewrite (proj2 (idx_Done _ _ _)) by (apply zget_zset_eq; zlen_solve). cbn [mbind outcome_bind].
  rewrite Hfree. cbn [mbind outcome_bind unwrap].
  exists (mkVio (set_queue (Some vq'') (dma_buf (v_blk s)) (v_blk s)) (zset (zsplice page1 16 buf) 528 (if ok then 0 else 1)) x').
  split; [by apply vio_next|]. unfold vdisk at 1 3. by destruct ok.
Qed.
End requests.

(* ------------------------------------------------------------------ *)
(** ** Initialisation *)

Section init.
Context {X : Type} `{VirtioDisk X}.
Implicit Types (x : X) (vq : Virtqueue) (b : VirtioBlock).

Lemma cfg_write_spec f v x :
  is_uint (8 * cfg_width f) v → vview (cfg_write (vi_common info) f v x) = cfg_set info f v (vview x).
Proof. intros Hv. unfold cfg_write. rewrite cfg_address. by apply reg_set. Qed.

Lemma cfg_read_spec f v w x :
  vview x = v → cfg_get info f v = Some w →
  ∃ x', cfg_read (vi_common info) f x = (w, x') ∧ vview x' = v.
Proof.
  intros <- Hg. unfold cfg_read. rewrite cfg_address. by apply reg_get.
Qed.

(** The state after phase 1: ACKNOWLEDGE, DRIVER and FEATURES_OK. *)
Definition negotiated (disk : list Z) : vdev :=
  mkVdev 11 1 1 (vi_feat0 info, Z.land (vi_feat1 info) 1) 0 (0, 0, 0) false 0 false disk.

(** Step through register accesses, keeping the device's view explicit. *)
Ltac same_branches E :=
  repeat match type of E with context [if ?b then ?a else ?a] =>
    replace (if b then a else a) with a in E by (by destruct b) end.
Ltac lor_const :=
  repeat match goal with |- context [Z.lor ?a ?b] =>
    let c := eval vm_compute in (Z.lor a b) in change (Z.lor a b) with c end.
Ltac reg_step :=
  cbv zeta; lor_const; match goal with
  | Hv : vview ?x = ?v |- context [cfg_write (vi_common info) ?f ?w ?x] =>
      let E := fresh "Hv" in
      assert (vview (cfg_write (vi_common info) f w x) = cfg_set info f w v) as E
        by (rewrite <-Hv; apply cfg_write_spec; first [by apply wrap_range | unfold is_uint in *; simpl; lia]);
      cbn -[Z.land] in E; unfold reset, with_rings in E; cbn -[Z.land] in E; lor_const; same_branches E;
      generalize dependent (cfg_write (vi_common info) f w x); clear x Hv; let x' := fresh "x" in intros x' E
  | Hv : vview ?x = ?v |- context [cfg_read (vi_common info) ?f ?x] =>
      let x' := fresh "x" in let E := fresh "Hv" in
      let g := eval cbn -[Z.land] in (cfg_get info f v) in
      lazymatch g with Some ?w => destruct (cfg_read_spec f v w x Hv eq_refl) as (x' & -> & E) end;
      clear x Hv; cbv beta iota
  end.

(** Does the device take what it offered, of the second word VERSION_1 only? *)
Definition accepts : bool := vi_accepts info (vi_feat0 info) (Z.land (vi_feat1 info) 1).

Lemma negotiate_spec x :
  ∃ x', negotiate (vi_common info) x = (accepts, x') ∧
    (accepts = true → vview x' = negotiated (vs_disk (vview x))).
Proof.
  destruct info_ok as [_ _ _ _ [Hf0 Hf1] _]. unfold negotiate.
  destruct (vview x) as [st df gf ft qs [[rd ra] ru] en se ki dk] eqn:Hv.
  assert (is_uint 32 (Z.land (vi_feat1 info) 1)) as Hf1'.
  { change 1 with (Z.ones 1). rewrite Z.land_ones by lia. unfold is_uint in *. Z.to_euclidean_division_equations. lia. }
  unfold STATUS_ACKNOWLEDGE, STATUS_DRIVER, STATUS_FEATURES_OK.
  do 16 reg_step.
  fold accepts in *. eexists. destruct accepts; (split; [done|]); [by intros _|done].
Qed.

Lemma dma_page_spec hhdm fa f fs :
  falloc_ok fa → frames_left fa = f :: fs →
  ∃ fa', alloc_dma_page hhdm fa = Done (Some (hhdm ⊞ f), fa') ∧ falloc_ok fa' ∧ frames_left fa' = fs.
Proof.
  intros Hok Hl. destruct (allocate_frame_spec fa Hok) as (fa' & E & Hok' & Hl').
  unfold alloc_dma_page. rewrite E, Hl. exists fa'. by rewrite Hl', Hl.
Qed.

Lemma phys_of hhdm f : is_uint 64 f → (hhdm ⊞ f) ⊟ hhdm = f.
Proof.
  intros Hf. unfold wrap. rewrite Zminus_mod_idemp_l. replace (hhdm + f - hhdm) with f by lia. by apply Z.mod_small.
Qed.

Lemma allocate_ok qs hhdm fa f1 f2 f3 fs :
  falloc_ok fa → frames_left fa = f1 :: f2 :: f3 :: fs → is_uint 64 f1 → is_uint 64 f2 → is_uint 64 f3 →
  1 ≤ qs ≤ DESC_PER_PAGE →
  ∃ v fa', Virtqueue_allocate qs hhdm fa = Done (Some v, fa') ∧ falloc_ok fa' ∧ frames_left fa' = fs ∧
    (desc_phys v, avail_phys v, used_phys v) = (f1, f2, f3) ∧
    vq_avail_idx v = 0 ∧ vq_used_idx v = 0 ∧ last_used_idx v = 0.
Proof.
  intros Hok Hl H1' H2' H3' Hqs. unfold Virtqueue_allocate.
  destruct (dma_page_spec hhdm fa _ _ Hok Hl) as (fa1 & -> & Hok1 & Hl1). cbn [mbind outcome_bind].
  destruct (dma_page_spec hhdm fa1 _ _ Hok1 Hl1) as (fa2 & -> & Hok2 & Hl2). cbn [mbind outcome_bind].
  destruct (dma_page_spec hhdm fa2 _ _ Hok2 Hl2) as (fa3 & -> & Hok3 & Hl3). cbn [mbind outcome_bind].
  destruct (init_desc_spec qs (Z.to_nat qs) (zrep DESC_PER_PAGE (mkVirtqDesc 0 0 0 0)))
    as (desc & Hrun & _); [by rewrite zlen_zrep|lia|lia|].
  rewrite Z2Nat.id in Hrun by lia. unfold init_desc. rewrite Hrun. cbn [mbind outcome_bind].
  eexists _, fa3. split; [done|]. simpl. by rewrite !phys_of.
Qed.

Lemma set_lo_hi a : is_uint 64 a → set_hi (set_lo 0 (wrap 32 a)) (wrap 32 (a ≫ 32)) = a.
Proof.
  intros Ha. unfold set_hi, set_lo, wrap, is_uint in *. rewrite Z.shiftr_div_pow2 by lia.
  Z.to_euclidean_division_equations. lia.
Qed.

(** A queue larger than the page of its descriptors. *)
Lemma setup_overruns b fa x disk f1 f2 f3 fs :
  DESC_PER_PAGE < vi_qsize info → points b → vview x = negotiated disk → falloc_ok fa → frames_left fa = f1 :: f2 :: f3 :: fs →
  setup_queues b fa x = Panic.
Proof.
  intros Hq Hpt Hv Hok Hl. unfold setup_queues. rewrite (proj1 Hpt). unfold negotiated in Hv. unfold DESC_PER_PAGE in Hq.
  do 2 reg_step. destruct (Z.eqb_spec (vi_qsize info) 0); [lia|]. unfold Virtqueue_allocate.
  destruct (dma_page_spec (hhdm_offset b) fa _ _ Hok Hl) as (fa1 & -> & Hok1 & Hl1). cbn [mbind outcome_bind].
  destruct (dma_page_spec (hhdm_offset b) fa1 _ _ Hok1 Hl1) as (fa2 & -> & Hok2 & Hl2). cbn [mbind outcome_bind].
  destruct (dma_page_spec (hhdm_offset b) fa2 _ _ Hok2 Hl2) as (fa3 & -> & Hok3 & Hl3). cbn [mbind outcome_bind].
  by rewrite init_desc_overrun by (done || by rewrite zlen_zrep).
Qed.

Lemma setup_spec b fa x disk f1 f2 f3 f4 fs :
  vi_qsize info ≤ DESC_PER_PAGE →
  accepts = true → points b → vview x = negotiated disk → falloc_ok fa → frames_left fa = f1 :: f2 :: f3 :: f4 :: fs →
  Forall (λ f, 0 ≤ f ≤ 2 ^ 64 - 4096) [f1; f2; f3; f4] → hhdm_offset b ⊞ f4 ≠ 0 →
  ∃ b' fa' x', setup_queues b fa x = Done (true, b', zrep 4096 0, fa', x') ∧
    vio_inv (mkVio b' (zrep 4096 0) x') ∧ vs_disk (vview x') = disk ∧ falloc_ok fa' ∧ frames_left fa' = fs.
Proof.
  intros Hqm Hacc Hpt Hv Hok Hl Hf Hd. unfold setup_queues. rewrite (proj1 Hpt). unfold negotiated in Hv.
  repeat (apply Forall_cons in Hf as [? Hf]). pose proof (vo_qsize _ info_ok) as Hqs.
  do 2 reg_step. destruct (Z.eqb_spec (vi_qsize info) 0); [lia|].
  destruct (allocate_ok (vi_qsize info) (hhdm_offset b) fa f1 f2 f3 (f4 :: fs) Hok Hl) as (vq & fa1 & Ea & Hok1 & Hl1 & Hph & Ha & Hu & Hlu);
    [unfold is_uint; lia..|]. rewrite Ea. cbn [mbind outcome_bind].
  injection Hph as Hp1 Hp2 Hp3. unfold program_queue. rewrite Hp1, Hp2, Hp3.
  do 8 reg_step. rewrite !set_lo_hi in Hv by (unfold is_uint; lia). cbn [hhdm_offset set_queue queue dma_buf].
  destruct (dma_page_spec (hhdm_offset b) fa1 f4 fs Hok1 Hl1) as (fa2 & -> & Hok2 & Hl2). cbn [mbind outcome_bind].
  unfold STATUS_DRIVER_OK. do 2 reg_step. fold accepts in *. rewrite Hacc in *.
  destruct (allocate_inv _ _ _ _ _ (conj (Z.le_trans 1 3 _ ltac:(done) (proj1 Hqs)) Hqm) Ea) as [Hinv Hsz].
  eexists _, _, _. split; [done|]. split; [|split; [by rewrite Hv|done]]. split; simpl.
  - exists vq. split; [done|]. split; [by eexists|done| | |].
    + unfold live. rewrite Hv. simpl. by rewrite Hp1, Hp2, Hp3.
    + rewrite Hv, Ha. done.
    + by rewrite Hu, Hlu.
  - exact Hpt.
  - split; [done|]. unfold base_phys. simpl. rewrite phys_of by (unfold is_uint; lia). lia.
  - by rewrite zlen_zrep.
Qed.
End init.

(* ------------------------------------------------------------------ *)
(** ** Discovery *)

(** A capability that lies in the configuration space, aligned. *)
Definition cap_ok (p : Z) : Prop := 0 < p ∧ p + 20 ≤ 256 ∧ p `mod` 4 = 0.

(** What a VirtIO capability at [p] of a configuration space says, with device
    memory mapped at [hhdm]. *)
Definition cap_visit (hhdm : Z) (s : list Z) (c : found_caps) (p : Z) : found_caps :=
  match (if field 1 s (p + 4) <=? 5 then bar_of s (field 1 s (p + 4)) else None) with
  | None => c
  | Some bar =>
      let base := hhdm ⊞ (bar ⊞ field 4 s (p + 8)) in
      let ty := field 1 s (p + 3) in
      if ty =? 1 then mkFoundCaps (Some base) (fc_notify c) (fc_mult c) (fc_isr c) (fc_device c)
      else if ty =? 2 then mkFoundCaps (fc_common c) base (field 4 s (p + 16)) (fc_isr c) (fc_device c)
      else if ty =? 3 then mkFoundCaps (fc_common c) (fc_notify c) (fc_mult c) base (fc_device c)
      else if ty =? 4 then mkFoundCaps (fc_common c) (fc_notify c) (fc_mult c) (fc_isr c) base
      else c
  end.

(** The device memory the driver asks for at a capability, and at a list of them. *)
Definition cap_range (s : list Z) (p : Z) : list (Z * Z) :=
  match (if field 1 s (p + 4) <=? 5 then bar_of s (field 1 s (p + 4)) else None) with
  | None => []
  | Some bar => [(bar ⊞ field 4 s (p + 8), field 4 s (p + 12))]
  end.

Definition cap_ranges (s : list Z) (l : list Z) : list (Z * Z) := concat (cap_range s <$> l).

Section discovery.
Context {X M : Type} `{VirtioDisk X} (map_mmio : Z → Z → M → Z * M) (hhdm : Z).
(** The kernel maps device memory into its direct map. *)
Hypothesis map_mmio_direct : ∀ phys len m, (map_mmio phys len m).1 = hhdm ⊞ phys.
Implicit Types (x : X) (m : M) (dev : PciDevice).

(** Configuration space and device are as before. *)
Definition same x x' : Prop := space x' = space x ∧ vview x' = vview x.

Lemma same_trans x1 x2 x3 : same x1 x2 → same x2 x3 → same x1 x3.
Proof. unfold same. intros [??] [??]. split; congruence. Qed.

Lemma out_view v p w x : vview x = v → vview (port_outl p w x) = v.
Proof. intros <-. apply ports_alone. Qed.

Lemma in_view v p x : vview x = v → vview (port_inl p x).2 = v.
Proof. intros <-. by destruct (ports_alone p 0 x). Qed.

Lemma read_u8_same dev o x :
  pci_ok dev → 0 ≤ o < 256 → ∃ x', pci_read_u8 dev o x = (field 1 (cfg dev x) o, x') ∧ same x x'.
Proof.
  intros Hd Ho. destruct (pci_read_u8_spec dev o x Hd Ho) as (x' & E & Hs). exists x'. split; [done|split; [done|]].
  pose proof (pci_read_u8_closed _ (out_view (vview x)) (in_view (vview x)) dev o x eq_refl) as Hv. by rewrite E in Hv.
Qed.

Lemma read_u32_same dev o x :
  pci_ok dev → 0 ≤ o < 256 → o `mod` 4 = 0 →
  ∃ x', pci_read_u32 dev o x = (field 4 (cfg dev x) o, x') ∧ same x x'.
Proof.
  intros Hd Ho H4. destruct (pci_read_u32_spec dev o x Hd Ho H4) as (x' & E & Hs). exists x'. split; [done|split; [done|]].
  pose proof (pci_read_u32_closed _ (out_view (vview x)) (in_view (vview x)) dev o x eq_refl) as Hv. by rewrite E in Hv.
Qed.

Lemma get_bar_same dev i x :
  pci_ok dev → 0 ≤ i →
  ∃ x', get_bar dev i x = ((., 0) <$> (if i <=? 5 then bar_of (cfg dev x) i else None), x') ∧ same x x'.
Proof.
  intros Hd Hi. destruct (Z.leb_spec i 5).
  - destruct (get_bar_spec dev i x Hd ltac:(lia)) as (x' & E & Hs). exists x'. split; [done|split; [done|]].
    pose proof (get_bar_closed _ (out_view (vview x)) (in_view (vview x)) dev i x eq_refl) as Hv. by rewrite E in Hv.
  - exists x. unfold get_bar. destruct (Z.ltb_spec 5 i); [|lia]. done.
Qed.

Lemma same_cfg dev x x' : same x x' → cfg dev x' = cfg dev x.
Proof. intros [Hs _]. unfold cfg. by rewrite Hs. Qed.

(** What the callback does to the state it captures. *)
Definition map_all (ranges : list (Z * Z)) (m : M) : M := fold_left (λ m r, (map_mmio r.1 r.2 m).2) ranges m.

Lemma visit_cap_spec dev p c m x :
  pci_ok dev → cap_ok p →
  ∃ x', visit_cap map_mmio dev p c m x = (cap_visit hhdm (cfg dev x) c p, map_all (cap_range (cfg dev x) p) m, x') ∧ same x x'.
Proof.
  intros Hd (Hp & Hp' & H4). unfold visit_cap, cap_visit, cap_range. rewrite !wrap_small by (unfold is_uint; lia).
  destruct (read_u8_same dev (p + 3) x Hd ltac:(lia)) as (x1 & -> & S1).
  destruct (read_u8_same dev (p + 4) x1 Hd ltac:(lia)) as (x2 & -> & S2). rewrite (same_cfg dev _ _ S1).
  pose proof (same_trans _ _ _ S1 S2) as S12.
  destruct (read_u32_same dev (p + 8) x2 Hd ltac:(lia)) as (x3 & -> & S3); [Z.to_euclidean_division_equations; lia|].
  rewrite (same_cfg dev _ _ S12). pose proof (same_trans _ _ _ S12 S3) as S13.
  destruct (read_u32_same dev (p + 12) x3 Hd ltac:(lia)) as (x4 & -> & S4); [Z.to_euclidean_division_equations; lia|].
  rewrite (same_cfg dev _ _ S13). pose proof (same_trans _ _ _ S13 S4) as S14.
  destruct (get_bar_same dev (field 1 (cfg dev x) (p + 4)) x4 Hd) as (x5 & -> & S5).
  { apply (field_range 1 x dev); lia. }
  rewrite (same_cfg dev _ _ S14). pose proof (same_trans _ _ _ S14 S5) as S15.
  destruct (if field 1 (cfg dev x) (p + 4) <=? 5 then _ else None) as [bar|]; cbn [fmap option_fmap option_map]; [|by exists x5].
  cbn [map_all fold_left fst snd].
  pose proof (map_mmio_direct (bar ⊞ field 4 (cfg dev x) (p + 8)) (field 4 (cfg dev x) (p + 12)) m) as Hm.
  destruct (map_mmio _ _ m) as [base m']. simpl in Hm. subst base.
  unfold VIRTIO_PCI_CAP_COMMON_CFG, VIRTIO_PCI_CAP_NOTIFY_CFG, VIRTIO_PCI_CAP_ISR_CFG, VIRTIO_PCI_CAP_DEVICE_CFG.
  destruct (_ =? 1); [by exists x5|]. destruct (_ =? 2); [|repeat (destruct (_ =? _); [by exists x5|]); by exists x5].
  destruct (read_u32_same dev (p + 16) x5 Hd ltac:(lia)) as (x6 & -> & S6); [Z.to_euclidean_division_equations; lia|].
  rewrite (same_cfg dev _ _ S15). exists x6. split; [done|]. by eapply same_trans.
Qed.

(** The walk visits the entries of the list, in order. *)
Lemma walk_turns dev s n : ∀ p l c m x,
  pci_ok dev → cfg dev x = s → cap_list n s p = Some l → Forall cap_ok l →
  ∃ x', turns (S n) (walk_turn map_mmio dev) (if negb (p =? 0) then Some p else None, c, m, x) =
    Done (inr (foldl (cap_visit hhdm s) c l, map_all (cap_ranges s l) m, x')) ∧ same x x'.
Proof.
  induction n as [|n IH]; intros p l c m x Hd Hc Hl Hok; simpl cap_list in Hl;
    destruct (Z.eqb_spec p 0); simplify_eq/=; [by exists x..|].
  apply bind_Some in Hl as (rest & Hr & [= <-]). apply Forall_cons in Hok as [Hp Hok].
  destruct (visit_cap_spec dev p c m x Hd Hp) as (x1 & -> & S1). destruct Hp as (? & ? & _).
  rewrite wrap_small in * by (unfold is_uint; lia).
  destruct (read_u8_same dev (p + 1) x1 Hd ltac:(lia)) as (x2 & -> & S2). rewrite (same_cfg dev _ _ S1).
  pose proof (same_trans _ _ _ S1 S2) as S12.
  destruct (IH (field 1 (cfg dev x) (p + 1)) rest (cap_visit hhdm (cfg dev x) c p)
    (map_all (cap_range (cfg dev x) p) m) x2 Hd) as (x3 & E & S3);
    [by rewrite (same_cfg dev _ _ S12)|done|done|].
  exists x3. split; [|by eapply same_trans].
  unfold cap_ranges, map_all in *. cbn [fmap list_fmap concat]. rewrite fold_left_app. exact E.
Qed.

(** The bus describes the device: with bus mastering enabled the configuration
    space of [dev] is [s]; its capability list ends, and the VirtIO entries,
    from the first vendor entry [p] on, name the device's register blocks. *)
Record described (dev : PciDevice) (s : list Z) (l rest : list Z) (p : Z) x : Prop := {
  df_ok : pci_ok dev;
  df_id : vendor_id dev = 0x1AF4 ∧ 0x1040 ≤ device_id dev;
  df_space : ∀ y, space y = space x → cfg dev (enable_bus_master dev y) = s;
  df_caps : (Z.land (field 2 s 0x06) 0x10 =? 0) = false;
  df_list : cap_list 255 s (field 1 s REG_CAP_PTR) = Some l;
  df_first : first_cap s 0x09 l = Some p;
  df_rest : cap_list 255 s p = Some rest;
  df_aligned : Forall cap_ok rest;
  df_regs : foldl (cap_visit hhdm s) (mkFoundCaps None 0 0 0 0) rest =
    mkFoundCaps (Some (vi_common info)) (vi_notify info) (vi_mult info) (vi_isr info) (vi_devcfg info);
}.

Lemma init_spec dev s l rest p m x y :
  described dev s l rest p x → space y = space x →
  ∃ y', VirtioBlock_init map_mmio dev hhdm m y =
    Done (if accepts then Some (mkVirtioBlock (vi_common info) (vi_notify info) (vi_mult info) (vi_isr info)
                                  (vi_devcfg info) dev None hhdm 0)
          else None, map_all (cap_ranges s rest) m, y') ∧
    (accepts = true → vview y' = negotiated (vs_disk (vview y))).
Proof.
  intros [Hd [Hv Hi] Hsp Hc Hl Hf Hr Ha Hg] Hy. unfold VirtioBlock_init.
  rewrite Hv. cbn [Z.eqb Pos.eqb negb orb]. destruct (Z.ltb_spec (device_id dev) 0x1040); [lia|].
  pose proof (enable_bus_master_closed _ (out_view (vview y)) (in_view (vview y)) dev y eq_refl) as Hv0.
  specialize (Hsp y Hy). set (y0 := enable_bus_master dev y) in *.
  destruct (find_capability_spec dev 9 y0 l Hd) as (y1 & E1 & Hs1); [by rewrite Hsp|by rewrite Hsp|].
  pose proof (find_capability_closed _ (out_view (vview y)) (in_view (vview y)) dev 9 y0 _ _ Hv0 E1) as Hv1.
  rewrite E1, Hsp, Hf. cbn [mbind outcome_bind].
  assert (p ≠ 0) as Hp0.
  { clear -Hr Hg. intros ->. change (Some [] = Some rest) in Hr. injection Hr as <-. done. }
  destruct (walk_turns dev s 255 p rest (mkFoundCaps None 0 0 0 0) m y1 Hd) as (y2 & E2 & [_ Hv2]);
    [unfold cfg; by rewrite Hs1|done|done|].
  rewrite (proj2 (Z.eqb_neq p 0) Hp0) in E2. cbn [negb] in E2.
  rewrite (loop_end_turns _ _ _ _ _ E2) by done. rewrite Hg. cbn [mbind outcome_bind fc_common fc_notify fc_mult fc_isr fc_device].
  destruct (negotiate_spec y2) as (y3 & -> & Hn). rewrite Hv2, Hv1 in Hn. by exists y3.
Qed.

(** Other devices are left alone. *)
Lemma init_other dev m x :
  vendor_id dev ≠ 0x1AF4 ∨ device_id dev < 0x1040 → VirtioBlock_init map_mmio dev hhdm m x = Done (None, m, x).
Proof.
  intros Ho. unfold VirtioBlock_init. destruct (Z.eqb_spec (vendor_id dev) 0x1AF4), (Z.ltb_spec (device_id dev) 0x1040); done || lia.
Qed.

Lemma probe_others l g m x :
  Forall (λ d, vendor_id d ≠ 0x1AF4 ∨ device_id d < 0x1040) l →
  for_each l (probe_device map_mmio hhdm) (g, m, x) = Done (g, m, x).
Proof.
  induction 1 as [|d l Hd _ IH]; [done|]. cbn [for_each].
  assert (probe_device map_mmio hhdm d (g, m, x) = Done (g, m, x)) as -> by (unfold probe_device; by rewrite init_other).
  exact IH.
Qed.

(** No VirtIO device but [dev] is on the bus. *)
Definition alone dev x : Prop :=
  dev ∈ (enumerate_pci x).1 ∧ ∀ d, d ∈ (enumerate_pci x).1 → d ≠ dev → vendor_id d ≠ 0x1AF4 ∨ device_id d < 0x1040.

Lemma probe_finds_disk dev s l rest p m x :
  described dev s l rest p x → accepts = true → alone dev x →
  ∃ x', probe_devices map_mmio hhdm m x =
      Done (Some (mkVirtioBlock (vi_common info) (vi_notify info) (vi_mult info) (vi_isr info) (vi_devcfg info) dev None hhdm 0),
            map_all (cap_ranges s rest) m, x') ∧
    vview x' = negotiated (vs_disk (vview x)).
Proof.
  intros Hdev Hacc [Hin Hoth]. destruct (enumerate_pci_list x) as (x0 & Ee & Hs0).
  pose proof (enumerate_pci_closed _ (out_view (vview x)) (in_view (vview x)) x eq_refl) as Hv0.
  unfold probe_devices. pose proof (enumerate_nodup (space x)) as Hnd. rewrite Ee in *. cbn [fst snd] in *.
  remember (seqZ 0 256 ≫= λ b, seqZ 0 32 ≫= slot_functions (space x) b) as devices eqn:Ed. clear Ed Ee.
  apply list_elem_of_split in Hin as (pre & post & ->). apply NoDup_app in Hnd as (_ & Hpre & Hpost).
  apply NoDup_cons in Hpost as [Hpost _].
  rewrite for_each_app, probe_others; cycle 1.
  { apply Forall_forall. intros d Hd. apply Hoth; [set_solver|]. intros ->. apply (Hpre dev Hd). left. }
  cbn [mbind outcome_bind for_each].
  destruct (init_spec dev s l rest p m x x0 Hdev Hs0) as (x1 & Ei & Hv1). rewrite Hacc in *.
  assert (probe_device map_mmio hhdm dev (None, m, x0) = Done (Some (mkVirtioBlock (vi_common info) (vi_notify info)
    (vi_mult info) (vi_isr info) (vi_devcfg info) dev None hhdm 0), map_all (cap_ranges s rest) m, x1)) as ->
    by (unfold probe_device; by rewrite Ei).
  cbn [mbind outcome_bind]. rewrite probe_others; cycle 1.
  { apply Forall_forall. intros d Hd. apply Hoth; [set_solver|]. by intros ->. }
  exists x1. split; [done|]. rewrite Hv1 by done. by rewrite Hv0.
Qed.
End discovery.

(* ------------------------------------------------------------------ *)
(** ** The driver is a disk *)

(** Calls of the file systems, and what a flat array of bytes answers. *)
Inductive block_op :=
  | BRead (sector : Z) (buf : list Z)
  | BWrite (sector : Z) (data : list Z).

Definition block_op_ok (op : block_op) : Prop :=
  match op with BRead s d | BWrite s d => is_uint 64 s ∧ zlen d = SECTOR end.

(** Success, and the buffer of a read. *)
Definition disk_do (op : block_op) (d : list Z) : bool * list Z * list Z :=
  match op with
  | BRead s buf =>
      if bool_decide (SECTOR * s + SECTOR ≤ zlen d) then (true, zslice d (SECTOR * s) (SECTOR * s + SECTOR), d)
      else (false, buf, d)
  | BWrite s data =>
      if bool_decide (SECTOR * s + SECTOR ≤ zlen d) then (true, [], zsplice d (SECTOR * s) data) else (false, [], d)
  end.

Fixpoint disk_run (ops : list block_op) (d : list Z) : list (bool * list Z) :=
  match ops with
  | [] => []
  | op :: ops => let '(ok, buf, d) := disk_do op d in (ok, buf) :: disk_run ops d
  end.

Section run.
Context {X : Type} `{VirtioDisk X}.

Definition block_do (op : block_op) (g : option (vio (X := X))) : outcome (bool * list Z * option vio) :=
  match op with
  | BRead s buf => VirtioBlockDev_read_block s buf g
  | BWrite s data => '(ok, g) ← VirtioBlockDev_write_block s data g; Done (ok, [], g)
  end.

Fixpoint block_run (ops : list block_op) (g : option (vio (X := X))) : outcome (list (bool * list Z)) :=
  match ops with
  | [] => Done []
  | op :: ops => '(ok, buf, g) ← block_do op g; rest ← block_run ops g; Done ((ok, buf) :: rest)
  end.

Lemma block_do_spec op s :
  vio_inv s → block_op_ok op →
  ∃ s', block_do op (Some s) = Done ((disk_do op (vdisk s)).1, Some s') ∧ vio_inv s' ∧
    vdisk s' = (disk_do op (vdisk s)).2.
Proof.
  intros Hs Hop. destruct op as [sec buf|sec data]; destruct Hop as [H64 Hlen]; simpl.
  - destruct (read_sector_spec s sec buf Hs H64 Hlen) as (s' & Hs' & Hd & ->). exists s'.
    by case_bool_decide.
  - destruct (write_sector_spec s sec data Hs H64 Hlen) as (s' & Hs' & Hw). exists s'.
    case_bool_decide; destruct Hw as [-> Hd]; done.
Qed.

Lemma block_run_spec ops : ∀ s,
  vio_inv s → Forall block_op_ok ops → block_run ops (Some s) = Done (disk_run ops (vdisk s)).
Proof.
  induction ops as [|op ops IH]; intros s Hs Hops; [done|]. apply Forall_cons in Hops as [Hop Hops].
  cbn [block_run disk_run]. destruct (block_do_spec op s Hs Hop) as (s' & -> & Hs' & Hd').
  destruct (disk_do op (vdisk s)) as [[ok buf] d]. cbn [fst snd mbind outcome_bind] in *. subst d. by rewrite IH.
Qed.
End run.


(* ------------------------------------------------------------------ *)
(** ** The law of the file systems *)

(** A driver between two calls, as a block device.  A read leaves a driver with
    the same contents ([block_do_spec]), which is what the interface forgets.
    The guards are the types of the arguments. *)
Section law.
Context {X : Type} `{VirtioDisk X}.

Definition vready : Type := {s : vio (X := X) | vio_inv s}.

Definition write_ready (d : vready) (sector : Z) (data : list Z) (Hs : is_uint 64 sector) (Hd : zlen data = SECTOR)
    : {r : bool * vready | VirtioBlockDev_write_block sector data (Some (`d)) = Done (r.1, Some (`r.2))}.
Proof.
  destruct d as [s Hinv]. simpl.
  destruct (VirtioBlock_write_sector sector data s) as [[r s']|] eqn:E.
  - assert (vio_inv s') as Hs'.
    { destruct (write_sector_spec s sector data Hinv Hs Hd) as (s0 & H0' & Hw).
      case_bool_decide; destruct Hw as [Hw _]; congruence. }
    by exists (bool_decide (r = None), exist _ s' Hs').
  - exfalso. destruct (write_sector_spec s sector data Hinv Hs Hd) as (s0 & H0' & Hw).
    case_bool_decide; destruct Hw as [Hw _]; congruence.
Defined.

#[global] Instance virtio_BlockDev : BlockDev vready := {
  read_block sector buf d :=
    if decide (is_uint 64 sector ∧ zlen buf = SECTOR) then
      match VirtioBlockDev_read_block sector buf (Some (`d)) with Done (ok, buf, _) => (ok, buf) | Panic => (false, buf) end
    else (false, buf);
  write_block sector data d :=
    match decide (is_uint 64 sector), decide (zlen data = SECTOR) with
    | left Hs, left Hd => proj1_sig (write_ready d sector data Hs Hd)
    | _, _ => (false, d)
    end;
  sector_count d := VirtioBlockDev_sector_count (Some (`d));
}.

Lemma sector_count_spec (d : vready) :
  SECTOR * sector_count d = zlen (vdisk (`d)) ∧ 0 ≤ sector_count d < 2 ^ 54.
Proof.
  destruct d as [s Hs]. simpl. unfold VirtioBlock_capacity. destruct (vv_points _ Hs) as (_ & _ & _ & ->).
  pose proof (vo_devcfg _ info_ok). destruct (Z.eqb_spec (vi_devcfg info) 0) as [|_]; [lia|].
  pose proof (capacity_is (v_hw s)) as Hc. destruct (disk_fits (v_hw s)) as (n & Hn & Hl). unfold vdisk. rewrite Hl in *.
  unfold SECTOR in *. lia.
Qed.

Lemma write_ready_spec (d : vready) sector data :
  is_uint 64 sector → zlen data = SECTOR → ∃ d' : vready,
    write_block sector data d = (bool_decide (SECTOR * sector + SECTOR ≤ zlen (vdisk (`d))), d') ∧
    vdisk (`d') = (if bool_decide (SECTOR * sector + SECTOR ≤ zlen (vdisk (`d)))
                   then zsplice (vdisk (`d)) (SECTOR * sector) data else vdisk (`d)).
Proof.
  intros Hs Hd. cbn [write_block virtio_BlockDev].
  destruct (decide (is_uint 64 sector)) as [Hs'|]; [|done]. destruct (decide (zlen data = SECTOR)) as [Hd'|]; [|done].
  destruct (write_ready d sector data Hs' Hd') as [[ok d'] E]. cbn [proj1_sig fst snd] in *. exists d'.
  destruct d as [s Hinv]. cbn [proj1_sig] in *.
  destruct (write_sector_spec s sector data Hinv Hs Hd) as (s0 & H0' & Hw).
  unfold VirtioBlockDev_write_block in E. case_bool_decide; destruct Hw as [Hw Hv]; rewrite Hw in E;
    cbn [mbind outcome_bind] in E; injection E as <- <-; done.
Qed.

#[global, refine] Instance virtio_Disk : Disk vready := { disk d := vdisk (`d) }.
Proof.
  - intros d. symmetry. apply sector_count_spec.
  - intros d. apply sector_count_spec.
  - intros d s buf Hs Hb. destruct (sector_count_spec d) as [Hc Hn]. cbn [read_block virtio_BlockDev].
    rewrite decide_True by (split; [unfold is_uint; lia|done]). destruct d as [v Hv]. cbn [proj1_sig] in *.
    destruct (read_sector_spec v s buf Hv ltac:(unfold is_uint; lia) Hb) as (s' & _ & _ & E).
    unfold VirtioBlockDev_read_block. rewrite E, bool_decide_eq_true_2 by (unfold SECTOR in *; lia). done.
  - intros d s buf Hs. destruct (sector_count_spec d) as [Hc Hn]. cbn [read_block virtio_BlockDev].
    case_decide as Hok; [|done]. destruct Hok as [H64 Hb]. destruct d as [v Hv]. cbn [proj1_sig] in *.
    destruct (read_sector_spec v s buf Hv H64 Hb) as (s' & _ & _ & E).
    unfold VirtioBlockDev_read_block. rewrite E, bool_decide_eq_false_2 by (unfold SECTOR in *; lia). done.
  - intros d s data Hs Hd. destruct (sector_count_spec d) as [Hc Hn].
    destruct (write_ready_spec d s data) as (d' & E & Hv); [unfold is_uint; lia|done|].
    rewrite bool_decide_eq_true_2 in E, Hv by (unfold SECTOR in *; lia). exists d'. split_and!; [done|done|].
    destruct (sector_count_spec d') as [Hc' _]. rewrite Hv, zlen_zsplice in Hc'; unfold SECTOR in *; lia.
  - intros d s data Hs. destruct (sector_count_spec d) as [Hc Hn].
    destruct (decide (is_uint 64 s ∧ zlen data = SECTOR)) as [[H64 Hd]|Hno].
    + destruct (write_ready_spec d s data H64 Hd) as (d' & E & Hv).
      rewrite bool_decide_eq_false_2 in E, Hv by (unfold SECTOR in *; lia). exists d'. split_and!; [done|done|].
      destruct (sector_count_spec d') as [Hc' _]. rewrite Hv in Hc'. unfold SECTOR in *. lia.
    + exists d. split; [|done]. cbn [write_block virtio_BlockDev]. destruct (decide _); [|done]. by destruct (decide _); [naive_solver|].
Defined.
End law.
