(* ===== verification/VirtioSample.v ===== *)
(** * A machine with a VirtIO disk

    A concrete device that behaves as the specification says (it needs two
    polls for a request), on a PCI bus with a bridge beside it: the interfaces
    of Pci.v and Virtio.v can be satisfied, and the theorem about the driver is
    applied to it. *)

From S2P Require Import Prelude Memory Virtqueue BlockDev Pci Virtio VirtioDisk.

(** The bus, the device, and the polls until the next request is served. *)
Record vhw := mkVhw { h_pci : pci_model; h_dev : vdev; h_busy : nat }.

Definition HHDM : Z := 0xFFFF800000000000.

Definition vhw_info : vinfo :=
  mkVinfo (HHDM + 0xFE000000) (HHDM + 0xFE003000) 4 (HHDM + 0xFE001000) (HHDM + 0xFE002000) 0x224 1 8 0 (λ _ hi, hi =? 1).

(** A disk of two sectors. *)
Definition fit (d : list Z) : list Z := if bool_decide (zlen d = 1024) then d else zrep 1024 0.
#[global] Arguments fit : simpl never.

Definition with_disk (d : list Z) (v : vdev) : vdev :=
  mkVdev (vs_status v) (vs_dfsel v) (vs_gfsel v) (vs_feat v) (vs_qsel v) (vs_rings v) (vs_enable v) (vs_seen v) (vs_kicked v) d.

Definition hview (x : vhw) : vdev := with_disk (fit (vs_disk (h_dev x))) (h_dev x).

Definition all_fields : list VirtioCommonCfg :=
  [cfg_device_feature_select; cfg_device_feature; cfg_driver_feature_select; cfg_driver_feature; cfg_msix_config;
   cfg_num_queues; cfg_device_status; cfg_config_generation; cfg_queue_select; cfg_queue_size; cfg_queue_msix_vector;
   cfg_queue_enable; cfg_queue_notify_off; cfg_queue_desc_lo; cfg_queue_desc_hi; cfg_queue_avail_lo; cfg_queue_avail_hi;
   cfg_queue_used_lo; cfg_queue_used_hi].

Definition field_at (a : Z) : option VirtioCommonCfg :=
  head (filter (λ f, cfg_offset f = a - vi_common vhw_info) all_fields).

#[global] Instance pending_dec v vq : Decision (pending v vq).
Proof. unfold pending, live. apply _. Defined.

#[global] Instance vhw_Ports32 : Ports32 vhw := {
  port_inl p x := let '(v, q) := port_inl p (h_pci x) in (v, mkVhw q (h_dev x) (h_busy x));
  port_outl p v x := mkVhw (port_outl p v (h_pci x)) (h_dev x) (h_busy x);
}.

#[global] Instance vhw_VirtioHw : VirtioHw vhw := {
  mmio_read a n x :=
    (if a =? vi_devcfg vhw_info then 2
     else match field_at a with Some f => default 0 (cfg_get vhw_info f (hview x)) | None => 0 end, x);
  mmio_write a n w x :=
    if a =? vi_notify vhw_info then mkVhw (h_pci x) (kick (hview x)) 2
    else match field_at a with Some f => mkVhw (h_pci x) (cfg_set vhw_info f w (hview x)) (h_busy x) | None => x end;
  dev_run vq pa page x :=
    if decide (pending (hview x) vq) then
      match h_busy x with
      | S n => (vq, page, mkVhw (h_pci x) (h_dev x) n)
      | O =>
          match serve (vi_qsize vhw_info) pa vq page (hview x) with
          | Some (vq, page, v) => (vq, page, mkVhw (h_pci x) v 0)
          | None => (vq, page, x)
          end
      end
    else (vq, page, x);
}.

#[global, refine] Instance vhw_PciBus : PciBus vhw := {
  space x := space (h_pci x); latch x := latch (h_pci x);
}.
Proof.
  - intros x. apply space_len.
  - intros a x. apply (out_address (X := pci_model)).
  - intros x b d f r Hb Hd Hf Hr Hl. pose proof (in_data (X := pci_model) (h_pci x) b d f r Hb Hd Hf Hr Hl) as Hi.
    change (port_inl CONFIG_DATA x) with
      (let '(v, q) := port_inl CONFIG_DATA (h_pci x) in (v, mkVhw q (h_dev x) (h_busy x))).
    destruct (port_inl CONFIG_DATA (h_pci x)) as [v q]. exact Hi.
  - intros x b d f r v Hb Hd Hf Hr Hl. exact (out_data (X := pci_model) (h_pci x) b d f r v Hb Hd Hf Hr Hl).
Defined.

Lemma fit_len d : zlen (fit d) = 1024.
Proof. unfold fit. case_bool_decide; [done|by rewrite zlen_zrep]. Qed.

Lemma fit_id d : zlen d = 1024 → fit d = d.
Proof. intros Hd. unfold fit. by rewrite bool_decide_eq_true_2. Qed.

Lemma hview_id v p n : zlen (vs_disk v) = 1024 → hview (mkVhw p v n) = v.
Proof. intros Hl. unfold hview. simpl. rewrite fit_id by done. by destruct v. Qed.

Lemma field_at_common f : field_at (vi_common vhw_info + cfg_offset f) = Some f.
Proof.
  unfold field_at. replace (vi_common vhw_info + cfg_offset f - vi_common vhw_info) with (cfg_offset f) by lia.
  by destruct f.
Qed.

Lemma cfg_set_disk i f w v : vs_disk (cfg_set i f w v) = vs_disk v.
Proof. unfold cfg_set. destruct (vs_rings v) as [[d a] u]. destruct f; try done. by destruct (w =? 0). Qed.

Lemma serve_disk q pa vq page v vq' page' v' :
  serve q pa vq page v = Some (vq', page', v') → zlen (vs_disk v') = zlen (vs_disk v).
Proof.
  unfold serve. intros E. apply bind_Some in E as (h & _ & E). apply bind_Some in E as (bufs & _ & E).
  destruct bufs as [|[[h0 hl] hf] [|[[d dl] df] [|[[s sl] sf] [|]]]]; try done.
  case_bool_decide as Hc; [|done]. destruct Hc as (Hp & Hs & _ & _ & Hd & Hd' & _).
  apply bind_Some in E as ([[dk data] st] & Er & E). injection E as _ _ <-. simpl.
  unfold request, SECTOR in Er. destruct (_ =? VIRTIO_BLK_T_IN); [by case_bool_decide; simplify_eq|].
  destruct (_ =? VIRTIO_BLK_T_OUT); [|done]. case_bool_decide; simplify_eq; [|done].
  rewrite zlen_zsplice; rewrite ?zlen_zslice; lia.
Qed.

#[global, refine] Instance vhw_VirtioDisk : VirtioDisk vhw := {
  info := vhw_info; vview := hview; vbusy := h_busy;
}.
Proof.
  - split; vm_compute; intuition discriminate.
  - intros x. exists 2. split; [done|]. apply fit_len.
  - intros p v x. split; [done|]. simpl. by destruct (port_inl p (h_pci x)).
  - intros x f v Hg. exists x. split; [|done]. cbn [mmio_read vhw_VirtioHw].
    destruct (Z.eqb_spec (vi_common vhw_info + cfg_offset f) (vi_devcfg vhw_info)) as [E|_]; [by destruct f|].
    by rewrite field_at_common, Hg.
  - intros x f w _. cbn [mmio_write vhw_VirtioHw].
    destruct (Z.eqb_spec (vi_common vhw_info + cfg_offset f) (vi_notify vhw_info)) as [E|_]; [by destruct f|].
    rewrite field_at_common. apply hview_id. rewrite cfg_set_disk. apply fit_len.
  - intros x. cbn [mmio_write vhw_VirtioHw]. rewrite Z.add_0_r, Z.eqb_refl. split; [|done].
    apply hview_id. apply fit_len.
  - intros x. cbn [mmio_read vhw_VirtioHw]. rewrite Z.eqb_refl. symmetry. apply fit_len.
  - intros vq pa page x n Hp Hb. cbn [dev_run vhw_VirtioHw]. rewrite decide_True by done. rewrite Hb. by eexists.
  - intros vq pa page x vq' page' v' Hp Hb Hs. cbn [dev_run vhw_VirtioHw]. rewrite decide_True by done. rewrite Hb, Hs.
    eexists. split; [done|]. apply hview_id. rewrite (serve_disk _ _ _ _ _ _ _ _ Hs). apply fit_len.
Defined.

(* ------------------------------------------------------------------ *)
(** ** The machine *)

(** A vendor capability: its successor, type and region of BAR 4. *)
Definition vendor_cap (next ty off len : Z) : list Z := [9; next; 16; ty; 4; 0; 0; 0] ++ to_le 4 off ++ to_le 4 len.

(** The configuration space of the device, with its command register. *)
Definition disk_space (command : Z) : list Z :=
  to_le 4 0x10421AF4 ++ [command; 0; 0x10; 0] ++ zrep 24 0 ++ to_le 4 0xFE000000 ++ zrep 16 0 ++ [0x40] ++ zrep 11 0 ++
  vendor_cap 0x50 1 0 0x38 ++ vendor_cap 0x60 3 0x1000 4 ++ vendor_cap 0x70 4 0x2000 8 ++
  vendor_cap 0 2 0x3000 4 ++ to_le 4 4 ++ zrep 124 0.

Definition virtio_bus : gmap (Z * Z * Z) (list Z) :=
  {[ (0, 0, 0) := to_le 4 0x12378086 ++ zrep 252 0; (0, 4, 0) := disk_space 0 ]}.

Definition disk_dev : PciDevice := mkPciDevice 0 4 0 0x1AF4 0x1042.

Definition virtio_machine : vhw :=
  mkVhw (mkPciModel virtio_bus 0) (mkVdev 0 0 0 (0, 0) 0 (0, 0, 0) false 0 false (zrep 512 7 ++ zrep 512 9)) 0.

Lemma master_space (y : vhw) :
  space y = space virtio_machine → cfg disk_dev (enable_bus_master disk_dev y) = disk_space 6.
Proof.
  destruct y as [[m a] v n]. intros Hs. change (pm_space m = pm_space virtio_bus) in Hs.
  assert (pm_space m 0 4 0 = disk_space 0) as E by (rewrite Hs; vm_compute; reflexivity).
  change (cfg disk_dev (enable_bus_master disk_dev (mkVhw (mkPciModel m a) v n))) with
    (let l := zsplice (pm_space m 0 4 0) 4 (to_le 4
        (Z.lor (Z.land (field 4 (pm_space m 0 4 0) 4) 0xFFFF0000)
               (Z.lor (Z.land (field 4 (pm_space m 0 4 0) 4) 0xFFFF) 6))) in
     pm_space (<[(0, 4, 0) := l]> m) 0 4 0).
  rewrite E. cbv zeta. unfold pm_space. rewrite lookup_insert_eq. vm_compute. reflexivity.
Qed.

Lemma machine_described :
  described HHDM disk_dev (disk_space 6) [0x40; 0x50; 0x60; 0x70] [0x40; 0x50; 0x60; 0x70] 0x40 virtio_machine.
Proof.
  split; [done|done|exact master_space|vm_compute; reflexivity..| |vm_compute; reflexivity].
  apply (bool_decide_unpack _). vm_compute. reflexivity.
Qed.

Lemma machine_devices d :
  d ∈ (enumerate_pci virtio_machine).1 → d = disk_dev ∨ vendor_id d ≠ 0x1AF4.
Proof.
  destruct (enumerate_pci_list virtio_machine) as (x & -> & _). cbn [fst]. rewrite enumerated_in.
  destruct d as [b s f v i]. cbn [fst bus device function vendor_id device_id]. intros (_ & _ & _ & Hp & -> & ->).
  change (space virtio_machine) with (pm_space virtio_bus) in *. unfold pm_space, virtio_bus in *.
  destruct (decide ((b, s, f) = (0, 0, 0))) as [[= -> -> ->]|H0]; [right; vm_compute; discriminate|].
  destruct (decide ((b, s, f) = (0, 4, 0))) as [[= -> -> ->]|H4]; [left; vm_compute; reflexivity|].
  rewrite lookup_insert_ne, lookup_singleton_ne in Hp by done. by destruct Hp.
Qed.

Definition sample_frames : falloc := mkFalloc [Some 4096; Some 8192; Some 12288; Some 16384] 0 4.

