(* ===== verification/KShell.v ===== *)
(** * The kernel shell (kernel/src/kshell.rs)

    The line editor, the parser of redirections, the commands on the virtual
    file system, and the adapter that makes a node a block device.  Keys are
    bytes from the serial port or the keyboard; what the shell prints goes to
    the kernel terminal, whose driver panics on characters its font does not
    have.  Lines hold printable ASCII only, so white space in them is the
    space; [is_space] is the ASCII part of Rust's [char::is_whitespace].

    Shown here: the editor's buffer is the text typed, without what was erased;
    [echo text > /file] followed by [cat /file] prints the text, whatever the
    text and the rest of the file system; a second redirection to a name
    without a leading slash is refused although the file exists; a node on a
    disk, wrapped as a block device, is that disk. *)

From S2P Require Import Prelude Vfs RamFs BlockDev Console Serial Keyboard Memory Task.

Definition LINE_MAX : Z := 256.

(** String literals. *)
Definition lit (s : string) : str := (λ c, Z.of_N (Ascii.N_of_ascii c)) <$> String.list_ascii_of_string s.

Definition NL : Z := 10.

(* ------------------------------------------------------------------ *)
(** ** Strings *)

Definition is_space (b : Z) : bool := ((9 <=? b) && (b <=? 13)) || (b =? 32).

Fixpoint drop_spaces (p : str) : str :=
  match p with
  | c :: p' => if is_space c then drop_spaces p' else p
  | [] => []
  end.

(** [trim]. *)
Definition trim (p : str) : str := reverse (drop_spaces (reverse (drop_spaces p))).

(** [split_whitespace().next().unwrap_or("")]. *)
Definition first_word (p : str) : str := take_while (λ c, negb (is_space c)) (drop_spaces p).

(** The position of a byte, and of a byte twice. *)
Fixpoint find_byte (b : Z) (p : str) : option nat :=
  match p with
  | [] => None
  | c :: p => if c =? b then Some O else S <$> find_byte b p
  end.
Fixpoint find_twice (b : Z) (p : str) : option nat :=
  match p with
  | [] => None
  | c :: p => if (c =? b) && starts_with [b] p then Some O else S <$> find_twice b p
  end.

(** [splitn(2, ' ')]: the first piece, and the rest if there is a space. *)
Definition split_space (p : str) : str * option str :=
  match find_byte 32 p with
  | Some i => (take i p, Some (drop (S i) p))
  | None => (p, None)
  end.

(** [{:02x}]. *)
Definition hex_digit (d : Z) : Z := if d <? 10 then 48 + d else 87 + d.
Definition hex2 (b : Z) : str := [hex_digit (b `div` 16); hex_digit (b `mod` 16)].

Definition ends_with (b : Z) (p : str) : bool := match last p with Some c => c =? b | None => false end.

Inductive RedirMode := Overwrite | Append.

(** [">>"] before ['>']. *)
Definition parse_line (line : str) : str * option (RedirMode * str) :=
  match find_twice 62 line with
  | Some pos => (trim (take pos line), Some (Append, trim (drop (pos + 2) line)))
  | None =>
      match find_byte 62 line with
      | Some pos => (trim (take pos line), Some (Overwrite, trim (drop (pos + 1) line)))
      | None => (line, None)
      end
  end.

Definition abs_path (path : str) : str := if starts_with [SLASH] path then path else SLASH :: path.

Definition split_path (path : str) : str * str :=
  let trimmed := trim_end path in
  match rfind_slash trimmed with
  | None => ([SLASH], trimmed)
  | Some ([], name) => ([SLASH], name)
  | Some (pre, name) => (pre, name)
  end.

(* ------------------------------------------------------------------ *)
(** ** Commands *)

(** More turns than a file has bytes. *)
Definition CAT_TURNS : positive := SPIN_TURNS.

Section kshell.
Context {N S : Type} `{INode N S}.
(** The registered file-system drivers; probing a node only reads it. *)
Context (reg : list (FsDriver (N * S) N)).

(** What the commands act on. *)
Record ksh := mkKsh {
  k_store : S;
  k_mounts : list (MountEntry N);
  k_tty : option Tty;
}.
Implicit Types k : ksh.

Definition put_store (s : S) k : ksh := mkKsh s (k_mounts k) (k_tty k).
#[local] Arguments put_store _ _ /.

(** [kprint!] and [kprintln!]. *)
Definition kprint (text : str) k : outcome ksh :=
  tty ← console_print text (k_tty k); Done (mkKsh (k_store k) (k_mounts k) tty).
Definition kprintln (text : str) k : outcome ksh := kprint (text ++ [NL]) k.

Definition create_file_at (path : str) k : outcome (option N * ksh) :=
  let '(parent_path, name) := split_path path in
  '(parent, s) ← lookup_path (k_mounts k) parent_path (k_store k);
  match parent with
  | None => Done (None, put_store s k)
  | Some parent =>
      '(r, s) ← inode_create_file parent name s;
      Done (match r with Ok n => Some n | Err _ => None end, put_store s k)
  end.

(** Look a path up or create it. *)
Definition lookup_or_create (path : str) k : outcome (option N * ksh) :=
  '(node, s) ← lookup_path (k_mounts k) path (k_store k);
  match node with
  | Some n => Done (Some n, put_store s k)
  | None => create_file_at path (put_store s k)
  end.

Definition write_to_file (path data : str) (mode : RedirMode) k : outcome ksh :=
  '(node, k) ← lookup_or_create path k;
  match node with
  | None => kprintln (lit "redirect: " ++ path ++ lit ": cannot create") k
  | Some n =>
      offset ← match mode with Overwrite => Done 0 | Append => inode_size n (k_store k) end;
      '(_, s) ← inode_write n offset data (k_store k);
      Done (put_store s k)
  end.

Definition help_text : str :=
  lit "Available commands:" ++ [NL] ++
  lit "  help                 - show this message" ++ [NL] ++
  lit "  echo <text>          - print text" ++ [NL] ++
  lit "  ls [path]            - list directory" ++ [NL] ++
  lit "  cat <file>           - print file contents" ++ [NL] ++
  lit "  write <file> <data>  - write data to file" ++ [NL] ++
  lit "  mkdir <path>         - create directory" ++ [NL] ++
  lit "  rm <path>            - remove file" ++ [NL] ++
  lit "  mount <dev> <path>   - mount filesystem" ++ [NL] ++
  lit "  umount <path>        - unmount filesystem" ++ [NL] ++
  lit "  halt                 - stop the CPU" ++ [NL] ++
  lit "  reboot               - triple-fault reboot" ++ [NL].

Definition type_tag (ft : FileType) : str :=
  match ft with Directory => lit "[DIR] " | Device => lit "[DEV] " | File => lit "[FILE]" end.

Definition cmd_ls (args : str) k : outcome (str * ksh) :=
  let p := if bool_decide (args = []) then [SLASH] else abs_path args in
  '(node, s) ← lookup_path (k_mounts k) p (k_store k);
  match node with
  | None => Done (lit "ls: " ++ p ++ lit ": not found" ++ [NL], put_store s k)
  | Some node =>
      '(entries, s) ← inode_readdir node s;
      Done (match entries with
            | Some [] => lit "(empty)" ++ [NL]
            | Some es => concat ((λ e : str * FileType, lit "  " ++ type_tag e.2 ++ lit " " ++ e.1 ++ [NL]) <$> es)
            | None => lit "ls: " ++ p ++ lit ": not a directory" ++ [NL]
            end, put_store s k)
  end.

(** A turn of [cat]: text, or hexadecimal pairs. *)
Definition cat_turn (node : N) (st : Z * str * str * S) : outcome (sum (Z * str * str * S) (str * S)) :=
  let '(offset, chunk, out, s) := st in
  '(n, chunk, s) ← inode_read node offset chunk s;
  if n =? 0 then Done (inr (out, s))
  else
    part ← slice chunk 0 n;
    let text := if utf8_valid part then part else concat ((λ b, hex2 b ++ [32]) <$> part) in
    Done (inl (offset ⊞ n, chunk, out ++ text, s)).

Definition cmd_cat (args : str) k : outcome (str * ksh) :=
  if bool_decide (args = []) then Done (lit "usage: cat <file>" ++ [NL], k)
  else
    let p := abs_path args in
    '(node, s) ← lookup_path (k_mounts k) p (k_store k);
    match node with
    | None => Done (lit "cat: " ++ p ++ lit ": not found" ++ [NL], put_store s k)
    | Some node =>
        '(out, s) ← loop_end CAT_TURNS (cat_turn node) (0, zrep 512 0, [], s);
        Done (if negb (ends_with NL out) then out ++ [NL] else out, put_store s k)
    end.

(** The commands whose output can be redirected. *)
Definition run_output_command (line : str) k : outcome (str * ksh) :=
  let '(cmd, rest) := split_space line in
  let args := trim (default [] rest) in
  if bool_decide (cmd = lit "help") then Done (help_text, k)
  else if bool_decide (cmd = lit "echo") then Done (args ++ [NL], k)
  else if bool_decide (cmd = lit "ls") then cmd_ls args k
  else if bool_decide (cmd = lit "cat") then cmd_cat args k
  else Done (lit "ksh: " ++ cmd ++ lit ": command not found" ++ [NL], k).

(** [halt] and [reboot] do not return. *)
Inductive ksh_end := Halted | Rebooted.

Definition cmd_write (arg1 arg2 : str) k : outcome ksh :=
  if bool_decide (arg1 = []) then kprintln (lit "usage: write <file> <data>") k
  else
    let p := abs_path arg1 in
    '(node, k) ← lookup_or_create p k;
    match node with
    | Some n => '(_, s) ← inode_write n 0 arg2 (k_store k); Done (put_store s k)
    | None => kprintln (lit "write: " ++ p ++ lit ": cannot create") k
    end.

(** [mkdir] and [rm]: an operation on the parent. *)
Definition on_parent (name : str) (op : N → str → S → outcome (result unit * S)) (arg1 : str) k : outcome ksh :=
  if bool_decide (arg1 = []) then kprintln (lit "usage: " ++ name ++ lit " <path>") k
  else
    let '(parent_path, base) := split_path (abs_path arg1) in
    '(parent, s) ← lookup_path (k_mounts k) parent_path (k_store k);
    let k := put_store s k in
    match parent with
    | Some parent =>
        '(r, s) ← op parent base s;
        let k := put_store s k in
        match r with Ok _ => Done k | Err e => kprintln (name ++ lit ": " ++ lit e) k end
    | None => kprintln (name ++ lit ": " ++ parent_path ++ lit ": parent not found") k
    end.

Definition cmd_mount (arg1 arg2 : str) k : outcome ksh :=
  if bool_decide (arg1 = []) || bool_decide (arg2 = []) then kprintln (lit "usage: mount <dev> <path>") k
  else
    '(dev_node, s) ← lookup_path (k_mounts k) arg1 (k_store k);
    let k := put_store s k in
    match dev_node with
    | None => kprintln (lit "mount: " ++ arg1 ++ lit ": not found") k
    | Some dev =>
        root ← probe_and_mount reg (dev, k_store k);
        match root with
        | Some root =>
            kprintln (lit "mount: " ++ arg1 ++ lit " mounted at " ++ arg2)
              (mkKsh (k_store k) (mount arg2 root (k_mounts k)) (k_tty k))
        | None => kprintln (lit "mount: " ++ arg1 ++ lit ": no filesystem recognised") k
        end
    end.

Definition cmd_umount (arg1 : str) k : outcome ksh :=
  if bool_decide (arg1 = []) then kprintln (lit "usage: umount <path>") k
  else
    let '(r, mounts) := umount arg1 (k_mounts k) in
    let k := mkKsh (k_store k) mounts (k_tty k) in
    match r with
    | Ok _ => kprintln (lit "umount: " ++ arg1 ++ lit " unmounted") k
    | Err e => kprintln (lit "umount: " ++ lit e) k
    end.

(** [splitn(3, ' ')] and the commands. *)
Definition run_side_effect_command (line : str) k : outcome (sum ksh ksh_end) :=
  let '(cmd, rest) := split_space line in
  let '(a1, rest) := split_space (default [] rest) in
  let arg1 := trim a1 in
  let arg2 := trim (default [] rest) in
  if bool_decide (cmd = lit "write") then inl <$> cmd_write arg1 arg2 k
  else if bool_decide (cmd = lit "mkdir") then inl <$> on_parent (lit "mkdir") inode_mkdir arg1 k
  else if bool_decide (cmd = lit "rm") then inl <$> on_parent (lit "rm") inode_unlink arg1 k
  else if bool_decide (cmd = lit "mount") then inl <$> cmd_mount arg1 arg2 k
  else if bool_decide (cmd = lit "umount") then inl <$> cmd_umount arg1 k
  else if bool_decide (cmd = lit "halt") then _ ← kprintln (lit "Halting system.") k; Done (inr Halted)
  else if bool_decide (cmd = lit "reboot") then _ ← kprintln (lit "Rebooting...") k; Done (inr Rebooted)
  else inl <$> kprintln (lit "ksh: " ++ cmd ++ lit ": command not found") k.

Definition dispatch (line : str) k : outcome (sum ksh ksh_end) :=
  let '(cmd_line, redir) := parse_line line in
  if bool_decide (cmd_line = []) then Done (inl k)
  else
    let first := first_word cmd_line in
    if bool_decide (first = lit "ls") || bool_decide (first = lit "cat") ||
       bool_decide (first = lit "echo") || bool_decide (first = lit "help") then
      '(out, k) ← run_output_command cmd_line k;
      match redir with
      | None => inl <$> kprint out k
      | Some (mode, path) => inl <$> write_to_file path out mode k
      end
    else run_side_effect_command cmd_line k.

(* ------------------------------------------------------------------ *)
(** ** The line editor *)

(** The buffer, how much of it is the line, and the rest of the state. *)
Record editor := mkEditor { ed_buf : list Z; ed_len : Z; ed_ksh : ksh }.

Definition prompt k : outcome ksh := kprint (lit "ksh> ") k.

(** Up to the loop. *)
Definition kshell_start k : outcome editor :=
  k ← kprintln [] k;
  k ← kprintln (lit "=== Serix kshell ===") k;
  k ← kprintln (lit "Type 'help' for commands.") k;
  k ← kprintln [] k;
  k ← prompt k;
  Done (mkEditor (zrep LINE_MAX 0) 0 k).

(** The body of the loop, on the byte read. *)
Definition kshell_key (byte : Z) (e : editor) : outcome (sum editor ksh_end) :=
  if (byte =? 13) || (byte =? 10) then
    k ← kprintln [] (ed_ksh e);
    text ← slice (ed_buf e) 0 (ed_len e);
    let line := trim (if utf8_valid text then text else []) in
    r ← (if bool_decide (line = []) then Done (inl k) else dispatch line k);
    match r with
    | inr fin => Done (inr fin)
    | inl k => k ← prompt k; Done (inl (mkEditor (ed_buf e) 0 k))
    end
  else if (byte =? 8) || (byte =? 127) then
    if 0 <? ed_len e then
      k ← kprint [8; 32; 8] (ed_ksh e);
      Done (inl (mkEditor (ed_buf e) (ed_len e - 1) k))
    else Done (inl e)
  else if (32 <=? byte) && (byte <? 127) then
    if ed_len e <? LINE_MAX - 1 then
      buf ← upd (ed_buf e) (ed_len e) byte;
      k ← kprint (if utf8_valid [byte] then [byte] else [63]) (ed_ksh e);
      Done (inl (mkEditor buf (ed_len e + 1) k))
    else Done (inl e)
  else Done (inl e).

(** The loop, over the bytes it reads; it ends with [halt] and [reboot] only. *)
Fixpoint kshell_keys (bytes : list Z) (e : editor) : outcome (sum editor ksh_end) :=
  match bytes with
  | [] => Done (inl e)
  | b :: bytes =>
      r ← kshell_key b e;
      match r with inl e => kshell_keys bytes e | inr fin => Done (inr fin) end
  end.

Definition kshell_task (bytes : list Z) k : outcome (sum editor ksh_end) :=
  e ← kshell_start k; kshell_keys bytes e.

(* ------------------------------------------------------------------ *)
(** ** The block-device adapter *)

Definition VfsBlockDevAdapter_read_block (node : N) (sector : Z) (buf : list Z) (s : S)
    : outcome (bool * list Z * S) :=
  '(n, buf, s) ← inode_read node (sector ⊠ 512) buf s; Done (n =? 512, buf, s).

Definition VfsBlockDevAdapter_write_block (node : N) (sector : Z) (buf : list Z) (s : S)
    : outcome (bool * S) :=
  '(n, s) ← inode_write node (sector ⊠ 512) buf s; Done (n =? 512, s).

Definition VfsBlockDevAdapter_sector_count (node : N) (s : S) : outcome Z :=
  size ← inode_size node s; Done (size `div` 512).
End kshell.
Arguments ksh N S : clear implicits.
Arguments editor N S : clear implicits.

(* ------------------------------------------------------------------ *)
(** ** Input *)

(** A turn of [read_byte]: the serial port, then the keyboard. *)
Definition kshell_turn {U} `{Ports U} (st : serial U * RingBuffer)
    : outcome ((serial U * RingBuffer) + (Z * serial U * RingBuffer)) :=
  let '(b, ser) := serial_read_byte st.1 in
  match b with
  | Some b => Done (inr (b, ser, st.2))
  | None =>
      '(ring, key) ← pop_key st.2;
      match key with
      | Some b => Done (inr (b, ser, ring))
      | None => Done (inl (ser, ring))
      end
  end.

(** [read_byte]: it polls until a byte arrives. *)
Definition kshell_read_byte {U} `{Ports U} (st : serial U * RingBuffer) : outcome (Z * serial U * RingBuffer) :=
  loop_end SPIN_TURNS kshell_turn st.

(* ------------------------------------------------------------------ *)
(** ** The task *)

Definition kshell_context (kstack kshell_task : Z) : CPUContext :=
  mkCPUContext kstack 0 0 0 0 0 0 kshell_task 0x202 0x08 0x10 0 0 0 0 0 0 0.

Definition spawn_kshell {PT} `{Mapper PT} (kshell_task : Z) (next : Z) (pa : option (PageAllocator PT)) (sc : sched)
    : outcome (result Z * Z * option (PageAllocator PT) * sched) :=
  '(ks, next, pa) ← alloc_kernel_stack (64 * 1024) next pa;
  match ks with
  | None => Done (Err "kshell: OOM allocating stack", next, pa, sc)
  | Some kstack =>
      let '(id, sc) := TaskId_new sc in
      let tcb := mkTaskCB id Ready (Fair 120) (kshell_context kstack kshell_task) kstack None
                   "kshell" 0 None None [] false in
      let l := fresh (dom (s_heap sc)) in
      sc ← enqueue_task l (set_heap (<[l := tcb]> (s_heap sc)) sc);
      Done (Ok id, next, pa, sc)
  end.

(* ------------------------------------------------------------------ *)
(** ** Strings: lemmas *)

(** The two halves of [trim]. *)
Definition trim_right (p : str) : str := reverse (drop_spaces (reverse p)).

Lemma drop_spaces_app a b :
  drop_spaces (a ++ b) = if bool_decide (drop_spaces a = []) then drop_spaces b else drop_spaces a ++ b.
Proof. induction a as [|c a IH]; simpl; [done|]. by destruct (is_space c). Qed.

Lemma trim_right_app a b :
  trim_right (a ++ b) = if bool_decide (trim_right b = []) then trim_right a else a ++ trim_right b.
Proof.
  unfold trim_right. rewrite reverse_app, drop_spaces_app.
  destruct (drop_spaces (reverse b)) as [|c l]; [done|].
  rewrite bool_decide_eq_false_2 by done. rewrite bool_decide_eq_false_2; [by rewrite reverse_app, reverse_involutive|].
  rewrite reverse_cons. by destruct (reverse l).
Qed.

Lemma trim_right_cons c p :
  trim_right (c :: p) =
  if bool_decide (trim_right p = []) then if is_space c then [] else [c] else c :: trim_right p.
Proof.
  change (c :: p) with ([c] ++ p). rewrite trim_right_app. case_bool_decide; [|done].
  unfold trim_right. simpl. by destruct (is_space c).
Qed.

Lemma trim_right_idem p : trim_right (trim_right p) = trim_right p.
Proof.
  induction p as [|c p IH]; [done|]. rewrite trim_right_cons. case_bool_decide as E.
  - destruct (is_space c) eqn:Ec; [done|]. rewrite trim_right_cons, Ec. done.
  - by rewrite trim_right_cons, IH, bool_decide_eq_false_2.
Qed.

Lemma trim_commute p : drop_spaces (trim_right p) = trim_right (drop_spaces p).
Proof.
  induction p as [|c p IH]; [done|]. rewrite trim_right_cons. simpl. destruct (is_space c) eqn:Ec.
  - case_bool_decide as E; simpl; [|by rewrite Ec]. rewrite <-IH, E. done.
  - rewrite trim_right_cons, Ec. by case_bool_decide; simpl; rewrite Ec.
Qed.

Lemma trim_trim_right p : trim (trim_right p) = trim p.
Proof. unfold trim. fold (trim_right (drop_spaces (trim_right p))). by rewrite trim_commute, trim_right_idem. Qed.

Lemma trim_right_nil p : trim_right p = [] → trim p = [].
Proof. intros E. rewrite <-trim_trim_right, E. done. Qed.

(* ------------------------------------------------------------------ *)
(** ** The line editor: lemmas *)

Definition tty_ok (tty : option Tty) : Prop :=
  match tty with Some t => ∃ g, shows t g | None => True end.

(** The specification: printable bytes are added while there is room, erasing
    takes the last one away, other keys do nothing. *)
Definition edit_key (line : str) (b : Z) : str :=
  if (b =? 8) || (b =? 127) then ztake (zlen line - 1) line
  else if (32 <=? b) && (b <? 127) && (zlen line <? LINE_MAX - 1) then line ++ [b]
  else line.

Definition is_enter (b : Z) : bool := (b =? 13) || (b =? 10).

Lemma printable_ascii s : Forall printable s → ascii s.
Proof. intros Hp. eapply Forall_impl; [exact Hp|]. intros c [[? ?]|[->| ->]]; lia. Qed.

Section editor.
Context {N S : Type} `{INode N S} (reg : list (FsDriver (N * S) N)).
Implicit Types (k : ksh N S) (e : editor N S).

Lemma kprint_ok text k :
  tty_ok (k_tty k) → Forall printable text →
  ∃ tty, kprint text k = Done (mkKsh (k_store k) (k_mounts k) tty) ∧ tty_ok tty.
Proof.
  intros Ht Hp. unfold kprint, console_print. destruct (k_tty k) as [t|]; [|by exists None].
  destruct Ht as [g Hg]. unfold Tty_write_str. rewrite chars_ascii by (by apply printable_ascii).
  destruct (Tty_write_chars_shows text t g Hg Hp) as (t' & -> & Hs & _). exists (Some t'). split; [done|]. by eexists.
Qed.

Definition ed_line e : str := ztake (ed_len e) (ed_buf e).

Record ed_ok e : Prop := {
  eo_buf : zlen (ed_buf e) = LINE_MAX;
  eo_len : 0 ≤ ed_len e < LINE_MAX;
  eo_ascii : ascii (ed_line e);
  eo_tty : tty_ok (k_tty (ed_ksh e));
}.

Lemma ed_line_len e : ed_ok e → zlen (ed_line e) = ed_len e.
Proof. intros [? ? _ _]. unfold ed_line. rewrite zlen_ztake; lia. Qed.

Lemma kshell_key_edits b e :
  ed_ok e → is_enter b = false →
  ∃ e', kshell_key reg b e = Done (inl e') ∧ ed_ok e' ∧ ed_line e' = edit_key (ed_line e) b ∧
    k_store (ed_ksh e') = k_store (ed_ksh e) ∧ k_mounts (ed_ksh e') = k_mounts (ed_ksh e).
Proof.
  intros Hok Hb. pose proof (ed_line_len e Hok) as Hl. destruct Hok as [Hbuf Hlen Hasc Htty].
  unfold kshell_key, edit_key. fold (is_enter b). rewrite Hb, Hl. unfold LINE_MAX in *.
  destruct ((b =? 8) || (b =? 127)) eqn:Hbs; [|destruct ((32 <=? b) && (b <? 127)) eqn:Hpr].
  - destruct (Z.ltb_spec 0 (ed_len e)).
    2: { exists e. split_and!; try done. assert (ed_len e = 0) as E by lia. unfold ed_line. by rewrite E. }
    destruct (kprint_ok [8; 32; 8] (ed_ksh e) Htty) as (tty & -> & Ht).
    { repeat constructor; unfold printable, showable; lia. }
    assert (ztake (ed_len e - 1) (ed_buf e) = ztake (ed_len e - 1) (ed_line e)) as E.
    { unfold ed_line, ztake. rewrite take_take. f_equal. lia. }
    eexists. split; [done|]. split_and!; [|done..].
    split; simpl; [done|unfold LINE_MAX; lia| |done]. unfold ed_line at 1. simpl. rewrite E. by apply Forall_take.
  - destruct (Z.ltb_spec (ed_len e) (256 - 1)); [|by exists e].
    rewrite upd_Done by lia. cbn [mbind outcome_bind].
    rewrite utf8_ascii by (constructor; [lia|constructor]).
    destruct (kprint_ok [b] (ed_ksh e) Htty) as (tty & -> & Ht).
    { constructor; [unfold printable, showable; lia|constructor]. }
    assert (ztake (ed_len e + 1) (zset (ed_buf e) (ed_len e) b) = ed_line e ++ [b]) as E.
    { rewrite ztake_zset_snoc by lia. done. }
    eexists. split; [done|]. split_and!; [|exact E|done..].
    split; simpl; [by rewrite zlen_zset|unfold LINE_MAX; lia| |done]. unfold ed_line at 1. simpl. rewrite E.
    apply Forall_app. split; [done|]. constructor; [lia|constructor].
  - by exists e.
Qed.

Lemma kshell_keys_app bs bs' e :
  kshell_keys reg (bs ++ bs') e =
  (r ← kshell_keys reg bs e; match r with inl e => kshell_keys reg bs' e | inr fin => Done (inr fin) end).
Proof.
  revert e. induction bs as [|b bs IH]; intros e; simpl; [done|].
  destruct (kshell_key reg b e) as [[e'|fin]|]; simpl; [apply IH|done..].
Qed.

Lemma kshell_keys_edit bs e :
  ed_ok e → Forall (λ b, is_enter b = false) bs →
  ∃ e', kshell_keys reg bs e = Done (inl e') ∧ ed_ok e' ∧ ed_line e' = fold_left edit_key bs (ed_line e) ∧
    k_store (ed_ksh e') = k_store (ed_ksh e) ∧ k_mounts (ed_ksh e') = k_mounts (ed_ksh e).
Proof.
  intros Hok Hbs. revert e Hok. induction Hbs as [|b bs Hb _ IH]; intros e Hok; simpl; [by exists e|].
  destruct (kshell_key_edits b e Hok Hb) as (e1 & -> & Hok1 & El & Es & Em). cbn [mbind outcome_bind].
  destruct (IH e1 Hok1) as (e2 & -> & Hok2 & El2 & Es2 & Em2). exists e2. by rewrite El2, El, Es2, Es, Em2, Em.
Qed.

(** Printing either panics or leaves a terminal. *)
Lemma kprint_tty text k k' : kprint text k = Done k' → tty_ok (k_tty k) → tty_ok (k_tty k').
Proof.
  unfold kprint, console_print. destruct (k_tty k) as [t|]; [|by intros [= <-]].
  intros Hk [g Hg]. unfold Tty_write_str in Hk.
  assert (Decision (Forall printable (chars text))) as [Hp|Hp].
  { apply Forall_dec. intros c. unfold printable, showable. apply _. }
  - destruct (Tty_write_chars_shows (chars text) t g Hg Hp) as (t' & Et & Hs & _).
    rewrite Et in Hk. injection Hk as <-. by eexists.
  - by rewrite (Tty_write_chars_panic t g _ Hg Hp) in Hk.
Qed.

Lemma lookup_or_create_tty path k r : lookup_or_create path k = Done r → k_tty r.2 = k_tty k.
Proof.
  unfold lookup_or_create, create_file_at. intros Hd. run_in Hd. destruct r0 as [[n|] s]; [by simplify_eq|].
  destruct (split_path path). simpl in Hd. run_in Hd. destruct r0 as [[p|] s']; [|by simplify_eq].
  run_in Hd. destruct r0. by simplify_eq.
Qed.

(** Commands change the terminal by printing only. *)
Ltac tty_kept Hd :=
  repeat first
    [ progress simplify_eq/=
    | match type of Hd with
      | kprintln _ _ = Done _ => by eapply kprint_tty in Hd
      | kprint _ _ = Done _ => by eapply kprint_tty in Hd
      | lookup_or_create _ _ = Done _ => apply lookup_or_create_tty in Hd
      | context [let '(_, _) := ?p in _] => destruct p
      | (match ?r with Ok _ => _ | Err _ => _ end) = Done _ => destruct r
      end
    | progress run_in Hd ]; try done; try congruence.

Lemma write_to_file_tty path data mode k k' :
  write_to_file path data mode k = Done k' → tty_ok (k_tty k) → tty_ok (k_tty k').
Proof.
  unfold write_to_file. intros Hd Ht. destruct (lookup_or_create path k) as [[o k1]|] eqn:E; [|done].
  apply lookup_or_create_tty in E. simpl in E, Hd. rewrite <-E in Ht. tty_kept Hd.
Qed.

Lemma cmd_write_tty a1 a2 k k' : cmd_write a1 a2 k = Done k' → tty_ok (k_tty k) → tty_ok (k_tty k').
Proof.
  unfold cmd_write. intros Hd Ht. case_bool_decide; [tty_kept Hd|].
  destruct (lookup_or_create (abs_path a1) k) as [[o k1]|] eqn:E; [|done].
  apply lookup_or_create_tty in E. simpl in E, Hd. rewrite <-E in Ht. tty_kept Hd.
Qed.

Lemma on_parent_tty name op a1 k k' : on_parent name op a1 k = Done k' → tty_ok (k_tty k) → tty_ok (k_tty k').
Proof. unfold on_parent. intros Hd Ht. tty_kept Hd. Qed.

Lemma cmd_mount_tty a1 a2 k k' : cmd_mount reg a1 a2 k = Done k' → tty_ok (k_tty k) → tty_ok (k_tty k').
Proof. unfold cmd_mount. intros Hd Ht. tty_kept Hd. Qed.

Lemma cmd_umount_tty a1 k k' : cmd_umount a1 k = Done k' → tty_ok (k_tty k) → tty_ok (k_tty k').
Proof. unfold cmd_umount. intros Hd Ht. tty_kept Hd. Qed.

Lemma cmd_ls_tty args k r : cmd_ls args k = Done r → k_tty r.2 = k_tty k.
Proof.
  unfold cmd_ls. generalize (if bool_decide (args = []) then [SLASH] else abs_path args) as p.
  intros p Hd. destruct (lookup_path _ _ _) as [[[n|] s]|]; cbn [mbind outcome_bind] in Hd; [| |done].
  - destruct (inode_readdir n s) as [[es s']|]; [|done]. by injection Hd as <-.
  - by injection Hd as <-.
Qed.

Lemma cmd_cat_tty args k r : cmd_cat args k = Done r → k_tty r.2 = k_tty k.
Proof.
  unfold cmd_cat. generalize CAT_TURNS as n. intros n Hd. case_bool_decide; [by injection Hd as <-|].
  destruct (lookup_path _ _ _) as [[[nd|] s]|]; cbn [mbind outcome_bind] in Hd; [| |done].
  - destruct (loop_end _ _ _) as [[out s']|]; [|done]. by injection Hd as <-.
  - by injection Hd as <-.
Qed.

Lemma run_output_tty line k r : run_output_command line k = Done r → k_tty r.2 = k_tty k.
Proof.
  unfold run_output_command. destruct (split_space line) as [cmd rest]. intros Hd.
  repeat match type of Hd with (if ?b then _ else _) = _ => destruct b end;
    [| |by eapply cmd_ls_tty|by eapply cmd_cat_tty|]; by injection Hd as <-.
Qed.

Lemma fmap_inl {A B} (m : outcome A) (a : A) : (inl <$> m : outcome (A + B)) = Done (inl a) → m = Done a.
Proof. destruct m; simpl; [|done]. by intros [= ->]. Qed.

Lemma dispatch_tty line k k' : dispatch reg line k = Done (inl k') → tty_ok (k_tty k) → tty_ok (k_tty k').
Proof.
  unfold dispatch, run_side_effect_command. intros Hd Ht. destruct (parse_line line) as [cmd redir].
  case_bool_decide; [by simplify_eq|]. destruct (_ || _).
  - destruct (run_output_command cmd k) as [[out k1]|] eqn:E; [|done].
    apply run_output_tty in E. simpl in E, Hd. rewrite <-E in Ht.
    destruct redir as [[mode path]|]; apply fmap_inl in Hd; [by eapply write_to_file_tty|by eapply kprint_tty].
  - destruct (split_space cmd) as [c rest], (split_space (default [] rest)) as [a1 rest'].
    repeat match type of Hd with (if ?b then _ else _) = _ => destruct b end.
    6, 7: by destruct (kprintln _ k).
    all: apply fmap_inl in Hd.
    + by eapply cmd_write_tty.
    + by eapply on_parent_tty.
    + by eapply on_parent_tty.
    + by eapply cmd_mount_tty.
    + by eapply cmd_umount_tty.
    + by eapply kprint_tty.
Qed.

Lemma kshell_enter b e :
  ed_ok e → is_enter b = true →
  ∃ k1, kshell_key reg b e =
    (r ← (if bool_decide (trim (ed_line e) = []) then Done (inl k1) else dispatch reg (trim (ed_line e)) k1);
     match r with
     | inl k2 => k3 ← prompt k2; Done (inl (mkEditor (ed_buf e) 0 k3))
     | inr fin => Done (inr fin)
     end) ∧
    k_store k1 = k_store (ed_ksh e) ∧ k_mounts k1 = k_mounts (ed_ksh e) ∧ tty_ok (k_tty k1).
Proof.
  intros [Hbuf Hlen Hasc Htty] Hb. unfold kshell_key. fold (is_enter b). rewrite Hb.
  destruct (kprint_ok [NL] (ed_ksh e) Htty) as (tty & E & Ht).
  { constructor; [|constructor]. right. by left. }
  unfold kprintln. simpl. rewrite E. cbn [mbind outcome_bind].
  rewrite slice_Done by (unfold LINE_MAX in *; lia). cbn [mbind outcome_bind].
  unfold zslice. change (zdrop 0 (ed_buf e)) with (ed_buf e). rewrite Z.sub_0_r. fold (ed_line e).
  rewrite utf8_ascii by done. exists (mkKsh (k_store (ed_ksh e)) (k_mounts (ed_ksh e)) tty). split; [|done].
  by destruct (if bool_decide _ then _ else _) as [[]|].
Qed.
End editor.

(** C33: the shell runs the line that was typed.  After any keys at the prompt,
    ended by Enter, what is dispatched is the text they type, erased characters
    gone, cut at 255 bytes and trimmed (nothing, if that is empty), in the file
    system as it was; no key panics.  When the command returns, the shell is at
    an empty prompt again, so this holds of every further line. *)
Theorem shell_runs_typed_line {N S} `{INode N S} reg (typed : list Z) (enter : Z) (e : editor N S) :
  ed_ok e → ed_len e = 0 → is_enter enter = true → Forall (λ b, is_enter b = false) typed →
  let line := trim (fold_left edit_key typed []) in
  (∃ k1 buf, kshell_keys reg (typed ++ [enter]) e =
    (r ← (if bool_decide (line = []) then Done (inl k1) else dispatch reg line k1);
     match r with
     | inl k2 => k3 ← prompt k2; Done (inl (mkEditor buf 0 k3))
     | inr fin => Done (inr fin)
     end) ∧
    k_store k1 = k_store (ed_ksh e) ∧ k_mounts k1 = k_mounts (ed_ksh e) ∧ tty_ok (k_tty k1)) ∧
  ∀ e', kshell_keys reg (typed ++ [enter]) e = Done (inl e') → ed_ok e' ∧ ed_len e' = 0.
Proof.
  intros Hok Hlen Hen Hty line. destruct (kshell_keys_edit reg typed e Hok Hty) as (e1 & E1 & Hok1 & Hl & Hs & Hm).
  assert (ed_line e = []) as Hnil by (unfold ed_line; by rewrite Hlen). rewrite Hnil in Hl.
  destruct (kshell_enter reg enter e1 Hok1 Hen) as (k1 & Ek & Hs1 & Hm1 & Ht1). rewrite Hl in Ek. fold line in Ek.
  rewrite kshell_keys_app, E1. cbn [mbind outcome_bind kshell_keys]. rewrite Ek. split.
  - exists k1, (ed_buf e1). rewrite Hs1, Hm1, Hs, Hm. split; [|done].
    destruct (if bool_decide _ then _ else _) as [[k2|]|]; cbn [mbind outcome_bind]; [|done..].
    by destruct (prompt k2).
  - intros e' Hd. destruct (if bool_decide _ then _ else _) as [[k2|]|] eqn:Er; [|done..].
    cbn [mbind outcome_bind] in Hd. destruct (prompt k2) as [k3|] eqn:Ep; [|done]. injection Hd as <-.
    assert (tty_ok (k_tty k2)) as Ht2.
    { case_bool_decide; [by simplify_eq|]. by eapply dispatch_tty. }
    split; [|done]. split; simpl; [apply Hok1|done|apply Forall_nil_2|by eapply kprint_tty].
Qed.

(* ------------------------------------------------------------------ *)
(** ** Redirection: parsing *)

Lemma find_byte_app b p q : b ∉ p → find_byte b (p ++ b :: q) = Some (length p).
Proof.
  induction p as [|c p IH]; intros Hn; simpl; [by rewrite Z.eqb_refl|].
  apply not_elem_of_cons in Hn as [Hc Hn]. rewrite (proj2 (Z.eqb_neq c b)) by done. by rewrite IH.
Qed.
Lemma find_byte_None b p : b ∉ p → find_byte b p = None.
Proof.
  induction p as [|c p IH]; intros Hn; simpl; [done|].
  apply not_elem_of_cons in Hn as [Hc Hn]. rewrite (proj2 (Z.eqb_neq c b)) by done. by rewrite IH.
Qed.

Lemma find_twice_skip b p q : b ∉ p → find_twice b (p ++ q) = Nat.add (length p) <$> find_twice b q.
Proof.
  induction p as [|c p IH]; intros Hn; simpl; [by destruct (find_twice b q)|].
  apply not_elem_of_cons in Hn as [Hc Hn]. rewrite (proj2 (Z.eqb_neq c b)) by done. simpl.
  rewrite IH by done. by destruct (find_twice b q).
Qed.
Lemma find_twice_None b p : b ∉ p → find_twice b p = None.
Proof. intros Hn. rewrite <-(app_nil_r p), find_twice_skip by done. done. Qed.

Definition redir_sign (mode : RedirMode) : str := match mode with Overwrite => [62] | Append => [62; 62] end.

Lemma parse_redirect p mode q :
  62 ∉ p → 62 ∉ q → parse_line (p ++ redir_sign mode ++ q) = (trim p, Some (mode, trim q)).
Proof.
  intros Hp Hq. unfold parse_line. rewrite find_twice_skip by done. destruct mode; cbn [redir_sign app find_twice];
    rewrite Z.eqb_refl; cbn [andb].
  - assert (starts_with [62] q = false) as Hs.
    { destruct q as [|c q]; [done|]. apply not_elem_of_cons in Hq as [Hc _]. cbn [starts_with].
      by rewrite (proj2 (Z.eqb_neq 62 c)). }
    rewrite Hs, (find_twice_None 62 q Hq), (find_byte_app 62 p q Hp), take_app_length.
    cbn [fmap option_fmap option_map].
    change (p ++ 62 :: q) with (p ++ [62] ++ q).
    by rewrite (assoc_L (++) p [62] q), drop_app_length' by (rewrite length_app; simpl; lia).
  - cbn [starts_with]. rewrite Z.eqb_refl. cbn [andb fmap option_fmap option_map].
    rewrite Nat.add_0_r, take_app_length.
    change (p ++ 62 :: 62 :: q) with (p ++ [62; 62] ++ q).
    by rewrite (assoc_L (++) p [62; 62] q), drop_app_length' by (rewrite length_app; simpl; lia).
Qed.

Lemma trim_graph s : Forall (λ c, is_space c = false) s → drop_spaces s = s ∧ trim_right s = s ∧ trim s = s.
Proof.
  intros Hs.
  assert (∀ s, Forall (λ c, is_space c = false) s → drop_spaces s = s) as Hd.
  { intros s' Hs'. destruct Hs' as [|c s' Hc]; simpl; [done|]. by rewrite Hc. }
  assert (∀ s, Forall (λ c, is_space c = false) s → trim_right s = s) as Hr.
  { intros s' Hs'. unfold trim_right. rewrite Hd by (by apply Forall_reverse). apply reverse_involutive. }
  split_and!; [by apply Hd|by apply Hr|]. unfold trim. rewrite (Hd s Hs). by apply Hr.
Qed.

(** What [echo] is left with after the sign has been cut off. *)
Lemma echo_command text :
  let cmd := trim (lit "echo " ++ text ++ [32]) in
  cmd ≠ [] ∧ first_word cmd = lit "echo" ∧
  ∀ {N S} `{INode N S} (k : ksh N S), run_output_command cmd k = Done (trim text ++ [NL], k).
Proof.
  intros cmd. assert (trim_right (text ++ [32]) = trim_right text) as Hr by (by rewrite trim_right_app).
  assert (cmd = if bool_decide (trim_right text = []) then lit "echo" else lit "echo " ++ trim_right text) as ->.
  { subst cmd. change (trim (lit "echo " ++ text ++ [32])) with (trim_right (lit "echo " ++ (text ++ [32]))).
    by rewrite trim_right_app, Hr. }
  case_bool_decide as E.
  - rewrite (trim_right_nil text E). split_and!; [done|done|]. intros. reflexivity.
  - split_and!; [done|done|]. intros N S HI k. rewrite <-(trim_trim_right text). reflexivity.
Qed.

(** What [echo] can redirect as it is: the line is cut at a '>'. *)
Definition plain_text (s : str) : Prop := Forall (λ c, 32 ≤ c < 127 ∧ c ≠ 62) s.

(** [echo text > /name] and [echo text >> /name]. *)
Definition redirect_line (name : str) (cmd : RedirMode * str) : str :=
  (lit "echo " ++ cmd.2 ++ [32]) ++ redir_sign cmd.1 ++ lit " /" ++ name.

Lemma plain_no_sign s : plain_text s → 62 ∉ s.
Proof. intros Hs Hin. by apply (proj1 (Forall_forall _ _) Hs) in Hin as [_ ?]. Qed.

Definition plain_name (name : str) : Prop := plain_text name ∧ 32 ∉ name ∧ no_slash name ∧ name ≠ [].

Lemma plain_name_graph name : plain_name name → Forall (λ c, is_space c = false) (SLASH :: name).
Proof.
  intros (Hp & Hsp & _ & _). constructor; [done|]. apply Forall_forall. intros c Hc.
  pose proof (proj1 (Forall_forall _ _) Hp c Hc) as [? _]. assert (c ≠ 32) by congruence.
  unfold is_space. lia.
Qed.

Lemma dispatch_redirect {N S} `{INode N S} reg name mode text (k : ksh N S) :
  plain_name name → plain_text text →
  dispatch reg (redirect_line name (mode, text)) k =
  inl <$> write_to_file (SLASH :: name) (trim text ++ [NL]) mode k.
Proof.
  intros Hn Ht. unfold dispatch, redirect_line. rewrite parse_redirect.
  2: { intros [Hin|[Hin|Hin]%elem_of_app]%elem_of_app; [|by apply plain_no_sign in Hin|].
       all: refine (bool_decide_eq_false_1 _ _ Hin); reflexivity. }
  2: { intros [Hin|Hin]%elem_of_app; [|by apply plain_no_sign in Hin; [|apply Hn]].
       refine (bool_decide_eq_false_1 _ _ Hin); reflexivity. }
  destruct (echo_command text) as (Hne & Hfw & Hrun).
  change (trim (lit " /" ++ name)) with (trim (SLASH :: name)).
  rewrite (proj2 (proj2 (trim_graph _ (plain_name_graph name Hn)))). simpl fst. simpl snd.
  rewrite bool_decide_eq_false_2, Hfw, Hrun by done. reflexivity.
Qed.

(* ------------------------------------------------------------------ *)
(** ** Redirection: the file *)

(** A write that does not start past the end. *)
Lemma RamFile_write_inside data off buf :
  0 ≤ off ≤ zlen data → off + zlen buf < 2 ^ 64 →
  RamFile_write data off buf = Done (zlen buf, ztake off data ++ buf ++ zdrop (off + zlen buf) data).
Proof.
  intros Ho Hlt. pose proof (zlen_nonneg buf). unfold RamFile_write. rewrite wrap_small by (split; lia).
  destruct (Z.ltb_spec (zlen data) (off + zlen buf)).
  - rewrite copy_into_Done by (rewrite ?zlen_resize0; lia). cbn [mbind outcome_bind]. do 3 f_equal.
    unfold zsplice, resize0, ztake, zdrop, zlen in *. rewrite take_app_le by lia. do 2 f_equal.
    rewrite !drop_ge; [done|lia|]. unfold zrep. rewrite length_app, length_replicate. lia.
  - rewrite copy_into_Done by lia. done.
Qed.

(** What a redirection leaves in a file; overwriting does not truncate. *)
Definition redirected (data : str) (cmd : RedirMode * str) : str :=
  let out := trim cmd.2 ++ [NL] in
  match cmd.1 with Append => data ++ out | Overwrite => out ++ zdrop (zlen out) data end.

Section redirect.
Context {D SD : Type} `{INode D SD} (reg : list (FsDriver (node D * store D SD) (node D))).
Context (l : loc) (name : str).
Implicit Types (k : ksh (node D) (store D SD)) (s : store D SD).

(** The root directory is the RAM directory at [l], and serves the file's path. *)
Definition served (mounts : list (MountEntry (node D))) : Prop :=
  ∃ e, find_mount [SLASH] mounts = Some e ∧ find_mount (SLASH :: name) mounts = Some e ∧
    me_path e = [SLASH] ∧ me_root e = Ram l.

(** The file, if it exists. *)
Definition file_is (data : option str) s : Prop :=
  ∃ dn cs, st_heap s !! l = Some (RamDir dn cs) ∧
    match data with
    | None => find_child name cs = None
    | Some d => ∃ f fn, find_child name cs = Some (Ram f) ∧ st_heap s !! f = Some (RamFile fn d)
    end.

Lemma lookup_root mounts s : served mounts → lookup_path mounts [SLASH] s = Done (Some (Ram l), s).
Proof.
  intros (e & He & _ & Hp & Hr). rewrite (lookup_path_walk _ _ e) by done.
  unfold mount_remainder. rewrite bool_decide_eq_true_2 by done. by rewrite Hr.
Qed.

Lemma lookup_file mounts s dn cs :
  plain_name name → served mounts → st_heap s !! l = Some (RamDir dn cs) →
  lookup_path mounts (SLASH :: name) s = Done (find_child name cs, s).
Proof.
  intros (_ & _ & Hns & Hne) (e & _ & He & Hp & Hr) Hl. rewrite (lookup_path_walk _ _ e) by done.
  unfold mount_remainder. rewrite bool_decide_eq_true_2 by done.
  rewrite components_trim. change (SLASH :: name) with ([] ++ SLASH :: name).
  rewrite components_app, (components_word name), Hr by done.
  change (components [] ++ [name]) with [name]. cbn [walk].
  change (inode_lookup (Ram l) name s) with (ram_lookup (Ram l) name s). unfold ram_lookup, ram_at. rewrite Hl.
  simpl. by destruct (find_child name cs).
Qed.

Lemma find_child_None (cs : list (str * node D)) : find_child name cs = None → has_child name cs = false.
Proof. induction cs as [|[n x] cs IH]; simpl; [done|]. case_bool_decide; [done|]. apply IH. Qed.

Lemma find_child_snoc (cs : list (str * node D)) x : find_child name cs = None → find_child name (cs ++ [(name, x)]) = Some x.
Proof.
  induction cs as [|[n y] cs IH]; simpl; [by rewrite bool_decide_eq_true_2|].
  case_bool_decide; [done|]. apply IH.
Qed.

Lemma split_path_root : plain_name name → split_path (SLASH :: name) = ([SLASH], name).
Proof.
  intros (_ & _ & Hns & Hne). unfold split_path.
  assert (trim_end (SLASH :: name) = SLASH :: name) as ->.
  { destruct (exists_last Hne) as (w & c & ->). unfold trim_end. rewrite app_comm_cons, reverse_snoc.
    cbn [trim_start]. rewrite (proj2 (Z.eqb_neq c SLASH)) by (intros ->; apply Hns; set_solver).
    by rewrite <-reverse_snoc, reverse_involutive. }
  assert (∀ w, no_slash w → rfind_slash w = None) as Hw.
  { induction w as [|c w IH]; intros Hn; simpl; [done|]. apply not_elem_of_cons in Hn as [? Hn].
    rewrite IH, (proj2 (Z.eqb_neq c SLASH)) by done. done. }
  simpl. by rewrite Hw.
Qed.

(** Looked up or created, the file is there with what it held. *)
Lemma lookup_or_create_file k data :
  plain_name name → served (k_mounts k) → file_is data (k_store k) →
  ∃ f fn s, lookup_or_create (SLASH :: name) k = Done (Some (Ram f), mkKsh s (k_mounts k) (k_tty k)) ∧
    st_heap s !! f = Some (RamFile fn (default [] data)) ∧
    ∃ dn cs, st_heap s !! l = Some (RamDir dn cs) ∧ find_child name cs = Some (Ram f).
Proof.
  intros Hn Hs (dn & cs & Hl & Hd). unfold lookup_or_create.
  rewrite (lookup_file _ _ dn cs) by done. cbn [mbind outcome_bind]. destruct data as [d|].
  { destruct Hd as (f & fn & Hf & Hh). rewrite Hf. exists f, fn, (k_store k). by eauto 10. }
  rewrite Hd. unfold create_file_at. rewrite split_path_root by done. simpl.
  rewrite lookup_root by done. simpl. unfold ram_at. rewrite Hl. simpl.
  unfold RamDir_create_file, alloc. simpl. unfold RamDir_insert. rewrite find_child_None by done. simpl.
  set (f := fresh (dom (st_heap (k_store k)))).
  assert (f ≠ l) by (intros E; pose proof (is_fresh (dom (st_heap (k_store k)))) as Hfr; apply Hfr;
    fold f; rewrite E; by eapply elem_of_dom_2).
  eexists f, name, _. split; [done|]. simpl. rewrite lookup_insert_ne, lookup_insert_eq by done. split; [done|].
  eexists _, _. rewrite lookup_insert_eq. split; [done|]. by apply find_child_snoc.
Qed.

Lemma write_to_file_redirected k data mode text :
  plain_name name → served (k_mounts k) → file_is data (k_store k) →
  zlen (default [] data) + zlen (trim text) < 2 ^ 63 →
  ∃ s, write_to_file (SLASH :: name) (trim text ++ [NL]) mode k = Done (mkKsh s (k_mounts k) (k_tty k)) ∧
    file_is (Some (redirected (default [] data) (mode, text))) s.
Proof.
  intros Hn Hs Hf Hb. set (d := default [] data) in *. set (out := trim text ++ [NL]).
  destruct (lookup_or_create_file k data Hn Hs Hf) as (f & fn & s & E & Hh & dn & cs & Hl & Hc).
  unfold write_to_file. rewrite E. cbn [mbind outcome_bind k_store].
  assert (zlen out = zlen (trim text) + 1) as Ho by (unfold out; by rewrite zlen_app).
  pose proof (zlen_nonneg d). pose proof (zlen_nonneg (trim text)).
  set (off := match mode with Overwrite => 0 | Append => zlen d end).
  assert (match mode with Overwrite => Done 0 | Append => inode_size (Ram f) s end = Done off) as ->.
  { subst off. destruct mode; [done|]. simpl. by rewrite Hh. }
  cbn [mbind outcome_bind]. simpl inode_write. unfold ram_write, ram_at. rewrite Hh. cbn [unwrap mbind outcome_bind].
  fold d. rewrite RamFile_write_inside by (subst off; destruct mode; lia). cbn [mbind outcome_bind].
  eexists. split; [done|]. exists dn, cs. simpl. assert (f ≠ l) by congruence.
  rewrite lookup_insert_ne by done. split; [done|]. exists f, fn. split; [done|].
  rewrite lookup_insert_eq. do 2 f_equal. unfold redirected. cbn [fst snd]. fold out. subst off. destruct mode.
  - done.
  - unfold ztake, zdrop, zlen. rewrite take_ge, (drop_ge d) by (unfold zlen in *; lia). by rewrite app_nil_r.
Qed.

(** [cat] of a text file returns it, in as many turns as there are chunks. *)
Lemma cat_turn_file f fn data s off chunk :
  st_heap s !! f = Some (RamFile fn data) → ascii data → zlen data < 2 ^ 63 →
  0 ≤ off ≤ zlen data → zlen chunk = 512 →
  cat_turn (Ram f) (off, chunk, ztake off data, s) =
    if off =? zlen data then Done (inr (data, s))
    else let off' := Z.min (off + 512) (zlen data) in
      Done (inl (off', zsplice chunk 0 (zslice data off off'), ztake off' data, s)).
Proof.
  intros Hh Ha Hlt Ho Hc. unfold cat_turn. simpl inode_read. unfold ram_read, ram_at. rewrite Hh.
  cbn [unwrap mbind outcome_bind]. unfold RamFile_read. destruct (Z.eqb_spec off (zlen data)) as [->|Hne].
  { rewrite Z.leb_refl. cbn [mbind outcome_bind]. simpl. unfold ztake, zlen. by rewrite Nat2Z.id, firstn_all. }
  rewrite (proj2 (Z.leb_gt _ _)), Hc by lia. set (n := Z.min 512 (zlen data - off)).
  replace (Z.min (off + 512) (zlen data)) with (off + n) by lia.
  rewrite slice_Done by lia. cbn [mbind outcome_bind].
  assert (zlen (zslice data off (off + n)) = n) as Hz by (rewrite zlen_zslice; lia).
  rewrite copy_into_Done by lia. cbn [mbind outcome_bind].
  rewrite (proj2 (Z.eqb_neq n 0)), slice_Done by (rewrite ?zlen_zsplice; lia). cbn [mbind outcome_bind].
  rewrite (zslice_zsplice_same chunk 0 (zslice data off (off + n)) n) by lia. rewrite utf8_ascii by (by apply Forall_take, Forall_drop).
  rewrite wrap_small by (split; lia). do 4 f_equal.
  replace (ztake off data) with (zslice data 0 off) by (unfold zslice; by rewrite Z.sub_0_r).
  rewrite zslice_app by lia. unfold zslice. by rewrite Z.sub_0_r.
Qed.

Lemma cat_file f fn data s :
  st_heap s !! f = Some (RamFile fn data) → ascii data → zlen data < 2 ^ 63 →
  loop_end CAT_TURNS (cat_turn (Ram f)) (0, zrep 512 0, [], s) = Done (data, s).
Proof.
  intros Hh Ha Hlt. pose proof (zlen_nonneg data).
  assert (∀ n off chunk, 0 ≤ off ≤ zlen data → zlen data - off ≤ 512 * Z.of_nat n → zlen chunk = 512 →
    turns (Datatypes.S n) (cat_turn (Ram f)) (off, chunk, ztake off data, s) = Done (inr (data, s))) as Hloop.
  { induction n as [|n IH]; intros off chunk Ho Hn Hc; cbn [turns];
      rewrite (cat_turn_file f fn data) by done; destruct (Z.eqb_spec off (zlen data)); try done; [lia|].
    cbn [mbind outcome_bind]. apply IH; [lia..|]. rewrite zlen_zsplice; rewrite ?zlen_zslice; lia. }
  eapply loop_end_turns.
  - apply (Hloop (Z.to_nat (zlen data)) 0 (zrep 512 0)); [lia..|done].
  - unfold CAT_TURNS, SPIN_TURNS. lia.
Qed.

Definition with_newline (out : str) : str := if negb (ends_with NL out) then out ++ [NL] else out.

Lemma dispatch_cat k data :
  plain_name name → served (k_mounts k) → file_is (Some data) (k_store k) → ascii data → zlen data < 2 ^ 63 →
  dispatch reg (lit "cat /" ++ name) k = inl <$> kprint (with_newline data) k.
Proof.
  intros Hn Hs (dn & cs & Hl & f & fn & Hf & Hh) Ha Hlt. unfold dispatch.
  assert (62 ∉ lit "cat /" ++ name) as Hsg.
  { intros [Hin|Hin]%elem_of_app; [|by apply plain_no_sign in Hin; [|apply Hn]].
    refine (bool_decide_eq_false_1 _ _ Hin); reflexivity. }
  unfold parse_line. rewrite find_twice_None, find_byte_None by done.
  change (run_output_command (lit "cat /" ++ name) k) with (cmd_cat (trim (SLASH :: name)) k).
  rewrite (proj2 (proj2 (trim_graph _ (plain_name_graph name Hn)))).
  unfold cmd_cat. change (abs_path (SLASH :: name)) with (SLASH :: name).
  rewrite (lookup_file _ _ dn cs) by done. cbn [mbind outcome_bind]. rewrite Hf, (cat_file f fn data) by done.
  cbn [mbind outcome_bind]. by destruct k.
Qed.

(** Lines dispatched one after the other. *)
Fixpoint dispatch_all (lines : list str) k : outcome (sum (ksh (node D) (store D SD)) ksh_end) :=
  match lines with
  | [] => Done (inl k)
  | line :: lines =>
      r ← dispatch reg line k;
      match r with inl k => dispatch_all lines k | inr fin => Done (inr fin) end
  end.

(** The bytes the commands ask to write. *)
Definition total_text (cmds : list (RedirMode * str)) : Z := foldr (λ c n, zlen c.2 + 1 + n) 0 cmds.

Lemma drop_spaces_sub p : ∃ i, drop_spaces p = drop i p.
Proof.
  induction p as [|c p [i IH]]; simpl; [by exists O|].
  destruct (is_space c); [by exists (Datatypes.S i)|by exists O].
Qed.

Lemma trim_sub p : zlen (trim p) ≤ zlen p ∧ (ascii p → ascii (trim p)).
Proof.
  unfold trim. destruct (drop_spaces_sub p) as [i ->].
  destruct (drop_spaces_sub (reverse (drop i p))) as [j ->]. split.
  - unfold zlen. rewrite length_reverse, length_drop, length_reverse, length_drop. lia.
  - intros Hp. apply Forall_reverse, Forall_drop, Forall_reverse. by apply Forall_drop.
Qed.

Lemma redirected_bounds d cmd :
  ascii d → plain_text cmd.2 → ascii (redirected d cmd) ∧ zlen (redirected d cmd) ≤ zlen d + zlen cmd.2 + 1.
Proof.
  intros Hd Hc. destruct (trim_sub cmd.2) as [Hl Ha].
  assert (ascii (trim cmd.2 ++ [NL])) as Ho.
  { apply Forall_app. split; [|by constructor]. apply Ha. eapply Forall_impl; [exact Hc|]. simpl. lia. }
  unfold redirected. pose proof (zlen_nonneg d). set (out := trim cmd.2 ++ [NL]) in *.
  assert (zlen out = zlen (trim cmd.2) + 1) by (unfold out; by rewrite zlen_app).
  destruct cmd.1; (split; [apply Forall_app; split; try done; by apply Forall_drop|]).
  - unfold zlen, zdrop in *. rewrite length_app, length_drop. lia.
  - rewrite zlen_app. lia.
Qed.

(** The file, if any, after a redirection. *)
Definition redirect_file (data : option str) (cmd : RedirMode * str) : option str :=
  Some (redirected (default [] data) cmd).

Lemma dispatch_redirects cmds k data :
  plain_name name → served (k_mounts k) → file_is data (k_store k) → Forall (λ c, plain_text c.2) cmds →
  ascii (default [] data) → zlen (default [] data) + total_text cmds < 2 ^ 63 →
  let data' := fold_left redirect_file cmds data in
  ∃ s, dispatch_all (redirect_line name <$> cmds) k = Done (inl (mkKsh s (k_mounts k) (k_tty k))) ∧
    file_is data' s ∧ ascii (default [] data') ∧ zlen (default [] data') < 2 ^ 63.
Proof.
  intros Hn Hs Hf Hc Ha Hb. revert k data Hs Hf Ha Hb.
  induction Hc as [|[mode text] cmds Ht Hc IH]; intros k data Hs Hf Ha Hb.
  { exists (k_store k). simpl in *. split_and!; [by destruct k|done|done|lia]. }
  cbn [fmap list_fmap map dispatch_all fold_left]. rewrite dispatch_redirect by done.
  simpl in Ht, Hb. destruct (trim_sub text) as [Hl _].
  assert (0 ≤ total_text cmds) as Hnn.
  { clear. induction cmds as [|c cmds IH]; simpl; [done|]. pose proof (zlen_nonneg c.2). lia. }
  fold (total_text cmds) in Hb.
  destruct (write_to_file_redirected k data mode text Hn Hs Hf) as (s & -> & Hf'); [lia|]. simpl.
  destruct (redirected_bounds (default [] data) (mode, text) Ha Ht) as [Ha' Hb']. simpl in Hb'.
  apply (IH (mkKsh s (k_mounts k) (k_tty k)) (Some _)); try done. simpl. lia.
Qed.
End redirect.

(** C12: redirected output ends up in the file.  For texts of printable ASCII
    characters other than '>' and a name of such characters without spaces and
    slashes, any sequence of [echo text > /name] and [echo text >> /name], on a file
    that does not exist or holds ASCII text, succeeds and leaves in the file each
    text (trimmed, with a newline) appended or written over the beginning;
    [cat /name] prints exactly that.  The root is a RAM directory, the rest of the
    store arbitrary; the texts and the file together are shorter than 2^63 bytes. *)
Theorem redirected_then_cat {D SD} `{INode D SD} reg l name (k : ksh (node D) (store D SD)) data cmds :
  plain_name name → served l name (k_mounts k) → file_is l name data (k_store k) →
  Forall (λ c, plain_text c.2) cmds → ascii (default [] data) → zlen (default [] data) + total_text cmds < 2 ^ 63 →
  ∃ k', dispatch_all reg (redirect_line name <$> cmds) k = Done (inl k') ∧
    k_mounts k' = k_mounts k ∧ k_tty k' = k_tty k ∧
    ∀ text, fold_left redirect_file cmds data = Some text →
      dispatch reg (lit "cat /" ++ name) k' = inl <$> kprint (with_newline text) k'.
Proof.
  intros Hn Hs Hf Hc Ha Hb.
  destruct (dispatch_redirects reg l name cmds k data Hn Hs Hf Hc Ha Hb) as (s & E & Hf' & Ha' & Hb').
  eexists. split; [exact E|]. split_and!; [done..|]. intros text Ht. rewrite Ht in *.
  by eapply dispatch_cat.
Qed.

(** Root directory and file of [demo_store], no console. *)
Definition demo_ksh : ksh (node Empty_set) (store Empty_set unit) :=
  mkKsh demo_store (fold_left mount_do demo_table []) None.

Lemma redirected_then_cat_witness :
  ∃ k', dispatch_all [] (redirect_line [102] <$> [(Overwrite, lit "hello"); (Append, lit " you ")]) demo_ksh
    = Done (inl k') ∧
  dispatch [] (lit "cat /f") k' = inl <$> kprint (lit "hello" ++ [NL] ++ lit "you" ++ [NL]) k'.
Proof.
  destruct (redirected_then_cat [] 0%nat [102] demo_ksh (Some []) [(Overwrite, lit "hello"); (Append, lit " you ")])
    as (k' & E & _ & _ & Hcat).
  - split_and!; [by repeat constructor|set_solver|unfold no_slash, SLASH; set_solver|done].
  - eexists. split_and!; reflexivity.
  - exists [], [([102], Ram 1%nat)]. split; [reflexivity|]. exists 1%nat, [102]. split; reflexivity.
  - repeat constructor; done.
  - constructor.
  - vm_compute. reflexivity.
  - exists k'. split; [exact E|]. exact (Hcat _ eq_refl).
Defined.

Lemma shell_runs_typed_line_witness :
  ∃ k1 buf, kshell_keys [] ((lit " halr" ++ [8] ++ lit "t") ++ [13]) (mkEditor (zrep 256 0) 0 demo_ksh) =
    (r ← dispatch [] (lit "halt") k1;
     match r with
     | inl k2 => k3 ← prompt k2; Done (inl (mkEditor buf 0 k3))
     | inr fin => Done (inr fin)
     end) ∧ k_store k1 = demo_store.
Proof.
  destruct (shell_runs_typed_line [] (lit " halr" ++ [8] ++ lit "t") 13 (mkEditor (zrep 256 0) 0 demo_ksh))
    as [(k1 & buf & E & Hs & _) _].
  - split; [reflexivity|done|constructor|exact I].
  - reflexivity.
  - reflexivity.
  - repeat constructor.
  - exists k1, buf. split; [exact E|exact Hs].
Defined.

(** A redirection to a name without a leading slash creates the file in the
    root directory, but does not find it again: the second one is refused and
    the file keeps what it had. *)
Lemma relative_redirect_refused :
  let line := lit "echo again > f" in
  dispatch [] line demo_ksh =
    (k ← kprintln (lit "redirect: f: cannot create") demo_ksh;
     Done (inl (mkKsh (mkStore (<[2%nat := RamFile (lit "f") []]> (st_heap demo_store)) ()) (k_mounts k) (k_tty k)))) ∧
  st_heap demo_store !! 1%nat = Some (RamFile (lit "f") []).
Proof. split; vm_compute; reflexivity. Qed.

(** A file with a tab in it, which any program can write, panics the kernel
    when it is shown. *)
Lemma cat_unprintable_panics {D SD} `{INode D SD} reg l name (k : ksh (node D) (store D SD)) data t g :
  plain_name name → served l name (k_mounts k) → file_is l name (Some data) (k_store k) →
  ascii data → zlen data < 2 ^ 63 → ¬ Forall printable data → k_tty k = Some t → shows t g →
  dispatch reg (lit "cat /" ++ name) k = Panic.
Proof.
  intros Hn Hs Hf Ha Hb Hp Ht Hg. rewrite (dispatch_cat reg l name k data) by done.
  unfold kprint, console_print, Tty_write_str. rewrite Ht, chars_ascii.
  2: { unfold with_newline. cases; [|done]. apply Forall_app. split; [done|]. by repeat constructor. }
  rewrite (Tty_write_chars_panic t g); [done|done|]. intros Hw. apply Hp. unfold with_newline in Hw.
  destruct (negb _); [|done]. by apply Forall_app in Hw as [? _].
Qed.

(* ------------------------------------------------------------------ *)
(** ** The adapter on a disk's node *)

Section adapter.
Context {D : Type} `{Disk D}.
Implicit Types d : D.

(** The file system's node for the device, as the VFS sees it. *)
#[local] Instance BlockDevINode_INode : INode unit D := {
  inode_read _ off buf d := '(n, buf) ← BlockDevINode_read off buf d; Done (n, buf, d);
  inode_write _ off buf d := BlockDevINode_write off buf d;
  inode_metadata _ _ := Device;
  inode_lookup := default_lookup;
  inode_insert := default_insert;
  inode_create_file := default_create_file;
  inode_mkdir := default_mkdir;
  inode_unlink := default_unlink;
  inode_size _ d := Done (BlockDevINode_size d);
  inode_readdir := default_readdir;
}.

Lemma sector_moved d s :
  0 ≤ s → moved (capacity d) (512 * s) 512 = if decide (s < sector_count d) then 512 else 0.
Proof. intros. unfold moved, capacity, SECTOR. case_decide; lia. Qed.

Lemma adapter_read d s buf :
  0 ≤ s < 2 ^ 54 → zlen buf = 512 →
  VfsBlockDevAdapter_read_block () s buf d =
    if decide (s < sector_count d) then Done (true, zslice (disk d) (512 * s) (512 * s + 512), d)
    else Done (false, buf, d).
Proof.
  intros Hs Hb. unfold VfsBlockDevAdapter_read_block. simpl. rewrite wrap_small by (split; lia).
  unfold BlockDevINode_read. rewrite bool_decide_eq_false_2 by (intros ->; done).
  rewrite BlockDevINode_read_loop_spec; [|lia..|done|unfold zlen; lia].
  rewrite (Z.mul_comm s), Z.sub_0_r, Hb, sector_moved, Z.add_0_l by lia. cbn [mbind outcome_bind].
  pose proof (disk_len d). unfold SECTOR in *. case_decide.
  - by rewrite zsplice_full by (rewrite zlen_zslice; lia).
  - by rewrite zslice_nil, zsplice_nil by lia.
Qed.

Lemma adapter_write d s data :
  0 ≤ s < 2 ^ 54 → zlen data = 512 →
  ∃ d', VfsBlockDevAdapter_write_block () s data d = Done (bool_decide (s < sector_count d), d') ∧
    disk d' = (if decide (s < sector_count d) then zsplice (disk d) (512 * s) data else disk d) ∧
    sector_count d' = sector_count d.
Proof.
  intros Hs Hb. unfold VfsBlockDevAdapter_write_block. simpl. rewrite wrap_small by (split; lia).
  unfold BlockDevINode_write. rewrite bool_decide_eq_false_2 by (intros ->; done).
  destruct (BlockDevINode_write_loop_spec (Datatypes.S (length data)) d (s * 512) 0 data (zrep 512 0))
    as (d' & -> & Hd & Hc); [lia..|done|unfold zlen; lia|].
  rewrite (Z.mul_comm s), Z.sub_0_r, Hb, sector_moved in * by lia. cbn [mbind outcome_bind].
  exists d'. unfold capacity, SECTOR in Hc. split; [|split; [|lia]].
  - case_decide; [by rewrite bool_decide_eq_true_2|by rewrite bool_decide_eq_false_2].
  - rewrite Hd. case_decide; [|by rewrite zslice_nil, zsplice_nil by lia].
    replace (0 + 512) with (zlen data) by lia. by rewrite zslice_full.
Qed.

(** A device node, wrapped as a block device for [mount], is the device.
    On a working disk and sectors below 2^54 the adapter's reads succeed on
    exactly the sectors of the disk and return what the disk's own
    [read_block] returns; its writes have the effect of [write_block]; and it
    reports the disk's number of sectors. *)
Theorem adapter_is_disk d s buf :
  0 ≤ s < 2 ^ 54 → zlen buf = SECTOR →
  (∃ buf', VfsBlockDevAdapter_read_block () s buf d = Done ((read_block s buf d).1, buf', d) ∧
     ((read_block s buf d).1 = true → buf' = (read_block s buf d).2)) ∧
  (∃ d1 d2, VfsBlockDevAdapter_write_block () s buf d = Done ((write_block s buf d).1, d1) ∧
     d2 = (write_block s buf d).2 ∧ disk d1 = disk d2 ∧ sector_count d1 = sector_count d2) ∧
  VfsBlockDevAdapter_sector_count () d = Done (sector_count d).
Proof.
  intros Hs Hb. pose proof (disk_size d) as Hsz. split_and!.
  - rewrite adapter_read by done. case_decide.
    + rewrite disk_read by (done || lia). by eexists.
    + assert ((read_block s buf d).1 = false) as E by (apply disk_read_out; lia). rewrite E. eexists. split; [done|]. intros; done.
  - destruct (adapter_write d s buf Hs Hb) as (d1 & -> & Hd & Hc). exists d1. case_decide.
    + destruct (disk_write d s buf) as (d2 & E & Hd2 & Hc2); [lia|done|]. exists d2. rewrite E.
      rewrite bool_decide_eq_true_2 by done. split_and!; [done|done| |congruence]. by rewrite Hd, Hd2.
    + destruct (disk_write_out d s buf) as (d2 & E & Hd2 & Hc2); [lia|]. exists d2. rewrite E.
      rewrite bool_decide_eq_false_2 by done. split_and!; [done|done|congruence|congruence].
  - unfold VfsBlockDevAdapter_sector_count. simpl. unfold BlockDevINode_size. rewrite wrap_small by (split; lia).
    by rewrite Z.div_mul.
Qed.
End adapter.

Lemma adapter_is_disk_witness :
  VfsBlockDevAdapter_sector_count (H := BlockDevINode_INode) () (∅ : memdisk) = Done 64.
Proof. refine (proj2 (proj2 (adapter_is_disk (∅ : memdisk) 3 (zrep 512 0) _ _))); [lia|reflexivity]. Defined.

(* ------------------------------------------------------------------ *)
(** ** The task: lemma *)

(** The shell's task is queued last, ready to run [kshell_task] on a stack of
    its own whose sixteen pages are mapped; without memory for the stack the
    scheduler is left alone. *)
Lemma spawn_kshell_queued {PT} `{Mapper PT} entry own next (pa : PageAllocator PT) sc rq :
  pa_inv kpage own pa → KSTACK_VA_START ≤ next ≤ KSTACK_VA_END → (PAGE_SIZE | next) → s_rq sc = Some rq →
  ∃ r next' pa' sc', spawn_kshell entry next (Some pa) sc = Done (r, next', Some pa', sc') ∧
    match r with
    | Ok id =>
        id = s_next_id sc ∧ (∀ p, pages next 16 p → is_Some (translate (pa_mapper pa') p)) ∧
        ∃ l t, s_heap sc !! l = None ∧
          sc' = mkSched (<[l := t]> (s_heap sc)) (Some (mkRunQueue (rq_queue rq ++ [l]) (rq_current rq) (rq_zombies rq)))
                  (s_current_task sc) (s_next_id sc ⊞ 1) (s_hook sc) (s_kstack sc) (s_cpu sc) ∧
          t_id t = id ∧ t_state t = Ready ∧ t_waiting_for_child t = false ∧ t_kstack t = next + 64 * 1024 ∧
          t_context t = kshell_context (next + 64 * 1024) entry
    | Err _ => sc' = sc
    end.
Proof.
  intros Hpa Hn Hal Hr. unfold spawn_kshell, alloc_kernel_stack.
  change ((64 * 1024 =? 0) || negb ((64 * 1024) `mod` 4096 =? 0)) with false. cbv iota.
  unfold KSTACK_VA_START, KSTACK_VA_END in *. rewrite wrap_small by (split; lia).
  destruct (Z.ltb_spec 0xFFFFD00000000000 (next + 64 * 1024)); [eexists _, _, _, _; by split|].
  change (Z.to_nat ((64 * 1024) `div` 4096)) with 16%nat.
  destruct (map_pages_spec 16 _ _ next KSTACK_FLAGS _ Hpa) as (ok & pa' & -> & _ & _ & Hm);
    [lia|done|unfold PAGE_SIZE; lia|].
  cbn [mbind outcome_bind]. destruct ok; [|eexists _, _, _, _; by split].
  unfold TaskId_new, enqueue_task, RunQueue_enqueue, global, update_task, task_at. simpl. rewrite Hr. simpl.
  rewrite lookup_insert_eq. simpl. eexists _, _, _, _. split; [done|]. split; [done|].
  split; [by apply Hm|]. eexists (fresh (dom (s_heap sc))), _. split; [apply not_elem_of_dom, is_fresh|].
  rewrite insert_insert_eq. by split_and!.
Qed.

(** A byte on the serial line comes first and leaves the keyboard's queue
    alone; without one, the oldest key is taken. *)
Lemma kshell_turn_spec {U} `{Ports U} (ser ser' : serial U) ring b q :
  rb_inv ring →
  (serial_read_byte ser = (Some b, ser') → kshell_turn (ser, ring) = Done (inr (b, ser', ring))) ∧
  (serial_read_byte ser = (None, ser') → rb_contents ring = b :: q →
     ∃ ring', kshell_turn (ser, ring) = Done (inr (b, ser', ring')) ∧ rb_inv ring' ∧ rb_contents ring' = q) ∧
  (serial_read_byte ser = (None, ser') → rb_contents ring = [] →
     ∃ ring', kshell_turn (ser, ring) = Done (inl (ser', ring')) ∧ rb_contents ring' = []).
Proof.
  intros Hi. unfold kshell_turn. simpl. split_and!; intros ->; [done|..]; intros Hq.
  all: destruct (pop_refines ring Hi) as (r1 & Hp & Hi1 & Hc); unfold pop_key; rewrite Hp, Hq in *; simpl; by eauto.
Qed.

Lemma kshell_read_byte_first {U} `{Ports U} (st : serial U * RingBuffer) r :
  kshell_turn st = Done (inr r) → kshell_read_byte st = Done r.
Proof. intros E. unfold kshell_read_byte. eapply (loop_end_turns _ 1). { simpl. by rewrite E. } unfold SPIN_TURNS. lia. Qed.
