(* ===== verification/Ulib.v ===== *)
(** * The user library and the first program (ulib/src, ulib/examples/init.rs)

    A program runs on a world [W] with memory and a [syscall] instruction (the
    class [User]); its functions are in a monad that also stops when a call
    does not return.  Registers a stub does not set keep whatever they hold.
    Buffers, string literals and local arrays are addresses in the program's
    memory.  The kernel of Syscall.v is such a world ([kernel_User]); a call
    that blocks is continued by a parameter.

    Shown here: every stub reaches the kernel's function for it, with its
    arguments in the right places, whatever the other registers hold; a line
    typed on the keyboard is what [read_line] returns, echoed on the screen and
    the serial line, while a tab stops the kernel; the heap gives out
    aligned, disjoint blocks until it is exhausted; [print_u64] prints the
    decimal digits. *)

From S2P Require Import Prelude Pipe Keyboard Task Ipc Vfs RamFs.
From S2P Require Import Fd Console Serial Memory Loader Process Executor Syscall Devices KernelFiles.

(* ------------------------------------------------------------------ *)
(** ** Programs *)

(** [syscall nr rdi rsi rdx r10]: the value of [rax], or [None] when the call
    does not come back. *)
Class User (W : Type) := {
  syscall : Z → Z → Z → Z → Z → W → outcome (option Z * W);
  u_mem : W → umem;
  u_put : umem → W → W;
  u_rdi : W → Z;
  u_rsi : W → Z;
  u_rdx : W → Z;
  u_r10 : W → Z;
}.

Definition user (W A : Type) : Type := W → outcome (option A * W).

Definition uret {W A} (a : A) : user W A := λ w, Done (Some a, w).
Definition ubind {W A B} (m : user W A) (f : A → user W B) : user W B := λ w,
  '(r, w) ← m w; match r with Some a => f a w | None => Done (None, w) end.

Declare Scope user_scope.
Delimit Scope user_scope with user.
Bind Scope user_scope with user.
Notation "x ⇐ m ; f" := (ubind m (λ x, f)) (at level 20, m at level 100, f at level 200, right associativity) : user_scope.
Notation "m ;; f" := (ubind m (λ _, f)) (at level 100, f at level 200, right associativity) : user_scope.

(** The library's own table of numbers. *)
Definition ulib_SYS_EXIT : Z := 0.
Definition ulib_SYS_YIELD : Z := 1.
Definition ulib_SYS_GETPID : Z := 2.
Definition ulib_SYS_GETPPID : Z := 3.
Definition ulib_SYS_SPAWN : Z := 4.
Definition ulib_SYS_WAIT : Z := 5.
Definition ulib_SYS_OPEN : Z := 10.
Definition ulib_SYS_CLOSE : Z := 11.
Definition ulib_SYS_READ : Z := 12.
Definition ulib_SYS_WRITE : Z := 13.
Definition ulib_SYS_SEEK : Z := 14.
Definition ulib_SYS_DUP : Z := 15.
Definition ulib_SYS_DUP2 : Z := 16.
Definition ulib_SYS_PIPE : Z := 17.
Definition ulib_SYS_GETDENTS : Z := 18.
Definition ulib_SYS_MKDIR : Z := 20.
Definition ulib_SYS_UNLINK : Z := 21.

Definition STDIN : Z := 0.
Definition STDOUT : Z := 1.

Section stubs.
Context {W : Type} `{User W}.
Implicit Types w : W.
Open Scope user_scope.

Definition syscall4 (nr arg1 arg2 arg3 arg4 : Z) : user W Z := syscall nr arg1 arg2 arg3 arg4.
Definition syscall3 (nr arg1 arg2 arg3 : Z) : user W Z := λ w, syscall nr arg1 arg2 arg3 (u_r10 w) w.
Definition syscall2 (nr arg1 arg2 : Z) : user W Z := λ w, syscall nr arg1 arg2 (u_rdx w) (u_r10 w) w.
Definition syscall1 (nr arg1 : Z) : user W Z := λ w, syscall nr arg1 (u_rsi w) (u_rdx w) (u_r10 w) w.
Definition syscall0 (nr : Z) : user W Z := λ w, syscall nr (u_rdi w) (u_rsi w) (u_rdx w) (u_r10 w) w.

(** [as isize]. *)
Definition signed (m : user W Z) : user W Z := r ⇐ m; uret (as_signed 64 r).

(** Slices and strings are a pointer and a length. *)
Definition write (fd buf len : Z) : user W Z := signed (syscall3 ulib_SYS_WRITE fd buf len).
Definition read (fd buf len : Z) : user W Z := syscall3 ulib_SYS_READ fd buf len.
Definition serix_open (path len : Z) : user W Z := signed (syscall2 ulib_SYS_OPEN path len).
Definition serix_close (fd : Z) : user W Z := signed (syscall1 ulib_SYS_CLOSE fd).
Definition serix_seek (fd offset : Z) : user W Z := signed (syscall2 ulib_SYS_SEEK fd offset).
Definition serix_mkdir (path len : Z) : user W Z := signed (syscall2 ulib_SYS_MKDIR path len).
Definition serix_unlink (path len : Z) : user W Z := signed (syscall2 ulib_SYS_UNLINK path len).
(** [code as usize] of an [i32]; a call that came back is never left. *)
Definition exit (code : Z) : user W Empty_set := syscall1 ulib_SYS_EXIT (wrap 64 code) ;; λ w, Done (None, w).
Definition serix_yield : user W unit := syscall0 ulib_SYS_YIELD ;; uret ().
Definition serix_getpid : user W Z := syscall0 ulib_SYS_GETPID.
Definition serix_getppid : user W Z := syscall0 ulib_SYS_GETPPID.
Definition serix_spawn (path len : Z) : user W Z := signed (syscall2 ulib_SYS_SPAWN path len).
(** [status] is the address of the local variable. *)
Definition serix_wait (status pid : Z) : user W (Z * Z) := λ w,
  (ret ⇐ signed (syscall4 ulib_SYS_WAIT (wrap 64 pid) status 0 0);
   λ w, Done (Some (ret, as_signed 32 (from_le (mem_read status 4 (u_mem w)))), w))
  (u_put (mem_write status [0; 0; 0; 0] (u_mem w)) w).
Definition serix_getdents (fd buf len : Z) : user W Z := signed (syscall3 ulib_SYS_GETDENTS fd buf len).
Definition serix_dup (fd : Z) : user W Z := signed (syscall1 ulib_SYS_DUP fd).
Definition serix_dup2 (old_fd new_fd : Z) : user W Z := signed (syscall2 ulib_SYS_DUP2 old_fd new_fd).
Definition serix_pipe (fds : Z) : user W Z := signed (syscall2 ulib_SYS_PIPE fds 0).

(* ------------------------------------------------------------------ *)
(** ** Printing (fmt.rs) and reading lines (io.rs) *)

(** [_print]: [write_fmt] hands the pieces of the text to [write_str], which never
    fails. *)
Fixpoint _print (pieces : list (Z * Z)) : user W unit :=
  match pieces with
  | [] => uret ()
  | (s, len) :: pieces => write STDOUT s len ;; _print pieces
  end.

Definition print_str (s len : Z) : user W unit := write STDOUT s len ;; uret ().

(** One turn of [read_line]: [buf] is its array, [newline] and [erase] the
    literals it writes. *)
Definition read_line_turn (buf newline erase : Z) (st : str * W)
    : outcome ((str * W) + (option (option str) * W)) :=
  let '(line, w) := st in
  '(r, w) ← read STDIN buf 1 w;
  match r with
  | None => Done (inr (None, w))
  | Some n =>
    if n =? 0 then Done (inr (Some None, w))
    else
      let c := u_mem w buf in
      if (c =? 13) || (c =? 10) then
        '(r, w) ← write STDOUT newline 1 w;
        Done (inr (if r is Some _ then Some (Some line) else None, w))
      else if (c =? 8) || (c =? 127) then
        if bool_decide (line = []) then Done (inl (line, w))
        else
          '(r, w) ← write STDOUT erase 3 w;
          Done (if r is Some _ then inl (ztake (zlen line - 1) line, w) else inr (None, w))
      else
        '(r, w) ← write STDOUT buf 1 w;
        let line := if utf8_valid [c] then line ++ [c] else line in
        Done (if r is Some _ then inl (line, w) else inr (None, w))
  end.

Definition read_line (buf newline erase : Z) : user W (option str) := λ w,
  loop_end SPIN_TURNS (read_line_turn buf newline erase) ([], u_put (mem_write buf [0] (u_mem w)) w).

(* ------------------------------------------------------------------ *)
(** ** The first program (examples/init.rs) *)

(** The array, the number of digits in it and what is left of the value. *)
Definition digit_turn (st : list Z * Z * Z) : outcome ((list Z * Z * Z) + (list Z * Z)) :=
  let '(digits, i, val) := st in
  if 0 <? val then
    digits ← upd digits i (wrap 8 (val `mod` 10 + 48));
    Done (inl (digits, i + 1, val `div` 10))
  else Done (inr (digits, i)).

(** [while i > 0]: the digits from the last to the first; [digits] is at [arr]. *)
Fixpoint print_digits (arr : Z) (i : nat) : user W unit :=
  match i with
  | O => uret ()
  | S i => write STDOUT (arr + Z.of_nat i) 1 ;; print_digits arr i
  end.

(** More turns than a number has digits. *)
Definition DIGIT_TURNS : positive := 64.

(** [zero] is the literal ["0"], [arr] the local array. *)
Definition print_u64 (zero arr val : Z) : user W unit := λ w,
  if val =? 0 then (write STDOUT zero 1 ;; uret ()) w
  else
    '(digits, i) ← loop_end DIGIT_TURNS digit_turn (zrep 20 0, 0, val);
    print_digits arr (Z.to_nat i) (u_put (mem_write arr digits (u_mem w)) w).
End stubs.

(* ------------------------------------------------------------------ *)
(** ** The heap (heap.rs) *)

Definition ULIB_HEAP_SIZE : Z := 65536.

(** A turn of [alloc]: offsets in [HEAP], [None] the null pointer.  Nothing
    runs between the load and the exchange. *)
Definition bump_turn (align size : Z) (heap_pos : Z) : outcome (Z + (option Z * Z)) :=
  let pos := heap_pos in
  let aligned := Z.land (pos ⊞ align ⊟ 1) (wrap 64 (Z.lnot (align ⊟ 1))) in
  let new_pos := aligned ⊞ size in
  if ULIB_HEAP_SIZE <? new_pos then Done (inr (None, heap_pos))
  else if pos =? heap_pos then Done (inr (Some aligned, new_pos))
  else Done (inl heap_pos).

Definition bump_alloc (align size heap_pos : Z) : outcome (option Z * Z) :=
  loop_end SPIN_TURNS (bump_turn align size) heap_pos.

(* ------------------------------------------------------------------ *)
(** ** Decimal digits *)

(** The digits of a number below [10 ^ n], the most significant first; none for zero. *)
Fixpoint digs (n : nat) (v : Z) : str :=
  match n with
  | O => []
  | S n => if v =? 0 then [] else digs n (v `div` 10) ++ [48 + v `mod` 10]
  end.

Definition decimal (v : Z) : str := if v =? 0 then [48] else digs 20 v.

(** The number a string of digits stands for. *)
Definition number (s : str) : Z := foldl (λ a d, 10 * a + (d - 48)) 0 s.

Lemma digs_spec n v :
  0 ≤ v < 10 ^ Z.of_nat n →
  number (digs n v) = v ∧ Forall (λ d, 48 ≤ d ≤ 57) (digs n v) ∧ zlen (digs n v) ≤ Z.of_nat n ∧
  head (digs n v) ≠ Some 48.
Proof.
  revert v. induction n as [|n IH]; intros v Hv.
  { simpl in *. split_and!; [unfold number; simpl; lia|constructor|unfold zlen; simpl; lia|done]. }
  rewrite Nat2Z.inj_succ, Z.pow_succ_r in * by lia. cbn [digs]. destruct (Z.eqb_spec v 0) as [->|Hne].
  { split_and!; [done|constructor|unfold zlen; simpl; lia|done]. }
  pose proof (Z.mod_pos_bound v 10 ltac:(lia)) as Hm. pose proof (Z.div_mod v 10 ltac:(lia)) as Hd.
  destruct (IH (v `div` 10)) as (Hn & Hf & Hl & Hh); [lia|]. split_and!.
  - unfold number in *. rewrite foldl_app, Hn. simpl. lia.
  - apply Forall_app. split; [done|]. constructor; [lia|constructor].
  - rewrite zlen_app. change (zlen [_]) with 1. lia.
  - destruct (digs n (v `div` 10)) as [|d l] eqn:El; [|done]. simpl.
    unfold number in Hn. simpl in Hn. intros [= E]. lia.
Qed.

(** The loop that fills the array, the least significant digit first. *)
Lemma digit_turns n : ∀ v i digits,
  0 ≤ v < 10 ^ Z.of_nat n → 0 ≤ i → i + Z.of_nat n ≤ 20 → zlen digits = 20 →
  ∃ digits', turns (S n) digit_turn (digits, i, v) = Done (inr (digits', i + zlen (digs n v))) ∧
    zlen digits' = 20 ∧ ztake (i + zlen (digs n v)) digits' = ztake i digits ++ reverse (digs n v).
Proof.
  induction n as [|n IH]; intros v i digits Hv Hi Hn Hz; cbn [turns digit_turn digs].
  { assert (v = 0) as -> by (simpl in Hv; lia). exists digits. simpl. rewrite Z.add_0_r, app_nil_r. done. }
  rewrite Nat2Z.inj_succ, Z.pow_succ_r in * by lia. destruct (Z.eqb_spec v 0) as [->|Hne].
  { exists digits. simpl. rewrite Z.add_0_r, app_nil_r. done. }
  rewrite (proj2 (Z.ltb_lt 0 v)) by lia. pose proof (Z.mod_pos_bound v 10 ltac:(lia)) as Hm.
  pose proof (Z.div_mod v 10 ltac:(lia)) as Hd.
  rewrite upd_Done by lia. cbn [mbind outcome_bind]. rewrite wrap_small by (split; lia).
  destruct (IH (v `div` 10) (i + 1) (zset digits i (v `mod` 10 + 48))) as (digits' & E & Hz' & Ht);
    [lia|lia|lia|by rewrite zlen_zset|].
  exists digits'. rewrite zlen_app. change (zlen [_]) with 1.
  replace (i + (zlen (digs n (v `div` 10)) + 1)) with (i + 1 + zlen (digs n (v `div` 10))) by lia.
  split; [exact E|]. split; [done|]. rewrite Ht, ztake_zset_snoc, reverse_snoc by lia.
  rewrite <-(assoc_L (++)). simpl. by rewrite (Z.add_comm 48).
Qed.

(* ------------------------------------------------------------------ *)
(** ** The kernel as a world *)

Section kernel.
Context {PT : Type} `{Mapper PT}.
Context {U : Type} `{Uart16550 U}.
Context {F : Type}.
Context (VirtAddr_new : Z → outcome Z) (heap_fits : Z → bool).
Context (create_mapper : Z → gmap Z (list Z) → PT) (user_entry_trampoline : Z).
Abbreviation N := (node dev).
Abbreviation St := (store dev (devs U)).
Context (mounts : list (MountEntry N)) (stdin stdout stderr : N).
Abbreviation kern := (kernel PT N St F).
Abbreviation dispatcher := (syscall_dispatcher VirtAddr_new heap_fits create_mapper user_entry_trampoline mounts
                          stdin stdout stderr).
(** How a call that blocks comes back, and the registers at a system call. *)
Context (blocked : pending → kern → outcome (option Z * kern)) (rdi rsi rdx r10 : kern → Z).
Implicit Types (k : kern).

Definition come_back (m : outcome (sysret * kern)) : outcome (option Z * kern) :=
  '(r, k) ← m;
  match r with Ret v => Done (Some v, k) | Blocks p => blocked p k | NoReturn => Done (None, k) end.

#[local] Instance kernel_User : User kern := {
  syscall nr a1 a2 a3 a4 k := come_back (dispatcher nr a1 a2 a3 a4 k);
  u_mem := k_mem;
  u_put m k := set_mem m k;
  u_rdi := rdi; u_rsi := rsi; u_rdx := rdx; u_r10 := r10;
}.

(** C20: the stubs and the kernel agree on numbers, registers and results.  In
    every kernel state and whatever the registers that a stub leaves alone hold,
    each of the 17 functions of the user library that make one system call is the
    kernel's function of that name on its arguments.  [read], [serix_getpid] and
    [serix_getppid] return the kernel's unsigned number as it is, the others return
    it as a signed number; [serix_yield] returns nothing, and all it does is to
    advance the index of the kernel's executor; [exit] does not return; [serix_wait]
    clears its status word first and returns what the kernel stored there. *)
Theorem ulib_reaches_kernel k (fd old_fd new_fd ptr len off code pid : Z) :
  let isize m := '(r, k) ← come_back m; Done (option_map (as_signed 64) r, k) in
  write fd ptr len k = isize (sys_write fd ptr len k) ∧
  read fd ptr len k = come_back (sys_read fd ptr len k) ∧
  serix_open ptr len k = isize (sys_open mounts ptr len k) ∧
  serix_close fd k = isize (sys_close fd k) ∧
  serix_seek fd off k = isize (sys_seek fd off k) ∧
  serix_mkdir ptr len k = isize (sys_mkdir mounts ptr len k) ∧
  serix_unlink ptr len k = isize (sys_unlink mounts ptr len k) ∧
  serix_yield k = Done (Some (), set_exec (preempt_executor (k_exec k)) k) ∧
  serix_getpid k = Done (Some (current_task_id (k_sched k)), k) ∧
  serix_getppid k = come_back (sys_getppid k) ∧
  serix_spawn ptr len k =
    isize (sys_spawn VirtAddr_new heap_fits create_mapper user_entry_trampoline mounts stdin stdout stderr ptr len k) ∧
  serix_getdents fd ptr len k = isize (sys_getdents fd ptr len k) ∧
  serix_dup fd k = isize (sys_dup fd k) ∧
  serix_dup2 old_fd new_fd k = isize (sys_dup2 old_fd new_fd k) ∧
  serix_pipe ptr k = isize (sys_pipe ptr k) ∧
  serix_wait ptr pid k =
    ('(r, k) ← come_back (sys_wait (wrap 64 pid) ptr 0 (set_mem (mem_write ptr [0; 0; 0; 0] (k_mem k)) k));
     Done (option_map (λ v, (as_signed 64 v, as_signed 32 (from_le (mem_read ptr 4 (k_mem k))))) r, k)) ∧
  exit code k = ('(_, k) ← come_back (sys_exit (wrap 64 code) k); Done (None, k)).
Proof.
  intros isize. subst isize.
  assert (∀ m : outcome (sysret * kern),
    ('(r, k) ← come_back m; match r with Some a => Done (Some (as_signed 64 a), k) | None => Done (None, k) end) =
    ('(r, k) ← come_back m; Done (option_map (as_signed 64) r, k))) as Hi.
  { intros m. by destruct (come_back m) as [[[r|] k']|]. }
  split_and!; try exact (Hi _); try reflexivity.
  - set (k0 := set_mem _ k). transitivity
      ('(r, k) ← ('(r, k) ← come_back (sys_wait (wrap 64 pid) ptr 0 k0);
         match r with Some a => Done (Some (as_signed 64 a), k) | None => Done (None, k) end);
       match r with
       | Some a => Done (Some (a, as_signed 32 (from_le (mem_read ptr 4 (k_mem k)))), k)
       | None => Done (None, k)
       end); [reflexivity|].
    by destruct (come_back (sys_wait (wrap 64 pid) ptr 0 k0)) as [[[r|] k']|].
  - transitivity ('(r, k) ← come_back (sys_exit (wrap 64 code) k);
       match r with Some _ => Done (None : option Empty_set, k) | None => Done (None, k) end); [reflexivity|].
    by destruct (come_back (sys_exit (wrap 64 code) k)) as [[[r|] k']|].
Qed.

(* ------------------------------------------------------------------ *)
(** ** A program at the terminal *)

Section session.
Context (l0 l1 : loc) (cols_ rows_ buf newline erase : Z).

(** Descriptors 0 and 1 are the terminal, [keys] have been typed ahead, [out]
    has gone out on the serial line and the screen shows [g]; the program's
    literals are in place. *)
Record session (keys out : list Z) (g : term) k : Prop := {
  se_in : ∃ off, opened k STDIN l0 (mkOpenFile (Dev Stdin) off);
  se_out : ∃ off, opened k STDOUT l1 (mkOpenFile (Dev Stdout) off);
  se_woken : d_woken (k_devs k) = [];
  se_kbd : rb_inv (d_kbd (k_devs k));
  se_keys : rb_contents (d_kbd (k_devs k)) = keys;
  se_serial : printing (d_serial (k_devs k));
  se_line : line (uart (d_serial (k_devs k))) = out;
  se_tty : ∃ t, d_tty (k_devs k) = Some t ∧ shows t g ∧ cols t = cols_ ∧ rows t = rows_;
  se_newline : mem_read newline 1 (k_mem k) = [10];
  se_erase : mem_read erase 3 (k_mem k) = [8; 32; 8];
}.

(** Where the buffer and the literals are. *)
Definition placed : Prop :=
  in_user_half buf 1 ∧ in_user_half newline 1 ∧ in_user_half erase 3 ∧
  buf ≠ newline ∧ ¬ (erase ≤ buf < erase + 3).

Lemma opened_other k k' fd l l' file off :
  opened k fd l file → l ≠ l' → k_fds k' = set_offset l' off (k_fds k) →
  current_task_id (k_sched k') = current_task_id (k_sched k) → opened k' fd l file.
Proof.
  intros [Hg Hf] Hne Ef Ec. split; [by rewrite Ec, Ef|]. rewrite Ef. unfold set_offset. cbn [fd_files].
  by rewrite lookup_alter_ne.
Qed.

Lemma session_apart keys out g k : session keys out g k → l0 ≠ l1.
Proof. intros [[? [_ Hi]] [? [_ Ho]] _ _ _ _ _ _ _ _] ->. congruence. Qed.

Lemma mem_read_other ptr n a bytes m :
  ¬ (ptr < a + zlen bytes ∧ a < ptr + n) → mem_read ptr n (mem_write a bytes m) = mem_read ptr n m.
Proof.
  intros Hd. unfold mem_read. apply map_ext_in. intros x Hx%list_elem_of_In%elem_of_seqZ.
  apply mem_write_out. lia.
Qed.

(** Memory the literals are not in. *)
Definition clear_of (a n : Z) : Prop := ¬ (a ≤ newline < a + n) ∧ ¬ (erase < a + n ∧ a < erase + 3).

Lemma session_mem_other keys out g k a bytes :
  clear_of a (zlen bytes) → session keys out g k → session keys out g (set_mem (mem_write a bytes (k_mem k)) k).
Proof.
  intros [? ?] [Hi Ho Hw Hk Hks Hs Hl Ht Hn He]. split; try done; cbn [k_mem set_mem].
  all: rewrite mem_read_other; [done|]; lia.
Qed.

Lemma session_mem keys out g k c :
  placed → session keys out g k → session keys out g (set_mem (mem_write buf [c] (k_mem k)) k).
Proof.
  intros (_ & _ & _ & ? & ?). apply session_mem_other. split; rewrite zlen_cons, zlen_nil; lia.
Qed.

Lemma session_read c keys out g k :
  placed → session (c :: keys) out g k →
  ∃ k', read STDIN buf 1 k = Done (Some 1, k') ∧ session keys out g k' ∧ mem_read buf 1 (k_mem k') = [c].
Proof.
  intros Hpl Hse. pose proof (session_apart _ _ _ _ Hse) as Hne.
  pose proof Hse as [[off0 Hin] [off1 Hout] Hw Hk Hks Hs Hl Ht Hn He].
  destruct (stdin_read_call VirtAddr_new heap_fits create_mapper user_entry_trampoline mounts stdin stdout stderr
    STDIN l0 off0 buf (r10 k) k c keys) as (r & Hir & Hcr & E); try done; [destruct Hpl as [[? _] _]; lia|apply Hpl|].
  eexists. split.
  { change (read STDIN buf 1 k) with (come_back (dispatcher SYS_READ STDIN buf 1 (r10 k) k)). by rewrite E. }
  split; [|exact (mem_read_write buf [c] (k_mem k))].
  set (k1 := set_fds (set_offset l0 (off0 ⊞ 1) (k_fds k)) (put_devs (set_kbd r (k_devs k)) k)).
  apply (session_mem keys out g k1 c Hpl). split; try done.
  - exists (off0 ⊞ 1). exact (opened_offset k k1 STDIN l0 _ (off0 ⊞ 1) Hin eq_refl eq_refl).
  - exists off1. exact (opened_other k k1 STDOUT l1 l0 _ (off0 ⊞ 1) Hout (not_eq_sym Hne) eq_refl eq_refl).
Qed.

(** The scheduler and the files in memory are as before. *)
Definition undisturbed k k' : Prop := k_sched k' = k_sched k ∧ st_heap (k_store k') = st_heap (k_store k).

Lemma session_write ptr n text keys out g k :
  in_user_half ptr n → session keys out g k → mem_read ptr n (k_mem k) = text → Forall printable text →
  ∃ r k', write STDOUT ptr n k = Done (Some r, k') ∧
    session keys (out ++ text) (term_write cols_ rows_ text g) k' ∧ k_mem k' = k_mem k ∧ undisturbed k k'.
Proof.
  intros Hu Hse <- Hp. pose proof (session_apart _ _ _ _ Hse) as Hne.
  pose proof Hse as [[off0 Hin] [off1 Hout] Hw Hk Hks Hs Hl (t & Ht & Hsh & Hc & Hr) Hn He].
  set (text := mem_read ptr n (k_mem k)) in *.
  assert (ascii text) as Ha.
  { eapply Forall_impl; [exact Hp|]. intros c [[? ?]|[->| ->]]; lia. }
  destruct (stdout_write_call VirtAddr_new heap_fits create_mapper user_entry_trampoline mounts stdin stdout stderr
    STDOUT l1 off1 ptr n (r10 k) k t g) as (p' & t' & E & Hpr & El & Hs' & Hc' & Hr');
    try done; [destruct Hu; lia|destruct Hu; lia|by apply utf8_ascii|by rewrite chars_ascii|].
  fold text in El, Hs'. rewrite chars_ascii in Hs' by done.
  eexists (as_signed 64 n), _. split.
  { change (write STDOUT ptr n k) with
      ('(r, k) ← come_back (dispatcher SYS_WRITE STDOUT ptr n (r10 k) k);
       match r with Some a => Done (Some (as_signed 64 a), k) | None => Done (None, k) end). by rewrite E. }
  set (k1 := set_fds _ _). split; [|by split_and!]. split; try done.
  - exists off0. exact (opened_other k k1 STDIN l0 l1 _ (off1 ⊞ n) Hin Hne eq_refl eq_refl).
  - exists (off1 ⊞ n). exact (opened_offset k k1 STDOUT l1 _ (off1 ⊞ n) Hout eq_refl eq_refl).
  - simpl. by rewrite El, Hl.
  - exists t'. rewrite <-Hc, <-Hr. by split_and!.
Qed.

(** What a key does to the line, and what is echoed. *)
Definition is_erase (c : Z) : bool := (c =? 8) || (c =? 127).
Definition type_key (line : str) (c : Z) : str := if is_erase c then ztake (zlen line - 1) line else line ++ [c].
Definition echo_key (line : str) (c : Z) : str :=
  if is_erase c then (if bool_decide (line = []) then [] else [8; 32; 8]) else [c].
Fixpoint echo_keys (line : str) (typed : list Z) : str :=
  match typed with [] => [] | c :: typed => echo_key line c ++ echo_keys (type_key line c) typed end.

Definition typeable (c : Z) : Prop := 32 ≤ c ≤ 127 ∨ c = 8.

Lemma buffer_byte k c : mem_read buf 1 (k_mem k) = [c] → k_mem k buf = c.
Proof. unfold mem_read. change (seqZ buf 1) with [0 + buf]. simpl. by intros [= E]. Qed.

Lemma read_line_key c line keys out g k :
  placed → typeable c → session (c :: keys) out g k →
  ∃ k', read_line_turn buf newline erase (line, k) = Done (inl (type_key line c, k')) ∧
    session keys (out ++ echo_key line c) (term_write cols_ rows_ (echo_key line c) g) k'.
Proof.
  intros Hpl Hc Hse. destruct (session_read c keys out g k Hpl Hse) as (k1 & E1 & Hse1 & Hm).
  unfold read_line_turn. rewrite E1. cbn [mbind outcome_bind Z.eqb]. pose proof (buffer_byte _ _ Hm) as Hb.
  cbn [u_mem kernel_User]. rewrite Hb. unfold echo_key, type_key. fold (is_erase c).
  destruct Hpl as (Hu & _ & Hue & _).
  assert ((c =? 13) || (c =? 10) = false) as -> by (unfold typeable in Hc; lia).
  destruct (is_erase c) eqn:Her.
  - case_bool_decide as Hl; [subst line; exists k1; by rewrite app_nil_r|].
    destruct (session_write erase 3 [8; 32; 8] keys out g k1 Hue Hse1) as (r & k2 & -> & Hse2 & _);
      [apply Hse1|repeat constructor; unfold printable, showable; lia|]. by exists k2.
  - destruct (session_write buf 1 [c] keys out g k1 Hu Hse1 Hm) as (r & k2 & -> & Hse2 & _).
    { constructor; [|constructor]. left. unfold typeable, is_erase, showable in *. lia. }
    cbn [mbind outcome_bind]. rewrite utf8_ascii by (constructor; [unfold typeable in Hc; lia|constructor]). by exists k2.
Qed.

Lemma read_line_enter e line keys out g k :
  placed → e = 13 ∨ e = 10 → session (e :: keys) out g k →
  ∃ k', read_line_turn buf newline erase (line, k) = Done (inr (Some (Some line), k')) ∧
    session keys (out ++ [10]) (term_write cols_ rows_ [10] g) k'.
Proof.
  intros Hpl He Hse. destruct (session_read e keys out g k Hpl Hse) as (k1 & E1 & Hse1 & Hm).
  unfold read_line_turn. rewrite E1. cbn [mbind outcome_bind Z.eqb]. pose proof (buffer_byte _ _ Hm) as Hb.
  cbn [u_mem kernel_User]. rewrite Hb. destruct Hpl as (_ & Hu & _ & _).
  assert ((e =? 13) || (e =? 10) = true) as -> by lia.
  destruct (session_write newline 1 [10] keys out g k1 Hu Hse1) as (r & k2 & -> & Hse2 & _);
    [apply Hse1|constructor; [right; by left|constructor]|]. by exists k2.
Qed.

Lemma read_line_keys typed e line rest out g k :
  placed → Forall typeable typed → e = 13 ∨ e = 10 → session (typed ++ e :: rest) out g k →
  ∃ k', turns (S (length typed)) (read_line_turn buf newline erase) (line, k) =
      Done (inr (Some (Some (fold_left type_key typed line)), k')) ∧
    session rest (out ++ echo_keys line typed ++ [10]) (term_write cols_ rows_ (echo_keys line typed ++ [10]) g) k'.
Proof.
  intros Hpl Hty He. revert line out g k. induction Hty as [|c typed Hc _ IH]; intros line out g k Hse.
  - destruct (read_line_enter e line rest out g k Hpl He Hse) as (k' & E & Hse'). exists k'. split; [|done].
    cbn [length turns]. by rewrite E.
  - destruct (read_line_key c line (typed ++ e :: rest) out g k Hpl Hc Hse) as (k1 & E & Hse1).
    destruct (IH (type_key line c) _ _ k1 Hse1) as (k' & E' & Hse'). exists k'.
    cbn [length]. cbn [turns]. rewrite E. cbn [mbind outcome_bind]. split; [exact E'|].
    cbn [echo_keys]. rewrite <-!(assoc_L (++)) in *. unfold term_write in *. by rewrite (foldl_app _ (echo_key line c)).
Qed.

(** C24: a program reads the line that was typed.  On a kernel whose descriptors 0
    and 1 are the terminal and that has no wake-up outstanding, with a line of printable characters, erasures and
    Enter typed ahead, [read_line] returns the text without what was erased,
    leaves the keys behind it, and echoes every key: the same bytes on the serial
    line and, as a terminal shows them, on the screen. *)
Theorem typed_line_is_read typed e rest out g k :
  placed → Forall typeable typed → e = 13 ∨ e = 10 → session (typed ++ e :: rest) out g k →
  ∃ k', read_line buf newline erase k = Done (Some (Some (fold_left type_key typed [])), k') ∧
    session rest (out ++ echo_keys [] typed ++ [10]) (term_write cols_ rows_ (echo_keys [] typed ++ [10]) g) k'.
Proof.
  intros Hpl Hty He Hse. pose proof (session_mem _ _ _ _ 0 Hpl Hse) as Hse0.
  destruct (read_line_keys typed e [] rest out g _ Hpl Hty He Hse0) as (k' & E & Hse'). exists k'. split; [|done].
  unfold read_line. eapply loop_end_turns; [exact E|].
  pose proof (zlen_rb_contents (d_kbd (k_devs k))) as Hz. rewrite (se_keys _ _ _ _ Hse), zlen_app, zlen_cons in Hz.
  pose proof (Z.mod_pos_bound (rb_head (d_kbd (k_devs k)) - rb_tail (d_kbd (k_devs k))) BUF_SIZE ltac:(done)).
  pose proof (zlen_nonneg rest). unfold rb_size, BUF_SIZE, zlen, SPIN_TURNS in *. lia.
Qed.

(** Tab, which the keyboard's table has, is echoed too: the kernel panics. *)
Lemma typed_tab_panics line rest out g k :
  placed → session (9 :: rest) out g k → read_line_turn buf newline erase (line, k) = Panic.
Proof.
  intros Hpl Hse. destruct (session_read 9 rest out g k Hpl Hse) as (k1 & E1 & Hse1 & Hm).
  unfold read_line_turn. rewrite E1. cbn [mbind outcome_bind Z.eqb]. pose proof (buffer_byte _ _ Hm) as Hb.
  cbn [u_mem kernel_User]. rewrite Hb. cbn [Z.eqb Pos.eqb orb].
  assert (write STDOUT buf 1 k1 = Panic) as ->; [|done].
  change (write STDOUT buf 1 k1) with
    ('(r, k) ← come_back (sys_write STDOUT buf 1 k1);
     match r with Some a => Done (Some (as_signed 64 a), k) | None => Done (None, k) end).
  destruct Hse1 as [_ [off1 [Hg Hf]] _ _ _ Hs _ (t & Ht & Hsh & _) _ _]. unfold sys_write.
  rewrite accessible_in_half by (apply Hpl || (destruct Hpl as ([? _] & _); lia)).
  rewrite Hg, Hf. cbn [negb unwrap mbind outcome_bind of_inode of_offset inode_write ram_INode ram_write].
  unfold on_dev. cbn [inode_write dev_INode dev_write]. rewrite Hm. unfold StdoutINode_write. cbn [utf8_valid Z.ltb].
  destruct (serial_print_spec [9] _ Hs) as (p' & E & _). unfold k_devs in E. rewrite E. cbn [mbind outcome_bind].
  unfold console_print, k_devs in *. rewrite Ht. unfold Tty_write_str.
  rewrite (Tty_write_chars_panic t g) by (done || (intros Hf'; apply Forall_inv in Hf' as [[? ?]|[?|?]]; lia)). done.
Qed.

(* ------------------------------------------------------------------ *)
(** ** Numbers *)

(** The bytes of an array, the last one first. *)
Lemma print_digits_session arr l keys out g k :
  in_user_half arr 20 → zlen l ≤ 20 → mem_read arr (zlen l) (k_mem k) = l → Forall showable l →
  session keys out g k →
  ∃ k', print_digits arr (length l) k = Done (Some (), k') ∧
    session keys (out ++ reverse l) (term_write cols_ rows_ (reverse l) g) k' ∧ k_mem k' = k_mem k ∧ undisturbed k k'.
Proof.
  intros Hu. revert out g k. induction l as [|d l IH] using rev_ind; intros out g k Hlen Hm Hsh Hse.
  { exists k. rewrite app_nil_r. by split_and!. }
  rewrite zlen_app, zlen_cons, zlen_nil in *. pose proof (zlen_nonneg l).
  assert (mem_read arr (zlen l) (k_mem k) = l ∧ mem_read (arr + zlen l) 1 (k_mem k) = [d]) as [Hml Hmd].
  { unfold mem_read in *. rewrite seqZ_app, map_app in Hm by lia. apply app_inj_1 in Hm as [? ?]; [done|].
    rewrite length_map, length_seqZ. unfold zlen. lia. }
  apply Forall_app in Hsh as [Hsl Hsd]. rewrite length_app, Nat.add_1_r. cbn [print_digits]. unfold ubind.
  fold (zlen l). destruct (session_write (arr + zlen l) 1 [d] keys out g k) as (r & k1 & -> & Hse1 & Em & Hu1).
  { destruct Hu as (? & ? & ?). split_and!; lia. }
  { done. } { done. } { apply Forall_inv in Hsd. constructor; [by left|constructor]. }
  cbn [mbind outcome_bind]. destruct (IH (out ++ [d]) (term_write cols_ rows_ [d] g) k1) as (k' & E & Hse' & Em' & Hu');
    [lia|by rewrite Em|done|done|].
  exists k'. rewrite reverse_snoc. split; [exact E|]. rewrite <-(assoc_L (++)) in Hse'. split; [exact Hse'|].
  split; [congruence|]. destruct Hu1, Hu'. split; congruence.
Qed.

(** Numbers print as their decimal digits.  For every 64-bit value, at a
    terminal, [print_u64] stays within its array of 20 bytes, and what appears
    is a string of digits without a leading zero (but for 0 itself) whose value
    is the number. *)
Theorem print_u64_decimal zero arr val keys out g k :
  in_user_half zero 1 → mem_read zero 1 (k_mem k) = [48] → in_user_half arr 20 → clear_of arr 20 →
  is_uint 64 val → session keys out g k →
  ∃ k', print_u64 zero arr val k = Done (Some (), k') ∧
    session keys (out ++ decimal val) (term_write cols_ rows_ (decimal val) g) k' ∧
    (∀ a n, ¬ (a < arr + 20 ∧ arr < a + n) → mem_read a n (k_mem k') = mem_read a n (k_mem k)) ∧ undisturbed k k' ∧
    number (decimal val) = val ∧ (val ≠ 0 → head (decimal val) ≠ Some 48) ∧ zlen (decimal val) ≤ 20.
Proof.
  intros Hz Hmz Hu Hcl Hv Hse. unfold print_u64, decimal. destruct (Z.eqb_spec val 0) as [->|Hne].
  { destruct (session_write zero 1 [48] keys out g k Hz Hse Hmz) as (r & k1 & E & Hse1 & Em & Hu1).
    { constructor; [left; unfold showable; lia|constructor]. }
    unfold ubind. rewrite E. exists k1. rewrite Em. by split_and!. }
  assert (0 ≤ val < 10 ^ Z.of_nat 20) as Hb by (unfold is_uint in Hv; simpl; lia).
  destruct (digs_spec 20 val Hb) as (Hn & Hf & Hl & Hh). set (ds := digs 20 val) in *.
  destruct (digit_turns 20 val 0 (zrep 20 0) Hb) as (digits & E & Hz' & Ht); [lia|lia|done|].
  fold ds in E, Ht. rewrite Z.add_0_l in E, Ht. change (ztake 0 (zrep 20 0)) with (@nil Z) in Ht. simpl in Ht.
  rewrite (loop_end_turns DIGIT_TURNS 21 _ _ _ E) by (unfold DIGIT_TURNS; lia). cbn [mbind outcome_bind].
  set (k0 := u_put _ k).
  assert (session keys out g k0) as Hse0 by (apply session_mem_other; [by rewrite Hz'|done]).
  pose proof (zlen_nonneg ds). assert (zlen (reverse ds) = zlen ds) as Hzr by (unfold zlen; by rewrite length_reverse).
  destruct (print_digits_session arr (reverse ds) keys out g k0 Hu) as (k' & Ep & Hse' & Em & Hu'); [lia| | |done|].
  - rewrite <-Ht at 2. change (k_mem k0) with (mem_write arr digits (k_mem k)).
    rewrite <-(take_drop (Z.to_nat (zlen ds)) digits) at 1. fold (ztake (zlen ds) digits).
    replace (zlen (reverse ds)) with (zlen (ztake (zlen ds) digits)) by (rewrite zlen_ztake; lia).
    apply mem_read_write_prefix.
  - apply Forall_reverse. eapply Forall_impl; [exact Hf|]. unfold showable. simpl. lia.
  - exists k'. rewrite reverse_involutive in Hse'.
    assert (∀ a n, ¬ (a < arr + 20 ∧ arr < a + n) → mem_read a n (k_mem k') = mem_read a n (k_mem k)) as Hkeep.
    { intros a n Hd. rewrite Em. apply mem_read_other. rewrite Hz'. lia. }
    split; [|by split_and!]. rewrite <-Ep. f_equal. rewrite length_reverse. unfold zlen. lia.
Qed.

(** Formatted text appears as the concatenation of its pieces, in order. *)
Lemma print_session pieces texts keys out g k :
  Forall2 (λ p t, in_user_half p.1 p.2 ∧ mem_read p.1 p.2 (k_mem k) = t ∧ Forall printable t) pieces texts →
  session keys out g k →
  ∃ k', _print pieces k = Done (Some (), k') ∧
    session keys (out ++ concat texts) (term_write cols_ rows_ (concat texts) g) k' ∧ k_mem k' = k_mem k ∧ undisturbed k k'.
Proof.
  intros Hp. remember (k_mem k) as m eqn:Em. revert out g k Em.
  induction Hp as [|[a n] t pieces texts (Hu & Hm & Ht) _ IH]; intros out g k Em Hse.
  { exists k. rewrite app_nil_r. by split_and!. }
  cbn [_print concat fst snd] in *. subst m.
  destruct (session_write a n t keys out g k Hu Hse Hm Ht) as (r & k1 & E & Hse1 & Em1 & [Hs1 Hh1]).
  destruct (IH _ _ k1 (eq_sym Em1) Hse1) as (k' & E' & Hse' & Em' & [Hs' Hh']).
  exists k'. split; [unfold ubind; by rewrite E|]. rewrite (assoc_L (++)). unfold term_write in *. rewrite foldl_app.
  split; [done|]. split; [congruence|]. split; congruence.
Qed.
End session.
End kernel.

(* ------------------------------------------------------------------ *)
(** ** The heap: lemmas *)

(** Masking with [!(2^n - 1)]. *)
Lemma mask_up n x :
  0 ≤ n < 64 → is_uint 64 x → Z.land x (wrap 64 (Z.lnot (2 ^ n - 1))) = (x ≫ n) ≪ n.
Proof.
  intros Hn Hx. apply Z.bits_inj'. intros i Hi. rewrite Z.land_spec, Z.shiftl_spec by done.
  replace (2 ^ n - 1) with (Z.ones n) by (rewrite Z.ones_equiv; lia).
  destruct (Z.lt_ge_cases i 64).
  - unfold wrap. rewrite Z.mod_pow2_bits_low, Z.lnot_spec by lia.
    destruct (Z.lt_ge_cases i n).
    + rewrite Z.ones_spec_low, (Z.testbit_neg_r _ (i - n)) by lia. apply andb_false_r.
    + rewrite Z.ones_spec_high, Z.shiftr_spec by lia. rewrite andb_true_r. f_equal. lia.
  - unfold wrap. rewrite Z.mod_pow2_bits_high, andb_false_r by lia. rewrite Z.shiftr_spec by lia.
    replace (i - n + n) with i by lia. symmetry. rewrite <-(Z.mod_small x (2 ^ 64)) by done.
    apply Z.mod_pow2_bits_high. lia.
Qed.

(** What Rust guarantees of a [Layout]. *)
Record alloc_layout (l : Z * Z) : Prop := {
  lo_align : ∃ n, 0 ≤ n < 63 ∧ l.1 = 2 ^ n;
  lo_size : 0 ≤ l.2 ≤ 2 ^ 63 - l.1;
}.

Definition bump_start (pos align : Z) : Z := align_up (Z.log2 align) pos.

Lemma bump_alloc_spec align size pos :
  alloc_layout (align, size) → 0 ≤ pos ≤ ULIB_HEAP_SIZE →
  let a := bump_start pos align in
  pos ≤ a < pos + align ∧ (align | a) ∧
  bump_alloc align size pos =
    Done (if ULIB_HEAP_SIZE <? a + size then (None, pos) else (Some a, a + size)).
Proof.
  intros [(n & Hn & Ha) Hs] Hp a. simpl in Ha, Hs. subst align. subst a. unfold bump_start.
  rewrite Z.log2_pow2 by lia. destruct (align_up_spec n pos) as [Hr Hm]; [lia|].
  assert (1 ≤ 2 ^ n ≤ 2 ^ 62) as Hb.
  { split; [pose proof (Z.pow_pos_nonneg 2 n); lia|apply Z.pow_le_mono_r; lia]. }
  split; [done|]. split; [apply Z.mod_divide; [lia|done]|].
  unfold ULIB_HEAP_SIZE in *. eapply (loop_end_turns _ 1); [|unfold SPIN_TURNS; lia].
  cbn [turns]. unfold bump_turn.
  rewrite (wrap_small 64 (pos + 2 ^ n)), (wrap_small 64 (2 ^ n - 1)), (wrap_small 64 (pos + 2 ^ n - 1)) by (split; lia).
  rewrite mask_up by (lia || split; lia).
  replace (((pos + 2 ^ n - 1) ≫ n) ≪ n) with (align_up n pos) by (unfold align_up; do 3 f_equal; lia).
  rewrite wrap_small by (split; lia). rewrite Z.eqb_refl. by destruct (_ <? _).
Qed.

Lemma bump_start_mono pos pos' align : alloc_layout (align, 0) → pos ≤ pos' → bump_start pos align ≤ bump_start pos' align.
Proof.
  intros [(n & Hn & Ha) _] Hp. simpl in Ha. subst align. unfold bump_start. rewrite Z.log2_pow2, !align_up_mul by lia.
  pose proof (Z.pow_pos_nonneg 2 n). apply Z.mul_le_mono_nonneg_l; [lia|]. apply Z.div_le_mono; lia.
Qed.

Lemma align_in_memory align size a base :
  alloc_layout (align, size) → (align | a) → (16 | base) → align ≤ 16 → (align | base + a).
Proof.
  intros [(n & Hn & Ha) _] Hd Hb Hle. simpl in Ha. subst align. apply Z.divide_add_r; [|done].
  etrans; [|exact Hb]. change 16 with (2 ^ 4) in *. apply Z.pow_le_mono_r_iff in Hle; [|lia..].
  exists (2 ^ (4 - n)). rewrite <-Z.pow_add_r by lia. f_equal. lia.
Qed.

(** Requests one after the other. *)
Fixpoint bump_allocs (reqs : list (Z * Z)) (pos : Z) : outcome (list (option Z) * Z) :=
  match reqs with
  | [] => Done ([], pos)
  | (align, size) :: reqs =>
      '(r, pos) ← bump_alloc align size pos;
      '(rs, pos) ← bump_allocs reqs pos;
      Done (r :: rs, pos)
  end.

(** C38: the heap of a program gives out sound blocks.  For every sequence of
    requests (alignment and size as Rust guarantees them) nothing overflows;
    each request that is granted gets a block inside the 64 KiB, aligned as
    asked within the array and, for alignments up to 16, in memory; blocks of
    different requests do not overlap; a request is refused only when the
    rest of the array is too small for it. *)
Theorem heap_blocks_sound reqs pos :
  Forall alloc_layout reqs → 0 ≤ pos ≤ ULIB_HEAP_SIZE →
  ∃ rs pos', bump_allocs reqs pos = Done (rs, pos') ∧ pos ≤ pos' ≤ ULIB_HEAP_SIZE ∧ length rs = length reqs ∧
    (∀ i align size a, reqs !! i = Some (align, size) → rs !! i = Some (Some a) →
       pos ≤ a ∧ a + size ≤ pos' ∧ (align | a) ∧ ∀ base, (16 | base) → align ≤ 16 → (align | base + a)) ∧
    (∀ i j align size align' size' a b, (i < j)%nat → reqs !! i = Some (align, size) → rs !! i = Some (Some a) →
       reqs !! j = Some (align', size') → rs !! j = Some (Some b) → a + size ≤ b) ∧
    (∀ i align size, reqs !! i = Some (align, size) → rs !! i = Some None →
       ULIB_HEAP_SIZE < bump_start pos' align + size).
Proof.
  intros Hr. revert pos. induction Hr as [|[align size] reqs Hl _ IH]; intros pos Hp.
  { exists [], pos. split_and!; [done|lia|lia|done|..]; intros *; rewrite ?lookup_nil; by intros. }
  destruct (bump_alloc_spec align size pos Hl Hp) as (Ha & Hd & E). set (a := bump_start pos align) in *.
  pose proof (lo_size _ Hl) as Hs. simpl in Hs.
  destruct (Z.ltb_spec ULIB_HEAP_SIZE (a + size)) as [Hfull|Hfits].
  - destruct (IH pos Hp) as (rs & pos' & Er & Hp' & Hlen & Hblk & Hdis & Hno).
    exists (None :: rs), pos'. cbn [bump_allocs]. rewrite E. cbn [mbind outcome_bind]. rewrite Er.
    split_and!; [done|lia|lia|simpl; congruence|..].
    + intros [|i] al sz b Hi Hb; [done|]. by eapply Hblk.
    + intros [|i] [|j] al sz al' sz' b b' Hij ????; [lia|done|lia|]. eapply (Hdis i j); [lia|done..].
    + intros [|i] al sz Hi Hb; [|by eapply Hno]. injection Hi as <- <-.
      pose proof (bump_start_mono pos pos' align) as Hm. fold a in Hm.
      assert (alloc_layout (align, 0)) by (destruct Hl; split; simpl in *; [done|lia]). specialize (Hm ltac:(done)). lia.
  - destruct (IH (a + size)) as (rs & pos' & Er & Hp' & Hlen & Hblk & Hdis & Hno); [lia|].
    exists (Some a :: rs), pos'. cbn [bump_allocs]. rewrite E. cbn [mbind outcome_bind]. rewrite Er.
    split_and!; [done|lia|lia|simpl; congruence|..].
    + intros [|i] al sz b Hi Hb.
      * injection Hi as <- <-. injection Hb as <-. split_and!; [lia|lia|done|]. intros base. by eapply align_in_memory.
      * destruct (Hblk i al sz b Hi Hb) as (? & ? & ? & ?). split_and!; [lia|done..].
    + intros [|i] [|j] al sz al' sz' b b' Hij Hi Hb Hj Hb'; [lia| |lia|].
      * injection Hi as <- <-. injection Hb as <-. by destruct (Hblk j al' sz' b' Hj Hb') as [? _].
      * eapply (Hdis i j); [lia|done..].
    + intros [|i] al sz Hi Hb; [done|]. by eapply Hno.
Qed.

Lemma heap_blocks_sound_witness :
  ∃ rs pos', bump_allocs [(8, 3); (16, 40000); (1, 30000); (4, 4)] 0 = Done (rs, pos') ∧
    rs = [Some 0; Some 16; None; Some 40016] ∧ pos' = 40020.
Proof.
  destruct (heap_blocks_sound [(8, 3); (16, 40000); (1, 30000); (4, 4)] 0) as (rs & pos' & E & _).
  - repeat (apply Forall_cons_2 || apply Forall_nil_2).
    + split; [by exists 3|done].
    + split; [by exists 4|done].
    + split; [by exists 0|done].
    + split; [by exists 2|done].
  - done.
  - exists rs, pos'. split; [exact E|]. vm_compute in E. by injection E as <- <-.
Defined.

(** The array itself is aligned to 16 bytes only: the first block of a request
    for 32 need not be aligned in memory. *)
Example heap_block_misaligned : bump_alloc 32 8 0 = Done (Some 0, 8) ∧ (16 | 48) ∧ ¬ (32 | 48 + 0).
Proof.
  split_and!; [vm_compute; reflexivity|by exists 3|]. intros Hd. apply Z.mod_divide in Hd; [|done]. by vm_compute in Hd.
Qed.
