(* ===== verification/UlibSample.v ===== *)
(** * A program at the terminal of a concrete kernel

    The kernel of KernelSample.v with a task whose first two descriptors are
    the standard streams, keys typed ahead, and the literals of a program in
    memory: the theorems about the user library are applied to it. *)

From S2P Require Import Prelude Pipe Keyboard Task Sched Ipc Vfs RamFs Fd.
From S2P Require Import Console Serial Memory Loader Process Executor Syscall Devices KernelFiles KernelSample Ulib.

(** [h], [i], [x], backspace and Enter. *)
Definition typed_ring : RingBuffer := mkRingBuffer ([104; 105; 120; 8; 10] ++ zrep 123 0) 5 0.

Definition session_devs : devs uart_model := set_kbd typed_ring sample_devs.

Definition session_fds : fds (node dev) :=
  mkFds {[(7, 0) := 0%nat; (7, 1) := 1%nat]}
    {[0%nat := mkOpenFile (Dev Stdin) 0; 1%nat := mkOpenFile (Dev Stdout) 0]} 3.

(** The literals: a newline at 4096, the erasing bytes behind it, a zero at 5000. *)
Definition session_mem_image : umem := λ a,
  if a =? 4096 then 10 else if a =? 4097 then 8 else if a =? 4098 then 32 else if a =? 4099 then 8
  else if a =? 5000 then 48 else 0.

Definition session_kernel : kernel (gmap Z Z) (node dev) (store dev (devs uart_model)) unit :=
  mkKernel (mkProcSys (mkStore sample_ram session_devs) session_fds sample_sched None ∅ ∅ ∅ KSTACK_VA_START)
    sample_ipc None session_mem_image.

Lemma session_start : session 0%nat 1%nat 1 1 4096 4097 [104; 105; 120; 8; 10] [] (term_blank 1 1) session_kernel.
Proof.
  split.
  - exists 0. by split.
  - exists 0. by split.
  - reflexivity.
  - split; [vm_compute; reflexivity|done|done].
  - vm_compute. reflexivity.
  - split; [reflexivity|by split].
  - reflexivity.
  - exists sample_tty. split; [reflexivity|]. split; [exact sample_shows|done].
  - reflexivity.
  - reflexivity.
Qed.

Definition no_block (p : pending) (k : kernel (gmap Z Z) (node dev) (store dev (devs uart_model)) unit)
    : outcome (option Z * kernel (gmap Z Z) (node dev) (store dev (devs uart_model)) unit) := Done (None, k).

Lemma typed_line_is_read_witness :
  ∃ k', read_line (H := kernel_User demo_VirtAddr_new (λ n, n <? 2 ^ 20) (λ _ _, ∅) 0xFFFFFFFF80001000
          [mkMountEntry [SLASH] (Ram 0%nat)] (Dev Stdin) (Dev Stdout) (Dev Stderr) no_block
          (λ _, 1) (λ _, 2) (λ _, 3) (λ _, 4)) 6000 4096 4097 session_kernel
      = Done (Some (Some [104; 105]), k') ∧
    session 0%nat 1%nat 1 1 4096 4097 [] [104; 105; 120; 8; 32; 8; 10]
      (term_write 1 1 [104; 105; 120; 8; 32; 8; 10] (term_blank 1 1)) k'.
Proof.
  apply (typed_line_is_read demo_VirtAddr_new (λ n, n <? 2 ^ 20) (λ _ _, ∅) 0xFFFFFFFF80001000
    [mkMountEntry [SLASH] (Ram 0%nat)] (Dev Stdin) (Dev Stdout) (Dev Stderr) no_block
    (λ _, 1) (λ _, 2) (λ _, 3) (λ _, 4) 0%nat 1%nat 1 1 6000 4096 4097 [104; 105; 120; 8] 10 [] []).
  - unfold placed, in_user_half. lia.
  - repeat constructor; unfold typeable; lia.
  - lia.
  - exact session_start.
Defined.

Lemma print_u64_decimal_witness :
  ∃ k', print_u64 (H := kernel_User demo_VirtAddr_new (λ n, n <? 2 ^ 20) (λ _ _, ∅) 0xFFFFFFFF80001000
          [mkMountEntry [SLASH] (Ram 0%nat)] (Dev Stdin) (Dev Stdout) (Dev Stderr) no_block
          (λ _, 1) (λ _, 2) (λ _, 3) (λ _, 4)) 5000 7000 1205 session_kernel = Done (Some (), k') ∧
    line (uart (d_serial (k_devs k'))) = [49; 50; 48; 53].
Proof.
  destruct (print_u64_decimal demo_VirtAddr_new (λ n, n <? 2 ^ 20) (λ _ _, ∅) 0xFFFFFFFF80001000
    [mkMountEntry [SLASH] (Ram 0%nat)] (Dev Stdin) (Dev Stdout) (Dev Stderr) no_block
    (λ _, 1) (λ _, 2) (λ _, 3) (λ _, 4) 0%nat 1%nat 1 1 4096 4097 5000 7000 1205
    [104; 105; 120; 8; 10] [] (term_blank 1 1) session_kernel) as (k' & E & Hse & _).
  - unfold in_user_half. lia.
  - reflexivity.
  - unfold in_user_half. lia.
  - unfold clear_of. lia.
  - split; lia.
  - exact session_start.
  - exists k'. split; [exact E|]. exact (se_line _ _ _ _ _ _ _ _ _ _ Hse).
Defined.
