(* ===== verification/Boot.v ===== *)
(** * Boot (kernel/src/main.rs: _start)

    The steps of [_start] that build kernel state: the usable frames of the boot
    loader's memory map are put in [BOOT_FRAMES]; device registers are mapped;
    the file system gets its root, [/dev] and the disk's node; the scheduler
    gets its boot placeholder and the kernel shell.

    Shown here: the frame allocator starts with distinct whole frames of usable
    memory, which is what the theorems about memory assume; the mapping of
    registers changes no page outside the range; [/dev/sda] resolves
    to the disk; and after ten ticks of the timer the shell runs on its own
    stack. *)

From S2P Require Import Prelude Task Sched Vfs RamFs Fd Memory Loader Process KShell.

(* ------------------------------------------------------------------ *)
(** ** Frames *)

(** [for frame in range]: the array and [frame_count]. *)
Fixpoint fill_frames (frames : list Z) (st : list (option Z) * Z) : outcome (list (option Z) * Z) :=
  match frames with
  | [] => Done st
  | frame :: frames =>
      let '(boot_frames, frame_count) := st in
      if MAX_BOOT_FRAMES <=? frame_count then Done st
      else
        boot_frames ← upd boot_frames frame_count (Some frame);
        fill_frames frames (boot_frames, frame_count + 1)
  end.

(** [for region in entries], the usable ones. *)
Fixpoint fill_regions (entries : list region) (st : list (option Z) * Z) : outcome (list (option Z) * Z) :=
  match entries with
  | [] => Done st
  | r :: entries =>
      st ← fill_frames (region_frames r) st;
      if MAX_BOOT_FRAMES <=? st.2 then Done st else fill_regions entries st
  end.

(** [BOOT_FRAMES] starts empty. *)
Definition seed_frames (entries : list region) : outcome falloc :=
  '(boot_frames, frame_count) ←
    fill_regions (filter (λ r, rg_usable r = true) entries) (zrep MAX_BOOT_FRAMES None, 0);
  Done (StaticBootFrameAllocator_new boot_frames frame_count).

(* ------------------------------------------------------------------ *)
(** ** Device registers *)

Definition FLAG_NO_CACHE : Z := 16.
Definition MMIO_FLAGS : Z := Z.lor FLAG_PRESENT (Z.lor FLAG_WRITABLE FLAG_NO_CACHE).

Section mmio.
Context {PT : Type} `{Mapper PT}.

(** The result of [map_to] is ignored. *)
Definition map_mmio (phys_addr virt_addr : Z) (st : PT * falloc) : PT * falloc :=
  let '(_, fa, t) := map_to (containing virt_addr) (containing phys_addr) MMIO_FLAGS st.2 st.1 in (t, fa).

Definition map_mmio_frame (phys_start virt_start : Z) (st : PT * falloc) (frame : Z) : PT * falloc :=
  let offset := frame ⊟ phys_start in
  let '(_, fa, t) := map_to (containing (virt_start ⊞ offset)) frame MMIO_FLAGS st.2 st.1 in (t, fa).

Definition map_mmio_range (phys_start virt_start size : Z) (st : PT * falloc) : PT * falloc :=
  fold_left (map_mmio_frame phys_start virt_start)
    (range_inclusive (containing phys_start) (containing (phys_start ⊞ size ⊟ 1))) st.
End mmio.

(* ------------------------------------------------------------------ *)
(** ** The file system *)

Section vfs.
Context {D SD : Type} `{INode D SD}.

(** [/] and [/dev/], and the disk's node in it. *)
Definition boot_vfs (sda : D) (s : store D SD) : outcome (list (MountEntry (node D)) * store D SD) :=
  let '(root, s) := alloc (RamDir_new [SLASH]) s in
  let mounts := mount [SLASH] (Ram root) [] in
  let '(dev, s) := alloc (RamDir_new (lit "dev")) s in
  let mounts := mount (lit "/dev/") (Ram dev) mounts in
  '(dev_dir, s) ← lookup_path mounts (lit "/dev/") s;
  match dev_dir with
  | Some d => '(_, s) ← inode_insert d (lit "sda") (Dev sda) s; Done (mounts, s)
  | None => Done (mounts, s)
  end.
End vfs.

(* ------------------------------------------------------------------ *)
(** ** The scheduler *)

(** The hook that installs the kernel stack of the task switched to. *)
Definition register_switch_hook (s : sched) : sched :=
  mkSched (s_heap s) (s_rq s) (s_current_task s) (s_next_id s) true (s_kstack s) (s_cpu s).

(** The run queue, the region of kernel stacks, the placeholder as the current
    task, and the shell; a failure to spawn it is reported and ignored. *)
Definition boot_tasks {PT} `{Mapper PT} (kshell_task next : Z) (pa : option (PageAllocator PT)) (s : sched)
    : outcome (result Z * Z * option (PageAllocator PT) * sched) :=
  let s := init (register_switch_hook s) in
  '(r, next, pa) ← init_kstack_region next pa;
  _ ← unwrap r;
  s ← seed_boot (fresh (dom (s_heap s))) s;
  spawn_kshell kshell_task next pa s.

(** Timer interrupts one after the other. *)
Fixpoint ticks (n : nat) (tick_count : Z) (s : sched) : outcome (Z * sched) :=
  match n with
  | O => Done (tick_count, s)
  | S n => '(tick_count, s) ← timer_interrupt_handler tick_count s; ticks n tick_count s
  end.

#[global] Arguments ticks : simpl never.

(* ------------------------------------------------------------------ *)
(** ** Frames: lemmas *)

(** The array holds [done] so far. *)
Definition filled (done : list Z) (st : list (option Z) * Z) : Prop :=
  zlen st.1 = MAX_BOOT_FRAMES ∧ st.2 = zlen done ∧ st.2 ≤ MAX_BOOT_FRAMES ∧ ztake st.2 st.1 = Some <$> done.

Lemma take_take_app {A} n (a b : list A) : take n (take n a ++ b) = take n (a ++ b).
Proof. rewrite !take_app, length_take, take_take, Nat.min_id. f_equal. f_equal. lia. Qed.

Section fill.
Context (MAX : nat) (HMAX : Z.of_nat MAX = MAX_BOOT_FRAMES).

Lemma fill_frames_filled frames done st :
  filled done st → ∃ st', fill_frames frames st = Done st' ∧ filled (take MAX (done ++ frames)) st'.
Proof.
  revert done st. induction frames as [|f frames IH]; intros done [bf c] Hf; pose proof Hf as (Hz & Hc & Hm & Ht); simpl in *.
  { exists (bf, c). split; [done|]. rewrite app_nil_r, take_ge; [done|]. unfold zlen in *. lia. }
  destruct (Z.leb_spec MAX_BOOT_FRAMES c).
  { exists (bf, c). split; [done|]. rewrite take_app_le, take_ge; [done|..]; unfold zlen in *; lia. }
  pose proof (zlen_nonneg done). rewrite upd_Done by lia. cbn [mbind outcome_bind].
  destruct (IH (done ++ [f]) (zset bf c (Some f), c + 1)) as (st' & E & Hf').
  { split_and!; simpl; [by rewrite zlen_zset|rewrite zlen_app, Hc; done|lia|].
    rewrite ztake_zset_snoc, Ht, fmap_app by lia. done. }
  exists st'. split; [exact E|]. by rewrite <-(assoc_L (++)) in Hf'.
Qed.

Lemma fill_regions_filled rs done st :
  filled done st →
  ∃ st', fill_regions rs st = Done st' ∧ filled (take MAX (done ++ concat (region_frames <$> rs))) st'.
Proof.
  revert done st. induction rs as [|r rs IH]; intros done st Hf; cbn [fill_regions].
  { exists st. split; [done|]. simpl. rewrite app_nil_r, take_ge; [done|].
    destruct Hf as (_ & ? & ? & _). unfold zlen in *. lia. }
  destruct (fill_frames_filled (region_frames r) done st Hf) as (st1 & -> & Hf1). cbn [mbind outcome_bind].
  destruct (Z.leb_spec MAX_BOOT_FRAMES st1.2) as [Hfull|Hroom].
  - exists st1. split; [done|]. destruct Hf1 as (? & Hc & ? & Ht). cbn [fmap list_fmap map concat].
    rewrite (assoc_L (++)). split_and!; try done.
    all: rewrite take_app_le; [done|]; unfold zlen in Hc; rewrite length_take in Hc; lia.
  - destruct (IH _ st1 Hf1) as (st' & E & Hf'). exists st'. split; [exact E|].
    cbn [fmap list_fmap map concat]. by rewrite (assoc_L (++)), <-take_take_app.
Qed.

End fill.

(** What the boot protocol promises of usable regions. *)
Record usable_ok (r : region) : Prop := {
  us_base : 0 ≤ rg_base r ∧ (PAGE_SIZE | rg_base r);
  us_length : 0 < rg_length r ∧ (PAGE_SIZE | rg_length r);
  us_end : rg_base r + rg_length r ≤ 2 ^ 52;
}.

Definition apart (r r' : region) : Prop :=
  rg_base r + rg_length r ≤ rg_base r' ∨ rg_base r' + rg_length r' ≤ rg_base r.

Lemma region_frames_elem r f :
  usable_ok r → f ∈ region_frames r ↔ (PAGE_SIZE | f) ∧ rg_base r ≤ f ∧ f + PAGE_SIZE ≤ rg_base r + rg_length r.
Proof.
  intros [[Hb [b Eb]] [Hl [l El]] He]. unfold region_frames.
  rewrite (wrap_small 64 (rg_base r + rg_length r)), wrap_small by (split; lia). unfold PAGE_SIZE in Eb, El. assert (PAGE_SIZE | rg_base r) as Hdb by (exists b; exact Eb).
  assert (PAGE_SIZE | rg_base r + rg_length r - 4096) as Hde by (exists (b + l - 1); unfold PAGE_SIZE; lia).
  rewrite (containing_aligned (rg_base r)) by done.
  rewrite (containing_unique _ (rg_base r + rg_length r - 4096)) by (done || lia).
  rewrite range_inclusive_elem by done. unfold PAGE_SIZE. split; intros [? ?]; (split; [done|lia]).
Qed.

Fixpoint regions_apart (rs : list region) : Prop :=
  match rs with [] => True | r :: rs => Forall (apart r) rs ∧ regions_apart rs end.

Lemma regions_frames_elem rs f : f ∈ concat (region_frames <$> rs) ↔ ∃ r, r ∈ rs ∧ f ∈ region_frames r.
Proof.
  induction rs as [|r rs IH]; cbn [fmap list_fmap map concat]; [set_solver|].
  rewrite elem_of_app, IH. set_solver.
Qed.

Lemma regions_frames_NoDup rs :
  Forall usable_ok rs → regions_apart rs → NoDup (concat (region_frames <$> rs)).
Proof.
  induction 1 as [|r rs Hr Hrs IH]; intros Hap; [apply NoDup_nil_2|]. destruct Hap as [Ha Hap].
  cbn [fmap list_fmap map concat]. apply NoDup_app. split_and!; [apply range_inclusive_NoDup| |by apply IH].
  intros f Hf (r' & Hin & Hf')%regions_frames_elem. rewrite Forall_forall in Hrs, Ha.
  apply region_frames_elem in Hf as (_ & ? & ?); [|done]. apply region_frames_elem in Hf' as (_ & ? & ?); [|by apply Hrs].
  destruct (Ha r' Hin); unfold PAGE_SIZE in *; lia.
Qed.

Lemma regions_apart_filter rs : regions_apart rs → regions_apart (filter (λ r, rg_usable r = true) rs).
Proof.
  induction rs as [|r rs IH]; [done|]. intros [Ha Hap]. rewrite filter_cons. case_decide; [|by apply IH].
  split; [|by apply IH]. apply Forall_forall. intros r' [_ Hin]%list_elem_of_filter. by eapply Forall_forall.
Qed.

(** The frame allocator starts out sound.  From a memory map whose usable
    regions are made of whole frames and do not overlap, [_start] builds, without
    a panic, an allocator over the first 65536 usable frames in order: they are
    distinct, page-aligned, and each lies inside one usable region.  This is
    what the invariants of kernel memory assume of it. *)
Theorem boot_frames_sound entries :
  let usable := filter (λ r, rg_usable r = true) entries in
  Forall usable_ok usable → regions_apart entries →
  ∃ fa, seed_frames entries = Done fa ∧ falloc_ok fa ∧
    frames_left fa = ztake MAX_BOOT_FRAMES (concat (region_frames <$> usable)) ∧ NoDup (frames_left fa) ∧
    ∀ f, f ∈ frames_left fa → (PAGE_SIZE | f) ∧
      ∃ r, r ∈ entries ∧ rg_usable r = true ∧ rg_base r ≤ f ∧ f + PAGE_SIZE ≤ rg_base r + rg_length r.
Proof.
  intros usable Hus Hap. unfold seed_frames. fold usable.
  assert (∃ M, Z.of_nat M = MAX_BOOT_FRAMES) as [M HM] by (exists (Z.to_nat MAX_BOOT_FRAMES); apply Z2Nat.id; done).
  destruct (fill_regions_filled M HM usable [] (zrep MAX_BOOT_FRAMES None, 0)) as ([bf c] & E & Hz & Hc & Hm & Ht).
  { split_and!; simpl; [by rewrite zlen_zrep|done|done|done]. }
  rewrite E. cbn [mbind outcome_bind]. simpl in Hz, Hc, Hm, Ht. set (fs := concat (region_frames <$> usable)) in *.
  assert (frames_left (StaticBootFrameAllocator_new bf c) = take M fs) as Hleft.
  { unfold frames_left, StaticBootFrameAllocator_new. simpl. unfold zslice. change (zdrop 0 bf) with bf.
    rewrite Z.sub_0_r, Ht. clear. generalize (take M fs). intros l. induction l as [|x l IH]; [done|].
    change (x :: omap id (Some <$> l) = x :: l). by rewrite IH. }
  eexists. split; [done|]. split; [split; simpl; pose proof (zlen_nonneg (take M fs)); lia|].
  rewrite Hleft. split; [unfold ztake; by rewrite <-HM, Nat2Z.id|]. split.
  - assert (NoDup fs) as Hnd by (apply regions_frames_NoDup; [done|by apply regions_apart_filter]).
    rewrite <-(take_drop M fs) in Hnd. by apply NoDup_app in Hnd as [? _].
  - intros f Hf. assert (f ∈ fs) as Hin by (rewrite <-(take_drop M fs); set_solver).
    apply regions_frames_elem in Hin as (r & Hr & Hfr). pose proof (proj1 (Forall_forall _ _) Hus r Hr) as Hok.
    apply region_frames_elem in Hfr as (? & ? & ?); [|done]. apply list_elem_of_filter in Hr as [? ?].
    split; [done|]. by exists r.
Qed.

Lemma boot_frames_sound_witness :
  ∃ fa, seed_frames [mkRegion false 0 4096; mkRegion true 4096 8192; mkRegion true 1048576 4096] = Done fa ∧
    frames_left fa = [4096; 8192; 1048576].
Proof.
  destruct (boot_frames_sound [mkRegion false 0 4096; mkRegion true 4096 8192; mkRegion true 1048576 4096])
    as (fa & E & _ & Hl & _).
  - change (Forall usable_ok [mkRegion true 4096 8192; mkRegion true 1048576 4096]).
    apply Forall_cons_2; [|apply Forall_cons_2; [|apply Forall_nil_2]].
    + split; simpl; [split; [done|by exists 1]|split; [done|by exists 2]|done].
    + split; simpl; [split; [done|by exists 256]|split; [done|by exists 1]|done].
  - split; [|split; [|split; [|done]]]; repeat apply Forall_cons_2; try apply Forall_nil_2; unfold apart; simpl; lia.
  - exists fa. split; [exact E|]. rewrite Hl. vm_compute. reflexivity.
Defined.

(* ------------------------------------------------------------------ *)
(** ** Device registers: lemma *)

Section mmio_spec.
Context {PT : Type} `{Mapper PT}.

(** Only unmapped pages of the range change, and they get the frame at the same
    offset; a page that cannot be mapped is skipped without notice. *)
Lemma map_mmio_range_spec phys virt size (st : PT * falloc) p :
  (PAGE_SIZE | phys) → (PAGE_SIZE | virt) → 0 ≤ phys → 0 ≤ virt → 0 < size →
  phys + size ≤ 2 ^ 64 → virt + size ≤ 2 ^ 64 →
  let t' := (map_mmio_range phys virt size st).1 in
  translate t' p = translate st.1 p ∨
  translate st.1 p = None ∧ ∃ off, (PAGE_SIZE | off) ∧ 0 ≤ off < size ∧
    p = virt + off ∧ translate t' p = Some (phys + off).
Proof.
  intros Hdp Hdv Hp Hv Hs Hpe Hve. unfold map_mmio_range.
  assert (∀ f, f ∈ range_inclusive (containing phys) (containing (phys ⊞ size ⊟ 1)) →
    (PAGE_SIZE | f) ∧ phys ≤ f < phys + size) as Hfr.
  { intros f Hf. rewrite (containing_aligned phys) in Hf by done.
    assert (phys ⊞ size ⊟ 1 = phys + size - 1) as E.
    { unfold wrap. rewrite <-Zminus_mod_idemp_l, Z.mod_mod, Zminus_mod_idemp_l, Z.mod_small by lia. done. }
    rewrite E in Hf. destruct (containing_spec (phys + size - 1)) as (? & ? & ?); [lia|].
    apply range_inclusive_elem in Hf as [? ?]; [|done|done]. split; [done|lia]. }
  revert Hfr. generalize (range_inclusive (containing phys) (containing (phys ⊞ size ⊟ 1))) as fs. intros fs.
  induction fs as [|f fs IH] using rev_ind; intros Hfr; [by left|]. rewrite fold_left_app. cbn [fold_left].
  specialize (IH ltac:(intros; apply Hfr; set_solver)). set (st1 := fold_left _ fs st) in *.
  destruct (Hfr f ltac:(set_solver)) as [Hdf Hf]. unfold map_mmio_frame.
  rewrite (wrap_small 64 (f - phys)), wrap_small by (split; lia).
  assert (PAGE_SIZE | f - phys) as Hdo by (by apply Z.divide_sub_r).
  rewrite containing_aligned by (lia || (apply Z.divide_add_r; done)).
  destruct (map_to (virt + (f - phys)) f MMIO_FLAGS st1.2 st1.1) as [[r fa] t] eqn:E. cbn [fst].
  assert (r = MapOk ∨ r ≠ MapOk) as [->|Hne] by (destruct r; auto).
  - apply map_to_ok in E as (Hnone & Hsome & Hother).
    destruct (decide (p = virt + (f - phys))) as [->|Hp']; [|by rewrite Hother].
    rewrite Hsome. right. destruct IH as [IH|(Hn & _)]; [|rewrite Hn].
    + rewrite Hnone in IH. split; [done|]. exists (f - phys). split_and!; try done; [lia|lia|]. f_equal. lia.
    + split; [done|]. exists (f - phys). split_and!; try done; [lia|lia|]. f_equal. lia.
  - rewrite (map_to_err _ _ _ _ _ _ _ _ E Hne p). done.
Qed.
End mmio_spec.

(* ------------------------------------------------------------------ *)
(** ** The file system: theorem *)

Section vfs_spec.
Context {D SD : Type} `{INode D SD}.

(** The file system after boot is well formed, [/] and [/dev] are
    directories, [/dev] holds exactly [sda], and the path [/dev/sda] resolves to
    the disk's node; nothing else exists. *)
Theorem boot_vfs_ready (sda : D) (sd : SD) :
  ∃ mounts s root dev, boot_vfs sda (mkStore ∅ sd) = Done (mounts, s) ∧ store_inv s ∧ st_dev s = sd ∧
    lookup_path mounts [SLASH] s = Done (Some (Ram root), s) ∧ dir_of s root = Some ∅ ∧
    lookup_path mounts (lit "/dev") s = Done (Some (Ram dev), s) ∧ dir_of s dev = Some {[lit "sda" := Dev sda]} ∧
    lookup_path mounts (lit "/dev/sda") s = Done (Some (Dev sda), s).
Proof.
  eexists _, (mkStore {[0%nat := RamDir [SLASH] []; 1%nat := RamDir (lit "dev") [(lit "sda", Dev sda)]]} sd), 0%nat, 1%nat.
  split; [vm_compute; reflexivity|]. split; [|split_and!; vm_compute; reflexivity].
  intros l dn cs. simpl. intros [[_ Hx]|[_ Hl]]%lookup_insert_Some.
  - injection Hx as _ <-. split; [apply NoDup_nil_2|set_solver].
  - apply lookup_singleton_Some in Hl as [_ Hx]. injection Hx as _ <-. split; [apply NoDup_singleton|].
    intros name l' Hin%list_elem_of_singleton. done.
Qed.
End vfs_spec.

(* ------------------------------------------------------------------ *)
(** ** The scheduler: theorem *)

Section tasks_spec.
Context {PT : Type} `{Mapper PT}.

Lemma ticks_S n c s :
  ticks (S n) c s = ('(c, s) ← timer_interrupt_handler c s; ticks n c s).
Proof. done. Qed.

Lemma ticks_app n m c s : ticks (n + m) c s = ('(c, s) ← ticks n c s; ticks m c s).
Proof.
  revert c s. induction n as [|n IH]; intros c s; [done|]. cbn [Nat.add]. rewrite !ticks_S.
  destruct (timer_interrupt_handler c s) as [[c' s']|]; [apply IH|done].
Qed.

(** Ticks that do not end a time slice. *)
Lemma ticks_idle n c s :
  0 ≤ c → (c `mod` TIME_SLICE_TICKS) + Z.of_nat n < TIME_SLICE_TICKS → c + Z.of_nat n < 2 ^ 64 →
  ticks n c s = Done (c + Z.of_nat n, s).
Proof.
  revert c. induction n as [|n IH]; intros c Hc Hn Hb; [change (Z.of_nat 0) with 0; by rewrite Z.add_0_r|].
  rewrite ticks_S. unfold timer_interrupt_handler. rewrite wrap_small by (split; lia). unfold TIME_SLICE_TICKS in *.
  assert ((c + 1) `mod` 10 = c `mod` 10 + 1) as Hm by (Z.to_euclidean_division_equations; lia).
  rewrite Hm, (proj2 (Z.eqb_neq _ 0)) by (pose proof (Z.mod_pos_bound c 10); lia). cbn [mbind outcome_bind].
  rewrite IH by (rewrite ?Hm; lia). do 2 f_equal. lia.
Qed.

(** The first megabyte of the region is mapped and skipped. *)
Lemma init_kstack_region_spec own (pa : PageAllocator PT) :
  pa_inv kpage own pa →
  ∃ r pa', init_kstack_region KSTACK_VA_START (Some pa) = Done (r, KSTACK_VA_START + 1024 * 1024, Some pa') ∧
    pa_inv kpage own pa'.
Proof.
  intros Hpa. unfold init_kstack_region, alloc_kernel_stack.
  change ((1024 * 1024 =? 0) || negb ((1024 * 1024) `mod` 4096 =? 0)) with false.
  change (KSTACK_VA_START ⊞ 1024 * 1024) with (KSTACK_VA_START + 1024 * 1024).
  change (KSTACK_VA_END <? KSTACK_VA_START + 1024 * 1024) with false. cbv iota zeta.
  destruct (map_pages_spec (Z.to_nat ((1024 * 1024) `div` 4096)) _ _ KSTACK_VA_START KSTACK_FLAGS _ Hpa)
    as (ok & pa' & -> & _ & Hpa' & _); [done|by exists (KSTACK_VA_START / PAGE_SIZE)|done|].
  cbn [mbind outcome_bind]. eexists _, pa'. split; [done|]. eapply pa_inv_weaken; [|exact Hpa']. by left.
Qed.

(** Where the shell's stack starts. *)
Definition SHELL_STACK : Z := KSTACK_VA_START + 1024 * 1024.

(** The state boot leaves: the placeholder runs, the shell is queued. *)
Lemma boot_tasks_state entry own (pa : PageAllocator PT) c id next' pa' s :
  pa_inv kpage own pa →
  boot_tasks entry KSTACK_VA_START (Some pa) (sched_boot c) = Done (Ok id, next', Some pa', s) →
  (∀ p, pages SHELL_STACK 16 p → is_Some (translate (pa_mapper pa') p)) ∧
  ∃ l0 t0 l t ni, l0 ≠ l ∧ s = mkSched {[l := t; l0 := t0]} (Some (mkRunQueue [l] (Some l0) [])) 0 ni true 0 c ∧
    t_kstack t0 = 0 ∧ t_state t0 = Running ∧ t_id t = id ∧ t_state t = Ready ∧ t_waiting_for_child t = false ∧
    t_kstack t = SHELL_STACK + 64 * 1024 ∧ t_context t = kshell_context (SHELL_STACK + 64 * 1024) entry.
Proof.
  intros Hpa. unfold boot_tasks, seed_boot, set_current.
  destruct (init_kstack_region_spec own pa Hpa) as (r1 & pa1 & -> & Hpa1). fold SHELL_STACK. simpl.
  destruct r1 as [[]|]; simpl; [|done].
  set (l0 := fresh (dom (∅ : gmap loc TaskCB))). set (t0 := mkTaskCB 1 _ _ _ _ _ _ _ _ _ _ _). set (sc := mkSched _ _ _ _ _ _ _).
  destruct (spawn_kshell_queued entry own SHELL_STACK pa1 sc (mkRunQueue [] (Some l0) []) Hpa1)
    as (r & next1 & pa2 & sc' & E & Hr); [done|by exists (SHELL_STACK / PAGE_SIZE)|done|]. rewrite E.
  intros [= -> -> -> ->]. destruct Hr as (-> & Hpages & l & t & Hl & -> & Hid & Hrest). split; [done|].
  simpl in Hl. exists l0, t0, l, t. eexists. split; [intros <-; by rewrite lookup_insert_eq in Hl|]. by split_and!; try done; apply Hrest.
Qed.

(** The first switch. *)
Lemma boot_first_switch entry own (pa : PageAllocator PT) c id next' pa' s :
  pa_inv kpage own pa →
  boot_tasks entry KSTACK_VA_START (Some pa) (sched_boot c) = Done (Ok id, next', Some pa', s) →
  ∃ s' l, schedule s = Done s' ∧ s_rq s' = Some (mkRunQueue [] (Some l) []) ∧ s_current_task s' = id ∧
    s_kstack s' = SHELL_STACK + 64 * 1024 ∧
    c_rip (s_cpu s') = entry ∧ c_rsp (s_cpu s') = SHELL_STACK + 64 * 1024 ∧ c_cr3 (s_cpu s') = c_cr3 c.
Proof.
  intros Hpa Hb. destruct (boot_tasks_state _ _ _ _ _ _ _ _ Hpa Hb)
    as (_ & l0 & t0 & l & t & ni & Hne & -> & Hk0 & _ & Hid & _ & _ & Hks & Hctx).
  eexists _, l. rewrite (schedule_boot_eq _ _ _ _ _ _ _ _ l0 t0 l t);
    [|by simplify_map_eq|done|by simplify_map_eq|done].
  split; [done|]. unfold switched, hook_stack. simpl.
  rewrite Hid, Hctx, Hks, (proj2 (Z.eqb_neq (SHELL_STACK + 64 * 1024) 0)) by done. by split_and!.
Qed.

(** Boot fails exactly with the first kernel stack. *)
Lemma boot_tasks_panic entry own (pa : PageAllocator PT) c :
  pa_inv kpage own pa →
  boot_tasks entry KSTACK_VA_START (Some pa) (sched_boot c) = Panic ↔
  ∃ next pa', init_kstack_region KSTACK_VA_START (Some pa) = Done (None, next, pa').
Proof.
  intros Hpa. unfold boot_tasks, seed_boot, set_current.
  destruct (init_kstack_region_spec own pa Hpa) as (r1 & pa1 & -> & Hpa1). fold SHELL_STACK. simpl.
  destruct r1 as [[]|]; simpl; [|split; [by eexists _, _|done]]. set (sc := mkSched _ _ _ _ _ _ _).
  destruct (spawn_kshell_queued entry own SHELL_STACK pa1 sc (mkRunQueue [] (Some (fresh (dom (∅ : gmap loc TaskCB)))) []) Hpa1)
    as (r & next1 & pa2 & sc' & E & _); [done|by exists (SHELL_STACK / PAGE_SIZE)|done|]. rewrite E.
  split; [done|by intros (? & ? & [=])].
Qed.

(** The machine comes up running the kernel shell.  The boot sequence panics
    only if the region of kernel stacks cannot be set up; if it then could spawn
    the shell, after ten ticks of the timer the CPU is at the shell's entry
    point, on the top of the shell's own mapped stack, which is also the stack for
    interrupts, with the shell as the current task and nothing else queued. *)
Theorem boot_runs_kshell entry own (pa : PageAllocator PT) c :
  pa_inv kpage own pa →
  let boot := boot_tasks entry KSTACK_VA_START (Some pa) (sched_boot c) in
  (boot = Panic ↔ ∃ next pa', init_kstack_region KSTACK_VA_START (Some pa) = Done (None, next, pa')) ∧
  ∀ id next' pa' s, boot = Done (Ok id, next', Some pa', s) →
    (∀ p, pages SHELL_STACK 16 p → is_Some (translate (pa_mapper pa') p)) ∧
    ∃ s' l, ticks 10 0 s = Done (10, s') ∧
      s_rq s' = Some (mkRunQueue [] (Some l) []) ∧ s_current_task s' = id ∧ s_kstack s' = SHELL_STACK + 64 * 1024 ∧
      c_rip (s_cpu s') = entry ∧ c_rsp (s_cpu s') = SHELL_STACK + 64 * 1024 ∧ c_cr3 (s_cpu s') = c_cr3 c.
Proof.
  intros Hpa boot. split; [by eapply boot_tasks_panic|]. intros id next' pa' s Hb.
  destruct (boot_tasks_state _ _ _ _ _ _ _ _ Hpa Hb) as [Hp _].
  destruct (boot_first_switch _ _ _ _ _ _ _ _ Hpa Hb) as (s' & l & Hs & Hrq & Hrest).
  split; [exact Hp|]. exists s', l. split; [|by split].
  change (ticks 10 0 s) with (ticks (9 + 1) 0 s). rewrite ticks_app, ticks_idle by done. cbn [mbind outcome_bind].
  rewrite ticks_S. unfold timer_interrupt_handler. change (0 + Z.of_nat 9 ⊞ 1) with 10.
  change (10 `mod` TIME_SLICE_TICKS =? 0) with true. cbv iota. by rewrite Hs.
Qed.
End tasks_spec.

(** A machine with 600 free frames: enough for both stacks and their tables. *)
Definition boot_pa : PageAllocator (gmap Z Z) := mkPageAllocator ∅ (boot_falloc 600).

Lemma boot_pa_inv : pa_inv kpage (λ _, False) boot_pa.
Proof. split; [by vm_compute| |done|done]. apply (bool_decide_unpack _). by vm_compute. Qed.

Definition boot_sample : outcome (result Z * Z * option (PageAllocator (gmap Z Z)) * sched) :=
  boot_tasks 0xFFFFFFFF80004000 KSTACK_VA_START (Some boot_pa) (sched_boot (mkCpu 0 0 0 0 0 0 0 0 4096)).

Lemma boot_sample_ok :
  (λ x, (x.1.1.1, match x.1.2 with Some _ => true | None => false end)) <$> boot_sample = Done (Ok 2, true).
Proof. vm_compute. reflexivity. Qed.

Lemma boot_runs_kshell_witness :
  ∃ s s' next' pa', boot_sample = Done (Ok 2, next', Some pa', s) ∧
    ticks 10 0 s = Done (10, s') ∧ c_rip (s_cpu s') = 0xFFFFFFFF80004000 ∧ c_cr3 (s_cpu s') = 4096.
Proof.
  destruct (boot_runs_kshell 0xFFFFFFFF80004000 (λ _, False) boot_pa (mkCpu 0 0 0 0 0 0 0 0 4096) boot_pa_inv) as [_ Hok].
  pose proof boot_sample_ok as Hr. unfold boot_sample in *.
  destruct (boot_tasks _ _ _ _) as [[[[r next'] [pa'|]] s]|]; [|discriminate Hr..]. injection Hr as ->.
  destruct (Hok 2 next' pa' s eq_refl) as (_ & s' & l & Ht & _ & _ & _ & Hrip & _ & Hcr3).
  exists s, s', next', pa'. exact (conj eq_refl (conj Ht (conj Hrip Hcr3))).
Defined.
