(* ===== verification/Intr.v ===== *)
(** * Descriptor tables and interrupt controllers
      (kernel/src/gdt.rs, idt/src/lib.rs, apic/src, init_syscalls of syscall.rs)

    The tables of the x86_64 crate and the devices are types with a class that
    states their documented behaviour: a global descriptor table hands out
    selectors in order, an I/O APIC has a window onto its registers, a local
    APIC's registers are memory, an 8259 takes a sequence of control words.

    Shown here: the selectors that the rest of the kernel writes as numbers are
    those of the table; where SYSRET goes with the base in STAR; the
    interrupts of the timer, the keyboard and the disk are routed to their handlers,
    and the legacy timer's line to a vector that has none. *)

From S2P Require Import Prelude Keyboard Task X86 Serial Pci Virtio Process KShell.

(* ------------------------------------------------------------------ *)
(** ** The global descriptor table *)

Inductive descriptor :=
  | KernelCode | KernelData | UserData | UserCode
  | TssSegment.

#[global] Instance descriptor_eq_dec : EqDecision descriptor.
Proof. solve_decision. Defined.

Definition desc_rpl (d : descriptor) : Z := match d with UserData | UserCode => 3 | _ => 0 end.
Definition desc_slots (d : descriptor) : Z := match d with TssSegment => 2 | _ => 1 end.

(** [GlobalDescriptorTable]: [append] returns the selector of the next slot, with
    the privilege of the segment. *)
Class GdtLib (T : Type) := {
  gdt_new : T;
  gdt_append : descriptor → T → Z * T;
  gdt_entry : T → Z → option descriptor;
  gdt_next : T → Z;
  gdt_new_next : gdt_next gdt_new = 1;
  gdt_append_spec : ∀ d t, 1 ≤ gdt_next t → ∀ sel t', gdt_append d t = (sel, t') →
    sel = 8 * gdt_next t + desc_rpl d ∧ gdt_next t' = gdt_next t + desc_slots d ∧
    gdt_entry t' (gdt_next t) = Some d ∧
    ∀ i, 0 ≤ i < gdt_next t → gdt_entry t' i = gdt_entry t i;
}.

Record Selectors := mkSelectors {
  kernel_code : Z;
  kernel_data : Z;
  user_data : Z;
  user_code : Z;
  tss_selector : Z;
}.

Record TaskStateSegment := mkTss {
  privilege_stack : Z;               (* privilege_stack_table[0] *)
  interrupt_stack : Z;               (* interrupt_stack_table[0] *)
}.

Section gdt.
Context {T : Type} `{GdtLib T}.

(** [GDT], [TSS] and the segment registers. *)
Record segments := mkSegments {
  sg_gdt : option (T * Selectors);
  sg_tss : option TaskStateSegment;
  sg_loaded : option T;              (* GDTR *)
  sg_cs : Z; sg_ss : Z; sg_ds : Z; sg_es : Z; sg_fs : Z; sg_gs : Z;
  sg_tr : Z;
}.

Definition build_gdt : T * Selectors :=
  let gdt := gdt_new in
  let '(kernel_code, gdt) := gdt_append KernelCode gdt in
  let '(kernel_data, gdt) := gdt_append KernelData gdt in
  let '(_, gdt) := gdt_append UserData gdt in
  let '(user_data, gdt) := gdt_append UserData gdt in
  let '(user_code, gdt) := gdt_append UserCode gdt in
  let '(tss_selector, gdt) := gdt_append TssSegment gdt in
  (gdt, mkSelectors kernel_code kernel_data user_data user_code tss_selector).

(** [stack_start] is the address of the static interrupt stack. *)
Definition gdt_init (stack_start : Z) (s : segments) : segments :=
  let tss := match sg_tss s with Some t => t | None => mkTss 0 (stack_start + 4096 * 5) end in
  let '(gdt, sel) := match sg_gdt s with Some g => g | None => build_gdt end in
  mkSegments (Some (gdt, sel)) (Some tss) (Some gdt)
    (kernel_code sel) (kernel_data sel) (kernel_data sel) (kernel_data sel) (kernel_data sel) (kernel_data sel)
    (tss_selector sel).

Definition descriptors (s : segments) : outcome Selectors := g ← unwrap (sg_gdt s); Done g.2.

Definition set_kernel_stack (stack_top : Z) (s : segments) : segments :=
  match sg_tss s with
  | Some t =>
      mkSegments (sg_gdt s) (Some (mkTss stack_top (interrupt_stack t))) (sg_loaded s)
        (sg_cs s) (sg_ss s) (sg_ds s) (sg_es s) (sg_fs s) (sg_gs s) (sg_tr s)
  | None => s
  end.
End gdt.
Arguments segments T : clear implicits.

(** [PER_CPU_DATA], which [gs] points to in the kernel: the layout that the
    system call entry uses is [scratch] at 0, [kernel_stack] at 8 and
    [user_stack_save] at 16. *)
Record PerCpuData := mkPerCpu {
  scratch : Z;
  kernel_stack : Z;
  user_stack_save : Z;
}.

Definition set_syscall_stack (stack_top : Z) (p : PerCpuData) : PerCpuData :=
  mkPerCpu (scratch p) stack_top (user_stack_save p).

(** The closure [_start] registers with the scheduler. *)
Definition switch_hook {T} (kstack : Z) (st : segments T * PerCpuData) : segments T * PerCpuData :=
  (set_kernel_stack kstack st.1, set_syscall_stack kstack st.2).

(** The model-specific registers of the system call. *)
Record msrs := mkMsrs {
  efer : Z;
  lstar : Z;
  star : Z;                          (* the base for SYSRET *)
  sfmask : Z;
  kernel_gs_base : Z;
}.

Definition EFER_SCE : Z := 1.
Definition RFLAGS_TRAP : Z := 0x100.
Definition RFLAGS_INTERRUPT : Z := 0x200.

Definition SegmentSelector_new (index rpl : Z) : Z := Z.lor (index ≪ 3) rpl.

(** What [Star::write] is called with: the selectors of code and stack for
    SYSRET, and those for SYSCALL. *)
Definition star_arguments : Z * Z * Z * Z :=
  (SegmentSelector_new 4 3, SegmentSelector_new 3 3, SegmentSelector_new 1 0, SegmentSelector_new 2 0).

(** [star_write] is [Star::write] of the x86_64 crate: the base it stores. *)
Definition init_syscalls (star_write : Z * Z * Z * Z → option Z) (syscall_entry : Z) (m : msrs) : outcome msrs :=
  base ← unwrap (star_write star_arguments);
  Done (mkMsrs (Z.lor (efer m) EFER_SCE) syscall_entry base (Z.lor RFLAGS_INTERRUPT RFLAGS_TRAP) (kernel_gs_base m)).

Definition init_per_cpu (addr : Z) (m : msrs) : msrs :=
  mkMsrs (efer m) (lstar m) (star m) (sfmask m) addr.

(* ------------------------------------------------------------------ *)
(** ** The interrupt descriptor table *)

Inductive handler :=
  | H_divide_by_zero | H_page_fault | H_double_fault | H_gpf
  | H_invalid_tss | H_segment_not_present | H_stack_segment_fault
  | H_timer | H_keyboard | H_virtio.

(** [InterruptDescriptorTable]: the entries for exceptions are fields, by their
    vector; indexing is allowed for the vectors from 32 on, and may panic below. *)
Class IdtLib (I : Type) := {
  idt_new : I;
  idt_field : Z → handler → I → I;
  idt_index : Z → handler → I → outcome I;
  idt_get : I → Z → option handler;
  idt_new_get : ∀ v, idt_get idt_new v = None;
  idt_field_get : ∀ v h i w, idt_get (idt_field v h i) w = if w =? v then Some h else idt_get i w;
  idt_index_get : ∀ v h i, 32 ≤ v < 256 →
    ∃ i', idt_index v h i = Done i' ∧ ∀ w, idt_get i' w = if w =? v then Some h else idt_get i w;
}.

(** Memory-mapped registers. *)
Class Mmio (M : Type) := {
  read8 : Z → M → Z * M;
  read32 : Z → M → Z * M;
  write32 : Z → Z → M → M;
}.

Definition TIMER_VECTOR : Z := 0x31.
Definition TIMER_DIVIDE_CONFIG : Z := 3.
Definition TIMER_INITIAL_COUNT : Z := 100000.
Definition VIRTIO_BLK_VECTOR : Z := 34.

(** [IA32_APIC_BASE] in [enable]: the code keeps [eax] of [rdmsr] and discards
    [edx]; the register afterwards. *)
Definition enable_msr (msr : Z) : Z :=
  let apic_base := wrap 32 msr in
  if Z.land apic_base (1 ≪ 11) =? 0 then
    let apic_base := Z.lor apic_base (1 ≪ 11) in
    let eax := Z.land apic_base 0xFFFFFFFF in
    let edx := Z.land (apic_base ≫ 32) 0xFFFFFFFF in
    edx * 2 ^ 32 + eax
  else msr.

(** [init_ps2_keyboard] reads the status at most so many times. *)
Definition PS2_POLLS : nat := 1000.

Section ports.
Context {U : Type} `{Ports U}.

Definition disable_pic (u : U) : U :=
  let u := outb 0x20 0x11 u in
  let u := outb 0xA0 0x11 u in
  let u := outb 0x21 0x20 u in
  let u := outb 0xA1 0x28 u in
  let u := outb 0x21 0x04 u in
  let u := outb 0xA1 0x02 u in
  let u := outb 0x21 0x01 u in
  let u := outb 0xA1 0x01 u in
  let u := outb 0x21 0xFF u in
  outb 0xA1 0xFF u.

(** [for _ in 0..n]: until the controller has output. *)
Fixpoint ps2_wait (n : nat) (u : U) : U :=
  match n with
  | O => u
  | S n => let '(status, u) := inb 0x64 u in if negb (Z.land status 0x01 =? 0) then u else ps2_wait n u
  end.

Definition init_ps2_keyboard (u : U) : U :=
  let '(_, u) := inb 0x60 u in
  let u := outb 0x64 0xAE u in
  let u := outb 0x64 0x20 u in
  let u := ps2_wait PS2_POLLS u in
  let '(config, u) := inb 0x60 u in
  let config := Z.lor config 0x01 in
  let config := Z.lor config 0x40 in
  let u := outb 0x64 0x60 u in
  outb 0x60 config u.
End ports.

(* ------------------------------------------------------------------ *)
(** ** The controllers *)

Section intr.
Context {U M I X : Type} `{Ports U, Mmio M, IdtLib I, Ports32 X}.

(** The statics of apic and idt, the interrupt part of the virtio driver's, and
    the devices. *)
Record intr := mkIntr {
  APIC_BASE : Z;
  IOAPIC_BASE : Z;
  IDT : I;
  loaded : bool;
  ISR_CFG_ADDR : Z;
  VIRTIO_BLK_COMPLETE : bool;
  i_ports : U;
  i_mmio : M;
  i_apic_msr : Z;
  i_if : bool;                       (* the interrupt flag *)
}.

Definition with_mmio (m : M) (s : intr) : intr :=
  mkIntr (APIC_BASE s) (IOAPIC_BASE s) (IDT s) (loaded s) (ISR_CFG_ADDR s) (VIRTIO_BLK_COMPLETE s) (i_ports s) m (i_apic_msr s) (i_if s).
Definition with_ports (u : U) (s : intr) : intr :=
  mkIntr (APIC_BASE s) (IOAPIC_BASE s) (IDT s) (loaded s) (ISR_CFG_ADDR s) (VIRTIO_BLK_COMPLETE s) u (i_mmio s) (i_apic_msr s) (i_if s).
Definition enable_interrupts (s : intr) : intr :=
  mkIntr (APIC_BASE s) (IOAPIC_BASE s) (IDT s) (loaded s) (ISR_CFG_ADDR s) (VIRTIO_BLK_COMPLETE s) (i_ports s) (i_mmio s) (i_apic_msr s) true.

Definition set_bases (lapic : Z) (s : intr) : intr :=
  mkIntr lapic (IOAPIC_BASE s) (IDT s) (loaded s) (ISR_CFG_ADDR s) (VIRTIO_BLK_COMPLETE s) (i_ports s) (i_mmio s) (i_apic_msr s) (i_if s).
Definition ioapic_set_base (addr : Z) (s : intr) : intr :=
  mkIntr (APIC_BASE s) addr (IDT s) (loaded s) (ISR_CFG_ADDR s) (VIRTIO_BLK_COMPLETE s) (i_ports s) (i_mmio s) (i_apic_msr s) (i_if s).

(** The table before the first use: exceptions only. *)
Definition IDT_new : I :=
  let idt := idt_new in
  let idt := idt_field 0 H_divide_by_zero idt in
  let idt := idt_field 14 H_page_fault idt in
  let idt := idt_field 8 H_double_fault idt in
  let idt := idt_field 13 H_gpf idt in
  let idt := idt_field 10 H_invalid_tss idt in
  let idt := idt_field 11 H_segment_not_present idt in
  idt_field 12 H_stack_segment_fault idt.

Definition init_idt (s : intr) : intr :=
  mkIntr (APIC_BASE s) (IOAPIC_BASE s) (IDT s) true (ISR_CFG_ADDR s) (VIRTIO_BLK_COMPLETE s) (i_ports s) (i_mmio s) (i_apic_msr s) (i_if s).

(** The table is changed in place, so loading it again has no further effect. *)
Definition register_interrupt_handler (vector : Z) (h : handler) (s : intr) : outcome intr :=
  idt ← idt_index vector h (IDT s);
  Done (mkIntr (APIC_BASE s) (IOAPIC_BASE s) idt (loaded s) (ISR_CFG_ADDR s) (VIRTIO_BLK_COMPLETE s) (i_ports s) (i_mmio s) (i_apic_msr s) (i_if s)).

Definition lapic_reg (offset : Z) (s : intr) : Z := APIC_BASE s ⊞ offset.
Definition ioapic_reg (offset : Z) (s : intr) : Z := IOAPIC_BASE s ⊞ offset.
Definition lapic_write (offset v : Z) (s : intr) : intr := with_mmio (write32 (lapic_reg offset s) v (i_mmio s)) s.

Definition apic_enable (s : intr) : intr :=
  let s := with_ports (disable_pic (i_ports s)) s in
  let s := mkIntr (APIC_BASE s) (IOAPIC_BASE s) (IDT s) (loaded s) (ISR_CFG_ADDR s) (VIRTIO_BLK_COMPLETE s)
             (i_ports s) (i_mmio s) (enable_msr (i_apic_msr s)) (i_if s) in
  let '(val, m) := read32 (lapic_reg 0xF0 s) (i_mmio s) in
  lapic_write 0xF0 (Z.lor val 0x100) (with_mmio m s).

Definition set_timer (vector divide initial_count : Z) (s : intr) : intr :=
  let s := lapic_write 0x3E0 divide s in
  let s := lapic_write 0x320 (Z.lor vector 0x20000) s in
  lapic_write 0x380 initial_count s.

Definition send_eoi (s : intr) : intr := lapic_write 0xB0 0 s.

Definition timer_register_handler (s : intr) : outcome intr :=
  register_interrupt_handler TIMER_VECTOR H_timer s.

Definition timer_init_hardware (s : intr) : intr :=
  let s := lapic_write 0x3E0 TIMER_DIVIDE_CONFIG s in
  let s := lapic_write 0x320 (Z.lor TIMER_VECTOR 0x20000) s in
  let s := lapic_write 0x380 TIMER_INITIAL_COUNT s in
  enable_interrupts s.

Definition ioapic_read (reg : Z) (s : intr) : Z * intr :=
  let m := write32 (ioapic_reg 0x00 s) reg (i_mmio s) in
  let '(v, m) := read32 (ioapic_reg 0x10 s) m in
  (v, with_mmio m s).

Definition ioapic_write (reg value : Z) (s : intr) : intr :=
  let m := write32 (ioapic_reg 0x00 s) reg (i_mmio s) in
  with_mmio (write32 (ioapic_reg 0x10 s) value m) s.

Definition map_irq (irq vector : Z) (s : intr) : intr :=
  let reg := 0x10 + irq * 2 in
  let s := ioapic_write reg vector s in
  ioapic_write (reg + 1) 0 s.

Definition init_ioapic (s : intr) : intr :=
  let s := map_irq 1 33 s in
  map_irq 0 32 s.

(** drivers/src/virtio.rs *)
Definition virtio_blk_interrupt_handler (s : intr) : intr :=
  let isr_addr := ISR_CFG_ADDR s in
  let s := if negb (isr_addr =? 0) then with_mmio (read8 isr_addr (i_mmio s)).2 s else s in
  let s := mkIntr (APIC_BASE s) (IOAPIC_BASE s) (IDT s) (loaded s) (ISR_CFG_ADDR s) true
             (i_ports s) (i_mmio s) (i_apic_msr s) (i_if s) in
  send_eoi s.

Definition register_interrupt (blk : option VirtioBlock) (x : X) (s : intr) : outcome (X * intr) :=
  match blk with
  | None => Done (x, s)
  | Some dev =>
      let '(irq, x) := interrupt_line (pci_dev dev) x in
      let '(pin, x) := interrupt_pin (pci_dev dev) x in
      if pin =? 0 then Done (x, s)
      else
        let s := mkIntr (APIC_BASE s) (IOAPIC_BASE s) (IDT s) (loaded s) (isr_cfg dev) (VIRTIO_BLK_COMPLETE s)
                   (i_ports s) (i_mmio s) (i_apic_msr s) (i_if s) in
        let s := map_irq irq VIRTIO_BLK_VECTOR s in
        s ← register_interrupt_handler VIRTIO_BLK_VECTOR H_virtio s;
        Done (x, s)
  end.

(** kernel/src/main.rs *)
Definition keyboard_interrupt_handler (r : RingBuffer) (s : intr) : outcome (RingBuffer * intr) :=
  let '(scancode, u) := inb 0x60 (i_ports s) in
  r ← handle_scancode scancode r;
  Done (r, send_eoi (with_ports u s)).

(** The steps of [_start] that set up interrupts: the local APIC and the table, ... *)
Definition boot_apic (s : intr) : outcome intr :=
  let s := apic_enable s in
  s ← timer_register_handler s;
  s ← register_interrupt_handler 33 H_keyboard s;
  Done (enable_interrupts (init_idt s)).

(** ... the I/O APIC once both are mapped, ... *)
Definition boot_ioapic (phys_mem_offset : Z) (s : intr) : intr :=
  let s := set_bases (phys_mem_offset ⊞ 0xFEE00000) s in
  let s := ioapic_set_base (phys_mem_offset ⊞ 0xFEC00000) s in
  let s := init_ioapic s in
  with_ports (init_ps2_keyboard (i_ports s)) s.

(** ... the disk, and at the end the timer. *)
Definition boot_interrupts (phys_mem_offset : Z) (blk : option VirtioBlock) (x : X) (s : intr) : outcome (X * intr) :=
  s ← boot_apic s;
  '(x, s) ← register_interrupt blk x (boot_ioapic phys_mem_offset s);
  Done (x, timer_init_hardware s).
End intr.
Arguments intr U M I : clear implicits.

(* ------------------------------------------------------------------ *)
(** ** Segments: theorem *)

Section gdt_spec.
Context {T : Type} `{GdtLib T}.

Definition the_selectors : Selectors := mkSelectors 0x08 0x10 0x23 0x2B 0x30.

(** One [append], after [N] segments. *)
Ltac append_step N t' N' E L :=
  match goal with |- context [gdt_append ?d ?t] =>
    let sel := fresh "sel" in let Hs := fresh "Hs" in
    destruct (gdt_append d t) as [sel t'] eqn:Hs; apply gdt_append_spec in Hs as (Hs & N' & E & L); [|lia];
    rewrite N in Hs, N', E, L; simpl in Hs, N'; subst sel
  end.

Lemma build_gdt_spec :
  ∃ gdt, build_gdt = (gdt, the_selectors) ∧
    gdt_entry gdt 1 = Some KernelCode ∧ gdt_entry gdt 2 = Some KernelData ∧ gdt_entry gdt 3 = Some UserData ∧
    gdt_entry gdt 4 = Some UserData ∧ gdt_entry gdt 5 = Some UserCode ∧ gdt_entry gdt 6 = Some TssSegment.
Proof.
  unfold build_gdt. pose proof gdt_new_next as N0. generalize dependent (gdt_new (T := T)). intros t0 N0.
  append_step N0 t1 N1 E1 L1. append_step N1 t2 N2 E2 L2. append_step N2 t3 N3 E3 L3.
  append_step N3 t4 N4 E4 L4. append_step N4 t5 N5 E5 L5. append_step N5 t6 N6 E6 L6.
  exists t6. split; [done|]. split_and!; rewrite ?L6, ?L5, ?L4, ?L3, ?L2 by lia; done.
Qed.

Lemma lor_3 n : Z.lor n 3 = 4 * (n / 4) + 3.
Proof.
  rewrite (Z.div_mod n 4) at 1 by lia. pose proof (Z.mod_pos_bound n 4 ltac:(lia)).
  apply Z.bits_inj'. intros i Hi. rewrite Z.lor_spec.
  replace (4 * (n / 4) + n `mod` 4) with (Z.lor ((n / 4) ≪ 2) (n `mod` 4)).
  2: { rewrite (lor_disjoint_add _ _ 2); rewrite ?Z.shiftl_mul_pow2 by lia; change (2 ^ 2) with 4;
       [lia|lia|apply Z_mod_mult|done]. }
  replace (4 * (n / 4) + 3) with (Z.lor ((n / 4) ≪ 2) 3).
  2: { rewrite (lor_disjoint_add _ _ 2); rewrite ?Z.shiftl_mul_pow2 by lia; change (2 ^ 2) with 4;
       [lia|lia|apply Z_mod_mult|lia]. }
  rewrite !Z.lor_spec. destruct (Z.testbit ((n / 4) ≪ 2) i); [done|]. simpl.
  assert (n `mod` 4 = 0 ∨ n `mod` 4 = 1 ∨ n `mod` 4 = 2 ∨ n `mod` 4 = 3) as [-> | [-> | [-> | ->]]] by lia;
    rewrite <-Z.lor_spec; done.
Qed.

(** C29: the segment selectors fit together.  The table [gdt::init] builds has the
    selectors that the rest of the kernel writes as numbers: those of new contexts,
    of the kernel shell's and of user processes' (0x08 and 0x10), and those the
    entry to user mode pushes (0x2B and 0x23).  The registers are loaded from it.
    SYSRET returns to the user's code and data segments exactly if the base in
    STAR selects the third entry; if the base were the one that makes SYSRET
    load the code selector [init_syscalls] passes, it would load the selector of
    a data segment. *)
Theorem segment_selectors stack (s : segments T) tramp kstack entry ustack pml4 :
  sg_gdt s = None →
  ∃ gdt, let s' := gdt_init stack s in
    sg_gdt s' = Some (gdt, the_selectors) ∧ sg_loaded s' = Some gdt ∧ descriptors s' = Done the_selectors ∧
    (sg_cs s', sg_ss s', sg_tr s') = (0x08, 0x10, 0x30) ∧
    (∀ d sel, (d, sel) ∈ [(KernelCode, kernel_code the_selectors); (KernelData, kernel_data the_selectors);
       (UserData, user_data the_selectors); (UserCode, user_code the_selectors); (TssSegment, tss_selector the_selectors)] →
       gdt_entry gdt (sel / 8) = Some d ∧ sel `mod` 4 = desc_rpl d) ∧
    Forall (λ x, (x_cs x, x_ss x) = (kernel_code the_selectors, kernel_data the_selectors))
      [CPUContext_default; kshell_context kstack entry; spawn_context tramp kstack entry ustack pml4] ∧
    user_entry_trampoline_asm =
      [Cli; PushI (user_data the_selectors); Push R13; PushI 0x202; PushI (user_code the_selectors); Push R12; Iretq] ∧
    (∀ base, (Z.lor (base + 16) 3, Z.lor (base + 8) 3) = (user_code the_selectors, user_data the_selectors) ↔
       base / 4 = 0x18 / 4) ∧
    (∀ base, Z.lor (base + 16) 3 = star_arguments.1.1.1 → gdt_entry gdt (Z.lor (base + 16) 3 / 8) = Some UserData).
Proof.
  intros Hn. destruct build_gdt_spec as (gdt & E & E1 & E2 & E3 & E4 & E5 & E6). exists gdt.
  unfold gdt_init. rewrite Hn, E. simpl. split_and!; try done.
  - intros d sel Hin. repeat (apply elem_of_cons in Hin as [[= -> ->]|Hin]; [by split|]). by apply elem_of_nil in Hin.
  - by repeat constructor.
  - intros base. rewrite !lor_3. change (0x18 / 4) with 6. rewrite pair_equal_spec.
    split; [intros [? ?]|intros ?; split]; Z.to_euclidean_division_equations; lia.
  - intros base ->. exact E4.
Qed.
End gdt_spec.

(* ------------------------------------------------------------------ *)
(** ** Interrupt routing: theorem *)

(** The controllers behind the memory-mapped registers.  [lapic_at] and
    [ioapic_at] are the addresses at which they are mapped; [lapic_regs] and
    [ioapic_regs] what software has written to their registers; the I/O APIC's
    are reached through a selector and a window. *)
Class Apics (M : Type) `{Mmio M} := {
  lapic_at : Z → Prop;
  ioapic_at : Z → Prop;
  lapic_regs : M → Z → Z;
  ioapic_regs : M → Z → Z;
  ioapic_sel : M → Z;
  lapic_get : ∀ b m, lapic_at b → read32 (b ⊞ 0xF0) m = (lapic_regs m 0xF0, m);
  lapic_set : ∀ b o v m, lapic_at b → o ∈ [0xF0; 0x320; 0x380; 0x3E0] →
    let m' := write32 (b ⊞ o) v m in
    (∀ r, lapic_regs m' r = if r =? o then v else lapic_regs m r) ∧
    (∀ r, ioapic_regs m' r = ioapic_regs m r) ∧ ioapic_sel m' = ioapic_sel m;
  ioapic_select : ∀ b v m, ioapic_at b → 0 ≤ v < 256 →
    let m' := write32 (b ⊞ 0x00) v m in
    ioapic_sel m' = v ∧ (∀ r, ioapic_regs m' r = ioapic_regs m r) ∧ (∀ r, lapic_regs m' r = lapic_regs m r);
  ioapic_window : ∀ b v m, ioapic_at b → 0x10 ≤ ioapic_sel m < 0x40 →
    let m' := write32 (b ⊞ 0x10) v m in
    (∀ r, ioapic_regs m' r = if r =? ioapic_sel m then v else ioapic_regs m r) ∧
    (∀ r, lapic_regs m' r = lapic_regs m r);
}.

(** What an interrupt line or vector leads to. *)
Inductive delivery :=
  | Masked
  | Unhandled (vector : Z)
  | Runs (vector : Z) (h : handler).

Section route.
Context {U M I X : Type} `{Ports U, Apics M, IdtLib I, PciBus X}.
Implicit Types (s : intr U M I) (x : X).

Definition vector_delivery s (entry : Z) : delivery :=
  let vector := Z.land entry 0xFF in
  if Z.testbit entry 16 then Masked
  else match (if loaded s then idt_get (IDT s) vector else None) with Some h => Runs vector h | None => Unhandled vector end.

#[local] Arguments Z.testbit : simpl never.

(** A line of the I/O APIC, and the local timer. *)
Definition line_delivery s (irq : Z) : delivery := vector_delivery s (ioapic_regs (i_mmio s) (0x10 + irq * 2)).
Definition timer_delivery s : delivery := vector_delivery s (lapic_regs (i_mmio s) 0x320).

Lemma register_spec v h s :
  32 ≤ v < 256 → ∃ i, register_interrupt_handler v h s = Done (mkIntr (APIC_BASE s) (IOAPIC_BASE s) i (loaded s)
    (ISR_CFG_ADDR s) (VIRTIO_BLK_COMPLETE s) (i_ports s) (i_mmio s) (i_apic_msr s) (i_if s)) ∧
    ∀ w, idt_get i w = if w =? v then Some h else idt_get (IDT s) w.
Proof.
  intros Hv. destruct (idt_index_get v h (IDT s) Hv) as (i & E & Hi). exists i.
  unfold register_interrupt_handler. by rewrite E.
Qed.

Lemma ioapic_write_spec reg v s :
  ioapic_at (IOAPIC_BASE s) → 0x10 ≤ reg < 0x40 →
  ∃ m, ioapic_write reg v s = with_mmio m s ∧
    (∀ r, ioapic_regs m r = if r =? reg then v else ioapic_regs (i_mmio s) r) ∧
    ∀ r, lapic_regs m r = lapic_regs (i_mmio s) r.
Proof.
  intros Ha Hr. unfold ioapic_write, ioapic_reg. eexists. split; [done|].
  destruct (ioapic_select (IOAPIC_BASE s) reg (i_mmio s) Ha ltac:(lia)) as (Hs & Hi & Hl).
  destruct (ioapic_window (IOAPIC_BASE s) v _ Ha ltac:(rewrite Hs; exact Hr)) as (Hi' & Hl').
  split; intros r; [by rewrite Hi', Hs, Hi|by rewrite Hl', Hl].
Qed.

(** A line is routed to the vector, unmasked; the other lines stay. *)
Lemma map_irq_spec irq v s :
  ioapic_at (IOAPIC_BASE s) → 0 ≤ irq < 24 →
  ∃ m, map_irq irq v s = with_mmio m s ∧
    (∀ j, ioapic_regs m (0x10 + j * 2) = if j =? irq then v else ioapic_regs (i_mmio s) (0x10 + j * 2)) ∧
    ∀ r, lapic_regs m r = lapic_regs (i_mmio s) r.
Proof.
  intros Ha Hi. unfold map_irq.
  destruct (ioapic_write_spec (0x10 + irq * 2) v s Ha ltac:(lia)) as (m1 & -> & Hi1 & Hl1).
  destruct (ioapic_write_spec (0x10 + irq * 2 + 1) 0 (with_mmio m1 s) Ha ltac:(lia)) as (m2 & -> & Hi2 & Hl2).
  exists m2. split; [done|]. split; intros j; [|by rewrite Hl2; simpl; rewrite Hl1].
  rewrite Hi2. simpl. rewrite Hi1. rewrite (proj2 (Z.eqb_neq _ (16 + irq * 2 + 1))) by lia.
  destruct (Z.eqb_spec (16 + j * 2) (16 + irq * 2)), (Z.eqb_spec j irq); lia || done.
Qed.

Lemma timer_init_spec s :
  lapic_at (APIC_BASE s) →
  ∃ m, timer_init_hardware s = enable_interrupts (with_mmio m s) ∧
    (∀ r, ioapic_regs m r = ioapic_regs (i_mmio s) r) ∧ lapic_regs m 0x320 = Z.lor TIMER_VECTOR 0x20000 ∧
    lapic_regs m 0x380 = TIMER_INITIAL_COUNT ∧ lapic_regs m 0x3E0 = TIMER_DIVIDE_CONFIG ∧
    lapic_regs m 0xF0 = lapic_regs (i_mmio s) 0xF0.
Proof.
  intros Ha. unfold timer_init_hardware, lapic_write, lapic_reg. simpl.
  set (m1 := write32 (APIC_BASE s ⊞ 0x3E0) _ _). set (m2 := write32 (APIC_BASE s ⊞ 0x320) _ m1).
  destruct (lapic_set (APIC_BASE s) 0x3E0 TIMER_DIVIDE_CONFIG (i_mmio s) Ha ltac:(set_solver)) as (L1 & I1 & _).
  destruct (lapic_set (APIC_BASE s) 0x320 (Z.lor TIMER_VECTOR 0x20000) m1 Ha ltac:(set_solver)) as (L2 & I2 & _).
  destruct (lapic_set (APIC_BASE s) 0x380 TIMER_INITIAL_COUNT m2 Ha ltac:(set_solver)) as (L3 & I3 & _).
  eexists. split; [done|]. split; [intros r; by rewrite I3; unfold m2; rewrite I2; unfold m1; rewrite I1|].
  by split_and!; rewrite L3; simpl; try done; unfold m2; rewrite L2; simpl; try done; unfold m1; rewrite L1.
Qed.
Lemma apic_enable_spec s :
  lapic_at (APIC_BASE s) →
  ∃ u m msr, apic_enable s = mkIntr (APIC_BASE s) (IOAPIC_BASE s) (IDT s) (loaded s) (ISR_CFG_ADDR s)
      (VIRTIO_BLK_COMPLETE s) u m msr (i_if s) ∧
    lapic_regs m 0xF0 = Z.lor (lapic_regs (i_mmio s) 0xF0) 0x100 ∧
    ∀ r, ioapic_regs m r = ioapic_regs (i_mmio s) r.
Proof.
  intros Ha. unfold apic_enable, lapic_write, lapic_reg. simpl. rewrite lapic_get by done. simpl.
  destruct (lapic_set (APIC_BASE s) 0xF0 (Z.lor (lapic_regs (i_mmio s) 0xF0) 0x100) (i_mmio s) Ha ltac:(set_solver))
    as (L & Hi & _).
  eexists _, _, _. split; [done|]. split; [by rewrite L|done].
Qed.

Lemma register_interrupt_spec dev x s irq :
  pci_ok (pci_dev dev) → ioapic_at (IOAPIC_BASE s) → 0 ≤ irq < 24 →
  field 1 (cfg (pci_dev dev) x) 0x3C = irq → field 1 (cfg (pci_dev dev) x) 0x3D ≠ 0 →
  ∃ x' i m, register_interrupt (Some dev) x s = Done (x', mkIntr (APIC_BASE s) (IOAPIC_BASE s) i (loaded s)
      (isr_cfg dev) (VIRTIO_BLK_COMPLETE s) (i_ports s) m (i_apic_msr s) (i_if s)) ∧
    (∀ w, idt_get i w = if w =? VIRTIO_BLK_VECTOR then Some H_virtio else idt_get (IDT s) w) ∧
    (∀ j, ioapic_regs m (0x10 + j * 2) = if j =? irq then VIRTIO_BLK_VECTOR else ioapic_regs (i_mmio s) (0x10 + j * 2)) ∧
    ∀ r, lapic_regs m r = lapic_regs (i_mmio s) r.
Proof.
  intros Hd Ha Hi Hirq Hpin. unfold register_interrupt, interrupt_line, interrupt_pin.
  destruct (pci_read_u8_spec (pci_dev dev) 0x3C x Hd ltac:(lia)) as (x1 & -> & Hs1).
  destruct (pci_read_u8_spec (pci_dev dev) 0x3D x1 Hd ltac:(lia)) as (x2 & -> & Hs2).
  assert (cfg (pci_dev dev) x1 = cfg (pci_dev dev) x) as -> by (unfold cfg; by rewrite Hs1).
  rewrite (proj2 (Z.eqb_neq _ 0)) by done. rewrite Hirq.
  set (s1 := mkIntr _ _ _ _ _ _ _ _ _ _).
  destruct (map_irq_spec irq VIRTIO_BLK_VECTOR s1 Ha Hi) as (m & -> & Hm & Hl).
  destruct (register_spec VIRTIO_BLK_VECTOR H_virtio (with_mmio m s1) ltac:(done)) as (i & -> & Hg).
  exists x2, i, m. by split_and!.
Qed.

(** C9: interrupts reach their handlers.  The disk's configuration space names a
    line from 2 to 23 of the I/O APIC and a pin other than 0, and the two APICs
    answer at their physical addresses and in the direct map.  After the steps of
    [_start] the local APIC is enabled; its timer is periodic, unmasked, and raises the vector of the
    preemption handler; line 1 of the I/O APIC runs the keyboard's handler, and
    the line in the disk's configuration space runs the virtio handler, which
    knows the address of its status register.  Line 0, the legacy timer, is
    unmasked too and raises vector 32, which has no handler. *)
Theorem boot_routes_interrupts off dev x s irq :
  APIC_BASE s = 0xFEE00000 → IDT s = IDT_new →
  lapic_at 0xFEE00000 → lapic_at (off ⊞ 0xFEE00000) → ioapic_at (off ⊞ 0xFEC00000) →
  pci_ok (pci_dev dev) → field 1 (cfg (pci_dev dev) x) 0x3C = irq → 2 ≤ irq < 24 →
  field 1 (cfg (pci_dev dev) x) 0x3D ≠ 0 →
  ∃ x' s', boot_interrupts off (Some dev) x s = Done (x', s') ∧
    Z.testbit (lapic_regs (i_mmio s') 0xF0) 8 = true ∧ i_if s' = true ∧
    timer_delivery s' = Runs TIMER_VECTOR H_timer ∧ Z.testbit (lapic_regs (i_mmio s') 0x320) 17 = true ∧
    line_delivery s' 1 = Runs 33 H_keyboard ∧
    line_delivery s' irq = Runs VIRTIO_BLK_VECTOR H_virtio ∧ ISR_CFG_ADDR s' = isr_cfg dev ∧
    line_delivery s' 0 = Unhandled 32.
Proof.
  intros Hb Hidt Ha0 Ha1 Hio Hd Hirq Hir Hpin. unfold boot_interrupts, boot_apic, boot_ioapic, timer_register_handler.
  destruct (apic_enable_spec s ltac:(by rewrite Hb)) as (u & m0 & msr & -> & Hsvr & _).
  match goal with |- context [register_interrupt_handler TIMER_VECTOR _ ?s0] =>
    destruct (register_spec TIMER_VECTOR H_timer s0 ltac:(done)) as (i1 & -> & G1) end. cbn [mbind outcome_bind].
  match goal with |- context [register_interrupt_handler 33 _ ?s0] =>
    destruct (register_spec 33 H_keyboard s0 ltac:(done)) as (i2 & -> & G2) end. cbn [mbind outcome_bind].
  unfold init_ioapic. set (s2 := ioapic_set_base _ _).
  destruct (map_irq_spec 1 33 s2 Hio ltac:(lia)) as (m1 & -> & R1 & L1).
  destruct (map_irq_spec 0 32 (with_mmio m1 s2) Hio ltac:(lia)) as (m2 & -> & R2 & L2).
  match goal with |- context [register_interrupt _ x ?s0] =>
    destruct (register_interrupt_spec dev x s0 irq Hd Hio ltac:(lia) Hirq Hpin) as (x' & i3 & m3 & -> & G3 & R3 & L3) end.
  cbn [mbind outcome_bind].
  match goal with |- context [timer_init_hardware ?s0] =>
    destruct (timer_init_spec s0 Ha1) as (m4 & -> & R4 & T4 & _ & _ & S4) end.
  simpl in *. rewrite Hidt in *. eexists x', _. split; [done|].
  unfold timer_delivery, line_delivery, vector_delivery. simpl. split_and!; try done.
  - rewrite S4, L3, L2, L1, Hsvr, Z.lor_spec. apply orb_true_r.
  - rewrite T4. simpl. by rewrite G3, G2, G1.
  - by rewrite T4.
  - rewrite R4, (R3 1), (R2 1), (R1 1), (proj2 (Z.eqb_neq 1 irq)) by lia. simpl. by rewrite G3, G2.
  - rewrite R4, R3, Z.eqb_refl. simpl. by rewrite G3.
  - rewrite R4, (R3 0), (R2 0), (proj2 (Z.eqb_neq 0 irq)) by lia. simpl. rewrite G3, G2, G1. simpl.
    unfold IDT_new. by rewrite !idt_field_get, idt_new_get.
Qed.
End route.

(* ------------------------------------------------------------------ *)
(** ** The legacy controllers: lemmas *)

(** An 8259: the control word it waits for next (0: none), its first vector and
    its mask. *)
Record pic := mkPic { pic_stage : Z; pic_base : Z; pic_mask : Z }.

Definition pic_data (v : Z) (p : pic) : pic :=
  if pic_stage p =? 2 then mkPic 3 v (pic_mask p)
  else if pic_stage p =? 3 then mkPic 4 (pic_base p) (pic_mask p)
  else if pic_stage p =? 4 then mkPic 0 (pic_base p) (pic_mask p)
  else mkPic 0 (pic_base p) v.

Definition pic_port (second : bool) : Z := if second then 0xA0 else 0x20.

Class Pic8259 (U : Type) `{Ports U} := {
  pic_of : U → bool → pic;
  pic_icw1 : ∀ b u c, pic_of (outb (pic_port b) 0x11 u) c = if Bool.eqb b c then mkPic 2 (pic_base (pic_of u b)) 0 else pic_of u c;
  pic_word : ∀ b v u c, pic_of (outb (pic_port b + 1) v u) c = if Bool.eqb b c then pic_data v (pic_of u b) else pic_of u c;
}.

(** Both controllers end up operational, with every line masked and vectors that
    do not collide with exceptions. *)
Lemma disable_pic_spec {U} `{Pic8259 U} (u : U) b :
  pic_of (disable_pic u) b = mkPic 0 (if b then 0x28 else 0x20) 0xFF.
Proof.
  unfold disable_pic. change 0x21 with (pic_port false + 1). change 0xA1 with (pic_port true + 1).
  change 0xA0 with (pic_port true). change (outb 0x20 0x11 u) with (outb (pic_port false) 0x11 u).
  rewrite !pic_word, !pic_icw1. by destruct b.
Qed.

(** The 8042: its configuration byte, whether the keyboard is enabled, what it
    expects or offers next. *)
Inductive kbc_phase := Idle | Reply (delay : nat) | AwaitConfig.
Record kbc := mkKbc { kbc_config : Z; kbc_on : bool; kbc_state : kbc_phase }.

Class I8042 (U : Type) `{Ports U} := {
  kbc_of : U → kbc;
  kbc_flush : ∀ u, kbc_state (kbc_of u) = Idle → kbc_of (inb 0x60 u).2 = kbc_of u;
  kbc_enable : ∀ u, kbc_state (kbc_of u) = Idle → kbc_of (outb 0x64 0xAE u) = mkKbc (kbc_config (kbc_of u)) true Idle;
  kbc_ask : ∀ u, kbc_state (kbc_of u) = Idle →
    ∃ d, (d < PS2_POLLS)%nat ∧ kbc_of (outb 0x64 0x20 u) = mkKbc (kbc_config (kbc_of u)) (kbc_on (kbc_of u)) (Reply d);
  kbc_poll : ∀ u d, kbc_state (kbc_of u) = Reply d →
    (Z.land (inb 0x64 u).1 0x01 = 0 ↔ d ≠ O) ∧
    kbc_of (inb 0x64 u).2 = mkKbc (kbc_config (kbc_of u)) (kbc_on (kbc_of u)) (Reply (pred d));
  kbc_reply : ∀ u, kbc_state (kbc_of u) = Reply 0 →
    (inb 0x60 u).1 = kbc_config (kbc_of u) ∧ kbc_of (inb 0x60 u).2 = mkKbc (kbc_config (kbc_of u)) (kbc_on (kbc_of u)) Idle;
  kbc_await : ∀ u, kbc_state (kbc_of u) = Idle →
    kbc_of (outb 0x64 0x60 u) = mkKbc (kbc_config (kbc_of u)) (kbc_on (kbc_of u)) AwaitConfig;
  kbc_set : ∀ u v, kbc_state (kbc_of u) = AwaitConfig → kbc_of (outb 0x60 v u) = mkKbc v (kbc_on (kbc_of u)) Idle;
}.

Section ps2.
Context {U : Type} `{I8042 U}.

Lemma ps2_wait_spec n d (u : U) :
  (d < n)%nat → kbc_state (kbc_of u) = Reply d →
  kbc_of (ps2_wait n u) = mkKbc (kbc_config (kbc_of u)) (kbc_on (kbc_of u)) (Reply 0).
Proof.
  revert d u. induction n as [|n IH]; intros d u Hd Hs; [lia|]. cbn [ps2_wait].
  destruct (kbc_poll u d Hs) as [Hst Hk]. destruct (inb 0x64 u) as [status u']. simpl in Hst, Hk.
  destruct d as [|d].
  - rewrite (proj2 (Z.eqb_neq _ 0)) by tauto. done.
  - rewrite (proj2 Hst) by done. change (negb (0 =? 0)) with false. cbv iota. rewrite (IH d) by (done || lia || by rewrite Hk). by rewrite Hk.
Qed.

(** The keyboard is enabled with its interrupt and scan code translation; the other
    bits of the configuration are kept. *)
Lemma init_ps2_keyboard_spec (u : U) :
  kbc_state (kbc_of u) = Idle →
  kbc_of (init_ps2_keyboard u) = mkKbc (Z.lor (kbc_config (kbc_of u)) 0x41) true Idle.
Proof.
  intros Hs. unfold init_ps2_keyboard. pose proof (kbc_flush u Hs) as K1.
  destruct (inb 0x60 u) as [w u1]. simpl in K1. rewrite <-K1 in Hs |- *.
  set (u2 := outb 0x64 0xAE u1). pose proof (kbc_enable u1 Hs) as K2. fold u2 in K2.
  destruct (kbc_ask u2) as (d & Hd & K3); [by rewrite K2|]. set (u3 := outb 0x64 0x20 u2) in *.
  pose proof (ps2_wait_spec PS2_POLLS d u3 Hd ltac:(by rewrite K3)) as K4. set (u4 := ps2_wait PS2_POLLS u3) in *.
  destruct (kbc_reply u4) as [V5 K5]; [by rewrite K4|]. destruct (inb 0x60 u4) as [config u5]. simpl in V5, K5.
  pose proof (kbc_await u5 ltac:(by rewrite K5)) as K6.
  rewrite kbc_set by (by rewrite K6). rewrite K6, K5, V5, K4, K3, K2. simpl. by rewrite <-Z.lor_assoc.
Qed.
End ps2.

(* ------------------------------------------------------------------ *)
(** ** Devices that behave as documented *)

Record gdt_model := mkGdtModel { gm_entries : gmap Z descriptor; gm_next : Z }.

#[global, refine] Instance gdt_model_lib : GdtLib gdt_model := {
  gdt_new := mkGdtModel ∅ 1;
  gdt_append d t := (8 * gm_next t + desc_rpl d, mkGdtModel (<[gm_next t := d]> (gm_entries t)) (gm_next t + desc_slots d));
  gdt_entry t i := gm_entries t !! i;
  gdt_next := gm_next;
}.
Proof.
  - done.
  - intros d t Hn sel t' [= <- <-]. split_and!; [done|done|by apply lookup_insert_eq|].
    intros i Hi. apply lookup_insert_ne. lia.
Defined.

#[global, refine] Instance idt_model_lib : IdtLib (gmap Z handler) := {
  idt_new := ∅;
  idt_field v h i := <[v := h]> i;
  idt_index v h i := if v <? 32 then Panic else Done (<[v := h]> i);
  idt_get i v := i !! v;
}.
Proof.
  - done.
  - intros v h i w. destruct (Z.eqb_spec w v) as [->|]; [apply lookup_insert_eq|by apply lookup_insert_ne].
  - intros v h i Hv. rewrite (proj2 (Z.ltb_ge v 32)) by lia. eexists. split; [done|]. intros w.
    destruct (Z.eqb_spec w v) as [->|]; [apply lookup_insert_eq|by apply lookup_insert_ne].
Defined.

(** The controllers, the local APIC at its physical address and both in the direct
    map at [DEMO_HHDM]. *)
Record apic_model := mkApicModel { am_lapic : Z → Z; am_ioapic : Z → Z; am_sel : Z }.

Definition DEMO_HHDM : Z := 0xFFFF800000000000.
Definition DEMO_IOAPIC : Z := 0xFFFF8000FEC00000.
Definition demo_lapic (a : Z) : bool := (a =? 0xFEE00000) || (a =? 0xFFFF8000FEE00000).

(** The offset in a page of the local APIC. *)
Definition lapic_offset (a : Z) : option Z :=
  if demo_lapic (a - a `mod` 4096) then Some (a `mod` 4096) else None.

#[global] Instance apic_model_mmio : Mmio apic_model := {
  read8 _ m := (0, m);
  read32 a m :=
    match lapic_offset a with
    | Some o => (am_lapic m o, m)
    | None => (if a =? DEMO_IOAPIC + 0x10 then am_ioapic m (am_sel m) else 0, m)
    end;
  write32 a v m :=
    match lapic_offset a with
    | Some o => mkApicModel (λ r, if r =? o then v else am_lapic m r) (am_ioapic m) (am_sel m)
    | None =>
        if a =? DEMO_IOAPIC then mkApicModel (am_lapic m) (am_ioapic m) v
        else if a =? DEMO_IOAPIC + 0x10 then
          mkApicModel (am_lapic m) (λ r, if r =? am_sel m then v else am_ioapic m r) (am_sel m)
        else m
    end;
}.

Lemma lapic_offset_spec b o : demo_lapic b = true → 0 ≤ o < 4096 → lapic_offset (b ⊞ o) = Some o.
Proof.
  unfold demo_lapic, lapic_offset. intros [Hb%Z.eqb_eq|Hb%Z.eqb_eq]%orb_true_iff Ho; subst b; rewrite wrap_small by (split; lia).
  - replace ((_ + o) `mod` 4096) with o by (Z.to_euclidean_division_equations; lia). by rewrite Z.add_simpl_r.
  - replace ((_ + o) `mod` 4096) with o by (Z.to_euclidean_division_equations; lia). by rewrite Z.add_simpl_r.
Qed.

#[global, refine] Instance apic_model_apics : Apics apic_model := {
  lapic_at b := demo_lapic b = true;
  ioapic_at b := b = DEMO_IOAPIC;
  lapic_regs := am_lapic;
  ioapic_regs := am_ioapic;
  ioapic_sel := am_sel;
}.
Proof.
  - intros b m Hb. unfold read32, apic_model_mmio. by rewrite lapic_offset_spec.
  - intros b o v m Hb Ho. unfold write32, apic_model_mmio.
    rewrite lapic_offset_spec; [done|done|]. repeat (apply elem_of_cons in Ho as [->|Ho]; [done|]). by apply elem_of_nil in Ho.
  - intros b v m -> Hv. by split_and!.
  - intros b v m -> Hs. by split_and!.
Defined.

(** Two 8259 and an 8042 that answers after some polls. *)
Record legacy_model := mkLegacy { lm_pic1 : pic; lm_pic2 : pic; lm_kbc : kbc }.

Definition with_kbc (k : kbc) (u : legacy_model) : legacy_model := mkLegacy (lm_pic1 u) (lm_pic2 u) k.

Definition kbc_command (v : Z) (k : kbc) : kbc :=
  if v =? 0xAE then mkKbc (kbc_config k) true (kbc_state k)
  else if v =? 0x20 then mkKbc (kbc_config k) (kbc_on k) (Reply 3)
  else if v =? 0x60 then mkKbc (kbc_config k) (kbc_on k) AwaitConfig else k.

#[global] Instance legacy_ports : Ports legacy_model := {
  inb port u :=
    let k := lm_kbc u in
    match kbc_state k with
    | Reply d =>
        if port =? 0x64 then (if d is O then 1 else 0, with_kbc (mkKbc (kbc_config k) (kbc_on k) (Reply (pred d))) u)
        else if port =? 0x60 then (kbc_config k, with_kbc (mkKbc (kbc_config k) (kbc_on k) Idle) u) else (0, u)
    | _ => (0, u)
    end;
  outb port v u :=
    if port =? 0x20 then mkLegacy (mkPic 2 (pic_base (lm_pic1 u)) 0) (lm_pic2 u) (lm_kbc u)
    else if port =? 0xA0 then mkLegacy (lm_pic1 u) (mkPic 2 (pic_base (lm_pic2 u)) 0) (lm_kbc u)
    else if port =? 0x21 then mkLegacy (pic_data v (lm_pic1 u)) (lm_pic2 u) (lm_kbc u)
    else if port =? 0xA1 then mkLegacy (lm_pic1 u) (pic_data v (lm_pic2 u)) (lm_kbc u)
    else if port =? 0x64 then with_kbc (kbc_command v (lm_kbc u)) u
    else if port =? 0x60 then
      with_kbc (if kbc_state (lm_kbc u) is AwaitConfig then mkKbc v (kbc_on (lm_kbc u)) Idle else lm_kbc u) u
    else u;
}.

#[global, refine] Instance legacy_pic : Pic8259 legacy_model := { pic_of u b := if b then lm_pic2 u else lm_pic1 u }.
Proof. all: by intros [] **; destruct c. Defined.

#[global, refine] Instance legacy_kbc : I8042 legacy_model := { kbc_of := lm_kbc }.
Proof.
  - intros u Hs. unfold inb, legacy_ports. by rewrite Hs.
  - intros [? ? [? ? ?]] Hs. simpl in Hs. by subst.
  - intros u Hs. exists 3%nat. split; [unfold PS2_POLLS; lia|done].
  - intros u d Hs. unfold inb, legacy_ports. rewrite Hs. simpl. split; [|done]. by destruct d.
  - intros u Hs. unfold inb, legacy_ports. by rewrite Hs.
  - done.
  - intros u v Hs. unfold outb, legacy_ports. simpl. by rewrite Hs.
Defined.

Lemma segment_selectors_witness :
  sg_cs (gdt_init 65536 (mkSegments None None None 0 0 0 0 0 0 0 : segments gdt_model)) = 0x08.
Proof.
  destruct (segment_selectors 65536 (mkSegments None None None 0 0 0 0 0 0 0 : segments gdt_model) 0 0 0 0 0 eq_refl)
    as (gdt & _ & _ & _ & Hs & _). exact (f_equal (λ p, p.1.1) Hs).
Defined.

(** The disk of the sample bus, with its interrupt on line 11. *)
Definition irq_bus : pci_model :=
  mkPciModel {[ (0, 4, 0) := zsplice (to_le 4 0x10421AF4 ++ zrep 252 0) 0x3C [11; 1] ]} 0.
Definition irq_disk : VirtioBlock :=
  mkVirtioBlock 0 0 0 0xFFFF8000C0002000 0 (mkPciDevice 0 4 0 0x1AF4 0x1042) None DEMO_HHDM 0.
Definition irq_start : intr legacy_model apic_model (gmap Z handler) :=
  mkIntr 0xFEE00000 0xFEC00000 IDT_new false 0 false
    (mkLegacy (mkPic 0 8 0) (mkPic 0 0x70 0) (mkKbc 0x20 false Idle))
    (mkApicModel (λ _, 0xFF) (λ _, 0x10000) 0) 0xFEE00900 false.

Lemma boot_routes_interrupts_witness :
  ∃ x' s', boot_interrupts DEMO_HHDM (Some irq_disk) irq_bus irq_start = Done (x', s') ∧
    line_delivery s' 1 = Runs 33 H_keyboard ∧ line_delivery s' 11 = Runs 34 H_virtio ∧
    line_delivery s' 0 = Unhandled 32.
Proof.
  destruct (boot_routes_interrupts DEMO_HHDM irq_disk irq_bus irq_start 11) as (x' & s' & E & _ & _ & _ & _ & H1 & H11 & _ & H0);
    [done..|by unfold pci_ok; simpl; lia|by vm_compute|lia|by vm_compute|].
  exists x', s'. exact (conj E (conj H1 (conj H11 H0))).
Defined.
