(* ===== verification/Preempt.v ===== *)
(** * Preemption (apic/src/timer.rs with task/src)

    The timer's handler calls the scheduler and acknowledges its interrupt (EOI)
    only when the call returns, that is, when the task it interrupted runs again.
    This file puts the scheduler's operations and the interrupts of the timer, the
    keyboard and the disk into one step relation, with the vectors the local APIC
    has in service.

    Shown here: on every execution from boot at most ten ticks are counted.  The
    first switch leaves the boot placeholder in the handler, it never runs again,
    and without its EOI no interrupt is delivered any more. *)

From S2P Require Import Prelude Task Sched Memory KShell Boot Intr.

(* ------------------------------------------------------------------ *)
(** ** Acknowledging the timer *)

(** The local APIC's vectors in service, the highest first: it delivers an
    interrupt only if its priority class is above those of all of them, and
    EOI takes the first off.  [owed] are the tasks that were switched away
    from inside the timer's handler, before its EOI. *)
Record irqs := mkIrqs { in_service : list Z; owed : list loc }.

Definition accepts (isr : list Z) (v : Z) : bool := forallb (λ w, w `div` 16 <? v `div` 16) isr.

(** The timer fires: an interrupt that is not accepted stays pending.  The handler
    calls the scheduler before EOI.  Without a switch it goes on to EOI.  After a
    switch the new task runs: one that was itself switched away from in the handler
    goes on to EOI there, any other does not execute it. *)
Definition timer_irq (st : Z * sched * irqs) : outcome (Z * sched * irqs) :=
  let '(tick_count, s, q) := st in
  if negb (accepts (in_service q) TIMER_VECTOR) then Done st
  else
    let old := cur s in
    '(tick_count, s) ← timer_interrupt_handler tick_count s;
    match old, cur s with
    | Some o, Some n =>
        if bool_decide (o = n) then Done (tick_count, s, q)
        else if bool_decide (n ∈ owed q) then
          Done (tick_count, s, mkIrqs (in_service q) (o :: filter (λ l, l ≠ n) (owed q)))
        else Done (tick_count, s, mkIrqs (TIMER_VECTOR :: in_service q) (o :: owed q))
    | _, _ => Done (tick_count, s, q)
    end.

(** The handler that is not registered: it acknowledges first. *)
Definition timer_interrupt (st : Z * sched * irqs) : outcome (Z * sched * irqs) :=
  let '(TICKS, s, q) := st in
  if negb (accepts (in_service q) TIMER_VECTOR) then Done st
  else
    s ← schedule s;
    Done (TICKS ⊞ 1, s, q).

(** It would not stop preemption: in every sound state it counts, switches and leaves
    nothing in service. *)
Lemma timer_interrupt_acknowledges c s o :
  sched_inv s → is_running s →
  ∃ s', timer_interrupt (c, s, mkIrqs [] o) = Done (c ⊞ 1, s', mkIrqs [] o) ∧ sched_inv s'.
Proof.
  intros Hi Hr. destruct (schedule_inv s Hi Hr) as (s' & E & Hi'). exists s'. split; [|done].
  unfold timer_interrupt. cbn [accepts in_service forallb negb]. by rewrite E.
Qed.

(** ** Executions *)

Abbreviation machine_state := (Z * sched * irqs)%type.

(** A task that another one gave the CPU to: if it was switched away from in the
    timer's handler it returns there and executes EOI. *)
Definition resume (old new : option loc) (q : irqs) : irqs :=
  match new with
  | Some n =>
      if negb (bool_decide (old = new)) && bool_decide (n ∈ owed q)
      then mkIrqs (tail (in_service q)) (filter (λ l, l ≠ n) (owed q)) else q
  | None => q
  end.

(** The boot placeholder is on the CPU. *)
Definition on_placeholder (s : sched) : Prop :=
  ∃ l t, cur s = Some l ∧ s_heap s !! l = Some t ∧ t_kstack t = 0.

Inductive event := EvTimer | EvDevice (vector : Z) | EvOp (op : sched_op).

(** The timer fires while a task runs; a device's interrupt is delivered, and its
    handler, which does not schedule, acknowledges it; or the running task does
    an operation of the scheduler itself.  After boot, [_start] only waits. *)
Inductive mstep : event → machine_state → machine_state → Prop :=
  | ms_timer st st' : is_running st.1.2 → timer_irq st = Done st' → mstep EvTimer st st'
  | ms_device v st :
      v ∈ [33; VIRTIO_BLK_VECTOR] → accepts (in_service st.2) v = true → mstep (EvDevice v) st st
  | ms_op op c s s' q :
      op_ok op s → (on_placeholder s → ∃ r, op = OpCompute r) → do_op op s = Done s' →
      mstep (EvOp op) (c, s, q) (c, s', resume (cur s) (cur s') q).

Inductive mrun : list event → machine_state → machine_state → Prop :=
  | mrun_nil st : mrun [] st st
  | mrun_cons e es st1 st2 st3 : mstep e st1 st2 → mrun es st2 st3 → mrun (e :: es) st1 st3.

(* ------------------------------------------------------------------ *)
(** ** Acknowledging the timer: lemmas *)

(** A tick within a time slice is acknowledged. *)
Lemma timer_irq_idle c s : 0 ≤ c < 9 → timer_irq (c, s, mkIrqs [] []) = Done (c + 1, s, mkIrqs [] []).
Proof.
  intros Hc. unfold timer_irq. cbn [accepts in_service forallb negb]. change (Z.of_nat 1) with 1.
  pose proof (ticks_idle 1 c s ltac:(lia)) as Ht. rewrite ticks_S, Z.mod_small in Ht by (unfold TIME_SLICE_TICKS; lia).
  unfold TIME_SLICE_TICKS in Ht. specialize (Ht ltac:(lia) ltac:(lia)).
  destruct (timer_interrupt_handler c s) as [[c' s']|]; [|done]. injection Ht as -> ->. cbn [mbind outcome_bind].
  destruct (cur s); [by rewrite bool_decide_eq_true_2|done].
Qed.

(** The boot placeholder runs; the shell waits for its first turn. *)
Definition waiting (l0 : loc) (st : machine_state) : Prop :=
  let '(c, s, q) := st in
  0 ≤ c < 10 ∧ q = mkIrqs [] [] ∧
  ∃ h l t0 t ct ni hk ks r, s = mkSched h (Some (mkRunQueue [l] (Some l0) [])) ct ni hk ks r ∧
    inv_core h [l] (Some l0) [] ∧ l0 ≠ l ∧ h !! l0 = Some t0 ∧ t_kstack t0 = 0 ∧
    t_state t0 = Running ∧ h !! l = Some t.

(** The placeholder is gone, and owes its EOI. *)
Definition lost (l0 : loc) (st : machine_state) : Prop :=
  let '(c, s, q) := st in
  c = 10 ∧ q = mkIrqs [TIMER_VECTOR] [l0] ∧ sched_inv s ∧ parked (λ t, t_kstack t = 0) l0 s.

Lemma lost_quiet l0 st e st' :
  lost l0 st → mstep e st st' →
  match e with EvTimer => st' = st | EvDevice _ => False | EvOp _ => True end.
Proof.
  destruct st as [[c s] q]. intros (-> & -> & _) Hs. inversion Hs; subst; simpl in *; [|naive_solver set_solver|done].
  unfold timer_irq in *. simpl in *. by simplify_eq.
Qed.

Lemma lost_step l0 st e st' : lost l0 st → mstep e st st' → lost l0 st'.
Proof.
  intros Hl Hs. pose proof (lost_quiet _ _ _ _ Hl Hs) as Hq. destruct e as [|v|op]; [by subst|done|].
  inversion Hs as [| |? c s s' q Hok Hph Hdo]; subst. destruct Hl as (-> & -> & Hi & Hp).
  assert (sched_step s s') as Hstep by (by econstructor).
  assert (parked (λ t, t_kstack t = 0) l0 s') as Hp' by (eapply parked_step; [naive_solver|exact Hi|exact Hp|exact Hstep]).
  split_and!; [done| |by eapply step_inv|exact Hp'].
  unfold resume. destruct (cur s') as [n|] eqn:En; [|done]. destruct Hp' as [Hc _].
  rewrite (bool_decide_eq_false_2 (n ∈ _)), andb_false_r by (simpl; set_solver). done.
Qed.

(** The tenth tick. *)
Lemma waiting_switch l0 s :
  waiting l0 (9, s, mkIrqs [] []) → ∃ st', timer_irq (9, s, mkIrqs [] []) = Done st' ∧ lost l0 st'.
Proof.
  intros (_ & _ & h & l & t0 & t & ct & ni & hk & ks & r & -> & Hi & Hne & H0 & Hk & Hr & Hl).
  set (s := mkSched _ _ _ _ _ _ _). unfold timer_irq, timer_interrupt_handler. cbn [accepts in_service forallb negb].
  change (9 ⊞ 1) with 10. change (10 `mod` TIME_SLICE_TICKS =? 0) with true. cbv iota.
  destruct (schedule_inv s) as (s' & E & Hinv').
  { by eexists _, _, _. }
  { unfold is_running. simpl. by rewrite H0. }
  pose proof E as E'. unfold s in E'. rewrite (schedule_boot_eq _ _ _ _ _ _ _ _ l0 t0 l t) in E' by done.
  injection E' as E'. rewrite E. cbn [mbind outcome_bind]. rewrite <-E' in *.
  change (cur s) with (Some l0). change (cur (switched _ _ _ _ _ _ _ _ _ _ _)) with (Some l). cbv iota beta.
  rewrite bool_decide_eq_false_2, bool_decide_eq_false_2 by (simpl; set_solver || done).
  eexists. split; [done|]. split_and!; [done|done|exact Hinv'|]. split; [by intros [= ->]|].
  eexists. split; [simpl; apply lookup_insert_eq|done].
Qed.

Lemma waiting_step l0 st e st' : waiting l0 st → mstep e st st' → waiting l0 st' ∨ lost l0 st'.
Proof.
  intros Hw Hs. inversion Hs as [? ? Hrun Ht|?|op c s s' q Hok Hph Hdo]; subst.
  - destruct st as [[c s] q]. destruct (decide (c = 9)) as [->|Hc].
    + right. assert (q = mkIrqs [] []) as -> by apply Hw.
      destruct (waiting_switch l0 s Hw) as (st1 & E & Hl). rewrite E in Ht. by simplify_eq.
    + left. destruct Hw as (Hc' & -> & Hw).
      rewrite timer_irq_idle in Ht by lia. injection Ht as <-. split; [lia|]. by split.
  - by left.
  - left. destruct Hw as (Hc & -> & h & l & t0 & t & ct & ni & hk & ks & r & -> & Hi & Hne & H0 & Hk & Hr & Hl).
    destruct Hph as [r' ->]; [by exists l0, t0|]. simpl in Hdo. injection Hdo as <-. unfold resume, cur. simpl.
    rewrite bool_decide_eq_true_2 by done. split; [done|]. split; [done|].
    exists h, l, t0, t, ct, ni, hk, ks, r'. by split_and!.
Qed.

Lemma phases l0 es st st' : mrun es st st' → waiting l0 st ∨ lost l0 st → waiting l0 st' ∨ lost l0 st'.
Proof.
  induction 1 as [|e es st1 st2 st3 Hs _ IH]; [done|]. intros [Hw|Hl]; apply IH; [by eapply waiting_step|].
  right. by eapply lost_step.
Qed.

(** The timer alone leads through both phases. *)
Lemma ten_ticks l0 s :
  waiting l0 (0, s, mkIrqs [] []) →
  ∃ st', mrun (replicate 10 EvTimer) (0, s, mkIrqs [] []) st' ∧ lost l0 st'.
Proof.
  intros Hw. assert (∀ k, waiting l0 (Z.of_nat k, s, mkIrqs [] []) → is_running s) as Hrun.
  { intros k (_ & _ & h & l & t0 & t & ct & ni & hk & ks & r & -> & _ & _ & H0 & _ & Hr & _).
    unfold is_running. simpl. by rewrite H0. }
  assert (∀ k, (k ≤ 9)%nat → ∃ st', mrun (replicate (S k) EvTimer) (9 - Z.of_nat k, s, mkIrqs [] []) st' ∧ lost l0 st') as Hk.
  { induction k as [|k IH]; intros Hk.
    - destruct (waiting_switch l0 s) as (st' & E & Hl); [by destruct Hw as (_ & _ & ?)|]. exists st'. split; [|done].
      econstructor; [constructor; [by apply (Hrun 0%nat)|exact E]|constructor].
    - destruct IH as (st' & Hm & Hl); [lia|]. exists st'. split; [|done]. simpl replicate.
      econstructor; [|exact Hm]. constructor; [by apply (Hrun 0%nat)|].
      rewrite timer_irq_idle by lia. do 3 f_equal. lia. }
  exact (Hk 9%nat ltac:(lia)).
Qed.

Section theorem.
Context {PT : Type} `{Mapper PT}.

Lemma boot_waiting entry own (pa : PageAllocator PT) c id next' pa' s :
  pa_inv kpage own pa →
  boot_tasks entry KSTACK_VA_START (Some pa) (sched_boot c) = Done (Ok id, next', Some pa', s) →
  ∃ l0, cur s = Some l0 ∧ waiting l0 (0, s, mkIrqs [] []).
Proof.
  intros Hpa Hb. destruct (boot_tasks_state _ _ _ _ _ _ _ _ Hpa Hb)
    as (_ & l0 & t0 & l & t & ni & Hne & -> & Hk0 & Hr0 & _ & Hr & Hw & Hks & _).
  exists l0. split; [done|]. split; [done|]. split; [done|].
  eexists _, l, t0, t, _, _, _, _, _. split; [done|].
  split; [|split_and!; try done; by simplify_map_eq].
  assert (∀ x tx, ({[l := t; l0 := t0]} : gmap loc TaskCB) !! x = Some tx → x = l ∧ tx = t ∨ x = l0 ∧ tx = t0) as Hx.
  { intros x tx [[<- <-]|[_ [<- <-]%lookup_singleton_Some]]%lookup_insert_Some; auto. }
  split.
  - intros x tx [[-> ->]|[-> ->]]%Hx Hst; [by left|congruence].
  - intros x ->%list_elem_of_singleton. exists t. rewrite lookup_insert_eq, Hks. by split_and!.
  - apply NoDup_singleton.
  - intros x tx [[-> ->]|[-> ->]]%Hx Hk Hst; [congruence|done].
  - intros x [= <-]. exists t0. by simplify_map_eq; auto.
  - intros x Hz. by apply not_elem_of_nil in Hz.
  - apply NoDup_nil_2.
Qed.

(** C10: preemption stops after the first switch.  The timer alone brings the system
    to its tenth tick; and on every execution from boot, whatever the tasks do and
    in whatever order interrupts come, at most ten ticks are counted.  Up to the
    tenth the boot placeholder runs.  After it the placeholder never runs again,
    no interrupt of the keyboard or the disk is delivered, and the timer has no
    effect: the handler that was left owes the EOI. *)
Theorem preemption_stops entry own (pa : PageAllocator PT) c id next' pa' s :
  pa_inv kpage own pa →
  boot_tasks entry KSTACK_VA_START (Some pa) (sched_boot c) = Done (Ok id, next', Some pa', s) →
  ∃ l0, cur s = Some l0 ∧
    (∃ s' q, mrun (replicate 10 EvTimer) (0, s, mkIrqs [] []) (10, s', q)) ∧
    ∀ es c' s' q, mrun es (0, s, mkIrqs [] []) (c', s', q) →
      c' ≤ 10 ∧ (c' < 10 → cur s' = Some l0) ∧
      (c' = 10 → cur s' ≠ Some l0 ∧
         ∀ e st'', mstep e (c', s', q) st'' →
           match e with EvTimer => st'' = (c', s', q) | EvDevice _ => False | EvOp _ => True end).
Proof.
  intros Hpa Hb. destruct (boot_waiting _ _ _ _ _ _ _ _ Hpa Hb) as (l0 & Hc & Hw). exists l0. split; [done|]. split.
  - destruct (ten_ticks l0 s Hw) as ([[c' s'] q] & Hm & Hl). exists s', q. by destruct Hl as [-> _].
  - intros es c' s' q Hm. destruct (phases l0 _ _ _ Hm (or_introl Hw)) as [Hp|Hl].
    + destruct Hp as (? & _ & h & l & t0 & t & ct & ni & hk & ks & r & -> & _). split_and!; [lia|done|lia].
    + pose proof Hl as (-> & _ & _ & [Hn _]). split_and!; [done|lia|]. intros _. split; [done|].
      intros e st'' Hs. exact (lost_quiet _ _ _ _ Hl Hs).
Qed.
End theorem.

Lemma preemption_stops_witness :
  ∃ next' pa' s, boot_sample = Done (Ok 2, next', Some pa', s) ∧
    (∃ s' q, mrun (replicate 10 EvTimer) (0, s, mkIrqs [] []) (10, s', q)) ∧
    ∀ es c' s' q, mrun es (0, s, mkIrqs [] []) (c', s', q) → c' ≤ 10.
Proof.
  pose proof boot_sample_ok as Hr. destruct boot_sample as [[[[r next'] [pa'|]] s]|] eqn:E; [|discriminate Hr..].
  injection Hr as ->.
  destruct (preemption_stops 0xFFFFFFFF80004000 (λ _, False) boot_pa (mkCpu 0 0 0 0 0 0 0 0 4096)
    2 next' pa' s boot_pa_inv E) as (l0 & _ & Ht & Hn).
  exists next', pa', s. refine (conj eq_refl (conj Ht _)). intros es c' s' q Hm. exact (proj1 (Hn es c' s' q Hm)).
Defined.
