(* ===== verification/UserMode.v ===== *)
(** * The boot code's own way to user mode (kernel/src/main.rs)

    Beside the process creation of process.rs the boot code has its own copies of the
    steps that run a first program: the segments and the stack ([map_segment],
    [allocate_user_stack]) and [enter_user_mode], whose assembly is run on the machine of X86
    with its operands in the registers the compiler chose.

    Shown here: the program is loaded as by process creation, and entered in the
    state the trampoline of process.rs enters a spawned one in, up to the bit of
    RFLAGS that is always set. *)

From S2P Require Import Prelude Task X86 Memory Loader Process Intr.

(** The stack; the body of its loop is that of [user_stack_page]. *)
Section stack.
Context {PT : Type} `{Mapper PT} (VirtAddr_new : Z → outcome Z).

Definition main_allocate_user_stack (st : space PT) : outcome (Z * space PT) :=
  stack_top ← VirtAddr_new 0x00007FFFFFFFF000;
  stack_bottom ← VirtAddr_new (stack_top - 16384);
  last ← VirtAddr_new (stack_top - 1);
  st ← for_each (range_inclusive (containing stack_bottom) (containing last)) user_stack_page st;
  Done (stack_top, st).
End stack.

(** The registers of the operands [cr3], [user_ss], [rsp], [rflags], [user_cs], [rip]. *)
Record operands := mkOperands { o_cr3 : reg; o_ss : reg; o_rsp : reg; o_rflags : reg; o_cs : reg; o_rip : reg }.

Definition enter_user_mode_asm (o : operands) : list instr :=
  [MovToCr3 (o_cr3 o); Push (o_ss o); Push (o_rsp o); Push (o_rflags o); Push (o_cs o); Push (o_rip o); Iretq].

Definition INTERRUPT_FLAG : Z := 0x200.

Definition enter_user_mode {T} `{GdtLib T} (o : operands) (entry_point stack_pointer user_pml4 : Z) (seg : segments T)
    (m : machine) : outcome (option machine) :=
  selectors ← descriptors seg;
  let rflags := INTERRUPT_FLAG in
  let user_ss := user_data selectors in
  let user_cs := user_code selectors in
  let m := with_reg (λ f, reg_set (o_cr3 o) user_pml4 (reg_set (o_ss o) user_ss (reg_set (o_rsp o) stack_pointer
    (reg_set (o_rflags o) rflags (reg_set (o_cs o) user_cs (reg_set (o_rip o) entry_point f)))))) m in
  Done (exec (λ _, None) 0 0 0 (enter_user_mode_asm o) m).

(** The compiler's choice: six registers, not the stack pointer. *)
Definition operand_list (o : operands) : list reg := [o_cr3 o; o_ss o; o_rsp o; o_rflags o; o_cs o; o_rip o].
Definition operands_ok (o : operands) : Prop := NoDup (RSP :: operand_list o).

#[global] Instance reg_eq_dec : EqDecision reg.
Proof. solve_decision. Defined.

Lemma reg_set_eq r v f : reg_set r v f r = v.
Proof. unfold reg_set. by rewrite Pos.eqb_refl. Qed.

Lemma reg_set_ne r r' v f : r' ≠ r → reg_set r v f r' = f r'.
Proof. intros Hne. unfold reg_set. destruct (Pos.eqb_spec (reg_num r') (reg_num r)); [|done]. by destruct r, r'. Qed.

(** The assembly, on a valid kernel stack. *)
Lemma enter_user_mode_run o m k :
  Forall (λ r, r ≠ RSP) (operand_list o) → m_reg m RSP = k → kstack_ok k →
  ∃ m', exec (λ _, None) 0 0 0 (enter_user_mode_asm o) m = Some m' ∧
    m_rip m' = m_reg m (o_rip o) ∧ m_reg m' RSP = m_reg m (o_rsp o) ∧ m_cs m' = m_reg m (o_cs o) ∧
    m_ss m' = m_reg m (o_ss o) ∧ m_rflags m' = m_reg m (o_rflags o) ∧ m_if m' = Z.testbit (m_reg m (o_rflags o)) 9 ∧
    m_cr3 m' = m_reg m (o_cr3 o) ∧ m_gs m' = m_gs m.
Proof.
  destruct m as [rg mem rip fl cs ss cr3 gs kgs zf if_]. destruct o as [r1 r2 r3 r4 r5 r6].
  cbn [m_reg m_mem m_gs m_kgs m_cr3 o_cr3 o_ss o_rsp o_rflags o_cs o_rip operand_list].
  intros Ho Hsp Hkok.
  repeat (apply Forall_cons in Ho as [? Ho]). unfold enter_user_mode_asm.
  cbn [o_cr3 o_ss o_rsp o_rflags o_cs o_rip]. xstep. xstep. rewrite Hsp. replace (k ⊟ 8) with ((k - 0) ⊟ 8) by (by rewrite Z.sub_0_r). xpush Hkok.
  do 4 (xstep; xpush Hkok). xstep. do 5 xpop Hkok.
  eexists. split; [done|]. cbn [m_mem m_reg m_gs m_kgs m_rip m_rflags m_cs m_ss m_if m_cr3 reg_num Pos.eqb].
  split_and!; repeat first [rewrite store_eq|rewrite store_ne by lia]; try done;
    match goal with |- context [reg_num ?r] => by destruct r end.
Qed.

Section first_program.
Context {PT : Type} `{Mapper PT} (VirtAddr_new : Z → outcome Z).
Hypothesis VirtAddr_canonical : ∀ v, canonical v → VirtAddr_new v = Done v.
Context {T : Type} `{GdtLib T}.

(** Segments and stack, as the boot code maps them. *)
Definition main_load (segs : list LoadableSegment) (st : space PT) : outcome (Z * space PT) :=
  st ← for_each segs (main_map_segment VirtAddr_new) st; main_allocate_user_stack VirtAddr_new st.

(** The address space is the one process creation builds, and the program starts
    as behind the trampoline of process.rs: at its entry point, on its stack, with the
    user's segments of the descriptor table and interrupts enabled, in its own page
    table, whatever registers the compiler chose. *)
Theorem main_runs_program segs st stack (seg : segments T) o entry sp pml4 m k :
  Forall (λ s, 0 ≤ virtual_address s ∧ 0 < seg_size s ∧ virtual_address s + seg_size s < 2 ^ 47) segs →
  sg_gdt seg = None → operands_ok o → m_reg m RSP = k → kstack_ok k →
  main_load segs st = load_image VirtAddr_new segs st ∧
  ∃ m', enter_user_mode o entry sp pml4 (gdt_init stack seg) m = Done (Some m') ∧
    m_rip m' = entry ∧ m_reg m' RSP = sp ∧ m_cr3 m' = pml4 ∧ m_if m' = true ∧ Z.lor (m_rflags m') 2 = 0x202 ∧
    ∀ mt, m_reg mt RSP = k → m_reg mt R12 = entry → m_reg mt R13 = sp →
      ∃ mt', exec (λ _, None) 0 0 0 user_entry_trampoline_asm mt = Some mt' ∧
        (m_rip mt', m_reg mt' RSP, m_cs mt', m_ss mt') = (m_rip m', m_reg m' RSP, m_cs m', m_ss m').
Proof.
  intros Hsegs Hg Ho Hk Hkok. split.
  { unfold main_load, load_image. revert st. induction Hsegs as [|s segs (? & ? & ?) _ IH]; intros st; [done|].
    cbn [for_each]. rewrite (map_segment_copies_agree VirtAddr_new) by done.
    destruct (map_segment VirtAddr_new s st); [|done]. cbn [mbind outcome_bind]. apply IH. }
  destruct (build_gdt_spec (T := T)) as (gdt & E & _). unfold enter_user_mode, descriptors, gdt_init. rewrite Hg, E.
  cbn [mbind outcome_bind unwrap sg_gdt snd].
  destruct o as [r1 r2 r3 r4 r5 r6]. unfold operands_ok, operand_list in Ho. cbn [o_cr3 o_ss o_rsp o_rflags o_cs o_rip] in *.
  rewrite !NoDup_cons, !not_elem_of_cons in Ho. destruct_and! Ho.
  match goal with |- context [exec _ _ _ _ _ ?m0] => destruct (enter_user_mode_run (mkOperands r1 r2 r3 r4 r5 r6) m0 k) as
    (m' & -> & Hrip & Hrsp & Hcs & Hss & Hfl & Hif & Hcr3 & _) end.
  { by repeat constructor. }
  { cbn [with_reg m_reg]. by rewrite !reg_set_ne. }
  { done. }
  cbn [with_reg m_reg o_cr3 o_ss o_rsp o_rflags o_cs o_rip] in *.
  repeat (rewrite reg_set_eq in * || rewrite reg_set_ne in * by done).
  exists m'. rewrite Hrip, Hrsp, Hcs, Hss, Hif, Hcr3, Hfl. split_and!; try done.
  intros mt Hkt E12 E13. destruct (trampoline_enters_user (λ _, None) 0 0 mt k Hkt Hkok) as (mt' & E' & Ert & Est & Ect & Esst & _).
  exists mt'. split; [done|]. by rewrite Ert, Est, Ect, Esst, E12, E13.
Qed.
End first_program.
