(* ===== verification/Start.v ===== *)
(** * Memory and devices at start-up (kernel/src/main.rs: _start)

    Two stretches of [_start] on one page table and frame allocator: frames, heap
    and the registers of the interrupt controllers; then the devices on the PCI bus,
    the page allocator and the disk's queues.  The page table is the boot loader's;
    how many frames [map_to] takes and when it cannot fail is [MapperBudget].

    Shown here: on a machine with enough memory, with a VirtIO disk or without, both
    succeed and leave enough for the tasks; Main composes them with the rest. *)

From S2P Require Import Prelude Virtqueue BlockDev Pci Virtio VirtioDisk VirtioSample.
From S2P Require Import Task Sched Vfs RamFs Fd Memory Loader Process KShell Boot.

(** [Once]: the first value stays. *)
Definition call_once {A} (v : A) (cell : option A) : option A :=
  match cell with Some w => Some w | None => Some v end.

Definition set_hhdm_offset (offset : Z) (cell : option Z) : option Z := call_once offset cell.
Definition hhdm_offset (cell : option Z) : outcome Z := unwrap cell.

Section start.
Context {PT : Type} `{Mapper PT}.

Definition init_page_allocator (mapper : PT) (frame_alloc : falloc) (cell : option (PageAllocator PT))
    : option (PageAllocator PT) :=
  call_once (mkPageAllocator mapper frame_alloc) cell.

Definition lapic_phys : Z := 0xFEE00000.
Definition ioapic_phys : Z := 0xFEC00000.

(** Frames, heap and the registers of the interrupt controllers. *)
Definition boot_memory (entries : list region) (phys_mem_offset : Z) (mapper : PT) : outcome (PT * falloc) :=
  frame_alloc ← seed_frames entries;
  pa ← init_heap (mkPageAllocator mapper frame_alloc);
  let st := map_mmio lapic_phys (phys_mem_offset ⊞ lapic_phys) (pa_mapper pa, pa_frame_alloc pa) in
  let st := map_mmio ioapic_phys (phys_mem_offset ⊞ ioapic_phys) st in
  Done st.

(** The closure the driver maps device memory with. *)
Definition mmio_mapper (phys_mem_offset phys size : Z) (st : PT * falloc) : Z * (PT * falloc) :=
  let virt := phys_mem_offset ⊞ phys in
  (virt, map_mmio_range phys virt size st).

Section devices.
Context {X : Type} `{Ports32 X, VirtioHw X}.

(** The devices on the bus; the page allocator; the queues of the disk. *)
Definition boot_devices (phys_mem_offset : Z) (st : PT * falloc) (x : X)
    : outcome (option VirtioBlock * list Z * option (PageAllocator PT) * X) :=
  '(g, (mapper, frame_alloc), x) ← probe_devices (mmio_mapper phys_mem_offset) phys_mem_offset st x;
  pa ← unwrap (init_page_allocator mapper frame_alloc None);
  '(g, page, fa, x) ← setup_queues_global g (pa_frame_alloc pa) x;
  Done (g, page, Some (mkPageAllocator (pa_mapper pa) fa), x).
End devices.
End start.

Lemma zlen_ztake_min {A} n (l : list A) : 0 ≤ n → zlen (ztake n l) = Z.min n (zlen l).
Proof. intros. unfold zlen, ztake. rewrite length_take. lia. Qed.

Lemma elem_of_ztake {A} n (x : A) l : x ∈ ztake n l → x ∈ l.
Proof. unfold ztake. intros Hx. rewrite <-(take_drop (Z.to_nat n) l). apply elem_of_app. by left. Qed.

Section memory.
Context {PT : Type} `{MapperBudget PT}.

(** The heap. *)
Definition heap_pages : list Z := range_inclusive (containing HEAP_START) (containing (HEAP_START + HEAP_SIZE - 1)).

Lemma init_heap_total {D : Z → Prop} k R pa :
  avail D (k + 4 * zlen heap_pages) R pa → 0 ≤ k → (∀ p, p ∈ heap_pages → R p) →
  ∃ pa', init_heap pa = Done pa' ∧ avail D k (λ q, R q ∧ q ∉ heap_pages) pa'.
Proof.
  unfold init_heap. fold heap_pages. pose proof (range_inclusive_NoDup _ _ : NoDup heap_pages) as Hnd.
  generalize dependent heap_pages. intros ps. revert k R pa.
  induction ps as [|p ps IH]; intros k R [t fa] Hnd Hav Hk HR; cbn [for_each].
  { eexists. split; [done|]. eapply avail_weaken; [| |exact Hav]; [unfold zlen; simpl; lia|set_solver]. }
  apply NoDup_cons in Hnd as [Hp Hnd]. rewrite zlen_cons in Hav. pose proof (zlen_nonneg ps).
  destruct (grab (D := D) (k + 4 * zlen ps) R p (Z.lor FLAG_PRESENT FLAG_WRITABLE) t fa) as (f & fa1 & fa' & t' & E & Em & Hav').
  { eapply avail_weaken; [| |exact Hav]; [lia|done]. }
  { lia. }
  { apply HR. by left. }
  cbn [pa_frame_alloc pa_mapper]. rewrite E. cbn [mbind outcome_bind unwrap]. rewrite Em.
  destruct (IH k (λ q, R q ∧ q ≠ p) (mkPageAllocator t' fa') Hnd Hav' Hk) as (pa' & E' & Hav'').
  { intros q Hq. split; [apply HR; by right|]. by intros ->. }
  exists pa'. split; [exact E'|]. eapply avail_weaken; [| |exact Hav'']; [lia|]. set_solver.
Qed.

(** Mapping a page below the kernel's region, successful or not. *)
Lemma map_low {D : Z → Prop} k R p f flags t fa r fa' t' :
  avail D (k + 3) R (mkPageAllocator t fa) → (∀ q, R q → kpage q) → ¬ kpage p →
  map_to p f flags fa t = (r, fa', t') → avail D k R (mkPageAllocator t' fa').
Proof.
  intros [[Hok Hnd Hfree Hinj] Hf Hg HR] HRk Hp Em. simpl in *.
  pose proof (map_to_advance _ _ _ _ _ _ _ _ Em) as Hadv. destruct (advance_spec _ _ Hadv Hok) as [Hok' _].
  assert (∀ q, kpage q → translate t' q = translate t q) as Hsame.
  { intros q Hq. assert (r = MapOk ∨ r ≠ MapOk) as [->|Hr] by (destruct r; auto); [|by eapply map_to_err].
    apply map_to_ok in Em as (_ & _ & Ho). apply Ho. by intros ->. }
  split; [split; simpl|simpl..].
  - done.
  - by eapply advance_NoDup.
  - intros q g Hq. rewrite Hsame by done. intros Ht Hin. apply (Hfree q g Hq Ht). by eapply advance_sub.
  - done.
  - pose proof (map_to_uses _ _ _ _ _ _ _ _ Em Hok). lia.
  - intros f0 Hin. apply Hg. by eapply advance_sub.
  - intros q Hq. rewrite Hsame by auto. destruct (HR q Hq). split; [done|by eapply map_to_mappable].
Qed.

(** A range of registers in the direct map. *)
Definition low_range (hhdm : Z) (range : Z * Z) : Prop :=
  0 ≤ range.1 ∧ (PAGE_SIZE | range.1) ∧ 0 < range.2 ∧ hhdm + range.1 + range.2 ≤ KSTACK_VA_START ∧ range.1 + range.2 < 2 ^ 52.

Definition range_frames (range : Z * Z) : list Z :=
  range_inclusive (containing range.1) (containing (range.1 ⊞ range.2 ⊟ 1)).

Lemma range_frames_elem hhdm range f :
  0 ≤ hhdm → low_range hhdm range → f ∈ range_frames range →
  (PAGE_SIZE | f) ∧ range.1 ≤ f < range.1 + range.2.
Proof.
  intros Hh (Hp & Hd & Hs & Hk & Hb) Hf. unfold range_frames in Hf.
  assert (range.1 ⊞ range.2 ⊟ 1 = range.1 + range.2 - 1) as E.
  { unfold wrap. rewrite <-Zminus_mod_idemp_l, Z.mod_mod, Zminus_mod_idemp_l, Z.mod_small by lia. done. }
  rewrite E, (containing_aligned range.1) in Hf by done.
  destruct (containing_spec (range.1 + range.2 - 1)) as (? & ? & ?); [lia|].
  apply range_inclusive_elem in Hf as [? ?]; [|done|done]. split; [done|lia].
Qed.

Lemma mmio_mapper_avail {D : Z → Prop} k R hhdm range st :
  avail D (k + 3 * zlen (range_frames range)) R (mkPageAllocator st.1 st.2) → 0 ≤ k → (∀ q, R q → kpage q) →
  0 ≤ hhdm → (PAGE_SIZE | hhdm) → low_range hhdm range →
  let st' := (mmio_mapper hhdm range.1 range.2 st).2 in avail D k R (mkPageAllocator st'.1 st'.2).
Proof.
  intros Hav Hk HR Hh Hdh Hlow. unfold mmio_mapper, map_mmio_range. cbn [snd]. fold (range_frames range).
  assert (∀ f, f ∈ range_frames range → (PAGE_SIZE | f) ∧ range.1 ≤ f < range.1 + range.2) as Hfr
    by (intros f; by eapply range_frames_elem).
  destruct Hlow as (Hp & Hd & Hs & Hke & Hb). unfold KSTACK_VA_START in Hke.
  revert st Hav Hfr. generalize (range_frames range) as fs.
  induction fs as [|f fs IH]; intros st Hav Hfr; cbn [fold_left].
  { eapply avail_weaken; [| |exact Hav]; [unfold zlen; simpl; lia|done]. }
  rewrite zlen_cons in Hav. pose proof (zlen_nonneg fs). apply IH; [|intros; apply Hfr; set_solver].
  destruct (Hfr f ltac:(set_solver)) as [Hdf Hf]. unfold map_mmio_frame.
  rewrite (wrap_small 64 (f - range.1)) by (split; lia). rewrite (wrap_small 64 (hhdm + range.1)), wrap_small by (split; lia).
  destruct (map_to _ _ _ _ _) as [[r fa'] t'] eqn:Em. cbn [fst snd].
  eapply (map_low (D := D) (k + 3 * zlen fs) R); [|done| |exact Em].
  - eapply avail_weaken; [| |exact Hav]; [lia|done].
  - replace (hhdm + range.1 + (f - range.1)) with (hhdm + f) by lia.
    destruct (containing_spec (hhdm + f)) as (? & _); [lia|]. unfold kpage, KSTACK_VA_START. lia.
Qed.

Lemma map_mmio_avail {D : Z → Prop} k R hhdm phys st :
  avail D (k + 3) R (mkPageAllocator st.1 st.2) → (∀ q, R q → kpage q) →
  0 ≤ hhdm → 0 ≤ phys → hhdm + phys < KSTACK_VA_START →
  let st' := map_mmio phys (hhdm ⊞ phys) st in avail D k R (mkPageAllocator st'.1 st'.2).
Proof.
  intros Hav HR Hh Hp Hk. unfold map_mmio. unfold KSTACK_VA_START in Hk. rewrite wrap_small by (split; lia).
  destruct (map_to _ _ _ _ _) as [[r fa'] t'] eqn:Em. cbn [fst snd]. eapply map_low; [exact Hav|done| |exact Em].
  destruct (containing_spec (hhdm + phys)) as (? & _); [lia|]. unfold kpage, KSTACK_VA_START. lia.
Qed.

Lemma mmio_ranges_avail {D : Z → Prop} k R hhdm ranges st :
  avail D (k + 3 * zlen (concat (range_frames <$> ranges))) R (mkPageAllocator st.1 st.2) → 0 ≤ k → (∀ q, R q → kpage q) →
  0 ≤ hhdm → (PAGE_SIZE | hhdm) → Forall (low_range hhdm) ranges →
  let st' := map_all (mmio_mapper hhdm) ranges st in avail D k R (mkPageAllocator st'.1 st'.2).
Proof.
  intros Hav Hk HR Hh Hd Hl. revert st Hav. unfold map_all. induction Hl as [|range ranges Hr Hl IH]; intros st Hav; cbn [fold_left].
  { eapply avail_weaken; [| |exact Hav]; [unfold zlen; simpl; lia|done]. }
  cbn [fmap list_fmap concat] in Hav. rewrite zlen_app in Hav. apply IH.
  pose proof (zlen_nonneg (concat (range_frames <$> ranges))).
  apply mmio_mapper_avail; try done; [|lia]. eapply avail_weaken; [| |exact Hav]; [lia|done].
Qed.

(** What the boot loader provides: usable memory in whole frames, enough of it;
    the direct map of it, and the devices, below the kernel's own addresses; and a
    page table that maps nothing in the region of the kernel's stacks and heap, and
    no usable frame above it.  [ranges] is the memory of the devices. *)
Record boot_ok (entries : list region) (hhdm : Z) (ranges : list (Z * Z)) (t : PT) : Prop := {
  bo_usable : Forall usable_ok (filter (λ r, rg_usable r = true) entries);
  bo_apart : regions_apart entries;
  bo_frames :
    let frames := concat (region_frames <$> filter (λ r, rg_usable r = true) entries) in
    2116 + 3 * (2 + zlen (concat (range_frames <$> ranges))) ≤ Z.min MAX_BOOT_FRAMES (zlen frames);
  bo_hhdm : 0 < hhdm ∧ (PAGE_SIZE | hhdm) ∧ hhdm + lapic_phys < KSTACK_VA_START;
  bo_direct : Forall (λ r, hhdm + (rg_base r + rg_length r) ≤ KSTACK_VA_START) (filter (λ r, rg_usable r = true) entries);
  bo_ranges : Forall (low_range hhdm) ranges;
  bo_free : ∀ p f, kpage p → translate t p = Some f →
    f ∉ concat (region_frames <$> filter (λ r, rg_usable r = true) entries);
  bo_region : ∀ p, KSTACK_VA_START ≤ p < KSTACK_VA_END → translate t p = None ∧ mappable t p;
}.

(** A frame whose direct-map address is below the kernel's own. *)
Definition direct (hhdm f : Z) : Prop := 0 ≤ f ∧ hhdm + f + PAGE_SIZE ≤ KSTACK_VA_START.

Abbreviation stack_pages := (λ p, KSTACK_VA_START ≤ p < KSTACK_VA_END ∧ p ∉ heap_pages).

Lemma heap_pages_elem p : p ∈ heap_pages → HEAP_START ≤ p ≤ HEAP_START + HEAP_SIZE - 4096.
Proof.
  intros Hp. apply range_inclusive_elem in Hp as [_ ?]; [|by exists (HEAP_START / 4096)|by exists ((HEAP_START + HEAP_SIZE - 1) / 4096)].
  change (containing HEAP_START) with HEAP_START in *.
  by change (containing (HEAP_START + HEAP_SIZE - 1)) with (HEAP_START + HEAP_SIZE - 4096) in *.
Qed.

Lemma seed_avail entries hhdm ranges t fa :
  boot_ok entries hhdm ranges t → seed_frames entries = Done fa →
  avail (direct hhdm) (2116 + 3 * (2 + zlen (concat (range_frames <$> ranges)))) (λ p, KSTACK_VA_START ≤ p < KSTACK_VA_END)
    (mkPageAllocator t fa).
Proof.
  intros [Hus Hap Hfr (Hh & Hd & Hk) Hdir _ Hfree Hreg] E. simpl in Hfr.
  destruct (boot_frames_sound entries Hus Hap) as (fa' & E' & Hok & Hl & Hnd & Hin). rewrite E in E'. injection E' as <-.
  split; simpl; [split; simpl; try done| | |exact Hreg].
  - intros p f Hp Ht. rewrite Hl. intros Hf%elem_of_ztake. exact (Hfree p f Hp Ht Hf).
  - rewrite Hl, zlen_ztake_min by done. exact Hfr.
  - intros f (_ & r & Hr & Hu & Hb & He)%Hin. rewrite Forall_forall in Hus, Hdir.
    assert (r ∈ filter (λ r, rg_usable r = true) entries) as Hf by (by apply list_elem_of_filter).
    destruct (us_base _ (Hus r Hf)). specialize (Hdir r Hf). unfold direct. lia.
Qed.

Lemma boot_memory_avail entries hhdm ranges t :
  boot_ok entries hhdm ranges t →
  ∃ t' fa, boot_memory entries hhdm t = Done (t', fa) ∧
    avail (direct hhdm) (1092 + 3 * zlen (concat (range_frames <$> ranges))) stack_pages (mkPageAllocator t' fa).
Proof.
  intros Hbo. unfold boot_memory. destruct (boot_frames_sound entries (bo_usable _ _ _ _ Hbo) (bo_apart _ _ _ _ Hbo)) as (fa & E & _).
  pose proof (seed_avail _ _ _ _ _ Hbo E) as Hav. rewrite E. cbn [mbind outcome_bind].
  destruct (bo_hhdm _ _ _ _ Hbo) as (Hh & Hd & Hk). clear Hbo E.
  set (m := zlen (concat (range_frames <$> ranges))) in *. assert (0 ≤ m) by apply zlen_nonneg.
  assert (zlen heap_pages = 256) as H256 by (vm_compute; reflexivity).
  destruct (init_heap_total (D := direct hhdm) (1092 + 3 * m + 6) (λ p, KSTACK_VA_START ≤ p < KSTACK_VA_END) (mkPageAllocator t fa))
    as (pa1 & -> & Hav1).
  { eapply avail_weaken; [| |exact Hav]; [lia|done]. }
  { lia. }
  { intros p Hp%heap_pages_elem. unfold KSTACK_VA_START, KSTACK_VA_END, HEAP_START, HEAP_SIZE in *. lia. }
  cbn [mbind outcome_bind]. assert (∀ q, stack_pages q → kpage q) as HRk by (intros q [[? _] _]; done).
  pose proof (map_mmio_avail (D := direct hhdm) (1092 + 3 * m + 3) stack_pages hhdm lapic_phys (pa_mapper pa1, pa_frame_alloc pa1)) as A1.
  set (st1 := map_mmio lapic_phys _ _) in *.
  pose proof (map_mmio_avail (D := direct hhdm) (1092 + 3 * m) stack_pages hhdm ioapic_phys st1) as A2.
  set (st2 := map_mmio ioapic_phys _ _) in *.
  assert (avail (direct hhdm) (1092 + 3 * m) stack_pages (mkPageAllocator st2.1 st2.2)) as Hav2.
  { apply A2; try done; [|lia|unfold lapic_phys, ioapic_phys in *; lia].
    apply A1; try done; [|lia]. eapply avail_weaken; [| |destruct pa1; exact Hav1]; [lia|done]. }
  destruct st2 as [t2 fa2]. by exists t2, fa2.
Qed.

(** Four frames are taken for the disk. *)
Lemma avail_drop {D : Z → Prop} k R t fa fa' f1 f2 f3 f4 :
  avail D (k + 4) R (mkPageAllocator t fa) → falloc_ok fa' → frames_left fa = f1 :: f2 :: f3 :: f4 :: frames_left fa' →
  avail D k R (mkPageAllocator t fa').
Proof.
  intros [[Hok Hnd Hfree Hinj] Hf Hg HR] Hok' Hl. simpl in *. rewrite Hl in *. rewrite !zlen_cons in Hf.
  split; [split; simpl|simpl..]; try done; [| |lia|].
  - by do 4 apply NoDup_cons in Hnd as [_ Hnd].
  - intros p f Hp Ht Hin. apply (Hfree p f Hp Ht). set_solver.
  - intros f Hin. apply Hg. set_solver.
Qed.

(** With these frames both stacks can be had. *)
Lemma boot_tasks_succeeds {D : Z → Prop} entry (pa : PageAllocator PT) c :
  avail D 1088 stack_pages pa →
  ∃ id next' pa' s, boot_tasks entry KSTACK_VA_START (Some pa) (sched_boot c) = Done (Ok id, next', Some pa', s).
Proof.
  intros Hav. assert (∀ p, p < HEAP_START → p ∉ heap_pages) as Hheap.
  { intros p Hp [? _]%heap_pages_elem. lia. }
  destruct (alloc_kernel_stack_avail 256 64 _ KSTACK_VA_START pa Hav) as (pa1 & E1 & Hav1);
    [done|lia|done|by exists (KSTACK_VA_START / 4096)|done| |].
  { intros p (i & Hi & ->). split; [|apply Hheap]; unfold KSTACK_VA_START, KSTACK_VA_END, HEAP_START, PAGE_SIZE; lia. }
  change (Z.of_nat 256 * PAGE_SIZE) with (1024 * 1024) in *. fold SHELL_STACK in E1.
  destruct (alloc_kernel_stack_avail 16 0 _ SHELL_STACK pa1 Hav1) as (pa2 & E2 & _);
    [done|lia|done|by exists (SHELL_STACK / 4096)|done| |].
  { intros p (i & Hi & ->). unfold SHELL_STACK, KSTACK_VA_START, KSTACK_VA_END, HEAP_START, PAGE_SIZE in *.
    split; [split; [lia|apply Hheap; lia]|]. intros (j & Hj & ?). unfold PAGE_SIZE in *. lia. }
  change (Z.of_nat 16 * PAGE_SIZE) with (64 * 1024) in E2.
  unfold boot_tasks, init_kstack_region. rewrite E1. cbn [mbind outcome_bind unwrap seed_boot].
  unfold seed_boot, set_current. simpl. unfold spawn_kshell. rewrite E2. cbn [mbind outcome_bind].
  unfold TaskId_new, enqueue_task, RunQueue_enqueue, global, update_task, task_at. simpl.
  rewrite lookup_insert_eq. simpl. by eexists _, _, _, _.
Qed.

(** What is on the bus: no VirtIO device, or one, which is a disk as the
    specification describes it, with its registers in [ranges] and its contents. *)
Section disk.
Context {X : Type} `{VirtioDisk X}.
Implicit Types (x : X).

Inductive on_bus (hhdm : Z) x : list (Z * Z) → option (list Z) → Prop :=
  | no_disk :
      Forall (λ d, vendor_id d ≠ 0x1AF4 ∨ device_id d < 0x1040) (enumerate_pci x).1 → on_bus hhdm x [] None
  | one_disk dev s l rest p :
      VirtioDisk.described hhdm dev s l rest p x → accepts = true → alone dev x → vi_qsize info ≤ DESC_PER_PAGE →
      on_bus hhdm x (cap_ranges s rest) (Some (vs_disk (vview x))).

(** The driver has been started on a disk with these contents. *)
Definition started (disk : option (list Z)) (g : option VirtioBlock) (page : list Z) x : Prop :=
  match disk with
  | None => g = None
  | Some d => ∃ b, g = Some b ∧ vio_inv (mkVio b page x) ∧ vs_disk (vview x) = d
  end.

Lemma direct_frames hhdm k R t fa :
  avail (direct hhdm) (k + 4) R (mkPageAllocator t fa) → 0 < hhdm → 0 ≤ k →
  ∃ f1 f2 f3 f4 fs, frames_left fa = f1 :: f2 :: f3 :: f4 :: fs ∧ Forall (λ f, 0 ≤ f ≤ 2 ^ 64 - 4096) [f1; f2; f3; f4] ∧ hhdm ⊞ f4 ≠ 0.
Proof.
  intros [_ Hf Hg _] Hh Hk. simpl in *. destruct (frames_left fa) as [|f1 [|f2 [|f3 [|f4 fs]]]]; rewrite ?zlen_cons, ?zlen_nil in Hf; try lia.
  exists f1, f2, f3, f4, fs. split; [done|].
  pose proof (Hg f1 ltac:(set_solver)) as [? ?]. pose proof (Hg f2 ltac:(set_solver)) as [? ?].
  pose proof (Hg f3 ltac:(set_solver)) as [? ?]. pose proof (Hg f4 ltac:(set_solver)) as [? ?].
  unfold KSTACK_VA_START, PAGE_SIZE in *. split; [repeat apply Forall_cons_2; try apply Forall_nil_2; lia|].
  rewrite wrap_small by (split; lia). lia.
Qed.

Lemma boot_devices_avail hhdm ranges disk t fa x :
  on_bus hhdm x ranges disk → 0 < hhdm → (PAGE_SIZE | hhdm) → Forall (low_range hhdm) ranges →
  avail (direct hhdm) (1092 + 3 * zlen (concat (range_frames <$> ranges))) stack_pages (mkPageAllocator t fa) →
  ∃ g page pa x', boot_devices hhdm (t, fa) x = Done (g, page, Some pa, x') ∧ started disk g page x' ∧ avail (direct hhdm) 1088 stack_pages pa.
Proof.
  intros Hbus Hh Hd Hr Hav. unfold boot_devices. destruct Hbus as [Hno|dev s l rest p Hdev Hacc Hal Hqs].
  { unfold probe_devices. rewrite probe_others by done. cbn [mbind outcome_bind unwrap init_page_allocator call_once setup_queues_global].
    eexists _, _, _, _. split; [done|]. split; [done|]. eapply avail_weaken; [| |exact Hav]; [unfold zlen; simpl; lia|done]. }
  destruct (probe_finds_disk (mmio_mapper hhdm) hhdm ltac:(done) dev s l rest p (t, fa) x Hdev Hacc Hal) as (x1 & -> & Hv).
  cbn [mbind outcome_bind].
  pose proof (mmio_ranges_avail (D := direct hhdm) 1092 stack_pages hhdm (cap_ranges s rest) (t, fa) Hav) as Hm.
  destruct (map_all (mmio_mapper hhdm) (cap_ranges s rest) (t, fa)) as [t1 fa1]. simpl in Hm.
  assert (avail (direct hhdm) 1092 stack_pages (mkPageAllocator t1 fa1)) as Hav1.
  { apply Hm; try done; [|lia]. by intros q [[? _] _]. }
  cbn [mbind outcome_bind unwrap init_page_allocator call_once setup_queues_global pa_frame_alloc pa_mapper].
  destruct (direct_frames hhdm 1088 stack_pages t1 fa1 Hav1 Hh) as (f1 & f2 & f3 & f4 & fs & Hl & Hf & Hn); [done|].
  destruct (setup_spec (mkVirtioBlock (vi_common info) (vi_notify info) (vi_mult info) (vi_isr info) (vi_devcfg info) dev None hhdm 0)
    fa1 x1 (vs_disk (vview x)) f1 f2 f3 f4 fs) as (b & fa2 & x2 & -> & Hinv & Hdk & Hok2 & Hl2);
    try done; [exact (pai_ok _ _ _ (av_inv _ _ _ _ Hav1))|].
  cbn [mbind outcome_bind]. eexists _, _, _, _. split; [done|]. split.
  - by exists b.
  - eapply (avail_drop 1088); [exact Hav1|done|]. by rewrite Hl2.
Qed.

End disk.
End memory.

(* ------------------------------------------------------------------ *)
(** ** A machine *)

(** Ten megabytes of memory, and a disk with one page of registers. *)
Definition start_entries : list region := [mkRegion false 0 4096; mkRegion true 1048576 10485760].

Lemma shell_stack_first : pages SHELL_STACK 16 SHELL_STACK.
Proof. by exists 0. Qed.

Lemma start_boot_ok : boot_ok (PT := gmap Z Z) start_entries HHDM (cap_ranges (disk_space 6) [0x40; 0x50; 0x60; 0x70]) ∅.
Proof.
  split.
  - change (Forall usable_ok [mkRegion true 1048576 10485760]). apply Forall_cons_2; [|apply Forall_nil_2].
    split; simpl; [split; [done|by exists 256]|split; [done|by exists 2560]|done].
  - split; [|split; [|done]]; repeat apply Forall_cons_2; try apply Forall_nil_2; unfold apart; simpl; lia.
  - vm_compute. done.
  - split; [done|]. split; [by exists (HHDM / 4096)|done].
  - change (Forall (λ r, HHDM + (rg_base r + rg_length r) ≤ KSTACK_VA_START) [mkRegion true 1048576 10485760]).
    by apply Forall_cons_2; [|apply Forall_nil_2].
  - assert (cap_ranges (disk_space 6) [0x40; 0x50; 0x60; 0x70] =
      [(0xFE000000, 0x38); (0xFE001000, 4); (0xFE002000, 8); (0xFE003000, 4)]) as -> by (vm_compute; reflexivity).
    assert (∀ k n, 0 ≤ k < 4 → 0 < n < 4096 → low_range HHDM (0xFE000000 + 4096 * k, n)) as Hl.
    { intros k n Hk Hn. unfold low_range, HHDM, KSTACK_VA_START. cbn [fst snd]. split_and!; try lia.
      exists (0xFE000 + k). unfold PAGE_SIZE. lia. }
    repeat apply Forall_cons_2; [apply (Hl 0)|apply (Hl 1)|apply (Hl 2)|apply (Hl 3)|apply Forall_nil_2]; lia.
  - done.
  - done.
Qed.

Lemma start_on_bus :
  on_bus HHDM virtio_machine (cap_ranges (disk_space 6) [0x40; 0x50; 0x60; 0x70]) (Some (vs_disk (vview virtio_machine))).
Proof.
  eapply one_disk; [exact machine_described|reflexivity| |vm_compute; discriminate]. split.
  - destruct (enumerate_pci_list virtio_machine) as (x & -> & _). cbn [fst]. rewrite enumerated_in. vm_compute. intuition discriminate.
  - intros d Hd Hne. destruct (machine_devices d Hd) as [->|Hv]; [done|by left].
Qed.
