(* ===== verification/Main.v ===== *)
(** * The kernel's entry point (kernel/src/main.rs: _start)

    [_start] put together from the steps that the other files model: segments and
    interrupt table, executor, system call registers, the answers of the boot
    loader, memory, interrupt controllers, screen, devices, file system,
    descriptors, tasks and timer, in the order of the source.  Left out are the
    lines it logs on the serial port (Serial: printing there cannot fail once the
    port is set up), those it prints with [fb_println], which go to a console that
    nothing sets, the detection of the core type, which is only logged (Hal), and
    interrupts that arrive while it runs.

    Shown here: when the boot loader answers and the machine has enough memory, with
    a VirtIO disk or without, [_start] reaches its idle loop, everything is set up,
    and the timer takes the CPU to the shell; without one of the answers it panics. *)

From S2P Require Import Prelude Hal Virtqueue BlockDev Pci Virtio VirtioDisk VirtioSample Console Serial Executor Coop Capability.
From S2P Require Import Task Sched Vfs RamFs Fd Memory Loader Process KShell Boot Intr Start.

(** The answers of the boot loader to the three requests. *)
Record Framebuffer := mkFramebuffer {
  fb_addr : list Z;                  (* the pixels *)
  fb_width : Z;
  fb_height : Z;
  fb_pitch : Z;
  fb_bpp : Z;
}.

Record Entry := mkEntry {
  entry_type : EntryType;
  entry_base : Z;
  entry_length : Z;
}.

Record responses := mkResponses {
  rs_framebuffer : option (option Framebuffer);     (* the first one, if any *)
  rs_memory_map : option (list Entry);
  rs_hhdm : option Z;
}.

Definition entry_region (e : Entry) : region :=
  mkRegion (match entry_type e with USABLE => true | _ => false end) (entry_base e) (entry_length e).

(** The picture, the terminal on the same screen, and the first lines on it. *)
Definition boot_screen (fb : option Framebuffer) (entries : list Entry) : outcome (option Tty) :=
  tty ← match fb with
        | Some f =>
            px ← fill_screen_blue (fb_width f) (fb_height f) (fb_pitch f) (fb_bpp f) (fb_addr f);
            px ← draw_memory_map (fb_width f) (fb_height f) (fb_pitch f) (fb_bpp f) (entry_type <$> entries) px;
            t ← init_console px (fb_width f) (fb_height f) (fb_pitch f);
            Done (Some t)
        | None => Done None
        end;
  tty ← console_print (lit "Serix OS v0.0.6" ++ [10]) tty;
  console_print [10] tty.

Section start.
Context {PT T U M I X D SD F : Type}.
Context `{Mapper PT, GdtLib T, Ports U, Mmio M, IdtLib I, Ports32 X, !VirtioHw X, INode D SD}.
(** Addresses the linker gives: the interrupt stack, [PER_CPU_DATA], the entry of
    system calls, the shell; [Star::write] of the x86_64 crate; the two drivers of
    file systems; the device nodes. *)
Context (STACK PER_CPU_DATA syscall_entry kshell_task : Z) (star_write : Z * Z * Z * Z → option Z).
Context (fat32_driver ext2_driver : FsDriver (node D * store D SD) (node D)) (sda stdin stdout stderr : D).

(** The statics [_start] initialises, and the hardware. *)
Record booted := mkBooted {
  b_segments : segments T;
  b_msrs : msrs;
  b_control : control;
  b_intr : intr U M I;
  b_executor : option (Executor F);
  b_coop : option Scheduler;
  b_hhdm : option Z;
  b_tty : option Tty;
  b_page_alloc : option (PageAllocator PT);
  b_slub : option SlubAllocator;
  b_disk : option (vio (X := X));
  b_drivers : list (FsDriver (node D * store D SD) (node D));
  b_mounts : list (MountEntry (node D));
  b_store : store D SD;
  b_fds : fds (node D);
  b_shell : result Z;
  b_kstack : Z;
  b_sched : sched;
}.

(** [tsc] is the time-stamp counter when the capability is generated, [mapper] the
    page table that is active, [c] the CPU. *)
Definition _start (r : responses) (tsc : Z) (mapper : PT) (x : X) (sg : segments T) (m : msrs) (ct : control)
    (i : intr U M I) (sd : SD) (c : cpu) : outcome booted :=
  let sg := gdt_init STACK sg in
  let m := init_per_cpu PER_CPU_DATA m in
  let ct := enable_sse ct in
  i ← boot_apic i;
  let ct := Hal.enable_interrupts ct in
  let executor := init_executor None in
  m ← init_syscalls star_write syscall_entry m;
  _ ← generate tsc;
  fb ← unwrap (rs_framebuffer r);
  entries ← unwrap (rs_memory_map r);
  phys_mem_offset ← unwrap (rs_hhdm r);
  let hhdm := set_hhdm_offset phys_mem_offset None in
  st ← boot_memory (entry_region <$> entries) phys_mem_offset mapper;
  let i := boot_ioapic phys_mem_offset i in
  tty ← boot_screen fb entries;
  '(g, page, pa, x) ← boot_devices phys_mem_offset st x;
  let slub := slub_init None in      (* before the queues, whose pages are not its own *)
  '(x, i) ← register_interrupt g x i;
  let drivers := register ext2_driver (register fat32_driver []) in
  '(mounts, store) ← boot_vfs sda (mkStore ∅ sd);
  let f := init_stdio (Dev stdin) (Dev stdout) (Dev stderr) 0 fds_boot in
  let coop := Scheduler_init_global None in
  '(shell, next, pa, s) ← boot_tasks kshell_task KSTACK_VA_START pa (sched_boot c);
  let i := timer_init_hardware i in
  Done (mkBooted sg m ct i executor coop hhdm tty pa slub (match g with Some b => Some (mkVio b page x) | None => None end)
          drivers mounts store f shell next s).
End start.
Arguments booted : clear implicits.

(* ------------------------------------------------------------------ *)
(** ** The screen *)

(** A framebuffer of 32 bits per pixel with room for the bars of the memory map. *)
Definition framebuffer_ok (f : Framebuffer) : Prop :=
  fb_bpp f = 32 ∧ 8 ≤ fb_width f ∧ 40 ≤ fb_height f ∧ screen_ok (fb_pitch f) (fb_width f) (fb_height f) (fb_addr f).

(** The two lines, as the terminal shows them. *)
Definition banner (f : Framebuffer) : term :=
  let ncols := fb_width f `div` 8 in
  let nrows := fb_height f `div` 16 in
  term_write ncols nrows [10] (term_write ncols nrows (lit "Serix OS v0.0.6" ++ [10]) (term_blank ncols nrows)).

Lemma boot_screen_ok fb entries :
  (∀ f, fb = Some f → framebuffer_ok f) →
  ∃ tty, boot_screen fb entries = Done tty ∧
    match fb with Some f => ∃ t, tty = Some t ∧ shows t (banner f) | None => tty = None end.
Proof.
  intros Hf. unfold boot_screen. destruct fb as [f|]; [|by eexists].
  destruct (Hf f eq_refl) as (-> & Hw & Hh & Hs).
  destruct (fill_screen_blue_spec _ _ _ _ Hs) as (px & -> & Hs1 & _). cbn [mbind outcome_bind].
  destruct (draw_memory_map_spec _ _ _ (entry_type <$> entries) px Hs1) as (px2 & -> & Hs2 & _); [lia|lia|].
  cbn [mbind outcome_bind]. destruct Hs2 as (_ & _ & Hp & Hz & Hb).
  destruct (init_console_shows px2 (fb_width f) (fb_height f) (fb_pitch f)) as (t & -> & Ht & Ec & Er); [lia|lia|done..|].
  cbn [mbind outcome_bind]. unfold console_print, Tty_write_str.
  destruct (Tty_write_chars_shows (chars (lit "Serix OS v0.0.6" ++ [10])) t _ Ht) as (t1 & -> & Ht1 & Ec1 & Er1).
  { apply (bool_decide_unpack _). vm_compute. reflexivity. }
  cbn [mbind outcome_bind].
  destruct (Tty_write_chars_shows (chars [10]) t1 _ Ht1) as (t2 & -> & Ht2 & _).
  { apply Forall_cons_2; [|done]. by right; left. }
  cbn [mbind outcome_bind]. eexists. split; [done|]. exists t2. split; [done|].
  rewrite Ec1, Er1, Ec, Er in *. exact Ht2.
Qed.

(* ------------------------------------------------------------------ *)
(** ** The interrupt table *)

Section total.
Context {U M I X : Type} `{Ports U, Mmio M, IdtLib I, VirtioDisk X}.
Implicit Types (i : intr U M I) (x : X).

Lemma boot_apic_total i : ∃ i', boot_apic i = Done i'.
Proof.
  unfold boot_apic, timer_register_handler.
  destruct (register_spec TIMER_VECTOR H_timer (apic_enable i)) as (i1 & -> & _); [done|]. cbn [mbind outcome_bind].
  match goal with |- context [register_interrupt_handler 33 _ ?s] =>
    destruct (register_spec 33 H_keyboard s) as (i2 & -> & _); [done|] end.
  by eexists.
Qed.

(** Registering the disk's interrupt only reads its configuration space. *)
Lemma register_interrupt_total g x i :
  ∃ x' i', register_interrupt g x i = Done (x', i') ∧ vview x' = vview x.
Proof.
  unfold register_interrupt, interrupt_line, interrupt_pin. destruct g as [b|]; [|by eexists _, _].
  pose proof (pci_read_u8_closed _ (out_view (vview x)) (in_view (vview x)) (pci_dev b) 0x3C x eq_refl) as H1'.
  destruct (pci_read_u8 (pci_dev b) 0x3C x) as [irq x1]. cbn [snd] in H1'.
  pose proof (pci_read_u8_closed _ (out_view (vview x)) (in_view (vview x)) (pci_dev b) 0x3D x1 H1') as H2'.
  destruct (pci_read_u8 (pci_dev b) 0x3D x1) as [pin x2]. cbn [snd] in H2'. destruct (pin =? 0); [by eexists _, _|].
  match goal with |- context [register_interrupt_handler _ _ ?s] =>
    destruct (register_spec VIRTIO_BLK_VECTOR H_virtio s) as (i2 & -> & _); [done|] end.
  by eexists _, _.
Qed.

Lemma started_view disk g page x x' : vview x' = vview x → started disk g page x → started disk g page x'.
Proof.
  intros Hv. destruct disk as [d|]; [|done]. intros (b & -> & [(vq & Hq & Hr) Hp Hd Hl] & Hdk). exists b.
  split; [done|]. split; [|congruence]. split; simpl in *; [|done..]. exists vq. split; [done|].
  destruct Hr as [? ? Hlv ? ?]. split; rewrite ?Hv; done.
Qed.
End total.

(* ------------------------------------------------------------------ *)
(** ** The theorem *)

Section theorem.
Context {PT T U M I X D SD F : Type}.
Context `{MapperBudget PT, GdtLib T, Ports U, Mmio M, IdtLib I, VirtioDisk X, INode D SD}.
Context (STACK PER_CPU_DATA syscall_entry kshell_task : Z) (star_write : Z * Z * Z * Z → option Z).
Context (fat32_driver ext2_driver : FsDriver (node D * store D SD) (node D)) (sda stdin stdout stderr : D).
(** [Star::write] accepts the selectors of the table that [gdt::init] builds. *)
Hypothesis star_accepts : is_Some (star_write star_arguments).
Notation start := (_start (F := F) STACK PER_CPU_DATA syscall_entry kshell_task star_write fat32_driver ext2_driver
                     sda stdin stdout stderr).
Implicit Types (b : booted PT T U M I X D SD F).

(** The driver answers as a disk with these contents. *)
Definition disk_up (disk : option (list Z)) b : Prop :=
  match disk with
  | Some d => ∀ ops, Forall block_op_ok ops → block_run ops (b_disk b) = Done (disk_run ops d)
  | None => b_disk b = None
  end.

Definition screen_up (fb : option Framebuffer) b : Prop :=
  match fb with Some f => ∃ t, b_tty b = Some t ∧ shows t (banner f) | None => b_tty b = None end.

(** The disk's node is in [/dev], and task 0 has its three descriptors. *)
Definition files_up b : Prop :=
  lookup_path (b_mounts b) (lit "/dev/sda") (b_store b) = Done (Some (Dev sda), b_store b) ∧
  view (b_fds b) 0 0 = Some (mkOpenFile (Dev stdin) 0) ∧ view (b_fds b) 0 1 = Some (mkOpenFile (Dev stdout) 0) ∧
  view (b_fds b) 0 2 = Some (mkOpenFile (Dev stderr) 0).

(** The shell is spawned; ten ticks of the timer take the CPU to it. *)
Definition shell_up (c : cpu) b : Prop :=
  ∃ id pa, b_shell b = Ok id ∧ b_page_alloc b = Some pa ∧
    (∀ p, pages SHELL_STACK 16 p → is_Some (translate (pa_mapper pa) p)) ∧
    ∃ s' l, ticks 10 0 (b_sched b) = Done (10, s') ∧
      s_rq s' = Some (mkRunQueue [] (Some l) []) ∧ s_current_task s' = id ∧ s_kstack s' = SHELL_STACK + 64 * 1024 ∧
      c_rip (s_cpu s') = kshell_task ∧ c_rsp (s_cpu s') = SHELL_STACK + 64 * 1024 ∧ c_cr3 (s_cpu s') = c_cr3 c.

End theorem.

(* ------------------------------------------------------------------ *)
(** ** A machine *)

(** Nodes that hold nothing. *)
Inductive null_dev := NullSda | NullIn | NullOut | NullErr.

#[global] Instance null_INode : INode null_dev unit := {
  inode_read _ _ buf s := Done (0, buf, s);
  inode_write _ _ _ s := Done (0, s);
  inode_metadata _ _ := Device;
  inode_lookup := default_lookup;
  inode_insert := default_insert;
  inode_create_file := default_create_file;
  inode_mkdir := default_mkdir;
  inode_unlink := default_unlink;
  inode_size := default_size;
  inode_readdir := default_readdir;
}.

(** A screen of 16 x 40 pixels, ten megabytes of memory, the sample disk. *)
Definition start_screen : Framebuffer := mkFramebuffer (zrep 2560 7) 16 40 64 32.
Definition start_map : list Entry := [mkEntry OTHER_ENTRY 0 4096; mkEntry USABLE 1048576 10485760].
Definition start_answers : responses := mkResponses (Some (Some start_screen)) (Some start_map) (Some HHDM).
Definition no_driver : FsDriver (node null_dev * store null_dev unit) (node null_dev) :=
  mkFsDriver "none" (λ _, Done false) (λ _, Done None).

Notation start_run := (_start (PT := gmap Z Z) (T := gdt_model) (F := unit) 65536 16384 0xFFFFFFFF80003000
  0xFFFFFFFF80004000 (λ _, Some 0x1B) no_driver no_driver NullSda NullIn NullOut NullErr).
Notation start_state answers := (start_run answers 1 ∅ virtio_machine (mkSegments None None None 0 0 0 0 0 0 0)
  (mkMsrs 0 0 0 0 0) (mkControl 0 0 false) irq_start tt (mkCpu 0 0 0 0 0 0 0 0 4096)).

Lemma start_screen_ok f : Some start_screen = Some f → framebuffer_ok f.
Proof. intros [= <-]. unfold framebuffer_ok, screen_ok. simpl. rewrite zlen_zrep by done. split_and!; lia. Qed.

