(* ===== verification/Fault.v ===== *)
(** * Exceptions and panics
      (idt/src/lib.rs, util/src/panic.rs, the panic handler of kernel/src/main.rs)

    A handler of an exception prints to the serial port and stops the CPU.  What
    it prints is formatted by Rust's [core::fmt]: a formatted text is the list of
    the pieces it writes, one after the other.  The debug format of a page fault's
    error code belongs to the x86_64 crate and is a parameter.

    Shown here: every exception with an entry in the table the kernel loads ends
    with the CPU halted, whichever task caused it, after a report from which the
    faulting address can be read back. *)

From S2P Require Import Prelude Vfs Serial KShell Ulib Intr.

(* ------------------------------------------------------------------ *)
(** ** Formatting *)

(** [{:x}]: the digits of a number below [16 ^ n]; none for zero. *)
Fixpoint hexs (n : nat) (v : Z) : str :=
  match n with
  | O => []
  | S n => if v =? 0 then [] else hexs n (v `div` 16) ++ [hex_digit (v `mod` 16)]
  end.

(** [{:#x}] of a [u64]. *)
Definition hex (v : Z) : str := lit "0x" ++ (if v =? 0 then [48] else hexs 16 v).

Section fault.
Context {U : Type} `{Ports U}.

(** [_serial_print]: the pieces in turn, an error ignored. *)
Definition _serial_print (pieces : list str) (s : serial U) : outcome (serial U) := for_each pieces serial_print s.

(** [serial_println!]. *)
Definition serial_println (pieces : list str) (s : serial U) : outcome (serial U) :=
  _serial_print (pieces ++ [[NL]]) s.

(** How a handler ends: with [iret], or in [halt_loop]. *)
Inductive ending := Returned (s : serial U) | Halted (s : serial U).

Definition halt_loop (s : serial U) : ending := Halted s.

Definition oops (msg : str) (s : serial U) : outcome ending :=
  s ← serial_println [lit "[KERNEL OOPS] "; msg] s;
  Done (halt_loop s).

(** The panic handler of the kernel; the message is not printed. *)
Definition panic (location : option (str * Z)) (s : serial U) : outcome ending :=
  s ← serial_println [lit "[KERNEL PANIC]"] s;
  s ← match location with
      | Some (file, line) => serial_println [lit "Location: "; file; lit ":"; decimal line] s
      | None => serial_println [lit "Failed to get location information"] s
      end;
  Done (halt_loop s).

(* ------------------------------------------------------------------ *)
(** ** The handlers *)

Record InterruptStackFrame := mkFrame { instruction_pointer : Z; stack_pointer : Z }.

(** The registers the handlers read. *)
Record fault_regs := mkFaultRegs { r_cr2 : Z; r_cs : Z; r_ss : Z }.

Context (debug_error_code : Z → str) (panic_location : str * Z).

Definition divide_by_zero_handler (stack : InterruptStackFrame) (s : serial U) : outcome ending :=
  oops (lit "Divide by Zero exception") s.

Definition page_fault_handler (r : fault_regs) (stack : InterruptStackFrame) (err : Z) (s : serial U) : outcome ending :=
  s ← serial_println [lit "Page fault at instruction pointer: "; hex (instruction_pointer stack)] s;
  let cr2 := r_cr2 r in
  s ← serial_println [lit "Page fault address: "; hex cr2] s;
  s ← serial_println [lit "Error Code: "; debug_error_code err] s;
  oops (lit "Page fault exception") s.

Definition double_fault_handler (stack : InterruptStackFrame) (err : Z) (s : serial U) : outcome ending :=
  s ← serial_println [lit "Double fault at instruction pointer: "; hex (instruction_pointer stack)] s;
  panic (Some panic_location) s.

Definition gpf_handler (r : fault_regs) (stack : InterruptStackFrame) (err : Z) (s : serial U) : outcome ending :=
  s ← serial_println [lit "General Protection Fault at instruction pointer: "; hex (instruction_pointer stack)] s;
  s ← serial_println [lit "Error code: "; hex err] s;
  s ← serial_println [lit "RSP: "; hex (stack_pointer stack); lit ", RBP: "; hex 0] s;
  let cs := r_cs r in
  let ss := r_ss r in
  s ← serial_println [lit "CS: "; hex cs; lit ", SS: "; hex ss] s;
  oops (lit "General Protection Fault") s.

Definition invalid_tss_handler (stack : InterruptStackFrame) (err : Z) (s : serial U) : outcome ending :=
  s ← serial_println [lit "Invalid TSS at instruction pointer: "; hex (instruction_pointer stack)] s;
  s ← serial_println [lit "Error code: "; hex err] s;
  oops (lit "Invalid TSS") s.

Definition segment_not_present_handler (stack : InterruptStackFrame) (err : Z) (s : serial U) : outcome ending :=
  s ← serial_println [lit "Segment Not Present at instruction pointer: "; hex (instruction_pointer stack)] s;
  s ← serial_println [lit "Error code: "; hex err] s;
  oops (lit "Segment Not Present") s.

Definition stack_segment_fault_handler (stack : InterruptStackFrame) (err : Z) (s : serial U) : outcome ending :=
  s ← serial_println [lit "Stack Segment Fault at instruction pointer: "; hex (instruction_pointer stack)] s;
  s ← serial_println [lit "Error code: "; hex err] s;
  oops (lit "Stack Segment Fault") s.

(** The CPU runs the handler of the table's entry; the interrupts' handlers are
    not exceptions. *)
Definition raise (h : handler) (r : fault_regs) (stack : InterruptStackFrame) (err : Z) (s : serial U)
    : option (outcome ending) :=
  match h with
  | H_divide_by_zero => Some (divide_by_zero_handler stack s)
  | H_page_fault => Some (page_fault_handler r stack err s)
  | H_double_fault => Some (double_fault_handler stack err s)
  | H_gpf => Some (gpf_handler r stack err s)
  | H_invalid_tss => Some (invalid_tss_handler stack err s)
  | H_segment_not_present => Some (segment_not_present_handler stack err s)
  | H_stack_segment_fault => Some (stack_segment_fault_handler stack err s)
  | H_timer | H_keyboard | H_virtio => None
  end.
End fault.
Arguments ending U : clear implicits.

(* ------------------------------------------------------------------ *)
(** ** Lemmas *)

(** The number a string of hexadecimal digits stands for. *)
Definition hex_value (d : Z) : Z := if d <? 58 then d - 48 else d - 87.
Definition hex_number (s : str) : Z := foldl (λ a d, 16 * a + hex_value d) 0 s.

Lemma hex_digit_value d : 0 ≤ d < 16 → hex_value (hex_digit d) = d ∧ hex_digit d ≠ NL ∧ hex_digit d ≠ 32.
Proof.
  intros Hd. unfold hex_value, hex_digit, NL. destruct (Z.ltb_spec d 10).
  - rewrite (proj2 (Z.ltb_lt (48 + d) 58)) by lia. lia.
  - rewrite (proj2 (Z.ltb_ge (87 + d) 58)) by lia. lia.
Qed.

Lemma hexs_spec n v :
  0 ≤ v < 16 ^ Z.of_nat n → hex_number (hexs n v) = v ∧ NL ∉ hexs n v.
Proof.
  revert v. induction n as [|n IH]; intros v Hv; [simpl in *; split; [unfold hex_number; simpl; lia|set_solver]|].
  rewrite Nat2Z.inj_succ, Z.pow_succ_r in Hv by lia. cbn [hexs]. destruct (Z.eqb_spec v 0) as [->|Hne]; [split; [done|set_solver]|].
  pose proof (Z.mod_pos_bound v 16 ltac:(lia)) as Hm. pose proof (Z.div_mod v 16 ltac:(lia)) as Hd.
  destruct (IH (v `div` 16)) as (Hn & Hl); [lia|]. destruct (hex_digit_value (v `mod` 16) Hm) as (Hv' & Hnl & _). split.
  - unfold hex_number in *. rewrite foldl_app, Hn. simpl. lia.
  - set_solver.
Qed.

(** Reading back what [{:#x}] prints. *)
Lemma hex_roundtrip v : is_uint 64 v → hex_number (drop 2 (hex v)) = v ∧ NL ∉ drop 2 (hex v).
Proof.
  intros Hv. unfold hex. destruct (Z.eqb_spec v 0) as [->|]; [split; [done|vm_compute; set_solver]|].
  change (drop 2 (lit "0x" ++ hexs 16 v)) with (hexs 16 v). apply hexs_spec. exact Hv.
Qed.

Section halts.
Context {U : Type} `{Uart16550 U}.

Lemma serial_println_spec pieces (s : serial U) :
  printing s → ∃ s', serial_println pieces s = Done s' ∧ printing s' ∧
    line (uart s') = line (uart s) ++ concat pieces ++ [NL].
Proof.
  intros Hp. unfold serial_println, _serial_print.
  assert (concat pieces ++ [NL] = concat (pieces ++ [[NL]])) as -> by (by rewrite concat_app).
  generalize (pieces ++ [[NL]]) as ps. intros ps. revert s Hp.
  induction ps as [|p ps IH]; intros s Hp; cbn [for_each concat]; [exists s; by rewrite app_nil_r|].
  destruct (serial_print_spec p s Hp) as (s1 & -> & Hp1 & E1 & _). cbn [mbind outcome_bind].
  destruct (IH s1 Hp1) as (s2 & -> & Hp2 & E2). exists s2. rewrite E2, E1, <-(assoc_L (++)). done.
Qed.

(** A line of output more, and the rest of the handler. *)
Lemma println_then pieces (s : serial U) (k : serial U → outcome (ending U)) (P : str → Prop) :
  printing s →
  (∀ s1, printing s1 → ∃ s' text, k s1 = Done (Halted s') ∧ line (uart s') = line (uart s1) ++ text ∧
     P (concat pieces ++ [NL] ++ text)) →
  ∃ s' text, (s1 ← serial_println pieces s; k s1) = Done (Halted s') ∧ line (uart s') = line (uart s) ++ text ∧ P text.
Proof.
  intros Hp Hk. destruct (serial_println_spec pieces s Hp) as (s1 & -> & Hp1 & E1). cbn [mbind outcome_bind].
  destruct (Hk s1 Hp1) as (s' & text & -> & E2 & HP). eexists s', _. split; [done|]. split; [|exact HP].
  by rewrite E2, E1, <-!(assoc_L (++)).
Qed.

Lemma oops_halts msg (s : serial U) (P : str → Prop) :
  printing s → P (lit "[KERNEL OOPS] " ++ msg ++ [NL]) →
  ∃ s' text, oops msg s = Done (Halted s') ∧ line (uart s') = line (uart s) ++ text ∧ P text.
Proof.
  intros Hp HP. apply println_then; [done|]. intros s1 Hp1. exists s1, []. rewrite !app_nil_r. split_and!; [done..|].
  cbn [concat]. by rewrite app_nil_r, <-(assoc_L (++)).
Qed.

Lemma panic_halts loc (s : serial U) (P : str → Prop) :
  printing s → (∀ text, P text) → ∃ s' text, panic loc s = Done (Halted s') ∧ line (uart s') = line (uart s) ++ text ∧ P text.
Proof.
  intros Hp HP. apply println_then; [done|]. intros s1 Hp1.
  destruct loc as [[file line]|]; (apply println_then; [done|]; intros s2 Hp2; exists s2, []; by rewrite !app_nil_r).
Qed.

(** A report has a line that names an address. *)
Definition names (what : string) (v : Z) (text : str) : Prop :=
  ∃ pre digits post, text = pre ++ lit what ++ lit ": 0x" ++ digits ++ [NL] ++ post ∧ hex_number digits = v ∧ NL ∉ digits.

Lemma names_line what v pre post :
  is_uint 64 v → names what v (concat [pre ++ lit what ++ lit ": "; hex v] ++ [NL] ++ post).
Proof.
  intros Hv. destruct (hex_roundtrip v Hv) as [Hn Hl]. exists pre, (drop 2 (hex v)), post. split; [|done].
  assert (hex v = lit "0x" ++ drop 2 (hex v)) as E by done. cbn [concat]. rewrite app_nil_r. rewrite E at 1.
  rewrite <-!(assoc_L (++)). done.
Qed.

Lemma names_later what v l text : names what v text → names what v (l ++ text).
Proof. intros (pre & d & post & -> & ?). exists (l ++ pre), d, post. by rewrite <-(assoc_L (++)). Qed.

Context {I : Type} `{IdtLib I}.

Definition is_exception (h : handler) : bool := match h with H_timer | H_keyboard | H_virtio => false | _ => true end.

Lemma exception_entry vector h : idt_get (IDT_new (I := I)) vector = Some h → is_exception h = true.
Proof.
  unfold IDT_new. rewrite !idt_field_get, idt_new_get. intros E. by repeat case_match; simplify_eq.
Qed.

(** C28: an exception stops the machine.  Whatever entry of the exception table
    the CPU takes, and so whichever task caused the exception, the handler does
    not return: it halts the CPU.  Before that it prints a report; except for a
    division by zero it has a line with the address of the instruction, from
    which the address can be read back, and for a page fault the address that
    was accessed. *)
Theorem exceptions_halt debug_code loc vector h r stack err (s : serial U) :
  idt_get (IDT_new (I := I)) vector = Some h → printing s →
  is_uint 64 (instruction_pointer stack) → is_uint 64 (r_cr2 r) →
  ∃ s' text, raise debug_code loc h r stack err s = Some (Done (Halted s')) ∧
    line (uart s') = line (uart s) ++ text ∧
    (h ≠ H_divide_by_zero → names "instruction pointer" (instruction_pointer stack) text) ∧
    (h = H_page_fault → names "Page fault address" (r_cr2 r) text).
Proof.
  intros Hh%exception_entry Hp Hip Hcr.
  set (P := λ text, (h ≠ H_divide_by_zero → names "instruction pointer" (instruction_pointer stack) text) ∧
                    (h = H_page_fault → names "Page fault address" (r_cr2 r) text)).
  assert (∀ o, (∃ s' text, o = Done (Halted s') ∧ line (uart s') = line (uart s) ++ text ∧ P text) →
    ∃ s' text, Some o = Some (Done (Halted s')) ∧ line (uart s') = line (uart s) ++ text ∧ P text) as Hsome
    by naive_solver.
  destruct h; try discriminate Hh; apply Hsome; subst P; cbv beta; clear Hsome.
  - by apply oops_halts.
  - apply println_then; [done|]. intros s1 Hp1. apply println_then; [done|]. intros s2 Hp2.
    apply println_then; [done|]. intros s3 Hp3. apply oops_halts; [done|]. split; intros _.
    + exact (names_line "instruction pointer" _ (lit "Page fault at ") _ Hip).
    + apply names_later, names_later. exact (names_line "Page fault address" _ [] _ Hcr).
  - apply println_then; [done|]. intros s1 Hp1. apply panic_halts; [done|]. intros text. split; [intros _|done].
    exact (names_line "instruction pointer" _ (lit "Double fault at ") _ Hip).
  - do 4 (apply println_then; [done|]; intros ? ?). apply oops_halts; [done|]. split; [intros _|done].
    exact (names_line "instruction pointer" _ (lit "General Protection Fault at ") _ Hip).
  - do 2 (apply println_then; [done|]; intros ? ?). apply oops_halts; [done|]. split; [intros _|done].
    exact (names_line "instruction pointer" _ (lit "Invalid TSS at ") _ Hip).
  - do 2 (apply println_then; [done|]; intros ? ?). apply oops_halts; [done|]. split; [intros _|done].
    exact (names_line "instruction pointer" _ (lit "Segment Not Present at ") _ Hip).
  - do 2 (apply println_then; [done|]; intros ? ?). apply oops_halts; [done|]. split; [intros _|done].
    exact (names_line "instruction pointer" _ (lit "Stack Segment Fault at ") _ Hip).
Qed.
End halts.

(** A page fault at address 16 of the program. *)
Lemma exceptions_halt_witness :
  ∃ s' text, raise (λ _, lit "USER_MODE") (lit "idt/src/lib.rs", 94) H_page_fault (mkFaultRegs 16 0x2B 0x23)
      (mkFrame 0x401000 0x7FFFFFFFE000) 4 (mkSerial (Some (mkSerialPort COM1)) (mkUart [] [] 3 1 0 0))
      = Some (Done (Halted s')) ∧
    line (uart s') = text ∧ names "instruction pointer" 0x401000 text ∧ names "Page fault address" 16 text.
Proof.
  destruct (exceptions_halt (I := gmap Z handler) (λ _, lit "USER_MODE") (lit "idt/src/lib.rs", 94) 14 H_page_fault
    (mkFaultRegs 16 0x2B 0x23) (mkFrame 0x401000 0x7FFFFFFFE000) 4 (mkSerial (Some (mkSerialPort COM1)) (mkUart [] [] 3 1 0 0)))
    as (s' & text & E & El & Hi & Hc); [vm_compute; reflexivity|by split|by split|by split|].
  exists s', text. split; [exact E|]. split; [exact El|]. split; [by apply Hi|by apply Hc].
Defined.
