(* ===== verification/Init.v ===== *)
(** * The first program (ulib/examples/init.rs)

    [_start] of the program, over the user library of Ulib: its string literals and
    local arrays are at the addresses of an [init_layout].  A slice beyond the
    buffer is a panic of the program, whose handler exits with -1.

    Shown here: on the kernel, at the terminal, with neither [/hello.txt] nor
    [/rsh] on the file system, the program prints its banner, its own and its
    parent's id in decimal and the message that the shell could not be started,
    and exits with 0. *)

From S2P Require Import Prelude KShell Pipe Keyboard Task Ipc Vfs RamFs.
From S2P Require Import Fd Console Serial Memory Loader Process Executor Syscall Devices KernelFiles KernelSample Ulib UlibSample.

(* ------------------------------------------------------------------ *)
(** ** The program *)

Definition BANNER : str := NL :: lit "=== Serix User Shell (init) ===" ++ [NL].
Definition PID_TEXT : str := lit "[init] PID: ".
Definition PPID_TEXT : str := lit ", PPID: ".
Definition NEWLINE : str := [NL].
Definition HELLO_PATH : str := lit "/hello.txt".
Definition HELLO_TEXT : str := lit "[init] /hello.txt: ".
Definition RSH_PATH : str := lit "/rsh".
Definition SPAWNED_TEXT : str := lit "[init] spawned rsh, pid=".
Definition EXITED_TEXT : str := lit "[init] rsh exited, status=".
Definition FAILED_TEXT : str := lit "[init] failed to spawn /rsh" ++ [NL].

(** Where the literals and the arrays are. *)
Record init_layout := mkLayout {
  at_banner : Z; at_pid : Z; at_ppid : Z; at_newline : Z; at_hello_path : Z; at_hello : Z;
  at_rsh_path : Z; at_spawned : Z; at_exited : Z; at_failed : Z; at_zero : Z;
  at_digits : Z; at_rbuf : Z; at_status : Z;
}.

Section program.
Context {W : Type} `{User W} (L : init_layout).
Open Scope user_scope.

(** The panic handler. *)
Definition user_panic : user W Empty_set := exit (-1).

(** [&rbuf[..n]]. *)
Definition write_prefix (fd buf len n : Z) : user W Z :=
  if len <? n then user_panic ;; uret 0 else write fd buf n.

(** The test of file reading; [fd] is an [isize]. *)
Definition init_hello (fd : Z) : user W unit :=
  if 3 <=? fd then
    let fd := wrap 64 fd in
    (λ w, Done (Some (), u_put (mem_write (at_rbuf L) (zrep 64 0) (u_mem w)) w)) ;;
    n ⇐ read fd (at_rbuf L) 64;
    write STDOUT (at_hello L) (zlen HELLO_TEXT) ;;
    write_prefix STDOUT (at_rbuf L) 64 n ;;
    write STDOUT (at_newline L) (zlen NEWLINE) ;;
    serix_close fd ;;
    uret ()
  else uret ().

Definition init_start : user W Empty_set :=
  write STDOUT (at_banner L) (zlen BANNER) ;;
  write STDOUT (at_pid L) (zlen PID_TEXT) ;;
  pid ⇐ serix_getpid;
  print_u64 (at_zero L) (at_digits L) pid ;;
  write STDOUT (at_ppid L) (zlen PPID_TEXT) ;;
  ppid ⇐ serix_getppid;
  print_u64 (at_zero L) (at_digits L) ppid ;;
  write STDOUT (at_newline L) (zlen NEWLINE) ;;
  fd ⇐ serix_open (at_hello_path L) (zlen HELLO_PATH);
  init_hello fd ;;
  child ⇐ serix_spawn (at_rsh_path L) (zlen RSH_PATH);
  (if 0 <? child then
    write STDOUT (at_spawned L) (zlen SPAWNED_TEXT) ;;
    print_u64 (at_zero L) (at_digits L) (wrap 64 child) ;;
    write STDOUT (at_newline L) (zlen NEWLINE) ;;
    ws ⇐ serix_wait (at_status L) (-1);
    write STDOUT (at_exited L) (zlen EXITED_TEXT) ;;
    print_u64 (at_zero L) (at_digits L) (wrap 64 ws.2) ;;
    write STDOUT (at_newline L) (zlen NEWLINE)
  else write STDOUT (at_failed L) (zlen FAILED_TEXT)) ;;
  exit 0.
End program.

(* ------------------------------------------------------------------ *)
(** ** On the kernel *)

(** The literals that are read on the way. *)
Definition literals (L : init_layout) : list (Z * str) :=
  [(at_banner L, BANNER); (at_pid L, PID_TEXT); (at_ppid L, PPID_TEXT); (at_newline L, NEWLINE);
   (at_hello_path L, HELLO_PATH); (at_rsh_path L, RSH_PATH); (at_failed L, FAILED_TEXT); (at_zero L, [48])].

(** One of them. *)
Ltac is_literal := unfold literals; solve [repeat first [apply list_elem_of_here | apply list_elem_of_further]].

(** The literals are in the program's memory, away from the array of digits. *)
Record loaded (L : init_layout) (m : umem) : Prop := {
  lo_text : ∀ a t, (a, t) ∈ literals L → mem_read a (zlen t) m = t;
  lo_place : ∀ a t, (a, t) ∈ literals L → in_user_half a (zlen t) ∧ ¬ (a < at_digits L + 20 ∧ at_digits L < a + zlen t);
}.

(** What appears on the terminal. *)
Definition init_transcript (pid ppid : Z) : str :=
  BANNER ++ PID_TEXT ++ decimal pid ++ PPID_TEXT ++ decimal ppid ++ NEWLINE ++ FAILED_TEXT.

(** Text the terminal shows, decided. *)
Lemma printable_text t : forallb (λ c, (32 <=? c) && (c <=? 126) || (c =? 10) || (c =? 8)) t = true → Forall printable t.
Proof.
  rewrite forallb_forall. intros Ht. apply Forall_forall. intros c Hc%list_elem_of_In%Ht. unfold printable, showable. lia.
Qed.

Lemma term_write_app c r a b g : term_write c r (a ++ b) g = term_write c r b (term_write c r a g).
Proof. apply foldl_app. Qed.

Section kernel.
Context {PT : Type} `{Mapper PT}.
Context {U : Type} `{Uart16550 U}.
Context {F : Type}.
Context (VirtAddr_new : Z → outcome Z) (heap_fits : Z → bool).
Context (create_mapper : Z → gmap Z (list Z) → PT) (user_entry_trampoline : Z).
Abbreviation N := (node dev).
Abbreviation St := (store dev (devs U)).
Context (mounts : list (MountEntry N)) (stdin stdout stderr : N).
Abbreviation kern := (kernel PT N St F).
Context (blocked : pending → kern → outcome (option Z * kern)) (rdi rsi rdx r10 : kern → Z).
Context (l0 l1 : loc) (cols_ rows_ newline erase : Z) (L : init_layout).
Implicit Types (k : kern).

#[local] Instance init_User : User kern :=
  kernel_User VirtAddr_new heap_fits create_mapper user_entry_trampoline mounts stdin stdout stderr blocked rdi rsi rdx r10.

Abbreviation session := (session l0 l1 cols_ rows_ newline erase).

(** The state the program runs in, from the start [k0]: what is on the terminal so
    far, its literals; the scheduler and the files in memory do not change. *)
Record running k0 (keys out : list Z) (g : term) k : Prop := {
  ru_session : session keys out g k;
  ru_loaded : loaded L (k_mem k);
  ru_rest : undisturbed k0 k;
}.

(** The numbers the program asks for, and the two files that are not there. *)
Record environment (pid ppid : Z) k0 : Prop := {
  en_pid : current_task_id (k_sched k0) = pid ∧ is_uint 64 pid;
  en_ppid : is_uint 64 ppid ∧ ∃ l t, current_task_arc (k_sched k0) = Done (Some l) ∧
    s_heap (k_sched k0) !! l = Some t ∧ t_parent_id t = ppid;
  en_files : ∀ path d, path ∈ [HELLO_PATH; RSH_PATH] →
    lookup_path mounts path (mkStore (st_heap (k_store k0)) d) = Done (None, mkStore (st_heap (k_store k0)) d);
}.

Lemma ubind_Done {A B} (m : user kern A) (f : A → user kern B) k a k' :
  m k = Done (Some a, k') → ubind m f k = f a k'.
Proof. intros E. unfold ubind. by rewrite E. Qed.

Lemma undisturbed_trans k0 (k1 k2 : kern) : undisturbed k0 k1 → undisturbed k1 k2 → undisturbed k0 k2.
Proof. intros [? ?] [? ?]. split; congruence. Qed.

(** A literal is printed. *)
Lemma running_write a t k0 keys out g k :
  (a, t) ∈ literals L → Forall printable t → running k0 keys out g k →
  ∃ r k', write STDOUT a (zlen t) k = Done (Some r, k') ∧ running k0 keys (out ++ t) (term_write cols_ rows_ t g) k'.
Proof.
  intros Hl Hp [Hse Hlo Hr]. destruct (lo_place _ _ Hlo _ _ Hl) as [Hu _].
  edestruct (session_write (F := F) VirtAddr_new heap_fits create_mapper user_entry_trampoline mounts stdin stdout stderr blocked
    rdi rsi rdx r10 l0 l1 cols_ rows_ newline erase a (zlen t) t keys out g k Hu Hse (lo_text _ _ Hlo _ _ Hl) Hp)
    as (r & k' & E & Hse' & Em & Hun).
  exists r, k'. split; [exact E|]. split; [done|by rewrite Em|by eapply undisturbed_trans].
Qed.

(** A number is printed. *)
Lemma running_print val k0 keys out g k :
  in_user_half (at_digits L) 20 → clear_of newline erase (at_digits L) 20 → is_uint 64 val → running k0 keys out g k →
  ∃ k', print_u64 (at_zero L) (at_digits L) val k = Done (Some (), k') ∧
    running k0 keys (out ++ decimal val) (term_write cols_ rows_ (decimal val) g) k'.
Proof.
  intros Hd Hc Hv [Hse Hlo Hr]. assert ((at_zero L, [48]) ∈ literals L) as Hz by is_literal.
  destruct (lo_place _ _ Hlo _ _ Hz) as [Hu _].
  edestruct (print_u64_decimal (F := F) VirtAddr_new heap_fits create_mapper user_entry_trampoline mounts stdin stdout stderr blocked
    rdi rsi rdx r10 l0 l1 cols_ rows_ newline erase (at_zero L) (at_digits L) val keys out g k Hu
    (lo_text _ _ Hlo _ _ Hz) Hd Hc Hv Hse) as (k' & E & Hse' & Em & Hun & _).
  exists k'. split; [exact E|]. split; [done| |by eapply undisturbed_trans].
  destruct Hlo as [Ht Hpl]. split; [|done]. intros a t Hin. rewrite Em by (by apply Hpl). by apply Ht.
Qed.

(** Looking for a file that is not there changes nothing. *)
Lemma absent_lookup path pid ppid k0 k :
  path ∈ [HELLO_PATH; RSH_PATH] → environment pid ppid k0 → undisturbed k0 k →
  lookup_path mounts path (k_store k) = Done (None, k_store k).
Proof.
  intros Hin [_ _ Hf] [_ Hh]. destruct k as [[[hp dv] f sc pa tb ph sp ks] ip ex me]. simpl in *. rewrite Hh. by apply Hf.
Qed.

(** The path of a call that takes one. *)
Lemma literal_path a t k0 keys out g k (body : str → outcome (sysret * kern)) :
  (a, t) ∈ literals L → ascii t → running k0 keys out g k → with_path a (zlen t) k body = body t.
Proof.
  intros Hl Ht [_ Hlo _]. destruct (lo_place _ _ Hlo _ _ Hl) as [Hu _]. unfold with_path.
  rewrite accessible_in_half by (done || apply zlen_nonneg || destruct Hu; lia). cbn [negb].
  rewrite (lo_text _ _ Hlo _ _ Hl). by rewrite utf8_ascii.
Qed.

Lemma running_open pid ppid k0 keys out g k :
  environment pid ppid k0 → running k0 keys out g k →
  serix_open (at_hello_path L) (zlen HELLO_PATH) k = Done (Some (as_signed 64 ERRNO_ENOENT), k).
Proof.
  intros He Hr. change (serix_open (at_hello_path L) (zlen HELLO_PATH) k) with
    ('(r, k) ← come_back blocked (sys_open mounts (at_hello_path L) (zlen HELLO_PATH) k);
     match r with Some a => Done (Some (as_signed 64 a), k) | None => Done (None, k) end).
  unfold sys_open. rewrite (literal_path (at_hello_path L) HELLO_PATH k0 keys out g) by (is_literal || done || by repeat constructor).
  unfold open. rewrite (absent_lookup HELLO_PATH pid ppid k0 k) by (set_solver || apply Hr || done).
  cbn [mbind outcome_bind].
  assert (set_store (k_store k) k = k) as -> by (by destruct k as [[]]).
  rewrite release_same by (apply settle_none; apply Hr). done.
Qed.

Lemma init_hello_absent k : init_hello L (as_signed 64 ERRNO_ENOENT) k = Done (Some (), k).
Proof. done. Qed.

Lemma running_spawn pid ppid k0 keys out g k :
  environment pid ppid k0 → running k0 keys out g k →
  serix_spawn (at_rsh_path L) (zlen RSH_PATH) k = Done (Some (as_signed 64 ERRNO_ENOENT), k).
Proof.
  intros He Hr. change (serix_spawn (at_rsh_path L) (zlen RSH_PATH) k) with
    ('(r, k) ← come_back blocked (sys_spawn VirtAddr_new heap_fits create_mapper user_entry_trampoline mounts stdin stdout stderr
        (at_rsh_path L) (zlen RSH_PATH) k);
     match r with Some a => Done (Some (as_signed 64 a), k) | None => Done (None, k) end).
  unfold sys_spawn. rewrite (literal_path (at_rsh_path L) RSH_PATH k0 keys out g) by (is_literal || done || by repeat constructor).
  unfold spawn_user_process. change (ps_store (k_sys k)) with (k_store k).
  rewrite (absent_lookup RSH_PATH pid ppid k0 k) by (set_solver || apply Hr || done). cbn [mbind outcome_bind].
  by destruct k as [[] ? ? ?].
Qed.

(** A step of the program that prints a literal, or a number. *)
Ltac print_step a t :=
  match goal with R : running _ _ _ _ _ |- _ =>
    let E := fresh "E" in let R' := fresh "R" in
    destruct (running_write a t _ _ _ _ _ ltac:(is_literal) ltac:(apply printable_text; vm_compute; reflexivity) R)
      as (? & ? & E & R'); rewrite (ubind_Done _ _ _ _ _ E); clear E R end.
Ltac number_step v Hv :=
  match goal with Hd : in_user_half _ 20, Hc : clear_of _ _ _ 20, R : running _ _ _ _ _ |- _ =>
    let E := fresh "E" in let R' := fresh "R" in
    destruct (running_print v _ _ _ _ _ Hd Hc Hv R) as (? & E & R'); rewrite (ubind_Done _ _ _ _ _ E); clear E R end.

Lemma running_getpid pid ppid k0 keys out g k :
  environment pid ppid k0 → running k0 keys out g k → serix_getpid k = Done (Some pid, k).
Proof.
  intros [[Hp _] _ _] [_ _ [Hs _]].
  change (serix_getpid k) with (Done (Some (current_task_id (k_sched k)), k)). by rewrite Hs, Hp.
Qed.

Lemma running_getppid pid ppid k0 keys out g k :
  environment pid ppid k0 → running k0 keys out g k → serix_getppid k = Done (Some ppid, k).
Proof.
  intros [_ (_ & l & t & Hc & Ht & Hp) _] [_ _ [Hs _]].
  change (serix_getppid k) with (come_back blocked (sys_getppid k)). unfold sys_getppid. rewrite Hs, Hc. cbn [mbind outcome_bind].
  unfold task_at. rewrite Ht. cbn [mbind outcome_bind unwrap]. by rewrite Hp.
Qed.

End kernel.

(* ------------------------------------------------------------------ *)
(** ** A run *)

(** Literals from 8192 on; the array of digits at 12288. *)
Definition demo_layout : init_layout :=
  mkLayout 8192 8448 8704 8960 9216 9472 9728 9984 10240 10496 10752 12288 16384 20480.

Definition demo_image : umem :=
  foldr (λ e m, mem_write e.1 e.2 m) session_mem_image (literals demo_layout).

Definition init_kernel : kernel (gmap Z Z) (node dev) (store dev (devs uart_model)) unit := set_mem demo_image session_kernel.

(** The two conditions on the image, decided. *)
Lemma loaded_check L m :
  forallb (λ e, bool_decide (mem_read e.1 (zlen e.2) m = e.2)) (literals L) = true →
  forallb (λ e, (0 <? e.1) && (0 <? zlen e.2) && (e.1 + zlen e.2 <=? 2 ^ 47) &&
    ((at_digits L + 20 <=? e.1) || (e.1 + zlen e.2 <=? at_digits L))) (literals L) = true →
  loaded L m.
Proof.
  rewrite !forallb_forall. intros Ht Hp. split; intros a t Hin%list_elem_of_In.
  - exact (bool_decide_eq_true_1 _ (Ht _ Hin)).
  - apply Hp in Hin. cbn [fst snd] in Hin. unfold in_user_half. lia.
Qed.

Lemma demo_loaded : loaded demo_layout (k_mem init_kernel).
Proof. apply loaded_check; vm_compute; reflexivity. Qed.

Lemma init_session : session 0%nat 1%nat 1 1 4096 4097 [104; 105; 120; 8; 10] [] (term_blank 1 1) init_kernel.
Proof.
  destruct session_start as [? ? ? ? ? ? ? ? ? ?]. split; try assumption; vm_compute; reflexivity.
Qed.

Lemma init_environment : environment [mkMountEntry [SLASH] (Ram 0%nat)] 7 0 init_kernel.
Proof.
  split.
  - split; [reflexivity|split; lia].
  - split; [split; lia|]. exists 1%nat, (sample_tcb 7 Running). by split_and!.
  - intros path d. rewrite !elem_of_cons, elem_of_nil. intros [->|[->|[]]]; vm_compute; reflexivity.
Qed.

